(* ===== verification/_CoqProject ===== *)
-Q . S2P
Prelude.v
GoStd.v
Json.v
GoText.v
Utf8.v
JsonRaw.v
JsonPrefix.v
GoFloat.v
GoNet.v
GoTime.v
GoWeb.v
Errors.v
GoFmt.v
Results.v
State.v
Model.v
Repository.v
Collections.v
Directory.v
ModelRepository.v
KeyRepository.v
KeyFacts.v
ETag.v
Svc.v
Service.v
Platform.v
Wire.v
WireFacts.v
KeyService.v
Http.v
Registry.v
Dapr.v
Faults.v
HttpFacts.v
Runtime.v
Protocol.v
System.v
Interleave.v
ServiceFacts.v
ServiceSafety.v
DaprFacts.v
Concurrency.v
RuntimeFacts.v
Termination.v
EndToEnd.v
Sequential.v
Ir.v
IrFacts.v
Decode.v
DaprState.v
AdapterConfig.v
DaprStateFacts.v
DaprStores.v
Dataplane.v
IrWire.v
IrWireFacts.v
Adapter.v
Gateway.v
OpenAI.v
OpenAIFacts.v
OpenAIHttp.v
Anthropic.v
AnthropicFacts.v
AnthropicHttp.v
Gemini.v
GeminiFacts.v
GeminiHttp.v
Responses.v
ResponsesFacts.v
ResponsesHttp.v
AdapterFacts.v
GatewayFacts.v
Session.v
SessionFacts.v
AdminView.v
AdminUI.v
AdminResources.v
AdminFacts.v
AdminClient.v
AdminClientFacts.v
