(* ===== verification/Prelude.v ===== *)
(** * gwai: a verification development

    gwai is an LLM gateway: it gives users virtual API keys for the models of
    several providers.  This library models its services in Rocq and proves
    what their clients rely on.  Names follow the Go code; paths are relative
    to [src/].

    ** The program

    - The _resource control plane_ ([internal/controlplane/http.go],
      [service.go], [model_http.go], [model_service.go]) administers users,
      providers and models.  The _virtual-key control plane_
      ([virtual_key_http.go], [virtual_key_service.go]) issues keys and keeps a
      projection of every user and model, its _subjects_, with the revision of
      the resource.  The first writes the projections of the second through
      [subject_client.go]: a fence before a resource is disabled or deleted,
      a synchronisation after it is created or enabled.
    - Their state is in three key-value stores ([internal/state]) with an
      entity tag per key and atomic transactions; the repositories
      ([repository.go], [model_repository.go], [model_subject_repository.go])
      keep entities, indexes and unique lookups in them.
    - The _gateways_ speak OpenAI Chat, OpenAI Responses, Anthropic Messages
      and Gemini to clients.  [internal/dataplane] authorizes a key for a model
      ([controlplane/runtime.go]), resolves the route, translates the request
      to the neutral protocol ([internal/ir]) and invokes the _adapter_ of the
      provider, which checks that it is for its provider, translates it to the
      provider's protocol, sends it with the credential of the provider and
      translates the answer back.
    - The services call each other through Dapr sidecars
      ([internal/daprhttp]).  The _administration UI_ ([internal/adminui]) is a
      server of HTML forms with sessions that calls both control planes.

    ** The files

    _Standard library of Go_, as the code uses it.  [GoStd]: integers of 64
    bits, [strings], [strconv], hex, base64, SHA-256, slices.  [Json],
    [JsonRaw], [JsonPrefix]: [encoding/json], raw messages and how they are
    compacted, values at the start of a text.  [Wire], [WireFacts]: structs with
    their tags, written and read, and the round trip of their fields.
    [GoFloat]: doubles as texts.  [Utf8], [GoText], [GoNet], [GoTime], [GoFmt], [GoWeb]: UTF-8,
    mail addresses and patterns, URLs and IP addresses, times, error texts,
    forms and cookies.  [Errors], [Results], [Decode]: error values with [errors.Is] and [errors.As], the result
    monad, decoders of struct fields.

    _State._ [State]: the interface [state.Store] as a class with its laws,
    [memory.go] as an instance, effect trees ([prog]) over the three stores,
    the clock and the random source, and their sequential run.  [DaprState],
    [DaprStateFacts], [DaprStores]: [daprhttp/state.go] and [secrets.go], the
    store used in production, over any sidecar that serves the state API.

    _Repositories._ [Model]: the resources and their JSON.  [Repository],
    [ModelRepository], [KeyRepository]: the operations of the three repository
    files.  [Collections]: the generic create, replace and delete as operations
    on tables.  [Directory]: users and providers as tables.  [KeyFacts]: keys,
    subjects and fences as tables.

    _Control planes._ [ETag]: [etag.go].  [Svc]: services as trees of atomic
    calls, each a [prog] under the lock of its store or a call to the other
    control plane.  [Service]: [service.go] and [model_service.go].
    [KeyService]: [virtual_key_service.go].  [Registry]:
    [subject_client.go].  [Runtime], [RuntimeFacts]: [runtime.go].
    [Platform], [Http], [HttpFacts]: [platform/http.go] and the handlers.
    [Dapr], [DaprFacts]: [daprhttp/client.go] and the remote registry over it.

    _Concurrency._ [Faults]: a store reached over a network, whose reads fail
    and whose transactions are lost before or after the commit.  [Protocol]:
    the invariant between the resources, the fences and the projections, and
    the ghost history it is about.  [System]: configurations with any number of
    requests in flight, a step relation, reachability.  [Interleave],
    [ServiceFacts], [ServiceSafety], [Concurrency]: every
    service operation keeps the invariant at each of its calls, so any
    interleaving does.  [Termination], [EndToEnd], [Sequential]: what follows
    for clients.

    _Data plane._ [Ir], [IrFacts]: [internal/ir].  [Dataplane], [Gateway]:
    [dataplane/gateway.go].  [OpenAI], [Anthropic], [Gemini], [Responses], each
    with a file of facts: the types and both translations of a protocol.
    [IrWire], [IrWireFacts]: the neutral protocol as JSON, the call
    of an adapter over Dapr, and what the other side reads.  [AdapterConfig]:
    [adapterconfig/config.go].  [Adapter], [AdapterFacts]: the handler the four
    adapters share, over a record of what differs between them, and its
    contract.  [OpenAIHttp], [AnthropicHttp], [GeminiHttp], [ResponsesHttp]:
    per protocol, the JSON of [types.go], that record ([openai/adapter.go],
    [anthropic/http.go], [gemini/adapter.go], [openairesponses/adapter_http.go])
    and the gateway ([openai/http.go], [gateway_http.go], [gateway.go]).
    [GatewayFacts]: the gateways, and one request all the way to a provider and
    back.

    _Administration UI._ [Session], [SessionFacts]: [session.go].  [AdminView],
    [AdminUI], [AdminResources], [AdminFacts]: [view.go], [handler.go],
    [resources.go].  [AdminClient], [AdminClientFacts]: [client.go].

    ** What is proved

    - _Stores and repositories_ (C1-C7, C28): the memory store is an atomic
      compare-and-swap, and the Dapr store refines it; every history of repository calls answers as a
      specification over tables, so uniqueness, referential integrity, fences
      and monotone revisions hold after any history.
    - _Entity tags_ (C8): [If-Match] lists are read back; [ETag] has the
      precondition, which holds exactly for the tag that is served.
    - _The two control planes together_ (C10-C15, C29-C31, C40): however
      requests interleave and whatever fails, projections stay backed by the
      resources, deleted and disabled users are refused, decisions are those of
      a reference over the tables, the remote registry keeps the laws the
      services rely on, a retried request settles, and every request ends.
    - _The neutral protocol and its translations_ (C16, C18-C24, C33-C36):
      validation accepts exactly the well-formed requests and answers, an
      adapter is only invoked for a key that is granted, and each protocol's
      requests and answers keep their meaning through both translations, with
      token counts exact in 64 bits.
    - _Adapters and gateways_ (C9, C17, C27, C32): a provider is asked at most
      once per request, with its credential and only for a valid request that
      is for it; a gateway that invokes an adapter over Dapr has the adapter's
      contract carried out for the very request it has; both sides read what
      the other wrote; the four gateways answer errors alike.
    - _HTTP_ (C25, C26): bounded bodies and refused strangers.
    - _Administration UI_ (C37-C39): sessions and tokens, requests without a
      session change nothing, and what the UI reports of a change is what the
      service did or says that this is not known.

    ** Conventions, bounds and fuel

    A Go [string] or [[]byte] is a sequence of bytes ([string]); an [int] or
    [uint64] a [Z] with the wrap-around written out where the code can reach
    it; a map a [gmap], or a list when its order is observed; a pointer an
    [option]; a [float64] an IEEE 754 value of [SpecFloat].  Errors keep their
    format and arguments.  Recursion over a text takes its length as fuel, the
    JSON parser twice the length and two: every call consumes a byte, and
    [parse_value_print] and [JsonPrefix] show it is enough.  The invariants of
    the projections assume fewer than 2^64 steps, since revisions are [uint64]
    counters; the statement says so.

    A call of a service is atomic: it runs under the lock of its store, or is
    one transaction.  The locks [userMu] and [modelMu] that serialise whole
    requests are left out, so more interleavings are covered than occur.
    Transports and sidecars are parameters of the model, with at-most-once
    delivery as the named hypothesis where a theorem needs it.

    ** Limits of the model

    [ToLower], [ToUpper] and [EqualFold] only fold ASCII; [%q] leaves every
    rune from U+0080 on as it is; domain literals of mail addresses are IPv4;
    [net/url] is the one of Go 1.26; the nesting limit and the error texts of
    [encoding/json] are left out.  The routing is that of [http.ServeMux] on
    clean paths.  A request body is never nil; whether a response body can be
    read is a parameter.  Deadlines are failures of the effect that times out.
    Parallel reads of the UI are made in their order, and forms arrive parsed.

    ** Not modelled

    [cmd/*], [platform/config.go] and [platform.Serve] (process start-up,
    settings of the process, listeners, signals, logging), the HTML templates, assets and security headers of the UI, the
    recovery of panics, [deploy/helm], [api], scripts and the fake provider of
    the end-to-end tests: they hold no state of the program.  Of the gateways
    and adapters, what they log, the redirect of [http.ServeMux] for a Gemini
    path without its last slash, and base URLs with credentials, which the
    configuration refuses. *)

From Stdlib Require Export ZArith Lia.
From stdpp Require Export base option list strings gmap sets numbers.

#[export] Set Default Goal Selector "!".
#[export] Set Warnings "-clear-no-such-hyp".

(** ** Notation scope of the development *)

Declare Scope gwai_scope.
Delimit Scope gwai_scope with gwai.
Open Scope gwai_scope.

(** ** Tactics *)

(** Destruct the scrutinee of a [match] or [if] of the goal or of a hypothesis. *)
Ltac case_goal :=
  match goal with
  | |- context [match ?x with _ => _ end] => destruct x eqn:?
  end.

Ltac case_in H :=
  match type of H with
  | context [match ?x with _ => _ end] => destruct x eqn:?
  end.

(** ** Hint databases *)

Create HintDb gwai discriminated.
Create Rewrite HintDb gwai_rw.

(** ** Lists *)

Section lists.
Context {A : Type}.

(** [forallb] and [existsb] against stdpp's membership. *)
Lemma forallb_elem (f : A → bool) (l : list A) :
  forallb f l = true ↔ (∀ x, x ∈ l → f x = true).
Proof.
  rewrite List.forallb_forall.
  split; intros H x Hx; apply H; by apply list_elem_of_In.
Qed.

Lemma existsb_elem (f : A → bool) (l : list A) :
  existsb f l = true ↔ (∃ x, x ∈ l ∧ f x = true).
Proof.
  rewrite List.existsb_exists.
  split; intros (x & Hx & Hf); exists x; (split; [by apply list_elem_of_In|done]).
Qed.
End lists.

(** ** Strings *)

Lemma string_app_cons c (s t : string) : String c s +:+ t = String c (s +:+ t).
Proof. done. Qed.

Lemma string_app_nil_l (s : string) : "" +:+ s = s.
Proof. done. Qed.

Lemma string_app_nil_r (s : string) : s +:+ "" = s.
Proof. induction s as [|c s IH]; [done|]. by rewrite string_app_cons, IH. Qed.

Lemma string_app_assoc (s t u : string) : (s +:+ t) +:+ u = s +:+ (t +:+ u).
Proof. induction s as [|c s IH]; [done|]. by rewrite !string_app_cons, IH. Qed.

Lemma string_length_app (s t : string) :
  String.length (s +:+ t) = (String.length s + String.length t)%nat.
Proof. induction s as [|c s IH]; [done|]. rewrite string_app_cons. simpl. by rewrite IH. Qed.

#[export] Instance string_app_inj (s : string) : Inj (=) (=) (String.append s).
Proof.
  induction s as [|c s IH]; intros t u H; [done|].
  change (String c (s +:+ t) = String c (s +:+ u)) in H. apply IH. by injection H.
Qed.

#[export] Hint Rewrite string_app_nil_r string_app_assoc string_app_cons string_app_nil_l : gwai_rw.
