(* ===== verification/GoStd.v ===== *)
(** * The Go standard library the program uses

    Executable models of the parts of Go's standard library the program calls
    on its own data: fixed-width integers and [strconv], [strings],
    [encoding/hex], [encoding/base64], [crypto/sha256] and [slices].  A Go
    [string] (or [[]byte]) is a Rocq [string]: a sequence of bytes. *)

From S2P Require Import Prelude.
From Stdlib Require Import DecimalString DecimalPos DecimalN DecimalFacts.
From Stdlib Require Import Ascii.

(** ** Integers *)

(** [uint64] arithmetic wraps modulo 2^64; [int] is a signed 64-bit integer. *)
Definition two64 : Z := 18446744073709551616.
Definition two63 : Z := 9223372036854775808.
Definition uint64 (z : Z) : Z := z mod two64.
Definition int64 (z : Z) : Z := (z + two63) mod two64 - two63.

Definition fits64 (z : Z) : Prop := (- two63 <= z < two63)%Z.

Lemma int64_id z : fits64 z → int64 z = z.
Proof. unfold fits64, int64, two63, two64. intros H. rewrite Z.mod_small; lia. Qed.
Lemma int64_fits z : fits64 (int64 z).
Proof.
  unfold fits64, int64. pose proof (Z.mod_pos_bound (z + two63) two64).
  unfold two63, two64 in *. lia.
Qed.
Lemma int64_equal a b k : a = (b + k * two64)%Z → int64 a = int64 b.
Proof.
  intros ->. unfold int64. replace (b + k * two64 + two63)%Z with (b + two63 + k * two64)%Z by lia.
  rewrite Z.mod_add; [done|]. unfold two64. lia.
Qed.
Lemma int64_congr z : ∃ k, int64 z = (z + k * two64)%Z.
Proof.
  exists (- ((z + two63) / two64))%Z. unfold int64.
  pose proof (Z.div_mod (z + two63) two64). unfold two64 in *. lia.
Qed.
Lemma int64_add a b : int64 (int64 a + b) = int64 (a + b).
Proof. destruct (int64_congr a) as [k Hk]. apply (int64_equal _ _ k). lia. Qed.
Lemma int64_sub a b : int64 (int64 a - b) = int64 (a - b).
Proof. destruct (int64_congr a) as [k Hk]. apply (int64_equal _ _ k). lia. Qed.

(** [strconv.FormatUint(n, 10)]. *)
Definition FormatUint (n : Z) : string :=
  NilZero.string_of_uint (N.to_uint (Z.to_N n)).

(** [strconv.ParseUint(s, 10, 64)] on a token made of decimal digits. *)
Definition ParseUint (s : string) : option Z :=
  match NilZero.uint_of_string s with
  | Some u => let n := Z.of_N (N.of_uint u) in if n <? two64 then Some n else None
  | None => None
  end%Z.

Lemma N_to_uint_nonnil (n : N) : N.to_uint n ≠ Decimal.Nil.
Proof. destruct n as [|p]; [done|]. apply DecimalPos.Unsigned.to_uint_nonnil. Qed.

Lemma FormatUint_inj (a b : Z) :
  (0 <= a)%Z → (0 <= b)%Z → FormatUint a = FormatUint b → a = b.
Proof.
  intros Ha Hb H. apply (f_equal NilZero.uint_of_string) in H.
  unfold FormatUint in H. rewrite !NilZero.usu in H;
    try (apply N_to_uint_nonnil).
  injection H as H. apply DecimalN.Unsigned.to_uint_inj in H. lia.
Qed.

Lemma ParseUint_FormatUint (n : Z) :
  (0 <= n < two64)%Z → ParseUint (FormatUint n) = Some n.
Proof.
  intros Hn. unfold ParseUint, FormatUint.
  rewrite NilZero.usu by apply N_to_uint_nonnil.
  rewrite DecimalN.Unsigned.of_to, Z2N.id by lia.
  by destruct (Z.ltb_spec n two64); [|lia].
Qed.

Lemma FormatUint_nonempty (n : Z) : FormatUint n ≠ "".
Proof.
  unfold FormatUint. pose proof (N_to_uint_nonnil (Z.to_N n)) as Hn.
  by destruct (N.to_uint (Z.to_N n)).
Qed.

(** ** Bytes and strings *)

Definition byte_val (c : ascii) : N := N_of_ascii c.
Definition chr (n : N) : ascii := ascii_of_N n.

Fixpoint bytes_of (s : string) : list ascii :=
  match s with
  | EmptyString => []
  | String c s' => c :: bytes_of s'
  end.

Fixpoint string_of (l : list ascii) : string :=
  match l with
  | [] => EmptyString
  | c :: l' => String c (string_of l')
  end.

Definition string_map (f : ascii → ascii) (s : string) : string :=
  string_of (map f (bytes_of s)).

Definition string_rev (s : string) : string := string_of (rev (bytes_of s)).

(** [strings.HasPrefix] / [strings.CutPrefix]: what follows the prefix. *)
Fixpoint CutPrefix (p s : string) : option string :=
  match p, s with
  | EmptyString, _ => Some s
  | String a p', String b s' => if Ascii.eqb a b then CutPrefix p' s' else None
  | String _ _, EmptyString => None
  end.

Definition HasPrefix (s p : string) : bool := if CutPrefix p s is Some _ then true else false.
Definition TrimPrefix (s p : string) : string := default s (CutPrefix p s).
Definition HasSuffix (s p : string) : bool := HasPrefix (string_rev s) (string_rev p).
Definition TrimSuffix (s p : string) : string :=
  match CutPrefix (string_rev p) (string_rev s) with
  | Some r => string_rev r
  | None => s
  end.

(** [strings.Cut(s, sep)] for a separator of one byte. *)
Fixpoint Cut (sep : ascii) (s : string) : option (string * string) :=
  match s with
  | EmptyString => None
  | String c s' =>
      if Ascii.eqb c sep then Some (EmptyString, s')
      else match Cut sep s' with
           | Some (l, r) => Some (String c l, r)
           | None => None
           end
  end.

(** [strings.ContainsAny(s, chars)] for ASCII [chars]. *)
Definition ContainsAny (s : string) (chars : list ascii) : bool :=
  existsb (λ c, bool_decide (c ∈ chars)) (bytes_of s).

(** [strings.ToLower], on the ASCII letters. *)
Definition lower_byte (c : ascii) : ascii :=
  let n := byte_val c in
  if ((65 <=? n) && (n <=? 90))%N then chr (n + 32) else c.
Definition ToLower (s : string) : string := string_map lower_byte s.
(** [strings.ToUpper] of ASCII letters. *)
Definition upper_byte (c : ascii) : ascii :=
  let n := byte_val c in if ((97 <=? n) && (n <=? 122))%N then chr (n - 32) else c.
Definition ToUpper (s : string) : string := string_map upper_byte s.

(** [strings.EqualFold], on the ASCII letters. *)
Definition EqualFold (s t : string) : bool := bool_decide (ToLower s = ToLower t).

(** UTF-8 encodings of the code points [unicode.IsSpace] accepts. *)
Definition u8 (l : list N) : string := string_of (map chr l).
Definition unicode_spaces : list string := map u8
  [ [9]; [10]; [11]; [12]; [13]; [32]; [194; 133]; [194; 160]; [225; 154; 128];
    [226; 128; 128]; [226; 128; 129]; [226; 128; 130]; [226; 128; 131];
    [226; 128; 132]; [226; 128; 133]; [226; 128; 134]; [226; 128; 135];
    [226; 128; 136]; [226; 128; 137]; [226; 128; 138]; [226; 128; 168];
    [226; 128; 169]; [226; 128; 175]; [226; 129; 159]; [227; 128; 128] ]%N.

Fixpoint first_some {A B} (f : A → option B) (l : list A) : option B :=
  match l with
  | [] => None
  | x :: l' => match f x with Some y => Some y | None => first_some f l' end
  end.

Fixpoint trim_prefixes (fuel : nat) (ps : list string) (s : string) : string :=
  match fuel with
  | O => s
  | S fuel' =>
      match first_some (λ p, CutPrefix p s) ps with
      | Some r => trim_prefixes fuel' ps r
      | None => s
      end
  end.

(** [strings.TrimSpace]; each round removes a non-empty space, so the length
    of the string is enough fuel. *)
Definition TrimLeftSpace (s : string) : string :=
  trim_prefixes (String.length s) unicode_spaces s.
Definition TrimRightSpace (s : string) : string :=
  string_rev (trim_prefixes (String.length s) (map string_rev unicode_spaces) (string_rev s)).
Definition TrimSpace (s : string) : string := TrimRightSpace (TrimLeftSpace s).

(** [bytes.TrimSpace] is the same function on byte slices. *)

(** Text between visible ASCII characters is trimmed to itself. *)
Definition graph (c : ascii) : bool := ((32 <? byte_val c) && (byte_val c <? 128))%N.

Definition head_not_graph (p : string) : bool :=
  match p with EmptyString => false | String a _ => negb (graph a) end.

Lemma trim_prefixes_graph n ps c s :
  forallb head_not_graph ps = true → graph c = true →
  trim_prefixes n ps (String c s) = String c s.
Proof.
  intros Hps Hc. destruct n as [|n]; [done|]. cbn.
  assert (first_some (λ p, CutPrefix p (String c s)) ps = None) as ->; [|done].
  induction ps as [|p ps IH]; [done|]. cbn in Hps. apply andb_true_iff in Hps as [Hp Hps].
  cbn [first_some]. destruct p as [|a p]; [done|]. cbn in Hp. cbn [CutPrefix].
  destruct (Ascii.eqb_spec a c) as [->|_]; [by rewrite Hc in Hp|]. by apply IH.
Qed.

Lemma bytes_of_string_of l : bytes_of (string_of l) = l.
Proof. induction l as [|c l IH]; cbn; [done|by rewrite IH]. Qed.
Lemma string_of_bytes_of s : string_of (bytes_of s) = s.
Proof. induction s as [|c s IH]; cbn; [done|by rewrite IH]. Qed.
Lemma bytes_of_app s t : bytes_of (s +:+ t) = bytes_of s ++ bytes_of t.
Proof. induction s as [|c s IH]; [done|]. rewrite string_app_cons. cbn. by rewrite IH. Qed.
Lemma string_rev_involutive s : string_rev (string_rev s) = s.
Proof. unfold string_rev. by rewrite bytes_of_string_of, rev_involutive, string_of_bytes_of. Qed.
Lemma string_rev_snoc s c : string_rev (s +:+ String c "") = String c (string_rev s).
Proof. unfold string_rev. rewrite bytes_of_app. cbn. by rewrite rev_app_distr. Qed.

Lemma TrimSpace_graph s c c' t :
  s = String c t → graph c = true → (∃ r, s = r +:+ String c' "") → graph c' = true →
  TrimSpace s = s.
Proof.
  intros Hs Hc [r Hr] Hc'. unfold TrimSpace, TrimLeftSpace.
  rewrite Hs, trim_prefixes_graph, <- Hs by (done || by vm_compute). unfold TrimRightSpace.
  rewrite Hr, string_rev_snoc, trim_prefixes_graph by (done || by vm_compute).
  rewrite <- string_rev_snoc. apply string_rev_involutive.
Qed.

(** ** [encoding/hex] *)

Definition hex_digit (n : N) : ascii :=
  if (n <? 10)%N then chr (48 + n) else chr (87 + n).
Definition hex_byte (n : N) : string :=
  String (hex_digit (n / 16)%N) (String (hex_digit (n mod 16)%N) "").
Definition EncodeToString (bytes : list N) : string :=
  foldr (λ b acc, hex_byte b +:+ acc) "" bytes.

(** The characters of a hexadecimal text. *)
Definition hex_digits : list ascii := map (λ n, hex_digit (N.of_nat n)) (seq 0 16).

Lemma hex_digit_in n : (n < 16)%N → hex_digit n ∈ hex_digits.
Proof.
  intros Hn. unfold hex_digits. apply list_elem_of_In, in_map_iff.
  exists (N.to_nat n). rewrite N2Nat.id. split; [done|]. apply in_seq. lia.
Qed.

Lemma hex_text (P : ascii → bool) l :
  forallb P hex_digits = true → Forall (λ b, (b < 256)%N) l →
  forallb P (bytes_of (EncodeToString l)) = true.
Proof.
  intros HP. rewrite forallb_elem in HP. induction 1 as [|b l Hb Hl IH]; [done|].
  change (EncodeToString (b :: l)) with (hex_byte b +:+ EncodeToString l).
  rewrite bytes_of_app, forallb_app, IH, andb_true_r. cbn [hex_byte bytes_of forallb].
  rewrite andb_true_r. apply andb_true_iff. split; apply HP, hex_digit_in.
  - apply N.Div0.div_lt_upper_bound. lia.
  - by apply N.mod_lt.
Qed.

(** ** [crypto/sha256] *)

Module Sha256.
Definition w32 (x : N) : N := N.land x 4294967295.
Definition add32 (x y : N) : N := w32 (x + y).
Definition rotr (k x : N) : N :=
  N.lor (N.shiftr x k) (w32 (N.shiftl x (32 - k))).
Definition not32 (x : N) : N := N.lxor x 4294967295.

Definition bsig0 x := N.lxor (N.lxor (rotr 2 x) (rotr 13 x)) (rotr 22 x).
Definition bsig1 x := N.lxor (N.lxor (rotr 6 x) (rotr 11 x)) (rotr 25 x).
Definition ssig0 x := N.lxor (N.lxor (rotr 7 x) (rotr 18 x)) (N.shiftr x 3).
Definition ssig1 x := N.lxor (N.lxor (rotr 17 x) (rotr 19 x)) (N.shiftr x 10).
Definition ch x y z := N.lxor (N.land x y) (N.land (not32 x) z).
Definition maj x y z := N.lxor (N.lxor (N.land x y) (N.land x z)) (N.land y z).

Definition K : list N :=
  [ 1116352408; 1899447441; 3049323471; 3921009573; 961987163; 1508970993; 2453635748; 2870763221;
    3624381080; 310598401; 607225278; 1426881987; 1925078388; 2162078206; 2614888103; 3248222580;
    3835390401; 4022224774; 264347078; 604807628; 770255983; 1249150122; 1555081692; 1996064986;
    2554220882; 2821834349; 2952996808; 3210313671; 3336571891; 3584528711; 113926993; 338241895;
    666307205; 773529912; 1294757372; 1396182291; 1695183700; 1986661051; 2177026350; 2456956037;
    2730485921; 2820302411; 3259730800; 3345764771; 3516065817; 3600352804; 4094571909; 275423344;
    430227734; 506948616; 659060556; 883997877; 958139571; 1322822218; 1537002063; 1747873779;
    1955562222; 2024104815; 2227730452; 2361852424; 2428436474; 2756734187; 3204031479; 3329325298 ]%N.

Definition H0 : list N :=
  [ 1779033703; 3144134277; 1013904242; 2773480762;
    1359893119; 2600822924; 528734635; 1541459225 ]%N.

(** Extend the message schedule, kept most recent word first. *)
Definition next_word (w : list N) : N :=
  add32 (add32 (ssig1 (nth 1 w 0%N)) (nth 6 w 0%N))
        (add32 (ssig0 (nth 14 w 0%N)) (nth 15 w 0%N)).
Fixpoint extend (n : nat) (w : list N) : list N :=
  match n with
  | O => w
  | S n' => extend n' (next_word w :: w)
  end.

Definition round (st : list N) (kw : N * N) : list N :=
  match st with
  | [a; b; c; d; e; f; g; h] =>
      let t1 := add32 (add32 (add32 h (bsig1 e)) (add32 (ch e f g) (fst kw))) (snd kw) in
      let t2 := add32 (bsig0 a) (maj a b c) in
      [add32 t1 t2; a; b; c; add32 d t1; e; f; g]
  | _ => st
  end.

Definition compress (st : list N) (block : list N) : list N :=
  let w := rev (extend 48 (rev block)) in
  zip_with add32 st (foldl round st (combine K w)).

Fixpoint words (l : list N) : list N :=
  match l with
  | a :: b :: c :: d :: l' => (a * 16777216 + b * 65536 + c * 256 + d)%N :: words l'
  | _ => []
  end.

Fixpoint blocks (fuel : nat) (l : list N) : list (list N) :=
  match fuel with
  | O => []
  | S fuel' => match l with [] => [] | _ => take 16 l :: blocks fuel' (drop 16 l) end
  end.

Definition be_bytes (k : nat) (n : N) : list N :=
  map (λ i, N.modulo (N.shiftr n (8 * N.of_nat i)) 256) (rev (seq 0 k)).

Definition pad (l : list N) : list N :=
  let n := length l in
  l ++ [128%N] ++ replicate ((119 - n mod 64) mod 64) 0%N ++ be_bytes 8 (8 * N.of_nat n)%N.

Definition sum (l : list N) : list N :=
  let ws := words (pad l) in
  concat (map (be_bytes 4) (foldl compress H0 (blocks (length ws) ws))).
End Sha256.

(** [hex.EncodeToString(sha256.Sum256([]byte(s)))]. *)
Definition sha256_hex (s : string) : string :=
  EncodeToString (Sha256.sum (map byte_val (bytes_of s))).

Example sha256_abc :
  sha256_hex "abc" = "ba7816bf8f01cfea414140de5dae2223b00361a396177a9cb410ff61f20015ad".
Proof. vm_compute. reflexivity. Qed.

Example sha256_empty :
  sha256_hex "" = "e3b0c44298fc1c149afbf4c8996fb92427ae41e4649b934ca495991b7852b855".
Proof. vm_compute. reflexivity. Qed.

Example sha256_two_blocks :
  sha256_hex "abcdbcdecdefdefgefghfghighijhijkijkljklmklmnlmnomnopnopq"
  = "248d6a61d20638b8e5c026930c3e6039a33ce45964ff2167f6ecedd419db06c1".
Proof. vm_compute. reflexivity. Qed.

Lemma sha256_bytes l : Forall (λ b, (b < 256)%N) (Sha256.sum l).
Proof.
  unfold Sha256.sum. generalize (foldl Sha256.compress Sha256.H0
    (Sha256.blocks (length (Sha256.words (Sha256.pad l))) (Sha256.words (Sha256.pad l)))).
  intros ws. induction ws as [|x ws IH]; [constructor|]. cbn [map concat].
  apply list.Forall_app. split; [|done]. unfold Sha256.be_bytes.
  apply list.Forall_fmap, list.Forall_true. intros i. by apply N.mod_lt.
Qed.

Lemma sha256_hex_text (P : ascii → bool) s :
  forallb P hex_digits = true → forallb P (bytes_of (sha256_hex s)) = true.
Proof. intros HP. apply hex_text; [done|apply sha256_bytes]. Qed.
