(* ===== verification/Json.v ===== *)
(** * [encoding/json]

    UTF-8 runes, JSON values, [json.Marshal]'s text output and
    [json.Unmarshal]'s parser, with the round trip between the two.  A
    [json.RawMessage] is the text itself, a [string].

    Two resource limits of the Go decoder are not modelled: its nesting limit
    of 10000 levels and the exact text of its syntax errors ([None] here). *)

From S2P Require Import Prelude GoStd.
From Stdlib Require Import Ascii.

(** ** UTF-8 ([unicode/utf8]) *)

Fixpoint str_take (n : nat) (s : string) : string :=
  match n, s with
  | S n', String c s' => String c (str_take n' s')
  | _, _ => ""
  end.

Fixpoint str_drop (n : nat) (s : string) : string :=
  match n, s with
  | S n', String _ s' => str_drop n' s'
  | _, _ => s
  end.

Definition in_range (lo hi : N) (c : ascii) : bool :=
  ((lo <=? byte_val c) && (byte_val c <=? hi))%N.
Definition cont (c : ascii) : bool := in_range 128 191 c.
Definition byte_is (n : N) (c : ascii) : bool := (byte_val c =? n)%N.

(** Size of the rune a string starts with; 0 when it does not start with a
    well-formed one ([utf8.DecodeRune] returning [RuneError, 1]). *)
Definition rune_size (s : string) : nat :=
  match s with
  | String a s1 =>
    if (byte_val a <? 128)%N then 1 else
    match s1 with
    | String b s2 =>
      if in_range 194 223 a then (if cont b then 2 else 0) else
      match s2 with
      | String c s3 =>
        if in_range 224 239 a then
          if (if byte_is 224 a then in_range 160 191 b
              else if byte_is 237 a then in_range 128 159 b else cont b) && cont c
          then 3 else 0
        else
        match s3 with
        | String d _ =>
          if in_range 240 244 a then
            if (if byte_is 240 a then in_range 144 191 b
                else if byte_is 244 a then in_range 128 143 b else cont b) && cont c && cont d
            then 4 else 0
          else 0
        | "" => 0
        end
      | "" => 0
      end
    | "" => 0
    end
  | "" => 0
  end.

Fixpoint valid_utf8_go (fuel : nat) (s : string) : bool :=
  match s with
  | "" => true
  | _ =>
      match rune_size s, fuel with
      | S n, S fuel' => valid_utf8_go fuel' (str_drop (S n) s)
      | _, _ => false
      end
  end.

(** [utf8.ValidString]. *)
Definition valid_utf8 (s : string) : bool := valid_utf8_go (String.length s) s.

(** [utf8.AppendRune] for a code point outside the surrogate range. *)
Definition encode_rune (r : N) : string :=
  (if r <? 128 then u8 [r]
   else if r <? 2048 then u8 [192 + r / 64; 128 + r mod 64]
   else if r <? 65536 then u8 [224 + r / 4096; 128 + (r / 64) mod 64; 128 + r mod 64]
   else u8 [240 + r / 262144; 128 + (r / 4096) mod 64; 128 + (r / 64) mod 64; 128 + r mod 64])%N.

Definition rune_error : string := u8 [239; 191; 189]%N.

(** ** Values *)

#[warnings="-register-all"]
Inductive json : Type :=
| JNull
| JBool (b : bool)
| JNum (lit : string)
| JStr (s : string)
| JArr (l : list json)
| JObj (m : list (string * json)).

Definition dquote : ascii := chr 34.
Definition backslash : ascii := chr 92.

(** ** Printing ([json.Marshal] with HTML escaping) *)

Definition esc (c : ascii) : string := String backslash (String c "").

Definition quote_ascii (c : ascii) : string :=
  match byte_val c with
  | 34 => esc dquote | 92 => esc backslash
  | 8 => esc "b" | 12 => esc "f" | 10 => esc "n" | 13 => esc "r" | 9 => esc "t"
  | n => if ((n <? 32) || (n =? 60) || (n =? 62) || (n =? 38))%N
         then esc "u" +:+ "00" +:+ hex_byte n
         else String c ""
  end%N%char.

Definition quote_rune (r : string) : string :=
  if bool_decide (r = u8 [226; 128; 168]%N) then esc "u" +:+ "2028"
  else if bool_decide (r = u8 [226; 128; 169]%N) then esc "u" +:+ "2029"
  else r.

Fixpoint quote_go (fuel : nat) (s : string) : string :=
  match fuel, s with
  | S fuel', String c s' =>
      if (byte_val c <? 128)%N then quote_ascii c +:+ quote_go fuel' s'
      else
        match rune_size s with
        | O => esc "u" +:+ "fffd" +:+ quote_go fuel' s'
        | n => quote_rune (str_take n s) +:+ quote_go fuel' (str_drop n s)
        end
  | _, _ => ""
  end.

Definition quote (s : string) : string :=
  String dquote (quote_go (String.length s) s +:+ String dquote "").

Fixpoint join (sep : string) (l : list string) : string :=
  match l with
  | [] => ""
  | [x] => x
  | x :: l' => x +:+ sep +:+ join sep l'
  end.

Fixpoint print (j : json) : string :=
  match j with
  | JNull => "null"
  | JBool true => "true"
  | JBool false => "false"
  | JNum lit => lit
  | JStr s => quote s
  | JArr l => "[" +:+ join "," (map print l) +:+ "]"
  | JObj m => "{" +:+ join "," (map (λ '(k, v), quote k +:+ ":" +:+ print v) m) +:+ "}"
  end.

(** ** Parsing *)

Definition is_ws (c : ascii) : bool :=
  let n := byte_val c in ((n =? 32) || (n =? 9) || (n =? 10) || (n =? 13))%N.

Fixpoint skip_ws (s : string) : string :=
  match s with
  | String c s' => if is_ws c then skip_ws s' else s
  | "" => ""
  end.

Definition hex_val (c : ascii) : option N :=
  if in_range 48 57 c then Some (byte_val c - 48)%N
  else if in_range 97 102 c then Some (byte_val c - 87)%N
  else if in_range 65 70 c then Some (byte_val c - 55)%N
  else None.

Definition parse_u4 (s : string) : option (N * string) :=
  match s with
  | String a (String b (String c (String d r))) =>
      match hex_val a, hex_val b, hex_val c, hex_val d with
      | Some x, Some y, Some z, Some w => Some (((x * 16 + y) * 16 + z) * 16 + w, r)%N
      | _, _, _, _ => None
      end
  | _ => None
  end.

Definition high_surrogate (r : N) : bool := ((55296 <=? r) && (r <=? 56319))%N.
Definition low_surrogate (r : N) : bool := ((56320 <=? r) && (r <=? 57343))%N.

(** The code point of a [\uXXXX] escape (and of the second half of a surrogate
    pair), as UTF-8, with the text that follows. *)
Definition unescape_u (s : string) : option (string * string) :=
  match parse_u4 s with
  | None => None
  | Some (r, s1) =>
      if high_surrogate r || low_surrogate r then
        match CutPrefix (esc "u") s1 with
        | Some s2 =>
            match parse_u4 s2 with
            | Some (r2, s3) =>
                if high_surrogate r && low_surrogate r2
                then Some (encode_rune (65536 + (r - 55296) * 1024 + (r2 - 56320))%N, s3)
                else Some (rune_error, s1)
            | None => Some (rune_error, s1)
            end
        | None => Some (rune_error, s1)
        end
      else Some (encode_rune r, s1)
  end.

Definition simple_escape (c : ascii) : option ascii :=
  match byte_val c with
  | 34 => Some dquote | 92 => Some backslash | 47 => Some c
  | 98 => Some (chr 8) | 102 => Some (chr 12) | 110 => Some (chr 10)
  | 114 => Some (chr 13) | 116 => Some (chr 9)
  | _ => None
  end%N.

Definition push (chunk : string) (o : option (string * string)) : option (string * string) :=
  match o with
  | Some (v, r) => Some (chunk +:+ v, r)
  | None => None
  end.

(** The rest of a string literal, after its opening quote. *)
Fixpoint parse_lit (fuel : nat) (s : string) : option (string * string) :=
  match fuel, s with
  | S fuel', String c s' =>
      if Ascii.eqb c dquote then Some ("", s')
      else if Ascii.eqb c backslash then
        match s' with
        | String e s'' =>
            if Ascii.eqb e "u" then
              match unescape_u s'' with
              | Some (u, r) => push u (parse_lit fuel' r)
              | None => None
              end
            else
              match simple_escape e with
              | Some c' => push (String c' "") (parse_lit fuel' s'')
              | None => None
              end
        | "" => None
        end
      else if (byte_val c <? 32)%N then None
      else
        match rune_size s with
        | O => push rune_error (parse_lit fuel' s')
        | n => push (str_take n s) (parse_lit fuel' (str_drop n s))
        end
  | _, _ => None
  end.

Definition is_digit (c : ascii) : bool := in_range 48 57 c.
Definition number_char (c : ascii) : bool :=
  is_digit c || byte_is 43 c || byte_is 45 c || byte_is 46 c || byte_is 69 c || byte_is 101 c.

Fixpoint span (p : ascii → bool) (s : string) : string * string :=
  match s with
  | String c s' =>
      if p c then let '(l, r) := span p s' in (String c l, r) else ("", s)
  | "" => ("", "")
  end.

(** The number grammar of RFC 8259: an optional minus sign, an integer part
    without superfluous zeros, an optional fraction and an optional exponent. *)
Definition valid_exponent (s : string) : bool :=
  match s with
  | "" => true
  | String c s1 =>
      (byte_is 69 c || byte_is 101 c) &&
      let s2 := match s1 with
                | String d s2 => if byte_is 43 d || byte_is 45 d then s2 else s1
                | "" => s1
                end in
      match span is_digit s2 with (String _ _, "") => true | _ => false end
  end.

Definition valid_fraction (s : string) : bool :=
  match s with
  | String c s1 =>
      if byte_is 46 c
      then match span is_digit s1 with (String _ _, r) => valid_exponent r | _ => false end
      else valid_exponent s
  | "" => true
  end.

Definition valid_number (s : string) : bool :=
  let s1 := match s with String c s1 => if byte_is 45 c then s1 else s | "" => s end in
  match span is_digit s1 with
  | (String c ds, r) => (negb (byte_is 48 c) || bool_decide (ds = "")) && valid_fraction r
  | _ => false
  end.

Definition parse_number (s : string) : option (json * string) :=
  let '(lit, r) := span number_char s in
  if valid_number lit then Some (JNum lit, r) else None.

Definition parse_keyword (s : string) : option (json * string) :=
  match CutPrefix "null" s with
  | Some r => Some (JNull, r)
  | None =>
      match CutPrefix "true" s with
      | Some r => Some (JBool true, r)
      | None =>
          match CutPrefix "false" s with
          | Some r => Some (JBool false, r)
          | None => None
          end
      end
  end.

Fixpoint parse_value (fuel : nat) (s : string) : option (json * string) :=
  match fuel with
  | O => None
  | S f =>
      match skip_ws s with
      | "" => None
      | String c s' =>
          if Ascii.eqb c dquote then
            match parse_lit (S (String.length s')) s' with
            | Some (v, r) => Some (JStr v, r)
            | None => None
            end
          else if Ascii.eqb c "[" then
            match skip_ws s' with
            | String "]" r => Some (JArr [], r)
            | _ => match parse_elements f s' with
                   | Some (l, r) => Some (JArr l, r)
                   | None => None
                   end
            end
          else if Ascii.eqb c "{" then
            match skip_ws s' with
            | String "}" r => Some (JObj [], r)
            | _ => match parse_members f s' with
                   | Some (m, r) => Some (JObj m, r)
                   | None => None
                   end
            end
          else if is_digit c || byte_is 45 c then parse_number (String c s')
          else parse_keyword (String c s')
      end
  end
with parse_elements (fuel : nat) (s : string) : option (list json * string) :=
  match fuel with
  | O => None
  | S f =>
      match parse_value f s with
      | None => None
      | Some (v, s1) =>
          match skip_ws s1 with
          | String "]" r => Some ([v], r)
          | String "," s2 =>
              match parse_elements f s2 with
              | Some (l, r) => Some (v :: l, r)
              | None => None
              end
          | _ => None
          end
      end
  end
with parse_members (fuel : nat) (s : string) : option (list (string * json) * string) :=
  match fuel with
  | O => None
  | S f =>
      match skip_ws s with
      | String c s1 =>
          if Ascii.eqb c dquote then
            match parse_lit (S (String.length s1)) s1 with
            | None => None
            | Some (k, s2) =>
                match skip_ws s2 with
                | String ":" s3 =>
                    match parse_value f s3 with
                    | None => None
                    | Some (v, s4) =>
                        match skip_ws s4 with
                        | String "}" r => Some ([(k, v)], r)
                        | String "," s5 =>
                            match parse_members f s5 with
                            | Some (m, r) => Some ((k, v) :: m, r)
                            | None => None
                            end
                        | _ => None
                        end
                    end
                | _ => None
                end
            end
          else None
      | "" => None
      end
  end.

(** Every recursive call of the parser consumes a byte, except the step from
    [parse_elements] to [parse_value]; twice the length is enough fuel. *)
Definition parse (s : string) : option json :=
  match parse_value (2 * String.length s + 2) s with
  | Some (j, r) => if bool_decide (skip_ws r = "") then Some j else None
  | None => None
  end.

(** [json.Valid]. *)
Definition Valid (s : string) : bool := if parse s is Some _ then true else false.

(** ** Well-formed values: the ones whose text parses back to them *)

#[warnings="-register-all"]
Inductive wf_json : json → Prop :=
| wf_null : wf_json JNull
| wf_bool b : wf_json (JBool b)
| wf_num c lit :
    valid_number (String c lit) = true →
    is_digit c || byte_is 45 c = true →
    forallb number_char (bytes_of lit) = true →
    wf_json (JNum (String c lit))
| wf_str s : valid_utf8 s = true → wf_json (JStr s)
| wf_arr l : Forall wf_json l → wf_json (JArr l)
| wf_obj m : Forall (λ kv, valid_utf8 kv.1 = true ∧ wf_json kv.2) m → wf_json (JObj m).

(** ** Round trip *)

Section json_induction.
Context (P : json → Prop).
Hypothesis Hnull : P JNull.
Hypothesis Hbool : ∀ b, P (JBool b).
Hypothesis Hnum : ∀ lit, P (JNum lit).
Hypothesis Hstr : ∀ s, P (JStr s).
Hypothesis Harr : ∀ l, Forall P l → P (JArr l).
Hypothesis Hobj : ∀ m, Forall (λ kv, P kv.2) m → P (JObj m).

Fixpoint json_nested_ind (j : json) : P j :=
  match j with
  | JNull => Hnull
  | JBool b => Hbool b
  | JNum lit => Hnum lit
  | JStr s => Hstr s
  | JArr l => Harr l ((fix go l : Forall P l :=
      match l with
      | [] => Forall_nil_2 _
      | x :: l' => Forall_cons_2 _ _ _ (json_nested_ind x) (go l')
      end) l)
  | JObj m => Hobj m ((fix go m : Forall (λ kv, P kv.2) m :=
      match m with
      | [] => Forall_nil_2 _
      | kv :: m' => Forall_cons_2 (λ kv, P kv.2) _ _ (json_nested_ind kv.2) (go m')
      end) m)
  end.
End json_induction.

Lemma str_take_drop n s : str_take n s +:+ str_drop n s = s.
Proof.
  revert s. induction n as [|n IH]; intros [|c s]; try done.
  cbn. rewrite string_app_cons. by rewrite IH.
Qed.

(** A string that starts with a rune of [n] bytes is those bytes followed by
    the rest, and the bytes alone decide it. *)
Lemma rune_size_app s t n :
  rune_size s = S n → rune_size (s +:+ t) = S n ∧
    str_take (S n) (s +:+ t) = str_take (S n) s ∧
    str_drop (S n) (s +:+ t) = str_drop (S n) s +:+ t.
Proof.
  destruct s as [|a [|b [|c [|d s]]]]; rewrite ?string_app_cons, ?string_app_nil_l;
    unfold rune_size; intros H; repeat case_in H; simplify_eq; done.
Qed.

Lemma rune_size_length s n : rune_size s = S n → (S n <= String.length s)%nat.
Proof.
  destruct s as [|a [|b [|c [|d s]]]]; unfold rune_size; intros H;
    repeat case_in H; simplify_eq; cbn; lia.
Qed.

Lemma str_length_drop n s : String.length (str_drop n s) = (String.length s - n)%nat.
Proof. revert s. induction n as [|n IH]; intros [|c s]; cbn; auto. Qed.

(** Non-ASCII runes start with a byte the literal parser takes as text. *)
Lemma rune_multibyte c s n :
  rune_size (String c s) = S n → (byte_val c <? 128)%N = false →
  Ascii.eqb c dquote = false ∧ Ascii.eqb c backslash = false ∧ (byte_val c <? 32)%N = false.
Proof.
  intros _ Hc. apply N.ltb_ge in Hc. split_and!.
  - apply Ascii.eqb_neq. intros ->. by vm_compute in Hc.
  - apply Ascii.eqb_neq. intros ->. by vm_compute in Hc.
  - apply N.ltb_ge. lia.
Qed.

Lemma parse_lit_ascii f c t :
  (byte_val c <? 128)%N = true →
  parse_lit (S f) (quote_ascii c +:+ t) = push (String c "") (parse_lit f t).
Proof.
  intros H. destruct c as [[] [] [] [] [] [] [] []]; try discriminate H; reflexivity.
Qed.

Lemma parse_lit_rune f s n t :
  rune_size s = S n → (match s with String c _ => byte_val c <? 128 | "" => true end)%N = false →
  parse_lit (S f) (quote_rune (str_take (S n) s) +:+ t)
  = push (str_take (S n) s) (parse_lit f t).
Proof.
  intros Hn Hc. unfold quote_rune.
  case_bool_decide as H1; [rewrite H1; reflexivity|].
  case_bool_decide as H2; [rewrite H2; reflexivity|].
  destruct s as [|c s]; [done|].
  destruct (rune_multibyte _ _ _ Hn Hc) as (Hq & Hb & Hlt).
  pose proof (str_take_drop (S n) (String c s)) as Hs.
  assert (Hr : rune_size (str_take (S n) (String c s)) = S n ∧
    str_take (S n) (str_take (S n) (String c s)) = str_take (S n) (String c s) ∧
    str_drop (S n) (str_take (S n) (String c s)) = "").
  { clear -Hn. destruct s as [|b [|d [|e s]]]; unfold rune_size in *;
      repeat case_in Hn; simplify_eq; cbn; repeat case_goal; simplify_eq; done. }
  destruct Hr as (Hr & Htt & Hd).
  destruct (rune_size_app _ t _ Hr) as (Hr' & Ht & Hdr).
  rewrite Hd in Hdr. rewrite Htt in Ht. clear Hs Hd Htt.
  cbn [str_take] in *. rewrite string_app_cons in *.
  cbn [parse_lit]. rewrite Hq, Hb, Hlt, Hr'.
  cbn [str_take str_drop] in *. rewrite Ht, Hdr. done.
Qed.

Lemma parse_lit_quote n s f t :
  valid_utf8_go n s = true → (n <= f)%nat →
  parse_lit (S f) (quote_go n s +:+ String dquote t) = Some (s, t).
Proof.
  revert s f. induction n as [|n IH]; intros s f Hv Hf.
  { destruct s as [|c s]; [done|]. cbn in Hv. by repeat case_in Hv. }
  destruct s as [|c s]; [done|].
  destruct f as [|f]; [lia|].
  cbn [valid_utf8_go] in Hv. destruct (rune_size (String c s)) as [|k] eqn:Hk; [done|].
  cbn [quote_go]. destruct (byte_val c <? 128)%N eqn:Hc.
  - assert (k = 0%nat) as ->. { cbn in Hk. rewrite Hc in Hk. by simplify_eq. }
    rewrite string_app_assoc, parse_lit_ascii by done.
    cbn [str_drop] in Hv. rewrite IH by (done || lia). done.
  - rewrite Hk. rewrite string_app_assoc, parse_lit_rune by done.
    rewrite IH by (done || lia). unfold push. by rewrite str_take_drop.
Qed.

Lemma quote_go_length n s :
  valid_utf8_go n s = true → (String.length s <= String.length (quote_go n s))%nat.
Proof.
  revert s. induction n as [|n IH]; intros s Hv.
  { destruct s as [|c s]; [done|]. cbn in Hv. by repeat case_in Hv. }
  destruct s as [|c s]; [cbn; lia|].
  cbn [valid_utf8_go] in Hv. destruct (rune_size (String c s)) as [|k] eqn:Hk; [done|].
  cbn [quote_go]. destruct (byte_val c <? 128)%N eqn:Hc.
  - assert (k = 0%nat) as ->. { cbn in Hk. rewrite Hc in Hk. by simplify_eq. }
    cbn [str_drop] in Hv. rewrite string_length_app. specialize (IH _ Hv).
    assert (1 <= String.length (quote_ascii c))%nat.
    { clear. destruct c as [[] [] [] [] [] [] [] []]; vm_compute; lia. }
    cbn [String.length]. lia.
  - rewrite Hk, string_length_app. specialize (IH _ Hv).
    pose proof (rune_size_length _ _ Hk) as Hl.
    rewrite str_length_drop in IH.
    assert (S k <= String.length (quote_rune (str_take (S k) (String c s))))%nat; [|lia].
    unfold quote_rune. clear -Hk Hl.
    assert (S k <= 4)%nat.
    { destruct s as [|b [|d [|e s]]]; unfold rune_size in *; repeat case_in Hk; simplify_eq; lia. }
    assert (String.length (str_take (S k) (String c s)) = S k) as Ht.
    { pose proof (str_take_drop (S k) (String c s)) as Ht.
      apply (f_equal String.length) in Ht. rewrite string_length_app, str_length_drop in Ht. lia. }
    case_bool_decide; [etrans; [done|]; vm_compute; lia|].
    case_bool_decide; [etrans; [done|]; vm_compute; lia|]. lia.
Qed.

Lemma parse_lit_quoted s t :
  valid_utf8 s = true →
  ∃ u, quote s +:+ t = String dquote u ∧ parse_lit (S (String.length u)) u = Some (s, t).
Proof.
  intros Hv. exists (quote_go (String.length s) s +:+ String dquote t). split.
  - unfold quote. by rewrite string_app_cons, string_app_assoc, string_app_cons.
  - apply parse_lit_quote; [done|]. rewrite string_length_app.
    pose proof (quote_go_length _ _ Hv). lia.
Qed.

(** What may follow a value in printed text: nothing that continues a number. *)
Definition delimited (t : string) : Prop :=
  match t with "" => True | String c _ => number_char c = false end.

Lemma span_app p s t :
  forallb p (bytes_of s) = true →
  match t with "" => True | String c _ => p c = false end →
  span p (s +:+ t) = (s, t).
Proof.
  induction s as [|c s IH]; intros Hs Ht.
  - rewrite string_app_nil_l. destruct t as [|c t]; [done|]. cbn. by rewrite Ht.
  - rewrite string_app_cons. cbn in *. apply andb_prop in Hs as [-> Hs]. by rewrite IH.
Qed.

Lemma parse_number_app c lit t :
  valid_number (String c lit) = true → is_digit c || byte_is 45 c = true →
  forallb number_char (bytes_of lit) = true → delimited t →
  parse_number (String c lit +:+ t) = Some (JNum (String c lit), t).
Proof.
  intros Hv Hc Hl Ht. unfold parse_number. rewrite span_app; [by rewrite Hv| |done].
  cbn. rewrite Hl, andb_true_r. unfold number_char.
  apply orb_prop in Hc as [->| ->]; [done|]. by rewrite !orb_true_r.
Qed.

Lemma is_digit_not_special c :
  is_digit c || byte_is 45 c = true →
  is_ws c = false ∧ Ascii.eqb c dquote = false ∧ Ascii.eqb c "[" = false ∧ Ascii.eqb c "{" = false
  ∧ Ascii.eqb c "]" = false.
Proof. destruct c as [[] [] [] [] [] [] [] []]; intros H; try discriminate H; done. Qed.

(** The statement of the round trip for one value, in a context. *)
Definition reads_back (j : json) : Prop :=
  ∀ f t, (2 * String.length (print j) + 2 <= f)%nat → delimited t →
    parse_value f (print j +:+ t) = Some (j, t).

(** The text of a value starts with a byte that is neither a space nor a
    closing bracket. *)
Lemma print_head j :
  wf_json j → ∃ c u, print j = String c u ∧ is_ws c = false ∧ Ascii.eqb c "]" = false.
Proof.
  destruct 1 as [|[]|c lit _ Hc _|s _|l _|m _];
    try (eexists _, _; split; [reflexivity|done]).
  exists c, lit. split; [done|]. destruct (is_digit_not_special _ Hc) as (?&?&?&?&?); done.
Qed.

Lemma skip_ws_print j t : wf_json j → skip_ws (print j +:+ t) = print j +:+ t.
Proof.
  intros Hj. destruct (print_head j Hj) as (c & u & -> & Hc & _).
  rewrite string_app_cons. cbn. by rewrite Hc.
Qed.

Lemma delimited_after sep (t : string) :
  number_char sep = false → delimited (String sep t).
Proof. done. Qed.

Lemma parse_elements_print l f t :
  l ≠ [] → Forall wf_json l → Forall reads_back l →
  (2 * String.length (join "," (map print l)) + 4 <= f)%nat →
  parse_elements f (join "," (map print l) +:+ String "]" t) = Some (l, t).
Proof.
  revert f. induction l as [|x l IH]; intros f Hne Hwf Hrb Hf; [done|].
  inversion_clear Hwf as [|?? Hx Hl]. inversion_clear Hrb as [|?? Rx Rl].
  destruct f as [|f]; [lia|]. destruct l as [|y l].
  - cbn [map join] in *. cbn [parse_elements]. by rewrite Rx by (done || lia).
  - cbn [map] in *. set (rest := join "," (print y :: map print l)) in *.
    change (join "," (print x :: print y :: map print l))
      with (print x +:+ "," +:+ rest) in *.
    rewrite !string_length_app in Hf. cbn [String.length] in Hf.
    rewrite !string_app_assoc. cbn [parse_elements].
    rewrite Rx by (done || lia). rewrite string_app_cons. cbn [skip_ws].
    change (is_ws ",") with false. cbv iota.
    rewrite string_app_nil_l. unfold rest. by rewrite IH by (done || lia).
Qed.

Definition print_member (kv : string * json) : string :=
  quote kv.1 +:+ ":" +:+ print kv.2.

Lemma print_obj m : print (JObj m) = "{" +:+ join "," (map print_member m) +:+ "}".
Proof.
  change (print (JObj m))
    with ("{" +:+ join "," (map (λ '(k, v), quote k +:+ ":" +:+ print v) m) +:+ "}").
  by rewrite (List.map_ext _ print_member) by (by intros [k v]).
Qed.

Lemma parse_members_print m f t :
  m ≠ [] → Forall (λ kv, valid_utf8 kv.1 = true ∧ wf_json kv.2) m →
  Forall (λ kv, reads_back kv.2) m →
  (2 * String.length (join "," (map print_member m)) + 4 <= f)%nat →
  parse_members f (join "," (map print_member m) +:+ String "}" t) = Some (m, t).
Proof.
  revert f. induction m as [|[k v] m IH]; intros f Hne Hwf Hrb Hf; [done|].
  inversion_clear Hwf as [|?? [Hk Hv] Hm]. inversion_clear Hrb as [|?? Rv Rm]. cbn [fst snd] in *.
  destruct f as [|f]; [lia|].
  assert (Hmem : ∀ u, print_member (k, v) +:+ u = quote k +:+ String ":" (print v +:+ u)).
  { intros u. unfold print_member. cbn [fst snd]. by rewrite !string_app_assoc. }
  assert (Hlen : (String.length (print v) + 3 <= String.length (print_member (k, v)))%nat).
  { unfold print_member, quote. cbn [fst snd]. rewrite !string_length_app. cbn [String.length].
    rewrite string_length_app. cbn. lia. }
  destruct m as [|y m].
  - cbn [map join] in *. rewrite Hmem.
    destruct (parse_lit_quoted k (String ":" (print v +:+ String "}" t)) Hk) as (u & -> & Hu).
    cbn [parse_members]. change (skip_ws (String dquote u)) with (String dquote u). cbv iota beta.
    change (Ascii.eqb dquote dquote) with true. cbv iota.
    rewrite Hu. cbn [skip_ws]. change (is_ws ":") with false. cbv iota beta.
    rewrite Rv by (done || lia). done.
  - cbn [map] in *. set (rest := join "," (print_member y :: map print_member m)) in *.
    change (join "," (print_member (k, v) :: print_member y :: map print_member m))
      with (print_member (k, v) +:+ "," +:+ rest) in *.
    rewrite !string_length_app in Hf. cbn [String.length] in Hf.
    rewrite !string_app_assoc, Hmem.
    destruct (parse_lit_quoted k (String ":" (print v +:+ "," +:+ rest +:+ String "}" t)) Hk)
      as (u & -> & Hu).
    cbn [parse_members]. change (skip_ws (String dquote u)) with (String dquote u). cbv iota beta.
    change (Ascii.eqb dquote dquote) with true. cbv iota.
    rewrite Hu. cbn [skip_ws]. change (is_ws ":") with false. cbv iota beta.
    rewrite Rv by (done || lia). rewrite string_app_cons. cbn [skip_ws].
    change (is_ws ",") with false. cbv iota.
    rewrite string_app_nil_l. unfold rest. by rewrite IH by (done || lia).
Qed.

Theorem parse_value_print j : wf_json j → reads_back j.
Proof.
  induction j as [|b|lit|s|l IH|m IH] using json_nested_ind; intros Hwf f t Hf Ht;
    (destruct f as [|f]; [lia|]); inversion Hwf as [| |c lit' Hv Hc Hd|? Hs|? Hl|? Hm]; subst.
  - done.
  - by destruct b.
  - change (print (JNum (String c lit'))) with (String c lit').
    destruct (is_digit_not_special _ Hc) as (Hw & H1 & H2 & H3 & _).
    rewrite string_app_cons. cbn [parse_value skip_ws]. rewrite Hw, H1, H2, H3, Hc.
    rewrite <- string_app_cons. by apply parse_number_app.
  - change (print (JStr s)) with (quote s).
    destruct (parse_lit_quoted s t Hs) as (u & -> & Hu).
    cbn [parse_value]. change (skip_ws (String dquote u)) with (String dquote u).
    cbv beta iota. change (Ascii.eqb dquote dquote) with true. cbv iota. by rewrite Hu.
  - change (print (JArr l)) with ("[" +:+ join "," (map print l) +:+ "]") in *.
    rewrite !string_length_app in Hf. cbn [String.length] in Hf.
    rewrite !string_app_assoc, string_app_cons, string_app_nil_l. cbn [parse_value skip_ws].
    change (is_ws "[") with false. cbv iota. change (Ascii.eqb "[" dquote) with false.
    change (Ascii.eqb "[" "[") with true. cbv iota.
    destruct l as [|x l]; [done|].
    assert (Rl : Forall reads_back (x :: l)).
    { apply Forall_forall. intros y Hy. rewrite Forall_forall in IH, Hl. auto. }
    change ("]" +:+ t) with (String "]" t). rewrite parse_elements_print by (done || lia).
    assert (Hx : wf_json x) by (by inversion Hl).
    destruct (print_head x Hx) as (c & u & Hxu & Hcw & Hcb).
    cbn [map join]. rewrite Hxu.
    destruct (map print l); rewrite !string_app_cons; cbn [skip_ws]; rewrite Hcw;
      destruct c as [[] [] [] [] [] [] [] []]; (discriminate Hcb || reflexivity).
  - rewrite print_obj in *. rewrite !string_length_app in Hf. cbn [String.length] in Hf.
    rewrite !string_app_assoc, string_app_cons, string_app_nil_l. cbn [parse_value skip_ws].
    change (is_ws "{") with false. cbv iota. change (Ascii.eqb "{" dquote) with false.
    change (Ascii.eqb "{" "[") with false. change (Ascii.eqb "{" "{") with true. cbv iota.
    destruct m as [|x m]; [done|].
    assert (Rm : Forall (λ kv, reads_back kv.2) (x :: m)).
    { apply Forall_forall. intros y Hy. rewrite Forall_forall in IH, Hm. apply IH; [done|].
      by apply (Hm y). }
    change ("}" +:+ t) with (String "}" t). rewrite parse_members_print by (done || lia).
    assert (∃ u, join "," (map print_member (x :: m)) +:+ String "}" t = String dquote u)
      as [u ->]; [|done].
    cbn [map join]. destruct (map print_member m); eexists; reflexivity.
Qed.

(** [json.Unmarshal] of a marshalled value gives the value back. *)
Lemma parse_print j : wf_json j → parse (print j) = Some j.
Proof.
  intros Hwf. unfold parse. rewrite <- (string_app_nil_r (print j)) at 2.
  rewrite (parse_value_print j Hwf) by done. done.
Qed.

(** Integers are well-formed number tokens. *)
Lemma bytes_of_uint u :
  forallb is_digit (bytes_of (DecimalString.NilEmpty.string_of_uint u)) = true.
Proof. induction u; cbn; auto. Qed.

Lemma digit_number_char s :
  forallb is_digit (bytes_of s) = true → forallb number_char (bytes_of s) = true.
Proof.
  rewrite !List.forallb_forall. intros H c Hc. unfold number_char. by rewrite (H c Hc).
Qed.

Lemma span_digits s : forallb is_digit (bytes_of s) = true → span is_digit s = (s, "").
Proof. intros H. rewrite <- (string_app_nil_r s) at 1. by apply span_app. Qed.

Lemma valid_number_digits c s :
  is_digit c = true → byte_is 48 c = false ∨ s = "" → forallb is_digit (bytes_of s) = true →
  valid_number (String c s) = true.
Proof.
  intros Hc Hz Hs. unfold valid_number.
  replace (byte_is 45 c) with false
    by (destruct c as [[] [] [] [] [] [] [] []]; (discriminate Hc || reflexivity)).
  rewrite span_digits by (cbn; by rewrite Hc, Hs).
  destruct Hz as [-> | ->]; [done|]. by rewrite orb_true_r.
Qed.

(** The decimal text of an unsigned integer is a number token. *)
Lemma wf_uint_number u :
  u ≠ Decimal.Nil → Decimal.unorm u = u →
  wf_json (JNum (DecimalString.NilZero.string_of_uint u)).
Proof.
  intros Hne Hu.
  assert (Hd0 : ∀ v, u = Decimal.D0 v → v = Decimal.Nil).
  { intros v ->. unfold Decimal.unorm in Hu.
    destruct (Decimal.nzhead (Decimal.D0 v)) eqn:E; simplify_eq; [done|].
    by apply DecimalFacts.nzhead_nonzero in E. }
  destruct u as [|u|u|u|u|u|u|u|u|u|u]; [done|specialize (Hd0 u eq_refl) as ->|..];
    cbn; apply wf_num; try done; try apply digit_number_char, bytes_of_uint;
    apply valid_number_digits; auto using bytes_of_uint.
Qed.

Lemma wf_FormatUint n : wf_json (JNum (FormatUint n)).
Proof.
  apply wf_uint_number; [apply N_to_uint_nonnil|].
  by rewrite <- DecimalN.Unsigned.to_of, DecimalN.Unsigned.of_to.
Qed.

#[export] Hint Constructors wf_json : gwai.
#[export] Hint Resolve wf_FormatUint : gwai.

(** ** Decoding into Go values

    [json.Unmarshal] assigns the members of an object, in order, to the fields
    whose names match ignoring case; the other members are ignored unless the
    decoder rejects unknown fields.  A [null] leaves a field of basic type as it
    is.  (The names of a struct are distinct ignoring case.) *)

Definition members (j : json) : option (list (string * json)) :=
  match j with
  | JNull => Some []
  | JObj m => Some m
  | _ => None
  end.

Definition field_values (name : string) (m : list (string * json)) : list json :=
  omap (λ kv, if EqualFold kv.1 name then Some kv.2 else None) m.

Definition known_fields (names : list string) (m : list (string * json)) : bool :=
  forallb (λ kv, existsb (EqualFold kv.1) names) m.

(** Fields of basic type: the last value wins, [null] is skipped. *)
Fixpoint last_value {A} (dec : json → option A) (current : A) (vs : list json) : option A :=
  match vs with
  | [] => Some current
  | JNull :: vs' => last_value dec current vs'
  | v :: vs' => match dec v with Some a => last_value dec a vs' | None => None end
  end.

(** Pointer, slice and map fields: [null] sets them to nil. *)
Fixpoint last_pointer {A} (dec : json → option A) (current : option A) (vs : list json)
    : option (option A) :=
  match vs with
  | [] => Some current
  | JNull :: vs' => last_pointer dec None vs'
  | v :: vs' => match dec v with Some a => last_pointer dec (Some a) vs' | None => None end
  end.

Definition dec_string (j : json) : option string :=
  match j with JStr s => Some s | _ => None end.
Definition dec_bool (j : json) : option bool :=
  match j with JBool b => Some b | _ => None end.
Definition dec_uint64 (j : json) : option Z :=
  match j with JNum lit => ParseUint lit | _ => None end.

(** An array of strings, [null] elements being empty strings. *)
Fixpoint json_strings (l : list json) : option (list string) :=
  match l with
  | [] => Some []
  | JStr s :: l' => cons s <$> json_strings l'
  | JNull :: l' => cons "" <$> json_strings l'
  | _ => None
  end.
Definition dec_strings (j : json) : option (list string) :=
  match j with JArr l => json_strings l | _ => None end.

Definition string_field (name : string) (m : list (string * json)) : option string :=
  last_value dec_string "" (field_values name m).
Definition bool_field (name : string) (m : list (string * json)) : option bool :=
  last_value dec_bool false (field_values name m).
Definition uint64_field (name : string) (m : list (string * json)) : option Z :=
  last_value dec_uint64 0%Z (field_values name m).
Definition strings_field (name : string) (m : list (string * json)) : option (list string) :=
  default [] <$> last_pointer dec_strings None (field_values name m).

Lemma json_strings_map l : json_strings (map JStr l) = Some l.
Proof. induction l as [|s l IH]; cbn; [done|]. by rewrite IH. Qed.

(** ** Codecs

    How the values of a Go type are marshalled, with the law the repositories
    rely on: a storable value is read back as it was written. *)

Class Codec (T : Type) := {
  to_json : T → option json;
  of_json : json → option T
}.

Class CodecLaws (T : Type) `{Codec T} := {
  storable : T → Prop;
  to_json_storable x : storable x → ∃ j, to_json x = Some j ∧ wf_json j ∧ of_json j = Some x
}.

(** [json.Marshal] and [json.Unmarshal]; [None] is an error. *)
Definition Marshal {T} `{Codec T} (x : T) : option string := print <$> to_json x.
Definition Unmarshal {T} `{Codec T} (s : string) : option T := parse s ≫= of_json.

(** The text of a storable value. *)
Definition enc {T} `{Codec T} (x : T) : string := default "" (Marshal x).

Lemma Marshal_enc {T} `{CodecLaws T} (x : T) : storable x → Marshal x = Some (enc x).
Proof.
  intros Hx. destruct (to_json_storable x Hx) as (j & Hj & _). unfold enc, Marshal. by rewrite Hj.
Qed.

Lemma Unmarshal_enc {T} `{CodecLaws T} (x : T) : storable x → Unmarshal (enc x) = Some x.
Proof.
  intros Hx. destruct (to_json_storable x Hx) as (j & Hj & Hwf & Hof).
  unfold enc, Marshal, Unmarshal. rewrite Hj. cbn. by rewrite (parse_print j Hwf).
Qed.

Lemma enc_inj {T} `{CodecLaws T} (x y : T) : storable x → storable y → enc x = enc y → x = y.
Proof.
  intros Hx Hy He. apply Unmarshal_enc in Hx, Hy. rewrite He in Hx. congruence.
Qed.

#[export] Instance string_Codec : Codec string := {
  to_json s := Some (JStr s);
  of_json j := match j with JNull => Some "" | _ => dec_string j end
}.

#[export] Instance string_CodecLaws : CodecLaws string.
Proof.
  refine {| storable s := valid_utf8 s = true |}.
  intros s Hs. eexists. split_and!; [done|by constructor|done].
Defined.

(** Evaluate the member lookups of a decoder on a printed object. *)
Ltac selected_values name m :=
  lazymatch m with
  | [] => constr:(@nil json)
  | (?k, ?v) :: ?m' =>
      let b := eval vm_compute in (EqualFold k name) in
      let r := selected_values name m' in
      lazymatch b with
      | true => constr:(v :: r)
      | false => r
      end
  end.
Ltac eval_fields :=
  repeat match goal with
  | |- context [field_values ?name ?m] =>
      let r := selected_values name m in
      let E := fresh in
      assert (E : field_values name m = r) by (vm_cast_no_check (eq_refl r));
      rewrite E; clear E
  end.

(** ASCII text is valid UTF-8. *)
Definition ascii_only (s : string) : Prop :=
  Forall (λ c, (byte_val c < 128)%N) (bytes_of s).

Lemma ascii_only_valid s : ascii_only s → valid_utf8 s = true.
Proof.
  unfold valid_utf8, ascii_only.
  induction s as [|c s IH]; cbn; [done|]. intros H. inversion_clear H as [|?? Hc Hs].
  apply N.ltb_lt in Hc. rewrite Hc. auto.
Qed.
