(* ===== verification/GoText.v ===== *)
(** * Text formats of the Go standard library

    The text tests the services apply to their inputs: e-mail addresses
    ([net/mail]), IP literals ([net.ParseIP]), the regular expressions of the
    control plane as recognisers, and URL-safe base64; and the fact that
    trimming and lower-casing keep text valid UTF-8. *)

From Stdlib Require Import Ascii.
From S2P Require Import Prelude GoStd Json.

(** ** Valid UTF-8 as a sequence of runes *)

Inductive runes : string → Prop :=
| runes_nil : runes ""
| runes_cons n s : rune_size s = S n → runes (str_drop (S n) s) → runes s.

Lemma valid_utf8_runes s : valid_utf8 s = true ↔ runes s.
Proof.
  unfold valid_utf8. split.
  - generalize (String.length s) at 1. intros n. revert s.
    induction n as [|n IH]; intros [|c s]; cbn [valid_utf8_go]; try (intros; constructor; fail).
    + by destruct (rune_size (String c s)).
    + destruct (rune_size (String c s)) as [|m] eqn:E; [done|]. intros Hv.
      eapply runes_cons; [done|]. by apply IH.
  - intros Hr. assert (Hn : (String.length s <= String.length s)%nat) by lia. revert Hn.
    generalize (String.length s) at 2 3. intros n. revert s Hr.
    induction n as [|n IH]; intros s Hr Hn; destruct Hr as [|m s Hm Hr]; try done.
    + apply rune_size_length in Hm. lia.
    + destruct s as [|c s]; [done|]. cbn [valid_utf8_go]. rewrite Hm. apply IH; [done|].
      rewrite str_length_drop. cbn in *. lia.
Qed.

Lemma runes_app s t : runes s → runes t → runes (s +:+ t).
Proof.
  intros Hs Ht. induction Hs as [|n s Hn Hs IH]; [done|].
  destruct (rune_size_app s t n Hn) as (Hn' & _ & Hd). eapply runes_cons; [done|]. by rewrite Hd.
Qed.

(** A rune in front. *)
Lemma runes_tail p r n :
  rune_size p = S n → String.length p = S n → runes (p +:+ r) → runes r.
Proof.
  intros Hp Hl Hr. destruct (rune_size_app p r n Hp) as (Hn & _ & Hd).
  inversion Hr as [E|m s Hm Hs]; subst.
  - destruct p; done.
  - rewrite Hn in Hm. injection Hm as <-. rewrite Hd in Hs.
    pose proof (str_length_drop (S n) p) as L. rewrite Hl, Nat.sub_diag in L.
    by destruct (str_drop (S n) p).
Qed.

(** What is before a byte that starts a rune. *)
Lemma rune_size_prefix s c t n :
  cont c = false → (byte_val c < 128 ∨ 192 <= byte_val c)%N → s ≠ "" →
  rune_size (s +:+ String c t) = S n → rune_size s = S n.
Proof.
  intros Hc Hb Hs. destruct s as [|a1 [|a2 [|a3 [|a4 s]]]]; [done|..];
    rewrite ?string_app_cons, ?string_app_nil_l; unfold rune_size; intros H;
    repeat case_in H; simplify_eq; try done; exfalso;
    repeat match goal with
    | H : _ && _ = true |- _ => apply andb_true_iff in H as [? ?]
    | H : (if ?b then _ else _) = true |- _ => destruct b
    | H : in_range _ _ _ = true |- _ => unfold in_range in H
    | H : cont c = true |- _ => congruence
    | H : (_ <=? _)%N = true |- _ => apply N.leb_le in H
    end; try congruence; unfold cont, in_range in *; lia.
Qed.

Lemma runes_prefix s c t :
  cont c = false → (byte_val c < 128 ∨ 192 <= byte_val c)%N →
  runes (s +:+ String c t) → runes s.
Proof.
  intros Hc Hb. assert (Hn : (String.length s <= String.length s)%nat) by lia. revert Hn.
  generalize (String.length s) at 2. intros k. revert s.
  induction k as [|k IH]; intros s Hk Hr.
  - destruct s; [constructor|cbn in Hk; lia].
  - destruct (decide (s = "")) as [->|Hne]; [constructor|].
    inversion Hr as [E|n s' Hn Hs' E]; [by destruct s|]. subst s'.
    pose proof (rune_size_prefix s c t n Hc Hb Hne Hn) as Hn'.
    destruct (rune_size_app s (String c t) n Hn') as (_ & _ & Hd). rewrite Hd in Hs'.
    apply (runes_cons n); [done|]. apply IH; [|done]. rewrite str_length_drop. lia.
Qed.

(** ** Trimming and lower-casing *)

Lemma CutPrefix_app p s r : CutPrefix p s = Some r → s = p +:+ r.
Proof.
  revert s. induction p as [|a p IH]; intros [|b s]; cbn; intros E; simplify_eq; [done..|].
  destruct (Ascii.eqb_spec a b) as [->|]; [|done]. rewrite string_app_cons. f_equal. by apply IH.
Qed.

Lemma first_some_in {A B} (f : A → option B) l b :
  first_some f l = Some b → ∃ a, a ∈ l ∧ f a = Some b.
Proof.
  induction l as [|a l IH]; [done|]. cbn. destruct (f a) eqn:E.
  - intros [= <-]. exists a. split; [by left|done].
  - intros H. destruct (IH H) as (a' & ? & ?). exists a'. split; [by right|done].
Qed.

(** What is trimmed is a sequence of the texts that may be trimmed. *)
Inductive pieces (ps : list string) : string → Prop :=
| pieces_nil : pieces ps ""
| pieces_cons p s : p ∈ ps → pieces ps s → pieces ps (p +:+ s).

Lemma trim_prefixes_split n ps s : ∃ q, pieces ps q ∧ s = q +:+ trim_prefixes n ps s.
Proof.
  revert s. induction n as [|n IH]; intros s; cbn; [exists ""; split; [constructor|done]|].
  destruct (first_some _ ps) as [r|] eqn:E; [|exists ""; split; [constructor|done]].
  apply first_some_in in E as (p & Hp & E). apply CutPrefix_app in E as ->.
  destruct (IH r) as (q & Hq & Er). exists (p +:+ q). split; [by constructor|].
  by rewrite string_app_assoc, <- Er.
Qed.

(** Every space is one rune and starts with a byte that starts runes. *)
Definition space_ok (p : string) : bool :=
  match p with
  | String c _ => (rune_size p =? String.length p)%nat && negb (cont c) &&
                  ((byte_val c <? 128) || (192 <=? byte_val c))%N
  | EmptyString => false
  end.
Lemma spaces_ok : forallb space_ok unicode_spaces = true.
Proof. by vm_compute. Qed.

Lemma space_cases p :
  p ∈ unicode_spaces → ∃ c s n, p = String c s ∧ rune_size p = S n ∧ String.length p = S n ∧
    cont c = false ∧ (byte_val c < 128 ∨ 192 <= byte_val c)%N.
Proof.
  intros Hp. pose proof spaces_ok as Ha. rewrite forallb_elem in Ha. specialize (Ha p Hp).
  destruct p as [|c s]; [done|]. exists c, s, (String.length s). cbn [space_ok] in Ha.
  apply andb_true_iff in Ha as [[Hr Hc]%andb_true_iff Hb].
  apply Nat.eqb_eq in Hr. apply negb_true_iff in Hc.
  rewrite orb_true_iff, N.ltb_lt, N.leb_le in Hb. done.
Qed.

Lemma pieces_tail q r : pieces unicode_spaces q → runes (q +:+ r) → runes r.
Proof.
  induction 1 as [|p q Hp Hq IH]; [done|]. rewrite string_app_assoc. intros Hr. apply IH.
  destruct (space_cases p Hp) as (c & s & n & _ & Hn & Hl & _). by eapply runes_tail.
Qed.

Lemma string_rev_app s t : string_rev (s +:+ t) = string_rev t +:+ string_rev s.
Proof.
  unfold string_rev. rewrite bytes_of_app, rev_app_distr.
  generalize (rev (bytes_of t)) (rev (bytes_of s)). intros l l'.
  induction l as [|c l IH]; [done|]. cbn. rewrite string_app_cons. by f_equal.
Qed.

Lemma pieces_init q r :
  pieces (map string_rev unicode_spaces) q → runes (r +:+ string_rev q) → runes r.
Proof.
  intros Hq. revert r. induction Hq as [|p q Hp Hq IH]; intros r.
  - change (string_rev "") with "". by rewrite string_app_nil_r.
  - apply list_elem_of_fmap in Hp as (p' & -> & Hp).
    rewrite string_rev_app, string_rev_involutive, <- string_app_assoc. intros Hr.
    apply IH. destruct (space_cases p' Hp) as (c & s & n & -> & _ & _ & Hc & Hb).
    by eapply runes_prefix.
Qed.

Lemma TrimSpace_valid s : valid_utf8 s = true → valid_utf8 (TrimSpace s) = true.
Proof.
  rewrite !valid_utf8_runes. intros Hs. unfold TrimSpace, TrimRightSpace, TrimLeftSpace.
  destruct (trim_prefixes_split (String.length s) unicode_spaces s) as (q & Hq & E).
  set (l := trim_prefixes _ unicode_spaces s) in *. rewrite E in Hs.
  apply pieces_tail in Hs; [|done].
  destruct (trim_prefixes_split (String.length l) (map string_rev unicode_spaces) (string_rev l))
    as (q' & Hq' & E'). set (l' := trim_prefixes _ (map string_rev _) _) in *.
  eapply pieces_init; [exact Hq'|]. rewrite <- string_rev_app, <- E'.
  by rewrite string_rev_involutive.
Qed.

Lemma lower_byte_high c : (128 <=? byte_val c)%N = true → lower_byte c = c.
Proof.
  intros Hc. apply N.leb_le in Hc. unfold lower_byte.
  destruct (_ && _) eqn:E; [|done]. apply andb_true_iff in E as [_ E%N.leb_le]. lia.
Qed.

Lemma lower_byte_low c : (byte_val c <? 128)%N = true → (byte_val (lower_byte c) <? 128)%N = true.
Proof.
  intros Hc. apply N.ltb_lt in Hc. unfold lower_byte.
  destruct (_ && _) eqn:E; [|by apply N.ltb_lt].
  apply andb_true_iff in E as [_ E%N.leb_le]. apply N.ltb_lt. unfold byte_val, chr.
  rewrite N_ascii_embedding; [unfold byte_val in *; lia|unfold byte_val in *; lia].
Qed.

Lemma lower_in_range lo hi c : (128 <= lo)%N → in_range lo hi (lower_byte c) = in_range lo hi c.
Proof.
  intros Hlo. destruct (byte_val c <? 128)%N eqn:Hc.
  - pose proof (lower_byte_low c Hc) as Hl. apply N.ltb_lt in Hc, Hl. unfold in_range.
    rewrite !(proj2 (N.leb_gt lo _)) by lia. done.
  - rewrite lower_byte_high; [done|]. apply N.ltb_ge in Hc. by apply N.leb_le.
Qed.

Lemma rune_size_lower s : rune_size (string_map lower_byte s) = rune_size s.
Proof.
  assert (H128 : ∀ c, (byte_val (lower_byte c) <? 128)%N = (byte_val c <? 128)%N).
  { intros c. destruct (byte_val c <? 128)%N eqn:Hc; [by apply lower_byte_low|].
    rewrite lower_byte_high; [done|]. apply N.ltb_ge in Hc. by apply N.leb_le. }
  assert (His : ∀ n c, (128 <= n)%N → byte_is n (lower_byte c) = byte_is n c).
  { intros n c Hn. unfold byte_is. destruct (byte_val c <? 128)%N eqn:Hc.
    - pose proof (lower_byte_low c Hc) as Hl. apply N.ltb_lt in Hc, Hl.
      rewrite !(proj2 (N.eqb_neq _ _)) by lia. done.
    - rewrite lower_byte_high; [done|]. apply N.ltb_ge in Hc. by apply N.leb_le. }
  destruct s as [|a [|b [|c [|d s]]]]; unfold string_map; cbn [bytes_of map string_of rune_size];
    unfold cont; rewrite ?H128, ?lower_in_range, ?His by lia; done.
Qed.

Lemma str_drop_lower n s : str_drop n (string_map lower_byte s) = string_map lower_byte (str_drop n s).
Proof. revert s. induction n as [|n IH]; intros [|c s]; try done. apply IH. Qed.

Lemma ToLower_valid s : valid_utf8 s = true → valid_utf8 (ToLower s) = true.
Proof.
  rewrite !valid_utf8_runes. unfold ToLower. induction 1 as [|n s Hn Hs IH]; [constructor|].
  apply (runes_cons n); [by rewrite rune_size_lower|]. by rewrite str_drop_lower.
Qed.

(** ** Regular expressions of the control plane *)

Definition lower_alnum (c : ascii) : bool := in_range 97 122 c || in_range 48 57 c.
Definition alnum (c : ascii) : bool := lower_alnum c || in_range 65 90 c.
Definition one_of (chars : string) (c : ascii) : bool := bool_decide (c ∈ bytes_of chars).

Definition last_byte (s : string) : option ascii := list.last (bytes_of s).

(** [^a(?:m{0,61}a)?$]: at most 63 bytes of class [m], the first and the last
    of class [a]. *)
Definition label (a m : ascii → bool) (s : string) : bool :=
  match s, last_byte s with
  | String c _, Some c' =>
      a c && a c' && forallb m (bytes_of s) && (String.length s <=? 63)%nat
  | _, _ => false
  end.

(** [appIDPattern], [providerSlugPattern] and [modelAliasPattern]. *)
Definition appIDPattern : string → bool := label lower_alnum (λ c, lower_alnum c || one_of ".-" c).
Definition providerSlugPattern : string → bool :=
  label lower_alnum (λ c, lower_alnum c || one_of "-" c).
Definition modelAliasPattern (s : string) : bool :=
  match s with
  | String c s' =>
      alnum c && forallb (λ c, alnum c || one_of "._:/-" c) (bytes_of s') &&
      (String.length s' <=? 199)%nat
  | EmptyString => false
  end.

(** ** [net/mail] *)

(** Bytes of an atom of an address, dots included. *)
Definition atext (c : ascii) : bool :=
  (128 <=? byte_val c)%N || (in_range 33 126 c && negb (one_of "()<>[]:;@\," c) &&
   negb (byte_is 34 c)).

Fixpoint no_double_dot (s : string) : bool :=
  match s with
  | String "."%char (String "."%char _) => false
  | String _ s' => no_double_dot s'
  | EmptyString => true
  end.

Definition dot_atom (s : string) : bool :=
  negb (bool_decide (s = "")) && forallb atext (bytes_of s) && negb (HasPrefix s ".") &&
  negb (HasSuffix s ".") && no_double_dot s.

(** One number of a dotted IPv4 address: no leading zero, at most 255. *)
Definition octet (s : string) : bool :=
  match s with
  | EmptyString => false
  | String c s' =>
      forallb (in_range 48 57) (bytes_of s) && (String.length s <=? 3)%nat &&
      (negb (byte_is 48 c) || bool_decide (s' = "")) &&
      match ParseUint s with Some n => (n <=? 255)%Z | None => false end
  end.
Definition ipv4 (s : string) : bool :=
  match Cut "."%char s with
  | Some (a, s) => match Cut "."%char s with
    | Some (b, s) => match Cut "."%char s with
      | Some (c, d) => octet a && octet b && octet c && octet d
      | None => false end
    | None => false end
  | None => false
  end.
Definition domain_literal (s : string) : bool :=
  match CutPrefix "[" s with
  | Some r => HasSuffix r "]" && ipv4 (TrimSuffix r "]")
  | None => false
  end.

(** [mail.ParseAddress(s)] succeeds with an address that is [s] itself: [s] is
    a bare [local@domain], whose local part is a dot-atom (the parser drops the
    quotes of a quoted one) and whose domain is a dot-atom or a literal IPv4
    address. *)
Definition ParseAddress_same (s : string) : bool :=
  valid_utf8 s &&
  match Cut "@"%char s with
  | Some (local, domain) => dot_atom local && (dot_atom domain || domain_literal domain)
  | None => false
  end.

Example address_ok : ParseAddress_same "ada.l@example.com" = true. Proof. reflexivity. Qed.
Example address_named : ParseAddress_same "ada <a@b>" = false. Proof. reflexivity. Qed.
Example address_ip : ParseAddress_same "a@[10.0.0.1]" = true. Proof. reflexivity. Qed.

(** ** [encoding/base64] *)

Definition base64url_char (n : N) : ascii :=
  if (n <? 26)%N then chr (65 + n) else if (n <? 52)%N then chr (71 + n)
  else if (n <? 62)%N then chr (n - 4) else if (n =? 62)%N then chr 45 else chr 95.

(** [base64.RawURLEncoding.EncodeToString]. *)
Fixpoint RawURLEncode (l : list N) : string :=
  match l with
  | a :: b :: c :: l' =>
      String (base64url_char (a / 4)) (String (base64url_char ((a mod 4) * 16 + b / 16))
        (String (base64url_char ((b mod 16) * 4 + c / 64)) (String (base64url_char (c mod 64))
          (RawURLEncode l'))))
  | [a; b] =>
      String (base64url_char (a / 4)) (String (base64url_char ((a mod 4) * 16 + b / 16))
        (String (base64url_char ((b mod 16) * 4)) ""))
  | [a] => String (base64url_char (a / 4)) (String (base64url_char ((a mod 4) * 16)) "")
  | [] => ""
  end.

Example base64url_sample : RawURLEncode [251; 255; 191; 77; 97]%N = "-_-_TWE".
Proof. reflexivity. Qed.

(** ** ASCII text *)

Lemma ascii_runes s : forallb (λ c, byte_val c <? 128)%N (bytes_of s) = true → valid_utf8 s = true.
Proof.
  rewrite valid_utf8_runes. induction s as [|c s IH]; [constructor|].
  cbn [bytes_of forallb]. intros [Hc Hs]%andb_true_iff.
  apply (runes_cons 0); [cbn; by rewrite Hc|by apply IH].
Qed.

Lemma valid_utf8_app s t : valid_utf8 s = true → valid_utf8 t = true → valid_utf8 (s +:+ t) = true.
Proof. rewrite !valid_utf8_runes. apply runes_app. Qed.

Lemma hex_valid l : Forall (λ b, (b < 256)%N) l → valid_utf8 (EncodeToString l) = true.
Proof. intros Hl. apply ascii_runes, hex_text; [by vm_compute|done]. Qed.

Lemma base64url_ascii n : (n < 64)%N → (byte_val (base64url_char n) <? 128)%N = true.
Proof.
  intros Hn.
  assert (H : forallb (λ n, byte_val (base64url_char (N.of_nat n)) <? 128)%N (seq 0 64) = true)
    by by vm_compute.
  rewrite forallb_elem in H. rewrite <- (N2Nat.id n). apply H.
  apply list_elem_of_In, in_seq. lia.
Qed.

Lemma RawURLEncode_ascii l :
  Forall (λ b, (b < 256)%N) l →
  forallb (λ c, byte_val c <? 128)%N (bytes_of (RawURLEncode l)) = true.
Proof.
  intros Hl. assert (Hn : (length l <= length l)%nat) by lia. revert Hn.
  generalize (length l) at 2. intros n. revert l Hl.
  induction n as [|n IH]; intros l Hl Hn; [destruct l; [done|cbn in Hn; lia]|].
  assert (H4 : ∀ x, (x < 256)%N → (x / 4 < 64)%N)
    by (intros; apply N.Div0.div_lt_upper_bound; lia).
  assert (H16 : ∀ x y, (y < 256)%N → ((x mod 4) * 16 + y / 16 < 64)%N).
  { intros x y Hy. pose proof (N.mod_lt x 4 ltac:(done)).
    pose proof (N.Div0.div_lt_upper_bound y 16 16 ltac:(lia)). lia. }
  assert (H64 : ∀ x y, (y < 256)%N → ((x mod 16) * 4 + y / 64 < 64)%N).
  { intros x y Hy. pose proof (N.mod_lt x 16 ltac:(done)).
    pose proof (N.Div0.div_lt_upper_bound y 64 4 ltac:(lia)). lia. }
  assert (Hlast : ∀ x, (x mod 64 < 64)%N) by (intros; by apply N.mod_lt).
  assert (Htwo : ∀ x, ((x mod 4) * 16 < 64)%N).
  { intros x. pose proof (N.mod_lt x 4 ltac:(done)). lia. }
  assert (Hthree : ∀ x, ((x mod 16) * 4 < 64)%N).
  { intros x. pose proof (N.mod_lt x 16 ltac:(done)). lia. }
  destruct l as [|a [|b [|c l]]]; [done|..]; rewrite !list.Forall_cons in Hl;
    destruct_and? Hl; cbn [RawURLEncode bytes_of forallb];
    rewrite !base64url_ascii by auto; cbn [andb]; try done.
  apply IH; [done|]. cbn in Hn. lia.
Qed.
