(* ===== verification/Utf8.v ===== *)
(** * Decoded JSON is well formed

    [encoding/json] turns any bytes into valid UTF-8 strings, so a value it
    has decoded is printed and decoded to itself. *)

From Stdlib Require Import Ascii.
From S2P Require Import Prelude GoStd Json GoText.

Lemma byte_val_chr n : (n < 256)%N → byte_val (chr n) = n.
Proof. apply N_ascii_embedding. Qed.

Lemma in_range_chr lo hi n : (n < 256)%N → in_range lo hi (chr n) = ((lo <=? n) && (n <=? hi))%N.
Proof. intros Hn. unfold in_range. by rewrite byte_val_chr. Qed.

(** A single rune is valid. *)
Lemma one_rune s n : rune_size s = S n → String.length s = S n → runes s.
Proof.
  intros Hs Hl. apply (runes_cons n); [done|].
  pose proof (str_length_drop (S n) s) as H. rewrite Hl, Nat.sub_diag in H.
  destruct (str_drop (S n) s); [constructor|done].
Qed.

Lemma taken_size s n : rune_size s = S n → rune_size (str_take (S n) s) = S n.
Proof.
  destruct s as [|a [|b [|c [|d s]]]]; unfold rune_size; intros H; repeat case_in H; simplify_eq; cbn;
    repeat match goal with E : _ = _ |- _ => rewrite E end; done.
Qed.

Lemma str_length_take n s : (n <= String.length s)%nat → String.length (str_take n s) = n.
Proof.
  revert s. induction n as [|n IH]; intros [|c s] Hl; try done; cbn in *; [lia|].
  f_equal. apply IH. lia.
Qed.

Lemma taken_rune s n : rune_size s = S n → runes (str_take (S n) s).
Proof.
  intros Hs. apply one_rune with n; [by apply taken_size|].
  by apply str_length_take, rune_size_length.
Qed.

Definition code_point (r : N) : Prop := (r < 55296 ∨ 57343 < r < 1114112)%N.

#[local] Ltac Zify.zify_post_hook ::= Z.to_euclidean_division_equations.

(** The bytes of a code point, as lead and continuation bytes. *)
Ltac decide_ranges :=
  repeat match goal with
  | |- context [(?a <=? ?b)%N] => destruct (N.leb_spec a b); [|lia]
  | |- context [(?a <? ?b)%N] => destruct (N.ltb_spec a b); [lia|]
  end.

Lemma encode_rune_ok r : code_point r → runes (encode_rune r).
Proof.
  intros Hr. unfold encode_rune.
  pose proof (N.mod_lt r 64 ltac:(done)). pose proof (N.mod_lt (r / 64) 64 ltac:(done)).
  pose proof (N.mod_lt (r / 4096) 64 ltac:(done)).
  assert (r / 64 = 64 * (r / 4096) + (r / 64) mod 64)%N.
  { pose proof (N.div_mod' (r / 64) 64) as E. rewrite N.Div0.div_div in E. exact E. }
  assert (r / 4096 = 64 * (r / 262144) + (r / 4096) mod 64)%N.
  { pose proof (N.div_mod' (r / 4096) 64) as E. rewrite N.Div0.div_div in E. exact E. }
  destruct (N.ltb_spec r 128); [|destruct (N.ltb_spec r 2048); [|destruct (N.ltb_spec r 65536)]].
  - apply one_rune with 0; [|done]. unfold u8, rune_size. cbn [map string_of].
    rewrite byte_val_chr by lia. by destruct (N.ltb_spec r 128); [|lia].
  - apply one_rune with 1; [|done]. unfold u8, rune_size, cont. cbn [map string_of].
    rewrite !in_range_chr, !byte_val_chr by lia. by decide_ranges.
  - apply one_rune with 2; [|done]. unfold u8, rune_size, cont, byte_is. cbn [map string_of].
    rewrite !in_range_chr, !byte_val_chr by lia.
    destruct (N.ltb_spec (224 + r / 4096) 128); [lia|].
    destruct (N.leb_spec (224 + r / 4096) 223); [lia|]. rewrite andb_false_r.
    destruct (N.eqb_spec (224 + r / 4096) 224); [by decide_ranges|].
    destruct (N.eqb_spec (224 + r / 4096) 237); [|by decide_ranges].
    unfold code_point in Hr. by decide_ranges.
  - apply one_rune with 3; [|done]. unfold u8, rune_size, cont, byte_is. cbn [map string_of].
    unfold code_point in Hr. rewrite !in_range_chr, !byte_val_chr by lia.
    destruct (N.ltb_spec (240 + r / 262144) 128); [lia|].
    destruct (N.leb_spec (240 + r / 262144) 223); [lia|]. rewrite andb_false_r.
    destruct (N.leb_spec (240 + r / 262144) 239); [lia|]. rewrite andb_false_r.
    destruct (N.eqb_spec (240 + r / 262144) 240); [by decide_ranges|].
    destruct (N.eqb_spec (240 + r / 262144) 244); by decide_ranges.
Qed.

(** ** String literals *)

Lemma hex_val_bound c x : hex_val c = Some x → (x < 16)%N.
Proof.
  unfold hex_val, in_range. intros H.
  repeat case_in H; simplify_eq;
    repeat match goal with E : (_ && _)%bool = true |- _ => apply andb_prop in E as [?%N.leb_le ?%N.leb_le] end; lia.
Qed.

Lemma parse_u4_bound s r s' : parse_u4 s = Some (r, s') → (r < 65536)%N.
Proof.
  unfold parse_u4. destruct s as [|a [|b [|c [|d s]]]]; try done.
  destruct (hex_val a) as [x|] eqn:Ha; [|done]. destruct (hex_val b) as [y|] eqn:Hb; [|done].
  destruct (hex_val c) as [z|] eqn:Hc; [|done]. destruct (hex_val d) as [w|] eqn:Hd; [|done].
  intros [= <- <-]. apply hex_val_bound in Ha, Hb, Hc, Hd. lia.
Qed.

Lemma rune_error_ok : runes rune_error.
Proof. by apply valid_utf8_runes. Qed.

Lemma unescape_u_ok s u r : unescape_u s = Some (u, r) → runes u.
Proof.
  unfold unescape_u. destruct (parse_u4 s) as [[x s1]|] eqn:Hx; [|done].
  apply parse_u4_bound in Hx. destruct (high_surrogate x || low_surrogate x) eqn:Hs.
  - destruct (CutPrefix _ s1) as [s2|]; [|intros [= <- <-]; apply rune_error_ok].
    destruct (parse_u4 s2) as [[y s3]|] eqn:Hy; [|intros [= <- <-]; apply rune_error_ok].
    apply parse_u4_bound in Hy.
    destruct (high_surrogate x && low_surrogate y) eqn:Hp; [|intros [= <- <-]; apply rune_error_ok].
    intros [= <- <-]. apply encode_rune_ok. unfold code_point.
    apply andb_prop in Hp as [Hh Hl]. unfold high_surrogate, low_surrogate in Hh, Hl.
    apply andb_prop in Hh as [?%N.leb_le ?%N.leb_le], Hl as [?%N.leb_le ?%N.leb_le]. lia.
  - intros [= <- <-]. apply encode_rune_ok. unfold code_point.
    apply orb_false_iff in Hs as [Hh Hl]. unfold high_surrogate, low_surrogate in Hh, Hl.
    apply andb_false_iff in Hh as [?%N.leb_gt|?%N.leb_gt], Hl as [?%N.leb_gt|?%N.leb_gt]; lia.
Qed.

Lemma simple_escape_ok c c' : simple_escape c = Some c' → runes (String c' "").
Proof.
  intros H. assert (byte_val c' < 128)%N as Hb.
  { revert H. by destruct c as [[] [] [] [] [] [] [] []]; intros [= <-]. }
  apply one_rune with 0; [|done]. unfold rune_size. by apply N.ltb_lt in Hb as ->.
Qed.

Lemma parse_lit_runes fuel s v r : parse_lit fuel s = Some (v, r) → runes v.
Proof.
  assert (∀ chunk o v r, runes chunk → (∀ v r, o = Some (v, r) → runes v) →
    push chunk o = Some (v, r) → runes v) as Hpush.
  { intros chunk [[v' r']|] v0 r0 Hc Ho; [|done]. intros [= <- <-].
    apply runes_app; [done|by eapply Ho]. }
  revert s v r. induction fuel as [|fuel IH]; intros [|c s] v r; try done. cbn [parse_lit].
  destruct (Ascii.eqb c dquote); [intros [= <- <-]; constructor|].
  destruct (Ascii.eqb c backslash).
  - destruct s as [|e s]; [done|]. destruct (Ascii.eqb e "u").
    + destruct (unescape_u s) as [[u r']|] eqn:Hu; [|done]. apply unescape_u_ok in Hu.
      apply Hpush; [done|]. intros v' r'' Hp. by eapply IH.
    + destruct (simple_escape e) as [c'|] eqn:He; [|done]. apply simple_escape_ok in He.
      apply Hpush; [done|]. intros v' r' Hp. by eapply IH.
  - destruct (byte_val c <? 32)%N; [done|]. destruct (rune_size (String c s)) as [|n] eqn:Hn.
    + apply Hpush; [apply rune_error_ok|]. intros v' r' Hp. by eapply IH.
    + apply Hpush; [by apply taken_rune|]. intros v' r' Hp. by eapply IH.
Qed.

Lemma parse_lit_valid fuel s v r : parse_lit fuel s = Some (v, r) → valid_utf8 v = true.
Proof. intros H. by apply valid_utf8_runes, (parse_lit_runes fuel s v r). Qed.

(** ** Values *)

Lemma span_split p s l r : span p s = (l, r) → forallb p (bytes_of l) = true.
Proof.
  revert l r. induction s as [|c s IH]; intros l r; cbn; [by intros [= <- <-]|].
  destruct (p c) eqn:E; [|by intros [= <- <-]]. destruct (span p s) as [l' r'].
  intros [= <- <-]. cbn. rewrite E. by eapply IH.
Qed.

Lemma parse_number_wf s j r : parse_number s = Some (j, r) → wf_json j.
Proof.
  unfold parse_number. destruct (span number_char s) as [lit r'] eqn:Hs.
  destruct (valid_number lit) eqn:Hv; [|done]. intros [= <- <-]. apply span_split in Hs.
  destruct lit as [|c lit]; [done|]. cbn [bytes_of forallb] in Hs. apply andb_prop in Hs as [_ Hs].
  constructor; [done| |done]. unfold valid_number in Hv.
  destruct (byte_is 45 c); [apply orb_true_r|]. cbn [span] in Hv.
  by destruct (is_digit c).
Qed.

Definition kv_ok (kv : string * json) : Prop := valid_utf8 kv.1 = true ∧ wf_json kv.2.

Lemma parse_wf_fuel fuel :
  (∀ s j r, parse_value fuel s = Some (j, r) → wf_json j) ∧
  (∀ s l r, parse_elements fuel s = Some (l, r) → Forall wf_json l) ∧
  (∀ s m r, parse_members fuel s = Some (m, r) → Forall kv_ok m).
Proof.
  induction fuel as [|fuel (IHv & IHe & IHm)]; [by split_and!|]. split_and!.
  - intros s j r. cbn [parse_value]. destruct (skip_ws s) as [|c s']; [done|].
    destruct (Ascii.eqb c dquote).
    { destruct (parse_lit _ s') as [[v r']|] eqn:E; [|done]. intros [= <- <-].
      apply wf_str. by eapply parse_lit_valid. }
    destruct (Ascii.eqb c "[").
    { assert (∀ l r', Forall wf_json l → Some (JArr l, r') = Some (j, r) → wf_json j) as Hl.
      { intros l r' Hl [= <- _]. by constructor. }
      assert (match parse_elements fuel s' with Some (l, r) => Some (JArr l, r) | None => None end =
        Some (j, r) → wf_json j) as Hd.
      { destruct (parse_elements fuel s') as [[l r']|] eqn:E; [|done]. eapply Hl, IHe, E. }
      repeat case_goal; try exact Hd. apply (Hl []). constructor. }
    destruct (Ascii.eqb c "{").
    { assert (∀ m r', Forall kv_ok m → Some (JObj m, r') = Some (j, r) → wf_json j) as Hl.
      { intros m r' Hm [= <- _]. by constructor. }
      assert (match parse_members fuel s' with Some (m, r) => Some (JObj m, r) | None => None end =
        Some (j, r) → wf_json j) as Hd.
      { destruct (parse_members fuel s') as [[m r']|] eqn:E; [|done]. eapply Hl, IHm, E. }
      repeat case_goal; try exact Hd. apply (Hl []). constructor. }
    destruct (is_digit c || byte_is 45 c); [apply parse_number_wf|].
    unfold parse_keyword. repeat case_goal; try done; intros [= <- _]; constructor.
  - intros s l r. cbn [parse_elements].
    destruct (parse_value fuel s) as [[v s1]|] eqn:Hv; [|done]. apply IHv in Hv.
    destruct (skip_ws s1) as [|c s2]; [done|].
    assert (∀ l r', parse_elements fuel s2 = Some (l, r') → Forall wf_json (v :: l)) as Hd.
    { intros l' r' E. constructor; [done|by eapply IHe]. }
    repeat case_goal; try done; intros [= <- <-]; try (by eapply Hd); by constructor; [|constructor].
  - intros s m r. cbn [parse_members].
    destruct (skip_ws s) as [|c s1]; [done|]. destruct (Ascii.eqb c dquote); [|done].
    destruct (parse_lit _ s1) as [[k s2]|] eqn:Hk; [|done]. apply parse_lit_valid in Hk.
    destruct (skip_ws s2) as [|c2 s3]; [done|].
    assert (∀ v s4, parse_value fuel s3 = Some (v, s4) →
      match skip_ws s4 with
      | String "}" r' => Some ([(k, v)], r')
      | String "," s5 =>
          match parse_members fuel s5 with Some (m, r') => Some ((k, v) :: m, r') | None => None end
      | _ => None
      end = Some (m, r) → Forall kv_ok m) as Hd.
    { intros v s4 Hv%IHv. destruct (skip_ws s4) as [|c4 s5]; [done|].
      assert (kv_ok (k, v)) as Hkv by by split.
      destruct (parse_members fuel s5) as [[m' r']|] eqn:E.
      - apply IHm in E. repeat case_goal; try done; intros [= <- <-]; by constructor; [|done || constructor].
      - repeat case_goal; try done; intros [= <- <-]; by constructor; [|constructor]. }
    destruct (parse_value fuel s3) as [[v s4]|] eqn:Hv.
    + intros H. apply (Hd v s4 eq_refl). revert H. by repeat case_goal.
    + by repeat case_goal.
Qed.

Lemma parse_wf s j : parse s = Some j → wf_json j.
Proof.
  unfold parse. destruct (parse_value _ s) as [[j' r]|] eqn:E; [|done].
  destruct (bool_decide _); [|done]. intros [= ->]. by eapply (proj1 (parse_wf_fuel _)).
Qed.

(** Decoding, printing and decoding again gives the same value. *)
Lemma parse_print_parse s j : parse s = Some j → parse (print j) = Some j.
Proof. intros H. by eapply parse_print, parse_wf. Qed.
