(* ===== verification/JsonRaw.v ===== *)
(** * Raw JSON texts

    [json.RawMessage] fields keep the text of a value: the elements of an
    array and the members of an object with the texts of their values, blanks
    around them dropped, the decoding of struct fields from them, and how
    [json.Marshal] writes them. *)

From Stdlib Require Import Ascii.
From S2P Require Import Prelude GoStd Json GoText Utf8.

(** The text that was consumed between [s] and what is left of it. *)
Definition raw_of (s r : string) : string := str_take (String.length s - String.length r) s.

Definition scan_value (s : string) : option (string * string) :=
  match parse_value (2 * String.length s + 2) s with
  | Some (_, r) => Some (raw_of s r, r)
  | None => None
  end.

(** Each round consumes an element, so the length of the text is enough fuel. *)
Fixpoint scan_elements (fuel : nat) (s : string) : option (list string) :=
  match fuel with
  | O => None
  | S fuel' =>
      '(raw, r) ← scan_value (skip_ws s);
      match skip_ws r with
      | String "]" _ => Some [raw]
      | String "," r' => cons raw <$> scan_elements fuel' r'
      | _ => None
      end
  end.

Fixpoint scan_members (fuel : nat) (s : string) : option (list (string * string)) :=
  match fuel with
  | O => None
  | S fuel' =>
      match skip_ws s with
      | String c s1 =>
          '(key, s2) ← parse_lit (S (String.length s1)) s1;
          match skip_ws s2 with
          | String ":" s3 =>
              '(raw, r) ← scan_value (skip_ws s3);
              match skip_ws r with
              | String "}" _ => Some [(key, raw)]
              | String "," r' => cons (key, raw) <$> scan_members fuel' r'
              | _ => None
              end
          | _ => None
          end
      | EmptyString => None
      end
  end.

(** A whole text: its elements, when it is an array ([null] has none), and its
    members, when it is an object. *)
Definition raw_array (s : string) : option (list string) :=
  match parse s with
  | Some JNull | Some (JArr []) => Some []
  | Some (JArr _) =>
      match skip_ws s with String _ s' => scan_elements (String.length s) s' | _ => None end
  | _ => None
  end.
Definition raw_object (s : string) : option (list (string * string)) :=
  match parse s with
  | Some JNull | Some (JObj []) => Some []
  | Some (JObj _) =>
      match skip_ws s with String _ s' => scan_members (String.length s) s' | _ => None end
  | _ => None
  end.

(** Struct fields: unknown ones refused, typed ones decoded, raw ones kept. *)
Definition raw_struct (fields : list string) (s : string) : option (list (string * string)) :=
  m ← raw_object s;
  if forallb (λ kv, existsb (EqualFold kv.1) fields) m then Some m else None.
Definition typed_members (m : list (string * string)) : list (string * json) :=
  (λ '(k, raw), (k, default JNull (parse raw))) <$> m.
Definition raw_field (name : string) (m : list (string * string)) : string :=
  foldl (λ current kv, if EqualFold kv.1 name then kv.2 else current) "" m.
Definition raw_string_field (name : string) (m : list (string * string)) : option string :=
  string_field name (typed_members m).
Definition raw_bool_field (name : string) (m : list (string * string)) : option bool :=
  bool_field name (typed_members m).

Fixpoint all_some {A B} (f : A → option B) (l : list A) : option (list B) :=
  match l with
  | [] => Some []
  | x :: l' => y ← f x; ys ← all_some f l'; Some (y :: ys)
  end.

(** The text [{ "a" : {"x" : 1 } , "b":[1, 2] }], its quotes written [']. *)
Definition requote : string → string := string_map (λ c, if Ascii.eqb c "'" then dquote else c).
Example raw_members : raw_object (requote "{ 'a' : {'x' : 1 } , 'b':[1, 2] }") =
  Some [("a", requote "{'x' : 1 }"); ("b", "[1, 2]")].
Proof. reflexivity. Qed.
Example raw_elements : raw_array " [1 , true,[ ]] " = Some ["1"; "true"; "[ ]"].
Proof. reflexivity. Qed.

(** * Marshalled raw messages

    How [json.Marshal] writes a [json.RawMessage] inside a value: the text is
    checked, blanks outside of strings are dropped and the bytes that HTML
    treats specially are escaped.  What [json.Marshal] wrote is left as it is. *)

(** [appendCompact] with HTML escaping.  [inside] tells that the text goes on
    inside a string. *)
Definition html_byte (c : ascii) : string :=
  match byte_val c with
  | 60 | 62 | 38 => esc "u" +:+ "00" +:+ hex_byte (byte_val c)
  | _ => String c ""
  end%N.

Fixpoint compact_go (inside : bool) (s : string) : string :=
  match s with
  | EmptyString => ""
  | String c s' =>
      if negb inside then
        if is_ws c then compact_go false s' else String c (compact_go (Ascii.eqb c dquote) s')
      else if Ascii.eqb c dquote then String c (compact_go false s')
      else if Ascii.eqb c backslash then
        match s' with
        | String e s'' => String c (String e (compact_go true s''))
        | EmptyString => String c ""
        end
      else
        match s' with
        | String d (String e s'') =>
            if byte_is 226 c && byte_is 128 d && (byte_is 168 e || byte_is 169 e) then
              esc "u" +:+ (if byte_is 168 e then "2028" else "2029") +:+ compact_go true s''
            else html_byte c +:+ compact_go true s'
        | _ => html_byte c +:+ compact_go true s'
        end
  end.

(** The text of a marshalled raw message; [None] is an error. *)
Definition compact (raw : string) : option string :=
  if Valid raw then Some (compact_go false raw) else None.

Example compact_blanks : compact (requote " { 'a b' : [ 1 , '<' ] } ") =
  Some (requote "{'a b':[1,'\u003c']}").
Proof. reflexivity. Qed.

(** ** Printed texts are compact *)

(** A text that is copied, whatever follows it. *)
Definition copied (inside : bool) (p : string) : Prop :=
  ∀ t, compact_go inside (p +:+ t) = p +:+ compact_go inside t.

Lemma copied_app b p q : copied b p → copied b q → copied b (p +:+ q).
Proof. intros Hp Hq t. by rewrite !string_app_assoc, Hp, Hq. Qed.
Lemma copied_nil b : copied b "".
Proof. intros t. by rewrite !string_app_nil_l. Qed.

Lemma copied_byte c : (byte_val c <? 128)%N = true → copied true (quote_ascii c).
Proof.
  intros H t. destruct c as [[] [] [] [] [] [] [] []]; try discriminate H;
    first [reflexivity|destruct t as [|d [|e t]]; reflexivity].
Qed.

(** Three bytes that are a line or paragraph separator. *)
Definition separator (c d e : ascii) : bool :=
  byte_is 226 c && byte_is 128 d && (byte_is 168 e || byte_is 169 e).

(** A byte from U+0080 on is copied when it does not start a separator. *)
Lemma copied_high c t :
  (byte_val c <? 128)%N = false →
  match t with String d (String e _) => separator c d e = false | _ => True end →
  compact_go true (String c t) = String c (compact_go true t).
Proof.
  intros Hc Ht. cbn [compact_go negb].
  assert (Ascii.eqb c dquote = false ∧ Ascii.eqb c backslash = false ∧ html_byte c = String c "")
    as (-> & -> & Hh).
  { destruct c as [[] [] [] [] [] [] [] []]; try discriminate Hc; by split_and!. }
  rewrite Hh. destruct t as [|d [|e t]]; [done|done|].
  unfold separator in Ht. by rewrite Ht.
Qed.

Lemma copied_cont c t : cont c = true → compact_go true (String c t) = String c (compact_go true t).
Proof.
  intros Hc. apply copied_high.
  - destruct c as [[] [] [] [] [] [] [] []]; (discriminate Hc || reflexivity).
  - destruct t as [|d [|e t]]; [done|done|]. unfold separator.
    assert (byte_is 226 c = false) as ->; [|done].
    destruct c as [[] [] [] [] [] [] [] []]; (discriminate Hc || reflexivity).
Qed.


Lemma second_byte (b1 b2 : bool) d lo1 hi1 lo2 hi2 :
  (if b1 then in_range lo1 hi1 d else if b2 then in_range lo2 hi2 d else cont d) = true →
  (128 <= lo1 ∧ hi1 <= 191 ∧ 128 <= lo2 ∧ hi2 <= 191)%N → cont d = true.
Proof.
  unfold cont, in_range. intros H Hb. apply andb_true_iff. rewrite !N.leb_le.
  destruct b1; [|destruct b2]; apply andb_true_iff in H; rewrite !N.leb_le in H; lia.
Qed.
Lemma not_226 c lo hi : in_range lo hi c = true → (hi < 226 ∨ 226 < lo)%N → byte_is 226 c = false.
Proof.
  unfold in_range, byte_is. intros [H1%N.leb_le H2%N.leb_le]%andb_true_iff Hr. apply N.eqb_neq. lia.
Qed.

(** A rune, escaped when it is a separator. *)
Lemma copied_rune s n c s' :
  s = String c s' → (byte_val c <? 128)%N = false → rune_size s = S n →
  copied true (quote_rune (str_take (S n) s)).
Proof.
  intros -> Hc Hn. unfold quote_rune.
  case_bool_decide as H1; [intros t; destruct t as [|d [|e t]]; reflexivity|].
  case_bool_decide as H2; [intros t; destruct t as [|d [|e t]]; reflexivity|].
  assert (∀ d e, String c (String d (String e "")) = str_take (S n) (String c s') →
    separator c d e = false) as Hsep.
  { intros d e Ht. rewrite <- Ht in H1, H2. unfold separator.
    destruct (byte_is 226 c && byte_is 128 d) eqn:E; [|done]. apply andb_true_iff in E as [E1 E2].
    assert (∀ k x, byte_is k x = true → x = chr k) as Hk.
    { intros k x Hx. apply N.eqb_eq in Hx. unfold chr. by rewrite <- Hx, ascii_N_embedding. }
    apply Hk in E1 as ->, E2 as ->. cbn [andb]. apply orb_false_iff.
    split; apply not_true_is_false; intros Hx%Hk; subst e; by (apply H1 || apply H2). }
  destruct s' as [|d [|e [|f s]]]; unfold rune_size in Hn; rewrite Hc in Hn;
    repeat case_in Hn; simplify_eq; cbn [str_take] in *; intros t;
    rewrite ?string_app_cons, ?string_app_nil_l;
    repeat match goal with
    | H : _ && _ = true |- _ => apply andb_true_iff in H as [? ?]
    end.
  all: repeat match goal with
       | H : (if _ then _ else _) = true |- _ => apply second_byte in H; [|lia..]
       end.
  all: rewrite copied_high; [by rewrite ?copied_cont by done|done|];
    try (by apply Hsep);
    try (assert (byte_is 226 c = false) as Hf
           by first [apply (not_226 c 194 223); [done|lia]|apply (not_226 c 240 244); [done|lia]];
         destruct t; unfold separator; by rewrite ?Hf).
Qed.

Lemma copied_string n s :
  valid_utf8_go n s = true → copied true (quote_go n s).
Proof.
  revert s. induction n as [|n IH]; intros s Hv; [apply copied_nil|].
  destruct s as [|c s]; [apply copied_nil|]. cbn [valid_utf8_go] in Hv.
  destruct (rune_size (String c s)) as [|k] eqn:Hk; [done|].
  cbn [quote_go]. destruct (byte_val c <? 128)%N eqn:Hc.
  - assert (k = 0%nat) as ->. { cbn in Hk. rewrite Hc in Hk. by simplify_eq. }
    apply copied_app; [by apply copied_byte|by apply IH].
  - rewrite Hk. apply copied_app; [by eapply copied_rune|by apply IH].
Qed.

Lemma copied_quote s : valid_utf8 s = true → copied false (quote s).
Proof.
  intros Hv t. unfold quote. rewrite !string_app_cons, !string_app_assoc.
  cbn [compact_go negb]. change (is_ws dquote) with false. change (Ascii.eqb dquote dquote) with true.
  cbv iota. rewrite copied_string by done. rewrite !string_app_cons. cbn [compact_go negb].
  change (Ascii.eqb dquote dquote) with true. cbv iota. by rewrite !string_app_nil_l.
Qed.

Lemma copied_number lit : forallb number_char (bytes_of lit) = true → copied false lit.
Proof.
  induction lit as [|c lit IH]; [intros _; apply copied_nil|].
  intros [Hc Hl]%andb_true_iff t. specialize (IH Hl t). rewrite string_app_cons. cbn [compact_go negb].
  assert (is_ws c = false ∧ Ascii.eqb c dquote = false) as [-> ->]; [|by rewrite IH].
  destruct c as [[] [] [] [] [] [] [] []]; (discriminate Hc || by split).
Qed.

Lemma copied_join l : Forall (copied false) l → copied false (join "," l).
Proof.
  induction 1 as [|p l Hp Hl IH]; [apply copied_nil|].
  destruct l as [|q l]; [done|]. apply copied_app; [done|]. apply copied_app; [|done].
  by intros t.
Qed.

Lemma copied_print j : wf_json j → copied false (print j).
Proof.
  induction j as [|b|lit|s|l IH|m IH] using json_nested_ind; intros Hwf;
    inversion Hwf as [| |c lit' Hv Hc Hd|? Hs|? Hl|? Hm]; subst.
  - by intros t.
  - destruct b; by intros t.
  - apply copied_number. change (number_char c && forallb number_char (bytes_of lit') = true).
    rewrite Hd, andb_true_r. unfold number_char.
    apply orb_true_iff in Hc as [->| ->]; [done|]. by rewrite !orb_true_r.
  - by apply copied_quote.
  - change (print (JArr l)) with ("[" +:+ join "," (map print l) +:+ "]").
    apply copied_app; [by intros t|]. apply copied_app; [|by intros t].
    apply copied_join, List.Forall_map. rewrite list.Forall_forall in IH, Hl |- *. intros x Hx. apply IH; [done|]. by apply Hl.
  - rewrite print_obj. apply copied_app; [by intros t|]. apply copied_app; [|by intros t].
    apply copied_join, List.Forall_map. rewrite list.Forall_forall in IH, Hm |- *.
    intros [k v] Hx. destruct (Hm _ Hx) as [Hk Hv]. specialize (IH _ Hx Hv). cbn [fst snd] in *.
    unfold print_member. cbn [fst snd].
    apply copied_app; [by apply copied_quote|]. by apply copied_app; [intros t|].
Qed.

(** What [json.Marshal] wrote is left as it is. *)
Lemma compact_print j : wf_json j → compact (print j) = Some (print j).
Proof.
  intros Hj. unfold compact, Valid. rewrite parse_print by done. f_equal.
  rewrite <- (string_app_nil_r (print j)) at 1. rewrite copied_print by done.
  apply string_app_nil_r.
Qed.
