(* ===== verification/JsonPrefix.v ===== *)
(** * Values at the start of a text

    A JSON value that ends before the text does is the same value when more
    text follows, so a printed value has no proper prefix that is a value: what
    a decoder that reads a bounded part of a body relies on. *)

From Stdlib Require Import Ascii.
From S2P Require Import Prelude GoStd Json GoText Utf8.

Lemma skip_ws_app s t c s' :
  skip_ws s = String c s' → skip_ws (s +:+ t) = String c (s' +:+ t).
Proof.
  induction s as [|d s IH]; cbn [skip_ws]; [done|]. rewrite string_app_cons. cbn [skip_ws].
  destruct (is_ws d); [done|]. by intros [= -> ->].
Qed.

Lemma CutPrefix_extend p s r t : CutPrefix p s = Some r → CutPrefix p (s +:+ t) = Some (r +:+ t).
Proof.
  revert s. induction p as [|c p IH]; intros s; cbn; [by intros [= ->]|].
  destruct s as [|d s]; [done|]. rewrite string_app_cons. cbn.
  case_goal; [apply IH|done].
Qed.

Lemma parse_u4_extend s x r t : parse_u4 s = Some (x, r) →
  parse_u4 (s +:+ t) = Some (x, r +:+ t) ∧ ∃ p, s = p +:+ r.
Proof.
  destruct s as [|a [|b [|c [|d s]]]]; try done. rewrite !string_app_cons. cbn [parse_u4].
  repeat case_goal; try done. intros [= <- <-]. split; [done|].
  by exists (String a (String b (String c (String d "")))).
Qed.

Lemma unescape_u_suffix s u r : unescape_u s = Some (u, r) → ∃ p, s = p +:+ r.
Proof.
  unfold unescape_u. destruct (parse_u4 s) as [[x s1]|] eqn:E; [|done].
  apply (parse_u4_extend _ _ _ "") in E as [_ [p ->]].
  destruct (_ || _); [|intros [= <- <-]; by exists p].
  destruct (CutPrefix _ s1) as [s2|] eqn:Ec; [|intros [= <- <-]; by exists p].
  apply CutPrefix_app in Ec as ->.
  destruct (parse_u4 s2) as [[y s3]|] eqn:E2; [|intros [= <- <-]; by exists p].
  apply (parse_u4_extend _ _ _ "") in E2 as [_ [q ->]].
  destruct (_ && _); intros [= <- <-]; [|by exists p].
  exists (p +:+ esc "u" +:+ q). by rewrite !string_app_assoc.
Qed.

Lemma push_some chunk o v r :
  push chunk o = Some (v, r) ↔ ∃ v', o = Some (v', r) ∧ v = chunk +:+ v'.
Proof.
  destruct o as [[v' r']|]; cbn; [|by split; [|intros (? & ? & _)]]. split.
  - intros [= <- <-]. eauto.
  - by intros (? & [= -> ->] & ->).
Qed.

(** A literal ends with a quote. *)
Lemma parse_lit_closed f s v r : parse_lit f s = Some (v, r) → ∃ p, s = p +:+ String dquote r.
Proof.
  revert s v r. induction f as [|f IH]; intros [|c s] v r; try done. cbn [parse_lit].
  destruct (Ascii.eqb_spec c dquote) as [->|Hc]; [intros [= <- <-]; by exists ""|].
  destruct (Ascii.eqb c backslash).
  - destruct s as [|e s]; [done|]. destruct (Ascii.eqb e "u").
    + destruct (unescape_u s) as [[u s1]|] eqn:Hu; [|done].
      intros (v' & [p ->]%IH & _)%push_some. apply unescape_u_suffix in Hu as [q ->].
      exists (String c (String e (q +:+ p))). by rewrite !string_app_cons, string_app_assoc.
    + destruct (simple_escape e) as [c'|]; [|done]. intros (v' & [p ->]%IH & _)%push_some.
      exists (String c (String e p)). done.
  - destruct (byte_val c <? 32)%N; [done|]. destruct (rune_size _) as [|n] eqn:Hn.
    + intros (v' & [p ->]%IH & _)%push_some. by exists (String c p).
    + intros (v' & [p Hp]%IH & _)%push_some.
      exists (str_take (S n) (String c s) +:+ p).
      by rewrite string_app_assoc, <- Hp, str_take_drop.
Qed.

Lemma unescape_u_extend s u r t f v r' :
  unescape_u s = Some (u, r) → parse_lit f r = Some (v, r') →
  unescape_u (s +:+ t) = Some (u, r +:+ t).
Proof.
  unfold unescape_u. intros H Hl. destruct (parse_u4 s) as [[x s1]|] eqn:E; [|done].
  apply (parse_u4_extend _ _ _ t) in E as [-> _].
  destruct (high_surrogate x || low_surrogate x); [|by injection H as <- <-].
  destruct (CutPrefix (esc "u") s1) as [s2|] eqn:Ec.
  - rewrite (CutPrefix_extend _ _ _ t Ec). destruct (parse_u4 s2) as [[y s3]|] eqn:E2.
    + apply (parse_u4_extend _ _ _ t) in E2 as [-> _].
      destruct (_ && _); injection H as <- <-; done.
    + injection H as <- <-. exfalso. apply CutPrefix_app in Ec as ->. destruct f; [done|].
      change (esc "u" +:+ s2) with (String backslash (String "u" s2)) in Hl.
      cbn [parse_lit] in Hl. change (Ascii.eqb backslash dquote) with false in Hl.
      change (Ascii.eqb backslash backslash) with true in Hl.
      change (Ascii.eqb "u" "u") with true in Hl. cbv iota in Hl.
      unfold unescape_u in Hl. by rewrite E2 in Hl.
  - injection H as <- <-. assert (CutPrefix (esc "u") (s1 +:+ t) = None) as ->; [|done].
    destruct f; [done|]. destruct s1 as [|a s1]; [done|]. rewrite string_app_cons.
    cbn in Ec |- *. destruct s1 as [|b s1].
    + destruct a as [[] [] [] [] [] [] [] []]; done.
    + rewrite string_app_cons. by repeat case_in Ec.
Qed.

Lemma parse_lit_extend f s v r n t :
  parse_lit f s = Some (v, r) → (f <= n)%nat → parse_lit n (s +:+ t) = Some (v, r +:+ t).
Proof.
  revert s v r n. induction f as [|f IH]; intros [|c s] v r [|n]; try done; try lia.
  intros H Hn. rewrite string_app_cons. cbn [parse_lit] in *.
  pose proof (λ s v r H, IH s v r n H (le_S_n _ _ Hn)) as IH'. clear IH Hn. rename IH' into IH.
  destruct (Ascii.eqb_spec c dquote) as [->|Hc]; [by injection H as <- <-|].
  destruct (Ascii.eqb c backslash).
  - destruct s as [|e s]; [done|]. rewrite string_app_cons. destruct (Ascii.eqb e "u").
    + destruct (unescape_u s) as [[u s1]|] eqn:Hu; [|done].
      apply push_some in H as (v' & Hv & ->).
      rewrite (unescape_u_extend _ _ _ t _ _ _ Hu Hv). apply push_some. eauto.
    + destruct (simple_escape e) as [c'|]; [|done]. apply push_some in H as (v' & Hv & ->).
      apply push_some. eauto.
  - destruct (byte_val c <? 32)%N; [done|]. destruct (rune_size (String c s)) as [|k] eqn:Hk.
    + apply push_some in H as (v' & Hv & ->).
      assert (rune_size (String c (s +:+ t)) = O) as ->; [|apply push_some; eauto].
      destruct (rune_size (String c (s +:+ t))) as [|k] eqn:Hk'; [done|]. exfalso.
      apply parse_lit_closed in Hv as [p ->]. rewrite string_app_assoc, string_app_cons in Hk'.
      rewrite <- string_app_cons in Hk'.
      assert (rune_size (String c p) = S k) as Hp.
      { eapply rune_size_prefix; [| |done|exact Hk']; [done|left; by vm_compute]. }
      apply (rune_size_app _ (String dquote r)) in Hp as [Hp _]. rewrite string_app_cons in Hp.
      congruence.
    + apply push_some in H as (v' & Hv & ->).
      destruct (rune_size_app _ t _ Hk) as (Hk' & Ht & Hd). rewrite string_app_cons in Hk', Ht, Hd.
      rewrite Hk', Ht, Hd. apply push_some. eauto.
Qed.

Lemma parse_number_extend s j r t :
  parse_number s = Some (j, r) → r ≠ "" → parse_number (s +:+ t) = Some (j, r +:+ t).
Proof.
  unfold parse_number. intros H Hr. destruct (span number_char s) as [lit r'] eqn:E.
  destruct (valid_number lit) eqn:Hv; [|done]. injection H as <- <-.
  assert (span number_char (s +:+ t) = (lit, r' +:+ t)) as ->; [|by rewrite Hv].
  clear Hv. revert lit E. induction s as [|c s IH]; intros lit E; cbn in E; [congruence|].
  rewrite string_app_cons. cbn. destruct (number_char c).
  - destruct (span number_char s) as [l r0]. injection E as <- <-. by rewrite (IH l).
  - by injection E as <- <-.
Qed.

Lemma parse_keyword_extend s j r t :
  parse_keyword s = Some (j, r) → parse_keyword (s +:+ t) = Some (j, r +:+ t).
Proof.
  unfold parse_keyword.
  destruct (CutPrefix "null" s) as [r1|] eqn:E1.
  { intros [= <- <-]. by rewrite (CutPrefix_extend _ _ _ t E1). }
  destruct (CutPrefix "true" s) as [r2|] eqn:E2.
  { intros [= <- <-]. rewrite (CutPrefix_extend _ _ _ t E2). by apply CutPrefix_app in E2 as ->. }
  destruct (CutPrefix "false" s) as [r3|] eqn:E3; [|done].
  intros [= <- <-]. rewrite (CutPrefix_extend _ _ _ t E3). by apply CutPrefix_app in E3 as ->.
Qed.

Lemma parse_nothing f s : skip_ws s = "" →
  parse_value f s = None ∧ parse_elements f s = None ∧ parse_members f s = None.
Proof.
  intros H. destruct f as [|f]; [done|]. cbn. rewrite H. split_and!; try done.
  destruct f as [|f]; [done|]. cbn. by rewrite H.
Qed.

(** Case analysis on a byte that is compared with literals. *)
Ltac by_byte c := destruct c as [[] [] [] [] [] [] [] []]; try done.

Lemma parse_extend f :
  (∀ s j r n t, parse_value f s = Some (j, r) → r ≠ "" ∨ (∀ lit, j ≠ JNum lit) → (f <= n)%nat →
     parse_value n (s +:+ t) = Some (j, r +:+ t)) ∧
  (∀ s l r n t, parse_elements f s = Some (l, r) → (f <= n)%nat →
     parse_elements n (s +:+ t) = Some (l, r +:+ t)) ∧
  (∀ s m r n t, parse_members f s = Some (m, r) → (f <= n)%nat →
     parse_members n (s +:+ t) = Some (m, r +:+ t)).
Proof.
  induction f as [|f (IHv & IHe & IHm)]; [by split_and!|].
  assert (Hlit : ∀ s v r t, parse_lit (S (String.length s)) s = Some (v, r) →
    parse_lit (S (String.length (s +:+ t))) (s +:+ t) = Some (v, r +:+ t)).
  { intros s v r t H. eapply parse_lit_extend; [exact H|]. rewrite string_length_app. lia. }
  split_and!; intros s j r [|n] t; try lia.
  - intros H Hr Hn. cbn [parse_value] in H. destruct (skip_ws s) as [|c s'] eqn:Es; [done|].
    cbn [parse_value]. rewrite (skip_ws_app _ t _ _ Es).
    destruct (Ascii.eqb c dquote).
    { destruct (parse_lit _ s') as [[v r']|] eqn:E; [|done]. injection H as <- <-.
      by rewrite (Hlit _ _ _ t E). }
    destruct (Ascii.eqb c "[").
    { destruct (skip_ws s') as [|d s''] eqn:Es'.
      { by rewrite (proj1 (proj2 (parse_nothing f s' Es'))) in H. }
      rewrite (skip_ws_app _ t _ _ Es').
      assert (∀ l r', parse_elements f s' = Some (l, r') →
        parse_elements n (s' +:+ t) = Some (l, r' +:+ t)) as He by (intros; eapply IHe; [done|lia]).
      destruct (parse_elements f s') as [[l r']|]; [rewrite (He _ _ eq_refl)|];
        by_byte d; by injection H as <- <-. }
    destruct (Ascii.eqb c "{").
    { destruct (skip_ws s') as [|d s''] eqn:Es'.
      { by rewrite (proj2 (proj2 (parse_nothing f s' Es'))) in H. }
      rewrite (skip_ws_app _ t _ _ Es').
      assert (∀ l r', parse_members f s' = Some (l, r') →
        parse_members n (s' +:+ t) = Some (l, r' +:+ t)) as He by (intros; eapply IHm; [done|lia]).
      destruct (parse_members f s') as [[l r']|]; [rewrite (He _ _ eq_refl)|];
        by_byte d; by injection H as <- <-. }
    rewrite <- string_app_cons. destruct (is_digit c || byte_is 45 c);
      [|by apply parse_keyword_extend]. apply parse_number_extend; [done|].
    destruct Hr as [Hr|Hr]; [done|]. unfold parse_number in H.
    destruct (span _ _) as [lit r']. destruct (valid_number lit); [|done]. injection H as <- <-.
    by destruct (Hr lit).
  - intros H Hn. cbn [parse_elements] in H |- *.
    destruct (parse_value f s) as [[v s1]|] eqn:E; [|done].
    destruct (skip_ws s1) as [|d s2] eqn:Es; [done|].
    assert (s1 ≠ "") as Hne by by intros ->.
    rewrite (IHv _ _ _ n t E (or_introl Hne)) by lia. rewrite (skip_ws_app _ t _ _ Es).
    assert (∀ l r', parse_elements f s2 = Some (l, r') →
      parse_elements n (s2 +:+ t) = Some (l, r' +:+ t)) as He by (intros; eapply IHe; [done|lia]).
    destruct (parse_elements f s2) as [[l r']|]; [rewrite (He _ _ eq_refl)|];
      by_byte d; by injection H as <- <-.
  - intros H Hn. cbn [parse_members] in H |- *.
    destruct (skip_ws s) as [|c s1] eqn:Es; [done|]. rewrite (skip_ws_app _ t _ _ Es).
    destruct (Ascii.eqb c dquote); [|done].
    destruct (parse_lit _ s1) as [[k s2]|] eqn:El; [|done]. rewrite (Hlit _ _ _ t El).
    destruct (skip_ws s2) as [|d s3] eqn:Es2; [done|]. rewrite (skip_ws_app _ t _ _ Es2).
    assert (∀ v s5, parse_value f s3 = Some (v, s5) → s5 ≠ "" →
      parse_value n (s3 +:+ t) = Some (v, s5 +:+ t)) as Hv by (intros; eapply IHv; [done|by left|lia]).
    destruct (parse_value f s3) as [[v s5]|]; [|by_byte d].
    destruct (skip_ws s5) as [|e s6] eqn:Es5; [by_byte d|].
    assert (s5 ≠ "") as Hne by by intros ->.
    rewrite (Hv _ _ eq_refl Hne), (skip_ws_app _ t _ _ Es5). clear Hv.
    assert (∀ l r', parse_members f s6 = Some (l, r') →
      parse_members n (s6 +:+ t) = Some (l, r' +:+ t)) as He by (intros; eapply IHm; [done|lia]).
    destruct (parse_members f s6) as [[l r']|]; [rewrite (He _ _ eq_refl)|];
      by_byte d; by_byte e; by injection H as <- <-.
Qed.

(** A proper prefix of a printed value is no value, unless the value is a number. *)
Lemma parse_value_number f c s lit r :
  parse_value f (String c s) = Some (JNum lit, r) → is_ws c = false → is_digit c || byte_is 45 c = true.
Proof.
  destruct f as [|f]; [done|]. cbn [parse_value skip_ws]. intros H Hw. rewrite Hw in H.
  destruct (Ascii.eqb c dquote); [by destruct (parse_lit _ _) as [[? ?]|]|].
  destruct (Ascii.eqb c "[").
  { destruct (skip_ws s) as [|d s']; [by destruct (parse_elements _ _) as [[? ?]|]|].
    by_byte d; by destruct (parse_elements _ _) as [[? ?]|]. }
  destruct (Ascii.eqb c "{").
  { destruct (skip_ws s) as [|d s']; [by destruct (parse_members _ _) as [[? ?]|]|].
    by_byte d; by destruct (parse_members _ _) as [[? ?]|]. }
  destruct (is_digit c || byte_is 45 c); [done|]. unfold parse_keyword in H.
  by repeat destruct (CutPrefix _ _).
Qed.

Lemma proper_prefix_invalid j n :
  wf_json j → (∀ lit, j ≠ JNum lit) → (n < String.length (print j))%nat →
  parse (str_take n (print j)) = None.
Proof.
  intros Hj Hnum Hn. unfold parse.
  destruct (parse_value _ (str_take n (print j))) as [[j' r]|] eqn:E; [|done]. exfalso.
  assert (∀ lit, j' ≠ JNum lit) as Hnum'.
  { intros lit ->. destruct n as [|n]; [done|]. destruct (print_head j Hj) as (c & u & Hp & Hw & _).
    rewrite Hp in E. cbn [str_take] in E. apply parse_value_number in E; [|done].
    destruct j as [|[]|l|s|l|m]; [..|by destruct (Hnum l)| | |];
      [injection Hp as <- _; discriminate E..]. }
  apply (proj1 (parse_extend _)) with
    (n := (2 * String.length (print j) + 2)%nat) (t := str_drop n (print j)) in E; [|by right|].
  - rewrite str_take_drop in E. pose proof (parse_value_print j Hj (2 * String.length (print j) + 2)%nat "") as Hp.
    rewrite string_app_nil_r, E in Hp. specialize (Hp (le_n _) I). injection Hp as _ Hp.
    pose proof (str_length_drop n (print j)) as Hd.
    assert (String.length (r +:+ str_drop n (print j)) = 0%nat) as H0 by by rewrite Hp.
    rewrite string_length_app in H0. lia.
  - pose proof (f_equal String.length (str_take_drop n (print j))) as Hl.
    rewrite string_length_app in Hl. lia.
Qed.
