(* ===== verification/GoFloat.v ===== *)
(** * Floating-point numbers in JSON ([strconv.ParseFloat], [encoding/json])

    How the decimal text of a number becomes the nearest IEEE 754 double, ties
    to even, and how [json.Marshal] writes a double: the shortest decimal that
    is read back as it. *)

From Stdlib Require Import SpecFloat Ascii.
From S2P Require Import Prelude GoStd Json.

Open Scope Z_scope.

(** ** Rounding a positive fraction *)

(** [num/den] over the power [2^e], and over [10^e]. *)
Definition scale (base num den e : Z) : Z * Z :=
  if 0 <=? e then (num, den * base ^ e) else (num * base ^ (- e), den).

(** The exponent at which the quotient has 53 bits, or the least one. *)
Definition exponent_of (num den : Z) : Z :=
  let e := Z.log2 num - Z.log2 den - 53 in
  let '(a, b) := scale 2 num den e in
  Z.max (if 2 ^ 53 <=? a / b then e + 1 else e) (-1074).

(** The nearest integer, ties to even. *)
Definition round_even (a b : Z) : Z :=
  let q := a / b in let r := a mod b in
  if (b <? 2 * r) || ((2 * r =? b) && Z.odd q) then q + 1 else q.

(** Mantissa and exponent of the nearest double; [None] is an overflow. *)
Definition round_ratio (num den : Z) : option (Z * Z) :=
  let e := exponent_of num den in
  let '(a, b) := scale 2 num den e in
  let m := round_even a b in
  let '(m, e) := if m =? 2 ^ 53 then (2 ^ 52, e + 1) else (m, e) in
  if 971 <? e then None else Some (m, e).

Definition round_decimal (digits exp : Z) : option (Z * Z) :=
  let '(num, den) := scale 10 digits 1 (- exp) in round_ratio num den.

(** ** Reading *)

Definition digits_value (s : string) : Z :=
  foldl (λ acc c, acc * 10 + Z.of_N (byte_val c - 48)) 0 (bytes_of s).

Definition read_exponent (s : string) : Z :=
  match s with
  | String _ (String "-" digits) => - digits_value digits
  | String _ (String "+" digits) => digits_value digits
  | String _ digits => digits_value digits
  | EmptyString => 0
  end.

(** Sign, digits, and the power of ten of the last one: [lit] is a number token. *)
Definition read_decimal (lit : string) : bool * string * Z :=
  let '(neg, s) := match lit with String "-" s => (true, s) | _ => (false, lit) end in
  let '(whole, rest) := span is_digit s in
  let '(frac, rest) := match rest with String "." r => span is_digit r | _ => ("", rest) end in
  (neg, whole +:+ frac, read_exponent rest - Z.of_nat (String.length frac)).

(** A number is out of range when it rounds to an infinity; exponents beyond the
    bounds need no computation. *)
Definition ParseFloat (lit : string) : option spec_float :=
  let '(neg, digits, exp) := read_decimal lit in
  let d := digits_value digits in
  if d =? 0 then Some (S754_zero neg)
  else if 310 <? exp then None
  else if exp + Z.of_nat (String.length digits) <? -330 then Some (S754_zero neg)
  else
    match round_decimal d exp with
    | Some (Zpos m, e) => Some (S754_finite neg m e)
    | Some _ => Some (S754_zero neg)
    | None => None
    end.

(** ** Writing *)

(** The power of ten just above a fraction. *)
Definition decimal_point (num den : Z) : Z :=
  let k := (Z.log2 num - Z.log2 den) * 30103 / 100000 in
  default (k + 2) (List.find (λ k, let '(a, b) := scale 10 num den k in a <? b) [k - 1; k; k + 1]).

(** The decimal with [n] digits that is read back as the double [m 2^e]: the one
    below, the one above, or the nearer of the two. *)
Definition shortest_at (m e num den k : Z) (n : nat) : option (Z * Z) :=
  let s := k - Z.of_nat n in
  let '(a, b) := scale 10 num den s in
  let q := a / b in let r := a mod b in
  let reads q := bool_decide (round_decimal q s = Some (m, e)) in
  if reads q && reads (q + 1) then
    Some (if (2 * r <? b) || ((2 * r =? b) && Z.even q) then q else q + 1, s)
  else if reads q then Some (q, s)
  else if reads (q + 1) then Some (q + 1, s)
  else None.

Fixpoint shortest_from (m e num den k : Z) (n fuel : nat) : option (Z * Z) :=
  match fuel with
  | O => None
  | S fuel' =>
      match shortest_at m e num den k n with
      | Some d => Some d
      | None => shortest_from m e num den k (S n) fuel'
      end
  end.
(** Seventeen digits are always enough. *)
Definition shortest (m e : Z) : option (Z * Z) :=
  let '(num, den) := scale 2 m 1 (- e) in
  shortest_from m e num den (decimal_point num den) 1 17.

Fixpoint strip_zeros (s : string) : string :=
  match s with String "0" s' => strip_zeros s' | _ => s end.
(** The digits of a decimal without trailing zeros, and the position of its point. *)
Definition decimal_digits (d : Z * Z) : string * Z :=
  let s := FormatUint d.1 in
  (string_rev (strip_zeros (string_rev s)), Z.of_nat (String.length s) + d.2).

Fixpoint zeros (n : nat) : string := match n with O => "" | S n' => String "0" (zeros n') end.

(** The formats ['f'] and ['e'], the latter with a one-digit exponent when that
    is enough. *)
Definition format_plain (digits : string) (point : Z) : string :=
  let n := Z.of_nat (String.length digits) in
  if point <=? 0 then "0." +:+ zeros (Z.to_nat (- point)) +:+ digits
  else if n <=? point then digits +:+ zeros (Z.to_nat (point - n))
  else str_take (Z.to_nat point) digits +:+ "." +:+ str_drop (Z.to_nat point) digits.
Definition format_exponent (digits : string) (point : Z) : string :=
  let x := point - 1 in
  str_take 1 digits +:+
  (if (String.length digits =? 1)%nat then "" else "." +:+ str_drop 1 digits) +:+
  "e" +:+ (if x <? 0 then "-" else "+") +:+
  (if (0 <? x) && (x <? 10) then "0" else "") +:+ FormatUint (Z.abs x).

Definition float_of (lit : string) : spec_float := default S754_nan (ParseFloat lit).

(** [floatEncoder]: infinities and NaN have no encoding. *)
Definition FormatFloat (x : spec_float) : option string :=
  match x with
  | S754_zero neg => Some (if neg then "-0" else "0")
  | S754_finite neg m e =>
      match shortest (Zpos m) e with
      | Some d =>
          let '(digits, point) := decimal_digits d in
          let small := SFltb (S754_finite false m e) (float_of "1e-6") in
          let big := negb (SFltb (S754_finite false m e) (float_of "1e21")) in
          Some ((if neg then "-" else "") +:+
                if small || big then format_exponent digits point else format_plain digits point)
      | None => None
      end
  | _ => None
  end.

Example floats_written :
  map (λ lit, ParseFloat lit ≫= FormatFloat)
    ["0.1"; "1"; "100"; "0.30000000000000004"; "1e21"; "123456789.125"; "1e-7"; "0.000001"; "5e-324";
     "1.7976931348623157e308"; "9007199254740993"; "1e-400"; "1e309"; "-0"; "-2.50"; "2e-10"; "1E2"] =
  [Some "0.1"; Some "1"; Some "100"; Some "0.30000000000000004"; Some "1e+21"; Some "123456789.125";
   Some "1e-7"; Some "0.000001"; Some "5e-324"; Some "1.7976931348623157e+308";
   Some "9007199254740992"; Some "0"; None; Some "-0"; Some "-2.5"; Some "2e-10"; Some "100"].
Proof. vm_compute. reflexivity. Qed.
