(* ===== verification/GoNet.v ===== *)
(** * [net/url], [net/netip] and [encoding/base64] decoding

    Which texts [url.ParseRequestURI] accepts and the scheme, host and user
    information it finds, with the rules of the Go release that go.mod names
    (bracketed hosts must be IPv6 addresses, a bare host has one colon at
    most), and base64 decoding.  Only success and the fields the program reads
    are modelled, not the paths, queries and texts of errors. *)

From S2P Require Import Prelude GoStd Json GoText.
From Stdlib Require Import Ascii.

(** ** Bytes *)

Definition IndexByte (c : ascii) (s : string) : option (string * string) := Cut c s.
(** Split at the last occurrence of a byte. *)
Definition CutLast (c : ascii) (s : string) : option (string * string) :=
  match Cut c (string_rev s) with
  | Some (r, l) => Some (string_rev l, string_rev r)
  | None => None
  end.
Definition contains_byte (c : ascii) (s : string) : bool := existsb (Ascii.eqb c) (bytes_of s).
(** Split before the first occurrence of a substring. *)
Fixpoint split_before (p s : string) : option (string * string) :=
  if HasPrefix s p then Some ("", s)
  else match s with
       | EmptyString => None
       | String c s' =>
           match split_before p s' with Some (l, r) => Some (String c l, r) | None => None end
       end.

Definition hex_char (c : ascii) : bool := if hex_val c is Some _ then true else false.

(** ** [netip.ParseAddr] on IPv6 text *)

Fixpoint hex_run (s : string) : string * string :=
  match s with
  | EmptyString => ("", "")
  | String c s' =>
      if hex_char c then let '(a, b) := hex_run s' in (String c a, b) else ("", s)
  end.

(** The loop of [parseIPv6]: [i] bytes are filled, [ellipsis] tells whether a
    [::] was seen; at most eight groups, so eight units of fuel.  The answer is
    what is left, the bytes filled and the ellipsis. *)
Fixpoint ipv6_groups (fuel i : nat) (ellipsis : bool) (s : string) : option (string * nat * bool) :=
  match fuel with
  | O => Some (s, i, ellipsis)
  | S fuel' =>
      if (16 <=? i)%nat then Some (s, i, ellipsis)
      else
        let '(digits, rest) := hex_run s in
        if (String.length digits =? 0)%nat || (4 <? String.length digits)%nat then None
        else match rest with
        | String "." _ =>
            if (negb ellipsis && negb (i =? 12)%nat) || (16 <? i + 4)%nat || negb (ipv4 s) then None
            else Some ("", (i + 4)%nat, ellipsis)
        | EmptyString => Some ("", (i + 2)%nat, ellipsis)
        | String ":" EmptyString => None
        | String ":" (String ":" rest') =>
            if ellipsis then None
            else if bool_decide (rest' = "") then Some ("", (i + 2)%nat, true)
            else ipv6_groups fuel' (i + 2) true rest'
        | String ":" rest' => ipv6_groups fuel' (i + 2) ellipsis rest'
        | _ => None
        end
  end.

Definition ipv6 (s : string) : bool :=
  let '(addr, zone_ok) :=
    match Cut "%"%char s with
    | Some (addr, zone) => (addr, negb (bool_decide (zone = "")))
    | None => (s, true)
    end in
  zone_ok &&
  match CutPrefix "::" addr with
  | Some EmptyString => true
  | o =>
      match ipv6_groups 8 0 (if o is Some _ then true else false) (default addr o) with
      | Some (EmptyString, i, ellipsis) =>
          if (i <? 16)%nat then ellipsis else negb ellipsis
      | _ => false
      end
  end.

(** [netip.ParseAddr] gives an address that is not IPv4: the first of the
    bytes [.], [:] and [%] of the text is a colon. *)
Definition ip_literal (s : string) : bool :=
  match List.find (one_of ".:%") (bytes_of s) with
  | Some c => Ascii.eqb c ":"%char && ipv6 s
  | None => false
  end.

(** ** [net/url] *)

(** [unescape]: [mode] is the one of a host, an IPv6 zone, a path or user
    information. *)
Inductive encoding : Type := encodeHost | encodeZone | encodePath | encodeUserPassword.

Definition shouldEscape_host (c : ascii) : bool :=
  negb (alnum c || one_of "!$&'()*+,;=:[]<>-_.~" c || byte_is 34 c).

Fixpoint unescape (mode : encoding) (s : string) : option string :=
  match s with
  | EmptyString => Some ""
  | String "%" (String a (String b s')) =>
      match hex_val a, hex_val b with
      | Some x, Some y =>
          let v := chr (16 * x + y) in
          let percent := (x =? 2)%N && (y =? 5)%N in
          let refused :=
            match mode with
            | encodeHost => (x <? 8)%N && negb percent
            | encodeZone => negb percent && negb (byte_is 32 v) && shouldEscape_host v
            | _ => false
            end in
          if refused then None else String v <$> unescape mode s'
      | _, _ => None
      end
  | String "%" _ => None
  | String c s' =>
      let refused :=
        match mode with
        | encodeHost | encodeZone => (byte_val c <? 128)%N && shouldEscape_host c
        | _ => false
        end in
      if refused then None else String c <$> unescape mode s'
  end.

(** [validOptionalPort]: empty, or a colon and digits. *)
Definition validOptionalPort (port : string) : bool :=
  match port with
  | EmptyString => true
  | String c rest => Ascii.eqb c ":"%char && forallb is_digit (bytes_of rest)
  end.

Definition parseHost (host : string) : option string :=
  match CutLast "["%char host with
  | Some (_, after) =>
      match CutLast "]"%char host with
      | None => None
      | Some (_, colonPort) =>
          if negb (validOptionalPort colonPort) then None
          else match CutLast "]"%char after with
          | None => None
          | Some (hostname, _) =>
              port ← unescape encodeHost colonPort;
              name ← match split_before "%25" hostname with
                     | Some (addr, zone) =>
                         a ← unescape encodeHost addr; z ← unescape encodeZone zone; Some (a +:+ z)
                     | None => unescape encodeHost hostname
                     end;
              if ip_literal name then Some ("[" +:+ name +:+ "]" +:+ port) else None
          end
      end
  | None =>
      match Cut ":"%char host with
      | Some (_, digits) =>
          if forallb is_digit (bytes_of digits) then unescape encodeHost host else None
      | None => unescape encodeHost host
      end
  end.

Definition validUserinfo (s : string) : bool :=
  forallb (λ c, alnum c || one_of "-._:~!$&'()*+,;=%@" c) (bytes_of s).

(** Whether there is user information, and the host. *)
Definition parseAuthority (authority : string) : option (bool * string) :=
  match CutLast "@"%char authority with
  | None => host ← parseHost authority; Some (false, host)
  | Some (userinfo, h) =>
      host ← parseHost h;
      if validUserinfo userinfo then
        match Cut ":"%char userinfo with
        | None => _ ← unescape encodeUserPassword userinfo; Some (true, host)
        | Some (u, p) =>
            _ ← unescape encodeUserPassword u; _ ← unescape encodeUserPassword p; Some (true, host)
        end
      else None
  end.

(** [getScheme]: a letter, then letters, digits, [+], [-] and [.] up to the
    colon; without one there is no scheme.  A leading colon is an error. *)
Definition letter (c : ascii) : bool := in_range 97 122 c || in_range 65 90 c.
Fixpoint getScheme (first : bool) (s : string) : option (option (string * string)) :=
  match s with
  | EmptyString => Some None
  | String c s' =>
      if letter c || (negb first && (is_digit c || one_of "+-." c)) then
        match getScheme false s' with
        | Some (Some (scheme, rest)) => Some (Some (String c scheme, rest))
        | o => o
        end
      else if is_digit c || one_of "+-." c then Some None
      else if Ascii.eqb c ":"%char then if first then None else Some (Some ("", s'))
      else Some None
  end.

Record URL := { Scheme : string; HasUser : bool; Host : string }.

Definition ctl_byte (c : ascii) : bool := (byte_val c <? 32)%N || byte_is 127 c.
Definition path_url (path : string) (u : URL) : option URL :=
  _ ← unescape encodePath path; Some u.

Definition ParseRequestURI (raw : string) : option URL :=
  if existsb ctl_byte (bytes_of raw) then None
  else if bool_decide (raw = "") then None
  else if bool_decide (raw = "*") then Some {| Scheme := ""; HasUser := false; Host := "" |}
  else
    split ← getScheme true raw;
    let '(scheme, rest) := match split with Some (a, b) => (ToLower a, b) | None => ("", raw) end in
    let rest := match Cut "?"%char rest with Some (a, _) => a | None => rest end in
    if negb (HasPrefix rest "/") then
      if bool_decide (scheme = "") then None
      else Some {| Scheme := scheme; HasUser := false; Host := "" |}
    else
      match (if bool_decide (scheme = "") then None else CutPrefix "//" rest) with
      | Some authority =>
          let '(authority, path) :=
            match Cut "/"%char authority with
            | Some (a, p) => (a, String "/" p)
            | None => (authority, "")
            end in
          '(user, host) ← parseAuthority authority;
          path_url path {| Scheme := scheme; HasUser := user; Host := host |}
      | None => path_url rest {| Scheme := scheme; HasUser := false; Host := "" |}
      end.

Example url_plain : ParseRequestURI "https://example.com:8443/a%20b?q=1#f" =
  Some {| Scheme := "https"; HasUser := false; Host := "example.com:8443" |}.
Proof. reflexivity. Qed.
Example url_user : ParseRequestURI "HTTP://u:p@h/" =
  Some {| Scheme := "http"; HasUser := true; Host := "h" |}.
Proof. reflexivity. Qed.
Example url_ipv6 : Host <$> ParseRequestURI "http://[fe80::1%25en0]:80/" = Some "[fe80::1%en0]:80".
Proof. reflexivity. Qed.
Example url_bad_host : map ParseRequestURI
  ["http://[example.com]/"; "http://::1/"; "http://a b/"; "http://a:x/"; "https://h/%zz"; "/a b"] =
  [None; None; None; None; None; Some {| Scheme := ""; HasUser := false; Host := "" |}].
Proof. reflexivity. Qed.
Example url_opaque : map ParseRequestURI ["https:example.com"; "example.com"; "https://"] =
  [Some {| Scheme := "https"; HasUser := false; Host := "" |}; None;
   Some {| Scheme := "https"; HasUser := false; Host := "" |}].
Proof. reflexivity. Qed.

(** ** [encoding/base64] *)

Definition base64_val (c62 c63 : ascii) (c : ascii) : option N :=
  let n := byte_val c in
  if in_range 65 90 c then Some (n - 65)%N else if in_range 97 122 c then Some (n - 71)%N
  else if in_range 48 57 c then Some (n + 4)%N
  else if Ascii.eqb c c62 then Some 62%N else if Ascii.eqb c c63 then Some 63%N else None.

(** One quantum of four characters after another; [padded] encodings end with
    [=], the others with a short quantum. *)
Fixpoint decode_quanta (c62 c63 : ascii) (padded : bool) (l : list ascii) : option (list N) :=
  let v := base64_val c62 c63 in
  match l with
  | [] => Some []
  | [a; b; "="%char; "="%char] =>
      if padded then x ← v a; y ← v b; Some [x * 4 + y / 16]%N else None
  | [a; b; c; "="%char] =>
      if padded then
        x ← v a; y ← v b; z ← v c; Some [x * 4 + y / 16; (y mod 16) * 16 + z / 4]%N
      else None
  | a :: b :: c :: d :: l' =>
      x ← v a; y ← v b; z ← v c; w ← v d; rest ← decode_quanta c62 c63 padded l';
      Some (x * 4 + y / 16 :: (y mod 16) * 16 + z / 4 :: (z mod 4) * 64 + w :: rest)%N
  | [a; b; c] =>
      if padded then None
      else x ← v a; y ← v b; z ← v c; Some [x * 4 + y / 16; (y mod 16) * 16 + z / 4]%N
  | [a; b] => if padded then None else x ← v a; y ← v b; Some [x * 4 + y / 16]%N
  | [_] => None
  end.

(** Line breaks are ignored. *)
Definition base64_text (s : string) : list ascii :=
  filter (λ c, c ≠ chr 10 ∧ c ≠ chr 13) (bytes_of s).

(** [base64.StdEncoding.DecodeString] and [base64.RawURLEncoding.DecodeString]. *)
Definition StdDecode (s : string) : option (list N) :=
  decode_quanta "+" "/" true (base64_text s).
Definition RawURLDecode (s : string) : option (list N) :=
  decode_quanta "-" "_" false (base64_text s).

Example base64_std : map StdDecode ["TWFu"; "TWE="; "TQ=="; "TQ="; "T==="; "TWFu*"; ""] =
  [Some [77; 97; 110]; Some [77; 97]; Some [77]; None; None; None; Some []]%N.
Proof. reflexivity. Qed.
