(* ===== verification/GoTime.v ===== *)
(** * [time.Time]

    An instant in nanoseconds with its zone offset, compared as the program
    compares it ([After], [IsZero]), and the RFC 3339 text
    [Time.MarshalJSON] writes and [Time.UnmarshalJSON] reads, with the round
    trip between them. *)

From S2P Require Import Prelude GoStd Json.
From Stdlib Require Import Ascii.
Open Scope Z_scope.

(** [ns] counts nanoseconds since January 1, year 1, 00:00:00 UTC; [off] is the
    zone offset in minutes east of UTC, the resolution RFC 3339 text has. *)
Record Time := { ns : Z; off : Z }.

#[export] Instance Time_eq_dec : EqDecision Time.
Proof. solve_decision. Defined.

(** The zero [time.Time]. *)
Definition zero_time : Time := {| ns := 0; off := 0 |}.
Definition IsZero (t : Time) : bool := (ns t =? 0).
Definition After (t u : Time) : bool := (ns u <? ns t).
(** [Time.Add] with a [time.Duration] in nanoseconds. *)
Definition Add (t : Time) (d : Z) : Time := {| ns := ns t + d; off := off t |}.

(** ** Civil dates of the proleptic Gregorian calendar *)

(** The day within a 400-year era (which starts on March 1) as the year of the
    era, the month and the day of the month. *)
Definition civil_of_doe (doe : Z) : Z * Z * Z :=
  let yoe := (doe - doe / 1460 + doe / 36524 - doe / 146096) / 365 in
  let doy := doe - (365 * yoe + yoe / 4 - yoe / 100) in
  let mp := (5 * doy + 2) / 153 in
  (yoe, (if mp <? 10 then mp + 3 else mp - 9), doy - (153 * mp + 2) / 5 + 1).

Definition doe_of_civil (yoe m d : Z) : Z :=
  let mp := if 2 <? m then m - 3 else m + 9 in
  yoe * 365 + yoe / 4 - yoe / 100 + ((153 * mp + 2) / 5 + d - 1).

(** Year, month and day of the [day]-th day after January 1, year 1. *)
Definition civil_of_days (day : Z) : Z * Z * Z :=
  let z := day + 306 in
  let '(yoe, m, d) := civil_of_doe (z mod 146097) in
  (yoe + 400 * (z / 146097) + (if m <=? 2 then 1 else 0), m, d).

Definition days_of_civil (y m d : Z) : Z :=
  let y' := y - (if m <=? 2 then 1 else 0) in
  (y' / 400) * 146097 + doe_of_civil (y' mod 400) m d - 306.

Definition leap (y : Z) : bool :=
  (y mod 4 =? 0) && (negb (y mod 100 =? 0) || (y mod 400 =? 0)).
Definition days_in (m y : Z) : Z :=
  if m =? 2 then (if leap y then 29 else 28)
  else if (m =? 4) || (m =? 6) || (m =? 9) || (m =? 11) then 30 else 31.

(** ** Text *)

Definition digit (n : Z) : ascii := chr (Z.to_N (48 + n)).
Definition pad2 (n : Z) (t : string) : string :=
  String (digit (n / 10 mod 10)) (String (digit (n mod 10)) t).
Definition pad4 (n : Z) (t : string) : string := pad2 (n / 100) (pad2 (n mod 100) t).

Definition frac_digits (n : Z) : list Z :=
  map (λ k, n / 10 ^ k mod 10) [8; 7; 6; 5; 4; 3; 2; 1; 0].
Fixpoint trim_zeros (l : list Z) : list Z :=
  match l with
  | [] => []
  | d :: l' => match trim_zeros l' with
               | [] => if d =? 0 then [] else [d]
               | t => d :: t
               end
  end.
Definition frac_text (n : Z) (t : string) : string :=
  match trim_zeros (frac_digits n) with
  | [] => t
  | l => String "." (foldr (λ d acc, String (digit d) acc) t l)
  end.

Definition zone_text (o : Z) : string :=
  if o =? 0 then "Z"
  else String (if o <? 0 then "-" else "+")
         (pad2 (Z.abs o / 60) (String ":" (pad2 (Z.abs o mod 60) ""))).

Definition Year (t : Time) : Z :=
  (civil_of_days ((ns t + off t * 60000000000) / 86400000000000)).1.1.

(** [Time.MarshalJSON]'s text, without the quotes: RFC 3339 with the fraction's
    trailing zeros removed; an error for a year or an offset it cannot write. *)
Definition format_time (t : Time) : option string :=
  let local := ns t + off t * 60000000000 in
  let day := local / 86400000000000 in
  let r := local mod 86400000000000 in
  let '(y, m, d) := civil_of_days day in
  let secs := r / 1000000000 in
  if (0 <=? y) && (y <=? 9999) && (Z.abs (off t) <? 1440) then
    Some (pad4 y (String "-" (pad2 m (String "-" (pad2 d (String "T"
      (pad2 (secs / 3600) (String ":" (pad2 (secs / 60 mod 60) (String ":" (pad2 (secs mod 60)
        (frac_text (r mod 1000000000) (zone_text (off t))))))))))))))
  else None.

(** Parsing, in the style of the strict RFC 3339 parser. *)
Definition digit_val (c : ascii) : option Z :=
  if is_digit c then Some (Z.of_N (byte_val c) - 48) else None.

Definition read2 (s : string) : option (Z * string) :=
  match s with
  | String a (String b r) =>
      match digit_val a, digit_val b with
      | Some x, Some y => Some (x * 10 + y, r)
      | _, _ => None
      end
  | _ => None
  end.
Definition read4 (s : string) : option (Z * string) :=
  match read2 s with
  | Some (a, r) => match read2 r with Some (b, r') => Some (a * 100 + b, r') | None => None end
  | None => None
  end.
Definition read_char (c : ascii) (s : string) : option string :=
  match s with String b r => if Ascii.eqb b c then Some r else None | "" => None end.
Definition bounded (lo hi : Z) (o : option (Z * string)) : option (Z * string) :=
  match o with
  | Some (v, r) => if (lo <=? v) && (v <=? hi) then Some (v, r) else None
  | None => None
  end.

Fixpoint read_digits (s : string) : list Z * string :=
  match s with
  | String c r =>
      match digit_val c with
      | Some d => let '(l, r') := read_digits r in (d :: l, r')
      | None => ([], s)
      end
  | "" => ([], "")
  end.
Definition frac_value (l : list Z) : Z :=
  foldl (λ acc d, acc * 10 + d) 0 (take 9 (l ++ replicate 9 0)).
Definition read_frac (s : string) : option (Z * string) :=
  match s with
  | String "." r =>
      match read_digits r with
      | ([], _) => None
      | (l, r') => Some (frac_value l, r')
      end
  | _ => Some (0, s)
  end.
Definition read_zone (s : string) : option Z :=
  match s with
  | String "Z" "" => Some 0
  | String c r =>
      if Ascii.eqb c "+" || Ascii.eqb c "-" then
        match bounded 0 23 (read2 r) with
        | Some (h, r1) =>
            match read_char ":" r1 with
            | Some r2 =>
                match bounded 0 59 (read2 r2) with
                | Some (m, "") => Some (if Ascii.eqb c "-" then - (h * 60 + m) else h * 60 + m)
                | _ => None
                end
            | None => None
            end
        | None => None
        end
      else None
  | _ => None
  end.

Definition bind2 {A B} (o : option (A * string)) (f : A → string → option B) : option B :=
  match o with Some (a, r) => f a r | None => None end.
Definition bind1 {B} (o : option string) (f : string → option B) : option B :=
  match o with Some r => f r | None => None end.

Definition parse_time (s : string) : option Time :=
  bind2 (bounded 0 9999 (read4 s)) (λ y s, bind1 (read_char "-" s) (λ s,
  bind2 (bounded 1 12 (read2 s)) (λ m s, bind1 (read_char "-" s) (λ s,
  bind2 (bounded 1 (days_in m y) (read2 s)) (λ d s, bind1 (read_char "T" s) (λ s,
  bind2 (bounded 0 23 (read2 s)) (λ h s, bind1 (read_char ":" s) (λ s,
  bind2 (bounded 0 59 (read2 s)) (λ mi s, bind1 (read_char ":" s) (λ s,
  bind2 (bounded 0 59 (read2 s)) (λ se s,
  bind2 (read_frac s) (λ f s,
  match read_zone s with
  | Some o =>
      Some {| ns := (days_of_civil y m d * 86400 + h * 3600 + mi * 60 + se) * 1000000000 + f
                    - o * 60000000000;
              off := o |}
  | None => None
  end)))))))))))).

(** ** Round trip *)

(** The year of the era comes from a monotone function of the day, so the days
    of the era need checking only at the ends of its 400 years; month and day
    depend only on the day of the year. *)
Definition era_year_num (doe : Z) : Z := doe - doe / 1460 + doe / 36524 - doe / 146096.
Definition year_start (y : Z) : Z := 365 * y + y / 4 - y / 100.
Definition year_length (y : Z) : Z := if leap (y + 1) then 366 else 365.

Definition year_ok (y : Z) : bool :=
  (era_year_num (year_start y) / 365 =? y)
  && (era_year_num (year_start y + year_length y - 1) / 365 =? y)
  && ((y =? 399) || (year_start (y + 1) =? year_start y + year_length y)).
Definition doy_ok (doy : Z) : bool :=
  let mp := (5 * doy + 2) / 153 in
  let m := if mp <? 10 then mp + 3 else mp - 9 in
  let d := doy - (153 * mp + 2) / 5 + 1 in
  (1 <=? m) && (m <=? 12) && (1 <=? d)
  && (if m =? 2 then d <=? (if doy =? 365 then 29 else 28) else d <=? days_in m 1)
  && ((if 2 <? m then m - 3 else m + 9) =? mp).

Fixpoint all_from (p : Z → bool) (n : nat) (z : Z) : bool :=
  match n with
  | O => true
  | S n' => p z && all_from p n' (z + 1)
  end.

Lemma all_from_spec p n z x : all_from p n z = true → z <= x < z + Z.of_nat n → p x = true.
Proof.
  revert z. induction n as [|n IH]; intros z H Hx; [lia|].
  cbn in H. apply andb_prop in H as [H1 H2].
  destruct (decide (x = z)) as [->|Hne]; [done|]. apply (IH (z + 1)); [done|lia].
Qed.

Lemma year_ok_all y : 0 <= y < 400 → year_ok y = true.
Proof. apply (all_from_spec year_ok 400 0). vm_compute. reflexivity. Qed.

Lemma doy_ok_all doy : 0 <= doy < 366 → doy_ok doy = true.
Proof. apply (all_from_spec doy_ok 366 0). vm_compute. reflexivity. Qed.

Lemma era_year_num_step a : 0 <= a < 146096 → era_year_num a <= era_year_num (a + 1).
Proof. intros H. unfold era_year_num. Z.to_euclidean_division_equations. lia. Qed.

Lemma era_year_num_mono a b : 0 <= a <= b → b <= 146096 → era_year_num a <= era_year_num b.
Proof.
  intros Ha Hb. assert (∃ n : nat, b = a + Z.of_nat n) as [n ->] by (exists (Z.to_nat (b - a)); lia).
  induction n as [|n IH]; [replace (a + Z.of_nat 0) with a by lia; lia|].
  etrans; [apply IH; lia|idtac].
  replace (a + Z.of_nat (S n)) with (a + Z.of_nat n + 1) by lia.
  apply era_year_num_step. lia.
Qed.

(** A day of the era lies in the year [civil_of_doe] gives it. *)
Lemma era_year_bounds doe :
  0 <= doe < 146097 →
  let y := era_year_num doe / 365 in
  0 <= y < 400 ∧ year_start y <= doe < year_start y + year_length y.
Proof.
  intros Hd y.
  assert (H0 : 0 <= y < 400).
  { pose proof (era_year_num_mono 0 doe ltac:(lia) ltac:(lia)) as H1.
    pose proof (era_year_num_mono doe 146096 ltac:(lia) ltac:(lia)) as H2.
    change (era_year_num 0) with 0 in H1. change (era_year_num 146096) with 145999 in H2.
    unfold y. split; [apply Z.div_pos; lia|apply Z.div_lt_upper_bound; lia]. }
  assert (Hok : ∀ k, 0 <= k < 400 → era_year_num (year_start k) / 365 = k ∧
    era_year_num (year_start k + year_length k - 1) / 365 = k ∧
    (k = 399 ∨ year_start (k + 1) = year_start k + year_length k)).
  { intros k Hk. pose proof (year_ok_all k Hk) as H. unfold year_ok in H.
    apply andb_prop in H as [H H3]. apply andb_prop in H as [H1 H2].
    rewrite orb_true_iff, !Z.eqb_eq in *. done. }
  assert (Hlen : ∀ k, 365 <= year_length k <= 366) by (intros; unfold year_length; case_goal; lia).
  assert (Hpos : ∀ k, 0 <= k → 0 <= year_start k).
  { intros k Hk. unfold year_start. Z.to_euclidean_division_equations. lia. }
  split; [done|]. split.
  - destruct (Z.lt_ge_cases doe (year_start y)) as [Hlt|]; [exfalso|done].
    destruct (decide (y = 0)) as [Hy0|Hy0]; [rewrite Hy0 in Hlt; change (year_start 0) with 0 in Hlt; lia|].
    destruct (Hok (y - 1) ltac:(lia)) as (_ & H2 & [H3|H3]); [lia|].
    replace (y - 1 + 1) with y in H3 by lia. rewrite <- H3 in H2.
    pose proof (era_year_num_mono doe (year_start y - 1)) as Hm.
    assert (year_start y - 1 <= 146096).
    { unfold year_start. Z.to_euclidean_division_equations. lia. }
    specialize (Hm ltac:(lia) ltac:(lia)).
    apply (Z.div_le_mono _ _ 365) in Hm; [|lia]. unfold y in H2. unfold y in *. lia.
  - destruct (Z.lt_ge_cases doe (year_start y + year_length y)) as [|Hge]; [done|exfalso].
    destruct (Hok y H0) as (_ & _ & [H3|H3]).
    + assert (year_start 399 + year_length 399 = 146097) by reflexivity. rewrite H3 in Hge. lia.
    + rewrite <- H3 in Hge. destruct (decide (y = 399)) as [H399|H399].
      { rewrite H399 in Hge. change (year_start (399 + 1)) with 146096 in Hge.
        rewrite H399 in H3. vm_compute in H3. done. }
      destruct (Hok (y + 1) ltac:(lia)) as (H1 & _).
      pose proof (era_year_num_mono (year_start (y + 1)) doe) as Hm.
      pose proof (Hpos (y + 1) ltac:(lia)). specialize (Hm ltac:(lia) ltac:(lia)).
      apply (Z.div_le_mono _ _ 365) in Hm; [|lia]. rewrite H1 in Hm. unfold y in Hm. lia.
Qed.

Lemma civil_of_doe_spec doe yoe m d :
  0 <= doe < 146097 → civil_of_doe doe = (yoe, m, d) →
  0 <= yoe < 400 ∧ 1 <= m <= 12 ∧ 1 <= d <= days_in m (yoe + (if m <=? 2 then 1 else 0))
  ∧ doe_of_civil yoe m d = doe.
Proof.
  intros Hd. unfold civil_of_doe. fold (era_year_num doe).
  destruct (era_year_bounds doe Hd) as (Hy & Hb). set (y := era_year_num doe / 365) in *.
  replace (365 * y + y / 4 - y / 100) with (year_start y) by done.
  set (doy := doe - year_start y). intros [= <- Hm Hdd].
  assert (Hlen : year_length y = 366 ∧ leap (y + 1) = true ∨ year_length y = 365).
  { unfold year_length. destruct (leap (y + 1)); auto. }
  pose proof (doy_ok_all doy ltac:(unfold doy; lia)) as Hok. unfold doy_ok in Hok.
  rewrite Hm, Hdd in Hok.
  apply andb_prop in Hok as [Hok H5]. apply andb_prop in Hok as [Hok H4].
  apply andb_prop in Hok as [Hok H3]. apply andb_prop in Hok as [H1 H2].
  apply Z.leb_le in H1, H2, H3. apply Z.eqb_eq in H5.
  split; [done|]. split; [done|]. split.
  - split; [done|]. unfold days_in in *. destruct (Z.eqb_spec m 2) as [->|Hm2].
    + change (2 <=? 2) with true. cbv iota.
      destruct (Z.eqb_spec doy 365); apply Z.leb_le in H4; [|case_goal; lia].
      destruct Hlen as [[_ ->]|]; [lia|]. unfold doy in *. lia.
    + by apply Z.leb_le in H4.
  - unfold doe_of_civil. rewrite H5. unfold doy, year_start in *. lia.
Qed.

Lemma leap_era y k : leap (y + 400 * k) = leap y.
Proof.
  unfold leap. replace (y + 400 * k) with (y + (100 * k) * 4) at 1 by lia.
  rewrite Z_mod_plus_full. replace (y + 400 * k) with (y + (4 * k) * 100) at 1 by lia.
  rewrite Z_mod_plus_full. replace (y + 400 * k) with (y + k * 400) by lia.
  by rewrite Z_mod_plus_full.
Qed.

Lemma days_in_era m y k : days_in m (y + 400 * k) = days_in m y.
Proof. unfold days_in. by rewrite leap_era. Qed.

Lemma civil_of_days_spec day y m d :
  civil_of_days day = (y, m, d) →
  days_of_civil y m d = day ∧ 1 <= m <= 12 ∧ 1 <= d <= days_in m y.
Proof.
  unfold civil_of_days, days_of_civil. set (z := day + 306).
  pose proof (Z.mod_pos_bound z 146097 ltac:(lia)) as Hb.
  destruct (civil_of_doe (z mod 146097)) as [[yoe m'] d'] eqn:E. intros H. simplify_eq.
  destruct (civil_of_doe_spec _ _ _ _ Hb E) as (Hyoe & Hm & Hd & Hdoe).
  set (b := if m <=? 2 then 1 else 0) in *.
  replace (yoe + 400 * (z / 146097) + b - b) with (yoe + (z / 146097) * 400) by lia.
  rewrite Z_mod_plus_full, Z.div_add, (Z.div_small yoe), (Z.mod_small yoe) by lia.
  pose proof (Z.div_mod z 146097 ltac:(lia)).
  replace (yoe + 400 * (z / 146097) + b) with (yoe + b + 400 * (z / 146097)) by lia.
  rewrite days_in_era. unfold z in *. lia.
Qed.

Lemma digit_val_digit n : 0 <= n < 10 → digit_val (digit n) = Some n.
Proof.
  intros H.
  assert (n = 0 ∨ n = 1 ∨ n = 2 ∨ n = 3 ∨ n = 4 ∨ n = 5 ∨ n = 6 ∨ n = 7 ∨ n = 8 ∨ n = 9)
    as Hn by lia.
  by repeat (destruct Hn as [->|Hn]; [reflexivity|]); subst.
Qed.

Lemma read2_pad2 n t : 0 <= n < 100 → read2 (pad2 n t) = Some (n, t).
Proof.
  intros H. unfold read2, pad2.
  pose proof (Z.mod_pos_bound (n / 10) 10 ltac:(lia)).
  pose proof (Z.mod_pos_bound n 10 ltac:(lia)).
  rewrite !digit_val_digit by done. do 2 f_equal.
  rewrite (Z.mod_small (n / 10)) by (split; [apply Z.div_pos; lia|apply Z.div_lt_upper_bound; lia]).
  pose proof (Z.div_mod n 10 ltac:(lia)). lia.
Qed.

Lemma read4_pad4 n t : 0 <= n < 10000 → read4 (pad4 n t) = Some (n, t).
Proof.
  intros H. unfold read4, pad4.
  pose proof (Z.mod_pos_bound n 100 ltac:(lia)).
  rewrite read2_pad2
    by (split; [apply Z.div_pos; lia|apply Z.div_lt_upper_bound; lia]).
  rewrite read2_pad2 by done. do 2 f_equal. pose proof (Z.div_mod n 100 ltac:(lia)). lia.
Qed.

Lemma bounded_ok lo hi v r : lo <= v <= hi → bounded lo hi (Some (v, r)) = Some (v, r).
Proof.
  intros H. unfold bounded.
  by rewrite (proj2 (Z.leb_le lo v)), (proj2 (Z.leb_le v hi)) by lia.
Qed.

Lemma trim_zeros_pad l : ∃ k, l = trim_zeros l ++ replicate k 0.
Proof.
  induction l as [|d l [k IH]]; [by exists 0%nat|]. cbn.
  destruct (trim_zeros l) as [|e t] eqn:E.
  - destruct (Z.eqb_spec d 0) as [->|].
    + exists (S k). cbn. by rewrite IH at 1.
    + exists k. cbn. by rewrite IH at 1.
  - exists k. cbn. by rewrite IH at 1.
Qed.

Lemma frac_value_trim l :
  length l = 9%nat → frac_value (trim_zeros l) = foldl (λ acc d, acc * 10 + d) 0 l.
Proof.
  intros Hl. destruct (trim_zeros_pad l) as [k Hk]. unfold frac_value. f_equal.
  rewrite Hk at 2. rewrite Hk, length_app, length_replicate in Hl.
  replace 9%nat with (k + (9 - k))%nat at 2 by lia.
  rewrite replicate_add, app_assoc, take_app_le.
  - by rewrite take_ge by (rewrite length_app, length_replicate; lia).
  - rewrite length_app, length_replicate. lia.
Qed.

Lemma frac_digits_value n :
  0 <= n < 1000000000 → foldl (λ acc d, acc * 10 + d) 0 (frac_digits n) = n.
Proof.
  intros H. cbn.
  pose proof (Z.div_mod n 10 ltac:(lia)).
  assert (Hs : ∀ a b, 0 < a → 0 < b → n / a / b = n / (a * b)).
  { intros a b Ha Hb. by rewrite Z.div_div by lia. }
  pose proof (Z.div_mod (n / 10) 10 ltac:(lia)). rewrite Hs in * by lia.
  pose proof (Z.div_mod (n / 100) 10 ltac:(lia)). rewrite Hs in * by lia.
  pose proof (Z.div_mod (n / 1000) 10 ltac:(lia)). rewrite Hs in * by lia.
  pose proof (Z.div_mod (n / 10000) 10 ltac:(lia)). rewrite Hs in * by lia.
  pose proof (Z.div_mod (n / 100000) 10 ltac:(lia)). rewrite Hs in * by lia.
  pose proof (Z.div_mod (n / 1000000) 10 ltac:(lia)). rewrite Hs in * by lia.
  pose proof (Z.div_mod (n / 10000000) 10 ltac:(lia)). rewrite Hs in * by lia.
  assert (n / 100000000 mod 10 = n / 100000000).
  { apply Z.mod_small. split; [apply Z.div_pos; lia|apply Z.div_lt_upper_bound; lia]. }
  change (10 ^ 0) with 1. rewrite Z.div_1_r.
  change (10 ^ 1) with 10. change (10 ^ 2) with 100. change (10 ^ 3) with 1000.
  change (10 ^ 4) with 10000. change (10 ^ 5) with 100000. change (10 ^ 6) with 1000000.
  change (10 ^ 7) with 10000000. change (10 ^ 8) with 100000000.
  change (10 * 10) with 100 in *. change (100 * 10) with 1000 in *.
  change (1000 * 10) with 10000 in *. change (10000 * 10) with 100000 in *.
  change (100000 * 10) with 1000000 in *. change (1000000 * 10) with 10000000 in *.
  change (10000000 * 10) with 100000000 in *. lia.
Qed.

Lemma trim_zeros_digits l : Forall (λ d, 0 <= d < 10) l → Forall (λ d, 0 <= d < 10) (trim_zeros l).
Proof.
  intros H. destruct (trim_zeros_pad l) as [k Hk]. rewrite Hk in H.
  by apply Forall_app in H as [H _].
Qed.

Lemma frac_digits_bound n : Forall (λ d, 0 <= d < 10) (frac_digits n).
Proof.
  apply Forall_forall. intros d (k & <- & _)%List.in_map_iff. apply Z.mod_pos_bound. lia.
Qed.

Lemma read_digits_text l t :
  Forall (λ d, 0 <= d < 10) l →
  match t with String c _ => digit_val c = None | "" => True end →
  read_digits (foldr (λ d acc, String (digit d) acc) t l) = (l, t).
Proof.
  intros Hl Ht. induction Hl as [|d l Hd Hl IH]; cbn [foldr read_digits].
  - destruct t as [|c t]; [done|]. cbn [read_digits]. by rewrite Ht.
  - by rewrite digit_val_digit, IH.
Qed.

Lemma zone_text_head o : ∃ c t, zone_text o = String c t ∧ digit_val c = None ∧ c ≠ "."%char.
Proof.
  unfold zone_text. destruct (o =? 0); [by eexists _, _|].
  destruct (o <? 0); by eexists _, _.
Qed.

Lemma read_frac_text n o :
  0 <= n < 1000000000 → read_frac (frac_text n (zone_text o)) = Some (n, zone_text o).
Proof.
  intros Hn. pose proof (frac_value_trim (frac_digits n) eq_refl) as Hv.
  rewrite frac_digits_value in Hv by done.
  pose proof (trim_zeros_digits _ (frac_digits_bound n)) as Hd.
  destruct (zone_text_head o) as (c & t & Hz & Hc & Hdot).
  unfold frac_text. destruct (trim_zeros (frac_digits n)) as [|d l] eqn:E.
  - change (frac_value []) with 0 in Hv. subst n. rewrite Hz.
    destruct c as [[] [] [] [] [] [] [] []]; (done || (exfalso; by apply Hdot)).
  - cbn [read_frac]. rewrite read_digits_text; [by rewrite Hv|done|by rewrite Hz].
Qed.

Lemma read_zone_text o : Z.abs o < 1440 → read_zone (zone_text o) = Some o.
Proof.
  intros Ho. unfold zone_text. destruct (Z.eqb_spec o 0) as [->|Hne]; [done|].
  assert (H1 : 0 <= Z.abs o / 60 < 24).
  { split; [apply Z.div_pos; lia|apply Z.div_lt_upper_bound; lia]. }
  pose proof (Z.mod_pos_bound (Z.abs o) 60 ltac:(lia)) as H2.
  pose proof (Z.div_mod (Z.abs o) 60 ltac:(lia)) as H3.
  assert (Hr : ∀ c, c = "-"%char ∨ c = "+"%char →
    read_zone (String c (pad2 (Z.abs o / 60) (String ":" (pad2 (Z.abs o mod 60) ""))))
    = Some (if Ascii.eqb c "-" then - Z.abs o else Z.abs o)).
  { intros c Hc. unfold read_zone.
    assert (∀ r : option Z, match String c (pad2 (Z.abs o / 60) (String ":" (pad2 (Z.abs o mod 60) ""))) with
      String "Z" "" => Some 0 | _ => r end = r) as Hz by (by intros; destruct Hc as [-> | ->]).
    replace (Ascii.eqb c "+" || Ascii.eqb c "-") with true by (by destruct Hc as [-> | ->]).
    rewrite read2_pad2, bounded_ok by lia. cbn [read_char].
    change (Ascii.eqb ":" ":") with true. cbv iota.
    rewrite read2_pad2, bounded_ok by lia.
    destruct Hc as [-> | ->]; cbv iota; cbn; f_equal; lia. }
  destruct (Z.ltb_spec o 0); rewrite Hr by auto; cbn; f_equal; lia.
Qed.

Theorem parse_format_time t s : format_time t = Some s → parse_time s = Some t.
Proof.
  unfold format_time. set (local := ns t + off t * 60000000000).
  set (r := local mod 86400000000000).
  pose proof (Z.mod_pos_bound local 86400000000000 ltac:(lia)) as Hr. fold r in Hr.
  pose proof (Z.div_mod local 86400000000000 ltac:(lia)) as Hl. fold r in Hl.
  destruct (civil_of_days (local / 86400000000000)) as [[y m] d] eqn:E.
  destruct (civil_of_days_spec _ _ _ _ E) as (Hdays & Hm & Hd).
  assert (Hd31 : days_in m y <= 31).
  { unfold days_in. repeat case_goal; lia. }
  destruct ((0 <=? y) && (y <=? 9999) && (Z.abs (off t) <? 1440)) eqn:Hb; [|done].
  apply andb_prop in Hb as [Hb Ho]. apply andb_prop in Hb as [Hy1 Hy2].
  apply Z.leb_le in Hy1, Hy2. apply Z.ltb_lt in Ho. intros [= <-].
  set (secs := r / 1000000000).
  assert (0 <= secs < 86400) as Hs.
  { unfold secs. split; [apply Z.div_pos; lia|apply Z.div_lt_upper_bound; lia]. }
  assert (0 <= secs / 3600 < 24) as Hh.
  { split; [apply Z.div_pos; lia|apply Z.div_lt_upper_bound; lia]. }
  pose proof (Z.mod_pos_bound (secs / 60) 60 ltac:(lia)) as Hmi.
  pose proof (Z.mod_pos_bound secs 60 ltac:(lia)) as Hse.
  pose proof (Z.mod_pos_bound r 1000000000 ltac:(lia)) as Hf.
  unfold parse_time.
  repeat (first [rewrite read4_pad4 by lia | rewrite read2_pad2 by lia]; rewrite bounded_ok by lia;
    cbn [bind2 bind1 read_char]; rewrite ?Ascii.eqb_refl; cbv iota beta; cbn [bind2 bind1]).
  rewrite read_frac_text by lia. cbn [bind2]. rewrite read_zone_text by lia.
  rewrite Hdays. destruct t as [n o]. cbn [ns off] in *. do 2 f_equal.
  pose proof (Z.div_mod secs 60 ltac:(lia)).
  pose proof (Z.div_mod (secs / 60) 60 ltac:(lia)) as H60. rewrite Z.div_div in H60 by lia.
  change (60 * 60) with 3600 in H60.
  pose proof (Z.div_mod r 1000000000 ltac:(lia)). unfold local, secs in *. lia.
Qed.

(** The text of a time is ASCII. *)
Lemma digit_ascii n : 0 <= n < 10 → (byte_val (digit n) < 128)%N.
Proof.
  intros H. unfold digit, byte_val, chr. rewrite N_ascii_embedding; lia.
Qed.

Lemma pad2_ascii n t : ascii_only t → ascii_only (pad2 n t).
Proof.
  intros Ht. unfold ascii_only, pad2. cbn.
  repeat constructor; [apply digit_ascii, Z.mod_pos_bound; lia..|done].
Qed.

Lemma format_time_ascii t s : format_time t = Some s → ascii_only s.
Proof.
  assert (Hc : ∀ c u, (byte_val c < 128)%N → ascii_only u → ascii_only (String c u))
    by (intros c u Hc Hu; by constructor).
  assert (Hz : ascii_only (zone_text (off t))).
  { unfold zone_text. case_match; [by repeat constructor|].
    apply Hc; [by case_match|]. apply pad2_ascii, Hc; [done|]. apply pad2_ascii. constructor. }
  assert (Hf : ∀ n, ascii_only (frac_text n (zone_text (off t)))).
  { intros n. unfold frac_text. pose proof (trim_zeros_digits _ (frac_digits_bound n)) as Hd.
    destruct (trim_zeros (frac_digits n)) as [|d l] eqn:E; [done|]. apply Hc; [done|].
    clear E. induction Hd as [|x l' Hx Hl IH]; [done|]. cbn. apply Hc; [by apply digit_ascii|done]. }
  unfold format_time. destruct (civil_of_days _) as [[y m] d]. case_match; [|done].
  intros [= <-]. unfold pad4.
  repeat first [apply pad2_ascii | apply Hc; [done|]]. apply Hf.
Qed.

(** [time.Time.Unix]: seconds since 1970, of a clock that counts from year 1. *)
Definition Unix (t : Time) : Z := int64 (ns t / 1000000000 - 62135596800)%Z.
