(* ===== verification/GoWeb.v ===== *)
(** * More of the Go standard library, for the administration UI

    [strings.Split] and [strings.Contains], [strconv.ParseInt], [crypto/hmac]
    with SHA-256, sorting by text keys, counting maps, [http.StatusText] and
    the tests on cookie names and white space. *)

From Stdlib Require Import Ascii DecimalString.
From stdpp Require Import sorting.
From S2P Require Import Prelude GoStd Json GoTime.

(** [strings.Split] by one byte. *)
Fixpoint Split (sep : ascii) (s : string) : list string :=
  match s with
  | EmptyString => [""]
  | String c s' =>
      if Ascii.eqb c sep then "" :: Split sep s'
      else match Split sep s' with
           | piece :: l => String c piece :: l
           | [] => []
           end
  end.

(** [strings.Contains]. *)
Fixpoint Contains (s substr : string) : bool :=
  HasPrefix s substr ||
  match s with String _ s' => Contains s' substr | EmptyString => false end.

(** [strconv.ParseInt(s, 10, 64)]. *)
Definition parse_digits (s : string) : option Z :=
  (λ u, Z.of_N (N.of_uint u)) <$> NilZero.uint_of_string s.
Definition ParseInt (s : string) : option Z :=
  (match s with
   | String "-" s' => n ← parse_digits s'; if n <=? two63 then Some (- n) else None
   | String "+" s' => n ← parse_digits s'; if n <? two63 then Some n else None
   | _ => n ← parse_digits s; if n <? two63 then Some n else None
   end)%Z.

(** [hmac.New(sha256.New, key)] and the sum of what was written. *)
Definition hmac_key (key : list N) : list N :=
  let k := if (64 <? length key)%nat then Sha256.sum key else key in
  k ++ replicate (64 - length k) 0%N.
Definition xor_pad (byte : N) (key : list N) : list N := N.lxor byte <$> key.
Definition hmac_sha256 (key message : list N) : list N :=
  let k := hmac_key key in
  Sha256.sum (xor_pad 92 k ++ Sha256.sum (xor_pad 54 k ++ message)).

Definition bytes_N (s : string) : list N := map byte_val (bytes_of s).

Example hmac_quick : EncodeToString (hmac_sha256 (bytes_N "key")
    (bytes_N "The quick brown fox jumps over the lazy dog")) =
  "f7bc83f430538424b13298e6aa6fb143ef4d59a14946175997479dbc2d1a3cd8".
Proof. vm_compute. reflexivity. Qed.
Example ParseInt_sample : map ParseInt ["12"; "-7"; ""; "1_0"; "9223372036854775808"; "+3"] =
  [Some 12; Some (-7); None; None; None; Some 3]%Z.
Proof. reflexivity. Qed.
Example Split_sample : Split "." "a..b" = ["a"; ""; "b"].
Proof. reflexivity. Qed.

(** [time.Unix(seconds, 0)]: the sum with the seconds from year 1 to 1970 wraps. *)
Definition time_Unix (seconds : Z) : Time :=
  {| ns := int64 (seconds + 62135596800) * 1000000000; off := 0 |}.

(** [strings.IndexFunc(s, unicode.IsSpace) >= 0]. *)
Fixpoint has_space (s : string) : bool :=
  existsb (λ p, HasPrefix s p) unicode_spaces ||
  match s with String _ s' => has_space s' | EmptyString => false end.

(** The names [http.Cookie.Valid] accepts: tokens of RFC 7230. *)
Definition token_char (c : ascii) : bool :=
  let n := byte_val c in
  (((48 <=? n) && (n <=? 57)) || ((65 <=? n) && (n <=? 90)) || ((97 <=? n) && (n <=? 122)))%N ||
  bool_decide (c ∈ bytes_of "!#$%&'*+-.^_`|~").
Definition cookie_name_ok (name : string) : bool :=
  negb (bool_decide (name = "")) && forallb token_char (bytes_of name).

(** ** Sorting by text keys

    [slices.SortFunc] with [cmp.Or(strings.Compare(...), ...)]: lists of keys
    are compared from the left.  Values with the same keys keep their order. *)
Fixpoint keys_le (l l' : list string) : bool :=
  match l, l' with
  | x :: l, y :: l' => if decide (x = y) then keys_le l l' else bool_decide (String.le x y)
  | _, _ => true
  end.
Definition by_keys {A} (keys : A → list string) (a b : A) : Prop :=
  keys_le (keys a) (keys b) = true.
#[export] Instance by_keys_dec {A} (keys : A → list string) (a b : A) : Decision (by_keys keys a b).
Proof. unfold by_keys. apply _. Defined.
Definition sort_by {A} (keys : A → list string) (l : list A) : list A := merge_sort (by_keys keys) l.

(** [counts[key]++] for every key. *)
Definition count_keys (keys : list string) : gmap string nat :=
  foldl (λ counts key, <[key := S (default 0%nat (counts !! key))]> counts) ∅ keys.

(** Names by id; a later entry replaces an earlier one. *)
Definition names_by {A} (id name : A → string) (l : list A) : gmap string string :=
  foldl (λ names x, <[id x := name x]> names) ∅ l.

(** [http.StatusText]. *)
Definition StatusText (code : Z) : string :=
  match code with
  | 100 => "Continue" | 101 => "Switching Protocols" | 102 => "Processing" | 103 => "Early Hints"
  | 200 => "OK" | 201 => "Created" | 202 => "Accepted" | 203 => "Non-Authoritative Information"
  | 204 => "No Content" | 205 => "Reset Content" | 206 => "Partial Content" | 207 => "Multi-Status"
  | 208 => "Already Reported" | 226 => "IM Used"
  | 300 => "Multiple Choices" | 301 => "Moved Permanently" | 302 => "Found" | 303 => "See Other"
  | 304 => "Not Modified" | 305 => "Use Proxy" | 307 => "Temporary Redirect"
  | 308 => "Permanent Redirect"
  | 400 => "Bad Request" | 401 => "Unauthorized" | 402 => "Payment Required" | 403 => "Forbidden"
  | 404 => "Not Found" | 405 => "Method Not Allowed" | 406 => "Not Acceptable"
  | 407 => "Proxy Authentication Required" | 408 => "Request Timeout" | 409 => "Conflict"
  | 410 => "Gone" | 411 => "Length Required" | 412 => "Precondition Failed"
  | 413 => "Request Entity Too Large" | 414 => "Request URI Too Long"
  | 415 => "Unsupported Media Type" | 416 => "Requested Range Not Satisfiable"
  | 417 => "Expectation Failed" | 418 => "I'm a teapot" | 421 => "Misdirected Request"
  | 422 => "Unprocessable Entity" | 423 => "Locked" | 424 => "Failed Dependency"
  | 425 => "Too Early" | 426 => "Upgrade Required" | 428 => "Precondition Required"
  | 429 => "Too Many Requests" | 431 => "Request Header Fields Too Large"
  | 451 => "Unavailable For Legal Reasons"
  | 500 => "Internal Server Error" | 501 => "Not Implemented" | 502 => "Bad Gateway"
  | 503 => "Service Unavailable" | 504 => "Gateway Timeout" | 505 => "HTTP Version Not Supported"
  | 506 => "Variant Also Negotiates" | 507 => "Insufficient Storage" | 508 => "Loop Detected"
  | 510 => "Not Extended" | 511 => "Network Authentication Required"
  | _ => ""
  end%Z.
