(* ===== verification/Errors.v ===== *)
(** * Go errors

    The sentinel and structured errors of the program and the wrapping done
    by [fmt.Errorf]: an error keeps its format string and its arguments, and
    [errors.Is] / [errors.As] look through the [%w] arguments. *)

From S2P Require Import Prelude.

(** [state.ErrConflict], and [ErrNotFound], [ErrConflict] of
    [controlplane/repository.go], [ErrUnauthorized], [ErrForbidden],
    [ErrUnavailable] of [controlplane/service.go]. *)
Inductive sentinel : Type :=
| StateConflict | NotFound | Conflict | Unauthorized | Forbidden | Unavailable.

#[export] Instance sentinel_eq_dec : EqDecision sentinel.
Proof. solve_decision. Defined.

#[warnings="-register-all"]
Inductive error : Type :=
| Sentinel (s : sentinel)
| NewError (message : string)
| Errorf (format : string) (args : list farg)
(* controlplane.ValidationError *)
| ValidationError (Field : string) (Message : string) (args : list farg)
(* daprhttp.HTTPError *)
| HTTPError (StatusCode : Z) (Body : string)
(* openai.TranslationError and the equivalents of the other protocols *)
| TranslationError (Param Code Format : string) (args : list farg)
(* an argument of a format: a string, an integer, or an error, wrapped with %w or not *)
with farg : Type :=
| AStr (s : string)
| AInt (z : Z)
| AWrap (e : error)
| AErr (e : error).

Definition ErrStateConflict : error := Sentinel StateConflict.
Definition ErrNotFound : error := Sentinel NotFound.
Definition ErrConflict : error := Sentinel Conflict.
Definition ErrUnauthorized : error := Sentinel Unauthorized.
Definition ErrForbidden : error := Sentinel Forbidden.
Definition ErrUnavailable : error := Sentinel Unavailable.

Definition wrapped (args : list farg) : list error :=
  omap (λ a, match a with AWrap e => Some e | _ => None end) args.

(** [errors.As]: the first error of the chain the probe accepts, depth first. *)
Fixpoint errors_As {B} (probe : error → option B) (e : error) : option B :=
  match probe e with
  | Some b => Some b
  | None =>
      match e with
      | Errorf _ args =>
          (fix go (l : list farg) : option B :=
             match l with
             | [] => None
             | AWrap e' :: l' =>
                 match errors_As probe e' with Some b => Some b | None => go l' end
             | _ :: l' => go l'
             end) args
      | _ => None
      end
  end.

Definition is_sentinel (s : sentinel) (e : error) : option unit :=
  match e with Sentinel s' => if decide (s' = s) then Some tt else None | _ => None end.

(** [errors.Is(err, sentinel)]. *)
Definition errors_Is (e : error) (s : sentinel) : bool :=
  if errors_As (is_sentinel s) e is Some _ then true else false.

Definition as_validation (e : error) : option (string * string * list farg) :=
  match e with ValidationError f m a => Some (f, m, a) | _ => None end.
Definition as_http (e : error) : option Z :=
  match e with HTTPError c _ => Some c | _ => None end.
Definition as_translation (e : error) : option (string * string * string * list farg) :=
  match e with TranslationError p c f a => Some (p, c, f, a) | _ => None end.

(** [fmt.Errorf("%w: text", sentinel)]. *)
Definition wrap (s : sentinel) (text : string) : error :=
  Errorf ("%w: " +:+ text) [AWrap (Sentinel s)].

Lemma errors_Is_sentinel s s' : errors_Is (Sentinel s) s' = bool_decide (s = s').
Proof. unfold errors_Is. cbn. by case_decide; [rewrite bool_decide_eq_true_2|rewrite bool_decide_eq_false_2]. Qed.

Lemma errors_Is_wrap s text s' : errors_Is (wrap s text) s' = bool_decide (s = s').
Proof. unfold errors_Is, wrap. cbn. by case_decide; [rewrite bool_decide_eq_true_2|rewrite bool_decide_eq_false_2]. Qed.

#[export] Hint Rewrite errors_Is_sentinel errors_Is_wrap : gwai_rw.
