(* ===== verification/GoFmt.v ===== *)
(** * Error texts ([fmt])

    The text of an error: the verbs [%s], [%q], [%d], [%v] and [%w] of
    [fmt.Sprintf] as the program uses them, and [Error()] of its error types.
    [%q] leaves every rune from U+0080 on as it is. *)

From Stdlib Require Import Ascii.
From S2P Require Import Prelude GoStd Json Errors.

(** [strconv.FormatInt(n, 10)]. *)
Definition FormatInt (n : Z) : string :=
  (if n <? 0 then "-" +:+ FormatUint (- n) else FormatUint n)%Z.

(** [strconv.Quote]. *)
Definition quoted_ascii (c : ascii) : string :=
  match byte_val c with
  | 34 => esc dquote | 92 => esc backslash
  | 7 => esc "a" | 8 => esc "b" | 12 => esc "f" | 10 => esc "n" | 13 => esc "r" | 9 => esc "t"
  | 11 => esc "v"
  | n => if ((n <? 32) || (n =? 127))%N then esc "x" +:+ hex_byte n else String c ""
  end%N%char.

Fixpoint quoted_go (fuel : nat) (s : string) : string :=
  match fuel, s with
  | S fuel', String c s' =>
      if (byte_val c <? 128)%N then quoted_ascii c +:+ quoted_go fuel' s'
      else
        match rune_size s with
        | O => esc "x" +:+ hex_byte (byte_val c) +:+ quoted_go fuel' s'
        | n => str_take n s +:+ quoted_go fuel' (str_drop n s)
        end
  | _, _ => ""
  end.
(** Each round takes at least a byte, so the length is enough fuel. *)
Definition Quote (s : string) : string :=
  String dquote (quoted_go (String.length s) s +:+ String dquote "").

Definition sentinel_text (s : sentinel) : string :=
  match s with
  | StateConflict => "state concurrency conflict"
  | NotFound => "resource not found"
  | Conflict => "resource conflict"
  | Unauthorized => "authentication failed"
  | Forbidden => "access denied"
  | Unavailable => "dependent service unavailable"
  end.

(** A format with the texts of its arguments, [%q] of one being its quotation. *)
Fixpoint expand (format : string) (args : list string) : string :=
  match format with
  | String "%" (String "%" f) => String "%" (expand f args)
  | String "%" (String "q" f) =>
      match args with a :: args' => Quote a +:+ expand f args' | [] => expand f [] end
  | String "%" (String _ f) =>
      match args with a :: args' => a +:+ expand f args' | [] => expand f [] end
  | String c f => String c (expand f args)
  | EmptyString => ""
  end.

Fixpoint Error (e : error) : string :=
  let texts := fix go (l : list farg) : list string :=
    match l with
    | [] => []
    | a :: l' =>
        match a with AStr s => s | AInt z => FormatInt z | AWrap e' => Error e' | AErr e' => Error e' end
        :: go l'
    end in
  match e with
  | Sentinel s => sentinel_text s
  | NewError message => message
  | Errorf format args => expand format (texts args)
  | ValidationError field message args =>
      let text := expand message (texts args) in
      if bool_decide (field = "") then text else field +:+ ": " +:+ text
  | HTTPError code body => "Dapr returned HTTP " +:+ FormatInt code +:+ ": " +:+ body
  | TranslationError _ _ format args => expand format (texts args)
  end.

Example error_text :
  Error (Errorf "disable %q at %d%%: %w" [AStr (u8 [97; 9; 34; 195; 169; 255]%N); AInt (-3);
    AWrap (ValidationError "slug" "%q must not start with -" [AStr "-a"])]) =
  String.append ("disable " +:+ String dquote (String "a" (esc "t" +:+ esc dquote +:+
    u8 [195; 169]%N +:+ esc "x" +:+ "ff" +:+ String dquote " at -3%: slug: ")))
    (Quote "-a" +:+ " must not start with -").
Proof. reflexivity. Qed.
