(* ===== verification/Results.v ===== *)
(** * Go results of pure functions

    A function that returns [(value, error)] and has no effects gives
    [error + value]; the loops of such functions over a slice. *)

From S2P Require Import Prelude Errors.

#[export] Instance result_ret : MRet (sum error) := λ A a, inr a.
#[export] Instance result_bind : MBind (sum error) := λ A B f r,
  match r with inl e => inl e | inr a => f a end.

(** [if !c { return e }]. *)
Definition require (c : bool) (e : error) : error + unit := if c then inr tt else inl e.

(** [value, err := r; if err != nil { return f(err) }]. *)
Definition on_error {A} (f : error → error) (r : error + A) : error + A :=
  match r with inl e => inl (f e) | inr a => inr a end.

(** A decoder's answer, with the error of a failure. *)
Definition result_of {A} (o : option A) (e : error) : error + A :=
  match o with Some a => inr a | None => inl e end.

(** A slice index printed with [%d]. *)
Definition AIdx (i : nat) : farg := AInt (Z.of_nat i).

Definition is_ok {A} (r : error + A) : bool := if r is inr _ then true else false.

(** [for i, x := range l { state = f(i, x, state) }], stopped by an error. *)
Fixpoint range {A St} (f : nat → A → St → error + St) (i : nat) (l : list A) (st : St)
    : error + St :=
  match l with
  | [] => inr st
  | x :: l' => st' ← f i x st; range f (S i) l' st'
  end.

(** The loop that appends one result per element. *)
Fixpoint range_map {A B} (f : nat → A → error + B) (i : nat) (l : list A) : error + list B :=
  match l with
  | [] => inr []
  | x :: l' => y ← f i x; ys ← range_map f (S i) l'; mret (y :: ys)
  end.

Lemma bind_ok {A B} (r : error + A) (f : A → error + B) b :
  r ≫= f = inr b ↔ ∃ a, r = inr a ∧ f a = inr b.
Proof.
  destruct r as [e|a]; cbn; split; [done|by intros (a & ? & _)|by eauto|].
  by intros (a' & [= <-] & H).
Qed.

Lemma require_ok c e : require c e = inr tt ↔ c = true.
Proof. by destruct c. Qed.
Lemma require_ok_any c e u : require c e = inr u ↔ c = true.
Proof. destruct u. apply require_ok. Qed.

Lemma on_error_ok {A} f (r : error + A) a : on_error f r = inr a ↔ r = inr a.
Proof. by destruct r. Qed.

Lemma result_of_ok {A} (o : option A) e a : result_of o e = inr a ↔ o = Some a.
Proof. destruct o; cbn; split; congruence. Qed.

Lemma check_then {A} c e (r : error + A) a :
  (_ ← require c e; r) = inr a ↔ c = true ∧ r = inr a.
Proof. by destruct c; cbn; split; [|intros [_ ?]| |intros [? _]]. Qed.

Lemma range_app {A St} (f : nat → A → St → error + St) i l1 l2 st :
  range f i (l1 ++ l2) st = range f i l1 st ≫= range f (i + length l1) l2.
Proof.
  revert i st. induction l1 as [|x l1 IH]; intros i st; cbn.
  - by rewrite Nat.add_0_r.
  - destruct (f i x st) as [e|st']; cbn; [done|]. rewrite IH. by rewrite Nat.add_succ_r.
Qed.

(** A loop invariant. *)
Lemma range_ok {A St} (f : nat → A → St → error + St) (P : list A → St → Prop) l st :
  P [] st →
  (∀ done x st st', P done st → f (length done) x st = inr st' → P (done ++ [x]) st') →
  ∀ st', range f 0 l st = inr st' → P l st'.
Proof.
  intros H0 Hstep.
  assert (∀ l done st st', P done st → range f (length done) l st = inr st' → P (done ++ l) st')
    as H; [|intros st'; by apply (H l [])].
  clear l st H0. induction l as [|x l IH]; intros done st st' HP.
  - cbn. intros [= <-]. by rewrite app_nil_r.
  - cbn. intros (st1 & Hf & Hr)%bind_ok.
    rewrite cons_middle, app_assoc.
    apply (IH (done ++ [x]) st1); [by eapply Hstep|].
    by rewrite length_app, Nat.add_1_r.
Qed.

(** The results of a loop that maps. *)
Lemma range_map_ok {A B} (f : nat → A → error + B) i l ys :
  range_map f i l = inr ys ↔
  length ys = length l ∧ ∀ k x y, l !! k = Some x → ys !! k = Some y → f (i + k)%nat x = inr y.
Proof.
  revert i ys. induction l as [|x l IH]; intros i ys; cbn.
  - split; [by intros [= <-]|]. intros [Hl _]. by destruct ys.
  - rewrite bind_ok. setoid_rewrite bind_ok. split.
    + intros (y & Hy & ys' & Hys & [= <-]). apply IH in Hys as [Hl Hys]. split; [cbn; lia|].
      intros [|k] x' y'; cbn; [intros [= <-] [= <-]; by rewrite Nat.add_0_r|].
      intros Hx Hy'. rewrite Nat.add_succ_r. by apply (Hys k).
    + intros [Hl Hys]. destruct ys as [|y ys]; [done|]. exists y. split.
      * rewrite <- (Nat.add_0_r i). by apply (Hys 0%nat).
      * exists ys. split; [|done]. apply IH. split; [cbn in Hl; lia|].
        intros k x' y' Hx Hy. rewrite Nat.add_succ_l, <- Nat.add_succ_r. by apply (Hys (S k)).
Qed.

(** A loop that appends one output per element. *)
Lemma range_appends {A B St} (out : St → list B) (R : A → B → Prop) (f : nat → A → St → error + St)
    i l st st' :
  (∀ k x st st', x ∈ l → f k x st = inr st' → ∃ y, out st' = out st ++ [y] ∧ R x y) →
  range f i l st = inr st' → ∃ ys, out st' = out st ++ ys ∧ Forall2 R l ys.
Proof.
  intros Hstep. revert i st. induction l as [|x l IH]; intros i st; cbn.
  - intros [= ->]. exists []. by rewrite app_nil_r.
  - intros (st1 & Hf & Hr)%bind_ok. destruct (Hstep _ _ _ _ (list_elem_of_here x l) Hf) as (y & Hy & Hxy).
    destruct (IH (λ k x' st st' Hin, Hstep k x' st st' (list_elem_of_further _ _ _ Hin)) _ _ Hr)
      as (ys & Hys & Hl).
    exists (y :: ys). rewrite Hys, Hy, <- app_assoc. split; [done|by constructor].
Qed.

(** Loops whose body only checks. *)
Lemma range_check {A} (f : nat → A → unit → error + unit) i l :
  range f i l tt = inr tt ↔ ∀ k x, l !! k = Some x → f (i + k)%nat x tt = inr tt.
Proof.
  revert i. induction l as [|x l IH]; intros i; cbn; [done|].
  rewrite bind_ok. split.
  - intros ([] & Hx & Hl) [|k] x'; cbn; [intros [= <-]; by rewrite Nat.add_0_r|].
    rewrite Nat.add_succ_r. by apply (proj1 (IH (S i)) Hl).
  - intros H. exists tt. split; [rewrite <- (Nat.add_0_r i); by apply (H 0%nat)|].
    apply IH. intros k x' Hx. rewrite Nat.add_succ_l, <- Nat.add_succ_r. by apply (H (S k)).
Qed.

Create Rewrite HintDb result.
#[export] Hint Rewrite @bind_ok @check_then @require_ok @require_ok_any @on_error_ok @result_of_ok : result.

(** Loops whose outcome depends on what was seen before: with a relation
    between the elements done and the loop's state, the loop succeeds when each
    element is acceptable after its predecessors. *)
Lemma range_iff {A St} (f : nat → A → St → error + St) (ok : list A → A → Prop)
    (R : list A → St → Prop) :
  (∀ i pre x st, R pre st → is_ok (f i x st) = true ↔ ok pre x) →
  (∀ i pre x st st', R pre st → f i x st = inr st' → R (pre ++ [x]) st') →
  ∀ l i pre st, R pre st →
    (is_ok (range f i l st) = true ↔ ∀ a x b, l = a ++ x :: b → ok (pre ++ a) x) ∧
    ∀ st', range f i l st = inr st' → R (pre ++ l) st'.
Proof.
  intros Hok HR. induction l as [|x l IH]; intros i pre st Hst; cbn.
  - split; [split; [intros _ [|??]; by intros|done]|]. intros st' [= <-]. by rewrite app_nil_r.
  - pose proof (Hok i pre x st Hst) as Hx. destruct (f i x st) as [e|st1] eqn:Hf; cbn in *.
    + split; [|done]. split; [done|]. intros H. apply Hx. rewrite <- (app_nil_r pre). by apply (H [] x l).
    + destruct (IH (S i) (pre ++ [x]) st1) as [IHl IHr]; [by eapply HR|].
      rewrite cons_middle, app_assoc. split; [|done]. rewrite IHl. split.
      * intros H [|y a] x' b [= -> ->]; [rewrite app_nil_r; by apply Hx|].
        rewrite cons_middle, app_assoc. by eapply H.
      * intros H a x' b ->. rewrite <- app_assoc. by apply (H (x :: a) x' b).
Qed.

Lemma is_ok_unit (r : error + unit) : is_ok r = true ↔ r = inr tt.
Proof. by destruct r as [|[]]. Qed.
Lemma is_ok_inr {A} (r : error + A) : is_ok r = true ↔ ∃ a, r = inr a.
Proof. destruct r; cbn; naive_solver. Qed.

(** Results of a loop that maps, element by element. *)
Lemma range_map_each {A B} (P : A → B → Prop) (f : nat → A → error + B) i l ys :
  (∀ k x y, x ∈ l → f k x = inr y → P x y) → range_map f i l = inr ys → Forall2 P l ys.
Proof.
  revert i ys. induction l as [|x l IH]; intros i ys HP; cbn [range_map]; [by intros [= <-]|].
  intros (y & Hy & (ys' & Hys & [= <-])%bind_ok)%bind_ok. constructor.
  - by eapply HP; [apply elem_of_cons; left|].
  - eapply IH; [|done]. intros k x' y' Hx. apply HP. by apply elem_of_cons; right.
Qed.
Lemma range_map_all {A B} (f : nat → A → error + B) i l ys :
  Forall2 (λ x y, ∀ k, f k x = inr y) l ys → range_map f i l = inr ys.
Proof.
  intros H. revert i. induction H as [|x y l ys Hx Hl IH]; intros i; cbn [range_map]; [done|].
  by rewrite Hx, IH.
Qed.
