(* ===== verification/State.v ===== *)
(** * The state store (package [internal/state]) and effectful programs

    [store.go]: entries, operations and the [Store] interface, as the class
    [StateStore] with its contract [StateStoreLaws].  [memory.go]: the
    [MemoryStore] that implements it.  The programs of the repositories and
    services are effect trees ([prog]) over store reads and transactions, the
    clock and the random source, run one after the other by [run]. *)

From S2P Require Import Prelude GoStd GoTime Errors.

(** ** store.go *)

Record Entry := { Value : string; ETag : string; Exists : bool }.

Definition no_entry : Entry := {| Value := ""; ETag := ""; Exists := false |}.

(** [OperationType] is a string type with two named constants. *)
Definition Upsert : string := "upsert".
Definition Delete : string := "delete".

Record Operation := { op_Type : string; op_Key : string; op_Value : string; op_ETag : string }.

Definition upsert (key value etag : string) : Operation :=
  {| op_Type := Upsert; op_Key := key; op_Value := value; op_ETag := etag |}.
Definition remove (key etag : string) : Operation :=
  {| op_Type := Delete; op_Key := key; op_Value := ""; op_ETag := etag |}.

(** The [Store] interface: what [Get] returns, and what [Transact] returns
    with the store it leaves. *)
Class StateStore (S : Type) := {
  Get : S → string → (error + Entry)%type;
  Transact : S → list Operation → option error * S
}.

Definition known_type (o : Operation) : Prop := op_Type o = Upsert ∨ op_Type o = Delete.

(** Effect of one operation on the values of a store. *)
Definition apply_value (o : Operation) (m : gmap string string) : gmap string string :=
  if bool_decide (op_Type o = Upsert) then <[op_Key o := op_Value o]> m
  else delete (op_Key o) m.
Definition apply_values (ops : list Operation) (m : gmap string string) : gmap string string :=
  foldl (λ m o, apply_value o m) m ops.

(** What the control plane relies on: a store has a current value and a
    non-empty ETag for every key it holds; a transaction whose non-empty ETags
    are all current commits every operation in order, any other one is refused
    with a conflict and changes nothing. *)
Class StateStoreLaws (S : Type) `{StateStore S} := {
  view : S → gmap string string;
  tag : S → string → string;
  Get_view s k : Get s k = inr
    match view s !! k with
    | Some v => {| Value := v; ETag := tag s k; Exists := true |}
    | None => no_entry
    end;
  tag_nonempty s k v : view s !! k = Some v → tag s k ≠ "";
  Transact_commit s ops :
    Forall known_type ops →
    Forall (λ o, op_ETag o = "" ∨ is_Some (view s !! op_Key o) ∧ op_ETag o = tag s (op_Key o)) ops →
    ∃ s', Transact s ops = (None, s') ∧ view s' = apply_values ops (view s);
  Transact_conflict s ops :
    Forall known_type ops →
    (∃ o, o ∈ ops ∧ op_ETag o ≠ "" ∧ (view s !! op_Key o = None ∨ op_ETag o ≠ tag s (op_Key o))) →
    ∃ e, Transact s ops = (Some e, s) ∧ errors_Is e StateConflict = true
}.

(** ** memory.go *)

Module Memory.
Record memoryValue := { value : string; etag : Z }.

(** The zero value a Go map lookup of an absent key gives. *)
Definition zero_value : memoryValue := {| value := ""; etag := 0 |}.

Abbreviation MemoryStore := (gmap string memoryValue).

Definition NewMemoryStore : MemoryStore := ∅.

Definition get (values : MemoryStore) (key : string) : error + Entry :=
  match values !! key with
  | None => inr no_entry
  | Some v => inr {| Value := value v; ETag := FormatUint (etag v); Exists := true |}
  end.

(** The first loop of [Transact]: every non-empty ETag must be current. *)
Fixpoint check_etags (values : MemoryStore) (operations : list Operation) : option error :=
  match operations with
  | [] => None
  | o :: operations' =>
      if bool_decide (op_ETag o = "") then check_etags values operations'
      else
        match values !! op_Key o with
        | Some current =>
            if bool_decide (FormatUint (etag current) = op_ETag o)
            then check_etags values operations'
            else Some (Errorf "%w: key %q" [AWrap ErrStateConflict; AStr (op_Key o)])
        | None => Some (Errorf "%w: key %q" [AWrap ErrStateConflict; AStr (op_Key o)])
        end
  end.

(** [current.etag++], which must not produce 0. *)
Definition next_etag (current : Z) : Z :=
  let e := uint64 (current + 1) in if (e =? 0)%Z then 1%Z else e.

(** The second loop: apply the operations in order. *)
Fixpoint apply_operations (values : MemoryStore) (operations : list Operation)
    : option error * MemoryStore :=
  match operations with
  | [] => (None, values)
  | o :: operations' =>
      if bool_decide (op_Type o = Upsert) then
        let current := default zero_value (values !! op_Key o) in
        apply_operations
          (<[op_Key o := {| value := op_Value o; etag := next_etag (etag current) |}]> values)
          operations'
      else if bool_decide (op_Type o = Delete) then
        apply_operations (delete (op_Key o) values) operations'
      else (Some (Errorf "unsupported memory state operation %q" [AStr (op_Type o)]), values)
  end.

Definition transact (values : MemoryStore) (operations : list Operation)
    : option error * MemoryStore :=
  match check_etags values operations with
  | Some e => (Some e, values)
  | None => apply_operations values operations
  end.

#[global] Instance memory_StateStore : StateStore MemoryStore := {
  Get := get;
  Transact := transact
}.
End Memory.

(** ** Effectful programs *)

(** The three state components of the deployment: private users, the
    model/provider catalog, and virtual keys with their subjects. *)
Inductive domain : Type := ControlState | ProviderState | KeyState.

#[export] Instance domain_eq_dec : EqDecision domain.
Proof. solve_decision. Defined.

(** A program ends with a Go result, or performs one effect and continues with
    what the effect returned: a store read or transaction of one domain,
    [now()], or reading [n] random bytes. *)
Inductive prog (A : Type) : Type :=
| Done (r : error + A)
| DoGet (d : domain) (key : string) (k : error + Entry → prog A)
| DoTransact (d : domain) (ops : list Operation) (k : option error → prog A)
| DoNow (k : Time → prog A)
| DoRead (n : nat) (k : error + list N → prog A).
Arguments Done {A}. Arguments DoGet {A}. Arguments DoTransact {A}.
Arguments DoNow {A}. Arguments DoRead {A}.

Fixpoint bind_result {A B} (p : prog A) (f : error + A → prog B) : prog B :=
  match p with
  | Done r => f r
  | DoGet d key k => DoGet d key (λ e, bind_result (k e) f)
  | DoTransact d ops k => DoTransact d ops (λ e, bind_result (k e) f)
  | DoNow k => DoNow (λ t, bind_result (k t) f)
  | DoRead n k => DoRead n (λ r, bind_result (k r) f)
  end.

(** [x, err := p; if err != nil { return err }]. *)
#[export] Instance prog_ret : MRet prog := λ A a, Done (inr a).
#[export] Instance prog_bind : MBind prog := λ A B f p,
  bind_result p (λ r, match r with inl e => Done (inl e) | inr a => f a end).

Definition fail {A} (e : error) : prog A := Done (inl e).
(** A Go function value that is already a result. *)
Definition lift {A} (r : error + A) : prog A := Done r.
Definition guard_err (c : bool) (e : error) : prog unit := if c then fail e else mret tt.

Definition store_get (d : domain) (key : string) : prog Entry := DoGet d key Done.
(** [Transact] returns only an error. *)
Definition store_transact (d : domain) (ops : list Operation) : prog unit :=
  DoTransact d ops (λ e, match e with Some e => fail e | None => mret tt end).
Definition now : prog Time := DoNow (λ t, mret t).
Definition rand_read (n : nat) : prog (list N) := DoRead n Done.

(** ** Sequential execution *)

(** The environment answers the clock and the random source: the [i]-th call. *)
Record environment := {
  clock : nat → Time;
  random : nat → nat → (error + list N)%type
}.

Record world (S : Type) := {
  control_state : S; provider_state : S; key_state : S;
  clock_calls : nat; random_calls : nat
}.
Arguments control_state {S}. Arguments provider_state {S}. Arguments key_state {S}.
Arguments clock_calls {S}. Arguments random_calls {S}.

Section run.
Context {S : Type} `{StateStore S}.

Definition store_of (w : world S) (d : domain) : S :=
  match d with
  | ControlState => control_state w
  | ProviderState => provider_state w
  | KeyState => key_state w
  end.

Definition set_store (w : world S) (d : domain) (s : S) : world S :=
  match d with
  | ControlState => {| control_state := s; provider_state := provider_state w;
      key_state := key_state w; clock_calls := clock_calls w; random_calls := random_calls w |}
  | ProviderState => {| control_state := control_state w; provider_state := s;
      key_state := key_state w; clock_calls := clock_calls w; random_calls := random_calls w |}
  | KeyState => {| control_state := control_state w; provider_state := provider_state w;
      key_state := s; clock_calls := clock_calls w; random_calls := random_calls w |}
  end.

Definition tick_clock (w : world S) : world S :=
  {| control_state := control_state w; provider_state := provider_state w;
     key_state := key_state w; clock_calls := Datatypes.S (clock_calls w);
     random_calls := random_calls w |}.
Definition tick_random (w : world S) : world S :=
  {| control_state := control_state w; provider_state := provider_state w;
     key_state := key_state w; clock_calls := clock_calls w;
     random_calls := Datatypes.S (random_calls w) |}.

Fixpoint run {A} (env : environment) (p : prog A) (w : world S) : (error + A) * world S :=
  match p with
  | Done r => (r, w)
  | DoGet d key k => run env (k (Get (store_of w d) key)) w
  | DoTransact d ops k =>
      let '(e, s) := Transact (store_of w d) ops in run env (k e) (set_store w d s)
  | DoNow k => run env (k (clock env (clock_calls w))) (tick_clock w)
  | DoRead n k => run env (k (random env (random_calls w) n)) (tick_random w)
  end.
End run.

(** ** Facts *)

(** The memory store satisfies the contract. *)
Module MemoryFacts.
Import Memory.

(** ETags of a memory store stay in the range of [uint64]. *)
Definition etags_ok (values : MemoryStore) : Prop :=
  ∀ k v, values !! k = Some v → (0 <= etag v < two64)%Z.

Definition values_of (values : MemoryStore) : gmap string string := value <$> values.

Lemma next_etag_range e : (1 <= next_etag e < two64)%Z.
Proof.
  unfold next_etag, uint64. pose proof (Z.mod_pos_bound (e + 1) two64 ltac:(done)).
  case_match eqn:E; [done|]. apply Z.eqb_neq in E. lia.
Qed.

Lemma check_etags_None values ops :
  check_etags values ops = None ↔
  Forall (λ o, op_ETag o = "" ∨
    ∃ v, values !! op_Key o = Some v ∧ op_ETag o = FormatUint (etag v)) ops.
Proof.
  induction ops as [|o ops IH]; [done|]. cbn. rewrite list.Forall_cons, <- IH.
  case_bool_decide as Ho; [naive_solver|].
  destruct (values !! op_Key o) as [v|] eqn:Hv; [|naive_solver].
  case_bool_decide as He; [|naive_solver]. rewrite <- He. naive_solver.
Qed.

Lemma apply_operations_known values ops :
  Forall known_type ops →
  ∃ values', apply_operations values ops = (None, values') ∧
    values_of values' = apply_values ops (values_of values).
Proof.
  intros H. revert values. induction H as [|o ops Ho Hops IH]; intros values; [by eexists|].
  cbn. destruct Ho as [Ho|Ho]; rewrite Ho.
  - rewrite bool_decide_eq_true_2 by done. destruct (IH
      (<[op_Key o := {| value := op_Value o;
         etag := next_etag (etag (default zero_value (values !! op_Key o))) |}]> values))
      as (values' & -> & Hv).
    eexists. split; [done|]. rewrite Hv. unfold values_of, apply_value.
    by rewrite fmap_insert, Ho.
  - rewrite bool_decide_eq_false_2, bool_decide_eq_true_2 by done.
    destruct (IH (delete (op_Key o) values)) as (values' & -> & Hv).
    eexists. split; [done|]. rewrite Hv. unfold values_of, apply_value.
    by rewrite fmap_delete, Ho.
Qed.

Lemma check_etags_conflict values ops e :
  check_etags values ops = Some e → errors_Is e StateConflict = true.
Proof.
  induction ops as [|o ops IH]; cbn; [done|].
  repeat case_match; try done; intros; simplify_eq; try done; by apply IH.
Qed.

#[global] Instance memory_StateStoreLaws : StateStoreLaws MemoryStore.
Proof.
  refine {| view := values_of;
    tag s k := match s !! k with Some v => FormatUint (etag v) | None => "" end |}.
  - intros s k. cbn. unfold get, values_of. rewrite lookup_fmap. by destruct (s !! k).
  - intros s k v. unfold values_of. rewrite lookup_fmap.
    destruct (s !! k); [intros _; apply FormatUint_nonempty|done].
  - intros s ops Hk Ho. cbn. unfold transact.
    assert (check_etags s ops = None) as ->; [|by apply apply_operations_known].
    apply check_etags_None. eapply list.Forall_impl; [exact Ho|]. cbn.
    intros o [?|[[v Hv] ?]]; [by left|right]. unfold values_of in Hv.
    rewrite lookup_fmap in Hv. destruct (s !! op_Key o); [by eexists|done].
  - intros s ops Hk (o & Ho & Hne & Hbad). cbn. unfold transact.
    destruct (check_etags s ops) as [e|] eqn:E.
    + exists e. split; [done|]. by eapply check_etags_conflict.
    + exfalso. apply check_etags_None in E. rewrite list.Forall_forall in E.
      destruct (E o Ho) as [?|(v & Hv & He)]; [done|].
      destruct Hbad as [Hb|Hb]; unfold values_of in *.
      * rewrite lookup_fmap, Hv in Hb. done.
      * by rewrite Hv in Hb.
Defined.

Lemma next_etag_ne e : (0 <= e < two64)%Z → next_etag e ≠ e.
Proof.
  intros He. unfold next_etag, uint64.
  destruct (decide (e + 1 = two64)%Z) as [E|E].
  - rewrite E, Z_mod_same_full. cbn. unfold two64 in *. lia.
  - rewrite Z.mod_small by lia. case_match eqn:E'; [apply Z.eqb_eq in E'|]; lia.
Qed.

Lemma apply_operations_ok values ops values' :
  etags_ok values → apply_operations values ops = (None, values') → etags_ok values'.
Proof.
  revert values. induction ops as [|o ops IH]; intros values Hok; cbn; [by intros [= <-]|].
  repeat case_bool_decide; intros Ha; [| |done]; apply IH in Ha; try done.
  - intros k v [[<- <-]|[_ Hv]]%lookup_insert_Some; [cbn|by eapply Hok].
    pose proof (next_etag_range (etag (default zero_value (values !! op_Key o)))). lia.
  - intros k v [_ Hv]%lookup_delete_Some. by eapply Hok.
Qed.

Lemma apply_operations_other values ops values' k :
  k ∉ map op_Key ops → apply_operations values ops = (None, values') →
  values' !! k = values !! k.
Proof.
  revert values. induction ops as [|o ops IH]; intros values; cbn; [by intros _ [= <-]|].
  rewrite not_elem_of_cons. intros [Hne Hk].
  repeat case_bool_decide; intros Ha; [| |done]; apply IH in Ha; try done; rewrite Ha.
  - by rewrite lookup_insert_ne.
  - by rewrite lookup_delete_ne.
Qed.

(** A written key has another ETag afterwards, or none. *)
Lemma apply_operations_etag values ops values' k v v' :
  etags_ok values → NoDup (map op_Key ops) → k ∈ map op_Key ops →
  apply_operations values ops = (None, values') →
  values !! k = Some v → values' !! k = Some v' → etag v' ≠ etag v.
Proof.
  intros Hok Hnd Hk Ha Hv Hv'. revert values Hok Hnd Ha Hv.
  induction ops as [|o ops IH]; intros values Hok Hnd Ha Hv; [by apply elem_of_nil in Hk|].
  cbn in *. apply list.NoDup_cons in Hnd as [Ho Hnd].
  apply elem_of_cons in Hk as [->|Hk].
  - repeat case_bool_decide; [| |done]; rewrite (apply_operations_other _ _ _ _ Ho Ha) in Hv'.
    + rewrite lookup_insert_eq in Hv'. simplify_eq. cbn. rewrite Hv. cbn.
      apply next_etag_ne. by eapply Hok.
    + by rewrite lookup_delete_eq in Hv'.
  - assert (op_Key o ≠ k) by (intros E; by rewrite E in Ho).
    repeat case_bool_decide; [| |done]; eapply IH in Ha; try done.
    + intros k' u [[<- <-]|[_ Hu]]%lookup_insert_Some; [cbn|by eapply Hok].
      pose proof (next_etag_range (etag (default zero_value (values !! op_Key o)))). lia.
    + by rewrite lookup_insert_ne.
    + intros k' u [_ Hu]%lookup_delete_Some. by eapply Hok.
    + by rewrite lookup_delete_ne.
Qed.

(** The ETag of an operation is empty or that of the stored value. *)
Definition current (values : MemoryStore) (o : Operation) : Prop :=
  op_ETag o = "" ∨ ∃ v, values !! op_Key o = Some v ∧ op_ETag o = FormatUint (etag v).

Lemma check_etags_stale values ops :
  ¬ Forall (current values) ops →
  ∃ e, transact values ops = (Some e, values) ∧ errors_Is e StateConflict = true.
Proof.
  intros Hc. unfold transact. destruct (check_etags values ops) as [e|] eqn:E.
  - exists e. split; [done|]. by eapply check_etags_conflict.
  - by apply check_etags_None in E.
Qed.

(** C1.  [MemoryStore.Transact] is an atomic compare-and-swap.  When every
    non-empty ETag of its operations is current, it applies all of them in
    order and reports success; otherwise it reports [ErrConflict] and
    changes nothing.  After a success every written key has lost its old
    ETag, across the wrap-around of the 64-bit counter: a later transaction
    that still carries an ETag read before is refused (no lost update). *)
Theorem memory_transact_cas values ops :
  etags_ok values → Forall known_type ops → NoDup (map op_Key ops) →
  (Forall (current values) ops →
     ∃ values', transact values ops = (None, values') ∧ etags_ok values' ∧
       values_of values' = apply_values ops (values_of values) ∧
       ∀ k v ops' o', values !! k = Some v → k ∈ map op_Key ops →
         o' ∈ ops' → op_Key o' = k → op_ETag o' = FormatUint (etag v) →
         ∃ e, transact values' ops' = (Some e, values') ∧ errors_Is e StateConflict = true) ∧
  (¬ Forall (current values) ops →
     ∃ e, transact values ops = (Some e, values) ∧ errors_Is e StateConflict = true).
Proof.
  intros Hok Hknown Hnd. split; [|by apply check_etags_stale].
  intros Hc. destruct (apply_operations_known values ops Hknown) as (values' & Ha & Hv).
  exists values'. unfold transact at 1. rewrite (proj2 (check_etags_None values ops) Hc).
  split_and!; [done|by eapply apply_operations_ok|done|].
  intros k v ops' o' Hk Hin Ho' <- He. apply check_etags_stale. intros Hc'.
  rewrite list.Forall_forall in Hc'. destruct (Hc' o' Ho') as [E|(v' & Hv' & E)].
  - rewrite He in E. by apply FormatUint_nonempty in E.
  - rewrite He in E. apply FormatUint_inj in E; [|by eapply Hok|].
    + by apply (apply_operations_etag values ops values' (op_Key o') v v').
    + by eapply (apply_operations_ok values ops values' Hok Ha).
Qed.

Lemma memory_transact_cas_witness :
  let values := {[ "k" := {| value := "1"; etag := two64 - 1 |} ]} in
  transact values [upsert "k" "2" (FormatUint (two64 - 1))]
    = (None, {[ "k" := {| value := "2"; etag := 1 |} ]}) ∧
  ∃ e, transact values [upsert "k" "2" "7"] = (Some e, values) ∧ errors_Is e StateConflict = true.
Proof.
  intros values. split; [vm_compute; reflexivity|].
  refine (proj2 (memory_transact_cas values [upsert "k" "2" "7"] _ _ _) _).
  - intros k v Hv. apply lookup_singleton_Some in Hv as [_ <-]. done.
  - by repeat constructor.
  - apply NoDup_singleton.
  - intros H. apply list.Forall_singleton in H as [H|(v & Hv & H)]; [done|].
    cbn in Hv. injection Hv as <-. vm_compute in H. done.
Defined.
End MemoryFacts.

Section run_facts.
Context {S : Type} `{StateStoreLaws S} (env : environment).
Implicit Types w : world S.

Lemma run_bind {A B} (p : prog A) (f : A → prog B) w :
  run env (p ≫= f) w =
  match run env p w with
  | (inl e, w') => (inl e, w')
  | (inr a, w') => run env (f a) w'
  end.
Proof.
  revert w. induction p as [r|d key k IH|d ops k IH|k IH|n k IH]; intros w.
  - by destruct r.
  - apply IH.
  - unfold mbind, prog_bind in *. cbn. destruct (Transact _ _). apply IH.
  - apply IH.
  - apply IH.
Qed.

Lemma run_bind_result {A B} (p : prog A) (f : error + A → prog B) w :
  run env (bind_result p f) w = let '(r, w') := run env p w in run env (f r) w'.
Proof.
  revert w. induction p as [r|d key k IH|d ops k IH|k IH|n k IH]; intros w; cbn.
  - done.
  - apply IH.
  - destruct (Transact _ _). apply IH.
  - apply IH.
  - apply IH.
Qed.

(** Entry a read returns in a world. *)
Definition entry_of w d key : Entry :=
  match view (store_of w d) !! key with
  | Some v => {| Value := v; ETag := tag (store_of w d) key; Exists := true |}
  | None => no_entry
  end.

Lemma run_get d key w : run env (store_get d key) w = (inr (entry_of w d key), w).
Proof. cbn. by rewrite Get_view. Qed.

Lemma store_of_set w d s d' :
  store_of (set_store w d s) d' = if decide (d' = d) then s else store_of w d'.
Proof. by destruct d, d'. Qed.

Lemma run_commit d ops w :
  Forall known_type ops →
  Forall (λ o, op_ETag o = "" ∨ is_Some (view (store_of w d) !! op_Key o) ∧
               op_ETag o = tag (store_of w d) (op_Key o)) ops →
  ∃ s', run env (store_transact d ops) w = (inr tt, set_store w d s') ∧
    view s' = apply_values ops (view (store_of w d)).
Proof.
  intros Hk Ho. destruct (Transact_commit (store_of w d) ops Hk Ho) as (s' & Hs & Hv).
  exists s'. cbn. by rewrite Hs.
Qed.
End run_facts.

#[export] Hint Rewrite @run_bind @run_get @run_bind_result : gwai_rw.
