(* ===== verification/Model.v ===== *)
(** * Control-plane resources ([internal/controlplane/model.go])

    The resources of the control plane as records, with the JSON codec their
    struct tags give and the proof that a storable resource is read back as it
    was written. *)

From S2P Require Import Prelude GoStd Json GoTime.

(** ** Status *)

(** [Status] is a string type; any string can be in a record read from JSON. *)
Abbreviation Status := string (only parsing).
Definition StatusActive : Status := "active".
Definition StatusDisabled : Status := "disabled".

Definition ProviderKindAnthropic : string := "anthropic".
Definition ProviderKindOpenAIChat : string := "openai-chat".
Definition ProviderKindOpenAIResponses : string := "openai-responses".
Definition ProviderKindGemini : string := "gemini".

(** ** Resources *)

Record User := {
  User_ID : string; User_Name : string; User_Email : string; User_Status : Status;
  User_Revision : Z; User_CreatedAt : Time; User_UpdatedAt : Time
}.

Record Provider := {
  Provider_ID : string; Provider_Slug : string; Provider_Name : string; Provider_Kind : string;
  Provider_AdapterAppID : string; Provider_Status : Status;
  Provider_CreatedAt : Time; Provider_UpdatedAt : Time
}.

Record Model := {
  Model_ID : string; Model_Alias : string; Model_ProviderID : string;
  Model_UpstreamModel : string; Model_Status : Status; Model_Revision : Z;
  Model_CreatedAt : Time; Model_UpdatedAt : Time
}.

Record ModelSubject := {
  MS_ModelID : string; MS_Alias : string; MS_Status : Status; MS_Revision : Z;
  MS_Deleted : bool; MS_UpdatedAt : Time
}.

Record VirtualKey := {
  Key_ID : string; Key_Name : string; Key_UserID : string; Key_Prefix : string;
  Key_KeyHash : string; Key_ModelIDs : list string; Key_Status : Status;
  Key_ExpiresAt : option Time; Key_CreatedAt : Time; Key_UpdatedAt : Time
}.

Record KeySubject := {
  KS_UserID : string; KS_Status : Status; KS_Revision : Z; KS_Deleted : bool;
  KS_UpdatedAt : Time
}.

Record PublicVirtualKey := {
  Pub_ID : string; Pub_Name : string; Pub_UserID : string; Pub_Prefix : string;
  Pub_ModelIDs : list string; Pub_Status : Status; Pub_ExpiresAt : option Time;
  Pub_CreatedAt : Time; Pub_UpdatedAt : Time
}.

(** [VirtualKey.Public]: everything but the key hash. *)
Definition Public (key : VirtualKey) : PublicVirtualKey := {|
  Pub_ID := Key_ID key; Pub_Name := Key_Name key; Pub_UserID := Key_UserID key;
  Pub_Prefix := Key_Prefix key; Pub_ModelIDs := Key_ModelIDs key; Pub_Status := Key_Status key;
  Pub_ExpiresAt := Key_ExpiresAt key; Pub_CreatedAt := Key_CreatedAt key;
  Pub_UpdatedAt := Key_UpdatedAt key
|}.

Record CreatedVirtualKey := { Created_VirtualKey : PublicVirtualKey; Created_Key : string }.

Record Authorization := { Auth_KeyID : string; Auth_UserID : string }.

Record Route := {
  Route_ModelID : string; Route_Alias : string; Route_ProviderID : string;
  Route_UpstreamModel : string; Route_AdapterAppID : string
}.

(** The index of a collection ([repository.go]). *)
Record resourceIndex := { IDs : list string }.

(** [reflect.DeepEqual] on resources is equality of all fields. *)
#[export] Instance User_eq_dec : EqDecision User.
Proof. solve_decision. Defined.
#[export] Instance Provider_eq_dec : EqDecision Provider.
Proof. solve_decision. Defined.
#[export] Instance Model_eq_dec : EqDecision Model.
Proof. solve_decision. Defined.
#[export] Instance VirtualKey_eq_dec : EqDecision VirtualKey.
Proof. solve_decision. Defined.

(** ** JSON codecs *)

Definition time_json (t : Time) : option json := JStr <$> format_time t.
Definition dec_time (j : json) : option Time :=
  match j with JStr s => parse_time s | _ => None end.
Definition time_field (name : string) (m : list (string * json)) : option Time :=
  last_value dec_time zero_time (field_values name m).
Definition strings_json (l : list string) : json := JArr (map JStr l).

(** [omitempty] on a pointer drops a nil one. *)
Definition omit_time (name : string) (t : option Time) : option (list (string * json)) :=
  match t with
  | None => Some []
  | Some t => j ← time_json t; Some [(name, j)]
  end.

#[export] Instance resourceIndex_Codec : Codec resourceIndex := {
  to_json x := Some (JObj [("ids", strings_json (IDs x))]);
  of_json j := m ← members j; ids ← strings_field "ids" m; Some {| IDs := ids |}
}.

#[export] Instance User_Codec : Codec User := {
  to_json x :=
    created ← time_json (User_CreatedAt x); updated ← time_json (User_UpdatedAt x);
    Some (JObj [("id", JStr (User_ID x)); ("name", JStr (User_Name x));
      ("email", JStr (User_Email x)); ("status", JStr (User_Status x));
      ("revision", JNum (FormatUint (User_Revision x)));
      ("created_at", created); ("updated_at", updated)]);
  of_json j :=
    m ← members j;
    id ← string_field "id" m; name ← string_field "name" m; email ← string_field "email" m;
    status ← string_field "status" m; revision ← uint64_field "revision" m;
    created ← time_field "created_at" m; updated ← time_field "updated_at" m;
    Some {| User_ID := id; User_Name := name; User_Email := email; User_Status := status;
      User_Revision := revision; User_CreatedAt := created; User_UpdatedAt := updated |}
}.

#[export] Instance Provider_Codec : Codec Provider := {
  to_json x :=
    created ← time_json (Provider_CreatedAt x); updated ← time_json (Provider_UpdatedAt x);
    Some (JObj [("id", JStr (Provider_ID x)); ("slug", JStr (Provider_Slug x));
      ("name", JStr (Provider_Name x)); ("kind", JStr (Provider_Kind x));
      ("adapter_app_id", JStr (Provider_AdapterAppID x)); ("status", JStr (Provider_Status x));
      ("created_at", created); ("updated_at", updated)]);
  of_json j :=
    m ← members j;
    id ← string_field "id" m; slug ← string_field "slug" m; name ← string_field "name" m;
    kind ← string_field "kind" m; app ← string_field "adapter_app_id" m;
    status ← string_field "status" m;
    created ← time_field "created_at" m; updated ← time_field "updated_at" m;
    Some {| Provider_ID := id; Provider_Slug := slug; Provider_Name := name;
      Provider_Kind := kind; Provider_AdapterAppID := app; Provider_Status := status;
      Provider_CreatedAt := created; Provider_UpdatedAt := updated |}
}.

#[export] Instance Model_Codec : Codec Model := {
  to_json x :=
    created ← time_json (Model_CreatedAt x); updated ← time_json (Model_UpdatedAt x);
    Some (JObj [("id", JStr (Model_ID x)); ("alias", JStr (Model_Alias x));
      ("provider_id", JStr (Model_ProviderID x));
      ("upstream_model", JStr (Model_UpstreamModel x)); ("status", JStr (Model_Status x));
      ("revision", JNum (FormatUint (Model_Revision x)));
      ("created_at", created); ("updated_at", updated)]);
  of_json j :=
    m ← members j;
    id ← string_field "id" m; alias ← string_field "alias" m;
    provider ← string_field "provider_id" m; upstream ← string_field "upstream_model" m;
    status ← string_field "status" m; revision ← uint64_field "revision" m;
    created ← time_field "created_at" m; updated ← time_field "updated_at" m;
    Some {| Model_ID := id; Model_Alias := alias; Model_ProviderID := provider;
      Model_UpstreamModel := upstream; Model_Status := status; Model_Revision := revision;
      Model_CreatedAt := created; Model_UpdatedAt := updated |}
}.

#[export] Instance ModelSubject_Codec : Codec ModelSubject := {
  to_json x :=
    updated ← time_json (MS_UpdatedAt x);
    Some (JObj [("model_id", JStr (MS_ModelID x)); ("alias", JStr (MS_Alias x));
      ("status", JStr (MS_Status x)); ("revision", JNum (FormatUint (MS_Revision x)));
      ("deleted", JBool (MS_Deleted x)); ("updated_at", updated)]);
  of_json j :=
    m ← members j;
    id ← string_field "model_id" m; alias ← string_field "alias" m;
    status ← string_field "status" m; revision ← uint64_field "revision" m;
    deleted ← bool_field "deleted" m; updated ← time_field "updated_at" m;
    Some {| MS_ModelID := id; MS_Alias := alias; MS_Status := status; MS_Revision := revision;
      MS_Deleted := deleted; MS_UpdatedAt := updated |}
}.

#[export] Instance KeySubject_Codec : Codec KeySubject := {
  to_json x :=
    updated ← time_json (KS_UpdatedAt x);
    Some (JObj [("user_id", JStr (KS_UserID x)); ("status", JStr (KS_Status x));
      ("revision", JNum (FormatUint (KS_Revision x)));
      ("deleted", JBool (KS_Deleted x)); ("updated_at", updated)]);
  of_json j :=
    m ← members j;
    id ← string_field "user_id" m; status ← string_field "status" m;
    revision ← uint64_field "revision" m;
    deleted ← bool_field "deleted" m; updated ← time_field "updated_at" m;
    Some {| KS_UserID := id; KS_Status := status; KS_Revision := revision;
      KS_Deleted := deleted; KS_UpdatedAt := updated |}
}.

#[export] Instance VirtualKey_Codec : Codec VirtualKey := {
  to_json x :=
    expires ← omit_time "expires_at" (Key_ExpiresAt x);
    created ← time_json (Key_CreatedAt x); updated ← time_json (Key_UpdatedAt x);
    Some (JObj ([("id", JStr (Key_ID x)); ("name", JStr (Key_Name x));
      ("user_id", JStr (Key_UserID x)); ("prefix", JStr (Key_Prefix x));
      ("key_hash", JStr (Key_KeyHash x)); ("model_ids", strings_json (Key_ModelIDs x));
      ("status", JStr (Key_Status x))] ++ expires ++
      [("created_at", created); ("updated_at", updated)]));
  of_json j :=
    m ← members j;
    id ← string_field "id" m; name ← string_field "name" m; user ← string_field "user_id" m;
    prefix ← string_field "prefix" m; hash ← string_field "key_hash" m;
    models ← strings_field "model_ids" m; status ← string_field "status" m;
    expires ← last_pointer dec_time None (field_values "expires_at" m);
    created ← time_field "created_at" m; updated ← time_field "updated_at" m;
    Some {| Key_ID := id; Key_Name := name; Key_UserID := user; Key_Prefix := prefix;
      Key_KeyHash := hash; Key_ModelIDs := models; Key_Status := status;
      Key_ExpiresAt := expires; Key_CreatedAt := created; Key_UpdatedAt := updated |}
}.

#[export] Instance PublicVirtualKey_Codec : Codec PublicVirtualKey := {
  to_json x :=
    expires ← omit_time "expires_at" (Pub_ExpiresAt x);
    created ← time_json (Pub_CreatedAt x); updated ← time_json (Pub_UpdatedAt x);
    Some (JObj ([("id", JStr (Pub_ID x)); ("name", JStr (Pub_Name x));
      ("user_id", JStr (Pub_UserID x)); ("prefix", JStr (Pub_Prefix x));
      ("model_ids", strings_json (Pub_ModelIDs x)); ("status", JStr (Pub_Status x))] ++ expires ++
      [("created_at", created); ("updated_at", updated)]));
  of_json j :=
    m ← members j;
    id ← string_field "id" m; name ← string_field "name" m; user ← string_field "user_id" m;
    prefix ← string_field "prefix" m;
    models ← strings_field "model_ids" m; status ← string_field "status" m;
    expires ← last_pointer dec_time None (field_values "expires_at" m);
    created ← time_field "created_at" m; updated ← time_field "updated_at" m;
    Some {| Pub_ID := id; Pub_Name := name; Pub_UserID := user; Pub_Prefix := prefix;
      Pub_ModelIDs := models; Pub_Status := status; Pub_ExpiresAt := expires;
      Pub_CreatedAt := created; Pub_UpdatedAt := updated |}
}.

(** ** Round trips *)

Definition time_ok (t : Time) : Prop := is_Some (format_time t).
Definition uint64_ok (n : Z) : Prop := (0 <= n < two64)%Z.
Definition text_ok (s : string) : Prop := valid_utf8 s = true.

Lemma time_json_ok t :
  time_ok t → ∃ s, time_json t = Some (JStr s) ∧ wf_json (JStr s) ∧ parse_time s = Some t.
Proof.
  intros [s Hs]. exists s. unfold time_json. rewrite Hs. split_and!; [done| |].
  - constructor. eapply ascii_only_valid, format_time_ascii, Hs.
  - by apply parse_format_time.
Qed.

Lemma wf_strings_json l : Forall text_ok l → wf_json (strings_json l).
Proof. intros H. constructor. induction H; constructor; [by constructor|done]. Qed.

(** Well-formedness of a printed record. *)
Ltac solve_wf :=
  repeat match goal with
  | |- wf_json (JObj _) => apply wf_obj
  | |- Forall _ [] => apply List.Forall_nil
  | |- Forall _ (_ :: _) => apply list.Forall_cons
  | |- _ ∧ _ => split; cbn [fst snd]
  | |- valid_utf8 _ = true => first [assumption | vm_compute; reflexivity]
  | |- wf_json (JStr _) => first [assumption | apply wf_str]
  | |- wf_json (JNum (FormatUint _)) => apply wf_FormatUint
  | |- wf_json (JBool _) => apply wf_bool
  | |- wf_json (strings_json _) => apply wf_strings_json; assumption
  end.

(** Solve the codec law of a record: marshal the times, then evaluate the
    decoder on the printed members. *)
Ltac solve_codec_law :=
  repeat match goal with
  | H : time_ok _ |- _ => apply time_json_ok in H as (? & ?Ht & ? & ?Hp)
  end;
  eexists; cbn [to_json of_json resourceIndex_Codec User_Codec Provider_Codec Model_Codec
    ModelSubject_Codec KeySubject_Codec VirtualKey_Codec PublicVirtualKey_Codec omit_time
    Pub_ID Pub_Name Pub_UserID Pub_Prefix Pub_ModelIDs Pub_Status Pub_ExpiresAt Pub_CreatedAt
    Pub_UpdatedAt
    Key_ID Key_Name Key_UserID Key_Prefix Key_KeyHash Key_ModelIDs Key_Status Key_ExpiresAt
    Key_CreatedAt Key_UpdatedAt mbind option_bind];
  repeat match goal with
    H : time_json _ = Some _ |- _ => rewrite H; cbn [mbind option_bind] end;
  split_and!; [reflexivity|unfold text_ok in *; cbn [app]; solve_wf|];
  unfold string_field, uint64_field, bool_field, time_field, strings_field;
  cbn [members mbind option_bind app];
  eval_fields; cbn [last_value last_pointer dec_string dec_bool dec_uint64 dec_time
    dec_strings strings_json mbind option_bind];
  repeat match goal with H : parse_time _ = Some _ |- _ => rewrite H end;
  rewrite ?ParseUint_FormatUint, ?json_strings_map by done.

#[export] Instance resourceIndex_CodecLaws : CodecLaws resourceIndex.
Proof.
  refine {| storable x := Forall text_ok (IDs x) |}.
  intros x Hx. solve_codec_law. by destruct x.
Defined.

Definition User_storable (x : User) : Prop :=
  text_ok (User_ID x) ∧ text_ok (User_Name x) ∧ text_ok (User_Email x) ∧
  text_ok (User_Status x) ∧ uint64_ok (User_Revision x) ∧
  time_ok (User_CreatedAt x) ∧ time_ok (User_UpdatedAt x).

#[export] Instance User_CodecLaws : CodecLaws User.
Proof.
  refine {| storable := User_storable |}.
  intros x (?&?&?&?&?&?&?). solve_codec_law. by destruct x.
Defined.

Definition Provider_storable (x : Provider) : Prop :=
  text_ok (Provider_ID x) ∧ text_ok (Provider_Slug x) ∧ text_ok (Provider_Name x) ∧
  text_ok (Provider_Kind x) ∧ text_ok (Provider_AdapterAppID x) ∧ text_ok (Provider_Status x) ∧
  time_ok (Provider_CreatedAt x) ∧ time_ok (Provider_UpdatedAt x).

#[export] Instance Provider_CodecLaws : CodecLaws Provider.
Proof.
  refine {| storable := Provider_storable |}.
  intros x (?&?&?&?&?&?&?&?). solve_codec_law. by destruct x.
Defined.

Definition Model_storable (x : Model) : Prop :=
  text_ok (Model_ID x) ∧ text_ok (Model_Alias x) ∧ text_ok (Model_ProviderID x) ∧
  text_ok (Model_UpstreamModel x) ∧ text_ok (Model_Status x) ∧ uint64_ok (Model_Revision x) ∧
  time_ok (Model_CreatedAt x) ∧ time_ok (Model_UpdatedAt x).

#[export] Instance Model_CodecLaws : CodecLaws Model.
Proof.
  refine {| storable := Model_storable |}.
  intros x (?&?&?&?&?&?&?&?). solve_codec_law. by destruct x.
Defined.

Definition ModelSubject_storable (x : ModelSubject) : Prop :=
  text_ok (MS_ModelID x) ∧ text_ok (MS_Alias x) ∧ text_ok (MS_Status x) ∧
  uint64_ok (MS_Revision x) ∧ time_ok (MS_UpdatedAt x).

#[export] Instance ModelSubject_CodecLaws : CodecLaws ModelSubject.
Proof.
  refine {| storable := ModelSubject_storable |}.
  intros x (?&?&?&?&?). solve_codec_law. by destruct x.
Defined.

Definition KeySubject_storable (x : KeySubject) : Prop :=
  text_ok (KS_UserID x) ∧ text_ok (KS_Status x) ∧ uint64_ok (KS_Revision x) ∧
  time_ok (KS_UpdatedAt x).

#[export] Instance KeySubject_CodecLaws : CodecLaws KeySubject.
Proof.
  refine {| storable := KeySubject_storable |}.
  intros x (?&?&?&?). solve_codec_law. by destruct x.
Defined.

Definition VirtualKey_storable (x : VirtualKey) : Prop :=
  text_ok (Key_ID x) ∧ text_ok (Key_Name x) ∧ text_ok (Key_UserID x) ∧
  text_ok (Key_Prefix x) ∧ text_ok (Key_KeyHash x) ∧ Forall text_ok (Key_ModelIDs x) ∧
  text_ok (Key_Status x) ∧ match Key_ExpiresAt x with Some t => time_ok t | None => True end ∧
  time_ok (Key_CreatedAt x) ∧ time_ok (Key_UpdatedAt x).

#[export] Instance VirtualKey_CodecLaws : CodecLaws VirtualKey.
Proof.
  refine {| storable := VirtualKey_storable |}.
  intros [id name user prefix hash models status expires created updated].
  intros Hx. cbv [VirtualKey_storable Key_ID Key_Name Key_UserID Key_Prefix Key_KeyHash
    Key_ModelIDs Key_Status Key_ExpiresAt Key_CreatedAt Key_UpdatedAt] in Hx.
  destruct Hx as (?&?&?&?&?&?&?&He&?&?).
  destruct expires as [t|]; by solve_codec_law.
Defined.

Definition PublicVirtualKey_storable (x : PublicVirtualKey) : Prop :=
  text_ok (Pub_ID x) ∧ text_ok (Pub_Name x) ∧ text_ok (Pub_UserID x) ∧
  text_ok (Pub_Prefix x) ∧ Forall text_ok (Pub_ModelIDs x) ∧ text_ok (Pub_Status x) ∧
  match Pub_ExpiresAt x with Some t => time_ok t | None => True end ∧
  time_ok (Pub_CreatedAt x) ∧ time_ok (Pub_UpdatedAt x).

#[export] Instance PublicVirtualKey_CodecLaws : CodecLaws PublicVirtualKey.
Proof.
  refine {| storable := PublicVirtualKey_storable |}.
  intros [id name user prefix models status expires created updated].
  intros Hx. cbv [PublicVirtualKey_storable Pub_ID Pub_Name Pub_UserID Pub_Prefix
    Pub_ModelIDs Pub_Status Pub_ExpiresAt Pub_CreatedAt Pub_UpdatedAt] in Hx.
  destruct Hx as (?&?&?&?&?&?&He&?&?).
  destruct expires as [t|]; by solve_codec_law.
Defined.

Lemma Public_storable (k : VirtualKey) : storable k → storable (Public k).
Proof. intros (?&?&?&?&?&?&?&?&?&?). by split_and!. Qed.
