(* ===== verification/Repository.v ===== *)
(** * Repository mechanics and the user and provider repositories
      ([internal/controlplane/repository.go])

    Keys, indexes, lookups and the three generic operations of
    [repositoryBase] as effect trees, the repositories built on them, and the
    refinement of those trees by operations on a table of resources.

    A repository is its state domain: the process-local mutex makes every
    operation run alone, which [State.run] models.  A Go map of lookups is the
    list of its entries; the code only iterates over it and tests membership. *)

From S2P Require Import Prelude GoStd Json GoTime Errors State Model.

(** ** Keys *)

Definition entityKey (collection id : string) : string := collection +:+ "/" +:+ id.
Definition indexKey (collection : string) : string := "indexes/" +:+ collection.
Definition lookupKey (kind value : string) : string :=
  "lookups/" +:+ kind +:+ "/" +:+ sha256_hex value.
Definition virtualKeysByUserIndexKey (userID : string) : string :=
  indexKey ("virtual-keys-by-user/" +:+ userID).
Definition virtualKeysByModelIndexKey (modelID : string) : string :=
  indexKey ("virtual-keys-by-model/" +:+ modelID).
Definition keySubjectKey (userID : string) : string := entityKey "key-subjects" userID.
Definition modelSubjectKey (modelID : string) : string := entityKey "model-subjects" modelID.

(** ** Reads *)

(** [fmt.Errorf(... %w, err)] around the error of a call. *)
Definition wrap_err {A} (f : error → error) (p : prog A) : prog A :=
  bind_result p (λ r, match r with inl e => fail (f e) | inr a => mret a end).

Definition json_error : error := NewError "json: cannot unmarshal value".

Definition encode {T} `{Codec T} (value : T) : prog string :=
  match Marshal value with
  | Some s => mret s
  | None => fail (Errorf "encode state value: %w" [AWrap json_error])
  end.

Definition decode_or {T} `{Codec T} (err : error → error) (value : string) : prog T :=
  match Unmarshal value with
  | Some x => mret x
  | None => fail (err json_error)
  end.

Definition decode_err (collection id : string) (e : error) : error :=
  Errorf "decode %s %q: %w" [AStr collection; AStr id; AWrap e].

Definition getResource {T} `{Codec T} (store : domain) (collection id : string) : prog T :=
  entry ← wrap_err (λ e, Errorf "get %s %q: %w" [AStr collection; AStr id; AWrap e])
            (store_get store (entityKey collection id));
  if Exists entry then decode_or (decode_err collection id) (Value entry)
  else fail ErrNotFound.

Definition readIndex (store : domain) (key : string) : prog (resourceIndex * string) :=
  entry ← store_get store key;
  if Exists entry then
    index ← decode_or (λ e, e) (Value entry);
    mret (index, ETag entry)
  else mret ({| IDs := [] |}, "").

Fixpoint collect {T} `{Codec T} (store : domain) (collection : string) (ids : list string)
    : prog (list T) :=
  match ids with
  | [] => mret []
  | id :: ids' =>
      bind_result (getResource store collection id) (λ r,
        match r with
        | inl err =>
            if errors_Is err NotFound then collect store collection ids' else fail err
        | inr value => rest ← collect store collection ids'; mret (value :: rest)
        end)
  end.

Definition listResourcesAtIndex {T} `{Codec T} (store : domain) (collection key : string)
    : prog (list T) :=
  '(index, _) ← wrap_err (λ e, Errorf "get %s index: %w" [AStr collection; AWrap e])
                  (readIndex store key);
  collect store collection (IDs index).

Definition listResources {T} `{Codec T} (store : domain) (collection : string)
    : prog (list T) :=
  listResourcesAtIndex store collection (indexKey collection).

Definition lookup_id (store : domain) (kind value : string) : prog string :=
  entry ← store_get store (lookupKey kind value);
  if Exists entry then
    decode_or (λ e, Errorf "decode %s lookup: %w" [AStr kind; AWrap e]) (Value entry)
  else fail ErrNotFound.

(** ** Writes *)

Definition transact (store : domain) (operations : list Operation) : prog unit :=
  bind_result (store_transact store operations) (λ r,
    match r with
    | inl err => if errors_Is err StateConflict then fail ErrConflict else fail err
    | inr _ => mret tt
    end).

Definition addIndexID (index : resourceIndex) (id : string) : resourceIndex :=
  if bool_decide (id ∈ IDs index) then index else {| IDs := IDs index ++ [id] |}.

Definition removeIndexID (index : resourceIndex) (id : string) : resourceIndex :=
  {| IDs := filter (λ candidate, candidate ≠ id) (IDs index) |}.

(** The loops over lookup keys: every key must be absent; every key must be
    absent or point to [id]; one upsert or delete per key. *)
Fixpoint check_absent (store : domain) (keys : list string) : prog unit :=
  match keys with
  | [] => mret tt
  | key :: keys' =>
      existing ← store_get store key;
      if Exists existing then fail ErrConflict else check_absent store keys'
  end.

Fixpoint check_owned (store : domain) (id : string) (keys : list string) : prog unit :=
  match keys with
  | [] => mret tt
  | key :: keys' =>
      existing ← store_get store key;
      if Exists existing then
        if bool_decide (Unmarshal (Value existing) = Some id) then check_owned store id keys'
        else fail ErrConflict
      else check_owned store id keys'
  end.

Fixpoint lookup_upserts (lookups : list (string * string)) : prog (list Operation) :=
  match lookups with
  | [] => mret []
  | (key, targetID) :: lookups' =>
      lookupValue ← encode targetID;
      rest ← lookup_upserts lookups';
      mret (upsert key lookupValue "" :: rest)
  end.

Definition lookup_deletes (keys : list string) : list Operation :=
  map (λ key, remove key "") keys.

Definition createResource {T} `{Codec T} (store : domain) (collection id : string) (value : T)
    (lookups : list (string * string)) : prog unit :=
  entry ← store_get store (entityKey collection id);
  if Exists entry then fail ErrConflict else
  _ ← check_absent store lookups.*1;
  '(index, indexETag) ← readIndex store (indexKey collection);
  let index := addIndexID index id in
  entityValue ← encode value;
  indexValue ← encode index;
  lookupOps ← lookup_upserts lookups;
  transact store
    (upsert (entityKey collection id) entityValue ""
     :: upsert (indexKey collection) indexValue indexETag
     :: lookupOps).

Definition replaceResource {T} `{Codec T} `{EqDecision T} (store : domain)
    (collection id : string) (expected value : T)
    (oldLookups newLookups : list (string * string)) : prog unit :=
  entry ← store_get store (entityKey collection id);
  if negb (Exists entry) then fail ErrNotFound else
  current ← decode_or (decode_err collection id) (Value entry);
  if negb (bool_decide (current = expected)) then fail ErrConflict else
  _ ← check_owned store id newLookups.*1;
  entityValue ← encode value;
  let dropped := filter (λ key, key ∉ newLookups.*1) oldLookups.*1 in
  lookupOps ← lookup_upserts newLookups;
  transact store
    (upsert (entityKey collection id) entityValue (ETag entry)
     :: lookup_deletes dropped ++ lookupOps).

Definition deleteResource {T} `{Codec T} `{EqDecision T} (store : domain)
    (collection id : string) (expected : T) (lookups : list (string * string)) : prog unit :=
  entry ← store_get store (entityKey collection id);
  if negb (Exists entry) then fail ErrNotFound else
  current ← decode_or (decode_err collection id) (Value entry);
  if negb (bool_decide (current = expected)) then fail ErrConflict else
  '(index, indexETag) ← readIndex store (indexKey collection);
  let index := removeIndexID index id in
  indexValue ← encode index;
  transact store
    (remove (entityKey collection id) (ETag entry)
     :: upsert (indexKey collection) indexValue indexETag
     :: lookup_deletes lookups.*1).

(** ** UserRepository *)

Definition userLookups (user : User) : list (string * string) :=
  [(lookupKey "user-email" (User_Email user), User_ID user)].

Definition CreateUser (store : domain) (user : User) : prog unit :=
  createResource store "users" (User_ID user) user (userLookups user).
Definition GetUser (store : domain) (id : string) : prog User :=
  getResource store "users" id.
Definition GetUserByEmail (store : domain) (email : string) : prog User :=
  id ← lookup_id store "user-email" email;
  GetUser store id.
Definition ListUsers (store : domain) : prog (list User) := listResources store "users".
Definition ReplaceUser (store : domain) (oldUser user : User) : prog unit :=
  replaceResource store "users" (User_ID user) oldUser user (userLookups oldUser)
    (userLookups user).
Definition DeleteUser (store : domain) (user : User) : prog unit :=
  deleteResource store "users" (User_ID user) user (userLookups user).

(** ** ProviderRepository *)

Definition providerLookups (provider : Provider) : list (string * string) :=
  [(lookupKey "provider-slug" (Provider_Slug provider), Provider_ID provider);
   (lookupKey "provider-adapter-app-id" (Provider_AdapterAppID provider), Provider_ID provider)].

Definition CreateProvider (store : domain) (provider : Provider) : prog unit :=
  createResource store "providers" (Provider_ID provider) provider (providerLookups provider).
Definition GetProvider (store : domain) (id : string) : prog Provider :=
  getResource store "providers" id.
Definition GetProviderBySlug (store : domain) (slug : string) : prog Provider :=
  id ← lookup_id store "provider-slug" slug;
  GetProvider store id.
Definition GetProviderByAdapterAppID (store : domain) (appID : string) : prog Provider :=
  id ← lookup_id store "provider-adapter-app-id" appID;
  GetProvider store id.
Definition ListProviders (store : domain) : prog (list Provider) :=
  listResources store "providers".
Definition ReplaceProvider (store : domain) (oldProvider provider : Provider) : prog unit :=
  replaceResource store "providers" (Provider_ID provider) oldProvider provider
    (providerLookups oldProvider) (providerLookups provider).
Definition DeleteProvider (store : domain) (provider : Provider) : prog unit :=
  deleteResource store "providers" (Provider_ID provider) provider (providerLookups provider).
