(* ===== verification/Collections.v ===== *)
(** * Collections of resources

    What the generic operations of [repository.go] do to the values of a
    store, proved once for any store that satisfies [StateStoreLaws] and any
    resource type with a codec: typed reads, indexes, the invariant of a
    collection (entities, index and lookups describe one table), and the
    refinement of [createResource], [replaceResource] and [deleteResource] by
    operations on that table. *)

From S2P Require Import Prelude GoStd Json GoTime Errors State Model Repository.

Lemma entityKey_inj c id id' : entityKey c id = entityKey c id' → id = id'.
Proof. unfold entityKey. by intros ?%(inj _)%(inj _). Qed.

#[local] Arguments bool_decide : simpl never.
#[local] Opaque enc Marshal Unmarshal entityKey indexKey lookupKey.

(** ** Typed reads *)

(** The store holds the text of [x] at [k], or nothing when [x] is [None]. *)
Definition has {T} `{CodecLaws T} (m : gmap string string) (k : string) (x : option T) : Prop :=
  m !! k = enc <$> x ∧ ∀ y, x = Some y → storable y.

(** The store has an index at [k] with exactly the ids that satisfy [P]. *)
Definition index_at (m : gmap string string) (k : string) (ids : list string) : Prop :=
  ∃ ix : option resourceIndex, has m k ix ∧ ids = from_option IDs [] ix.
Definition indexes (m : gmap string string) (k : string) (P : string → Prop) : Prop :=
  ∃ ids, index_at m k ids ∧ NoDup ids ∧ (∀ id, id ∈ ids ↔ P id).

Section has_facts.
Context {T : Type} `{CodecLaws T}.
Implicit Types (m : gmap string string) (x : option T).

Lemma has_insert m k y : storable y → has (<[k := enc y]> m) k (Some y).
Proof. intros Hy. split; [by rewrite lookup_insert_eq|by intros ? [= <-]]. Qed.
Lemma has_insert_ne m k k' v x : k ≠ k' → has m k x → has (<[k' := v]> m) k x.
Proof. intros Hk [Hm Hx]. split; [by rewrite lookup_insert_ne|done]. Qed.
Lemma has_delete m k : has m k None → has (delete k m) k (None : option T).
Proof. intros _. split; [by rewrite lookup_delete_eq|done]. Qed.
Lemma has_deleted m k : has (delete k m) k (None : option T).
Proof. split; [by rewrite lookup_delete_eq|done]. Qed.
Lemma has_delete_ne m k k' x : k ≠ k' → has m k x → has (delete k' m) k x.
Proof. intros Hk [Hm Hx]. split; [by rewrite lookup_delete_ne|done]. Qed.
Lemma has_ext m m' k x : m !! k = m' !! k → has m k x → has m' k x.
Proof. intros E [Hm Hx]. split; [by rewrite <- E|done]. Qed.
End has_facts.

Lemma indexes_ext m m' k P : m !! k = m' !! k → indexes m k P → indexes m' k P.
Proof.
  intros E (ids & (ix & Hix & ->) & Hnd & HP). exists (from_option IDs [] ix).
  split_and!; [exists ix; split; [by eapply has_ext|done]|done|done].
Qed.

Lemma indexes_iff m k P Q : (∀ id, P id ↔ Q id) → indexes m k P → indexes m k Q.
Proof.
  intros HPQ (ids & Hix & Hnd & HP). exists ids. split_and!; [done|done|].
  intros id. by rewrite HP, HPQ.
Qed.

(** ** Running reads and transactions *)

Section reads.
Context {S : Type} `{StateStoreLaws S} (env : environment).
Implicit Types (w : world S) (d : domain).

Abbreviation values w d := (view (store_of w d)).

Lemma entry_has {T} `{CodecLaws T} w d k (x : option T) :
  has (values w d) k x →
  entry_of w d k = match x with
    | Some y => {| Value := enc y; ETag := tag (store_of w d) k; Exists := true |}
    | None => no_entry
    end.
Proof. intros [Hm _]. unfold entry_of. rewrite Hm. by destruct x. Qed.

Lemma run_decode_or {T} `{CodecLaws T} err (y : T) w :
  storable y → run env (decode_or err (enc y)) w = (inr y, w).
Proof. intros Hy. unfold decode_or. by rewrite Unmarshal_enc. Qed.

Lemma run_encode {T} `{CodecLaws T} (y : T) w :
  storable y → run env (encode y) w = (inr (enc y), w).
Proof. intros Hy. unfold encode. by rewrite Marshal_enc. Qed.

Lemma run_getResource {T} `{CodecLaws T} d c id (x : option T) w :
  has (values w d) (entityKey c id) x →
  run env (getResource d c id) w =
    (match x with Some y => inr y | None => inl ErrNotFound end, w).
Proof.
  intros Hx. unfold getResource, wrap_err. rewrite run_bind, run_bind_result, run_get.
  cbn. rewrite (entry_has _ _ _ _ Hx). destruct x as [y|]; [|done].
  apply run_decode_or. by apply Hx.
Qed.

Lemma run_readIndex d k ids w :
  index_at (values w d) k ids →
  run env (readIndex d k) w = (inr ({| IDs := ids |}, ETag (entry_of w d k)), w).
Proof.
  intros (ix & Hix & ->). unfold readIndex. rewrite run_bind, run_get. cbn.
  rewrite (entry_has _ _ _ _ Hix). destruct ix as [ix|]; [|done]. cbn.
  rewrite run_bind, run_decode_or by (by apply Hix). by destruct ix.
Qed.

(** The ETags of a transaction are those just read. *)
Definition fresh w d (o : Operation) : Prop :=
  op_ETag o = "" ∨ op_ETag o = ETag (entry_of w d (op_Key o)).

Lemma fresh_upsert w d k v : fresh w d (upsert k v (ETag (entry_of w d k))).
Proof. by right. Qed.
Lemma fresh_upsert_blind w d k v : fresh w d (upsert k v "").
Proof. by left. Qed.
Lemma fresh_remove w d k : fresh w d (remove k (ETag (entry_of w d k))).
Proof. by right. Qed.
Lemma fresh_remove_blind w d k : fresh w d (remove k "").
Proof. by left. Qed.
Lemma known_upsert k v e : known_type (upsert k v e).
Proof. by left. Qed.
Lemma known_remove k e : known_type (remove k e).
Proof. by right. Qed.

Lemma run_transact d ops w :
  Forall known_type ops → Forall (fresh w d) ops →
  ∃ s, run env (transact d ops) w = (inr tt, set_store w d s) ∧
    view s = apply_values ops (values w d).
Proof.
  intros Hk Hf. destruct (run_commit env d ops w) as (s & Hs & Hv); [done| |].
  - eapply list.Forall_impl; [exact Hf|]. intros o [Ho|Ho]; [by left|].
    unfold entry_of in Ho. destruct (values w d !! op_Key o) eqn:E; [|by left].
    right. split; [by eexists|done].
  - exists s. split; [|done]. unfold transact. rewrite run_bind_result, Hs. done.
Qed.

Lemma run_check_absent d keys w :
  run env (check_absent d keys) w =
    (if forallb (λ k, bool_decide (values w d !! k = None)) keys
     then inr tt else inl ErrConflict, w).
Proof.
  induction keys as [|k keys IH]; [done|]. cbn [check_absent forallb].
  rewrite run_bind, run_get. cbn -[check_absent]. unfold entry_of at 1.
  destruct (values w d !! k) eqn:E; cbn -[check_absent].
  - by rewrite bool_decide_eq_false_2.
  - by rewrite bool_decide_eq_true_2, IH.
Qed.

(** A lookup key that is free, or that already points to [id]. *)
Definition owned_by (m : gmap string string) (id k : string) : bool :=
  match m !! k with Some v => bool_decide (Unmarshal v = Some id) | None => true end.

Lemma run_check_owned d id keys w :
  run env (check_owned d id keys) w =
    (if forallb (owned_by (values w d) id) keys then inr tt else inl ErrConflict, w).
Proof.
  induction keys as [|k keys IH]; [done|]. cbn [check_owned forallb]. unfold owned_by at 1.
  rewrite run_bind, run_get. cbn -[check_owned entry_of]. unfold entry_of.
  destruct (values w d !! k) as [v|] eqn:E; cbn -[check_owned]; [|done].
  by case_bool_decide.
Qed.
End reads.

(** ** Values after a transaction *)

Lemma apply_values_app ops1 ops2 m :
  apply_values (ops1 ++ ops2) m = apply_values ops2 (apply_values ops1 m).
Proof. unfold apply_values. by rewrite foldl_app. Qed.

Lemma apply_values_upsert k v e ops m :
  apply_values (upsert k v e :: ops) m = apply_values ops (<[k := v]> m).
Proof. done. Qed.
Lemma apply_values_remove k e ops m :
  apply_values (remove k e :: ops) m = apply_values ops (delete k m).
Proof. done. Qed.

(** Only the keys of the operations change. *)
Lemma apply_values_other ops m k :
  k ∉ map op_Key ops → apply_values ops m !! k = m !! k.
Proof.
  revert m. induction ops as [|o ops IH]; intros m Hk; [done|]. cbn in Hk.
  rewrite not_elem_of_cons in Hk. destruct Hk as [Hne Hk]. cbn.
  fold (apply_values ops (apply_value o m)). rewrite IH by done. unfold apply_value.
  case_bool_decide; [by rewrite lookup_insert_ne|by rewrite lookup_delete_ne].
Qed.

Lemma lookup_apply_deletes keys m k :
  apply_values (lookup_deletes keys) m !! k = if decide (k ∈ keys) then None else m !! k.
Proof.
  revert m. induction keys as [|k' keys IH]; intros m; [done|].
  cbn [lookup_deletes map]. rewrite apply_values_remove.
  fold (lookup_deletes keys). rewrite IH. destruct (decide (k ∈ keys)).
  - by rewrite decide_True by by right.
  - destruct (decide (k = k')) as [->|Hne].
    + rewrite lookup_delete_eq, decide_True by by left. done.
    + rewrite lookup_delete_ne, decide_False by (by rewrite ?elem_of_cons; naive_solver). done.
Qed.

(** The upserts of a list of lookup keys that point to one id. *)
Definition upserts_to (keys : list string) (id : string) : list Operation :=
  map (λ key, upsert key (enc id) "") keys.

Lemma lookup_apply_upserts keys id m k :
  apply_values (upserts_to keys id) m !! k = if decide (k ∈ keys) then Some (enc id) else m !! k.
Proof.
  revert m. induction keys as [|k' keys IH]; intros m; [done|].
  cbn [upserts_to map]. rewrite apply_values_upsert.
  fold (upserts_to keys id). rewrite IH. destruct (decide (k ∈ keys)).
  - by rewrite decide_True by by right.
  - destruct (decide (k = k')) as [->|Hne].
    + rewrite lookup_insert_eq, decide_True by by left. done.
    + rewrite lookup_insert_ne, decide_False by (by rewrite ?elem_of_cons; naive_solver). done.
Qed.

Lemma run_lookup_upserts {S} `{StateStoreLaws S} env (keys : list string) (id : string) (w : world S) :
  storable id →
  run env (lookup_upserts (map (., id) keys)) w = (inr (upserts_to keys id), w).
Proof.
  intros Hid. induction keys as [|k keys IH]; [done|]. cbn [lookup_upserts map upserts_to].
  rewrite run_bind, (run_encode env id) by done. cbn -[lookup_upserts]. by rewrite run_bind, IH.
Qed.

(** ** Collections *)

(** A resource type kept by the generic operations: the collection's name, the
    id of a resource, and the lookup keys that point to it. *)
Class Collection (T : Type) := {
  coll_name : string;
  ident : T → string;
  lookup_keys : T → list string
}.

(** The keys of a collection do not collide. *)
Class CollectionLaws (T : Type) `{CodecLaws T} `{Collection T} := {
  entity_not_index id : entityKey coll_name id ≠ indexKey coll_name;
  lookup_not_entity x k id : k ∈ lookup_keys x → k ≠ entityKey coll_name id;
  lookup_not_index x k : k ∈ lookup_keys x → k ≠ indexKey coll_name;
  storable_ident x : storable x → storable (ident x)
}.

Definition lookups_of {T} `{Collection T} (x : T) : list (string * string) :=
  map (., ident x) (lookup_keys x).

(** The keys of the store a collection uses. *)
Definition footprint (T : Type) `{Collection T} (k : string) : Prop :=
  (∃ id, k = entityKey coll_name id) ∨ k = indexKey coll_name ∨ ∃ x : T, k ∈ lookup_keys x.

(** The store holds exactly the table [t]: every entity under its id, the
    index lists its ids, and the lookups of the resources, and no others, are
    present and point to them. *)
Record coll_inv {T} `{CollectionLaws T} (m : gmap string string) (t : gmap string T) : Prop := {
  ci_entity id : m !! entityKey coll_name id = enc <$> t !! id;
  ci_ok id x : t !! id = Some x → ident x = id ∧ storable x;
  ci_index : indexes m (indexKey coll_name) (λ id, is_Some (t !! id));
  ci_lookup id x k : t !! id = Some x → k ∈ lookup_keys x → m !! k = Some (enc id);
  ci_owned y k v : k ∈ lookup_keys y → m !! k = Some v →
    ∃ id x, t !! id = Some x ∧ k ∈ lookup_keys x
}.

(** ** The table specification *)

Section table.
Context {T : Type} `{Collection T} `{!EqDecision T}.
Implicit Types (t : gmap string T) (x : T).

(** Another resource of the table has one of the lookup keys of [x]. *)
Definition clashes t x : bool :=
  existsb (λ '(id, y), negb (bool_decide (id = ident x)) &&
                       existsb (λ k, bool_decide (k ∈ lookup_keys y)) (lookup_keys x))
    (map_to_list t).

Definition table_create t x : error + gmap string T :=
  if bool_decide (is_Some (t !! ident x)) || clashes t x then inl ErrConflict
  else inr (<[ident x := x]> t).

(** [expected] is the value the caller read before. *)
Definition table_replace t (expected x : T) : error + gmap string T :=
  match t !! ident x with
  | None => inl ErrNotFound
  | Some current =>
      if negb (bool_decide (current = expected)) || clashes t x then inl ErrConflict
      else inr (<[ident x := x]> t)
  end.

Definition table_delete t (expected : T) : error + gmap string T :=
  match t !! ident expected with
  | None => inl ErrNotFound
  | Some current =>
      if bool_decide (current = expected) then inr (delete (ident expected) t)
      else inl ErrConflict
  end.

Lemma clashes_true t x :
  clashes t x = true ↔
  ∃ id y k, t !! id = Some y ∧ id ≠ ident x ∧ k ∈ lookup_keys x ∧ k ∈ lookup_keys y.
Proof.
  unfold clashes. rewrite existsb_elem. split.
  - intros ([id y] & Hin & Hc). apply elem_of_map_to_list in Hin.
    apply andb_true_iff in Hc as [Hne Hk]. rewrite negb_true_iff in Hne.
    apply bool_decide_eq_false in Hne. apply existsb_elem in Hk as (k & Hkx & Hky).
    apply bool_decide_eq_true in Hky. eauto 10.
  - intros (id & y & k & Hid & Hne & Hkx & Hky). exists (id, y).
    split; [by apply elem_of_map_to_list|]. apply andb_true_iff. split.
    + by rewrite negb_true_iff, bool_decide_eq_false.
    + apply existsb_elem. exists k. by rewrite bool_decide_eq_true.
Qed.
End table.

(** ** Indexes *)

Lemma index_storable m k ids : index_at m k ids → storable {| IDs := ids |}.
Proof. intros ([[l]|] & [_ Hs] & ->); [by apply Hs|by apply list.Forall_nil]. Qed.

Lemma addIndexID_storable ids id :
  storable {| IDs := ids |} → storable id → storable (addIndexID {| IDs := ids |} id).
Proof.
  intros Hids Hid. unfold addIndexID. case_bool_decide; [done|].
  cbn in *. apply list.Forall_app. by repeat constructor.
Qed.

Lemma removeIndexID_storable ids id :
  storable {| IDs := ids |} → storable (removeIndexID {| IDs := ids |} id).
Proof.
  cbn. rewrite !list.Forall_forall. intros Hids x Hx.
  apply list_elem_of_filter in Hx as [_ Hx]. by apply Hids.
Qed.

Lemma index_at_insert m k (ix : resourceIndex) :
  storable ix → index_at (<[k := enc ix]> m) k (IDs ix).
Proof. intros Hix. exists (Some ix). by split; [apply has_insert|]. Qed.

(** Writing the index with an id added, or removed. *)
Lemma addIndexID_spec ids id P :
  NoDup ids → (∀ i, i ∈ ids ↔ P i) →
  NoDup (IDs (addIndexID {| IDs := ids |} id)) ∧
  ∀ i, i ∈ IDs (addIndexID {| IDs := ids |} id) ↔ i = id ∨ P i.
Proof.
  intros Hnd HP. unfold addIndexID. case_bool_decide as Hin; cbn in *.
  - split; [done|]. intros i. rewrite HP. split; [by right|]. intros [->|?]; [by apply HP|done].
  - split.
    + apply list.NoDup_app. split_and!; [done| |apply NoDup_singleton].
      intros x Hx. rewrite list_elem_of_singleton. by intros ->.
    + intros i. rewrite elem_of_app, list_elem_of_singleton, HP. naive_solver.
Qed.

Lemma removeIndexID_spec ids id P :
  NoDup ids → (∀ i, i ∈ ids ↔ P i) →
  NoDup (IDs (removeIndexID {| IDs := ids |} id)) ∧
  ∀ i, i ∈ IDs (removeIndexID {| IDs := ids |} id) ↔ i ≠ id ∧ P i.
Proof.
  intros Hnd HP. cbn. split; [by apply list.NoDup_filter|].
  intros i. by rewrite list_elem_of_filter, HP.
Qed.

Lemma indexes_add m k ids id P :
  index_at m k ids → NoDup ids → (∀ i, i ∈ ids ↔ P i) → storable id →
  ∀ m', indexes (<[k := enc (addIndexID {| IDs := ids |} id)]> m') k (λ i, i = id ∨ P i).
Proof.
  intros Hix Hnd HP Hid m'. destruct (addIndexID_spec ids id P Hnd HP) as [? ?].
  eexists. split_and!; [apply index_at_insert|done|done].
  apply addIndexID_storable; [by eapply index_storable|done].
Qed.

Lemma indexes_remove m k ids id P :
  index_at m k ids → NoDup ids → (∀ i, i ∈ ids ↔ P i) →
  ∀ m', indexes (<[k := enc (removeIndexID {| IDs := ids |} id)]> m') k (λ i, i ≠ id ∧ P i).
Proof.
  intros Hix Hnd HP m'. destruct (removeIndexID_spec ids id P Hnd HP) as [? ?].
  eexists. split_and!; [apply index_at_insert|done|done].
  apply removeIndexID_storable. by eapply index_storable.
Qed.

(** ** Refinement of the generic operations *)

Section refinement.
Context {S : Type} `{StateStoreLaws S} (env : environment).
Context {T : Type} `{CollectionLaws T} `{!EqDecision T}.
Implicit Types (w : world S) (d : domain) (t : gmap string T) (x : T).

Abbreviation values w d := (view (store_of w d)).

(** The program does on the store what [spec] does on the table: an error
    leaves the world as it was, a success changes keys of the collection
    only. *)
Definition refines_table w d (p : prog unit) (spec : error + gmap string T) : Prop :=
  match spec with
  | inl e => run env p w = (inl e, w)
  | inr t' =>
      ∃ s, run env p w = (inr tt, set_store w d s) ∧ coll_inv (view s) t' ∧
        ∀ k, ¬ footprint T k → view s !! k = values w d !! k
  end.

Lemma coll_inv_ext m m' t :
  (∀ k, footprint T k → m !! k = m' !! k) → coll_inv m t → coll_inv m' t.
Proof.
  intros E [He Hok Hix Hl Ho]. split.
  - intros id. rewrite <- E by (left; by eexists). done.
  - done.
  - eapply indexes_ext; [|done]. apply E. by right; left.
  - intros id x k Hx Hk. rewrite <- E by (right; right; by eexists). by eapply Hl.
  - intros y k v Hk. rewrite <- E by (right; right; by eexists). by eapply Ho.
Qed.

Lemma coll_inv_empty m :
  (∀ k, footprint T k → m !! k = None) → coll_inv (T := T) m ∅.
Proof.
  intros E. split; try done.
  - intros id. rewrite E by (left; by eexists). done.
  - exists []. split_and!; [|constructor|].
    + exists None. split; [|done]. split; [|done]. apply E. by right; left.
    + intros id. rewrite elem_of_nil, lookup_empty. split; [done|by intros [? ?]].
  - intros y k v Hk. rewrite E by (right; right; by eexists). done.
Qed.

Lemma has_entity m t id : coll_inv m t → has m (entityKey coll_name id) (t !! id).
Proof. intros Hi. split; [apply Hi|]. intros y Hy. by eapply Hi. Qed.

Lemma run_get_entity w d t id :
  coll_inv (values w d) t →
  run env (getResource d coll_name id) w =
    (match t !! id with Some x => inr x | None => inl ErrNotFound end, w).
Proof. intros Hi. by apply (run_getResource env d coll_name id (t !! id)), has_entity. Qed.

(** A lookup finds the id of the one resource that has the key. *)
Lemma lookup_value m t y k v :
  coll_inv m t → k ∈ lookup_keys y → m !! k = Some v →
  ∃ id x, t !! id = Some x ∧ k ∈ lookup_keys x ∧ v = enc id ∧ storable id.
Proof.
  intros Hi Hk Hv. destruct (ci_owned _ _ Hi y k v Hk Hv) as (id & x & Hx & Hkx).
  exists id, x. destruct (ci_ok _ _ Hi id x Hx) as [<- Hs].
  split_and!; [done|done| |by apply storable_ident].
  pose proof (ci_lookup _ _ Hi _ x k Hx Hkx) as E. congruence.
Qed.

Lemma lookup_unique m t id1 id2 x1 x2 k :
  coll_inv m t → t !! id1 = Some x1 → t !! id2 = Some x2 →
  k ∈ lookup_keys x1 → k ∈ lookup_keys x2 → id1 = id2.
Proof.
  intros Hi Hx1 Hx2 Hk1 Hk2.
  destruct (ci_ok _ _ Hi _ _ Hx1) as [<- Hs1], (ci_ok _ _ Hi _ _ Hx2) as [<- Hs2].
  pose proof (ci_lookup _ _ Hi _ _ _ Hx1 Hk1) as E1.
  pose proof (ci_lookup _ _ Hi _ _ _ Hx2 Hk2) as E2. rewrite E1 in E2.
  apply (enc_inj (T := string)); [by apply storable_ident..|congruence].
Qed.

(** The two tests of lookup keys decide [clashes]. *)
Lemma absent_clashes m t x :
  coll_inv m t → t !! ident x = None →
  forallb (λ k, bool_decide (m !! k = None)) (lookup_keys x) = negb (clashes t x).
Proof.
  intros Hi Hx. apply eq_true_iff_eq. rewrite forallb_elem, negb_true_iff.
  rewrite <- not_true_iff_false, clashes_true. split.
  - intros Ha (id & y & k & Hy & _ & Hkx & Hky). specialize (Ha k Hkx).
    apply bool_decide_eq_true in Ha. by rewrite (ci_lookup _ _ Hi id y k Hy Hky) in Ha.
  - intros Hn k Hk. apply bool_decide_eq_true, eq_None_not_Some. intros [v Hv].
    destruct (ci_owned _ _ Hi x k v Hk Hv) as (id & y & Hy & Hky). apply Hn.
    exists id, y, k. split_and!; [done| |done|done]. intros ->. congruence.
Qed.

Lemma owned_clashes m t x :
  coll_inv m t → storable (ident x) →
  forallb (owned_by m (ident x)) (lookup_keys x) = negb (clashes t x).
Proof.
  intros Hi Hid. apply eq_true_iff_eq. rewrite forallb_elem, negb_true_iff.
  rewrite <- not_true_iff_false, clashes_true. unfold owned_by. split.
  - intros Ha (id & y & k & Hy & Hne & Hkx & Hky). specialize (Ha k Hkx).
    rewrite (ci_lookup _ _ Hi id y k Hy Hky) in Ha. apply bool_decide_eq_true in Ha.
    destruct (ci_ok _ _ Hi id y Hy) as [<- Hs]. rewrite Unmarshal_enc in Ha by by apply storable_ident.
    congruence.
  - intros Hn k Hk. destruct (m !! k) as [v|] eqn:Hv; [|done]. apply bool_decide_eq_true.
    destruct (lookup_value _ _ x k v Hi Hk Hv) as (id & y & Hy & Hky & -> & Hs).
    rewrite Unmarshal_enc by done. f_equal. destruct (decide (id = ident x)); [done|].
    exfalso. apply Hn. by exists id, y, k.
Qed.

(** Values that hold the table with [x] put under its id, and values that
    hold it without a resource. *)
Lemma coll_inv_put m m' t x :
  coll_inv m t → storable x → clashes t x = false →
  m' !! entityKey coll_name (ident x) = Some (enc x) →
  (∀ id, id ≠ ident x → m' !! entityKey coll_name id = m !! entityKey coll_name id) →
  indexes m' (indexKey coll_name) (λ id, id = ident x ∨ is_Some (t !! id)) →
  (∀ k, k ∈ lookup_keys x → m' !! k = Some (enc (ident x))) →
  (∀ old k, t !! ident x = Some old → k ∈ lookup_keys old → k ∉ lookup_keys x → m' !! k = None) →
  (∀ y k, k ∈ lookup_keys y → k ∉ lookup_keys x →
    (∀ old, t !! ident x = Some old → k ∉ lookup_keys old) → m' !! k = m !! k) →
  coll_inv m' (<[ident x := x]> t).
Proof.
  intros Hi Hs Hc He Heo Hix Hk Hdrop Hkeep.
  assert (Hshare : ∀ id y k, t !! id = Some y → id ≠ ident x →
    k ∈ lookup_keys y → k ∉ lookup_keys x).
  { intros id y k Hy Hne Hky Hkx. apply not_true_iff_false in Hc. apply Hc.
    apply clashes_true. by exists id, y, k. }
  split.
  - intros id. destruct (decide (id = ident x)) as [->|Hne].
    + by rewrite lookup_insert_eq, He.
    + rewrite lookup_insert_ne, Heo by done. apply Hi.
  - intros id y. rewrite lookup_insert_Some. intros [[<- <-]|[_ Hy]]; [done|by eapply Hi].
  - eapply indexes_iff; [|exact Hix]. intros id. cbn. rewrite lookup_insert_is_Some.
    destruct (decide (id = ident x)); naive_solver.
  - intros id y k. rewrite lookup_insert_Some. intros [[<- <-]|[Hne Hy]] Hky; [by apply Hk|].
    rewrite (Hkeep y k Hky).
    + by eapply Hi.
    + by eapply Hshare.
    + intros old Hold Hko. apply Hne. by eapply lookup_unique.
  - intros y k v Hky Hv. destruct (decide (k ∈ lookup_keys x)) as [Hkx|Hkx].
    { exists (ident x), x. by rewrite lookup_insert_eq. }
    assert (Hno : ∀ old, t !! ident x = Some old → k ∉ lookup_keys old).
    { intros old Hold Hko. by rewrite (Hdrop old k Hold Hko Hkx) in Hv. }
    rewrite (Hkeep y k Hky Hkx Hno) in Hv.
    destruct (ci_owned _ _ Hi y k v Hky Hv) as (id & z & Hz & Hkz).
    exists id, z. split; [|done]. rewrite lookup_insert_ne; [done|].
    intros <-. by apply (Hno z).
Qed.

Lemma coll_inv_drop m m' t old :
  coll_inv m t → t !! ident old = Some old →
  m' !! entityKey coll_name (ident old) = None →
  (∀ id, id ≠ ident old → m' !! entityKey coll_name id = m !! entityKey coll_name id) →
  indexes m' (indexKey coll_name) (λ id, id ≠ ident old ∧ is_Some (t !! id)) →
  (∀ k, k ∈ lookup_keys old → m' !! k = None) →
  (∀ y k, k ∈ lookup_keys y → k ∉ lookup_keys old → m' !! k = m !! k) →
  coll_inv m' (delete (ident old) t).
Proof.
  intros Hi Hold He Heo Hix Hk Hkeep. split.
  - intros id. destruct (decide (id = ident old)) as [->|Hne].
    + by rewrite lookup_delete_eq, He.
    + rewrite lookup_delete_ne, Heo by done. apply Hi.
  - intros id y. rewrite lookup_delete_Some. intros [_ Hy]. by eapply Hi.
  - eapply indexes_iff; [|exact Hix]. intros id. cbn. rewrite lookup_delete_is_Some.
    naive_solver.
  - intros id y k. rewrite lookup_delete_Some. intros [Hne Hy] Hky. rewrite (Hkeep y k Hky).
    + by eapply Hi.
    + intros Hko. apply Hne. by eapply lookup_unique.
  - intros y k v Hky Hv. destruct (decide (k ∈ lookup_keys old)) as [Hko|Hko].
    { by rewrite Hk in Hv. }
    rewrite (Hkeep y k Hky Hko) in Hv.
    destruct (ci_owned _ _ Hi y k v Hky Hv) as (id & z & Hz & Hkz).
    exists id, z. split; [|done]. rewrite lookup_delete_ne; [done|]. congruence.
Qed.

Lemma lookups_of_keys x : (lookups_of x).*1 = lookup_keys x.
Proof. unfold lookups_of. rewrite <- list_fmap_compose. apply list_fmap_id. Qed.

Lemma run_lookups x w :
  storable x → run env (lookup_upserts (lookups_of x)) w = (inr (upserts_to (lookup_keys x) (ident x)), w).
Proof. intros Hx. apply run_lookup_upserts. by apply storable_ident. Qed.

Lemma upserts_known keys id : Forall known_type (upserts_to keys id).
Proof. apply list.Forall_fmap, list.Forall_true. intros k. apply known_upsert. Qed.
Lemma upserts_fresh w d keys id : Forall (fresh w d) (upserts_to keys id).
Proof. apply list.Forall_fmap, list.Forall_true. intros k. apply fresh_upsert_blind. Qed.
Lemma deletes_known keys : Forall known_type (lookup_deletes keys).
Proof. apply list.Forall_fmap, list.Forall_true. intros k. apply known_remove. Qed.
Lemma deletes_fresh w d keys : Forall (fresh w d) (lookup_deletes keys).
Proof. apply list.Forall_fmap, list.Forall_true. intros k. apply fresh_remove_blind. Qed.

Lemma upserts_other keys id m k : k ∉ keys → apply_values (upserts_to keys id) m !! k = m !! k.
Proof. intros Hk. by rewrite lookup_apply_upserts, decide_False. Qed.
Lemma deletes_other keys m k : k ∉ keys → apply_values (lookup_deletes keys) m !! k = m !! k.
Proof. intros Hk. by rewrite lookup_apply_deletes, decide_False. Qed.

Lemma entity_not_lookup x id : entityKey coll_name id ∉ lookup_keys x.
Proof. intros Hk. by apply (lookup_not_entity x _ id) in Hk. Qed.
Lemma index_not_lookup x : indexKey coll_name ∉ lookup_keys x.
Proof. intros Hk. by apply (lookup_not_index x) in Hk. Qed.

Lemma create_writes m t x ids :
  coll_inv m t → storable x → t !! ident x = None → clashes t x = false →
  index_at m (indexKey coll_name) ids → NoDup ids → (∀ id, id ∈ ids ↔ is_Some (t !! id)) →
  coll_inv (apply_values (upserts_to (lookup_keys x) (ident x))
    (<[indexKey coll_name := enc (addIndexID {| IDs := ids |} (ident x))]>
      (<[entityKey coll_name (ident x) := enc x]> m))) (<[ident x := x]> t).
Proof.
  intros Hi Hs Hnone Hc Hix Hnd HP. apply (coll_inv_put m); try done.
  - rewrite upserts_other by apply entity_not_lookup.
    rewrite lookup_insert_ne by (apply not_eq_sym, entity_not_index).
    by rewrite lookup_insert_eq.
  - intros id Hne. rewrite upserts_other by apply entity_not_lookup.
    rewrite lookup_insert_ne by (apply not_eq_sym, entity_not_index).
    rewrite lookup_insert_ne; [done|]. by intros ?%entityKey_inj.
  - eapply indexes_ext; [symmetry; apply upserts_other, index_not_lookup|].
    eapply indexes_add; [done|done|done|]. by apply storable_ident.
  - intros k Hk. by rewrite lookup_apply_upserts, decide_True.
  - intros old k Hold. congruence.
  - intros y k Hky Hkx _. rewrite upserts_other by done.
    rewrite lookup_insert_ne by (apply not_eq_sym; by eapply lookup_not_index).
    rewrite lookup_insert_ne; [done|]. apply not_eq_sym. by eapply lookup_not_entity.
Qed.

(** Step through a program: the next read or encoding, with its result. *)
Lemma run_step {A B} (p : prog A) (f : A → prog B) w r :
  run env p w = (r, w) →
  run env (p ≫= f) w = match r with inl e => (inl e, w) | inr a => run env (f a) w end.
Proof. intros Hp. rewrite run_bind, Hp. by destruct r. Qed.

Lemma run_createResource_ops w d t x ids :
  coll_inv (values w d) t → storable x → index_at (values w d) (indexKey coll_name) ids →
  run env (createResource d coll_name (ident x) x (lookups_of x)) w =
    match table_create t x with
    | inl e => (inl e, w)
    | inr _ => run env (transact d
        (upsert (entityKey coll_name (ident x)) (enc x) ""
         :: upsert (indexKey coll_name) (enc (addIndexID {| IDs := ids |} (ident x)))
              (ETag (entry_of w d (indexKey coll_name)))
         :: upserts_to (lookup_keys x) (ident x))) w
    end.
Proof.
  intros Hi Hs Hix. unfold createResource, table_create.
  erewrite run_step by apply run_get. cbv beta iota.
  rewrite (entry_has w d _ _ (has_entity _ t (ident x) Hi)).
  destruct (t !! ident x) as [y|] eqn:Hx; [done|]. cbn [Exists no_entry].
  rewrite (bool_decide_eq_false_2 (is_Some None)) by (by intros [? ?]). cbn [orb].
  erewrite run_step by apply run_check_absent.
  rewrite lookups_of_keys, (absent_clashes _ t) by done.
  destruct (clashes t x) eqn:Hc; [done|]. cbn [negb].
  erewrite run_step by (by apply run_readIndex). cbv beta iota zeta.
  erewrite run_step by (by refine (run_encode env _ _ _)). cbv beta iota.
  erewrite run_step by (refine (run_encode env _ _ (addIndexID_storable _ _ _ _));
    [by eapply index_storable|by apply storable_ident]). cbv beta iota.
  by erewrite run_step by (by apply run_lookups).
Qed.

Definition in_footprint (o : Operation) : Prop := footprint T (op_Key o).
Lemma in_footprint_upsert k v e : footprint T k → in_footprint (upsert k v e).
Proof. done. Qed.
Lemma in_footprint_remove k e : footprint T k → in_footprint (remove k e).
Proof. done. Qed.

(** A program that ends in a transaction with fresh ETags refines the table
    its values hold. *)
Lemma commit_refines w d (p : prog unit) ops t' :
  run env p w = run env (transact d ops) w →
  Forall known_type ops → Forall (fresh w d) ops →
  Forall in_footprint ops →
  coll_inv (apply_values ops (values w d)) t' →
  refines_table w d p (inr t').
Proof.
  intros Hp Hk Hf Hfoot Hi. destruct (run_transact env d ops w Hk Hf) as (s & Hs & Hv).
  exists s. rewrite Hp, Hv. split_and!; [done|done|].
  intros k Hnk. apply apply_values_other. intros Hin. apply Hnk.
  apply list_elem_of_fmap in Hin as (o & -> & Ho). rewrite list.Forall_forall in Hfoot. by apply Hfoot.
Qed.

Lemma footprint_entity id : footprint T (entityKey coll_name id).
Proof. left. by eexists. Qed.
Lemma footprint_index : footprint T (indexKey coll_name).
Proof. by right; left. Qed.
Lemma footprint_upserts x id : Forall in_footprint (upserts_to (lookup_keys x) id).
Proof.
  apply list.Forall_fmap, list.Forall_forall. intros k Hk. right; right. by eexists.
Qed.
Lemma footprint_deletes x keys :
  keys ⊆ lookup_keys x → Forall in_footprint (lookup_deletes keys).
Proof.
  intros Hx. apply list.Forall_fmap, list.Forall_forall. intros k Hk. right; right.
  exists x. by apply Hx.
Qed.

#[local] Hint Resolve fresh_upsert fresh_upsert_blind fresh_remove fresh_remove_blind
  in_footprint_upsert in_footprint_remove List.Forall_cons List.Forall_nil known_upsert known_remove upserts_known upserts_fresh deletes_known deletes_fresh
  footprint_entity footprint_index footprint_upserts : core.

Lemma run_createResource w d t x :
  coll_inv (values w d) t → storable x →
  refines_table w d (createResource d coll_name (ident x) x (lookups_of x)) (table_create t x).
Proof.
  intros Hi Hs. destruct (ci_index _ _ Hi) as (ids & Hix & Hnd & HP).
  pose proof (run_createResource_ops w d t x ids Hi Hs Hix) as Hrun.
  destruct (table_create t x) as [e|t'] eqn:Ht; [done|].
  unfold table_create in Ht. case_bool_decide as Hx; [done|]. cbn in Ht.
  destruct (clashes t x) eqn:Hc; simplify_eq.
  eapply commit_refines; [exact Hrun|auto..|].
  apply create_writes; try done. by apply eq_None_not_Some.
Qed.

Lemma replace_writes m t x old :
  coll_inv m t → storable x → t !! ident x = Some old → clashes t x = false →
  coll_inv (apply_values (upserts_to (lookup_keys x) (ident x))
    (apply_values (lookup_deletes (filter (λ k, k ∉ lookup_keys x) (lookup_keys old)))
      (<[entityKey coll_name (ident x) := enc x]> m))) (<[ident x := x]> t).
Proof.
  intros Hi Hs Hold Hc.
  assert (Hother : ∀ k, k ∉ lookup_keys x → k ∉ lookup_keys old →
    apply_values (upserts_to (lookup_keys x) (ident x))
      (apply_values (lookup_deletes (filter (λ k, k ∉ lookup_keys x) (lookup_keys old)))
        (<[entityKey coll_name (ident x) := enc x]> m)) !! k
    = <[entityKey coll_name (ident x) := enc x]> m !! k).
  { intros k Hkx Hko. rewrite upserts_other, deletes_other; [done| |done].
    by intros [_ ?]%list_elem_of_filter. }
  apply (coll_inv_put m); try done.
  - rewrite Hother by apply entity_not_lookup. by rewrite lookup_insert_eq.
  - intros id Hne. rewrite Hother by apply entity_not_lookup.
    rewrite lookup_insert_ne; [done|]. by intros ?%entityKey_inj.
  - eapply indexes_ext; [symmetry; apply Hother; apply index_not_lookup|].
    eapply indexes_ext; [symmetry; apply lookup_insert_ne, entity_not_index|].
    eapply indexes_iff; [|by apply (ci_index _ _ Hi)]. intros id. cbn.
    split; [by right|]. intros [->|?]; [by rewrite Hold|done].
  - intros k Hk. by rewrite lookup_apply_upserts, decide_True.
  - intros old' k Hold' Hko Hkx. simplify_eq. rewrite upserts_other by done.
    rewrite lookup_apply_deletes, decide_True; [done|]. by apply list_elem_of_filter.
  - intros y k Hky Hkx Hno. rewrite Hother by eauto.
    rewrite lookup_insert_ne; [done|]. apply not_eq_sym. by eapply lookup_not_entity.
Qed.

Lemma run_replaceResource w d t old x :
  coll_inv (values w d) t → storable x →
  refines_table w d
    (replaceResource d coll_name (ident x) old x (lookups_of old) (lookups_of x))
    (table_replace t old x).
Proof.
  intros Hi Hs.
  assert (Hrun : run env (replaceResource d coll_name (ident x) old x
      (lookups_of old) (lookups_of x)) w =
    match table_replace t old x with
    | inl e => (inl e, w)
    | inr _ => run env (transact d
        (upsert (entityKey coll_name (ident x)) (enc x)
           (ETag (entry_of w d (entityKey coll_name (ident x))))
         :: lookup_deletes (filter (λ k, k ∉ lookup_keys x) (lookup_keys old)) ++
            upserts_to (lookup_keys x) (ident x))) w
    end).
  { unfold replaceResource, table_replace. erewrite run_step by apply run_get. cbv beta iota.
    pose proof (has_entity _ t (ident x) Hi) as Hx. pose proof (entry_has w d _ _ Hx) as He.
    destruct (t !! ident x) as [cur|] eqn:Hcur; rewrite He; cbn [Exists no_entry negb]; [|done].
    erewrite run_step by (refine (run_decode_or env _ _ _ _); by apply Hx). cbv beta iota.
    destruct (bool_decide (cur = old)); cbn [negb orb]; [|done].
    erewrite run_step by apply run_check_owned.
    rewrite !lookups_of_keys, (owned_clashes _ t) by (done || by apply storable_ident).
    destruct (clashes t x); [done|]. cbn [negb].
    erewrite run_step by (by refine (run_encode env _ _ _)). cbv beta iota zeta.
    by erewrite run_step by (by apply run_lookups). }
  destruct (table_replace t old x) as [e|t'] eqn:Ht; [done|].
  unfold table_replace in Ht. destruct (t !! ident x) as [cur|] eqn:Hcur; [|done].
  case_bool_decide as Hco; [subst cur|done]. cbn in Ht.
  destruct (clashes t x) eqn:Hc; simplify_eq.
  eapply commit_refines; [exact Hrun| | | |].
  1-3: constructor; [auto|]; apply list.Forall_app; split; auto.
  - apply (footprint_deletes old). intros k [_ ?]%list_elem_of_filter. done.
  - rewrite apply_values_upsert, apply_values_app. by apply replace_writes.
Qed.

Lemma delete_writes m t old ids :
  coll_inv m t → t !! ident old = Some old →
  index_at m (indexKey coll_name) ids → NoDup ids → (∀ id, id ∈ ids ↔ is_Some (t !! id)) →
  coll_inv (apply_values (lookup_deletes (lookup_keys old))
    (<[indexKey coll_name := enc (removeIndexID {| IDs := ids |} (ident old))]>
      (delete (entityKey coll_name (ident old)) m))) (delete (ident old) t).
Proof.
  intros Hi Hold Hix Hnd HP. apply (coll_inv_drop m); try done.
  - rewrite deletes_other by apply entity_not_lookup.
    rewrite lookup_insert_ne by (apply not_eq_sym, entity_not_index).
    by rewrite lookup_delete_eq.
  - intros id Hne. rewrite deletes_other by apply entity_not_lookup.
    rewrite lookup_insert_ne by (apply not_eq_sym, entity_not_index).
    rewrite lookup_delete_ne; [done|]. by intros ?%entityKey_inj.
  - eapply indexes_ext; [symmetry; apply deletes_other, index_not_lookup|].
    by eapply indexes_remove.
  - intros k Hk. by rewrite lookup_apply_deletes, decide_True.
  - intros y k Hky Hko. rewrite deletes_other by done.
    rewrite lookup_insert_ne by (apply not_eq_sym; by eapply lookup_not_index).
    rewrite lookup_delete_ne; [done|]. apply not_eq_sym. by eapply lookup_not_entity.
Qed.

Lemma run_deleteResource w d t old :
  coll_inv (values w d) t →
  refines_table w d (deleteResource d coll_name (ident old) old (lookups_of old))
    (table_delete t old).
Proof.
  intros Hi. destruct (ci_index _ _ Hi) as (ids & Hix & Hnd & HP).
  assert (Hrun : run env (deleteResource d coll_name (ident old) old (lookups_of old)) w =
    match table_delete t old with
    | inl e => (inl e, w)
    | inr _ => run env (transact d
        (remove (entityKey coll_name (ident old))
           (ETag (entry_of w d (entityKey coll_name (ident old))))
         :: upsert (indexKey coll_name) (enc (removeIndexID {| IDs := ids |} (ident old)))
              (ETag (entry_of w d (indexKey coll_name)))
         :: lookup_deletes (lookup_keys old))) w
    end).
  { unfold deleteResource, table_delete. erewrite run_step by apply run_get. cbv beta iota.
    pose proof (has_entity _ t (ident old) Hi) as Hx. pose proof (entry_has w d _ _ Hx) as He.
    destruct (t !! ident old) as [cur|] eqn:Hcur; rewrite He; cbn [Exists no_entry negb]; [|done].
    erewrite run_step by (refine (run_decode_or env _ _ _ _); by apply Hx). cbv beta iota.
    destruct (bool_decide (cur = old)); cbn [negb]; [|done].
    erewrite run_step by (by apply run_readIndex). cbv beta iota zeta.
    erewrite run_step by (refine (run_encode env _ _ (removeIndexID_storable _ _ _));
      by eapply index_storable). cbv beta iota. by rewrite lookups_of_keys. }
  destruct (table_delete t old) as [e|t'] eqn:Ht; [done|].
  unfold table_delete in Ht. destruct (t !! ident old) as [cur|] eqn:Hcur; [|done].
  case_bool_decide as Hco; [subst cur|done]. simplify_eq.
  eapply commit_refines; [exact Hrun|auto..| |].
  - repeat (apply List.Forall_cons; [auto|]). by apply (footprint_deletes old).
  - rewrite apply_values_remove, apply_values_upsert. by apply delete_writes.
Qed.
End refinement.

(** ** Listing *)

Section listing.
Context {S : Type} `{StateStoreLaws S} (env : environment).
Context {T : Type} `{CollectionLaws T}.
Implicit Types (w : world S) (d : domain) (t : gmap string T) (x : T).

Abbreviation values w d := (view (store_of w d)).

(** [l] has every resource of the table whose id satisfies [P], once. *)
Definition lists_exactly (l : list T) t (P : string → Prop) : Prop :=
  NoDup (map ident l) ∧ ∀ x, x ∈ l ↔ t !! ident x = Some x ∧ P (ident x).

Lemma run_collect w d t ids :
  coll_inv (values w d) t →
  run env (collect d coll_name ids) w = (inr (omap (t !!.) ids), w).
Proof.
  intros Hi. induction ids as [|id ids IH]; [done|]. cbn [collect omap list_omap].
  rewrite run_bind_result. rewrite (run_get_entity env w d t) by done.
  destruct (t !! id) as [x|]; [|done].
  by rewrite run_bind, IH.
Qed.

Lemma omap_lists_exactly m t ids P :
  coll_inv m t → NoDup ids → (∀ id, id ∈ ids ↔ P id) → lists_exactly (omap (t !!.) ids) t P.
Proof.
  intros Hi Hnd HP. split.
  - clear HP. induction Hnd as [|id ids Hid Hnd IH]; [constructor|]. cbn.
    destruct (t !! id) as [x|] eqn:Hx; [|done]. cbn. constructor; [|done].
    destruct (ci_ok _ _ Hi id x Hx) as [<- _]. intros Hin.
    apply list_elem_of_fmap in Hin as (y & Hxy & Hy).
    apply list_elem_of_omap in Hy as (id' & Hin & Hy).
    destruct (ci_ok _ _ Hi id' y Hy) as [<- _]. by rewrite Hxy in Hid.
  - intros x. rewrite list_elem_of_omap. split.
    + intros (id & Hin & Hx). destruct (ci_ok _ _ Hi id x Hx) as [<- _].
      split; [done|]. by apply HP.
    + intros [Hx Hp]. exists (ident x). by rewrite HP.
Qed.

Lemma run_listResourcesAtIndex w d t key P :
  coll_inv (values w d) t → indexes (values w d) key P →
  ∃ l, run env (listResourcesAtIndex d coll_name key) w = (inr l, w) ∧ lists_exactly l t P.
Proof.
  intros Hi (ids & Hix & Hnd & HP). exists (omap (t !!.) ids).
  split; [|by eapply omap_lists_exactly]. unfold listResourcesAtIndex, wrap_err.
  rewrite run_bind, run_bind_result, (run_readIndex env d key ids) by done. cbn -[collect].
  by apply run_collect.
Qed.

Lemma run_listResources w d t :
  coll_inv (values w d) t →
  ∃ l, run env (listResources d coll_name) w = (inr l, w) ∧
    lists_exactly l t (λ id, is_Some (t !! id)).
Proof. intros Hi. eapply run_listResourcesAtIndex; [done|]. by apply ci_index. Qed.

(** A lookup by a key the collection uses: the id of the resource that has
    the key, or not found. *)
Lemma run_lookup_id w d t kind value y :
  coll_inv (values w d) t → lookupKey kind value ∈ lookup_keys y →
  (∃ id x, t !! id = Some x ∧ lookupKey kind value ∈ lookup_keys x ∧
     run env (lookup_id d kind value) w = (inr id, w)) ∨
  ((∀ id x, t !! id = Some x → lookupKey kind value ∉ lookup_keys x) ∧
     run env (lookup_id d kind value) w = (inl ErrNotFound, w)).
Proof.
  intros Hi Hk. unfold lookup_id.
  setoid_rewrite (run_bind env (store_get d (lookupKey kind value))). rewrite run_get.
  unfold entry_of. destruct (values w d !! lookupKey kind value) as [v|] eqn:Hv; cbn [Exists Value].
  - left. destruct (lookup_value _ _ y _ v Hi Hk Hv) as (id & x & Hx & Hkx & -> & Hs).
    exists id, x. split_and!; [done|done|]. by refine (run_decode_or env _ _ _ _).
  - right. split; [|done]. intros id x Hx Hkx.
    by rewrite (ci_lookup _ _ Hi id x _ Hx Hkx) in Hv.
Qed.
End listing.

(** ** Histories

    Any sequence of writes of a repository, each on the world the one before
    left: the table specification predicts every answer. *)

(** Calls of a repository one after the other: what each returned, and the
    world left. *)
Fixpoint run_steps {S O} `{StateStore S} (env : environment) (step : O → prog unit)
    (w : world S) (os : list O) : list (error + unit) * world S :=
  match os with
  | [] => ([], w)
  | o :: os' =>
      let '(r, w1) := run env (step o) w in
      let '(rs, w2) := run_steps env step w1 os' in (r :: rs, w2)
  end.

Inductive table_op (T : Type) : Type :=
| OpCreate (x : T)
| OpReplace (expected x : T)
| OpDelete (expected : T).
Arguments OpCreate {T}. Arguments OpReplace {T}. Arguments OpDelete {T}.

Section histories.
Context {S : Type} `{StateStoreLaws S} (env : environment).
Context {T : Type} `{CollectionLaws T} `{!EqDecision T}.
Implicit Types (w : world S) (d : domain) (t : gmap string T) (o : table_op T).

Definition op_ok o : Prop :=
  match o with OpCreate x | OpReplace _ x => storable x | OpDelete _ => True end.

Definition table_step t o : error + gmap string T :=
  match o with
  | OpCreate x => table_create t x
  | OpReplace expected x => table_replace t expected x
  | OpDelete expected => table_delete t expected
  end.

Definition collection_step d o : prog unit :=
  match o with
  | OpCreate x => createResource d coll_name (ident x) x (lookups_of x)
  | OpReplace expected x =>
      replaceResource d coll_name (ident x) expected x (lookups_of expected) (lookups_of x)
  | OpDelete expected =>
      deleteResource d coll_name (ident expected) expected (lookups_of expected)
  end.

Fixpoint table_steps t (os : list (table_op T)) : list (error + unit) * gmap string T :=
  match os with
  | [] => ([], t)
  | o :: os' =>
      match table_step t o with
      | inl e => let '(rs, t') := table_steps t os' in (inl e :: rs, t')
      | inr t1 => let '(rs, t') := table_steps t1 os' in (inr tt :: rs, t')
      end
  end.

Lemma collection_step_refines w d t o :
  coll_inv (view (store_of w d)) t → op_ok o →
  refines_table env w d (collection_step d o) (table_step t o).
Proof.
  intros Hi Ho. destruct o as [x|old x|old]; cbn in *.
  - by apply run_createResource.
  - by apply run_replaceResource.
  - by apply run_deleteResource.
Qed.

Lemma store_of_same w d s : store_of (set_store w d s) d = s.
Proof. by rewrite store_of_set, decide_True. Qed.

Lemma collection_steps_refine w d t os :
  coll_inv (view (store_of w d)) t → Forall op_ok os →
  (run_steps env (collection_step d) w os).1 = (table_steps t os).1 ∧
  coll_inv (view (store_of (run_steps env (collection_step d) w os).2 d)) (table_steps t os).2.
Proof.
  intros Hi Hos. revert w t Hi. induction Hos as [|o os Ho Hos IH]; intros w t Hi; [done|].
  cbn [run_steps table_steps]. pose proof (collection_step_refines w d t o Hi Ho) as Hr.
  unfold refines_table in Hr. destruct (table_step t o) as [e|t1].
  - rewrite Hr. specialize (IH w t Hi).
    destruct (run_steps _ _ w os), (table_steps t os). cbn in *. naive_solver.
  - destruct Hr as (s & -> & Hi' & _).
    specialize (IH (set_store w d s) t1). rewrite store_of_same in IH. specialize (IH Hi').
    destruct (run_steps _ _ (set_store w d s) os), (table_steps t1 os). cbn in *. naive_solver.
Qed.
End histories.
