(* ===== verification/Directory.v ===== *)
(** * The user and provider repositories as tables

    [UserRepository] and [ProviderRepository] of [repository.go] as instances
    of the collections: their operations refine table operations, whatever
    store implements the [state.Store] contract. *)

From S2P Require Import Prelude GoStd Json GoTime Errors State Model Repository Collections.

(** Keys that start differently are different. *)
Ltac member_cases :=
  repeat match goal with
  | H : ?k ∈ lookup_keys ?y |- _ =>
      let l := eval hnf in (lookup_keys y) in change (k ∈ l) in H
  | H : _ ∈ _ :: _ |- _ => apply elem_of_cons in H as [H|H]
  | H : _ ∈ [] |- _ => by apply elem_of_nil in H
  end.

Ltac key_ne :=
  intros; try match goal with |- _ ≠ _ => intros ? end; member_cases; subst;
  match goal with E : _ = _ :> string |- False => revert E end;
  cbv -[sha256_hex not]; discriminate.

(** ** Users *)

#[export] Instance User_Collection : Collection User := {
  coll_name := "users";
  ident := User_ID;
  lookup_keys user := [lookupKey "user-email" (User_Email user)]
}.

#[export] Instance User_CollectionLaws : CollectionLaws User.
Proof. split; [key_ne|key_ne|key_ne|]. intros x Hx. apply Hx. Qed.

Definition user_step (d : domain) (o : table_op User) : prog unit :=
  match o with
  | OpCreate user => CreateUser d user
  | OpReplace oldUser user => ReplaceUser d oldUser user
  | OpDelete user => DeleteUser d user
  end.

(** ** Providers *)

#[export] Instance Provider_Collection : Collection Provider := {
  coll_name := "providers";
  ident := Provider_ID;
  lookup_keys provider :=
    [lookupKey "provider-slug" (Provider_Slug provider);
     lookupKey "provider-adapter-app-id" (Provider_AdapterAppID provider)]
}.

#[export] Instance Provider_CollectionLaws : CollectionLaws Provider.
Proof. split; [key_ne|key_ne|key_ne|]. intros x Hx. apply Hx. Qed.

Definition provider_step (d : domain) (o : table_op Provider) : prog unit :=
  match o with
  | OpCreate provider => CreateProvider d provider
  | OpReplace oldProvider provider => ReplaceProvider d oldProvider provider
  | OpDelete provider => DeleteProvider d provider
  end.

(** ** Facts *)

Section facts.
Context {S : Type} `{StateStoreLaws S} (env : environment).
Implicit Types (w : world S) (d : domain).

Lemma user_steps_collection d os w :
  run_steps env (user_step d) w os = run_steps env (collection_step d) w os.
Proof.
  revert w. induction os as [|o os IH]; intros w; [done|]. cbn.
  assert (user_step d o = collection_step d o) as -> by by destruct o.
  destruct (run _ _ w) as [r w1]. by rewrite IH.
Qed.

Lemma provider_steps_collection d os w :
  run_steps env (provider_step d) w os = run_steps env (collection_step d) w os.
Proof.
  revert w. induction os as [|o os IH]; intros w; [done|]. cbn.
  assert (provider_step d o = collection_step d o) as -> by by destruct o.
  destruct (run _ _ w) as [r w1]. by rewrite IH.
Qed.

Lemma run_GetUser d w t id :
  coll_inv (view (store_of w d)) t →
  run env (GetUser d id) w = (match t !! id with Some u => inr u | None => inl ErrNotFound end, w).
Proof. exact (run_get_entity (T := User) env w d t id). Qed.

Lemma run_GetUserByEmail d w t email :
  coll_inv (view (store_of w d)) t →
  (∃ u, t !! User_ID u = Some u ∧
     lookupKey "user-email" (User_Email u) = lookupKey "user-email" email ∧
     run env (GetUserByEmail d email) w = (inr u, w)) ∨
  ((∀ id u, t !! id = Some u →
      lookupKey "user-email" (User_Email u) ≠ lookupKey "user-email" email) ∧
     run env (GetUserByEmail d email) w = (inl ErrNotFound, w)).
Proof.
  intros Hi. unfold GetUserByEmail. setoid_rewrite run_bind.
  destruct (run_lookup_id env w d t "user-email" email
    {| User_ID := ""; User_Name := ""; User_Email := email; User_Status := "";
       User_Revision := 0; User_CreatedAt := zero_time; User_UpdatedAt := zero_time |})
    as [(id & u & Hu & Hk & ->)|(Hno & ->)]; [done|by left| |].
  - left. destruct (ci_ok _ _ Hi id u Hu) as [<- _]. exists u.
    apply elem_of_cons in Hk as [Hk|[]%elem_of_nil].
    split_and!; [done|by symmetry|].
    by rewrite (run_GetUser d w t (ident u)), Hu.
  - right. split; [|done]. intros id u Hu E. apply (Hno id u Hu). cbn. rewrite E. by left.
Qed.

(** C2.  The user repository against its specification: run any sequence of
    creates, replaces and deletes on an empty store that satisfies the store
    contract; every call returns what the table specification returns
    (conflict for a taken id or e-mail or a stale expected value, not found
    for an unknown id), and afterwards [GetUser], [GetUserByEmail] and
    [ListUsers] read the table: two users never have the same e-mail, an
    e-mail finds the user who has it, and every user is listed exactly once. *)
Theorem user_repository_histories w d os t (rs : list (error + unit)) (w' : world S) :
  view (store_of w d) = ∅ → Forall op_ok os →
  table_steps ∅ os = (rs, t) →
  (run_steps env (user_step d) w os).2 = w' →
  (run_steps env (user_step d) w os).1 = rs ∧
  (∀ id, run env (GetUser d id) w' =
     (match t !! id with Some u => inr u | None => inl ErrNotFound end, w')) ∧
  (∀ id1 id2 u1 u2, t !! id1 = Some u1 → t !! id2 = Some u2 →
     User_Email u1 = User_Email u2 → id1 = id2) ∧
  (∀ u, t !! User_ID u = Some u →
     run env (GetUserByEmail d (User_Email u)) w' = (inr u, w')) ∧
  (∃ l, run env (ListUsers d) w' = (inr l, w') ∧ NoDup (map User_ID l) ∧
     ∀ u, u ∈ l ↔ t !! User_ID u = Some u).
Proof.
  intros Hempty Hos Ht Hw'. rewrite user_steps_collection in Hw' |- *.
  assert (Hi0 : coll_inv (T := User) (view (store_of w d)) ∅).
  { apply coll_inv_empty. intros k _. by rewrite Hempty. }
  destruct (collection_steps_refine env w d ∅ os Hi0 Hos) as [Hrs Hi].
  rewrite Ht, Hw' in *. cbn [fst snd] in *. split_and!; [done| | | |].
  - intros id. by apply run_GetUser.
  - intros id1 id2 u1 u2 H1 H2 E. eapply (lookup_unique _ _ _ _ u1 u2); [done..|by left|].
    cbn. rewrite E. by left.
  - intros u Hu. destruct (run_GetUserByEmail d w' t (User_Email u) Hi)
      as [(v & Hv & E & ->)|[Hno _]]; [|by destruct (Hno _ _ Hu)].
    assert (User_ID v = User_ID u) as Hid; [|rewrite Hid in Hv; congruence].
    eapply (lookup_unique _ _ _ _ v u); [done..|by left|]. cbn. rewrite E. by left.
  - destruct (run_listResources env w' d t Hi) as (l & Hl & Hnd & Hin).
    exists l. split_and!; [done..|]. intros u. rewrite Hin. cbn. naive_solver.
Qed.
End facts.

(** ** Concrete inputs *)

Module Sample.
(** 2026-01-02T03:04:05Z and a fixed random source. *)
Definition time : Time := {| ns := 63902919845000000000; off := 0 |}.
Definition env : environment := {|
  clock := λ _, time;
  random := λ i n, inr (replicate n (N.of_nat i))
|}.
Definition world0 : world Memory.MemoryStore := {|
  control_state := Memory.NewMemoryStore; provider_state := Memory.NewMemoryStore;
  key_state := Memory.NewMemoryStore; clock_calls := 0; random_calls := 0
|}.
Definition user (id email : string) : User := {|
  User_ID := id; User_Name := "Ada"; User_Email := email; User_Status := StatusActive;
  User_Revision := 1; User_CreatedAt := time; User_UpdatedAt := time
|}.
Definition provider (id slug : string) : Provider := {|
  Provider_ID := id; Provider_Slug := slug; Provider_Name := "P"; Provider_Kind := "gemini";
  Provider_AdapterAppID := slug +:+ "-adapter"; Provider_Status := StatusActive;
  Provider_CreatedAt := time; Provider_UpdatedAt := time
|}.
Definition user_ops : list (table_op User) :=
  [OpCreate (user "u1" "a@example.com"); OpCreate (user "u2" "a@example.com");
   OpReplace (user "u1" "a@example.com") (user "u1" "b@example.com");
   OpCreate (user "u2" "a@example.com"); OpDelete (user "u1" "a@example.com")].
Definition user_table : gmap string User :=
  {[ "u1" := user "u1" "b@example.com"; "u2" := user "u2" "a@example.com" ]}.
End Sample.

(** Storable values by evaluation of each of their texts, numbers and times. *)
Ltac by_vm := lazymatch goal with |- ?a = _ => vm_cast_no_check (eq_refl a) end.
Ltac storable_sample :=
  repeat lazymatch goal with
  | |- Forall _ _ => constructor
  | |- _ ∧ _ => split
  | |- True => exact I
  | |- text_ok _ => unfold text_ok; by_vm
  | |- uint64_ok _ => vm_compute; by split
  | |- time_ok _ => vm_compute; by eexists
  | |- _ => progress hnf
  end.

Lemma user_repository_histories_witness :
  (run_steps Sample.env (user_step ControlState) Sample.world0 Sample.user_ops).1 =
    [inr tt; inl ErrConflict; inr tt; inr tt; inl ErrConflict].
Proof.
  refine (proj1 (user_repository_histories Sample.env Sample.world0 ControlState Sample.user_ops
    Sample.user_table _ _ _ _ _ eq_refl)).
  - reflexivity.
  - unfold Sample.user_ops. storable_sample.
  - by_vm.
Defined.
