(* ===== verification/ModelRepository.v ===== *)
(** * The model catalog ([internal/controlplane/model_repository.go])

    [ModelRepository] shares the provider state domain with
    [ProviderRepository]: a model refers to a provider, every provider has an
    index of its models, and model writes touch the provider record.  The file
    translates its operations, gives the two-table specification they refine,
    and proves that no history of calls leaves a model without its provider. *)

From S2P Require Import Prelude GoStd Json GoTime Errors State Model Repository Collections Directory.

(** ** Operations *)

Definition modelsByProviderIndexKey (providerID : string) : string :=
  indexKey ("models-by-provider/" +:+ providerID).

Definition modelLookups (model : Model) : list (string * string) :=
  [(lookupKey "model-alias" (Model_Alias model), Model_ID model)].

Definition readProviderEntry (store : domain) (id : string) : prog (Provider * Entry) :=
  entry ← wrap_err (λ e, Errorf "get providers %q: %w" [AStr id; AWrap e])
            (store_get store (entityKey "providers" id));
  if negb (Exists entry) then fail ErrNotFound else
  provider ← decode_or (λ e, Errorf "decode providers %q: %w" [AStr id; AWrap e]) (Value entry);
  mret (provider, entry).

Definition providerTouchOperation (provider : Provider) (entry : Entry) : prog Operation :=
  value ← encode provider;
  mret (upsert (entityKey "providers" (Provider_ID provider)) value (ETag entry)).

Definition ensureProviderCanBackModel (provider : Provider) (model : Model) : option error :=
  if bool_decide (Model_Status model = StatusActive) &&
     negb (bool_decide (Provider_Status provider = StatusActive))
  then Some (wrap Conflict "an active model requires an active provider")
  else None.

(** [if err != nil { return err }] on a function that only returns an error. *)
Definition check (e : option error) : prog unit :=
  match e with Some e => fail e | None => mret tt end.

Definition CreateModel (store : domain) (model : Model) : prog unit :=
  entityEntry ← store_get store (entityKey "models" (Model_ID model));
  if Exists entityEntry then fail ErrConflict else
  let aliasKey := lookupKey "model-alias" (Model_Alias model) in
  aliasEntry ← store_get store aliasKey;
  if Exists aliasEntry then fail ErrConflict else
  '(provider, providerEntry) ← readProviderEntry store (Model_ProviderID model);
  _ ← check (ensureProviderCanBackModel provider model);
  '(globalIndex, globalETag) ← readIndex store (indexKey "models");
  '(providerIndex, providerIndexETag) ←
    readIndex store (modelsByProviderIndexKey (Model_ProviderID model));
  let globalIndex := addIndexID globalIndex (Model_ID model) in
  let providerIndex := addIndexID providerIndex (Model_ID model) in
  modelValue ← encode model;
  globalIndexValue ← encode globalIndex;
  providerIndexValue ← encode providerIndex;
  aliasValue ← encode (Model_ID model);
  providerTouch ← providerTouchOperation provider providerEntry;
  transact store
    [upsert (entityKey "models" (Model_ID model)) modelValue "";
     upsert (indexKey "models") globalIndexValue globalETag;
     upsert aliasKey aliasValue "";
     upsert (modelsByProviderIndexKey (Model_ProviderID model)) providerIndexValue
       providerIndexETag;
     providerTouch].

Definition GetModel (store : domain) (id : string) : prog Model :=
  getResource store "models" id.
Definition GetModelByAlias (store : domain) (alias : string) : prog Model :=
  id ← lookup_id store "model-alias" alias;
  GetModel store id.
Definition ListModels (store : domain) : prog (list Model) := listResources store "models".
Definition ListModelsByProvider (store : domain) (providerID : string) : prog (list Model) :=
  listResourcesAtIndex store "models" (modelsByProviderIndexKey providerID).

Definition ReplaceModel (store : domain) (oldModel model : Model) : prog unit :=
  _ ← guard_err (negb (bool_decide (Model_ID oldModel = Model_ID model)))
        (wrap Conflict "model ID is immutable");
  _ ← guard_err (negb (bool_decide (Model_Alias oldModel = Model_Alias model)))
        (wrap Conflict "model alias is immutable");
  entityEntry ← store_get store (entityKey "models" (Model_ID model));
  if negb (Exists entityEntry) then fail ErrNotFound else
  current ← decode_or (decode_err "models" (Model_ID model)) (Value entityEntry);
  if negb (bool_decide (current = oldModel)) then fail ErrConflict else
  let aliasKey := lookupKey "model-alias" (Model_Alias model) in
  _ ← check_owned store (Model_ID model) [aliasKey];
  '(oldProvider, oldProviderEntry) ← readProviderEntry store (Model_ProviderID oldModel);
  let same := bool_decide (Model_ProviderID model = Model_ProviderID oldModel) in
  '(newProvider, newProviderEntry) ←
    (if same then mret (oldProvider, oldProviderEntry)
     else readProviderEntry store (Model_ProviderID model));
  _ ← check (ensureProviderCanBackModel newProvider model);
  '(oldIndex, oldIndexETag) ←
    readIndex store (modelsByProviderIndexKey (Model_ProviderID oldModel));
  '(newIndex, newIndexETag) ←
    (if same then mret (oldIndex, oldIndexETag)
     else readIndex store (modelsByProviderIndexKey (Model_ProviderID model)));
  let oldIndex := if same then oldIndex else removeIndexID oldIndex (Model_ID model) in
  let newIndex := addIndexID newIndex (Model_ID model) in
  modelValue ← encode model;
  oldIndexValue ← encode oldIndex;
  newIndexValue ← encode newIndex;
  aliasValue ← encode (Model_ID model);
  oldProviderTouch ← providerTouchOperation oldProvider oldProviderEntry;
  let operations :=
    [upsert (entityKey "models" (Model_ID model)) modelValue (ETag entityEntry);
     upsert aliasKey aliasValue ""] in
  if same then
    transact store (operations ++
      [upsert (modelsByProviderIndexKey (Model_ProviderID model)) newIndexValue newIndexETag;
       oldProviderTouch])
  else
    newProviderTouch ← providerTouchOperation newProvider newProviderEntry;
    transact store (operations ++
      [upsert (modelsByProviderIndexKey (Model_ProviderID oldModel)) oldIndexValue oldIndexETag;
       upsert (modelsByProviderIndexKey (Model_ProviderID model)) newIndexValue newIndexETag;
       oldProviderTouch; newProviderTouch]).

(** [err != ErrNotFound] compares the error value itself. *)
Definition is_ErrNotFound (e : error) : bool :=
  match e with Sentinel NotFound => true | _ => false end.

Definition DeleteModel (store : domain) (model : Model) : prog unit :=
  entityEntry ← store_get store (entityKey "models" (Model_ID model));
  if negb (Exists entityEntry) then fail ErrNotFound else
  current ← decode_or (decode_err "models" (Model_ID model)) (Value entityEntry);
  if negb (bool_decide (current = model)) then fail ErrConflict else
  '(globalIndex, globalETag) ← readIndex store (indexKey "models");
  '(providerIndex, providerIndexETag) ←
    readIndex store (modelsByProviderIndexKey (Model_ProviderID model));
  let globalIndex := removeIndexID globalIndex (Model_ID model) in
  let providerIndex := removeIndexID providerIndex (Model_ID model) in
  globalIndexValue ← encode globalIndex;
  providerIndexValue ← encode providerIndex;
  let operations :=
    [remove (entityKey "models" (Model_ID model)) (ETag entityEntry);
     upsert (indexKey "models") globalIndexValue globalETag;
     upsert (modelsByProviderIndexKey (Model_ProviderID model)) providerIndexValue
       providerIndexETag;
     remove (lookupKey "model-alias" (Model_Alias model)) ""] in
  bind_result (readProviderEntry store (Model_ProviderID model)) (λ r,
    match r with
    | inr (provider, providerEntry) =>
        providerTouch ← providerTouchOperation provider providerEntry;
        transact store (operations ++ [providerTouch])
    | inl providerErr =>
        if is_ErrNotFound providerErr then transact store operations else fail providerErr
    end).

Definition DeleteProviderIfNoModels (store : domain) (provider : Provider) : prog unit :=
  '(current, providerEntry) ← readProviderEntry store (Provider_ID provider);
  if negb (bool_decide (current = provider)) then fail ErrConflict else
  '(modelIndex, modelIndexETag) ←
    readIndex store (modelsByProviderIndexKey (Provider_ID provider));
  if negb (bool_decide (IDs modelIndex = [])) then
    fail (wrap Conflict "provider still has models") else
  '(providerIndex, providerIndexETag) ← readIndex store (indexKey "providers");
  let providerIndex := removeIndexID providerIndex (Provider_ID provider) in
  providerIndexValue ← encode providerIndex;
  let operations :=
    remove (entityKey "providers" (Provider_ID provider)) (ETag providerEntry)
    :: upsert (indexKey "providers") providerIndexValue providerIndexETag
    :: lookup_deletes (providerLookups provider).*1 in
  transact store
    (if bool_decide (modelIndexETag = "") then operations
     else operations ++
       [remove (modelsByProviderIndexKey (Provider_ID provider)) modelIndexETag]).

(** ** The catalog invariant *)

#[export] Instance Model_Collection : Collection Model := {
  coll_name := "models";
  ident := Model_ID;
  lookup_keys model := [lookupKey "model-alias" (Model_Alias model)]
}.

#[export] Instance Model_CollectionLaws : CollectionLaws Model.
Proof. split; [key_ne|key_ne|key_ne|]. intros x Hx. apply Hx. Qed.

(** The values of the provider state hold the two tables, the index of every
    provider lists its models, and every model has its provider. *)
Record catalog_inv (m : gmap string string) (pt : gmap string Provider)
    (mt : gmap string Model) : Prop := {
  cat_providers : coll_inv m pt;
  cat_models : coll_inv m mt;
  cat_index p : indexes m (modelsByProviderIndexKey p)
    (λ id, ∃ x, mt !! id = Some x ∧ Model_ProviderID x = p);
  cat_ref id x : mt !! id = Some x → is_Some (pt !! Model_ProviderID x)
}.

(** ** The specification: two tables *)

Abbreviation catalog := (gmap string Provider * gmap string Model)%type.

Definition models_of (mt : gmap string Model) (providerID : string) : bool :=
  existsb (λ '(_, x), bool_decide (Model_ProviderID x = providerID)) (map_to_list mt).

Definition backed (pt : gmap string Provider) (x : Model) : option error :=
  match pt !! Model_ProviderID x with
  | None => Some ErrNotFound
  | Some p => ensureProviderCanBackModel p x
  end.

Definition spec_CreateModel (c : catalog) (x : Model) : error + catalog :=
  let '(pt, mt) := c in
  match table_create mt x with
  | inl e => inl e
  | inr mt' => match backed pt x with Some e => inl e | None => inr (pt, mt') end
  end.

Definition spec_ReplaceModel (c : catalog) (old x : Model) : error + catalog :=
  let '(pt, mt) := c in
  if negb (bool_decide (Model_ID old = Model_ID x)) then
    inl (wrap Conflict "model ID is immutable")
  else if negb (bool_decide (Model_Alias old = Model_Alias x)) then
    inl (wrap Conflict "model alias is immutable")
  else
    match table_replace mt old x with
    | inl e => inl e
    | inr mt' => match backed pt x with Some e => inl e | None => inr (pt, mt') end
    end.

Definition spec_DeleteModel (c : catalog) (x : Model) : error + catalog :=
  let '(pt, mt) := c in
  match table_delete mt x with inl e => inl e | inr mt' => inr (pt, mt') end.

Definition spec_DeleteProvider (c : catalog) (p : Provider) : error + catalog :=
  let '(pt, mt) := c in
  match table_delete pt p with
  | inl e => inl e
  | inr pt' =>
      if models_of mt (Provider_ID p) then inl (wrap Conflict "provider still has models")
      else inr (pt', mt)
  end.

Inductive catalog_op : Type :=
| CatCreateProvider (p : Provider)
| CatReplaceProvider (old p : Provider)
| CatDeleteProvider (p : Provider)
| CatCreateModel (x : Model)
| CatReplaceModel (old x : Model)
| CatDeleteModel (x : Model).

Definition with_models (r : error + gmap string Provider) (mt : gmap string Model)
    : error + catalog :=
  match r with inl e => inl e | inr pt => inr (pt, mt) end.

Definition catalog_spec (c : catalog) (o : catalog_op) : error + catalog :=
  match o with
  | CatCreateProvider p => with_models (table_create c.1 p) c.2
  | CatReplaceProvider old p => with_models (table_replace c.1 old p) c.2
  | CatDeleteProvider p => spec_DeleteProvider c p
  | CatCreateModel x => spec_CreateModel c x
  | CatReplaceModel old x => spec_ReplaceModel c old x
  | CatDeleteModel x => spec_DeleteModel c x
  end.

(** The calls the services make on the provider state. *)
Definition catalog_step (d : domain) (o : catalog_op) : prog unit :=
  match o with
  | CatCreateProvider p => CreateProvider d p
  | CatReplaceProvider old p => ReplaceProvider d old p
  | CatDeleteProvider p => DeleteProviderIfNoModels d p
  | CatCreateModel x => CreateModel d x
  | CatReplaceModel old x => ReplaceModel d old x
  | CatDeleteModel x => DeleteModel d x
  end.

Definition catalog_op_ok (o : catalog_op) : Prop :=
  match o with
  | CatCreateProvider p | CatReplaceProvider _ p => storable p
  | CatCreateModel x | CatReplaceModel _ x => storable x
  | CatDeleteProvider _ | CatDeleteModel _ => True
  end.

(** ** Keys *)

(** The keys only models use. *)
Definition model_key (k : string) : Prop :=
  footprint Model k ∨ ∃ p, k = modelsByProviderIndexKey p.

Lemma model_key_not_provider k : footprint Provider k → ¬ model_key k.
Proof.
  intros [[id ->]|[->|[x Hx]]] [[[id' E]|[E|[y Hy]]]|[p E]]; key_ne.
Qed.

Lemma by_provider_inj p p' : modelsByProviderIndexKey p = modelsByProviderIndexKey p' → p = p'.
Proof. unfold modelsByProviderIndexKey, indexKey. by intros ?%(inj _)%(inj _). Qed.

(** Rewrite lookups in values after writes, telling keys apart by their text. *)
Ltac kv_ne :=
  first
    [ done | intros ?%entityKey_inj; congruence | intros ?%by_provider_inj; congruence | key_ne ].
Ltac kv :=
  repeat first
    [ rewrite lookup_insert_eq | rewrite lookup_delete_eq
    | rewrite lookup_insert_ne by kv_ne | rewrite lookup_delete_ne by kv_ne ].

(** Writing back the value that is there. *)
Lemma apply_values_touch ops m k v e :
  apply_values ops m !! k = Some v →
  apply_values (ops ++ [upsert k v e]) m = apply_values ops m.
Proof. intros Hk. rewrite apply_values_app. cbn. unfold apply_value. cbn. by apply insert_id. Qed.

Section facts.
Context {S : Type} `{StateStoreLaws S} (env : environment).
Implicit Types (w : world S) (d : domain) (pt : gmap string Provider) (mt : gmap string Model).

Abbreviation values w d := (view (store_of w d)).

(** The program does on the store what [spec] does on the two tables. *)
Definition refines_catalog w d (p : prog unit) (spec : error + catalog) : Prop :=
  match spec with
  | inl e => run env p w = (inl e, w)
  | inr (pt', mt') =>
      ∃ s, run env p w = (inr tt, set_store w d s) ∧ catalog_inv (view s) pt' mt'
  end.

Lemma commit_catalog w d (p : prog unit) ops pt' mt' :
  run env p w = run env (transact d ops) w →
  Forall known_type ops → Forall (fresh w d) ops →
  catalog_inv (apply_values ops (values w d)) pt' mt' →
  refines_catalog w d p (inr (pt', mt')).
Proof.
  intros Hp Hk Hf Hi. destruct (run_transact env d ops w Hk Hf) as (s & Hs & Hv).
  exists s. by rewrite Hp, Hv.
Qed.

(** Writes to provider keys only. *)
Lemma catalog_frame_providers m m' pt pt' mt :
  catalog_inv m pt mt → coll_inv m' pt' →
  (∀ k, ¬ footprint Provider k → m' !! k = m !! k) →
  (∀ id x, mt !! id = Some x → is_Some (pt' !! Model_ProviderID x)) →
  catalog_inv m' pt' mt.
Proof.
  intros [Hp Hm Hix Href] Hp' Hout Href'.
  assert (Hsame : ∀ k, model_key k → m !! k = m' !! k).
  { intros k Hk. symmetry. apply Hout. intros Hf. by apply (model_key_not_provider k). }
  split; [done| | |done].
  - eapply coll_inv_ext; [|done]. intros k Hk. apply Hsame. by left.
  - intros p. eapply indexes_ext; [|done]. apply Hsame. right. by eexists.
Qed.

Lemma run_create_provider w d pt mt p :
  catalog_inv (values w d) pt mt → storable p →
  refines_catalog w d (CreateProvider d p) (with_models (table_create pt p) mt).
Proof.
  intros Hi Hs. pose proof (run_createResource env w d pt p (cat_providers _ _ _ Hi) Hs) as Hr.
  unfold refines_table in Hr. unfold refines_catalog.
  destruct (table_create pt p) as [e|pt'] eqn:Ht; [done|]. destruct Hr as (s & Hr & Hp' & Hout).
  exists s. split; [done|]. eapply catalog_frame_providers; [done..|].
  intros id x Hx. unfold table_create in Ht. case_match; simplify_eq.
  rewrite lookup_insert_is_Some. destruct (decide (ident p = Model_ProviderID x)); [by left|].
  right. split; [done|]. by eapply (cat_ref _ _ _ Hi).
Qed.

Lemma run_replace_provider w d pt mt old p :
  catalog_inv (values w d) pt mt → storable p →
  refines_catalog w d (ReplaceProvider d old p) (with_models (table_replace pt old p) mt).
Proof.
  intros Hi Hs. pose proof (run_replaceResource env w d pt old p (cat_providers _ _ _ Hi) Hs) as Hr.
  unfold refines_table in Hr. unfold refines_catalog.
  destruct (table_replace pt old p) as [e|pt'] eqn:Ht; [done|]. destruct Hr as (s & Hr & Hp' & Hout).
  exists s. split; [done|]. eapply catalog_frame_providers; [done..|].
  intros id x Hx. unfold table_replace in Ht. repeat case_match; simplify_eq.
  rewrite lookup_insert_is_Some. destruct (decide (ident p = Model_ProviderID x)); [by left|].
  right. split; [done|]. by eapply (cat_ref _ _ _ Hi).
Qed.

(** Reading a provider record. *)
Lemma run_readProviderEntry w d pt id :
  coll_inv (values w d) pt →
  run env (readProviderEntry d id) w =
    (match pt !! id with
     | Some p => inr (p, entry_of w d (entityKey "providers" id))
     | None => inl ErrNotFound
     end, w).
Proof.
  intros Hi. unfold readProviderEntry, wrap_err. rewrite run_bind, run_bind_result, run_get.
  cbn -[entry_of]. pose proof (has_entity _ pt id Hi) as Hp. cbn in Hp.
  rewrite (entry_has w d _ _ Hp). destruct (pt !! id) as [p|] eqn:E; [|done]. cbn [Exists negb Value].
  rewrite run_bind, (run_decode_or env) by (by apply Hp). done.
Qed.

Lemma run_providerTouch w d pt id p :
  coll_inv (values w d) pt → pt !! id = Some p →
  run env (providerTouchOperation p (entry_of w d (entityKey "providers" id))) w =
    (inr (upsert (entityKey "providers" id) (enc p)
      (ETag (entry_of w d (entityKey "providers" id)))), w).
Proof.
  intros Hi Hp. destruct (ci_ok _ _ Hi id p Hp) as [Hid Hs]. cbn in Hid.
  unfold providerTouchOperation. rewrite run_bind, (run_encode env) by done. by rewrite Hid.
Qed.

Lemma model_key_entity id : model_key (entityKey "models" id).
Proof. left; left. by exists id. Qed.
Lemma model_key_index : model_key (indexKey "models").
Proof. left; right; by left. Qed.
Lemma model_key_alias x : model_key (lookupKey "model-alias" (Model_Alias x)).
Proof. left; right; right. exists x. by left. Qed.
Lemma model_key_provider p : model_key (modelsByProviderIndexKey p).
Proof. right. by exists p. Qed.

Definition writes_models (o : Operation) : Prop := model_key (op_Key o).
Lemma writes_models_upsert k v e : model_key k → writes_models (upsert k v e).
Proof. done. Qed.
Lemma writes_models_remove k e : model_key k → writes_models (remove k e).
Proof. done. Qed.
#[local] Hint Resolve writes_models_upsert writes_models_remove model_key_entity
  model_key_index model_key_alias model_key_provider List.Forall_cons List.Forall_nil : core.

Lemma providers_kept m ops pt :
  coll_inv m pt → Forall writes_models ops → coll_inv (apply_values ops m) pt.
Proof.
  intros Hi Hw. eapply coll_inv_ext; [|done]. intros k Hk. symmetry. apply apply_values_other.
  intros (o & -> & Ho)%list_elem_of_fmap. rewrite list.Forall_forall in Hw.
  by apply (model_key_not_provider (op_Key o)), Hw.
Qed.

Lemma touch_kept m ops pt id p :
  coll_inv m pt → Forall writes_models ops → pt !! id = Some p →
  apply_values ops m !! entityKey "providers" id = Some (enc p).
Proof.
  intros Hi Hw Hp. pose proof (ci_entity _ _ (providers_kept m ops pt Hi Hw) id) as E.
  cbn in E. by rewrite E, Hp.
Qed.

(** What creating, replacing and deleting a model writes. *)
Definition create_model_ops (x : Model) (ids pids : list string) (etag petag : string)
    : list Operation :=
  [upsert (entityKey "models" (Model_ID x)) (enc x) "";
   upsert (indexKey "models") (enc (addIndexID {| IDs := ids |} (Model_ID x))) etag;
   upsert (lookupKey "model-alias" (Model_Alias x)) (enc (Model_ID x)) "";
   upsert (modelsByProviderIndexKey (Model_ProviderID x))
     (enc (addIndexID {| IDs := pids |} (Model_ID x))) petag].

Lemma create_model_writes m pt mt x ids pids etag petag mt' :
  catalog_inv m pt mt → storable x → is_Some (pt !! Model_ProviderID x) →
  table_create mt x = inr mt' →
  index_at m (indexKey "models") ids → NoDup ids → (∀ id, id ∈ ids ↔ is_Some (mt !! id)) →
  index_at m (modelsByProviderIndexKey (Model_ProviderID x)) pids → NoDup pids →
  (∀ id, id ∈ pids ↔ ∃ y, mt !! id = Some y ∧ Model_ProviderID y = Model_ProviderID x) →
  catalog_inv (apply_values (create_model_ops x ids pids etag petag) m) pt mt'.
Proof.
  intros Hi Hs Hp Ht Hix Hnd HP Hpix Hpnd HpP.
  unfold table_create in Ht. case_bool_decide as Hx; [done|]. cbn in Ht, Hx.
  destruct (clashes mt x) eqn:Hc; simplify_eq. apply eq_None_not_Some in Hx.
  split.
  - apply providers_kept; [by apply Hi|]. unfold create_model_ops. auto 10.
  - epose proof (coll_inv_put (T := Model) m _ mt x) as Q; apply Q; clear Q; try done; [by apply Hi|..].
    all: unfold create_model_ops; rewrite !apply_values_upsert; cbn [apply_values foldl];
      cbn [coll_name ident Model_Collection].
    + by kv.
    + intros id Hne. by kv.
    + apply (indexes_ext (<[indexKey "models" :=
        enc (addIndexID {| IDs := ids |} (Model_ID x))]> m)); [by kv|].
      by eapply indexes_add; [..|apply Hs].
    + intros k Hk. member_cases. subst. by kv.
    + intros old k Hold. congruence.
    + intros y k Hk Hkx _. assert (lookupKey "model-alias" (Model_Alias x) ≠ k).
      { intros <-. apply Hkx. by left. }
      member_cases. subst k. by kv.
  - intros p. unfold create_model_ops. rewrite !apply_values_upsert. cbn [apply_values foldl].
    destruct (decide (p = Model_ProviderID x)) as [->|Hne].
    + eapply indexes_iff; [|exact (indexes_add m _ pids (Model_ID x) _ Hpix Hpnd HpP (proj1 Hs) _)].
      intros id. cbn. split.
      * intros [->|(y & Hy & Hyp)]; [exists x; by rewrite lookup_insert_eq|].
        exists y. split; [|done]. rewrite lookup_insert_ne; [done|]. congruence.
      * intros (y & [[<- <-]|[_ Hy]]%lookup_insert_Some & Hyp); [by left|right; eauto].
    + apply (indexes_ext m); [symmetry; by kv|].
      eapply indexes_iff; [|apply (cat_index _ _ _ Hi p)]. intros id. cbn. split.
      * intros (y & Hy & Hyp). exists y. split; [|done].
        rewrite lookup_insert_ne; [done|]. congruence.
      * intros (y & [[<- <-]|[_ Hy]]%lookup_insert_Some & Hyp); [done|eauto].
  - intros id y [[<- <-]|[_ Hy]]%lookup_insert_Some; [done|]. by eapply (cat_ref _ _ _ Hi).
Qed.

Lemma alias_free m mt x :
  coll_inv m mt → mt !! Model_ID x = None →
  clashes mt x = bool_decide (is_Some (m !! lookupKey "model-alias" (Model_Alias x))).
Proof.
  intros Hi Hx. pose proof (absent_clashes m mt x Hi Hx) as E. cbn in E.
  destruct (m !! lookupKey _ _) as [v|]; cbn in E; destruct (clashes mt x); try done.
Qed.

Lemma check_ok w (e : option error) :
  run env (check e) w = (match e with Some e => inl e | None => inr tt end, w).
Proof. by destruct e. Qed.

Abbreviation provider_touch w d id p :=
  (upsert (entityKey "providers" id) (enc p) (ETag (entry_of w d (entityKey "providers" id)))).

Lemma run_CreateModel_ops w d pt mt x p ids pids :
  catalog_inv (values w d) pt mt → storable x →
  index_at (values w d) (indexKey "models") ids →
  index_at (values w d) (modelsByProviderIndexKey (Model_ProviderID x)) pids →
  pt !! Model_ProviderID x = p →
  run env (CreateModel d x) w =
    match table_create mt x, p, backed pt x with
    | inl e, _, _ | _, _, Some e => (inl e, w)
    | inr _, None, None => (inl ErrNotFound, w)
    | inr _, Some p, None => run env (transact d
        (create_model_ops x ids pids (ETag (entry_of w d (indexKey "models")))
           (ETag (entry_of w d (modelsByProviderIndexKey (Model_ProviderID x)))) ++
         [provider_touch w d (Model_ProviderID x) p])) w
    end.
Proof.
  intros Hi Hs Hix Hpix Hp. pose proof (cat_models _ _ _ Hi) as Hm.
  unfold CreateModel, table_create. erewrite run_step by apply run_get. cbv beta iota.
  pose proof (has_entity _ mt (Model_ID x) Hm) as Hx. cbn [coll_name Model_Collection] in Hx.
  rewrite (entry_has w d _ _ Hx). change (ident x) with (Model_ID x).
  destruct (mt !! Model_ID x) as [y|] eqn:Hxid; [done|]. cbn [Exists no_entry].
  rewrite (bool_decide_eq_false_2 (is_Some None)) by (by intros [? ?]). cbn [orb].
  rewrite (alias_free _ _ _ Hm Hxid).
  erewrite run_step by apply run_get. cbv beta iota zeta. unfold entry_of at 1.
  destruct (values w d !! lookupKey "model-alias" (Model_Alias x)) as [v|]; [done|].
  cbn [Exists no_entry]. rewrite (bool_decide_eq_false_2 (is_Some None)) by (by intros [? ?]).
  erewrite run_step by (apply run_readProviderEntry; apply Hi). unfold backed. rewrite Hp.
  destruct p as [p|]; [|done]. erewrite run_step by apply check_ok.
  destruct (ensureProviderCanBackModel p x); [done|].
  erewrite run_step by (by apply run_readIndex). cbv beta iota zeta.
  erewrite run_step by (by apply run_readIndex). cbv beta iota zeta.
  erewrite run_step by (by refine (run_encode env _ _ _)). cbv beta iota.
  erewrite run_step by (refine (run_encode env _ _ (addIndexID_storable _ _ _ _));
    [by eapply index_storable|by apply Hs]). cbv beta iota.
  erewrite run_step by (refine (run_encode env _ _ (addIndexID_storable _ _ _ _));
    [by eapply index_storable|by apply Hs]). cbv beta iota.
  erewrite run_step by (refine (run_encode env _ _ _); apply Hs). cbv beta iota.
  by erewrite run_step by (eapply run_providerTouch; [by apply Hi|done]).
Qed.

#[local] Hint Resolve fresh_upsert fresh_upsert_blind fresh_remove fresh_remove_blind
  known_upsert known_remove : core.

Lemma provider_index w d pt mt p :
  catalog_inv (values w d) pt mt →
  ∃ pids, index_at (values w d) (modelsByProviderIndexKey p) pids ∧ NoDup pids ∧
    ∀ id, id ∈ pids ↔ ∃ y, mt !! id = Some y ∧ Model_ProviderID y = p.
Proof. intros Hi. apply (cat_index _ _ _ Hi p). Qed.

Lemma run_CreateModel w d pt mt x :
  catalog_inv (values w d) pt mt → storable x →
  refines_catalog w d (CreateModel d x) (spec_CreateModel (pt, mt) x).
Proof.
  intros Hi Hs. destruct (ci_index _ _ (cat_models _ _ _ Hi)) as (ids & Hix & Hnd & HP).
  destruct (provider_index _ _ _ _ (Model_ProviderID x) Hi) as (pids & Hpix & Hpnd & HpP).
  pose proof (run_CreateModel_ops w d pt mt x _ ids pids Hi Hs Hix Hpix eq_refl) as Hrun.
  unfold spec_CreateModel. destruct (table_create mt x) as [e|mt'] eqn:Ht; [done|].
  unfold backed in *. destruct (pt !! Model_ProviderID x) as [p|] eqn:Hp; [|done].
  destruct (ensureProviderCanBackModel p x); [done|].
  eapply commit_catalog; [exact Hrun|unfold create_model_ops; cbn [app]; auto 20..|].
  rewrite apply_values_touch.
  - by eapply create_model_writes.
  - eapply touch_kept; [by apply Hi| |done]. unfold create_model_ops. auto 10.
Qed.

Lemma by_provider_insert mt x p i :
  (∃ y, <[Model_ID x := x]> mt !! i = Some y ∧ Model_ProviderID y = p) ↔
  (i = Model_ID x ∧ Model_ProviderID x = p) ∨
  (i ≠ Model_ID x ∧ ∃ y, mt !! i = Some y ∧ Model_ProviderID y = p).
Proof.
  destruct (decide (i = Model_ID x)) as [->|Hne].
  - rewrite lookup_insert_eq. naive_solver.
  - rewrite lookup_insert_ne by done. naive_solver.
Qed.

(** The model, its alias and the global index after a replace whose other
    writes are indexes by provider. *)
Lemma replace_model_writes m mt x old ops etag :
  coll_inv m mt → storable x → mt !! Model_ID x = Some old →
  Model_Alias old = Model_Alias x → clashes mt x = false →
  Forall (λ o, ∃ p, op_Key o = modelsByProviderIndexKey p) ops →
  coll_inv (apply_values (upsert (entityKey "models" (Model_ID x)) (enc x) etag ::
    upsert (lookupKey "model-alias" (Model_Alias x)) (enc (Model_ID x)) "" :: ops) m)
    (<[Model_ID x := x]> mt).
Proof.
  intros Hi Hs Hold Ha Hc Hops. rewrite !apply_values_upsert.
  assert (Hother : ∀ m' k, footprint Model k → apply_values ops m' !! k = m' !! k).
  { intros m' k Hf. apply apply_values_other. intros (o & -> & Ho)%list_elem_of_fmap.
    rewrite list.Forall_forall in Hops. destruct (Hops o Ho) as [p Hp].
    rewrite Hp in Hf. destruct Hf as [[id E]|[E|[y Hy]]]; key_ne. }
  epose proof (coll_inv_put (T := Model) m _ mt x) as Q; apply Q; clear Q; try done;
    cbn [coll_name ident Model_Collection].
  - rewrite Hother by (left; by eexists). by kv.
  - intros id Hne. rewrite Hother by (left; by eexists). by kv.
  - apply (indexes_ext m); [rewrite Hother by (right; by left); by kv|].
    eapply indexes_iff; [|apply (ci_index _ _ Hi)]. intros id. cbn.
    split; [by right|]. by intros [->|?]; [rewrite Hold|].
  - intros k Hk. rewrite Hother by (right; right; by exists x). member_cases. subst. by kv.
  - intros old' k Hold' Hk Hkx. simplify_eq. exfalso. apply Hkx. member_cases. subst.
    rewrite Ha. by left.
  - intros y k Hk Hkx _. rewrite Hother by (right; right; by exists y).
    assert (lookupKey "model-alias" (Model_Alias x) ≠ k).
    { intros <-. apply Hkx. by left. }
    member_cases. subst k. by kv.
Qed.

Lemma table_replace_inr mt old x mt' :
  table_replace mt old x = inr mt' →
  mt !! Model_ID x = Some old ∧ clashes mt x = false ∧ mt' = <[Model_ID x := x]> mt.
Proof.
  unfold table_replace. cbn. destruct (mt !! Model_ID x) as [cur|]; [|done].
  case_bool_decide as E; [subst cur|done]. cbn. destruct (clashes mt x); [done|].
  by intros [= <-].
Qed.

Lemma replace_same_writes m pt mt x old pids etag petag :
  catalog_inv m pt mt → storable x → is_Some (pt !! Model_ProviderID x) →
  mt !! Model_ID x = Some old → Model_Alias old = Model_Alias x → clashes mt x = false →
  Model_ProviderID x = Model_ProviderID old →
  index_at m (modelsByProviderIndexKey (Model_ProviderID x)) pids → NoDup pids →
  (∀ id, id ∈ pids ↔ ∃ y, mt !! id = Some y ∧ Model_ProviderID y = Model_ProviderID x) →
  catalog_inv (apply_values
    [upsert (entityKey "models" (Model_ID x)) (enc x) etag;
     upsert (lookupKey "model-alias" (Model_Alias x)) (enc (Model_ID x)) "";
     upsert (modelsByProviderIndexKey (Model_ProviderID x))
       (enc (addIndexID {| IDs := pids |} (Model_ID x))) petag] m) pt (<[Model_ID x := x]> mt).
Proof.
  intros Hi Hs Hp Hold Ha Hc Hsame Hpix Hpnd HpP. split.
  - apply providers_kept; [by apply Hi|]. auto 10.
  - eapply replace_model_writes; try done; [by apply Hi|].
    repeat constructor. by eexists.
  - intros p. rewrite !apply_values_upsert. cbn [apply_values foldl].
    destruct (decide (p = Model_ProviderID x)) as [->|Hne].
    + eapply indexes_iff; [|exact (indexes_add m _ pids (Model_ID x) _ Hpix Hpnd HpP (proj1 Hs) _)].
      intros id. rewrite by_provider_insert. destruct (decide (id = Model_ID x)); naive_solver.
    + apply (indexes_ext m); [by kv|].
      eapply indexes_iff; [|apply (cat_index _ _ _ Hi p)]. intros id. cbn.
      rewrite by_provider_insert. destruct (decide (id = Model_ID x)) as [->|?]; naive_solver.
  - intros id y [[<- <-]|[_ Hy]]%lookup_insert_Some; [done|]. by eapply (cat_ref _ _ _ Hi).
Qed.

Lemma replace_move_writes m pt mt x old oids nids etag oetag netag :
  catalog_inv m pt mt → storable x → is_Some (pt !! Model_ProviderID x) →
  mt !! Model_ID x = Some old → Model_Alias old = Model_Alias x → clashes mt x = false →
  Model_ProviderID x ≠ Model_ProviderID old →
  index_at m (modelsByProviderIndexKey (Model_ProviderID old)) oids → NoDup oids →
  (∀ id, id ∈ oids ↔ ∃ y, mt !! id = Some y ∧ Model_ProviderID y = Model_ProviderID old) →
  index_at m (modelsByProviderIndexKey (Model_ProviderID x)) nids → NoDup nids →
  (∀ id, id ∈ nids ↔ ∃ y, mt !! id = Some y ∧ Model_ProviderID y = Model_ProviderID x) →
  catalog_inv (apply_values
    [upsert (entityKey "models" (Model_ID x)) (enc x) etag;
     upsert (lookupKey "model-alias" (Model_Alias x)) (enc (Model_ID x)) "";
     upsert (modelsByProviderIndexKey (Model_ProviderID old))
       (enc (removeIndexID {| IDs := oids |} (Model_ID x))) oetag;
     upsert (modelsByProviderIndexKey (Model_ProviderID x))
       (enc (addIndexID {| IDs := nids |} (Model_ID x))) netag] m) pt (<[Model_ID x := x]> mt).
Proof.
  intros Hi Hs Hp Hold Ha Hc Hmove Hoix Hond HoP Hnix Hnnd HnP. split.
  - apply providers_kept; [by apply Hi|]. auto 10.
  - eapply replace_model_writes; try done; [by apply Hi|].
    repeat constructor; by eexists.
  - intros p. rewrite !apply_values_upsert. cbn [apply_values foldl].
    destruct (decide (p = Model_ProviderID x)) as [->|Hne].
    { eapply indexes_iff; [|exact (indexes_add m _ nids (Model_ID x) _ Hnix Hnnd HnP (proj1 Hs) _)].
      intros id. rewrite by_provider_insert. destruct (decide (id = Model_ID x)); naive_solver. }
    destruct (decide (p = Model_ProviderID old)) as [->|Hno].
    + eapply indexes_ext; [symmetry; apply lookup_insert_ne; kv_ne|].
      eapply indexes_iff; [|exact (indexes_remove m _ oids (Model_ID x) _ Hoix Hond HoP _)].
      intros id. cbn. rewrite by_provider_insert. naive_solver.
    + apply (indexes_ext m); [by kv|].
      eapply indexes_iff; [|apply (cat_index _ _ _ Hi p)]. intros id. cbn.
      rewrite by_provider_insert. destruct (decide (id = Model_ID x)) as [->|?]; naive_solver.
  - intros id y [[<- <-]|[_ Hy]]%lookup_insert_Some; [done|]. by eapply (cat_ref _ _ _ Hi).
Qed.

(** The common start of [ReplaceModel]: every check up to the providers. *)
Lemma owned_alias m mt x :
  coll_inv m mt → storable x →
  forallb (owned_by m (Model_ID x)) [lookupKey "model-alias" (Model_Alias x)] =
  negb (clashes mt x).
Proof. intros Hi Hs. exact (owned_clashes (T := Model) m mt x Hi (proj1 Hs)). Qed.

Lemma run_guard {A} (c : bool) e (f : unit → prog A) w :
  run env (guard_err c e ≫= f) w = if c then (inl e, w) else run env (f tt) w.
Proof. by destruct c. Qed.

Ltac step_encode :=
  erewrite run_step by (refine (run_encode env _ _ _);
    first [ done | by eapply index_storable
          | apply addIndexID_storable; [by eapply index_storable|done]
          | apply removeIndexID_storable; by eapply index_storable ]);
  cbv beta iota.

(** [ReplaceModel] up to its reads of providers and indexes. *)
Definition replace_model_tail d (old x : Model) (etag : string) : prog unit :=
  let aliasKey := lookupKey "model-alias" (Model_Alias x) in
  '(oldProvider, oldProviderEntry) ← readProviderEntry d (Model_ProviderID old);
  let same := bool_decide (Model_ProviderID x = Model_ProviderID old) in
  '(newProvider, newProviderEntry) ←
    (if same then mret (oldProvider, oldProviderEntry)
     else readProviderEntry d (Model_ProviderID x));
  _ ← check (ensureProviderCanBackModel newProvider x);
  '(oldIndex, oldIndexETag) ← readIndex d (modelsByProviderIndexKey (Model_ProviderID old));
  '(newIndex, newIndexETag) ←
    (if same then mret (oldIndex, oldIndexETag)
     else readIndex d (modelsByProviderIndexKey (Model_ProviderID x)));
  let oldIndex := if same then oldIndex else removeIndexID oldIndex (Model_ID x) in
  let newIndex := addIndexID newIndex (Model_ID x) in
  modelValue ← encode x;
  oldIndexValue ← encode oldIndex;
  newIndexValue ← encode newIndex;
  aliasValue ← encode (Model_ID x);
  oldProviderTouch ← providerTouchOperation oldProvider oldProviderEntry;
  let operations :=
    [upsert (entityKey "models" (Model_ID x)) modelValue etag;
     upsert aliasKey aliasValue ""] in
  if same then
    transact d (operations ++
      [upsert (modelsByProviderIndexKey (Model_ProviderID x)) newIndexValue newIndexETag;
       oldProviderTouch])
  else
    newProviderTouch ← providerTouchOperation newProvider newProviderEntry;
    transact d (operations ++
      [upsert (modelsByProviderIndexKey (Model_ProviderID old)) oldIndexValue oldIndexETag;
       upsert (modelsByProviderIndexKey (Model_ProviderID x)) newIndexValue newIndexETag;
       oldProviderTouch; newProviderTouch]).

Lemma run_ReplaceModel_start w d pt mt old x :
  catalog_inv (values w d) pt mt → storable x →
  Model_ID old = Model_ID x → Model_Alias old = Model_Alias x →
  run env (ReplaceModel d old x) w =
    match table_replace mt old x with
    | inl e => (inl e, w)
    | inr _ => run env (replace_model_tail d old x
                 (ETag (entry_of w d (entityKey "models" (Model_ID x))))) w
    end.
Proof.
  intros Hi Hs Hid Hal. pose proof (cat_models _ _ _ Hi) as Hm.
  unfold ReplaceModel, table_replace. cbn [ident Model_Collection].
  rewrite !run_guard, !(bool_decide_eq_true_2 (_ old = _ x)) by done. cbn [negb].
  erewrite run_step by apply run_get. cbv beta iota.
  pose proof (has_entity _ mt (Model_ID x) Hm) as Hx. cbn [coll_name Model_Collection] in Hx.
  pose proof (entry_has w d _ _ Hx) as He.
  destruct (mt !! Model_ID x) as [y|] eqn:Hxid; [|by rewrite He].
  rewrite He at 1. cbn [Exists negb]. rewrite He at 1. cbn [Value].
  erewrite run_step by (refine (run_decode_or env _ _ _ _); by apply Hx). cbv beta iota.
  destruct (bool_decide (y = old)); [|done]. cbn [negb orb].
  erewrite run_step by apply run_check_owned. rewrite (owned_alias _ _ _ Hm Hs).
  by destruct (clashes mt x).
Qed.

Lemma run_replace_tail_same w d pt mt old x p pids etag :
  catalog_inv (values w d) pt mt → storable x →
  Model_ProviderID x = Model_ProviderID old → pt !! Model_ProviderID x = Some p →
  index_at (values w d) (modelsByProviderIndexKey (Model_ProviderID x)) pids →
  run env (replace_model_tail d old x etag) w =
    match ensureProviderCanBackModel p x with
    | Some e => (inl e, w)
    | None => run env (transact d
        ([upsert (entityKey "models" (Model_ID x)) (enc x) etag;
          upsert (lookupKey "model-alias" (Model_Alias x)) (enc (Model_ID x)) "";
          upsert (modelsByProviderIndexKey (Model_ProviderID x))
            (enc (addIndexID {| IDs := pids |} (Model_ID x)))
            (ETag (entry_of w d (modelsByProviderIndexKey (Model_ProviderID x))))] ++
         [provider_touch w d (Model_ProviderID x) p])) w
    end.
Proof.
  intros Hi Hs Hsame Hp Hpix. unfold replace_model_tail. rewrite <- Hsame.
  rewrite bool_decide_eq_true_2 by done.
  erewrite run_step by (apply run_readProviderEntry; apply Hi). rewrite Hp. cbv beta iota zeta.
  erewrite (run_step env (mret _)) by done. cbv beta iota. erewrite run_step by apply check_ok.
  destruct (ensureProviderCanBackModel p x); [done|].
  erewrite run_step by (by apply run_readIndex). cbv beta iota zeta.
  erewrite (run_step env (mret _)) by done. cbv beta iota zeta.
  assert (Hmid : storable (Model_ID x)) by apply Hs.
  do 4 step_encode.
  by erewrite run_step by (eapply run_providerTouch; [by apply Hi|done]).
Qed.

Lemma run_replace_tail_move w d pt mt old x po pn oids nids etag :
  catalog_inv (values w d) pt mt → storable x →
  Model_ProviderID x ≠ Model_ProviderID old →
  pt !! Model_ProviderID old = Some po → pt !! Model_ProviderID x = pn →
  index_at (values w d) (modelsByProviderIndexKey (Model_ProviderID old)) oids →
  index_at (values w d) (modelsByProviderIndexKey (Model_ProviderID x)) nids →
  run env (replace_model_tail d old x etag) w =
    match pn, backed pt x with
    | Some pn, None => run env (transact d
        ([upsert (entityKey "models" (Model_ID x)) (enc x) etag;
          upsert (lookupKey "model-alias" (Model_Alias x)) (enc (Model_ID x)) "";
          upsert (modelsByProviderIndexKey (Model_ProviderID old))
            (enc (removeIndexID {| IDs := oids |} (Model_ID x)))
            (ETag (entry_of w d (modelsByProviderIndexKey (Model_ProviderID old))));
          upsert (modelsByProviderIndexKey (Model_ProviderID x))
            (enc (addIndexID {| IDs := nids |} (Model_ID x)))
            (ETag (entry_of w d (modelsByProviderIndexKey (Model_ProviderID x))));
          provider_touch w d (Model_ProviderID old) po] ++
         [provider_touch w d (Model_ProviderID x) pn])) w
    | _, Some e => (inl e, w)
    | None, None => (inl ErrNotFound, w)
    end.
Proof.
  intros Hi Hs Hmove Hpo Hpn Hoix Hnix. unfold replace_model_tail, backed. rewrite Hpn.
  rewrite bool_decide_eq_false_2 by done.
  erewrite run_step by (apply run_readProviderEntry; apply Hi). rewrite Hpo. cbv beta iota zeta.
  erewrite run_step by (apply run_readProviderEntry; apply Hi). rewrite Hpn.
  destruct pn as [pn|]; [|done]. cbv beta iota zeta. erewrite run_step by apply check_ok.
  destruct (ensureProviderCanBackModel pn x); [done|].
  erewrite run_step by (by apply run_readIndex). cbv beta iota zeta.
  erewrite run_step by (by apply run_readIndex). cbv beta iota zeta.
  assert (Hmid : storable (Model_ID x)) by apply Hs.
  do 4 step_encode.
  erewrite run_step by (eapply run_providerTouch; [by apply Hi|done]). cbv beta iota zeta.
  by erewrite run_step by (eapply run_providerTouch; [by apply Hi|done]).
Qed.

Lemma run_ReplaceModel w d pt mt old x :
  catalog_inv (values w d) pt mt → storable x →
  refines_catalog w d (ReplaceModel d old x) (spec_ReplaceModel (pt, mt) old x).
Proof.
  intros Hi Hs. unfold spec_ReplaceModel.
  destruct (decide (Model_ID old = Model_ID x)) as [Hid|Hid]; cycle 1.
  { rewrite bool_decide_eq_false_2 by done. unfold refines_catalog, ReplaceModel. cbn [negb].
    by rewrite run_guard, bool_decide_eq_false_2. }
  destruct (decide (Model_Alias old = Model_Alias x)) as [Hal|Hal]; cycle 1.
  { rewrite bool_decide_eq_true_2, bool_decide_eq_false_2 by done. cbn [negb].
    unfold refines_catalog, ReplaceModel.
    by rewrite !run_guard, bool_decide_eq_true_2, bool_decide_eq_false_2. }
  rewrite !bool_decide_eq_true_2 by done. cbn [negb].
  pose proof (run_ReplaceModel_start w d pt mt old x Hi Hs Hid Hal) as Hrun.
  destruct (table_replace mt old x) as [e|mt'] eqn:Ht; [done|].
  apply table_replace_inr in Ht as (Hold & Hc & ->).
  destruct (cat_ref _ _ _ Hi _ _ Hold) as [po Hpo].
  destruct (provider_index _ _ _ _ (Model_ProviderID x) Hi) as (nids & Hnix & Hnnd & HnP).
  destruct (decide (Model_ProviderID x = Model_ProviderID old)) as [Hsame|Hmove].
  - rewrite <- Hsame in Hpo. unfold backed. rewrite Hpo.
    rewrite (run_replace_tail_same w d pt mt old x po nids) in Hrun by done.
    destruct (ensureProviderCanBackModel po x); [done|].
    eapply commit_catalog; [exact Hrun|cbn [app]; auto 20..|].
    rewrite apply_values_touch; [by eapply replace_same_writes|].
    eapply touch_kept; [by apply Hi| |done]. auto 10.
  - destruct (provider_index _ _ _ _ (Model_ProviderID old) Hi) as (oids & Hoix & Hond & HoP).
    rewrite (run_replace_tail_move w d pt mt old x po _ oids nids _ Hi Hs Hmove Hpo eq_refl)
      in Hrun by done.
    unfold backed in *. destruct (pt !! Model_ProviderID x) as [pn|] eqn:Hpn; [|done].
    destruct (ensureProviderCanBackModel pn x); [done|].
    eapply commit_catalog; [exact Hrun|cbn [app]; auto 20..|].
    assert (Hkept : ∀ ops id p, Forall writes_models ops → pt !! id = Some p →
      apply_values ops (values w d) !! entityKey "providers" id = Some (enc p)).
    { intros ops id p Hops Hp. eapply touch_kept; [by apply Hi|done|done]. }
    lazymatch goal with |- catalog_inv (apply_values ([?a; ?b; ?c; ?e; ?t1] ++ ?t2) _) _ _ =>
      change ([a; b; c; e; t1] ++ t2) with (([a; b; c; e] ++ [t1]) ++ t2) end.
    rewrite apply_values_app, apply_values_touch, <- apply_values_app, apply_values_touch
      by (apply Hkept; [auto 10|done]).
    by eapply replace_move_writes.
Qed.

Lemma table_delete_inr {T} `{Collection T} `{!EqDecision T} (t t' : gmap string T) x :
  table_delete t x = inr t' → t !! ident x = Some x ∧ t' = delete (ident x) t.
Proof.
  unfold table_delete. destruct (t !! ident x) as [cur|]; [|done].
  case_bool_decide as E; [subst cur|done]. by intros [= <-].
Qed.

Definition delete_model_ops w d (x : Model) (ids pids : list string) : list Operation :=
  [remove (entityKey "models" (Model_ID x)) (ETag (entry_of w d (entityKey "models" (Model_ID x))));
   upsert (indexKey "models") (enc (removeIndexID {| IDs := ids |} (Model_ID x)))
     (ETag (entry_of w d (indexKey "models")));
   upsert (modelsByProviderIndexKey (Model_ProviderID x))
     (enc (removeIndexID {| IDs := pids |} (Model_ID x)))
     (ETag (entry_of w d (modelsByProviderIndexKey (Model_ProviderID x))));
   remove (lookupKey "model-alias" (Model_Alias x)) ""].

Lemma delete_model_writes w d pt mt x ids pids :
  catalog_inv (values w d) pt mt → mt !! Model_ID x = Some x →
  index_at (values w d) (indexKey "models") ids → NoDup ids →
  (∀ id, id ∈ ids ↔ is_Some (mt !! id)) →
  index_at (values w d) (modelsByProviderIndexKey (Model_ProviderID x)) pids → NoDup pids →
  (∀ id, id ∈ pids ↔ ∃ y, mt !! id = Some y ∧ Model_ProviderID y = Model_ProviderID x) →
  catalog_inv (apply_values (delete_model_ops w d x ids pids) (values w d)) pt
    (delete (Model_ID x) mt).
Proof.
  intros Hi Hx Hix Hnd HP Hpix Hpnd HpP. split.
  - apply providers_kept; [by apply Hi|]. unfold delete_model_ops. auto 10.
  - epose proof (coll_inv_drop (T := Model) (values w d) _ mt x) as Q; apply Q; clear Q; try done;
      [by apply Hi|..]; unfold delete_model_ops;
      rewrite !apply_values_remove, !apply_values_upsert, apply_values_remove;
      cbn [apply_values foldl coll_name ident Model_Collection].
    + by kv.
    + intros id Hne. by kv.
    + apply (indexes_ext (<[indexKey "models" :=
        enc (removeIndexID {| IDs := ids |} (Model_ID x))]> (values w d))); [by kv|].
      by eapply indexes_remove.
    + intros k Hk. member_cases. subst. by kv.
    + intros y k Hk Hkx. assert (lookupKey "model-alias" (Model_Alias x) ≠ k).
      { intros <-. apply Hkx. by left. }
      member_cases. subst k. by kv.
  - intros p. unfold delete_model_ops.
    rewrite !apply_values_remove, !apply_values_upsert, apply_values_remove.
    cbn [apply_values foldl].
    destruct (decide (p = Model_ProviderID x)) as [->|Hne].
    + eapply indexes_ext; [symmetry; apply lookup_delete_ne; kv_ne|].
      eapply indexes_iff; [|exact (indexes_remove _ _ pids (Model_ID x) _ Hpix Hpnd HpP _)].
      intros id. cbn. setoid_rewrite lookup_delete_Some. naive_solver.
    + apply (indexes_ext (values w d)); [by kv|].
      eapply indexes_iff; [|apply (cat_index _ _ _ Hi p)]. intros id. cbn.
      setoid_rewrite lookup_delete_Some. naive_solver.
  - intros id y [_ Hy]%lookup_delete_Some. by eapply (cat_ref _ _ _ Hi).
Qed.

Lemma run_DeleteModel w d pt mt x :
  catalog_inv (values w d) pt mt →
  refines_catalog w d (DeleteModel d x) (spec_DeleteModel (pt, mt) x).
Proof.
  intros Hi. pose proof (cat_models _ _ _ Hi) as Hm.
  destruct (ci_index _ _ Hm) as (ids & Hix & Hnd & HP).
  destruct (provider_index _ _ _ _ (Model_ProviderID x) Hi) as (pids & Hpix & Hpnd & HpP).
  assert (Hrun : run env (DeleteModel d x) w =
    match table_delete mt x, pt !! Model_ProviderID x with
    | inl e, _ => (inl e, w)
    | inr _, Some p => run env (transact d
        (delete_model_ops w d x ids pids ++ [provider_touch w d (Model_ProviderID x) p])) w
    | inr _, None => run env (transact d (delete_model_ops w d x ids pids)) w
    end).
  { unfold DeleteModel, table_delete. erewrite run_step by apply run_get. cbv beta iota.
    pose proof (has_entity _ mt (Model_ID x) Hm) as Hx. cbn [coll_name Model_Collection] in Hx.
    pose proof (entry_has w d _ _ Hx) as He. cbn [ident Model_Collection].
    destruct (mt !! Model_ID x) as [y|] eqn:Hxid; [|by rewrite He].
    rewrite He at 1. cbn [Exists negb]. rewrite He at 1. cbn [Value].
    erewrite run_step by (refine (run_decode_or env _ _ _ _); by apply Hx). cbv beta iota.
    destruct (bool_decide (y = x)); [|done]. cbn [negb].
    erewrite run_step by (by apply run_readIndex). cbv beta iota zeta.
    erewrite run_step by (by apply run_readIndex). cbv beta iota zeta.
    do 2 step_encode. rewrite run_bind_result, (run_readProviderEntry w d pt) by apply Hi.
    destruct (pt !! Model_ProviderID x) as [p|] eqn:Hp; [|done]. cbv beta iota.
    by erewrite run_step by (eapply run_providerTouch; [by apply Hi|done]). }
  unfold spec_DeleteModel. destruct (table_delete mt x) as [e|mt'] eqn:Ht; [done|].
  apply table_delete_inr in Ht as [Hx ->]. cbn [ident Model_Collection] in *.
  destruct (cat_ref _ _ _ Hi _ _ Hx) as [p Hp]. rewrite Hp in Hrun.
  eapply commit_catalog; [exact Hrun|unfold delete_model_ops; cbn [app]; auto 20..|].
  rewrite apply_values_touch; [by apply delete_model_writes|].
  eapply touch_kept; [by apply Hi| |done]. unfold delete_model_ops. auto 10.
Qed.

Lemma models_of_index m pt mt p pids :
  catalog_inv m pt mt →
  (∀ id, id ∈ pids ↔ ∃ y, mt !! id = Some y ∧ Model_ProviderID y = p) →
  bool_decide (pids = []) = negb (models_of mt p).
Proof.
  intros Hi HP. apply eq_true_iff_eq. rewrite bool_decide_eq_true, negb_true_iff.
  rewrite <- not_true_iff_false. unfold models_of. rewrite existsb_elem. split.
  - intros -> ([id y] & Hin & E). apply elem_of_map_to_list in Hin.
    apply bool_decide_eq_true in E.
    assert (id ∈ @nil string) as []%elem_of_nil. apply HP. eauto.
  - intros Hno. destruct pids as [|id pids]; [done|]. exfalso.
    destruct (proj1 (HP id) (list_elem_of_here _ _)) as (y & Hy & Hp). apply Hno.
    exists (id, y). rewrite bool_decide_eq_true. split; [by apply elem_of_map_to_list|done].
Qed.

(** Deleting the provider record, its lookups and its entry of the index. *)
Definition delete_provider_ops w d (p : Provider) (ids : list string) : list Operation :=
  remove (entityKey "providers" (Provider_ID p))
    (ETag (entry_of w d (entityKey "providers" (Provider_ID p))))
  :: upsert (indexKey "providers") (enc (removeIndexID {| IDs := ids |} (Provider_ID p)))
       (ETag (entry_of w d (indexKey "providers")))
  :: lookup_deletes (lookup_keys p).

Lemma delete_provider_writes w d pt mt p ids m' :
  catalog_inv (values w d) pt mt → pt !! Provider_ID p = Some p →
  models_of mt (Provider_ID p) = false →
  index_at (values w d) (indexKey "providers") ids → NoDup ids →
  (∀ id, id ∈ ids ↔ is_Some (pt !! id)) →
  (m' = apply_values (delete_provider_ops w d p ids) (values w d) ∨
   m' = delete (modelsByProviderIndexKey (Provider_ID p))
          (apply_values (delete_provider_ops w d p ids) (values w d))) →
  catalog_inv m' (delete (Provider_ID p) pt) mt.
Proof.
  intros Hi Hp Hno Hix Hnd HP Hm'.
  set (m1 := apply_values (delete_provider_ops w d p ids) (values w d)) in *.
  assert (Hout : ∀ k, model_key k → m1 !! k = values w d !! k).
  { intros k Hk. apply apply_values_other. intros (o & -> & Ho)%list_elem_of_fmap.
    apply (model_key_not_provider (op_Key o)); [|done]. clear Hk. revert o Ho.
    apply list.Forall_forall, List.Forall_cons; [by left; eexists|].
    apply List.Forall_cons; [by right; left|].
    apply list.Forall_fmap, list.Forall_forall. intros k Hk. right; right. by exists p. }
  assert (Hno' : ∀ y id, mt !! id = Some y → Model_ProviderID y ≠ Provider_ID p).
  { intros y id Hy E. apply not_true_iff_false in Hno. apply Hno. unfold models_of.
    apply existsb_elem. exists (id, y). rewrite bool_decide_eq_true.
    by rewrite elem_of_map_to_list. }
  assert (Hc1 : coll_inv m1 (delete (Provider_ID p) pt)).
  { exact (delete_writes (T := Provider) _ pt p ids (cat_providers _ _ _ Hi) Hp Hix Hnd HP). }
  assert (Hsame : ∀ k, k ≠ modelsByProviderIndexKey (Provider_ID p) → m' !! k = m1 !! k).
  { intros k Hk. destruct Hm' as [->| ->]; [done|]. by rewrite lookup_delete_ne. }
  split.
  - eapply coll_inv_ext; [|exact Hc1]. intros k Hk. symmetry. apply Hsame.
    intros ->. by apply (model_key_not_provider _ Hk), model_key_provider.
  - eapply coll_inv_ext; [|exact (cat_models _ _ _ Hi)]. intros k Hk. rewrite Hsame.
    + symmetry. apply Hout. by left.
    + destruct Hk as [[id ->]|[->|[y Hy]]]; [kv_ne|kv_ne|]. member_cases. subst. kv_ne.
  - intros q. destruct (decide (q = Provider_ID p)) as [->|Hne].
    + destruct Hm' as [->| ->].
      * apply (indexes_ext (values w d)); [|apply (cat_index _ _ _ Hi)].
        symmetry. by apply Hout, model_key_provider.
      * exists []. split_and!; [|constructor|].
        { exists None. split; [apply has_deleted|done]. }
        intros id. rewrite elem_of_nil. split; [done|]. intros (y & Hy & E).
        by eapply Hno'.
    + apply (indexes_ext (values w d)); [|apply (cat_index _ _ _ Hi)].
      rewrite Hsame by kv_ne. symmetry. apply Hout, model_key_provider.
  - intros id y Hy. rewrite lookup_delete_ne by (by eapply not_eq_sym, Hno').
    by eapply (cat_ref _ _ _ Hi).
Qed.

Lemma run_DeleteProviderIfNoModels w d pt mt p :
  catalog_inv (values w d) pt mt →
  refines_catalog w d (DeleteProviderIfNoModels d p) (spec_DeleteProvider (pt, mt) p).
Proof.
  intros Hi. pose proof (cat_providers _ _ _ Hi) as Hpi.
  destruct (ci_index _ _ Hpi) as (ids & Hix & Hnd & HP).
  destruct (provider_index _ _ _ _ (Provider_ID p) Hi) as (pids & Hpix & Hpnd & HpP).
  pose proof (models_of_index _ _ _ _ _ Hi HpP) as Hmo.
  set (ietag := ETag (entry_of w d (modelsByProviderIndexKey (Provider_ID p)))).
  assert (Hrun : run env (DeleteProviderIfNoModels d p) w =
    match table_delete pt p with
    | inl e => (inl e, w)
    | inr _ => if models_of mt (Provider_ID p)
        then (inl (wrap Conflict "provider still has models"), w)
        else run env (transact d (if bool_decide (ietag = "") then delete_provider_ops w d p ids
          else delete_provider_ops w d p ids ++
            [remove (modelsByProviderIndexKey (Provider_ID p)) ietag])) w
    end).
  { unfold DeleteProviderIfNoModels, table_delete.
    erewrite run_step by (by apply run_readProviderEntry). cbn [ident Provider_Collection].
    destruct (pt !! Provider_ID p) as [cur|]; [|done]. cbv beta iota.
    destruct (bool_decide (cur = p)); [|done]. cbn [negb].
    erewrite run_step by (by apply run_readIndex). cbv beta iota zeta. cbn [IDs].
    rewrite Hmo. destruct (models_of mt (Provider_ID p)); [done|]. cbn [negb].
    erewrite run_step by (by apply run_readIndex). cbv beta iota zeta.
    step_encode. done. }
  unfold spec_DeleteProvider. destruct (table_delete pt p) as [e|pt'] eqn:Ht; [done|].
  apply table_delete_inr in Ht as [Hp ->]. cbn [ident Provider_Collection] in *.
  destruct (models_of mt (Provider_ID p)) eqn:Hno; [done|].
  assert (Hk : Forall known_type (delete_provider_ops w d p ids)).
  { unfold delete_provider_ops, lookup_deletes. cbn. auto 10 using List.Forall_cons, List.Forall_nil. }
  assert (Hf : Forall (fresh w d) (delete_provider_ops w d p ids)).
  { unfold delete_provider_ops, lookup_deletes. cbn. auto 10 using List.Forall_cons, List.Forall_nil. }
  eapply commit_catalog; [exact Hrun|case_bool_decide; [done|]; apply list.Forall_app; auto..|].
  eapply delete_provider_writes; try done.
  case_bool_decide; [by left|right]. by rewrite apply_values_app.
Qed.

(** ** Histories *)

Fixpoint catalog_specs (c : catalog) (os : list catalog_op) : list (error + unit) * catalog :=
  match os with
  | [] => ([], c)
  | o :: os' =>
      match catalog_spec c o with
      | inl e => let '(rs, c') := catalog_specs c os' in (inl e :: rs, c')
      | inr c1 => let '(rs, c') := catalog_specs c1 os' in (inr tt :: rs, c')
      end
  end.

Lemma catalog_step_refines w d c o :
  catalog_inv (values w d) c.1 c.2 → catalog_op_ok o →
  refines_catalog w d (catalog_step d o) (catalog_spec c o).
Proof.
  destruct c as [pt mt]. cbn [fst snd]. intros Hi Ho.
  destruct o as [p|old p|p|x|old x|x]; cbn [catalog_step catalog_spec fst snd].
  - by apply run_create_provider.
  - by apply run_replace_provider.
  - by apply run_DeleteProviderIfNoModels.
  - by apply run_CreateModel.
  - by apply run_ReplaceModel.
  - by apply run_DeleteModel.
Qed.

Lemma catalog_steps_refine w d c os :
  catalog_inv (values w d) c.1 c.2 → Forall catalog_op_ok os →
  (run_steps env (catalog_step d) w os).1 = (catalog_specs c os).1 ∧
  catalog_inv (values (run_steps env (catalog_step d) w os).2 d)
    (catalog_specs c os).2.1 (catalog_specs c os).2.2.
Proof.
  intros Hi Hos. revert w c Hi. induction Hos as [|o os Ho Hos IH]; intros w c Hi; [done|].
  cbn [run_steps catalog_specs]. pose proof (catalog_step_refines w d c o Hi Ho) as Hr.
  unfold refines_catalog in Hr. destruct (catalog_spec c o) as [e|c1].
  - rewrite Hr. specialize (IH w c Hi).
    destruct (run_steps _ _ w os), (catalog_specs c os). cbn in *. naive_solver.
  - destruct c1 as [pt' mt'], Hr as (s & -> & Hi').
    specialize (IH (set_store w d s) (pt', mt')). rewrite store_of_same in IH.
    specialize (IH Hi').
    destruct (run_steps _ _ (set_store w d s) os), (catalog_specs (pt', mt') os).
    cbn in *. naive_solver.
Qed.

Lemma catalog_inv_empty m : m = ∅ → catalog_inv m ∅ ∅.
Proof.
  intros ->. split.
  - by apply coll_inv_empty.
  - by apply coll_inv_empty.
  - intros p. exists []. split_and!; [by exists None|constructor|].
    intros id. rewrite elem_of_nil. split; [done|by intros (? & ? & ?)].
  - by intros id x.
Qed.

Lemma run_GetModelByAlias w d pt mt x :
  catalog_inv (values w d) pt mt → mt !! Model_ID x = Some x →
  run env (GetModelByAlias d (Model_Alias x)) w = (inr x, w).
Proof.
  intros Hi Hx. unfold GetModelByAlias. rewrite run_bind.
  destruct (run_lookup_id env w d mt "model-alias" (Model_Alias x) x (cat_models _ _ _ Hi))
    as [(id & y & Hy & Hk & ->)|(Hno & _)]; [by left| |].
  - pose proof (cat_models _ _ _ Hi) as Hm.
    assert (id = Model_ID x) as ->.
    { eapply (lookup_unique (T := Model) _ _ _ _ y x); [done..|by left]. }
    unfold GetModel. pose proof (run_get_entity (T := Model) env w d mt (Model_ID x) Hm) as Hg.
    cbn [coll_name Model_Collection] in Hg. by rewrite Hg, Hx.
  - exfalso. apply (Hno (Model_ID x) x Hx). by left.
Qed.

(** C3.  The model catalog against its specification: run any sequence of
    the calls the services make on the provider state (create, replace and
    guarded delete of providers, create, replace and delete of models) on an
    empty store.  Every call returns what the two-table specification
    returns, and afterwards reads give the tables: [GetModel],
    [GetModelByAlias] (aliases are unique), and [ListModelsByProvider], which
    lists exactly the models of a provider, once each. *)
Theorem catalog_histories w d os w' rs pt mt :
  values w d = ∅ → Forall catalog_op_ok os →
  (run_steps env (catalog_step d) w os).2 = w' → catalog_specs (∅, ∅) os = (rs, (pt, mt)) →
  (run_steps env (catalog_step d) w os).1 = rs ∧
  (∀ id, run env (GetModel d id) w' =
     (match mt !! id with Some x => inr x | None => inl ErrNotFound end, w')) ∧
  (∀ x, mt !! Model_ID x = Some x → run env (GetModelByAlias d (Model_Alias x)) w' = (inr x, w')) ∧
  (∀ p, ∃ l, run env (ListModelsByProvider d p) w' = (inr l, w') ∧ NoDup (map Model_ID l) ∧
     ∀ x, x ∈ l ↔ mt !! Model_ID x = Some x ∧ Model_ProviderID x = p).
Proof.
  intros Hempty Hos Hw' Hsp. pose proof (catalog_inv_empty _ Hempty) as Hi0.
  destruct (catalog_steps_refine w d (∅, ∅) os Hi0 Hos) as [Hrs Hi].
  rewrite Hw', Hsp in *. cbn [fst snd] in *. pose proof (cat_models _ _ _ Hi) as Hm.
  split_and!; [done| | |].
  - intros id. exact (run_get_entity (T := Model) env w' d mt id Hm).
  - intros x Hx. by eapply run_GetModelByAlias.
  - intros p. destruct (run_listResourcesAtIndex (T := Model) env w' d mt _ _ Hm
      (cat_index _ _ _ Hi p)) as (l & Hl & Hnd & Hin).
    exists l. split_and!; [done|done|]. intros x. rewrite Hin. cbn. naive_solver.
Qed.

(** C4.  No orphan routes: after any sequence of calls on the provider state
    starting from an empty store, the provider of every model the catalog
    returns exists, and deleting that provider is refused with a conflict
    that leaves the store as it is. *)
Theorem catalog_no_orphans w d os w' id x :
  values w d = ∅ → Forall catalog_op_ok os →
  (run_steps env (catalog_step d) w os).2 = w' →
  run env (GetModel d id) w' = (inr x, w') →
  ∃ p, run env (GetProvider d (Model_ProviderID x)) w' = (inr p, w') ∧
    Provider_ID p = Model_ProviderID x ∧
    run env (DeleteProviderIfNoModels d p) w' =
      (inl (wrap Conflict "provider still has models"), w').
Proof.
  intros Hempty Hos Hw' Hx. pose proof (catalog_inv_empty _ Hempty) as Hi0.
  destruct (catalog_steps_refine w d (∅, ∅) os Hi0 Hos) as [_ Hi]. rewrite Hw' in Hi.
  destruct (catalog_specs (∅, ∅) os).2 as [pt mt]. cbn [fst snd] in Hi.
  pose proof (run_get_entity (T := Model) env w' d mt id (cat_models _ _ _ Hi)) as Hg.
  cbn [coll_name Model_Collection] in Hg. unfold GetModel in Hx. rewrite Hg in Hx.
  destruct (mt !! id) as [y|] eqn:Hy; [|done]. injection Hx as ->.
  destruct (cat_ref _ _ _ Hi _ _ Hy) as [p Hp]. exists p.
  pose proof (run_get_entity (T := Provider) env w' d pt (Model_ProviderID x)
    (cat_providers _ _ _ Hi)) as Hgp. rewrite Hp in Hgp.
  destruct (ci_ok _ _ (cat_providers _ _ _ Hi) _ _ Hp) as [Hid _]. cbn in Hid.
  split_and!; [exact Hgp|done|].
  pose proof (run_DeleteProviderIfNoModels w' d pt mt p Hi) as Hd.
  unfold spec_DeleteProvider, table_delete in Hd. cbn [ident Provider_Collection] in Hd.
  rewrite Hid, Hp, bool_decide_eq_true_2 in Hd by done.
  assert (models_of mt (Model_ProviderID x) = true) as E; [|by rewrite E in Hd].
  unfold models_of. apply existsb_elem. exists (id, x).
  rewrite bool_decide_eq_true. by rewrite elem_of_map_to_list.
Qed.
End facts.

(** ** Concrete inputs *)

Module CatalogSample.
Definition model (id alias provider : string) : Model := {|
  Model_ID := id; Model_Alias := alias; Model_ProviderID := provider;
  Model_UpstreamModel := "up"; Model_Status := StatusActive; Model_Revision := 1;
  Model_CreatedAt := Sample.time; Model_UpdatedAt := Sample.time
|}.
Definition ops : list catalog_op :=
  [CatCreateModel (model "m1" "fast" "p1");
   CatCreateProvider (Sample.provider "p1" "one"); CatCreateProvider (Sample.provider "p2" "two");
   CatCreateModel (model "m1" "fast" "p1"); CatCreateModel (model "m2" "fast" "p1");
   CatReplaceModel (model "m1" "fast" "p1") (model "m1" "fast" "p2");
   CatDeleteProvider (Sample.provider "p2" "two"); CatDeleteProvider (Sample.provider "p1" "one")].
Definition results : list (error + unit) :=
  [inl ErrNotFound; inr tt; inr tt; inr tt; inl ErrConflict; inr tt;
   inl (wrap Conflict "provider still has models"); inr tt].
Definition final : world Memory.MemoryStore :=
  (run_steps Sample.env (catalog_step ProviderState) Sample.world0 ops).2.
End CatalogSample.

Lemma catalog_histories_witness :
  (run_steps Sample.env (catalog_step ProviderState) Sample.world0 CatalogSample.ops).1 =
    CatalogSample.results.
Proof.
  refine (proj1 (catalog_histories Sample.env Sample.world0 ProviderState CatalogSample.ops
    CatalogSample.final CatalogSample.results {[ "p2" := Sample.provider "p2" "two" ]}
    {[ "m1" := CatalogSample.model "m1" "fast" "p2" ]} _ _ eq_refl _)).
  - reflexivity.
  - unfold CatalogSample.ops. storable_sample.
  - by_vm.
Defined.

Lemma catalog_no_orphans_witness :
  ∃ p, run Sample.env (GetProvider ProviderState "p2") CatalogSample.final
         = (inr p, CatalogSample.final) ∧
    Provider_ID p = "p2" ∧
    run Sample.env (DeleteProviderIfNoModels ProviderState p) CatalogSample.final =
      (inl (wrap Conflict "provider still has models"), CatalogSample.final).
Proof.
  refine (catalog_no_orphans Sample.env Sample.world0 ProviderState CatalogSample.ops
    CatalogSample.final "m1" (CatalogSample.model "m1" "fast" "p2") _ _ eq_refl _).
  - reflexivity.
  - unfold CatalogSample.ops. storable_sample.
  - by_vm.
Defined.
