(* ===== verification/KeyRepository.v ===== *)
(** * The virtual-key repository ([repository.go], [model_subject_repository.go])

    Virtual keys, the subjects of the users and models they depend on, and the
    indexes of the keys by user and by model, all in the key state domain:
    the operations of [VirtualKeyRepository] as effect trees. *)

From stdpp Require Import sorting.
From S2P Require Import Prelude GoStd Json GoTime Errors State Model Repository ModelRepository.

(** ** Key subjects *)

Record storedSubject := { sub_value : KeySubject; sub_etag : string; sub_exists : bool }.

Definition zero_KeySubject : KeySubject := {|
  KS_UserID := ""; KS_Status := ""; KS_Revision := 0; KS_Deleted := false;
  KS_UpdatedAt := zero_time
|}.
Definition no_subject : storedSubject :=
  {| sub_value := zero_KeySubject; sub_etag := ""; sub_exists := false |}.

Definition readSubject (store : domain) (userID : string) : prog storedSubject :=
  entry ← wrap_err (λ e, Errorf "get key subject %q: %w" [AStr userID; AWrap e])
            (store_get store (keySubjectKey userID));
  if negb (Exists entry) then mret no_subject else
  subject ← decode_or (λ e, Errorf "decode key subject %q: %w" [AStr userID; AWrap e])
              (Value entry);
  if negb (bool_decide (KS_UserID subject = userID)) then
    fail (Errorf "decode key subject %q: user_id is %q" [AStr userID; AStr (KS_UserID subject)])
  else mret {| sub_value := subject; sub_etag := ETag entry; sub_exists := true |}.

Definition GetSubject (store : domain) (userID : string) : prog KeySubject :=
  stored ← readSubject store userID;
  if negb (sub_exists stored) then fail ErrNotFound else mret (sub_value stored).

Definition subjectPayloadEqual (left right : KeySubject) : bool :=
  bool_decide (KS_UserID left = KS_UserID right) &&
  bool_decide (KS_Status left = KS_Status right) &&
  (KS_Revision left =? KS_Revision right)%Z &&
  Bool.eqb (KS_Deleted left) (KS_Deleted right).

(** Neither of the two statuses. *)
Definition bad_status (s : Status) : bool :=
  negb (bool_decide (s = StatusActive)) && negb (bool_decide (s = StatusDisabled)).

Definition validateSubjectPayload (subject : KeySubject) : option error :=
  if bool_decide (KS_UserID subject = "") then
    Some (wrap Conflict "key subject user_id is required")
  else if (KS_Revision subject =? 0)%Z then
    Some (wrap Conflict "key subject revision must be positive")
  else if IsZero (KS_UpdatedAt subject) then
    Some (wrap Conflict "key subject updated_at is required")
  else if bad_status (KS_Status subject) then
    Some (wrap Conflict "key subject status is invalid")
  else if KS_Deleted subject && negb (bool_decide (KS_Status subject = StatusDisabled)) then
    Some (wrap Conflict "a deleted key subject must be disabled")
  else None.

Definition compareSubjectUpdate (current : storedSubject) (next : KeySubject) : error + bool :=
  if negb (sub_exists current) then inr false
  else if (KS_Revision next <? KS_Revision (sub_value current))%Z then
    inl (wrap Conflict "key subject revision is stale")
  else if (KS_Revision next =? KS_Revision (sub_value current))%Z then
    if subjectPayloadEqual (sub_value current) next then inr true
    else inl (wrap Conflict "key subject revision has a different payload")
  else if KS_Deleted (sub_value current) && negb (KS_Deleted next) then
    inl (wrap Conflict "a deleted key subject cannot be reactivated")
  else inr false.

Definition subjectTouchOperation (subject : storedSubject) : prog Operation :=
  if negb (sub_exists subject) then fail (wrap Conflict "key subject does not exist") else
  value ← encode (sub_value subject);
  mret (upsert (keySubjectKey (KS_UserID (sub_value subject))) value (sub_etag subject)).

Definition ensureSubjectCanOwnKey (subject : storedSubject) (key : VirtualKey) : option error :=
  if negb (sub_exists subject) then Some (wrap Conflict "key subject does not exist")
  else if KS_Deleted (sub_value subject) then Some (wrap Conflict "key subject is deleted")
  else if bad_status (KS_Status (sub_value subject)) then
    Some (wrap Conflict "key subject status is invalid")
  else if bool_decide (Key_Status key = StatusActive) &&
          negb (bool_decide (KS_Status (sub_value subject) = StatusActive)) then
    Some (wrap Conflict "an active virtual key requires an active subject")
  else None.

Definition SyncSubject (store : domain) (subject : KeySubject) : prog unit :=
  _ ← check (validateSubjectPayload subject);
  _ ← guard_err (KS_Deleted subject) (wrap Conflict "deleted key subjects must be fenced");
  current ← readSubject store (KS_UserID subject);
  idempotent ← lift (compareSubjectUpdate current subject);
  if (idempotent : bool) then mret tt else
  value ← encode subject;
  transact store [upsert (keySubjectKey (KS_UserID subject)) value (sub_etag current)].

Definition FenceSubject (store : domain) (subject : KeySubject) : prog unit :=
  _ ← check (validateSubjectPayload subject);
  _ ← guard_err (negb (KS_Deleted subject)) (wrap Conflict "a fenced key subject must be deleted");
  current ← readSubject store (KS_UserID subject);
  '(index, _) ← wrap_err (λ e, Errorf "get virtual keys by user index: %w" [AWrap e])
                  (readIndex store (virtualKeysByUserIndexKey (KS_UserID subject)));
  if negb (bool_decide (IDs index = [])) then fail (wrap Conflict "user still has virtual keys") else
  idempotent ← lift (compareSubjectUpdate current subject);
  if (idempotent : bool) then mret tt else
  value ← encode subject;
  transact store [upsert (keySubjectKey (KS_UserID subject)) value (sub_etag current)].

(** ** Model subjects *)

Record storedModelSubject :=
  { msub_value : ModelSubject; msub_etag : string; msub_exists : bool }.

Definition zero_ModelSubject : ModelSubject := {|
  MS_ModelID := ""; MS_Alias := ""; MS_Status := ""; MS_Revision := 0; MS_Deleted := false;
  MS_UpdatedAt := zero_time
|}.
Definition no_model_subject : storedModelSubject :=
  {| msub_value := zero_ModelSubject; msub_etag := ""; msub_exists := false |}.

Definition readModelSubject (store : domain) (modelID : string) : prog storedModelSubject :=
  entry ← wrap_err (λ e, Errorf "get model subject %q: %w" [AStr modelID; AWrap e])
            (store_get store (modelSubjectKey modelID));
  if negb (Exists entry) then mret no_model_subject else
  subject ← decode_or (λ e, Errorf "decode model subject %q: %w" [AStr modelID; AWrap e])
              (Value entry);
  if negb (bool_decide (MS_ModelID subject = modelID)) then
    fail (Errorf "decode model subject %q: model_id is %q" [AStr modelID; AStr (MS_ModelID subject)])
  else mret {| msub_value := subject; msub_etag := ETag entry; msub_exists := true |}.

Definition GetModelSubject (store : domain) (modelID : string) : prog ModelSubject :=
  stored ← readModelSubject store modelID;
  if negb (msub_exists stored) then fail ErrNotFound else mret (msub_value stored).

Definition validateModelSubjectPayload (subject : ModelSubject) : option error :=
  if bool_decide (MS_ModelID subject = "") then
    Some (wrap Conflict "model subject model_id is required")
  else if bool_decide (MS_Alias subject = "") then
    Some (wrap Conflict "model subject alias is required")
  else if (MS_Revision subject =? 0)%Z then
    Some (wrap Conflict "model subject revision must be positive")
  else if IsZero (MS_UpdatedAt subject) then
    Some (wrap Conflict "model subject updated_at is required")
  else if bad_status (MS_Status subject) then
    Some (wrap Conflict "model subject status is invalid")
  else if MS_Deleted subject && negb (bool_decide (MS_Status subject = StatusDisabled)) then
    Some (wrap Conflict "a deleted model subject must be disabled")
  else None.

Definition modelSubjectPayloadEqual (left right : ModelSubject) : bool :=
  bool_decide (MS_ModelID left = MS_ModelID right) &&
  bool_decide (MS_Alias left = MS_Alias right) &&
  bool_decide (MS_Status left = MS_Status right) &&
  (MS_Revision left =? MS_Revision right)%Z &&
  Bool.eqb (MS_Deleted left) (MS_Deleted right).

Definition compareModelSubjectUpdate (current : storedModelSubject) (next : ModelSubject)
    : error + bool :=
  if negb (msub_exists current) then inr false
  else if negb (bool_decide (MS_ModelID next = MS_ModelID (msub_value current))) ||
          negb (bool_decide (MS_Alias next = MS_Alias (msub_value current))) then
    inl (wrap Conflict "model subject identity is immutable")
  else if (MS_Revision next <? MS_Revision (msub_value current))%Z then
    inl (wrap Conflict "model subject revision is stale")
  else if (MS_Revision next =? MS_Revision (msub_value current))%Z then
    if modelSubjectPayloadEqual (msub_value current) next then inr true
    else inl (wrap Conflict "model subject revision has a different payload")
  else if MS_Deleted (msub_value current) && negb (MS_Deleted next) then
    inl (wrap Conflict "a deleted model subject cannot be reactivated")
  else inr false.

Definition modelSubjectTouchOperation (subject : storedModelSubject) : prog Operation :=
  if negb (msub_exists subject) then fail (wrap Conflict "model subject does not exist") else
  value ← encode (msub_value subject);
  mret (upsert (modelSubjectKey (MS_ModelID (msub_value subject))) value (msub_etag subject)).

Definition ensureModelCanBackKey (subject : storedModelSubject) (key : VirtualKey) : option error :=
  if negb (msub_exists subject) then Some (wrap Conflict "model subject does not exist")
  else if MS_Deleted (msub_value subject) then Some (wrap Conflict "model subject is deleted")
  else if bad_status (MS_Status (msub_value subject)) then
    Some (wrap Conflict "model subject status is invalid")
  else if bool_decide (Key_Status key = StatusActive) &&
          negb (bool_decide (MS_Status (msub_value subject) = StatusActive)) then
    Some (wrap Conflict "an active virtual key requires active models")
  else None.

Definition SyncModelSubject (store : domain) (subject : ModelSubject) : prog unit :=
  _ ← check (validateModelSubjectPayload subject);
  _ ← guard_err (MS_Deleted subject) (wrap Conflict "deleted model subjects must be fenced");
  current ← readModelSubject store (MS_ModelID subject);
  idempotent ← lift (compareModelSubjectUpdate current subject);
  if (idempotent : bool) then mret tt else
  value ← encode subject;
  transact store [upsert (modelSubjectKey (MS_ModelID subject)) value (msub_etag current)].

Definition FenceModelSubject (store : domain) (subject : ModelSubject) : prog unit :=
  _ ← check (validateModelSubjectPayload subject);
  _ ← guard_err (negb (MS_Deleted subject))
        (wrap Conflict "a fenced model subject must be deleted");
  current ← readModelSubject store (MS_ModelID subject);
  '(index, _) ← wrap_err (λ e, Errorf "get virtual keys by model index: %w" [AWrap e])
                  (readIndex store (virtualKeysByModelIndexKey (MS_ModelID subject)));
  if negb (bool_decide (IDs index = [])) then
    fail (wrap Conflict "model is still referenced by virtual keys") else
  idempotent ← lift (compareModelSubjectUpdate current subject);
  if (idempotent : bool) then mret tt else
  value ← encode subject;
  transact store [upsert (modelSubjectKey (MS_ModelID subject)) value (msub_etag current)].

(** ** Model indexes *)

Record modelIndexMutation :=
  { mut_subject : storedModelSubject; mut_index : resourceIndex; mut_etag : string }.

Definition zero_mutation : modelIndexMutation :=
  {| mut_subject := no_model_subject; mut_index := {| IDs := [] |}; mut_etag := "" |}.

Fixpoint modelIDSet_from (result : gset string) (ids : list string) : error + gset string :=
  match ids with
  | [] => inr result
  | id :: ids' =>
      if bool_decide (id = "") then inl (wrap Conflict "virtual key model ID is empty")
      else if bool_decide (id ∈ result) then
        inl (Errorf "%w: virtual key contains duplicate model ID %q" [AWrap ErrConflict; AStr id])
      else modelIDSet_from ({[ id ]} ∪ result) ids'
  end.
Definition modelIDSet (ids : list string) : error + gset string := modelIDSet_from ∅ ids.

(** The loop of [prepareModelIndexMutations]. *)
Fixpoint prepare_mutations (store : domain) (newSet : gset string) (key : VirtualKey)
    (modelIDs : list string) : prog (gmap string modelIndexMutation) :=
  match modelIDs with
  | [] => mret ∅
  | modelID :: modelIDs' =>
      subject ← readModelSubject store modelID;
      _ ← (if bool_decide (modelID ∈ newSet) then
             match ensureModelCanBackKey subject key with
             | Some err => fail (Errorf "model %q: %w" [AStr modelID; AWrap err])
             | None => mret tt
             end
           else guard_err (negb (msub_exists subject) || MS_Deleted (msub_value subject))
                  (Errorf "%w: referenced model subject %q is unavailable"
                     [AWrap ErrConflict; AStr modelID]));
      '(index, etag) ← wrap_err (λ e, Errorf "get virtual keys by model index: %w" [AWrap e])
                         (readIndex store (virtualKeysByModelIndexKey modelID));
      mutations ← prepare_mutations store newSet key modelIDs';
      mret (<[modelID := {| mut_subject := subject; mut_index := index; mut_etag := etag |}]> mutations)
  end.

(** The ids of both sets, sorted. *)
Definition sorted_ids (oldSet newSet : gset string) : list string :=
  merge_sort String.le (elements (oldSet ∪ newSet)).

Definition prepareModelIndexMutations (store : domain) (oldIDs newIDs : list string)
    (key : VirtualKey) : prog (list string * gmap string modelIndexMutation) :=
  oldSet ← lift (modelIDSet oldIDs);
  newSet ← lift (modelIDSet newIDs);
  let modelIDs := sorted_ids oldSet newSet in
  mutations ← prepare_mutations store newSet key modelIDs;
  mret (modelIDs, mutations).

Fixpoint modelIndexOperations (modelIDs : list string)
    (mutations : gmap string modelIndexMutation) (keyID : string)
    (oldIDs newIDs : list string) : prog (list Operation) :=
  match modelIDs with
  | [] => mret []
  | modelID :: modelIDs' =>
      let mutation := default zero_mutation (mutations !! modelID) in
      let index :=
        if bool_decide (modelID ∈ oldIDs) && negb (bool_decide (modelID ∈ newIDs))
        then removeIndexID (mut_index mutation) keyID else mut_index mutation in
      let index := if bool_decide (modelID ∈ newIDs) then addIndexID index keyID else index in
      value ← encode index;
      touch ← modelSubjectTouchOperation (mut_subject mutation);
      rest ← modelIndexOperations modelIDs' mutations keyID oldIDs newIDs;
      mret (upsert (virtualKeysByModelIndexKey modelID) value (mut_etag mutation) :: touch :: rest)
  end.

(** ** Virtual keys *)

Definition GetVirtualKey (store : domain) (id : string) : prog VirtualKey :=
  getResource store "virtual-keys" id.
Definition GetVirtualKeyByHash (store : domain) (hash : string) : prog VirtualKey :=
  id ← lookup_id store "key-hash" hash;
  GetVirtualKey store id.
Definition ListVirtualKeys (store : domain) : prog (list VirtualKey) :=
  listResources store "virtual-keys".
Definition ListVirtualKeysByUser (store : domain) (userID : string) : prog (list VirtualKey) :=
  listResourcesAtIndex store "virtual-keys" (virtualKeysByUserIndexKey userID).

Definition CreateVirtualKey (store : domain) (key : VirtualKey) : prog unit :=
  _ ← guard_err (bool_decide (Key_ModelIDs key = []))
        (wrap Conflict "virtual key requires at least one model");
  entityEntry ← store_get store (entityKey "virtual-keys" (Key_ID key));
  if Exists entityEntry then fail ErrConflict else
  let hashLookupKey := lookupKey "key-hash" (Key_KeyHash key) in
  existingLookup ← store_get store hashLookupKey;
  if Exists existingLookup then fail ErrConflict else
  subject ← readSubject store (Key_UserID key);
  _ ← check (ensureSubjectCanOwnKey subject key);
  '(modelIDs, modelMutations) ← prepareModelIndexMutations store [] (Key_ModelIDs key) key;
  '(globalIndex, globalETag) ← readIndex store (indexKey "virtual-keys");
  '(userIndex, userETag) ← readIndex store (virtualKeysByUserIndexKey (Key_UserID key));
  let globalIndex := addIndexID globalIndex (Key_ID key) in
  let userIndex := addIndexID userIndex (Key_ID key) in
  entityValue ← encode key;
  globalIndexValue ← encode globalIndex;
  userIndexValue ← encode userIndex;
  lookupValue ← encode (Key_ID key);
  touch ← subjectTouchOperation subject;
  let operations :=
    [upsert (entityKey "virtual-keys" (Key_ID key)) entityValue "";
     upsert (indexKey "virtual-keys") globalIndexValue globalETag;
     upsert hashLookupKey lookupValue "";
     upsert (virtualKeysByUserIndexKey (Key_UserID key)) userIndexValue userETag;
     touch] in
  modelOperations ←
    modelIndexOperations modelIDs modelMutations (Key_ID key) [] (Key_ModelIDs key);
  transact store (operations ++ modelOperations).

Definition ReplaceVirtualKey (store : domain) (oldKey key : VirtualKey) : prog unit :=
  _ ← guard_err (negb (bool_decide (Key_ID oldKey = Key_ID key)))
        (wrap Conflict "virtual key ID is immutable");
  _ ← guard_err (bool_decide (Key_ModelIDs key = []))
        (wrap Conflict "virtual key requires at least one model");
  entityEntry ← store_get store (entityKey "virtual-keys" (Key_ID key));
  if negb (Exists entityEntry) then fail ErrNotFound else
  current ← decode_or (decode_err "virtual-keys" (Key_ID key)) (Value entityEntry);
  if negb (bool_decide (current = oldKey)) then fail ErrConflict else
  let newLookupKey := lookupKey "key-hash" (Key_KeyHash key) in
  _ ← check_owned store (Key_ID key) [newLookupKey];
  oldSubject ← readSubject store (Key_UserID current);
  if negb (sub_exists oldSubject) then
    fail (wrap Conflict "current key subject does not exist") else
  let same := bool_decide (Key_UserID key = Key_UserID current) in
  newSubject ← (if same then mret oldSubject else readSubject store (Key_UserID key));
  _ ← check (ensureSubjectCanOwnKey newSubject key);
  '(modelIDs, modelMutations) ←
    prepareModelIndexMutations store (Key_ModelIDs current) (Key_ModelIDs key) key;
  '(oldUserIndex, oldUserETag) ← readIndex store (virtualKeysByUserIndexKey (Key_UserID current));
  '(newUserIndex, newUserETag) ←
    (if same then mret (oldUserIndex, oldUserETag)
     else readIndex store (virtualKeysByUserIndexKey (Key_UserID key)));
  let oldUserIndex := if same then oldUserIndex else removeIndexID oldUserIndex (Key_ID key) in
  let newUserIndex := addIndexID newUserIndex (Key_ID key) in
  entityValue ← encode key;
  lookupValue ← encode (Key_ID key);
  oldIndexValue ← encode oldUserIndex;
  newIndexValue ← encode newUserIndex;
  oldTouch ← subjectTouchOperation oldSubject;
  let oldLookupKey := lookupKey "key-hash" (Key_KeyHash current) in
  let operations :=
    upsert (entityKey "virtual-keys" (Key_ID key)) entityValue (ETag entityEntry)
    :: (if bool_decide (oldLookupKey = newLookupKey) then [] else [remove oldLookupKey ""]) ++
    [upsert newLookupKey lookupValue ""] in
  operations ←
    (if same then
       mret (operations ++
         [upsert (virtualKeysByUserIndexKey (Key_UserID key)) newIndexValue newUserETag; oldTouch])
     else
       newTouch ← subjectTouchOperation newSubject;
       mret (operations ++
         [upsert (virtualKeysByUserIndexKey (Key_UserID current)) oldIndexValue oldUserETag;
          upsert (virtualKeysByUserIndexKey (Key_UserID key)) newIndexValue newUserETag;
          oldTouch; newTouch]));
  modelOperations ← modelIndexOperations modelIDs modelMutations (Key_ID key)
                      (Key_ModelIDs current) (Key_ModelIDs key);
  transact store (operations ++ modelOperations).

Definition DeleteVirtualKey (store : domain) (key : VirtualKey) : prog unit :=
  entityEntry ← store_get store (entityKey "virtual-keys" (Key_ID key));
  if negb (Exists entityEntry) then fail ErrNotFound else
  current ← decode_or (decode_err "virtual-keys" (Key_ID key)) (Value entityEntry);
  if negb (bool_decide (current = key)) then fail ErrConflict else
  subject ← readSubject store (Key_UserID current);
  if negb (sub_exists subject) then fail (wrap Conflict "current key subject does not exist") else
  '(modelIDs, modelMutations) ←
    prepareModelIndexMutations store (Key_ModelIDs current) [] current;
  '(globalIndex, globalETag) ← readIndex store (indexKey "virtual-keys");
  '(userIndex, userETag) ← readIndex store (virtualKeysByUserIndexKey (Key_UserID current));
  let globalIndex := removeIndexID globalIndex (Key_ID current) in
  let userIndex := removeIndexID userIndex (Key_ID current) in
  globalIndexValue ← encode globalIndex;
  userIndexValue ← encode userIndex;
  touch ← subjectTouchOperation subject;
  let operations :=
    [remove (entityKey "virtual-keys" (Key_ID current)) (ETag entityEntry);
     upsert (indexKey "virtual-keys") globalIndexValue globalETag;
     remove (lookupKey "key-hash" (Key_KeyHash current)) "";
     upsert (virtualKeysByUserIndexKey (Key_UserID current)) userIndexValue userETag;
     touch] in
  modelOperations ←
    modelIndexOperations modelIDs modelMutations (Key_ID current) (Key_ModelIDs current) [];
  transact store (operations ++ modelOperations).
