(* ===== verification/KeyFacts.v ===== *)
(** * The virtual-key repository against its specification

    The invariant of the key state domain (keys, subjects, model subjects and
    the two families of indexes), the three-table specification of every
    operation of [VirtualKeyRepository], and the refinement between them. *)

From stdpp Require Import sorting.
From S2P Require Import Prelude GoStd Json GoTime Errors State Model Repository Collections.
From S2P Require Import Directory ModelRepository KeyRepository.

#[local] Opaque enc Marshal Unmarshal entityKey indexKey lookupKey.
#[local] Arguments bool_decide : simpl never.

(** ** Invariant *)

#[export] Instance VirtualKey_Collection : Collection VirtualKey := {
  coll_name := "virtual-keys";
  ident := Key_ID;
  lookup_keys key := [lookupKey "key-hash" (Key_KeyHash key)]
}.

#[export] Instance VirtualKey_CollectionLaws : CollectionLaws VirtualKey.
Proof. split; [key_ne|key_ne|key_ne|]. intros x Hx. apply Hx. Qed.

Record key_tables := {
  keys : gmap string VirtualKey;
  subjects : gmap string KeySubject;
  model_subjects : gmap string ModelSubject
}.

Definition no_keys : key_tables := {| keys := ∅; subjects := ∅; model_subjects := ∅ |}.

(** A key as the repository accepts it: at least one model, each once, none
    with an empty id; its owner and its models exist and are not deleted. *)
Record key_ok (t : key_tables) (k : VirtualKey) : Prop := {
  key_models_nonempty : Key_ModelIDs k ≠ [];
  key_models_NoDup : NoDup (Key_ModelIDs k);
  key_models_named : "" ∉ Key_ModelIDs k;
  key_owner : ∃ s, subjects t !! Key_UserID k = Some s ∧ KS_Deleted s = false;
  key_models x : x ∈ Key_ModelIDs k →
    ∃ s, model_subjects t !! x = Some s ∧ MS_Deleted s = false
}.

Definition by_user (t : key_tables) (u id : string) : Prop :=
  ∃ k, keys t !! id = Some k ∧ Key_UserID k = u.
Definition by_model (t : key_tables) (x id : string) : Prop :=
  ∃ k, keys t !! id = Some k ∧ x ∈ Key_ModelIDs k.

Record keys_inv (m : gmap string string) (t : key_tables) : Prop := {
  ki_keys : coll_inv m (keys t);
  ki_subject u : has m (keySubjectKey u) (subjects t !! u);
  ki_subject_id u s : subjects t !! u = Some s → KS_UserID s = u;
  ki_model x : has m (modelSubjectKey x) (model_subjects t !! x);
  ki_model_id x s : model_subjects t !! x = Some s → MS_ModelID s = x;
  ki_by_user u : indexes m (virtualKeysByUserIndexKey u) (by_user t u);
  ki_by_model x : indexes m (virtualKeysByModelIndexKey x) (by_model t x);
  ki_ok id k : keys t !! id = Some k → key_ok t k
}.

(** ** Specification *)

Definition stored (s : option KeySubject) : storedSubject :=
  match s with
  | Some s => {| sub_value := s; sub_etag := ""; sub_exists := true |}
  | None => no_subject
  end.
Definition stored_model (s : option ModelSubject) : storedModelSubject :=
  match s with
  | Some s => {| msub_value := s; msub_etag := ""; msub_exists := true |}
  | None => no_model_subject
  end.

Definition set_keys (t : key_tables) (kt : gmap string VirtualKey) : key_tables :=
  {| keys := kt; subjects := subjects t; model_subjects := model_subjects t |}.
Definition set_subject (t : key_tables) (s : KeySubject) : key_tables :=
  {| keys := keys t; subjects := <[KS_UserID s := s]> (subjects t);
     model_subjects := model_subjects t |}.
Definition set_model_subject (t : key_tables) (s : ModelSubject) : key_tables :=
  {| keys := keys t; subjects := subjects t;
     model_subjects := <[MS_ModelID s := s]> (model_subjects t) |}.

Definition owns_keys (t : key_tables) (u : string) : bool :=
  existsb (λ '(_, k), bool_decide (Key_UserID k = u)) (map_to_list (keys t)).
Definition uses_model (t : key_tables) (x : string) : bool :=
  existsb (λ '(_, k), bool_decide (x ∈ Key_ModelIDs k)) (map_to_list (keys t)).

(** The first error of a list of checks. *)
Definition or_err {A} (e : option error) (r : error + A) : error + A :=
  match e with Some e => inl e | None => r end.
Definition require {A} (c : bool) (e : error) (r : error + A) : error + A :=
  if c then r else inl e.

Definition spec_update_subject (t : key_tables) (s : KeySubject) : error + key_tables :=
  match compareSubjectUpdate (stored (subjects t !! KS_UserID s)) s with
  | inl e => inl e
  | inr true => inr t
  | inr false => inr (set_subject t s)
  end.
Definition spec_SyncSubject (t : key_tables) (s : KeySubject) : error + key_tables :=
  or_err (validateSubjectPayload s)
    (require (negb (KS_Deleted s)) (wrap Conflict "deleted key subjects must be fenced")
      (spec_update_subject t s)).
Definition spec_FenceSubject (t : key_tables) (s : KeySubject) : error + key_tables :=
  or_err (validateSubjectPayload s)
    (require (KS_Deleted s) (wrap Conflict "a fenced key subject must be deleted")
      (require (negb (owns_keys t (KS_UserID s))) (wrap Conflict "user still has virtual keys")
        (spec_update_subject t s))).

Definition spec_update_model (t : key_tables) (s : ModelSubject) : error + key_tables :=
  match compareModelSubjectUpdate (stored_model (model_subjects t !! MS_ModelID s)) s with
  | inl e => inl e
  | inr true => inr t
  | inr false => inr (set_model_subject t s)
  end.
Definition spec_SyncModelSubject (t : key_tables) (s : ModelSubject) : error + key_tables :=
  or_err (validateModelSubjectPayload s)
    (require (negb (MS_Deleted s)) (wrap Conflict "deleted model subjects must be fenced")
      (spec_update_model t s)).
Definition spec_FenceModelSubject (t : key_tables) (s : ModelSubject) : error + key_tables :=
  or_err (validateModelSubjectPayload s)
    (require (MS_Deleted s) (wrap Conflict "a fenced model subject must be deleted")
      (require (negb (uses_model t (MS_ModelID s)))
         (wrap Conflict "model is still referenced by virtual keys")
        (spec_update_model t s))).

(** The check of one model of a key, and of all of them in order. *)
Definition model_check (t : key_tables) (newSet : gset string) (key : VirtualKey) (x : string)
    : option error :=
  let s := stored_model (model_subjects t !! x) in
  if bool_decide (x ∈ newSet) then
    match ensureModelCanBackKey s key with
    | Some err => Some (Errorf "model %q: %w" [AStr x; AWrap err])
    | None => None
    end
  else if negb (msub_exists s) || MS_Deleted (msub_value s) then
    Some (Errorf "%w: referenced model subject %q is unavailable" [AWrap ErrConflict; AStr x])
  else None.
Definition models_check (t : key_tables) (newSet : gset string) (key : VirtualKey)
    (xs : list string) : option error := first_some (model_check t newSet key) xs.

Definition spec_models {A} (t : key_tables) (oldIDs newIDs : list string) (key : VirtualKey)
    (r : error + A) : error + A :=
  match modelIDSet oldIDs, modelIDSet newIDs with
  | inl e, _ | _, inl e => inl e
  | inr oldSet, inr newSet => or_err (models_check t newSet key (sorted_ids oldSet newSet)) r
  end.

Definition spec_CreateVirtualKey (t : key_tables) (k : VirtualKey) : error + key_tables :=
  require (negb (bool_decide (Key_ModelIDs k = [])))
      (wrap Conflict "virtual key requires at least one model")
    match table_create (keys t) k with
    | inl e => inl e
    | inr kt =>
        or_err (ensureSubjectCanOwnKey (stored (subjects t !! Key_UserID k)) k)
          (spec_models t [] (Key_ModelIDs k) k (inr (set_keys t kt)))
    end.

Definition spec_ReplaceVirtualKey (t : key_tables) (old k : VirtualKey) : error + key_tables :=
  require (bool_decide (Key_ID old = Key_ID k)) (wrap Conflict "virtual key ID is immutable")
    (require (negb (bool_decide (Key_ModelIDs k = [])))
        (wrap Conflict "virtual key requires at least one model")
      match table_replace (keys t) old k with
      | inl e => inl e
      | inr kt =>
          or_err (ensureSubjectCanOwnKey (stored (subjects t !! Key_UserID k)) k)
            (spec_models t (Key_ModelIDs old) (Key_ModelIDs k) k (inr (set_keys t kt)))
      end).

Definition spec_DeleteVirtualKey (t : key_tables) (k : VirtualKey) : error + key_tables :=
  match table_delete (keys t) k with
  | inl e => inl e
  | inr kt => inr (set_keys t kt)
  end.

(** ** Keys of the store *)

Lemma keySubjectKey_inj u u' : keySubjectKey u = keySubjectKey u' → u = u'.
Proof. apply entityKey_inj. Qed.
Lemma modelSubjectKey_inj x x' : modelSubjectKey x = modelSubjectKey x' → x = x'.
Proof. apply entityKey_inj. Qed.
Lemma by_user_key_inj u u' : virtualKeysByUserIndexKey u = virtualKeysByUserIndexKey u' → u = u'.
Proof. with_strategy transparent [indexKey]
  (unfold virtualKeysByUserIndexKey, indexKey). by intros ?%(inj _)%(inj _). Qed.
Lemma by_model_key_inj x x' :
  virtualKeysByModelIndexKey x = virtualKeysByModelIndexKey x' → x = x'.
Proof. with_strategy transparent [indexKey]
  (unfold virtualKeysByModelIndexKey, indexKey). by intros ?%(inj _)%(inj _). Qed.

Ltac key_diff :=
  first
    [ done | congruence
    | intros ?%by_user_key_inj; congruence | intros ?%by_model_key_inj; congruence
    | intros ?%keySubjectKey_inj; congruence | intros ?%modelSubjectKey_inj; congruence
    | intros ?%entityKey_inj; congruence | key_ne ].
Ltac kvs :=
  repeat first
    [ rewrite lookup_insert_eq | rewrite lookup_delete_eq
    | rewrite lookup_insert_ne by key_diff | rewrite lookup_delete_ne by key_diff ].

(** The ids of the index at a key. *)
Definition index_ids (m : gmap string string) (k : string) : list string :=
  match m !! k with Some v => from_option IDs [] (Unmarshal v) | None => [] end.

Lemma index_ids_at m k ids : index_at m k ids → index_ids m k = ids.
Proof.
  intros (ix & [Hm Hs] & ->). unfold index_ids. rewrite Hm. destruct ix as [ix|]; [|done].
  cbn. by rewrite Unmarshal_enc by by apply Hs.
Qed.

Lemma indexes_ids m k P :
  indexes m k P →
  index_at m k (index_ids m k) ∧ NoDup (index_ids m k) ∧ ∀ id, id ∈ index_ids m k ↔ P id.
Proof. intros (ids & Hix & Hnd & HP). by rewrite (index_ids_at _ _ _ Hix). Qed.

Lemma ensureSubject_etag s e k :
  ensureSubjectCanOwnKey {| sub_value := sub_value s; sub_etag := e; sub_exists := sub_exists s |} k
  = ensureSubjectCanOwnKey s k.
Proof. done. Qed.

Section facts.
Context {S : Type} `{StateStoreLaws S} (env : environment).
Implicit Types (w : world S) (d : domain) (t : key_tables).

Abbreviation values w d := (view (store_of w d)).

(** Subjects as they are read: with the ETag of their entry. *)
Definition read_subject w d t u : storedSubject :=
  {| sub_value := sub_value (stored (subjects t !! u));
     sub_etag := ETag (entry_of w d (keySubjectKey u));
     sub_exists := sub_exists (stored (subjects t !! u)) |}.
Definition read_model w d t x : storedModelSubject :=
  {| msub_value := msub_value (stored_model (model_subjects t !! x));
     msub_etag := ETag (entry_of w d (modelSubjectKey x));
     msub_exists := msub_exists (stored_model (model_subjects t !! x)) |}.

Lemma run_readSubject w d t u :
  keys_inv (values w d) t → run env (readSubject d u) w = (inr (read_subject w d t u), w).
Proof.
  intros Hi. unfold readSubject, wrap_err, read_subject.
  rewrite run_bind, run_bind_result, run_get. cbn -[entry_of].
  pose proof (ki_subject _ _ Hi u) as Hu. rewrite (entry_has w d _ _ Hu).
  destruct (subjects t !! u) as [s|] eqn:E; [|done]. cbn [Exists negb Value].
  rewrite run_bind, (run_decode_or env) by (by apply Hu).
  by rewrite (ki_subject_id _ _ Hi u s E), bool_decide_eq_true_2.
Qed.

Lemma run_readModelSubject w d t x :
  keys_inv (values w d) t → run env (readModelSubject d x) w = (inr (read_model w d t x), w).
Proof.
  intros Hi. unfold readModelSubject, wrap_err, read_model.
  rewrite run_bind, run_bind_result, run_get. cbn -[entry_of].
  pose proof (ki_model _ _ Hi x) as Hx. rewrite (entry_has w d _ _ Hx).
  destruct (model_subjects t !! x) as [s|] eqn:E; [|done]. cbn [Exists negb Value].
  rewrite run_bind, (run_decode_or env) by (by apply Hx).
  by rewrite (ki_model_id _ _ Hi x s E), bool_decide_eq_true_2.
Qed.

Lemma run_index w d key P :
  indexes (values w d) key P →
  run env (readIndex d key) w =
    (inr ({| IDs := index_ids (values w d) key |}, ETag (entry_of w d key)), w).
Proof. intros Hi. apply run_readIndex. by destruct (indexes_ids _ _ _ Hi). Qed.

(** The program does on the store what [spec] does on the tables. *)
Definition refines_keys w d (p : prog unit) (spec : error + key_tables) : Prop :=
  match spec with
  | inl e => run env p w = (inl e, w)
  | inr t' => ∃ w', run env p w = (inr tt, w') ∧ keys_inv (values w' d) t' ∧
                ∀ d', d' ≠ d → store_of w' d' = store_of w d'
  end.

Lemma commit_keys w d (p : prog unit) ops t' :
  run env p w = run env (transact d ops) w →
  Forall known_type ops → Forall (fresh w d) ops →
  keys_inv (apply_values ops (values w d)) t' →
  refines_keys w d p (inr t').
Proof.
  intros Hp Hk Hf Hi. destruct (run_transact env d ops w Hk Hf) as (s & Hs & Hv).
  exists (set_store w d s). rewrite store_of_same, Hp, Hv. split_and!; [done|done|].
  intros d' Hd'. by rewrite store_of_set, decide_False.
Qed.

Lemma owns_keys_false t u : owns_keys t u = false ↔ ∀ id, ¬ by_user t u id.
Proof.
  rewrite <- not_true_iff_false. unfold owns_keys. rewrite existsb_elem. split.
  - intros Hno id (k & Hk & Hu). apply Hno. exists (id, k).
    by rewrite elem_of_map_to_list, bool_decide_eq_true.
  - intros Hno ([id k] & Hk & Hu). apply elem_of_map_to_list in Hk.
    apply bool_decide_eq_true in Hu. apply (Hno id). by exists k.
Qed.

Lemma uses_model_false t x : uses_model t x = false ↔ ∀ id, ¬ by_model t x id.
Proof.
  rewrite <- not_true_iff_false. unfold uses_model. rewrite existsb_elem. split.
  - intros Hno id (k & Hk & Hu). apply Hno. exists (id, k).
    by rewrite elem_of_map_to_list, bool_decide_eq_true.
  - intros Hno ([id k] & Hk & Hu). apply elem_of_map_to_list in Hk.
    apply bool_decide_eq_true in Hu. apply (Hno id). by exists k.
Qed.

(** An index is empty when nothing satisfies its predicate. *)
Lemma index_empty m key P b :
  indexes m key P → (b = false ↔ ∀ id, ¬ P id) →
  bool_decide (index_ids m key = []) = negb b.
Proof.
  intros Hi Hb. destruct (indexes_ids _ _ _ Hi) as (_ & _ & HP).
  apply eq_true_iff_eq. rewrite bool_decide_eq_true, negb_true_iff, Hb. split.
  - intros E id Hid. apply HP in Hid. rewrite E in Hid. by apply elem_of_nil in Hid.
  - intros Hno. destruct (index_ids m key) as [|id l]; [done|].
    exfalso. apply (Hno id), HP. by left.
Qed.

Lemma keys_kept m m' (kt : gmap string VirtualKey) :
  (∀ k, footprint VirtualKey k → m !! k = m' !! k) → coll_inv m kt → coll_inv m' kt.
Proof. apply coll_inv_ext. Qed.

Lemma subject_not_footprint u k : footprint VirtualKey k → keySubjectKey u ≠ k.
Proof. intros [[id ->]|[->|[y Hy]]]; [key_diff..|]. member_cases. subst. key_diff. Qed.
Lemma model_subject_not_footprint x k : footprint VirtualKey k → modelSubjectKey x ≠ k.
Proof. intros [[id ->]|[->|[y Hy]]]; [key_diff..|]. member_cases. subst. key_diff. Qed.

(** Writing a subject: a tombstone only when its user owns no keys. *)
Lemma set_subject_writes m t s :
  keys_inv m t → storable s → (KS_Deleted s = true → ∀ id, ¬ by_user t (KS_UserID s) id) →
  keys_inv (<[keySubjectKey (KS_UserID s) := enc s]> m) (set_subject t s).
Proof.
  intros Hi Hs Hdel. split; cbn [keys subjects model_subjects set_subject].
  - eapply keys_kept; [|apply Hi]. intros k Hk.
    by rewrite lookup_insert_ne by by apply subject_not_footprint.
  - intros u. destruct (decide (u = KS_UserID s)) as [->|Hne].
    + rewrite lookup_insert_eq. by apply has_insert.
    + rewrite (lookup_insert_ne (subjects t)) by done. apply has_insert_ne; [key_diff|apply Hi].
  - intros u s'. rewrite lookup_insert_Some. intros [[<- <-]|[_ Hs']]; [done|by eapply Hi].
  - intros x. apply has_insert_ne; [key_diff|apply Hi].
  - intros x s'. apply Hi.
  - intros u. apply (indexes_ext m); [by kvs|apply (ki_by_user _ _ Hi)].
  - intros x. apply (indexes_ext m); [by kvs|apply (ki_by_model _ _ Hi)].
  - intros id k Hk. destruct (ki_ok _ _ Hi id k Hk) as [? ? ? [s' [Hs' Hd]] ?].
    split; cbn; try done. destruct (decide (Key_UserID k = KS_UserID s)) as [E|Hne].
    + exists s. rewrite E, lookup_insert_eq. split; [done|].
      destruct (KS_Deleted s) eqn:Ed; [|done]. exfalso. apply (Hdel eq_refl id). by exists k.
    + exists s'. by rewrite lookup_insert_ne.
Qed.

Lemma set_model_subject_writes m t s :
  keys_inv m t → storable s → (MS_Deleted s = true → ∀ id, ¬ by_model t (MS_ModelID s) id) →
  keys_inv (<[modelSubjectKey (MS_ModelID s) := enc s]> m) (set_model_subject t s).
Proof.
  intros Hi Hs Hdel. split; cbn [keys subjects model_subjects set_model_subject].
  - eapply keys_kept; [|apply Hi]. intros k Hk.
    by rewrite lookup_insert_ne by by apply model_subject_not_footprint.
  - intros u. apply has_insert_ne; [key_diff|apply Hi].
  - intros u s'. apply Hi.
  - intros x. destruct (decide (x = MS_ModelID s)) as [->|Hne].
    + rewrite lookup_insert_eq. by apply has_insert.
    + rewrite (lookup_insert_ne (model_subjects t)) by done.
      apply has_insert_ne; [key_diff|apply Hi].
  - intros x s'. rewrite lookup_insert_Some. intros [[<- <-]|[_ Hs']]; [done|by eapply Hi].
  - intros u. apply (indexes_ext m); [by kvs|apply (ki_by_user _ _ Hi)].
  - intros x. apply (indexes_ext m); [by kvs|apply (ki_by_model _ _ Hi)].
  - intros id k Hk. destruct (ki_ok _ _ Hi id k Hk) as [? ? ? ? Hmodels].
    split; cbn; try done. intros x Hx. destruct (Hmodels x Hx) as (s' & Hs' & Hd).
    destruct (decide (x = MS_ModelID s)) as [->|Hne].
    + exists s. rewrite lookup_insert_eq. split; [done|].
      destruct (MS_Deleted s) eqn:Ed; [|done]. exfalso. apply (Hdel eq_refl id). by exists k.
    + exists s'. by rewrite lookup_insert_ne.
Qed.

Lemma compare_read w d t s :
  compareSubjectUpdate (read_subject w d t (KS_UserID s)) s =
  compareSubjectUpdate (stored (subjects t !! KS_UserID s)) s.
Proof. done. Qed.
Lemma compare_read_model w d t s :
  compareModelSubjectUpdate (read_model w d t (MS_ModelID s)) s =
  compareModelSubjectUpdate (stored_model (model_subjects t !! MS_ModelID s)) s.
Proof. done. Qed.

Lemma run_check {A} w (e : option error) (f : unit → prog A) :
  run env (check e ≫= f) w = match e with Some e => (inl e, w) | None => run env (f tt) w end.
Proof. by destruct e. Qed.
Lemma run_lift {A B} w (r : error + A) (f : A → prog B) :
  run env (lift r ≫= f) w = match r with inl e => (inl e, w) | inr a => run env (f a) w end.
Proof. by destruct r. Qed.

(** The end of both subject updates: compare, then write. *)
Lemma run_subject_update w d t s :
  keys_inv (values w d) t → storable s →
  (KS_Deleted s = true → ∀ id, ¬ by_user t (KS_UserID s) id) →
  refines_keys w d
    (idempotent ← lift (compareSubjectUpdate (read_subject w d t (KS_UserID s)) s);
     if (idempotent : bool) then mret tt else
     value ← encode s;
     transact d [upsert (keySubjectKey (KS_UserID s)) value
       (sub_etag (read_subject w d t (KS_UserID s)))])
    (spec_update_subject t s).
Proof.
  intros Hi Hs Hdel. unfold spec_update_subject. rewrite compare_read.
  destruct (compareSubjectUpdate _ s) as [e|[]].
  - unfold refines_keys. by rewrite run_lift.
  - exists w. by rewrite run_lift.
  - eapply commit_keys with (ops := [upsert _ _ _]).
    + rewrite run_lift. by erewrite run_step by (by refine (run_encode env _ _ _)).
    + repeat constructor.
    + constructor; [apply fresh_upsert|constructor].
    + by apply set_subject_writes.
Qed.

Lemma run_model_subject_update w d t s :
  keys_inv (values w d) t → storable s →
  (MS_Deleted s = true → ∀ id, ¬ by_model t (MS_ModelID s) id) →
  refines_keys w d
    (idempotent ← lift (compareModelSubjectUpdate (read_model w d t (MS_ModelID s)) s);
     if (idempotent : bool) then mret tt else
     value ← encode s;
     transact d [upsert (modelSubjectKey (MS_ModelID s)) value
       (msub_etag (read_model w d t (MS_ModelID s)))])
    (spec_update_model t s).
Proof.
  intros Hi Hs Hdel. unfold spec_update_model. rewrite compare_read_model.
  destruct (compareModelSubjectUpdate _ s) as [e|[]].
  - unfold refines_keys. by rewrite run_lift.
  - exists w. by rewrite run_lift.
  - eapply commit_keys with (ops := [upsert _ _ _]).
    + rewrite run_lift. by erewrite run_step by (by refine (run_encode env _ _ _)).
    + repeat constructor.
    + constructor; [apply fresh_upsert|constructor].
    + by apply set_model_subject_writes.
Qed.

Lemma refines_keys_run w d p q spec :
  run env p w = run env q w → refines_keys w d q spec → refines_keys w d p spec.
Proof. intros E. unfold refines_keys. by rewrite E. Qed.

Lemma run_SyncSubject w d t s :
  keys_inv (values w d) t → storable s →
  refines_keys w d (SyncSubject d s) (spec_SyncSubject t s).
Proof.
  intros Hi Hs. unfold SyncSubject, spec_SyncSubject, or_err, require.
  destruct (validateSubjectPayload s) as [e|] eqn:Hv; [unfold refines_keys; by rewrite run_check|].
  destruct (KS_Deleted s) eqn:Hd; cbn [negb]; [unfold refines_keys; by rewrite run_check, run_guard|].
  eapply refines_keys_run; [|apply run_subject_update; [done|done|by rewrite Hd]].
  rewrite run_check, run_guard.
  by erewrite run_step by (by apply run_readSubject).
Qed.

Lemma run_SyncModelSubject w d t s :
  keys_inv (values w d) t → storable s →
  refines_keys w d (SyncModelSubject d s) (spec_SyncModelSubject t s).
Proof.
  intros Hi Hs. unfold SyncModelSubject, spec_SyncModelSubject, or_err, require.
  destruct (validateModelSubjectPayload s) as [e|] eqn:Hv;
    [unfold refines_keys; by rewrite run_check|].
  destruct (MS_Deleted s) eqn:Hd; cbn [negb]; [unfold refines_keys; by rewrite run_check, run_guard|].
  eapply refines_keys_run; [|apply run_model_subject_update; [done|done|by rewrite Hd]].
  rewrite run_check, run_guard.
  by erewrite run_step by (by apply run_readModelSubject).
Qed.

Lemma run_FenceSubject w d t s :
  keys_inv (values w d) t → storable s →
  refines_keys w d (FenceSubject d s) (spec_FenceSubject t s).
Proof.
  intros Hi Hs. unfold FenceSubject, spec_FenceSubject, or_err, require.
  destruct (validateSubjectPayload s) as [e|] eqn:Hv; [unfold refines_keys; by rewrite run_check|].
  destruct (KS_Deleted s) eqn:Hd; cbn [negb]; [|unfold refines_keys; by rewrite run_check, run_guard].
  pose proof (index_empty _ _ _ _ (ki_by_user _ _ Hi (KS_UserID s)) (owns_keys_false t _)) as Hix.
  destruct (owns_keys t (KS_UserID s)) eqn:Ho; cbn [negb].
  - unfold refines_keys. rewrite run_check, run_guard.
    erewrite run_step by (by apply run_readSubject). cbv beta iota. unfold wrap_err.
    rewrite run_bind, run_bind_result, (run_index _ _ _ _ (ki_by_user _ _ Hi _)). cbn -[index_ids].
    by rewrite Hix.
  - eapply refines_keys_run; [|apply run_subject_update; [done|done|]].
    + rewrite run_check, run_guard.
      erewrite run_step by (by apply run_readSubject). cbv beta iota. unfold wrap_err.
      rewrite run_bind, run_bind_result, (run_index _ _ _ _ (ki_by_user _ _ Hi _)).
      cbn -[index_ids lift]. by rewrite Hix.
    + intros _. by apply owns_keys_false.
Qed.

Lemma run_FenceModelSubject w d t s :
  keys_inv (values w d) t → storable s →
  refines_keys w d (FenceModelSubject d s) (spec_FenceModelSubject t s).
Proof.
  intros Hi Hs. unfold FenceModelSubject, spec_FenceModelSubject, or_err, require.
  destruct (validateModelSubjectPayload s) as [e|] eqn:Hv;
    [unfold refines_keys; by rewrite run_check|].
  destruct (MS_Deleted s) eqn:Hd; cbn [negb]; [|unfold refines_keys; by rewrite run_check, run_guard].
  pose proof (index_empty _ _ _ _ (ki_by_model _ _ Hi (MS_ModelID s)) (uses_model_false t _)) as Hix.
  destruct (uses_model t (MS_ModelID s)) eqn:Ho; cbn [negb].
  - unfold refines_keys. rewrite run_check, run_guard.
    erewrite run_step by (by apply run_readModelSubject). cbv beta iota. unfold wrap_err.
    rewrite run_bind, run_bind_result, (run_index _ _ _ _ (ki_by_model _ _ Hi _)).
    cbn -[index_ids]. by rewrite Hix.
  - eapply refines_keys_run; [|apply run_model_subject_update; [done|done|]].
    + rewrite run_check, run_guard.
      erewrite run_step by (by apply run_readModelSubject). cbv beta iota. unfold wrap_err.
      rewrite run_bind, run_bind_result, (run_index _ _ _ _ (ki_by_model _ _ Hi _)).
      cbn -[index_ids lift]. by rewrite Hix.
    + intros _. by apply uses_model_false.
Qed.

(** ** Model indexes *)

Lemma modelIDSet_from_inr r ids s :
  modelIDSet_from r ids = inr s ↔
  NoDup ids ∧ ("" ∉ ids) ∧ (∀ x, x ∈ ids → x ∉ r) ∧ s = r ∪ list_to_set ids.
Proof.
  revert r. induction ids as [|x ids IH]; intros r; cbn.
  - rewrite list.NoDup_nil. split.
    + intros [= <-]. split_and!; [done|by intros ?%elem_of_nil|by intros ? ?%elem_of_nil|set_solver].
    + intros (_ & _ & _ & ->). f_equal. set_solver.
  - rewrite list.NoDup_cons, not_elem_of_cons.
    case_bool_decide as Hx; [split; [done|]; by intros (_ & [? _] & _)|].
    case_bool_decide as Hr.
    { split; [done|]. intros (_ & _ & Hd & _). exfalso. apply (Hd x); [by left|done]. }
    rewrite IH. split.
    + intros (Hnd & Hne & Hd & ->). split_and!; [|done|by intros <-|done| |set_solver].
      * intros Hin. apply (Hd x Hin). set_solver.
      * intros y [->|Hy]%elem_of_cons; [done|]. specialize (Hd y Hy). set_solver.
    + intros ([Hnin Hnd] & [? Hne] & Hd & ->). split_and!; [done|done| |set_solver].
      intros y Hy. assert (y ∉ r) by (apply Hd; by right). set_solver.
Qed.

Lemma modelIDSet_inr ids s :
  modelIDSet ids = inr s ↔ NoDup ids ∧ ("" ∉ ids) ∧ s = list_to_set ids.
Proof.
  unfold modelIDSet. rewrite modelIDSet_from_inr. split.
  - intros (? & ? & _ & ->). split_and!; [done|done|]. set_solver.
  - intros (? & ? & ->). split_and!; [done|done|set_solver|set_solver].
Qed.

Lemma elem_of_sorted_ids (olds news : gset string) x :
  x ∈ sorted_ids olds news ↔ x ∈ olds ∨ x ∈ news.
Proof.
  unfold sorted_ids. rewrite (merge_sort_Permutation String.le (elements (olds ∪ news))). set_solver.
Qed.

Definition mutation_of w d t x : modelIndexMutation := {|
  mut_subject := read_model w d t x;
  mut_index := {| IDs := index_ids (values w d) (virtualKeysByModelIndexKey x) |};
  mut_etag := ETag (entry_of w d (virtualKeysByModelIndexKey x))
|}.
Definition mutations_of w d t xs : gmap string modelIndexMutation :=
  list_to_map (map (λ x, (x, mutation_of w d t x)) xs).

Lemma mutations_of_lookup w d t xs x :
  x ∈ xs → mutations_of w d t xs !! x = Some (mutation_of w d t x).
Proof.
  induction xs as [|y xs IH]; [by intros ?%elem_of_nil|]. unfold mutations_of. cbn.
  destruct (decide (x = y)) as [->|Hne]; [by rewrite lookup_insert_eq|].
  rewrite lookup_insert_ne by done. intros [?|?]%elem_of_cons; [done|by apply IH].
Qed.

Lemma run_prepare_mutations w d t newSet key xs :
  keys_inv (values w d) t →
  run env (prepare_mutations d newSet key xs) w =
    (match models_check t newSet key xs with
     | Some e => inl e
     | None => inr (mutations_of w d t xs)
     end, w).
Proof.
  intros Hi. induction xs as [|x xs IH]; [done|]. cbn [prepare_mutations models_check first_some].
  erewrite run_step by (by apply run_readModelSubject). cbv beta iota.
  change (ensureModelCanBackKey (read_model w d t x) key) with
    (ensureModelCanBackKey (stored_model (model_subjects t !! x)) key).
  unfold model_check at 1. fold (models_check t newSet key xs).
  assert (Hrest : run env ('(index, etag) ←
      wrap_err (λ e, Errorf "get virtual keys by model index: %w" [AWrap e])
        (readIndex d (virtualKeysByModelIndexKey x));
      mutations ← prepare_mutations d newSet key xs;
      mret (<[x := {| mut_subject := read_model w d t x; mut_index := index; mut_etag := etag |}]>
        mutations)) w =
    (match models_check t newSet key xs with
     | Some e => inl e
     | None => inr (mutations_of w d t (x :: xs))
     end, w)).
  { unfold wrap_err. rewrite run_bind, run_bind_result, (run_index _ _ _ _ (ki_by_model _ _ Hi x)).
    cbn -[index_ids prepare_mutations read_model mutations_of]. rewrite run_bind, IH.
    by destruct (models_check t newSet key xs). }
  case_bool_decide as Hx.
  - destruct (ensureModelCanBackKey _ key) as [e|]; [by rewrite run_bind|].
    erewrite (run_step env (mret _)) by done. exact Hrest.
  - rewrite run_guard. cbn [read_model msub_exists msub_value].
    destruct (negb _ || _); [done|]. exact Hrest.
Qed.

(** The index of a model with the id of the key removed or added. *)
Definition new_model_index w d (id : string) (oldIDs newIDs : list string) (x : string)
    : resourceIndex :=
  let index := {| IDs := index_ids (values w d) (virtualKeysByModelIndexKey x) |} in
  let index := if bool_decide (x ∈ oldIDs) && negb (bool_decide (x ∈ newIDs))
               then removeIndexID index id else index in
  if bool_decide (x ∈ newIDs) then addIndexID index id else index.

Fixpoint model_ops w d t (id : string) (oldIDs newIDs xs : list string) : list Operation :=
  match xs with
  | [] => []
  | x :: xs' =>
      upsert (virtualKeysByModelIndexKey x) (enc (new_model_index w d id oldIDs newIDs x))
        (ETag (entry_of w d (virtualKeysByModelIndexKey x)))
      :: upsert (modelSubjectKey x) (enc (msub_value (stored_model (model_subjects t !! x))))
           (ETag (entry_of w d (modelSubjectKey x)))
      :: model_ops w d t id oldIDs newIDs xs'
  end.

Lemma new_model_index_storable w d t id oldIDs newIDs x :
  keys_inv (values w d) t → storable id → storable (new_model_index w d id oldIDs newIDs x).
Proof.
  intros Hi Hid. destruct (indexes_ids _ _ _ (ki_by_model _ _ Hi x)) as [Hix _].
  apply index_storable in Hix. unfold new_model_index.
  destruct (bool_decide (x ∈ newIDs)), (bool_decide (x ∈ oldIDs)); cbn [andb negb];
    auto using addIndexID_storable, removeIndexID_storable.
Qed.

Lemma run_modelIndexOperations w d t muts id oldIDs newIDs xs :
  keys_inv (values w d) t → storable id →
  (∀ x, x ∈ xs → muts !! x = Some (mutation_of w d t x) ∧ is_Some (model_subjects t !! x)) →
  run env (modelIndexOperations xs muts id oldIDs newIDs) w =
    (inr (model_ops w d t id oldIDs newIDs xs), w).
Proof.
  intros Hi Hid Hxs. induction xs as [|x xs IH]; [done|].
  cbn [modelIndexOperations model_ops].
  destruct (Hxs x (list_elem_of_here _ _)) as [Hm [s Hs]]. rewrite Hm. cbn [mut_index from_option Datatypes.id].
  erewrite run_step by (refine (run_encode env _ _ _); by eapply new_model_index_storable).
  cbv beta iota. rewrite Hs. cbn [mut_subject mutation_of stored_model msub_value].
  assert (Hread : read_model w d t x = {| msub_value := s;
    msub_etag := ETag (entry_of w d (modelSubjectKey x)); msub_exists := true |}).
  { unfold read_model. by rewrite Hs. }
  rewrite Hread. erewrite (run_step env (modelSubjectTouchOperation _)); cycle 1.
  { unfold modelSubjectTouchOperation. cbn [msub_exists negb msub_value].
    erewrite run_step by (refine (run_encode env _ _ _); exact (proj2 (ki_model _ _ Hi x) s Hs)).
    cbv beta iota. by rewrite (ki_model_id _ _ Hi x s Hs). }
  cbv beta iota. by rewrite run_bind, IH by (intros y Hy; apply Hxs; by right).
Qed.

Lemma model_ops_other w d t id oldIDs newIDs xs m k :
  (∀ x, k ≠ virtualKeysByModelIndexKey x) → (∀ x, k ≠ modelSubjectKey x) →
  apply_values (model_ops w d t id oldIDs newIDs xs) m !! k = m !! k.
Proof.
  intros H1 H2. apply apply_values_other. induction xs as [|x xs IH]; [by intros ?%elem_of_nil|].
  cbn. rewrite !not_elem_of_cons. split_and!; [apply H1|apply H2|done].
Qed.

Lemma model_ops_index w d t id oldIDs newIDs xs m x :
  apply_values (model_ops w d t id oldIDs newIDs xs) m !! virtualKeysByModelIndexKey x =
  if bool_decide (x ∈ xs) then Some (enc (new_model_index w d id oldIDs newIDs x))
  else m !! virtualKeysByModelIndexKey x.
Proof.
  revert m. induction xs as [|y xs IH]; intros m; [done|]. cbn [model_ops].
  rewrite !apply_values_upsert, IH. destruct (decide (x ∈ xs)) as [Hx|Hx].
  { rewrite !bool_decide_eq_true_2; [done|by right|done]. }
  rewrite bool_decide_eq_false_2 by done. rewrite lookup_insert_ne by key_diff.
  destruct (decide (x = y)) as [->|Hne].
  - by rewrite lookup_insert_eq, bool_decide_eq_true_2 by by left.
  - rewrite lookup_insert_ne by key_diff. rewrite bool_decide_eq_false_2; [done|].
    rewrite not_elem_of_cons. naive_solver.
Qed.

Lemma model_ops_subject w d t id oldIDs newIDs xs m x :
  (∀ y, y ∈ xs → ∃ s, model_subjects t !! y = Some s ∧ m !! modelSubjectKey y = Some (enc s)) →
  apply_values (model_ops w d t id oldIDs newIDs xs) m !! modelSubjectKey x =
  m !! modelSubjectKey x.
Proof.
  revert m. induction xs as [|y xs IH]; intros m Hxs; [done|]. cbn [model_ops].
  rewrite !apply_values_upsert. destruct (Hxs y (list_elem_of_here _ _)) as (s & Hs & Hm).
  rewrite Hs. cbn [stored_model msub_value]. rewrite IH.
  - rewrite insert_id; [by rewrite lookup_insert_ne by key_diff|].
    by rewrite lookup_insert_ne by key_diff.
  - intros z Hz. destruct (Hxs z) as (sz & Hsz & Hmz); [by right|]. exists sz. split; [done|].
    rewrite insert_id by (by rewrite lookup_insert_ne by key_diff).
    by rewrite lookup_insert_ne by key_diff.
Qed.

(** What the users of a model become when a key changes its models. *)
Record models_change (t t' : key_tables) (id : string) (oldIDs newIDs : list string) : Prop := {
  mc_new x i : x ∈ newIDs → by_model t' x i ↔ i = id ∨ by_model t x i;
  mc_dropped x i : x ∉ newIDs → x ∈ oldIDs → by_model t' x i ↔ i ≠ id ∧ by_model t x i;
  mc_other x i : x ∉ newIDs → x ∉ oldIDs → by_model t' x i ↔ by_model t x i
}.

Lemma new_model_index_spec w d t t' id oldIDs newIDs x m :
  keys_inv (values w d) t → storable id → models_change t t' id oldIDs newIDs →
  x ∈ oldIDs ∨ x ∈ newIDs →
  m !! virtualKeysByModelIndexKey x = Some (enc (new_model_index w d id oldIDs newIDs x)) →
  indexes m (virtualKeysByModelIndexKey x) (by_model t' x).
Proof.
  intros Hi Hid Hc Hx Hm.
  destruct (indexes_ids _ _ _ (ki_by_model _ _ Hi x)) as (Hix & Hnd & HP).
  exists (IDs (new_model_index w d id oldIDs newIDs x)). split.
  { eexists (Some _). split; [split; [exact Hm|]|done]. intros y [= <-].
    by eapply new_model_index_storable. }
  unfold new_model_index. destruct (decide (x ∈ newIDs)) as [Hn|Hn].
  - rewrite (bool_decide_eq_true_2 (x ∈ newIDs)) by done. rewrite andb_false_r.
    destruct (addIndexID_spec _ id _ Hnd HP) as [? E]. split; [done|].
    intros i. rewrite E. symmetry. by eapply mc_new.
  - rewrite (bool_decide_eq_false_2 (x ∈ newIDs)) by done.
    rewrite bool_decide_eq_true_2 by (by destruct Hx). cbn [andb negb].
    destruct (removeIndexID_spec _ id _ Hnd HP) as [? E]. split; [done|].
    intros i. rewrite E. symmetry. eapply mc_dropped; [done|done|]. by destruct Hx.
Qed.

(** Values after the base writes of a key mutation and its model writes. *)
Lemma keys_inv_write w d t t' id oldIDs newIDs xs m1 :
  keys_inv (values w d) t → storable id →
  (∀ x, x ∈ xs ↔ x ∈ oldIDs ∨ x ∈ newIDs) →
  (∀ x, x ∈ xs → is_Some (model_subjects t !! x)) →
  subjects t' = subjects t → model_subjects t' = model_subjects t →
  models_change t t' id oldIDs newIDs →
  coll_inv m1 (keys t') →
  (∀ u, m1 !! keySubjectKey u = values w d !! keySubjectKey u) →
  (∀ x, m1 !! modelSubjectKey x = values w d !! modelSubjectKey x) →
  (∀ x, m1 !! virtualKeysByModelIndexKey x = values w d !! virtualKeysByModelIndexKey x) →
  (∀ u, indexes m1 (virtualKeysByUserIndexKey u) (by_user t' u)) →
  (∀ i k, keys t' !! i = Some k → key_ok t' k) →
  keys_inv (apply_values (model_ops w d t id oldIDs newIDs xs) m1) t'.
Proof.
  intros Hi Hid Hxs Hsome Es Em Hc Hk Hsub Hmsub Hix Huser Hok.
  assert (Htouch : ∀ y, y ∈ xs → ∃ s, model_subjects t !! y = Some s ∧
    m1 !! modelSubjectKey y = Some (enc s)).
  { intros y Hy. destruct (Hsome y Hy) as [s Hs]. exists s. split; [done|].
    destruct (ki_model _ _ Hi y) as [E _]. by rewrite Hmsub, E, Hs. }
  split; [| |by rewrite Es; apply Hi| |by rewrite Em; apply Hi| | |done].
  - eapply coll_inv_ext; [|exact Hk]. intros k Hf. symmetry.
    destruct Hf as [[i ->]|[->|[y Hy]]]; [| |member_cases; subst]; apply model_ops_other;
      intros x; key_diff.
  - intros u. rewrite Es. eapply has_ext; [|apply (ki_subject _ _ Hi)].
    rewrite model_ops_other by (intros x; key_diff). done.
  - intros x. rewrite Em. eapply has_ext; [|apply (ki_model _ _ Hi)].
    by rewrite model_ops_subject.
  - intros u. eapply indexes_ext; [|apply Huser]. symmetry. apply model_ops_other; intros x; key_diff.
  - intros x. pose proof (model_ops_index w d t id oldIDs newIDs xs m1 x) as E.
    destruct (decide (x ∈ xs)) as [Hx|Hx].
    + rewrite bool_decide_eq_true_2 in E by done.
      eapply new_model_index_spec; [done..|by apply Hxs|done].
    + rewrite bool_decide_eq_false_2 in E by done. rewrite Hxs in Hx.
      apply (indexes_ext (values w d)); [by rewrite E, Hix|].
      eapply indexes_iff; [|apply (ki_by_model _ _ Hi)]. intros i. symmetry.
      apply (mc_other _ _ _ _ _ Hc); naive_solver.
Qed.

(** ** Changing one key *)

Lemma key_ok_set t kt k : key_ok t k → key_ok (set_keys t kt) k.
Proof. intros []. by split. Qed.

Lemma by_user_insert t k u i :
  by_user (set_keys t (<[Key_ID k := k]> (keys t))) u i ↔
  (i = Key_ID k ∧ Key_UserID k = u) ∨ (i ≠ Key_ID k ∧ by_user t u i).
Proof.
  unfold by_user. cbn. destruct (decide (i = Key_ID k)) as [->|Hne].
  - rewrite lookup_insert_eq. naive_solver.
  - rewrite lookup_insert_ne by done. naive_solver.
Qed.

Lemma by_model_insert t k x i :
  by_model (set_keys t (<[Key_ID k := k]> (keys t))) x i ↔
  (i = Key_ID k ∧ x ∈ Key_ModelIDs k) ∨ (i ≠ Key_ID k ∧ by_model t x i).
Proof.
  unfold by_model. cbn. destruct (decide (i = Key_ID k)) as [->|Hne].
  - rewrite lookup_insert_eq. naive_solver.
  - rewrite lookup_insert_ne by done. naive_solver.
Qed.

Lemma by_user_delete t id u i :
  by_user (set_keys t (delete id (keys t))) u i ↔ i ≠ id ∧ by_user t u i.
Proof. unfold by_user. cbn. setoid_rewrite lookup_delete_Some. naive_solver. Qed.

Lemma by_model_delete t id x i :
  by_model (set_keys t (delete id (keys t))) x i ↔ i ≠ id ∧ by_model t x i.
Proof. unfold by_model. cbn. setoid_rewrite lookup_delete_Some. naive_solver. Qed.

Lemma models_change_insert t k oldIDs :
  oldIDs = from_option Key_ModelIDs [] (keys t !! Key_ID k) →
  models_change t (set_keys t (<[Key_ID k := k]> (keys t))) (Key_ID k) oldIDs (Key_ModelIDs k).
Proof.
  intros ->. assert (Hold : ∀ x, by_model t x (Key_ID k) →
    x ∈ from_option Key_ModelIDs [] (keys t !! Key_ID k)).
  { intros x (k' & -> & Hx). done. }
  split; intros x i; rewrite by_model_insert; destruct (decide (i = Key_ID k)) as [->|Hne];
    naive_solver.
Qed.

Lemma models_change_delete t id k :
  keys t !! id = Some k →
  models_change t (set_keys t (delete id (keys t))) id (Key_ModelIDs k) [].
Proof.
  intros Hk. split; intros x i; rewrite by_model_delete.
  - by intros ?%elem_of_nil.
  - done.
  - intros _ Hx. split; [naive_solver|]. intros Hb. split; [|done]. intros ->.
    destruct Hb as (k' & Hk' & Hx'). congruence.
Qed.

(** A key that passed the checks is acceptable. *)
Lemma checked_key_ok t k oldSet newSet :
  Key_ModelIDs k ≠ [] → modelIDSet (Key_ModelIDs k) = inr newSet →
  ensureSubjectCanOwnKey (stored (subjects t !! Key_UserID k)) k = None →
  models_check t newSet k (sorted_ids oldSet newSet) = None →
  key_ok t k.
Proof.
  intros Hne Hset Hsub Hcheck. apply modelIDSet_inr in Hset as (Hnd & Hnamed & ->).
  split; [done|done|done| |].
  - unfold ensureSubjectCanOwnKey in Hsub. destruct (subjects t !! Key_UserID k) as [s|]; [|done].
    exists s. split; [done|]. cbn in Hsub. by destruct (KS_Deleted s).
  - intros x Hx. unfold models_check in Hcheck.
    assert (Hin : x ∈ sorted_ids oldSet (list_to_set (Key_ModelIDs k))).
    { apply elem_of_sorted_ids. right. set_solver. }
    assert (Hc : model_check t (list_to_set (Key_ModelIDs k)) k x = None).
    { revert Hcheck Hin. generalize (sorted_ids oldSet (list_to_set (Key_ModelIDs k))).
      intros l. induction l as [|y l IH]; [by intros _ ?%elem_of_nil|]. cbn.
      destruct (model_check _ _ _ y) eqn:E; [done|]. intros Hl [->|?]%elem_of_cons; auto. }
    unfold model_check in Hc. rewrite bool_decide_eq_true_2 in Hc by set_solver.
    destruct (model_subjects t !! x) as [s|]; [|done]. exists s. split; [done|].
    cbn in Hc. destruct (MS_Deleted s); [done|done].
Qed.

Lemma models_check_some t newSet key xs x :
  models_check t newSet key xs = None → x ∈ xs → is_Some (model_subjects t !! x).
Proof.
  unfold models_check. induction xs as [|y xs IH]; [by intros _ ?%elem_of_nil|]. cbn.
  destruct (model_check t newSet key y) as [e|] eqn:E; [done|].
  intros Hxs [->|Hx]%elem_of_cons; [|by apply IH]. unfold model_check in E.
  destruct (model_subjects t !! y); [done|]. by destruct (bool_decide (y ∈ newSet)).
Qed.

Lemma run_prepareModelIndexMutations w d t oldIDs newIDs key :
  keys_inv (values w d) t →
  run env (prepareModelIndexMutations d oldIDs newIDs key) w =
    (match modelIDSet oldIDs, modelIDSet newIDs with
     | inl e, _ | _, inl e => inl e
     | inr olds, inr news =>
         match models_check t news key (sorted_ids olds news) with
         | Some e => inl e
         | None => inr (sorted_ids olds news, mutations_of w d t (sorted_ids olds news))
         end
     end, w).
Proof.
  intros Hi. unfold prepareModelIndexMutations. rewrite run_lift.
  destruct (modelIDSet oldIDs) as [e|olds]; [done|]. rewrite run_lift.
  destruct (modelIDSet newIDs) as [e|news]; [done|].
  rewrite run_bind, (run_prepare_mutations w d t) by done.
  by destruct (models_check t news key _).
Qed.

(** ** Creating a key *)

Abbreviation touch_subject w d u s :=
  (upsert (keySubjectKey u) (enc s) (ETag (entry_of w d (keySubjectKey u)))).

Lemma run_subjectTouch w d t u s :
  keys_inv (values w d) t → subjects t !! u = Some s →
  run env (subjectTouchOperation (read_subject w d t u)) w = (inr (touch_subject w d u s), w).
Proof.
  intros Hi Hs. unfold subjectTouchOperation, read_subject. rewrite Hs.
  cbn [stored sub_exists negb sub_value].
  erewrite run_step by (refine (run_encode env _ _ _); exact (proj2 (ki_subject _ _ Hi u) s Hs)).
  cbv beta iota. by rewrite (ki_subject_id _ _ Hi u s Hs).
Qed.

Definition create_key_ops w d t (k : VirtualKey) (s : KeySubject) (xs : list string)
    : list Operation :=
  let user_key := virtualKeysByUserIndexKey (Key_UserID k) in
  [upsert (entityKey "virtual-keys" (Key_ID k)) (enc k) "";
   upsert (indexKey "virtual-keys")
     (enc (addIndexID {| IDs := index_ids (values w d) (indexKey "virtual-keys") |} (Key_ID k)))
     (ETag (entry_of w d (indexKey "virtual-keys")));
   upsert (lookupKey "key-hash" (Key_KeyHash k)) (enc (Key_ID k)) "";
   upsert user_key (enc (addIndexID {| IDs := index_ids (values w d) user_key |} (Key_ID k)))
     (ETag (entry_of w d user_key));
   touch_subject w d (Key_UserID k) s] ++
  model_ops w d t (Key_ID k) [] (Key_ModelIDs k) xs.

Lemma hash_free m kt k :
  coll_inv m kt → kt !! Key_ID k = None →
  clashes kt k = bool_decide (is_Some (m !! lookupKey "key-hash" (Key_KeyHash k))).
Proof.
  intros Hi Hk. pose proof (absent_clashes m kt k Hi Hk) as E. cbn in E.
  destruct (m !! lookupKey _ _) as [v|]; cbn in E; destruct (clashes kt k); try done.
Qed.

Ltac step_encode_key :=
  erewrite run_step by (refine (run_encode env _ _ _);
    first [ done | by eapply index_storable
          | apply addIndexID_storable; [by eapply index_storable|done]
          | apply removeIndexID_storable; by eapply index_storable ]);
  cbv beta iota.

Lemma run_CreateVirtualKey_ops w d t k :
  keys_inv (values w d) t → storable k →
  run env (CreateVirtualKey d k) w =
    match spec_CreateVirtualKey t k, subjects t !! Key_UserID k, modelIDSet (Key_ModelIDs k) with
    | inl e, _, _ => (inl e, w)
    | inr _, Some s, inr news =>
        run env (transact d (create_key_ops w d t k s (sorted_ids ∅ news))) w
    | inr _, _, _ => (inl ErrConflict, w)
    end.
Proof.
  intros Hi Hs. pose proof (ki_keys _ _ Hi) as Hk.
  unfold CreateVirtualKey, spec_CreateVirtualKey, table_create, require. rewrite run_guard.
  destruct (bool_decide (Key_ModelIDs k = [])); [done|]. cbn [negb].
  erewrite run_step by apply run_get. cbv beta iota.
  pose proof (has_entity _ (keys t) (Key_ID k) Hk) as Hx. cbn [coll_name VirtualKey_Collection] in Hx.
  rewrite (entry_has w d _ _ Hx). change (ident k) with (Key_ID k).
  destruct (keys t !! Key_ID k) as [y|] eqn:Hkid; [done|]. cbn [Exists no_entry].
  rewrite (bool_decide_eq_false_2 (is_Some None)) by (by intros [? ?]). cbn [orb].
  rewrite (hash_free _ _ _ Hk Hkid).
  erewrite run_step by apply run_get. cbv beta iota zeta. unfold entry_of at 1.
  destruct (values w d !! lookupKey "key-hash" (Key_KeyHash k)) as [v|]; [done|].
  cbn [Exists no_entry]. rewrite (bool_decide_eq_false_2 (is_Some None)) by (by intros [? ?]).
  erewrite run_step by (by apply run_readSubject). cbv beta iota. rewrite run_check.
  change (ensureSubjectCanOwnKey (read_subject w d t (Key_UserID k)) k) with
    (ensureSubjectCanOwnKey (stored (subjects t !! Key_UserID k)) k).
  destruct (ensureSubjectCanOwnKey _ k) as [e|] eqn:He; [done|]. unfold or_err, spec_models.
  destruct (subjects t !! Key_UserID k) as [s|] eqn:Hsub; [|done].
  erewrite run_step by (by apply run_prepareModelIndexMutations).
  change (modelIDSet []) with (inr ∅ : error + gset string).
  destruct (modelIDSet (Key_ModelIDs k)) as [e|news]; [done|].
  destruct (models_check t news k (sorted_ids ∅ news)) as [e|] eqn:Hmc; [done|]. cbv beta iota zeta.
  destruct (indexes_ids _ _ _ (ci_index _ _ Hk)) as [Hgix _].
  destruct (indexes_ids _ _ _ (ki_by_user _ _ Hi (Key_UserID k))) as [Huix _].
  erewrite run_step by (by apply run_readIndex). cbv beta iota zeta.
  erewrite run_step by (by apply run_readIndex). cbv beta iota zeta.
  assert (Hid : storable (Key_ID k)) by apply Hs.
  do 4 step_encode_key.
  erewrite run_step by (by apply run_subjectTouch). cbv beta iota zeta.
  erewrite run_step; [|apply run_modelIndexOperations; [done|done|]].
  - done.
  - intros x Hx'. split; [by apply mutations_of_lookup|by eapply models_check_some].
Qed.

#[local] Hint Resolve fresh_upsert fresh_upsert_blind fresh_remove fresh_remove_blind
  known_upsert known_remove List.Forall_cons List.Forall_nil : core.

Lemma model_ops_known w d t id olds news xs : Forall known_type (model_ops w d t id olds news xs).
Proof. induction xs; cbn; auto. Qed.
Lemma model_ops_fresh w d t id olds news xs : Forall (fresh w d) (model_ops w d t id olds news xs).
Proof. induction xs; cbn; auto. Qed.

(** Writes outside the footprint of the keys collection. *)
Lemma coll_inv_insert m kt k v :
  ¬ footprint VirtualKey k → coll_inv m kt → coll_inv (<[k := v]> m) kt.
Proof.
  intros Hk. apply coll_inv_ext. intros k' Hf. rewrite lookup_insert_ne; [done|].
  intros ->. done.
Qed.

Lemma user_index_outside u : ¬ footprint VirtualKey (virtualKeysByUserIndexKey u).
Proof. intros [[id E]|[E|[y Hy]]]; [revert E; key_diff..|]. key_ne. Qed.
Lemma subject_outside u : ¬ footprint VirtualKey (keySubjectKey u).
Proof. intros [[id E]|[E|[y Hy]]]; [revert E; key_diff..|]. key_ne. Qed.

Lemma create_key_writes w d t k s xs kt :
  keys_inv (values w d) t → storable k → table_create (keys t) k = inr kt →
  subjects t !! Key_UserID k = Some s → key_ok t k →
  (∀ x, x ∈ xs ↔ x ∈ Key_ModelIDs k) →
  keys_inv (apply_values (create_key_ops w d t k s xs) (values w d)) (set_keys t kt).
Proof.
  intros Hi Hs Ht Hsub Hok Hxs. pose proof (ki_keys _ _ Hi) as Hk.
  unfold table_create in Ht. case_bool_decide as Hx; [done|]. cbn in Ht, Hx.
  destruct (clashes (keys t) k) eqn:Hc; [done|]. injection Ht as <-. apply eq_None_not_Some in Hx.
  destruct (indexes_ids _ _ _ (ci_index _ _ Hk)) as (Hgix & Hgnd & HgP).
  destruct (indexes_ids _ _ _ (ki_by_user _ _ Hi (Key_UserID k))) as (Huix & Hund & HuP).
  unfold create_key_ops. rewrite apply_values_app, !apply_values_upsert. cbn [apply_values foldl].
  apply keys_inv_write; try done; [apply Hs| | | | | | | | |].
  - intros x. rewrite Hxs, elem_of_nil. naive_solver.
  - intros x Hxx. apply Hxs in Hxx. destruct (key_models _ _ Hok x Hxx) as (ms & -> & _). by eexists.
  - apply models_change_insert. by rewrite Hx.
  - apply coll_inv_insert; [apply subject_outside|]. apply coll_inv_insert; [apply user_index_outside|].
    exact (create_writes (T := VirtualKey) _ (keys t) k _ Hk Hs Hx Hc Hgix Hgnd HgP).
  - intros u. destruct (decide (u = Key_UserID k)) as [->|Hne].
    + rewrite lookup_insert_eq. destruct (ki_subject _ _ Hi (Key_UserID k)) as [-> _].
      by rewrite Hsub.
    + by kvs.
  - intros x. by kvs.
  - intros x. by kvs.
  - intros u. destruct (decide (u = Key_UserID k)) as [->|Hne].
    + eapply indexes_ext; [symmetry; apply lookup_insert_ne; key_diff|].
      eapply indexes_iff; [|exact (indexes_add _ _ _ (Key_ID k) _ Huix Hund HuP (proj1 Hs) _)].
      intros i. cbn. rewrite by_user_insert. destruct (decide (i = Key_ID k)) as [->|?]; naive_solver.
    + apply (indexes_ext (values w d)); [by kvs|].
      eapply indexes_iff; [|apply (ki_by_user _ _ Hi)]. intros i. rewrite by_user_insert.
      destruct (decide (i = Key_ID k)) as [->|?]; [|naive_solver].
      split; [|naive_solver]. intros (k' & Hk' & _). congruence.
  - intros i k'. cbn. rewrite lookup_insert_Some. intros [[<- <-]|[_ Hk']]; apply key_ok_set; [done|].
    by eapply (ki_ok _ _ Hi).
Qed.

Lemma run_CreateVirtualKey w d t k :
  keys_inv (values w d) t → storable k →
  refines_keys w d (CreateVirtualKey d k) (spec_CreateVirtualKey t k).
Proof.
  intros Hi Hs. pose proof (run_CreateVirtualKey_ops w d t k Hi Hs) as Hrun.
  destruct (spec_CreateVirtualKey t k) as [e|t'] eqn:Hspec; [done|].
  unfold spec_CreateVirtualKey, require in Hspec.
  destruct (bool_decide (Key_ModelIDs k = [])) eqn:Hne; [done|]. apply bool_decide_eq_false in Hne.
  cbn [negb] in Hspec. destruct (table_create (keys t) k) as [e|kt] eqn:Ht; [done|].
  destruct (ensureSubjectCanOwnKey _ k) eqn:Hens; [done|]. unfold or_err, spec_models in Hspec.
  change (modelIDSet []) with (inr ∅ : error + gset string) in Hspec.
  destruct (modelIDSet (Key_ModelIDs k)) as [e|news] eqn:Hset; [done|].
  destruct (models_check t news k (sorted_ids ∅ news)) eqn:Hmc; [done|]. injection Hspec as <-.
  pose proof (checked_key_ok t k ∅ news Hne Hset Hens Hmc) as Hok.
  destruct (key_owner _ _ Hok) as (s & Hsub & _). rewrite Hsub in Hrun.
  eapply commit_keys; [exact Hrun| | |].
  - apply list.Forall_app. split; [auto 10|apply model_ops_known].
  - apply list.Forall_app. split; [auto 10|apply model_ops_fresh].
  - apply create_key_writes; try done. intros x. rewrite elem_of_sorted_ids.
    apply modelIDSet_inr in Hset as (_ & _ & ->). set_solver.
Qed.

(** ** Deleting a key *)

Definition delete_key_ops w d t (k : VirtualKey) (s : KeySubject) (xs : list string)
    : list Operation :=
  let user_key := virtualKeysByUserIndexKey (Key_UserID k) in
  [remove (entityKey "virtual-keys" (Key_ID k))
     (ETag (entry_of w d (entityKey "virtual-keys" (Key_ID k))));
   upsert (indexKey "virtual-keys")
     (enc (removeIndexID {| IDs := index_ids (values w d) (indexKey "virtual-keys") |} (Key_ID k)))
     (ETag (entry_of w d (indexKey "virtual-keys")));
   remove (lookupKey "key-hash" (Key_KeyHash k)) "";
   upsert user_key (enc (removeIndexID {| IDs := index_ids (values w d) user_key |} (Key_ID k)))
     (ETag (entry_of w d user_key));
   touch_subject w d (Key_UserID k) s] ++
  model_ops w d t (Key_ID k) (Key_ModelIDs k) [] xs.

(** The models of a stored key pass the checks of the old models. *)
Lemma old_models_check t k news xs :
  key_ok t k → (∀ x, x ∈ xs → x ∈ Key_ModelIDs k) → (∀ x, x ∈ xs → x ∉ news) →
  models_check t news k xs = None.
Proof.
  intros Hok Hxs Hnew. unfold models_check. induction xs as [|x xs IH]; [done|]. cbn.
  assert (model_check t news k x = None) as ->.
  - unfold model_check. rewrite bool_decide_eq_false_2 by (apply Hnew; by left).
    destruct (key_models _ _ Hok x) as (s & -> & Hd); [apply Hxs; by left|]. cbn. by rewrite Hd.
  - apply IH; intros y Hy; [apply Hxs|apply Hnew]; by right.
Qed.

Lemma key_ok_models t k :
  key_ok t k → modelIDSet (Key_ModelIDs k) = inr (list_to_set (Key_ModelIDs k)).
Proof. intros Hok. apply modelIDSet_inr. split_and!; [apply Hok|apply Hok|done]. Qed.

Lemma run_DeleteVirtualKey_ops w d t k :
  keys_inv (values w d) t →
  run env (DeleteVirtualKey d k) w =
    match spec_DeleteVirtualKey t k, subjects t !! Key_UserID k with
    | inl e, _ => (inl e, w)
    | inr _, Some s => run env (transact d (delete_key_ops w d t k s
        (sorted_ids (list_to_set (Key_ModelIDs k)) ∅))) w
    | inr _, None => (inl ErrConflict, w)
    end.
Proof.
  intros Hi. pose proof (ki_keys _ _ Hi) as Hk.
  unfold DeleteVirtualKey, spec_DeleteVirtualKey, table_delete.
  erewrite run_step by apply run_get. cbv beta iota.
  pose proof (has_entity _ (keys t) (Key_ID k) Hk) as Hx. cbn [coll_name VirtualKey_Collection] in Hx.
  pose proof (entry_has w d _ _ Hx) as He. cbn [ident VirtualKey_Collection].
  destruct (keys t !! Key_ID k) as [y|] eqn:Hkid; [|by rewrite He].
  rewrite He at 1. cbn [Exists negb]. rewrite He at 1. cbn [Value].
  pose proof (proj2 Hx y eq_refl) as Hys.
  erewrite run_step by (refine (run_decode_or env _ _ _ _); exact Hys). cbv beta iota.
  case_bool_decide as Hy; [subst y|done]. cbn [negb].
  pose proof (ki_ok _ _ Hi _ _ Hkid) as Hok. destruct (key_owner _ _ Hok) as (s & Hsub & _).
  erewrite run_step by (by apply run_readSubject). cbv beta iota. rewrite Hsub.
  cbn [read_subject sub_exists]. rewrite Hsub. cbn [stored sub_exists negb].
  erewrite run_step by (by apply run_prepareModelIndexMutations).
  change (modelIDSet []) with (inr ∅ : error + gset string). rewrite (key_ok_models _ _ Hok).
  assert (Hxs : ∀ x, x ∈ sorted_ids (list_to_set (Key_ModelIDs k)) ∅ → x ∈ Key_ModelIDs k).
  { intros x Hx'. apply elem_of_sorted_ids in Hx'. set_solver. }
  rewrite old_models_check by (done || (intros x _; set_solver)). cbv beta iota zeta.
  destruct (indexes_ids _ _ _ (ci_index _ _ Hk)) as [Hgix _].
  destruct (indexes_ids _ _ _ (ki_by_user _ _ Hi (Key_UserID k))) as [Huix _].
  erewrite run_step by (by apply run_readIndex). cbv beta iota zeta.
  erewrite run_step by (by apply run_readIndex). cbv beta iota zeta.
  do 2 step_encode_key.
  erewrite run_step by (by apply run_subjectTouch). cbv beta iota zeta.
  erewrite run_step; [|apply run_modelIndexOperations; [done|apply Hys|]].
  - done.
  - intros x Hx'. split; [by apply mutations_of_lookup|].
    destruct (key_models _ _ Hok x (Hxs x Hx')) as (ms & -> & _). by eexists.
Qed.

Lemma delete_key_writes w d t k s xs :
  keys_inv (values w d) t → keys t !! Key_ID k = Some k →
  subjects t !! Key_UserID k = Some s →
  (∀ x, x ∈ xs ↔ x ∈ Key_ModelIDs k) →
  keys_inv (apply_values (delete_key_ops w d t k s xs) (values w d))
    (set_keys t (delete (Key_ID k) (keys t))).
Proof.
  intros Hi Hkid Hsub Hxs. pose proof (ki_keys _ _ Hi) as Hk. pose proof (ki_ok _ _ Hi _ _ Hkid) as Hok.
  destruct (ci_ok _ _ Hk _ _ Hkid) as [_ Hs].
  destruct (indexes_ids _ _ _ (ci_index _ _ Hk)) as (Hgix & Hgnd & HgP).
  destruct (indexes_ids _ _ _ (ki_by_user _ _ Hi (Key_UserID k))) as (Huix & Hund & HuP).
  unfold delete_key_ops. rewrite apply_values_app, apply_values_remove, apply_values_upsert,
    apply_values_remove, !apply_values_upsert. cbn [apply_values foldl].
  apply keys_inv_write; try done; [apply Hs| | | | | | | | |].
  - intros x. rewrite Hxs, elem_of_nil. naive_solver.
  - intros x Hxx. apply Hxs in Hxx. destruct (key_models _ _ Hok x Hxx) as (ms & -> & _). by eexists.
  - by apply models_change_delete.
  - apply coll_inv_insert; [apply subject_outside|]. apply coll_inv_insert; [apply user_index_outside|].
    exact (delete_writes (T := VirtualKey) _ (keys t) k _ Hk Hkid Hgix Hgnd HgP).
  - intros u. destruct (decide (u = Key_UserID k)) as [->|Hne].
    + rewrite lookup_insert_eq. destruct (ki_subject _ _ Hi (Key_UserID k)) as [-> _].
      by rewrite Hsub.
    + by kvs.
  - intros x. by kvs.
  - intros x. by kvs.
  - intros u. destruct (decide (u = Key_UserID k)) as [->|Hne].
    + eapply indexes_ext; [symmetry; apply lookup_insert_ne; key_diff|].
      eapply indexes_iff; [|exact (indexes_remove _ _ _ (Key_ID k) _ Huix Hund HuP _)].
      intros i. cbn. by rewrite by_user_delete.
    + apply (indexes_ext (values w d)); [by kvs|].
      eapply indexes_iff; [|apply (ki_by_user _ _ Hi)]. intros i. rewrite by_user_delete.
      split; [|naive_solver]. intros Hb. split; [|done]. intros ->.
      destruct Hb as (k' & Hk' & E). congruence.
  - intros i k'. cbn. rewrite lookup_delete_Some. intros [_ Hk']. apply key_ok_set.
    by eapply (ki_ok _ _ Hi).
Qed.

Lemma run_DeleteVirtualKey w d t k :
  keys_inv (values w d) t →
  refines_keys w d (DeleteVirtualKey d k) (spec_DeleteVirtualKey t k).
Proof.
  intros Hi. pose proof (run_DeleteVirtualKey_ops w d t k Hi) as Hrun. unfold spec_DeleteVirtualKey in *.
  destruct (table_delete (keys t) k) as [e|kt] eqn:Ht; [done|].
  apply table_delete_inr in Ht as [Hkid ->]. cbn [ident VirtualKey_Collection] in *.
  destruct (key_owner _ _ (ki_ok _ _ Hi _ _ Hkid)) as (s & Hsub & _). rewrite Hsub in Hrun.
  eapply commit_keys; [exact Hrun| | |].
  - apply list.Forall_app. split; [auto 10|apply model_ops_known].
  - apply list.Forall_app. split; [auto 10|apply model_ops_fresh].
  - apply delete_key_writes; try done. intros x. rewrite elem_of_sorted_ids. set_solver.
Qed.

(** ** Replacing a key *)

Definition user_ops w d (old k : VirtualKey) (so sn : KeySubject) : list Operation :=
  let ko := virtualKeysByUserIndexKey (Key_UserID old) in
  let kn := virtualKeysByUserIndexKey (Key_UserID k) in
  let added := upsert kn (enc (addIndexID {| IDs := index_ids (values w d) kn |} (Key_ID k)))
                 (ETag (entry_of w d kn)) in
  if bool_decide (Key_UserID k = Key_UserID old) then [added; touch_subject w d (Key_UserID k) sn]
  else
    [upsert ko (enc (removeIndexID {| IDs := index_ids (values w d) ko |} (Key_ID k)))
       (ETag (entry_of w d ko));
     added; touch_subject w d (Key_UserID old) so; touch_subject w d (Key_UserID k) sn].

Definition hash_ops (old k : VirtualKey) : list Operation :=
  let ho := lookupKey "key-hash" (Key_KeyHash old) in
  let hn := lookupKey "key-hash" (Key_KeyHash k) in
  (if bool_decide (ho = hn) then [] else [remove ho ""]) ++ [upsert hn (enc (Key_ID k)) ""].

Definition replace_key_ops w d t (old k : VirtualKey) (so sn : KeySubject) (xs : list string)
    : list Operation :=
  (upsert (entityKey "virtual-keys" (Key_ID k)) (enc k)
     (ETag (entry_of w d (entityKey "virtual-keys" (Key_ID k))))
   :: hash_ops old k ++ user_ops w d old k so sn) ++
  model_ops w d t (Key_ID k) (Key_ModelIDs old) (Key_ModelIDs k) xs.

Lemma key_replace_inr kt old k kt' :
  table_replace kt old k = inr kt' →
  kt !! Key_ID k = Some old ∧ clashes kt k = false ∧ kt' = <[Key_ID k := k]> kt.
Proof.
  unfold table_replace. cbn. destruct (kt !! Key_ID k) as [cur|]; [|done].
  case_bool_decide as E; [subst cur|done]. cbn. destruct (clashes kt k); [done|].
  by intros [= <-].
Qed.

Lemma hash_writes m kt old k etag :
  coll_inv m kt → storable k → kt !! Key_ID k = Some old → clashes kt k = false →
  coll_inv (apply_values (upsert (entityKey "virtual-keys" (Key_ID k)) (enc k) etag :: hash_ops old k) m)
    (<[Key_ID k := k]> kt).
Proof.
  intros Hi Hs Hold Hc. pose proof (replace_writes (T := VirtualKey) m kt k old Hi Hs Hold Hc) as Hw.
  rewrite apply_values_upsert. unfold hash_ops. rewrite apply_values_app.
  refine (eq_rect _ (λ m, coll_inv m _) Hw _ _). cbn [lookup_keys VirtualKey_Collection ident coll_name].
  f_equal. cbn [upserts_to map]. f_equal.
  rewrite (filter_cons _ (lookupKey _ (Key_KeyHash old))). unfold upserts_to. cbn [map].
  destruct (decide (lookupKey "key-hash" (Key_KeyHash old) = lookupKey "key-hash" (Key_KeyHash k))) as [E|Hne].
  - rewrite bool_decide_eq_true_2 by done. rewrite decide_False; [done|].
    intros Hn. apply Hn. rewrite E. by left.
  - rewrite bool_decide_eq_false_2 by done. rewrite decide_True; [done|].
    intros [?|[]%elem_of_nil]%elem_of_cons. done.
Qed.

Lemma user_ops_other w d old k so sn m key :
  (∀ u, key ≠ virtualKeysByUserIndexKey u) → (∀ u, key ≠ keySubjectKey u) →
  apply_values (user_ops w d old k so sn) m !! key = m !! key.
Proof.
  intros H1 H2. apply apply_values_other. unfold user_ops. case_bool_decide; cbn;
    rewrite !not_elem_of_cons; split_and!; try apply H1; try apply H2; apply not_elem_of_nil.
Qed.

Lemma user_ops_subject w d t old k so sn m u :
  keys_inv (values w d) t →
  subjects t !! Key_UserID old = Some so → subjects t !! Key_UserID k = Some sn →
  m !! keySubjectKey u = values w d !! keySubjectKey u →
  apply_values (user_ops w d old k so sn) m !! keySubjectKey u = values w d !! keySubjectKey u.
Proof.
  intros Hi Ho Hn Hm.
  assert (Hval : ∀ u' s, subjects t !! u' = Some s → values w d !! keySubjectKey u' = Some (enc s)).
  { intros u' s Hs. destruct (ki_subject _ _ Hi u') as [-> _]. by rewrite Hs. }
  unfold user_ops. case_bool_decide as Hsame; rewrite !apply_values_upsert; cbn [apply_values foldl].
  - destruct (decide (u = Key_UserID k)) as [->|Hne]; kvs; [by rewrite (Hval _ _ Hn)|done].
  - destruct (decide (u = Key_UserID k)) as [->|Hne]; kvs; [by rewrite (Hval _ _ Hn)|].
    destruct (decide (u = Key_UserID old)) as [->|Hne']; kvs; [by rewrite (Hval _ _ Ho)|done].
Qed.

Lemma user_ops_index w d t old k so sn m u :
  keys_inv (values w d) t → storable (Key_ID k) → keys t !! Key_ID k = Some old →
  m !! virtualKeysByUserIndexKey u = values w d !! virtualKeysByUserIndexKey u →
  indexes (apply_values (user_ops w d old k so sn) m) (virtualKeysByUserIndexKey u)
    (by_user (set_keys t (<[Key_ID k := k]> (keys t))) u).
Proof.
  intros Hi Hid Hold Hm.
  destruct (indexes_ids _ _ _ (ki_by_user _ _ Hi (Key_UserID k))) as (Hnix & Hnnd & HnP).
  destruct (indexes_ids _ _ _ (ki_by_user _ _ Hi (Key_UserID old))) as (Hoix & Hond & HoP).
  assert (Hadd : ∀ i, i = Key_ID k ∨ by_user t (Key_UserID k) i ↔
    by_user (set_keys t (<[Key_ID k := k]> (keys t))) (Key_UserID k) i).
  { intros i. rewrite by_user_insert. destruct (decide (i = Key_ID k)); naive_solver. }
  assert (Hother : u ≠ Key_UserID k → u ≠ Key_UserID old → ∀ i, by_user t u i ↔
    by_user (set_keys t (<[Key_ID k := k]> (keys t))) u i).
  { intros H1 H2 i. rewrite by_user_insert. destruct (decide (i = Key_ID k)) as [->|?]; [|naive_solver].
    split; [|naive_solver]. intros (k' & Hk' & E). congruence. }
  unfold user_ops. case_bool_decide as Hsame; rewrite !apply_values_upsert; cbn [apply_values foldl].
  - destruct (decide (u = Key_UserID k)) as [->|Hne].
    + eapply indexes_ext; [symmetry; apply lookup_insert_ne; key_diff|].
      eapply indexes_iff; [exact Hadd|]. exact (indexes_add _ _ _ (Key_ID k) _ Hnix Hnnd HnP Hid _).
    + apply (indexes_ext (values w d)); [by kvs|].
      eapply indexes_iff; [apply Hother; congruence|apply (ki_by_user _ _ Hi)].
  - destruct (decide (u = Key_UserID k)) as [->|Hne].
    + eapply indexes_ext; [symmetry; rewrite lookup_insert_ne by key_diff;
        apply lookup_insert_ne; key_diff|].
      eapply indexes_iff; [exact Hadd|]. exact (indexes_add _ _ _ (Key_ID k) _ Hnix Hnnd HnP Hid _).
    + destruct (decide (u = Key_UserID old)) as [->|Hne'].
      * eapply indexes_ext; [symmetry; rewrite !lookup_insert_ne by key_diff; reflexivity|].
        eapply indexes_iff; [|exact (indexes_remove _ _ _ (Key_ID k) _ Hoix Hond HoP _)].
        intros i. cbn. rewrite by_user_insert. naive_solver.
      * apply (indexes_ext (values w d)); [by kvs|].
        eapply indexes_iff; [by apply Hother|apply (ki_by_user _ _ Hi)].
Qed.

Lemma hash_ops_other old k m key :
  (∀ kind v, key ≠ lookupKey kind v) → apply_values (hash_ops old k) m !! key = m !! key.
Proof.
  intros Hne. apply apply_values_other. unfold hash_ops. case_bool_decide; cbn;
    rewrite !not_elem_of_cons; split_and!; try apply Hne; apply not_elem_of_nil.
Qed.

Lemma replace_key_writes w d t old k so sn xs :
  keys_inv (values w d) t → storable k → keys t !! Key_ID k = Some old → clashes (keys t) k = false →
  subjects t !! Key_UserID old = Some so → subjects t !! Key_UserID k = Some sn → key_ok t k →
  (∀ x, x ∈ xs ↔ x ∈ Key_ModelIDs old ∨ x ∈ Key_ModelIDs k) →
  keys_inv (apply_values (replace_key_ops w d t old k so sn xs) (values w d))
    (set_keys t (<[Key_ID k := k]> (keys t))).
Proof.
  intros Hi Hs Hold Hc Ho Hn Hok Hxs. pose proof (ki_keys _ _ Hi) as Hk.
  pose proof (ki_ok _ _ Hi _ _ Hold) as Hoko.
  unfold replace_key_ops. rewrite apply_values_app, app_comm_cons, apply_values_app.
  set (m0 := apply_values (upsert _ _ _ :: hash_ops old k) (values w d)).
  assert (Hm0 : ∀ key, (∀ kind v, key ≠ lookupKey kind v) →
    key ≠ entityKey "virtual-keys" (Key_ID k) → m0 !! key = values w d !! key).
  { intros key H1 H2. unfold m0. rewrite apply_values_upsert, hash_ops_other by done.
    by rewrite lookup_insert_ne. }
  assert (Hm1 : ∀ key, (∀ u, key ≠ virtualKeysByUserIndexKey u) → (∀ u, key ≠ keySubjectKey u) →
    apply_values (user_ops w d old k so sn) m0 !! key = m0 !! key).
  { intros key. apply user_ops_other. }
  apply keys_inv_write; try done; [apply Hs| | | | | | | |].
  - intros x Hx. apply Hxs in Hx as [Hx|Hx].
    + destruct (key_models _ _ Hoko x Hx) as (ms & -> & _). by eexists.
    + destruct (key_models _ _ Hok x Hx) as (ms & -> & _). by eexists.
  - apply models_change_insert. by rewrite Hold.
  - eapply (coll_inv_ext m0); [|by eapply hash_writes].
    intros key Hf. symmetry. destruct Hf as [[id ->]|[->|[y Hy]]]; [| |member_cases; subst];
      apply Hm1; intros u; key_diff.
  - intros u. eapply user_ops_subject; [done..|]. apply Hm0; [intros kind v|]; key_diff.
  - intros x. rewrite Hm1; [|intros u; key_diff..]. apply Hm0; [intros kind v|]; key_diff.
  - intros x. rewrite Hm1; [|intros u; key_diff..]. apply Hm0; [intros kind v|]; key_diff.
  - intros u. eapply user_ops_index; [done|apply Hs|done|]. apply Hm0; [intros kind v|]; key_diff.
  - intros i k'. cbn. rewrite lookup_insert_Some. intros [[<- <-]|[_ Hk']]; apply key_ok_set; [done|].
    by eapply (ki_ok _ _ Hi).
Qed.

Lemma owned_hash m kt k :
  coll_inv m kt → storable k →
  forallb (owned_by m (Key_ID k)) [lookupKey "key-hash" (Key_KeyHash k)] = negb (clashes kt k).
Proof. intros Hi Hs. exact (owned_clashes (T := VirtualKey) m kt k Hi (proj1 Hs)). Qed.

Lemma run_ReplaceVirtualKey_ops w d t old k :
  keys_inv (values w d) t → storable k →
  run env (ReplaceVirtualKey d old k) w =
    match spec_ReplaceVirtualKey t old k, subjects t !! Key_UserID old,
      subjects t !! Key_UserID k with
    | inl e, _, _ => (inl e, w)
    | inr _, Some so, Some sn => run env (transact d (replace_key_ops w d t old k so sn
        (sorted_ids (list_to_set (Key_ModelIDs old)) (list_to_set (Key_ModelIDs k))))) w
    | inr _, _, _ => (inl ErrConflict, w)
    end.
Proof.
  intros Hi Hs. pose proof (ki_keys _ _ Hi) as Hk.
  unfold ReplaceVirtualKey, spec_ReplaceVirtualKey, require. rewrite run_guard.
  destruct (bool_decide (Key_ID old = Key_ID k)) eqn:Hid; [|done]. cbn [negb].
  rewrite run_guard. destruct (bool_decide (Key_ModelIDs k = [])); [done|]. cbn [negb].
  erewrite run_step by apply run_get. cbv beta iota. unfold table_replace.
  pose proof (has_entity _ (keys t) (Key_ID k) Hk) as Hx. cbn [coll_name VirtualKey_Collection] in Hx.
  pose proof (entry_has w d _ _ Hx) as He. cbn [ident VirtualKey_Collection].
  destruct (keys t !! Key_ID k) as [y|] eqn:Hkid; [|by rewrite He].
  rewrite He at 1. cbn [Exists negb]. rewrite He at 1. cbn [Value].
  erewrite run_step by (refine (run_decode_or env _ _ _ _); exact (proj2 Hx y eq_refl)).
  cbv beta iota. destruct (decide (y = old)) as [->|Hy]; cycle 1.
  { by rewrite !(bool_decide_eq_false_2 (y = old)). }
  rewrite !(bool_decide_eq_true_2 (old = old)) by done. cbn [negb orb].
  erewrite run_step by apply run_check_owned. rewrite (owned_hash _ _ _ Hk Hs).
  destruct (clashes (keys t) k) eqn:Hc; [done|]. cbn [negb].
  pose proof (ki_ok _ _ Hi _ _ Hkid) as Hoko. destruct (key_owner _ _ Hoko) as (so & Hso & _).
  erewrite run_step by (by apply run_readSubject). cbv beta iota zeta. rewrite Hso.
  cbn [read_subject sub_exists]. rewrite Hso. cbn [stored sub_exists negb].
  assert (Hread : read_subject w d t (Key_UserID old) = {| sub_value := so;
    sub_etag := ETag (entry_of w d (keySubjectKey (Key_UserID old))); sub_exists := true |}).
  { unfold read_subject. by rewrite Hso. }
  set (same := bool_decide (Key_UserID k = Key_UserID old)).
  erewrite (run_step env (if same then _ else _) _ _ (inr (read_subject w d t (Key_UserID k)))); cycle 1.
  { subst same. destruct (decide (Key_UserID k = Key_UserID old)) as [E|E].
    - by rewrite E, bool_decide_eq_true_2.
    - rewrite bool_decide_eq_false_2 by done. by apply run_readSubject. }
  cbv beta iota. rewrite run_check.
  change (ensureSubjectCanOwnKey (read_subject w d t (Key_UserID k)) k) with
    (ensureSubjectCanOwnKey (stored (subjects t !! Key_UserID k)) k).
  destruct (ensureSubjectCanOwnKey _ k) as [e|] eqn:Hens; [done|]. unfold or_err, spec_models.
  destruct (subjects t !! Key_UserID k) as [sn|] eqn:Hsn; [|done].
  erewrite run_step by (by apply run_prepareModelIndexMutations). rewrite (key_ok_models _ _ Hoko).
  destruct (modelIDSet (Key_ModelIDs k)) as [e|news] eqn:Hset; [done|].
  destruct (models_check t news k _) as [e|] eqn:Hmc; [done|]. cbv beta iota zeta.
  apply modelIDSet_inr in Hset as (_ & _ & ->).
  destruct (indexes_ids _ _ _ (ki_by_user _ _ Hi (Key_UserID k))) as [Hnix _].
  destruct (indexes_ids _ _ _ (ki_by_user _ _ Hi (Key_UserID old))) as [Hoix _].
  erewrite run_step by (by apply run_readIndex). cbv beta iota zeta.
  erewrite (run_step env (if same then _ else _) _ _ (inr
    ({| IDs := index_ids (values w d) (virtualKeysByUserIndexKey (Key_UserID k)) |},
     ETag (entry_of w d (virtualKeysByUserIndexKey (Key_UserID k)))))); cycle 1.
  { subst same. destruct (decide (Key_UserID k = Key_UserID old)) as [E|E].
    - by rewrite E, bool_decide_eq_true_2.
    - rewrite bool_decide_eq_false_2 by done. by apply run_readIndex. }
  cbv beta iota zeta. assert (Hkid' : storable (Key_ID k)) by apply Hs.
  do 2 step_encode_key.
  erewrite run_step; [|refine (run_encode env _ _ _); destruct same; cbn;
    [by eapply index_storable|apply removeIndexID_storable; by eapply index_storable]].
  cbv beta iota. step_encode_key.
  erewrite run_step by (by apply run_subjectTouch). cbv beta iota zeta.
  assert (Hmodel : run env (modelIndexOperations
      (sorted_ids (list_to_set (Key_ModelIDs old)) (list_to_set (Key_ModelIDs k)))
      (mutations_of w d t (sorted_ids (list_to_set (Key_ModelIDs old)) (list_to_set (Key_ModelIDs k))))
      (Key_ID k) (Key_ModelIDs old) (Key_ModelIDs k)) w =
    (inr (model_ops w d t (Key_ID k) (Key_ModelIDs old) (Key_ModelIDs k)
      (sorted_ids (list_to_set (Key_ModelIDs old)) (list_to_set (Key_ModelIDs k)))), w)).
  { apply run_modelIndexOperations; [done|done|]. intros x Hx'.
    split; [by apply mutations_of_lookup|by eapply models_check_some]. }
  rewrite run_bind. unfold replace_key_ops, hash_ops, user_ops. subst same.
  destruct (decide (Key_UserID k = Key_UserID old)) as [E|E].
  - rewrite !(bool_decide_eq_true_2 (Key_UserID k = Key_UserID old)) by done. cbn [run mret prog_ret].
    erewrite run_step by exact Hmodel. rewrite E, Hso in *. injection Hsn as <-.
    cbn [app]. by rewrite <- !app_assoc.
  - rewrite !(bool_decide_eq_false_2 (Key_UserID k = Key_UserID old)) by done.
    erewrite run_step by (by apply run_subjectTouch). cbn [run mret prog_ret].
    erewrite run_step by exact Hmodel. cbn [app]. by rewrite <- !app_assoc.
Qed.

Lemma run_ReplaceVirtualKey w d t old k :
  keys_inv (values w d) t → storable k →
  refines_keys w d (ReplaceVirtualKey d old k) (spec_ReplaceVirtualKey t old k).
Proof.
  intros Hi Hs. pose proof (run_ReplaceVirtualKey_ops w d t old k Hi Hs) as Hrun.
  destruct (spec_ReplaceVirtualKey t old k) as [e|t'] eqn:Hspec; [done|].
  unfold spec_ReplaceVirtualKey, require in Hspec.
  destruct (bool_decide (Key_ID old = Key_ID k)) eqn:Hid; [|done].
  destruct (bool_decide (Key_ModelIDs k = [])) eqn:Hne; [done|]. apply bool_decide_eq_false in Hne.
  cbn [negb] in Hspec. destruct (table_replace (keys t) old k) as [e|kt] eqn:Ht; [done|].
  apply key_replace_inr in Ht as (Hold & Hc & ->).
  pose proof (ki_ok _ _ Hi _ _ Hold) as Hoko. destruct (key_owner _ _ Hoko) as (so & Hso & _).
  destruct (ensureSubjectCanOwnKey _ k) eqn:Hens; [done|]. unfold or_err, spec_models in Hspec.
  rewrite (key_ok_models _ _ Hoko) in Hspec.
  destruct (modelIDSet (Key_ModelIDs k)) as [e|news] eqn:Hset; [done|].
  destruct (models_check t news k _) eqn:Hmc; [done|]. injection Hspec as <-.
  pose proof (checked_key_ok t k _ news Hne Hset Hens Hmc) as Hok.
  destruct (key_owner _ _ Hok) as (sn & Hsn & _). rewrite Hso, Hsn in Hrun.
  eapply commit_keys; [exact Hrun| | |].
  - apply list.Forall_app. split; [|apply model_ops_known]. apply List.Forall_cons; [auto|].
    unfold hash_ops, user_ops. repeat (apply list.Forall_app; split); repeat case_match; auto 10.
  - apply list.Forall_app. split; [|apply model_ops_fresh]. apply List.Forall_cons; [auto|].
    unfold hash_ops, user_ops. repeat (apply list.Forall_app; split); repeat case_match; auto 10.
  - apply replace_key_writes; try done. intros x. rewrite elem_of_sorted_ids. set_solver.
Qed.
End facts.

(** ** Histories *)

Inductive key_op : Type :=
| OpSyncSubject (s : KeySubject)
| OpFenceSubject (s : KeySubject)
| OpSyncModelSubject (s : ModelSubject)
| OpFenceModelSubject (s : ModelSubject)
| OpCreateKey (k : VirtualKey)
| OpReplaceKey (old k : VirtualKey)
| OpDeleteKey (k : VirtualKey).

Definition key_step (d : domain) (o : key_op) : prog unit :=
  match o with
  | OpSyncSubject s => SyncSubject d s
  | OpFenceSubject s => FenceSubject d s
  | OpSyncModelSubject s => SyncModelSubject d s
  | OpFenceModelSubject s => FenceModelSubject d s
  | OpCreateKey k => CreateVirtualKey d k
  | OpReplaceKey old k => ReplaceVirtualKey d old k
  | OpDeleteKey k => DeleteVirtualKey d k
  end.

Definition key_spec (t : key_tables) (o : key_op) : error + key_tables :=
  match o with
  | OpSyncSubject s => spec_SyncSubject t s
  | OpFenceSubject s => spec_FenceSubject t s
  | OpSyncModelSubject s => spec_SyncModelSubject t s
  | OpFenceModelSubject s => spec_FenceModelSubject t s
  | OpCreateKey k => spec_CreateVirtualKey t k
  | OpReplaceKey old k => spec_ReplaceVirtualKey t old k
  | OpDeleteKey k => spec_DeleteVirtualKey t k
  end.

Definition key_op_ok (o : key_op) : Prop :=
  match o with
  | OpSyncSubject s | OpFenceSubject s => storable s
  | OpSyncModelSubject s | OpFenceModelSubject s => storable s
  | OpCreateKey k | OpReplaceKey _ k => storable k
  | OpDeleteKey _ => True
  end.

Fixpoint key_specs (t : key_tables) (os : list key_op) : list (error + unit) * key_tables :=
  match os with
  | [] => ([], t)
  | o :: os' =>
      match key_spec t o with
      | inl e => let '(rs, t') := key_specs t os' in (inl e :: rs, t')
      | inr t1 => let '(rs, t') := key_specs t1 os' in (inr tt :: rs, t')
      end
  end.

Section histories.
Context {S : Type} `{StateStoreLaws S} (env : environment).
Implicit Types (w : world S) (d : domain) (t : key_tables).

Abbreviation values w d := (view (store_of w d)).

Lemma key_step_refines w d t o :
  keys_inv (values w d) t → key_op_ok o →
  refines_keys env w d (key_step d o) (key_spec t o).
Proof.
  intros Hi Ho. destruct o as [s|s|s|s|k|old k|k]; cbn [key_step key_spec].
  - by apply run_SyncSubject.
  - by apply run_FenceSubject.
  - by apply run_SyncModelSubject.
  - by apply run_FenceModelSubject.
  - by apply run_CreateVirtualKey.
  - by apply run_ReplaceVirtualKey.
  - by apply run_DeleteVirtualKey.
Qed.

Lemma key_steps_refine w d t os :
  keys_inv (values w d) t → Forall key_op_ok os →
  (run_steps env (key_step d) w os).1 = (key_specs t os).1 ∧
  keys_inv (values (run_steps env (key_step d) w os).2 d) (key_specs t os).2.
Proof.
  intros Hi Hos. revert w t Hi. induction Hos as [|o os Ho Hos IH]; intros w t Hi; [done|].
  cbn [run_steps key_specs]. pose proof (key_step_refines w d t o Hi Ho) as Hr.
  unfold refines_keys in Hr. destruct (key_spec t o) as [e|t1].
  - rewrite Hr. specialize (IH w t Hi).
    destruct (run_steps _ _ w os), (key_specs t os). cbn in *. naive_solver.
  - destruct Hr as (w' & -> & Hi' & _). specialize (IH w' t1 Hi').
    destruct (run_steps _ _ w' os), (key_specs t1 os). cbn in *. naive_solver.
Qed.

Lemma keys_inv_empty m : m = ∅ → keys_inv m no_keys.
Proof.
  intros ->. split; try done.
  - by apply coll_inv_empty.
  - intros u. exists []. split_and!; [by exists None|constructor|].
    intros id. rewrite elem_of_nil. split; [done|by intros (? & ? & ?)].
  - intros x. exists []. split_and!; [by exists None|constructor|].
    intros id. rewrite elem_of_nil. split; [done|by intros (? & ? & ?)].
Qed.

Lemma run_GetSubject w d t u :
  keys_inv (values w d) t →
  run env (GetSubject d u) w =
    (match subjects t !! u with Some s => inr s | None => inl ErrNotFound end, w).
Proof.
  intros Hi. unfold GetSubject. rewrite run_bind, (run_readSubject env w d t) by done.
  unfold read_subject. by destruct (subjects t !! u).
Qed.

Lemma run_GetModelSubject w d t x :
  keys_inv (values w d) t →
  run env (GetModelSubject d x) w =
    (match model_subjects t !! x with Some s => inr s | None => inl ErrNotFound end, w).
Proof.
  intros Hi. unfold GetModelSubject. rewrite run_bind, (run_readModelSubject env w d t) by done.
  unfold read_model. by destruct (model_subjects t !! x).
Qed.

Lemma run_GetVirtualKey w d t id :
  keys_inv (values w d) t →
  run env (GetVirtualKey d id) w =
    (match keys t !! id with Some k => inr k | None => inl ErrNotFound end, w).
Proof. intros Hi. exact (run_get_entity (T := VirtualKey) env w d (keys t) id (ki_keys _ _ Hi)). Qed.

Lemma run_GetVirtualKeyByHash w d t k :
  keys_inv (values w d) t → keys t !! Key_ID k = Some k →
  run env (GetVirtualKeyByHash d (Key_KeyHash k)) w = (inr k, w).
Proof.
  intros Hi Hk. unfold GetVirtualKeyByHash. rewrite run_bind.
  destruct (run_lookup_id env w d (keys t) "key-hash" (Key_KeyHash k) k (ki_keys _ _ Hi))
    as [(id & y & Hy & Hkey & ->)|(Hno & _)]; [by left| |].
  - assert (id = Key_ID k) as ->.
    { eapply (lookup_unique (T := VirtualKey) _ _ _ _ y k); [by apply Hi|done..|by left]. }
    by rewrite (run_GetVirtualKey w d t), Hk.
  - exfalso. apply (Hno (Key_ID k) k Hk). by left.
Qed.

(** How subjects evolve: revisions grow, a revision has one payload, and
    tombstones and identities stay. *)
Definition subject_after (s s' : KeySubject) : Prop :=
  (KS_Revision s <= KS_Revision s')%Z ∧ (KS_Deleted s = true → KS_Deleted s' = true) ∧
  (KS_Revision s = KS_Revision s' → subjectPayloadEqual s s' = true).
Definition model_subject_after (s s' : ModelSubject) : Prop :=
  (MS_Revision s <= MS_Revision s')%Z ∧ (MS_Deleted s = true → MS_Deleted s' = true) ∧
  MS_Alias s = MS_Alias s' ∧
  (MS_Revision s = MS_Revision s' → modelSubjectPayloadEqual s s' = true).

Definition tables_after t t' : Prop :=
  (∀ u s, subjects t !! u = Some s → ∃ s', subjects t' !! u = Some s' ∧ subject_after s s') ∧
  (∀ x s, model_subjects t !! x = Some s →
     ∃ s', model_subjects t' !! x = Some s' ∧ model_subject_after s s').

Lemma subjectPayloadEqual_true s s' :
  subjectPayloadEqual s s' = true ↔
  KS_UserID s = KS_UserID s' ∧ KS_Status s = KS_Status s' ∧ KS_Revision s = KS_Revision s' ∧
  KS_Deleted s = KS_Deleted s'.
Proof.
  unfold subjectPayloadEqual. rewrite !andb_true_iff, !bool_decide_eq_true, Z.eqb_eq, eqb_true_iff.
  naive_solver.
Qed.

Lemma modelSubjectPayloadEqual_true s s' :
  modelSubjectPayloadEqual s s' = true ↔
  MS_ModelID s = MS_ModelID s' ∧ MS_Alias s = MS_Alias s' ∧ MS_Status s = MS_Status s' ∧
  MS_Revision s = MS_Revision s' ∧ MS_Deleted s = MS_Deleted s'.
Proof.
  unfold modelSubjectPayloadEqual.
  rewrite !andb_true_iff, !bool_decide_eq_true, Z.eqb_eq, eqb_true_iff. naive_solver.
Qed.

Lemma subject_after_refl s : subject_after s s.
Proof. split_and!; [lia|done|]. intros _. by apply subjectPayloadEqual_true. Qed.
Lemma model_subject_after_refl s : model_subject_after s s.
Proof. split_and!; [lia|done|done|]. intros _. by apply modelSubjectPayloadEqual_true. Qed.

Lemma subject_after_trans s1 s2 s3 :
  subject_after s1 s2 → subject_after s2 s3 → subject_after s1 s3.
Proof.
  intros (H1 & H2 & H3) (H4 & H5 & H6). split_and!; [lia|by auto|]. intros E.
  specialize (H3 ltac:(lia)). specialize (H6 ltac:(lia)).
  rewrite subjectPayloadEqual_true in *. naive_solver congruence.
Qed.
Lemma model_subject_after_trans s1 s2 s3 :
  model_subject_after s1 s2 → model_subject_after s2 s3 → model_subject_after s1 s3.
Proof.
  intros (H1 & H2 & Ha & H3) (H4 & H5 & Hb & H6). split_and!; [lia|by auto|congruence|]. intros E.
  specialize (H3 ltac:(lia)). specialize (H6 ltac:(lia)).
  rewrite modelSubjectPayloadEqual_true in *. naive_solver congruence.
Qed.

Lemma tables_after_refl t : tables_after t t.
Proof.
  split.
  - intros u s Hs. exists s. split; [done|apply subject_after_refl].
  - intros x s Hs. exists s. split; [done|apply model_subject_after_refl].
Qed.
Lemma tables_after_trans t1 t2 t3 : tables_after t1 t2 → tables_after t2 t3 → tables_after t1 t3.
Proof.
  intros [Ha Hb] [Hc Hd]. split.
  - intros u s Hs. destruct (Ha u s Hs) as (s' & Hs' & H1). destruct (Hc u s' Hs') as (s'' & ? & H2).
    exists s''. split; [done|]. by eapply subject_after_trans.
  - intros x s Hs. destruct (Hb x s Hs) as (s' & Hs' & H1). destruct (Hd x s' Hs') as (s'' & ? & H2).
    exists s''. split; [done|]. by eapply model_subject_after_trans.
Qed.

Lemma update_subject_after t t' s : spec_update_subject t s = inr t' → tables_after t t'.
Proof.
  unfold spec_update_subject, compareSubjectUpdate.
  destruct (subjects t !! KS_UserID s) as [c|] eqn:Hc; cbn [stored sub_exists sub_value negb]; cycle 1.
  { intros [= <-]. split; [|exact (proj2 (tables_after_refl t))]. intros u s' Hs'. cbn.
    exists s'. rewrite lookup_insert_ne by congruence. split; [done|apply subject_after_refl]. }
  destruct (KS_Revision s <? KS_Revision c)%Z eqn:Hlt; [done|]. apply Z.ltb_ge in Hlt.
  destruct (KS_Revision s =? KS_Revision c)%Z eqn:Heq.
  { destruct (subjectPayloadEqual c s); [|done]. intros [= <-]. apply tables_after_refl. }
  apply Z.eqb_neq in Heq. destruct (KS_Deleted c && negb (KS_Deleted s)) eqn:Hd; [done|].
  intros [= <-]. split; [|exact (proj2 (tables_after_refl t))]. intros u s' Hs'. cbn.
  destruct (decide (KS_UserID s = u)) as [<-|Hne]; cycle 1.
  { exists s'. rewrite lookup_insert_ne by done. split; [done|apply subject_after_refl]. }
  rewrite lookup_insert_eq. simplify_eq. exists s. split; [done|].
  split_and!; [lia| |lia]. intros Hdel. rewrite Hdel in Hd. by destruct (KS_Deleted s).
Qed.

Lemma update_model_after t t' s : spec_update_model t s = inr t' → tables_after t t'.
Proof.
  unfold spec_update_model, compareModelSubjectUpdate.
  destruct (model_subjects t !! MS_ModelID s) as [c|] eqn:Hc;
    cbn [stored_model msub_exists msub_value negb]; cycle 1.
  { intros [= <-]. split; [exact (proj1 (tables_after_refl t))|]. intros x s' Hs'. cbn.
    exists s'. rewrite lookup_insert_ne by congruence. split; [done|apply model_subject_after_refl]. }
  case_bool_decide as Hid; [|done]. case_bool_decide as Hal; [|done]. cbn [orb negb].
  destruct (MS_Revision s <? MS_Revision c)%Z eqn:Hlt; [done|]. apply Z.ltb_ge in Hlt.
  destruct (MS_Revision s =? MS_Revision c)%Z eqn:Heq.
  { destruct (modelSubjectPayloadEqual c s); [|done]. intros [= <-]. apply tables_after_refl. }
  apply Z.eqb_neq in Heq. destruct (MS_Deleted c && negb (MS_Deleted s)) eqn:Hd; [done|].
  intros [= <-]. split; [exact (proj1 (tables_after_refl t))|]. intros x s' Hs'. cbn.
  destruct (decide (MS_ModelID s = x)) as [<-|Hne]; cycle 1.
  { exists s'. rewrite lookup_insert_ne by done. split; [done|apply model_subject_after_refl]. }
  rewrite lookup_insert_eq. simplify_eq. exists s. split; [done|].
  split_and!; [lia| |done|lia]. intros Hdel. rewrite Hdel in Hd. by destruct (MS_Deleted s).
Qed.

(** Key mutations leave the subjects as they are. *)
Lemma set_keys_after t kt : tables_after t (set_keys t kt).
Proof. exact (tables_after_refl t). Qed.

Lemma key_spec_after t t' o : key_spec t o = inr t' → tables_after t t'.
Proof.
  destruct o as [s|s|s|s|k|old k|k]; cbn; unfold spec_SyncSubject, spec_FenceSubject,
    spec_SyncModelSubject, spec_FenceModelSubject, spec_CreateVirtualKey, spec_ReplaceVirtualKey,
    spec_DeleteVirtualKey, spec_models, or_err, require; repeat case_match; try done;
    intros; simplify_eq; eauto using update_subject_after, update_model_after, set_keys_after.
Qed.

Lemma key_specs_after t os : tables_after t (key_specs t os).2.
Proof.
  revert t. induction os as [|o os IH]; intros t; [apply tables_after_refl|]. cbn.
  destruct (key_spec t o) as [e|t1] eqn:E.
  - specialize (IH t). by destruct (key_specs t os).
  - specialize (IH t1). destruct (key_specs t1 os) as [rs t2]. cbn in *.
    eapply tables_after_trans; [by eapply key_spec_after|done].
Qed.

(** C5.  The virtual-key repository against its specification: run any
    sequence of subject updates and fences and of key creates, replaces and
    deletes on an empty store.  Every call returns what the three-table
    specification returns, and afterwards reads give the tables: keys by id
    and by hash, subjects, and [ListVirtualKeysByUser], which lists exactly
    the keys of a user, once each. *)
Theorem key_repository_histories w d os w' rs t :
  values w d = ∅ → Forall key_op_ok os →
  (run_steps env (key_step d) w os).2 = w' → key_specs no_keys os = (rs, t) →
  (run_steps env (key_step d) w os).1 = rs ∧
  (∀ id, run env (GetVirtualKey d id) w' =
     (match keys t !! id with Some k => inr k | None => inl ErrNotFound end, w')) ∧
  (∀ k, keys t !! Key_ID k = Some k → run env (GetVirtualKeyByHash d (Key_KeyHash k)) w' = (inr k, w')) ∧
  (∀ u, run env (GetSubject d u) w' =
     (match subjects t !! u with Some s => inr s | None => inl ErrNotFound end, w')) ∧
  (∀ u, ∃ l, run env (ListVirtualKeysByUser d u) w' = (inr l, w') ∧ NoDup (map Key_ID l) ∧
     ∀ k, k ∈ l ↔ keys t !! Key_ID k = Some k ∧ Key_UserID k = u).
Proof.
  intros Hempty Hos Hw' Hsp. pose proof (keys_inv_empty _ Hempty) as Hi0.
  destruct (key_steps_refine w d no_keys os Hi0 Hos) as [Hrs Hi]. rewrite Hw', Hsp in *.
  cbn [fst snd] in *. split_and!; [done| | | |].
  - intros id. by apply run_GetVirtualKey.
  - intros k Hk. by eapply run_GetVirtualKeyByHash.
  - intros u. by apply run_GetSubject.
  - intros u. destruct (run_listResourcesAtIndex (T := VirtualKey) env w' d (keys t) _ _
      (ki_keys _ _ Hi) (ki_by_user _ _ Hi u)) as (l & Hl & Hnd & Hin).
    exists l. split_and!; [done|done|]. intros k. rewrite Hin. cbn. unfold by_user. naive_solver.
Qed.

(** C6.  Fences hold: after any sequence of calls on an empty key store, every
    virtual key that can be read names at least one model, none twice, and its
    user and all its models have subjects that are not tombstones.  So once a
    user or a model is fenced, no key of it exists, then or later. *)
Theorem no_key_of_fenced_subject w d os w' id k :
  values w d = ∅ → Forall key_op_ok os →
  (run_steps env (key_step d) w os).2 = w' →
  run env (GetVirtualKey d id) w' = (inr k, w') →
  Key_ModelIDs k ≠ [] ∧ NoDup (Key_ModelIDs k) ∧
  (∃ s, run env (GetSubject d (Key_UserID k)) w' = (inr s, w') ∧ KS_Deleted s = false) ∧
  ∀ x, x ∈ Key_ModelIDs k →
    ∃ s, run env (GetModelSubject d x) w' = (inr s, w') ∧ MS_Deleted s = false.
Proof.
  intros Hempty Hos Hw' Hget. pose proof (keys_inv_empty _ Hempty) as Hi0.
  destruct (key_steps_refine w d no_keys os Hi0 Hos) as [_ Hi]. rewrite Hw' in Hi.
  set (t := (key_specs no_keys os).2) in *. rewrite (run_GetVirtualKey w' d t id Hi) in Hget.
  destruct (keys t !! id) as [k'|] eqn:Hk; [|done]. injection Hget as ->.
  destruct (ki_ok _ _ Hi id k Hk) as [Hne Hnd _ (s & Hs & Hd) Hmodels].
  split_and!; [done|done| |].
  - exists s. by rewrite (run_GetSubject w' d t), Hs.
  - intros x Hx. destruct (Hmodels x Hx) as (s' & Hs' & Hd').
    exists s'. by rewrite (run_GetModelSubject w' d t), Hs'.
Qed.

(** C7.  Projections only move forward: whatever calls follow, a subject read
    once is found again with a revision at least as high; a tombstone is never
    reactivated, a revision never has two payloads, and the alias of a model
    subject never changes. *)
Theorem subjects_move_forward w d os1 os2 w1 w2 :
  values w d = ∅ → Forall key_op_ok os1 → Forall key_op_ok os2 →
  (run_steps env (key_step d) w os1).2 = w1 → (run_steps env (key_step d) w1 os2).2 = w2 →
  (∀ u s, run env (GetSubject d u) w1 = (inr s, w1) →
     ∃ s', run env (GetSubject d u) w2 = (inr s', w2) ∧
       (KS_Revision s <= KS_Revision s')%Z ∧ (KS_Deleted s = true → KS_Deleted s' = true) ∧
       (KS_Revision s = KS_Revision s' → subjectPayloadEqual s s' = true)) ∧
  (∀ x s, run env (GetModelSubject d x) w1 = (inr s, w1) →
     ∃ s', run env (GetModelSubject d x) w2 = (inr s', w2) ∧
       (MS_Revision s <= MS_Revision s')%Z ∧ (MS_Deleted s = true → MS_Deleted s' = true) ∧
       MS_Alias s = MS_Alias s' ∧
       (MS_Revision s = MS_Revision s' → modelSubjectPayloadEqual s s' = true)).
Proof.
  intros Hempty Hos1 Hos2 Hw1 Hw2. pose proof (keys_inv_empty _ Hempty) as Hi0.
  destruct (key_steps_refine w d no_keys os1 Hi0 Hos1) as [_ Hi1]. rewrite Hw1 in Hi1.
  set (t1 := (key_specs no_keys os1).2) in *.
  destruct (key_steps_refine w1 d t1 os2 Hi1 Hos2) as [_ Hi2]. rewrite Hw2 in Hi2.
  destruct (key_specs_after t1 os2) as [Hs Hm]. set (t2 := (key_specs t1 os2).2) in *. split.
  - intros u s Hget. rewrite (run_GetSubject w1 d t1) in Hget by done.
    destruct (subjects t1 !! u) as [s1|] eqn:E; [|done]. injection Hget as ->.
    destruct (Hs u s E) as (s' & E' & Ha). exists s'.
    by rewrite (run_GetSubject w2 d t2), E'.
  - intros x s Hget. rewrite (run_GetModelSubject w1 d t1) in Hget by done.
    destruct (model_subjects t1 !! x) as [s1|] eqn:E; [|done]. injection Hget as ->.
    destruct (Hm x s E) as (s' & E' & Ha). exists s'.
    by rewrite (run_GetModelSubject w2 d t2), E'.
Qed.
End histories.

(** ** Concrete inputs *)

Module KeySample.
Definition subject (u : string) (status : Status) (rev : Z) (del : bool) : KeySubject := {|
  KS_UserID := u; KS_Status := status; KS_Revision := rev; KS_Deleted := del;
  KS_UpdatedAt := Sample.time
|}.
Definition model_subject (x alias : string) (rev : Z) (del : bool) : ModelSubject := {|
  MS_ModelID := x; MS_Alias := alias; MS_Status := if del then StatusDisabled else StatusActive;
  MS_Revision := rev; MS_Deleted := del; MS_UpdatedAt := Sample.time
|}.
Definition key (id user hash : string) (models : list string) : VirtualKey := {|
  Key_ID := id; Key_Name := "k"; Key_UserID := user; Key_Prefix := "gwai"; Key_KeyHash := hash;
  Key_ModelIDs := models; Key_Status := StatusActive; Key_ExpiresAt := None;
  Key_CreatedAt := Sample.time; Key_UpdatedAt := Sample.time
|}.
Definition setup : list key_op :=
  [OpSyncSubject (subject "u1" StatusActive 1 false);
   OpSyncModelSubject (model_subject "m1" "fast" 1 false);
   OpSyncModelSubject (model_subject "m2" "slow" 1 false);
   OpCreateKey (key "k1" "u1" "h1" ["m1"]); OpCreateKey (key "k2" "u1" "h1" ["m1"]);
   OpReplaceKey (key "k1" "u1" "h1" ["m1"]) (key "k1" "u1" "h2" ["m2"])].
Definition more : list key_op :=
  [OpFenceSubject (subject "u1" StatusDisabled 2 true);
   OpFenceModelSubject (model_subject "m1" "fast" 2 true);
   OpCreateKey (key "k2" "u1" "h3" ["m1"])].
Definition results : list (error + unit) :=
  [inr tt; inr tt; inr tt; inr tt; inl ErrConflict; inr tt].
Definition world1 : world Memory.MemoryStore :=
  (run_steps Sample.env (key_step KeyState) Sample.world0 setup).2.
Definition world2 : world Memory.MemoryStore :=
  (run_steps Sample.env (key_step KeyState) world1 more).2.
End KeySample.

Lemma key_repository_histories_witness :
  (run_steps Sample.env (key_step KeyState) Sample.world0 KeySample.setup).1 = KeySample.results.
Proof.
  refine (proj1 (key_repository_histories Sample.env Sample.world0 KeyState KeySample.setup
    KeySample.world1 KeySample.results (key_specs no_keys KeySample.setup).2 _ _ eq_refl _)).
  - reflexivity.
  - unfold KeySample.setup. storable_sample.
  - by_vm.
Defined.

Lemma no_key_of_fenced_subject_witness :
  ∃ s, run Sample.env (GetSubject KeyState "u1") KeySample.world1 = (inr s, KeySample.world1) ∧
    KS_Deleted s = false.
Proof.
  refine (proj1 (proj2 (proj2 (no_key_of_fenced_subject Sample.env Sample.world0 KeyState
    KeySample.setup KeySample.world1 "k1" (KeySample.key "k1" "u1" "h2" ["m2"]) _ _ eq_refl _)))).
  - reflexivity.
  - unfold KeySample.setup. storable_sample.
  - by_vm.
Defined.

Lemma subjects_move_forward_witness :
  ∃ s', run Sample.env (GetModelSubject KeyState "m1") KeySample.world2 = (inr s', KeySample.world2) ∧
    (1 <= MS_Revision s')%Z ∧ (false = true → MS_Deleted s' = true) ∧ "fast" = MS_Alias s' ∧
    (1%Z = MS_Revision s' →
       modelSubjectPayloadEqual (KeySample.model_subject "m1" "fast" 1 false) s' = true).
Proof.
  refine (proj2 (subjects_move_forward Sample.env Sample.world0 KeyState KeySample.setup
    KeySample.more KeySample.world1 KeySample.world2 _ _ _ eq_refl eq_refl) "m1"
    (KeySample.model_subject "m1" "fast" 1 false) _).
  - reflexivity.
  - unfold KeySample.setup. storable_sample.
  - unfold KeySample.more. storable_sample.
  - by_vm.
Defined.
