(* ===== verification/ETag.v ===== *)
(** * Entity tags and preconditions ([internal/controlplane/etag.go])

    The strong validator of a public resource, the parser of [If-Match] and
    the check the services make before a conditional write. *)

From Stdlib Require Import Ascii.
From S2P Require Import Prelude GoStd Json GoTime Errors Model.

(** ** Definitions *)

Definition quote_mark : ascii := chr 34.
Definition in_quotes (s : string) : string := String quote_mark (s +:+ String quote_mark "").

(** [entityETag]: an error when the value cannot be marshalled. *)
Definition entityETag {T} `{Codec T} (value : T) : error + string :=
  match Marshal value with
  | Some encoded => inr (in_quotes (sha256_hex encoded))
  | None => inl (Errorf "encode resource ETag: %w" [AWrap (NewError "json: cannot marshal value")])
  end.

Record parsedEntityTag := { tag_value : string; tag_weak : bool }.
Record ifMatchPrecondition := { im_present : bool; im_value : string }.

Definition no_precondition : ifMatchPrecondition := {| im_present := false; im_value := "" |}.
Definition optionalIfMatch (value : string) : ifMatchPrecondition :=
  {| im_present := negb (bool_decide (value = "")); im_value := value |}.

Definition if_match_error (message : string) : error := ValidationError "if_match" message [].

Definition is_blank (c : ascii) : bool :=
  bool_decide (c = " "%char) || bool_decide (c = chr 9).
Fixpoint skip_blanks (s : string) : string :=
  match s with
  | String c s' => if is_blank c then skip_blanks s' else s
  | EmptyString => s
  end.

(** Bytes an entity tag may contain. *)
Definition tag_char (c : ascii) : bool :=
  let n := byte_val c in
  ((n =? 33) || ((35 <=? n) && (n <=? 126)) || (128 <=? n))%N.

(** The inner loop, from after the opening quote: the tag up to its closing
    quote, and the rest. *)
Fixpoint scan_tag (s : string) : error + (string * string) :=
  match s with
  | EmptyString => inl (if_match_error "contains an unterminated entity tag")
  | String c s' =>
      if bool_decide (c = quote_mark) then inr ("", s')
      else if tag_char c then
        match scan_tag s' with
        | inl e => inl e
        | inr (body, rest) => inr (String c body, rest)
        end
      else inl (if_match_error "contains an invalid entity tag")
  end.

Definition not_a_tag : error := if_match_error "must be * or one or more valid entity tags".

(** The loop over the header value; each round consumes a tag. *)
Fixpoint parse_tags (fuel : nat) (value : string) : error + list parsedEntityTag :=
  match fuel with
  | O => inr []
  | S fuel' =>
      if bool_decide (value = "") then inr [] else
      let value := skip_blanks value in
      let '(weak, value) :=
        match CutPrefix "W/" value with Some rest => (true, rest) | None => (false, value) end in
      match value with
      | String c rest =>
          if bool_decide (c = quote_mark) then
            match scan_tag rest with
            | inl e => inl e
            | inr (body, rest) =>
                let tag := {| tag_value := in_quotes body; tag_weak := weak |} in
                match skip_blanks rest with
                | EmptyString => inr [tag]
                | String c rest =>
                    if bool_decide (c = ","%char) then
                      if bool_decide (rest = "") then
                        inl (if_match_error "must not end with a comma")
                      else
                        match parse_tags fuel' rest with
                        | inl e => inl e
                        | inr tags => inr (tag :: tags)
                        end
                    else inl (if_match_error "must separate entity tags with commas")
                end
            end
          else inl not_a_tag
      | EmptyString => inl not_a_tag
      end
  end.

Definition parseIfMatch (value : string) : error + (list parsedEntityTag * bool) :=
  let value := TrimSpace value in
  if bool_decide (value = "") then inl not_a_tag
  else if bool_decide (value = "*") then inr ([], true)
  else
    match parse_tags (String.length value) value with
    | inl e => inl e
    | inr [] => inl (if_match_error "must contain an entity tag")
    | inr tags => inr (tags, false)
    end.

(** [enforceIfMatch]: [None] when the write may go on. *)
Definition enforceIfMatch {T} `{Codec T} (precondition : ifMatchPrecondition) (current : T)
    : option error :=
  if negb (im_present precondition) then None else
  match parseIfMatch (im_value precondition) with
  | inl e => Some e
  | inr (_, true) => None
  | inr (tags, false) =>
      match entityETag current with
      | inl e => Some e
      | inr currentTag =>
          if existsb (λ t, negb (tag_weak t) && bool_decide (tag_value t = currentTag)) tags
          then None
          else Some (Errorf "%w: resource changed since it was loaded" [AWrap ErrConflict])
      end
  end.

(** ** Facts *)

(** A header value from tags: the text of each, separated by a comma and a
    blank. *)
Definition print_tag (t : bool * string) : string :=
  (if t.1 then "W/" else "") +:+ in_quotes t.2.
Definition parsed_tag (t : bool * string) : parsedEntityTag :=
  {| tag_value := in_quotes t.2; tag_weak := t.1 |}.

Definition tag_text (s : string) : Prop := forallb tag_char (bytes_of s) = true.

Lemma tag_char_not_quote c : tag_char c = true → c ≠ quote_mark.
Proof. by intros Hc ->. Qed.

Lemma scan_tag_text s rest :
  tag_text s → scan_tag (s +:+ String quote_mark rest) = inr (s, rest).
Proof.
  unfold tag_text. induction s as [|c s IH]; [done|]. cbn [bytes_of forallb].
  intros [Hc Hs]%andb_true_iff. rewrite string_app_cons. cbn [scan_tag].
  rewrite bool_decide_eq_false_2 by by apply tag_char_not_quote. by rewrite Hc, IH.
Qed.

Lemma in_quotes_app s t : in_quotes s +:+ t = String quote_mark (s +:+ String quote_mark t).
Proof. unfold in_quotes. by rewrite string_app_cons, string_app_assoc. Qed.

(** One round of the loop on a printed tag. *)
Lemma parse_tags_tag n t rest :
  tag_text t.2 →
  parse_tags (S n) (print_tag t +:+ rest) =
    match skip_blanks rest with
    | EmptyString => inr [parsed_tag t]
    | String c rest =>
        if bool_decide (c = ","%char) then
          if bool_decide (rest = "") then inl (if_match_error "must not end with a comma")
          else match parse_tags n rest with
               | inl e => inl e
               | inr tags => inr (parsed_tag t :: tags)
               end
        else inl (if_match_error "must separate entity tags with commas")
    end.
Proof.
  destruct t as [[] s]; cbn [fst snd]; intros Hs; unfold print_tag; cbn [fst snd].
  - change (("W/" +:+ in_quotes s) +:+ rest) with (String "W" (String "/" (in_quotes s +:+ rest))).
    rewrite in_quotes_app. cbn [parse_tags]. rewrite bool_decide_eq_false_2 by done.
    change (skip_blanks (String "W" ?x)) with (String "W" x). cbn [CutPrefix Ascii.eqb Bool.eqb].
    rewrite bool_decide_eq_true_2 by done. by rewrite scan_tag_text.
  - change (("" +:+ in_quotes s) +:+ rest) with (in_quotes s +:+ rest).
    rewrite in_quotes_app. cbn [parse_tags]. rewrite bool_decide_eq_false_2 by done.
    change (skip_blanks (String quote_mark ?x)) with (String quote_mark x).
    change (CutPrefix "W/" (String quote_mark ?x)) with (@None string). cbn iota.
    rewrite bool_decide_eq_true_2 by done. by rewrite scan_tag_text.
Qed.

Lemma parse_tags_blank n s :
  s ≠ "" → parse_tags n (String " " s) = parse_tags n s.
Proof.
  intros Hs. destruct n as [|n]; [done|]. cbn [parse_tags].
  rewrite !bool_decide_eq_false_2 by done. done.
Qed.

Lemma print_tag_cons t :
  ∃ c s, print_tag t = String c s ∧ graph c = true ∧ c ≠ "*"%char.
Proof. destruct t as [[] s]; unfold print_tag, in_quotes; cbn [fst snd]; by eexists _, _. Qed.

Lemma print_tag_snoc t : ∃ r, print_tag t = r +:+ String quote_mark "".
Proof.
  destruct t as [w s]. unfold print_tag, in_quotes. cbn [fst snd].
  exists ((if w then "W/" else "") +:+ String quote_mark s).
  by rewrite string_app_assoc, string_app_cons.
Qed.

Lemma join_tags_cons t ts :
  ∃ c s, join ", " (map print_tag (t :: ts)) = String c s ∧ graph c = true ∧ c ≠ "*"%char.
Proof.
  destruct (print_tag_cons t) as (c & s & E & Hc). destruct ts as [|t' ts]; cbn [map join].
  - by exists c, s.
  - rewrite E. by eexists c, _.
Qed.

Lemma join_tags_snoc t ts : ∃ r, join ", " (map print_tag (t :: ts)) = r +:+ String quote_mark "".
Proof.
  revert t. induction ts as [|t' ts IH]; intros t; [apply print_tag_snoc|].
  destruct (IH t') as [r E]. cbn [map join] in *. rewrite E.
  exists (print_tag t +:+ ", " +:+ r). by rewrite !string_app_assoc.
Qed.

Lemma parse_tags_join n t ts :
  Forall (λ t, tag_text t.2) (t :: ts) → (length ts < n)%nat →
  parse_tags n (join ", " (map print_tag (t :: ts))) = inr (map parsed_tag (t :: ts)).
Proof.
  revert n t. induction ts as [|t' ts IH]; intros n t Hts Hn; destruct n as [|n]; try (cbn in Hn; lia).
  - apply list.Forall_cons in Hts as [Ht _]. cbn [map join].
    rewrite <- (string_app_nil_r (print_tag t)). by rewrite parse_tags_tag.
  - apply list.Forall_cons in Hts as [Ht Hts].
    change (join ", " (map print_tag (t :: t' :: ts))) with
      (print_tag t +:+ String "," (String " " (join ", " (map print_tag (t' :: ts))))).
    rewrite parse_tags_tag by done.
    change (skip_blanks (String "," ?x)) with (String "," x). cbn iota.
    rewrite bool_decide_eq_true_2, bool_decide_eq_false_2 by done.
    rewrite parse_tags_blank.
    + by rewrite IH by (done || (cbn in Hn; lia)).
    + destruct (join_tags_cons t' ts) as (c & s & -> & _). done.
Qed.

Lemma join_tags_length t ts : (length ts < String.length (join ", " (map print_tag (t :: ts))))%nat.
Proof.
  revert t. induction ts as [|t' ts IH]; intros t.
  - destruct (print_tag_cons t) as (c & s & E & _). cbn [map join]. rewrite E. cbn. lia.
  - change (join ", " (map print_tag (t :: t' :: ts))) with
      (print_tag t +:+ ", " +:+ join ", " (map print_tag (t' :: ts))).
    rewrite !string_length_app. specialize (IH t'). cbn [length String.length]. lia.
Qed.

(** Parsing what was printed gives the tags back. *)
Lemma parse_printed t ts :
  Forall (λ t, tag_text t.2) (t :: ts) →
  parseIfMatch (join ", " (map print_tag (t :: ts))) = inr (map parsed_tag (t :: ts), false).
Proof.
  intros Hts. unfold parseIfMatch. destruct (join_tags_cons t ts) as (c & s & Hj & Hc & Hstar).
  rewrite (TrimSpace_graph _ c quote_mark s Hj Hc (join_tags_snoc t ts) eq_refl).
  rewrite bool_decide_eq_false_2 by (rewrite Hj; done).
  rewrite bool_decide_eq_false_2 by (rewrite Hj; congruence).
  by rewrite parse_tags_join by (done || apply join_tags_length).
Qed.

Lemma digest_tag s : tag_text (sha256_hex s).
Proof. by apply sha256_hex_text. Qed.

Section preconditions.
Context {T : Type} `{CodecLaws T}.

Lemma entityETag_storable (x : T) :
  storable x → entityETag x = inr (in_quotes (sha256_hex (enc x))).
Proof. intros Hx. unfold entityETag. by rewrite Marshal_enc. Qed.

Lemma in_quotes_inj s t : in_quotes s = in_quotes t → s = t.
Proof.
  unfold in_quotes. intros [= E]. apply (f_equal string_rev) in E.
  rewrite !string_rev_snoc in E. injection E as E.
  by rewrite <- (string_rev_involutive s), E, string_rev_involutive.
Qed.

(** C8.  [If-Match] round trip: for any non-empty list of tags, weak or not,
    whose text has only the bytes an entity tag may have, the header that
    lists them is parsed to exactly those tags, so no tag is lost, merged or
    weakened; the parser needs no more rounds than the header has bytes. *)
Theorem parseIfMatch_print t ts :
  Forall (λ t : bool * string, tag_text t.2) (t :: ts) →
  parseIfMatch (join ", " (map print_tag (t :: ts))) = inr (map parsed_tag (t :: ts), false).
Proof. apply parse_printed. Qed.

(** A conditional write goes on exactly when the resource is what the
    client saw: sending back, as [If-Match], the entity tag that was served
    for [seen] lets the write of the stored [current] proceed when the two
    have the same SHA-256 digest, in particular when they are equal, and
    refuses it with a conflict otherwise; the weak form of the tag is always
    refused. *)
Theorem enforceIfMatch_served (seen current : T) served :
  storable seen → storable current → entityETag seen = inr served →
  let refused := Some (Errorf "%w: resource changed since it was loaded" [AWrap ErrConflict]) in
  enforceIfMatch {| im_present := true; im_value := served |} current =
    (if bool_decide (sha256_hex (enc seen) = sha256_hex (enc current)) then None else refused) ∧
  enforceIfMatch {| im_present := true; im_value := "W/" +:+ served |} current = refused ∧
  (seen = current → enforceIfMatch {| im_present := true; im_value := served |} current = None).
Proof.
  intros Hseen Hcur Hserved refused. rewrite entityETag_storable in Hserved by done.
  injection Hserved as <-.
  assert (Hp : ∀ weak, parseIfMatch (print_tag (weak, sha256_hex (enc seen))) =
    inr ([parsed_tag (weak, sha256_hex (enc seen))], false)).
  { intros weak. apply (parse_printed (weak, sha256_hex (enc seen)) []).
    apply list.Forall_singleton, digest_tag. }
  assert (Hstrong : enforceIfMatch
      {| im_present := true; im_value := in_quotes (sha256_hex (enc seen)) |} current =
    (if bool_decide (sha256_hex (enc seen) = sha256_hex (enc current)) then None else refused)).
  { unfold enforceIfMatch. cbn [im_present im_value negb].
    change (in_quotes (sha256_hex (enc seen))) with (print_tag (false, sha256_hex (enc seen))).
    rewrite Hp, entityETag_storable by done. cbn [existsb tag_weak tag_value parsed_tag negb fst snd].
    rewrite orb_false_r. cbn [andb].
    rewrite (bool_decide_ext _ (sha256_hex (enc seen) = sha256_hex (enc current))); [done|].
    split; [by intros ?%in_quotes_inj|by intros ->]. }
  split_and!; [done| |].
  - unfold enforceIfMatch. cbn [im_present im_value negb].
    change ("W/" +:+ in_quotes (sha256_hex (enc seen))) with (print_tag (true, sha256_hex (enc seen))).
    by rewrite Hp, entityETag_storable.
  - intros ->. by rewrite Hstrong, bool_decide_eq_true_2.
Qed.
End preconditions.

Lemma parseIfMatch_print_witness :
  parseIfMatch (join ", " (map print_tag [(false, "abc"); (true, "x,y")])) =
    inr ([{| tag_value := in_quotes "abc"; tag_weak := false |};
          {| tag_value := in_quotes "x,y"; tag_weak := true |}], false).
Proof. apply (parseIfMatch_print (false, "abc") [(true, "x,y")]). by repeat constructor. Defined.

Lemma enforceIfMatch_served_witness :
  let s := {| KS_UserID := "u"; KS_Status := StatusActive; KS_Revision := 1;
              KS_Deleted := false; KS_UpdatedAt := zero_time |} in
  ∃ served, entityETag s = inr served ∧
    enforceIfMatch {| im_present := true; im_value := served |} s = None.
Proof.
  intros s. eexists. split; [reflexivity|].
  refine (proj2 (proj2 (enforceIfMatch_served s s _ _ _ eq_refl)) eq_refl);
    split_and!; (vm_compute; first [done|by eexists]).
Defined.
