(* ===== verification/Svc.v ===== *)
(** * Service operations: sequences of atomic calls

    A service operation is a sequence of calls into repositories, the clock
    and the random source.  Every repository call runs under the mutex of its
    repository, in the only replica of its control plane, so it is one atomic
    step of the system; two service operations may interleave between their
    calls.  [svc] keeps that structure: a tree of atomic calls, each an effect
    tree of its own. *)

From S2P Require Import Prelude GoStd GoTime Errors State.

Inductive svc (A : Type) : Type :=
| Ret (r : error + A)
| Call {B : Type} (p : prog B) (k : error + B → svc A).
Arguments Ret {A}. Arguments Call {A B}.

Fixpoint svc_bind_result {A B} (s : svc A) (f : error + A → svc B) : svc B :=
  match s with
  | Ret r => f r
  | Call p k => Call p (λ r, svc_bind_result (k r) f)
  end.

#[export] Instance svc_ret : MRet svc := λ A a, Ret (inr a).
#[export] Instance svc_bind : MBind svc := λ A B f s,
  svc_bind_result s (λ r, match r with inl e => Ret (inl e) | inr a => f a end).

Definition call {B} (p : prog B) : svc B := Call p Ret.
Definition reject {A} (e : error) : svc A := Ret (inl e).
Definition returned {A} (r : error + A) : svc A := Ret r.
(** [if err := f(); err != nil { return err }] for a pure [f]. *)
Definition ensure (e : option error) : svc unit :=
  match e with Some e => reject e | None => mret tt end.
Definition svc_wrap_err {A} (f : error → error) (s : svc A) : svc A :=
  svc_bind_result s (λ r, match r with inl e => Ret (inl (f e)) | inr a => mret a end).

(** One operation alone, without faults. *)
Section run.
Context {S : Type} `{StateStore S}.

Fixpoint run_svc {A} (env : environment) (s : svc A) (w : world S) : (error + A) * world S :=
  match s with
  | Ret r => (r, w)
  | Call p k => let '(r, w') := run env p w in run_svc env (k r) w'
  end.
End run.

Section run_facts.
Context {S : Type} `{StateStore S} (env : environment).
Implicit Types w : world S.

Lemma run_svc_bind_result {A B} (s : svc A) (f : error + A → svc B) w :
  run_svc env (svc_bind_result s f) w =
  let '(r, w') := run_svc env s w in run_svc env (f r) w'.
Proof.
  revert w. induction s as [r|C p k IH]; intros w; cbn; [done|].
  destruct (run env p w) as [r w']. apply IH.
Qed.

Lemma run_svc_bind {A B} (s : svc A) (f : A → svc B) w :
  run_svc env (s ≫= f) w =
  match run_svc env s w with
  | (inl e, w') => (inl e, w')
  | (inr a, w') => run_svc env (f a) w'
  end.
Proof.
  unfold mbind, svc_bind. rewrite run_svc_bind_result.
  by destruct (run_svc env s w) as [[e|a] w'].
Qed.

Lemma run_svc_call {B} (p : prog B) w : run_svc env (call p) w = run env p w.
Proof. cbn. by destruct (run env p w). Qed.
End run_facts.
