(* ===== verification/Service.v ===== *)
(** * The resource control plane ([service.go], [model_service.go],
      [provider_validation.go])

    Input normalisation and the operations of [ResourceService] on users,
    providers and models, each a sequence of repository and registry calls. *)

From Stdlib Require Import Ascii.
From S2P Require Import Prelude GoStd Json GoText GoTime Errors State Model Repository.
From S2P Require Import ModelRepository ETag Svc.

(** ** Inputs *)

Record UserInput := { UI_Name : string; UI_Email : string; UI_Status : Status }.
Record ProviderInput := {
  PI_Slug : string; PI_Name : string; PI_Kind : string; PI_AdapterAppID : string;
  PI_Status : Status
}.
Record ModelInput := {
  MI_Alias : string; MI_ProviderID : string; MI_UpstreamModel : string; MI_Status : Status
}.

Definition validStatus (status : Status) : bool :=
  bool_decide (status = StatusActive) || bool_decide (status = StatusDisabled).

Definition normalizeStatus (status : Status) : Status :=
  if bool_decide (status = "") then StatusActive else status.

Definition validateName (name : string) : option error :=
  if bool_decide (TrimSpace name = "") then
    Some (ValidationError "name" "must not be empty" [])
  else if (200 <? String.length name)%nat then
    Some (ValidationError "name" "must not exceed 200 bytes" [])
  else None.

Definition status_error : error := ValidationError "status" "must be active or disabled" [].
Definition validateStatus (status : Status) : option error :=
  if validStatus status then None else Some status_error.

(** The first error of a list of checks, or the value. *)
Definition checked {A} (checks : list (option error)) (a : A) : error + A :=
  match first_some id checks with Some e => inl e | None => inr a end.

Definition refuse (c : bool) (e : error) : option error := if c then Some e else None.

Definition normalizeUserInput (input : UserInput) : error + UserInput :=
  let name := TrimSpace (UI_Name input) in
  let email := TrimSpace (ToLower (UI_Email input)) in
  let status := normalizeStatus (UI_Status input) in
  checked
    [validateName name;
     refuse (negb (ParseAddress_same email))
       (ValidationError "email" "must be a valid email address" []);
     validateStatus status]
    {| UI_Name := name; UI_Email := email; UI_Status := status |}.

Definition validateProviderSlug (slug : string) : option error :=
  if providerSlugPattern slug then None
  else Some (ValidationError "slug" "%q must be a lowercase DNS label of at most 63 characters"
         [AStr slug]).

Definition known_kind (kind : string) : bool :=
  bool_decide (kind ∈ [ProviderKindAnthropic; ProviderKindOpenAIChat;
    ProviderKindOpenAIResponses; ProviderKindGemini]).

Definition normalizeProviderInput (input : ProviderInput) : error + ProviderInput :=
  let slug := TrimSpace (PI_Slug input) in
  let name := TrimSpace (PI_Name input) in
  let kind := ToLower (TrimSpace (PI_Kind input)) in
  let app := TrimSpace (PI_AdapterAppID input) in
  let status := normalizeStatus (PI_Status input) in
  checked
    [validateName name;
     validateProviderSlug slug;
     refuse (negb (known_kind kind))
       (ValidationError "kind" "must be anthropic, openai-chat, openai-responses, or gemini" []);
     refuse (bool_decide (app = "") || negb (appIDPattern app))
       (ValidationError "adapter_app_id" "must be a valid lowercase Dapr app ID" []);
     validateStatus status]
    {| PI_Slug := slug; PI_Name := name; PI_Kind := kind; PI_AdapterAppID := app;
       PI_Status := status |}.

(** ** Registries *)

Class SubjectRegistry := {
  reg_SyncSubject : KeySubject → prog unit;
  reg_FenceSubject : KeySubject → prog unit
}.
Class ModelRegistry := {
  reg_SyncModel : ModelSubject → prog unit;
  reg_FenceModel : ModelSubject → prog unit
}.

(** [platform.NewID]. *)
Definition NewID (prefix : string) : prog string :=
  random ← wrap_err (λ e, Errorf "generate random id: %w" [AWrap e]) (rand_read 16);
  mret (prefix +:+ "_" +:+ EncodeToString random).

Definition subjectForUser (user : User) (deleted : bool) : KeySubject := {|
  KS_UserID := User_ID user;
  KS_Status := if deleted then StatusDisabled else User_Status user;
  KS_Revision := User_Revision user; KS_Deleted := deleted; KS_UpdatedAt := User_UpdatedAt user
|}.
Definition modelSubjectFor (model : Model) (deleted : bool) : ModelSubject := {|
  MS_ModelID := Model_ID model; MS_Alias := Model_Alias model;
  MS_Status := if deleted then StatusDisabled else Model_Status model;
  MS_Revision := Model_Revision model; MS_Deleted := deleted;
  MS_UpdatedAt := Model_UpdatedAt model
|}.

(** ** ResourceService

    Its repositories are state domains; the model registry may be nil. *)
Record ResourceService := {
  users : domain; providers : domain; models : domain;
  subjects : SubjectRegistry; modelSubjects : option ModelRegistry
}.

Section service.
Context (s : ResourceService).

Definition SyncSubject_of := @reg_SyncSubject (subjects s).
Definition FenceSubject_of := @reg_FenceSubject (subjects s).

(** *** Users *)

Definition new_user (id : string) (input : UserInput) (now : Time) : User := {|
  User_ID := id; User_Name := UI_Name input; User_Email := UI_Email input;
  User_Status := UI_Status input; User_Revision := 1; User_CreatedAt := now;
  User_UpdatedAt := now
|}.

Definition CreateUser (input : UserInput) : svc User :=
  input ← returned (normalizeUserInput input);
  id ← call (NewID "usr");
  now ← call now;
  let user := new_user id input now in
  _ ← call (Repository.CreateUser (users s) user);
  _ ← svc_wrap_err (λ e, Errorf "sync authorization subject: %w" [AWrap e])
        (call (SyncSubject_of (subjectForUser user false)));
  mret user.

Definition GetUser (id : string) : svc User := call (Repository.GetUser (users s) id).
Definition ListUsers : svc (list User) := call (Repository.ListUsers (users s)).

(** The new record of a PUT; [Revision++] wraps at 64 bits. *)
Definition updated_user (current : User) (input : UserInput) (now : Time) : User := {|
  User_ID := User_ID current; User_Name := UI_Name input; User_Email := UI_Email input;
  User_Status := UI_Status input; User_Revision := uint64 (User_Revision current + 1);
  User_CreatedAt := User_CreatedAt current; User_UpdatedAt := now
|}.

Definition updateUser (id : string) (input : UserInput) (precondition : ifMatchPrecondition)
    : svc User :=
  old ← call (Repository.GetUser (users s) id);
  _ ← ensure (enforceIfMatch precondition old);
  _ ← ensure (refuse (bool_decide (UI_Status input = "")) status_error);
  input ← returned (normalizeUserInput input);
  now ← call now;
  let current := updated_user old input now in
  _ ← (if bool_decide (User_Status current = StatusDisabled) then
         svc_wrap_err (λ e, Errorf "disable authorization subject: %w" [AWrap e])
           (call (SyncSubject_of (subjectForUser current false)))
       else mret tt);
  _ ← call (Repository.ReplaceUser (users s) old current);
  _ ← (if bool_decide (User_Status current = StatusActive) then
         svc_wrap_err (λ e, Errorf "enable authorization subject: %w" [AWrap e])
           (call (SyncSubject_of (subjectForUser current false)))
       else mret tt);
  mret current.

Definition UpdateUser (id : string) (input : UserInput) : svc User :=
  updateUser id input no_precondition.
Definition UpdateUserIfMatch (id : string) (input : UserInput) (ifMatch : string) : svc User :=
  updateUser id input (optionalIfMatch ifMatch).

Definition fence_user (user : User) (now : Time) : User := {|
  User_ID := User_ID user; User_Name := User_Name user; User_Email := User_Email user;
  User_Status := User_Status user; User_Revision := uint64 (User_Revision user + 1);
  User_CreatedAt := User_CreatedAt user; User_UpdatedAt := now
|}.

Definition deleteUser (id : string) (precondition : ifMatchPrecondition) : svc unit :=
  user ← call (Repository.GetUser (users s) id);
  _ ← ensure (enforceIfMatch precondition user);
  now ← call now;
  _ ← call (FenceSubject_of (subjectForUser (fence_user user now) true));
  call (Repository.DeleteUser (users s) user).

Definition DeleteUser (id : string) : svc unit := deleteUser id no_precondition.
Definition DeleteUserIfMatch (id ifMatch : string) : svc unit :=
  deleteUser id (optionalIfMatch ifMatch).

(** *** Providers *)

Definition new_provider (id : string) (input : ProviderInput) (now : Time) : Provider := {|
  Provider_ID := id; Provider_Slug := PI_Slug input; Provider_Name := PI_Name input;
  Provider_Kind := PI_Kind input; Provider_AdapterAppID := PI_AdapterAppID input;
  Provider_Status := PI_Status input; Provider_CreatedAt := now; Provider_UpdatedAt := now
|}.

Definition CreateProvider (input : ProviderInput) : svc Provider :=
  input ← returned (normalizeProviderInput input);
  id ← call (NewID "prv");
  now ← call now;
  let provider := new_provider id input now in
  _ ← call (Repository.CreateProvider (providers s) provider);
  mret provider.

Definition GetProvider (id : string) : svc Provider :=
  call (Repository.GetProvider (providers s) id).
Definition ListProviders : svc (list Provider) := call (Repository.ListProviders (providers s)).

Definition updated_provider (current : Provider) (input : ProviderInput) (now : Time) : Provider := {|
  Provider_ID := Provider_ID current; Provider_Slug := Provider_Slug current;
  Provider_Name := PI_Name input; Provider_Kind := PI_Kind input;
  Provider_AdapterAppID := Provider_AdapterAppID current; Provider_Status := PI_Status input;
  Provider_CreatedAt := Provider_CreatedAt current; Provider_UpdatedAt := now
|}.

Definition updateProvider (id : string) (input : ProviderInput)
    (precondition : ifMatchPrecondition) : svc Provider :=
  old ← call (Repository.GetProvider (providers s) id);
  _ ← ensure (enforceIfMatch precondition old);
  input ← returned (normalizeProviderInput input);
  _ ← ensure (refuse (negb (bool_decide (PI_Slug input = Provider_Slug old)))
        (ValidationError "slug" "is immutable" []));
  _ ← ensure (refuse (negb (bool_decide (PI_AdapterAppID input = Provider_AdapterAppID old)))
        (ValidationError "adapter_app_id" "is immutable" []));
  now ← call now;
  let current := updated_provider old input now in
  _ ← call (Repository.ReplaceProvider (providers s) old current);
  mret current.

Definition UpdateProvider (id : string) (input : ProviderInput) : svc Provider :=
  updateProvider id input no_precondition.
Definition UpdateProviderIfMatch (id : string) (input : ProviderInput) (ifMatch : string)
    : svc Provider := updateProvider id input (optionalIfMatch ifMatch).

Definition deleteProvider (id : string) (precondition : ifMatchPrecondition) : svc unit :=
  provider ← call (Repository.GetProvider (providers s) id);
  _ ← ensure (enforceIfMatch precondition provider);
  call (DeleteProviderIfNoModels (models s) provider).

Definition DeleteProvider (id : string) : svc unit := deleteProvider id no_precondition.
Definition DeleteProviderIfMatch (id ifMatch : string) : svc unit :=
  deleteProvider id (optionalIfMatch ifMatch).

(** *** Models *)

Definition provider_id_error (message : string) : error := ValidationError "provider_id" message [].

Definition normalizeModelInput (input : ModelInput) : svc ModelInput :=
  _ ← ensure (refuse (ContainsAny (MI_UpstreamModel input) [chr 13; chr 10; chr 0])
        (ValidationError "upstream_model" "contains unsupported control characters" []));
  let alias := TrimSpace (MI_Alias input) in
  let provider_id := TrimSpace (MI_ProviderID input) in
  let upstream := TrimSpace (MI_UpstreamModel input) in
  let status := normalizeStatus (MI_Status input) in
  _ ← ensure (refuse (negb (modelAliasPattern alias))
        (ValidationError "alias" "contains unsupported characters or has an invalid length" []));
  _ ← ensure (refuse (bool_decide (provider_id = "")) (provider_id_error "must not be empty"));
  provider ← svc_bind_result (call (Repository.GetProvider (providers s) provider_id)) (λ r,
    match r with
    | inl err =>
        if errors_Is err NotFound then
          reject (provider_id_error "does not reference an existing provider")
        else reject err
    | inr provider => mret provider
    end);
  _ ← ensure (refuse (300 <? String.length upstream)%nat
        (ValidationError "upstream_model" "must not exceed 300 bytes" []));
  _ ← ensure (validateStatus status);
  _ ← ensure (refuse (bool_decide (status = StatusActive) &&
                      negb (bool_decide (Provider_Status provider = StatusActive)))
        (provider_id_error "an active model requires an active provider"));
  mret {| MI_Alias := alias; MI_ProviderID := provider_id; MI_UpstreamModel := upstream;
          MI_Status := status |}.

Definition no_registry (format : string) : error := Errorf format [AWrap ErrUnavailable].

Definition registry (format : string) : svc ModelRegistry :=
  match modelSubjects s with
  | Some r => mret r
  | None => reject (no_registry format)
  end.

Definition new_model (id : string) (input : ModelInput) (now : Time) : Model := {|
  Model_ID := id; Model_Alias := MI_Alias input; Model_ProviderID := MI_ProviderID input;
  Model_UpstreamModel := MI_UpstreamModel input; Model_Status := MI_Status input;
  Model_Revision := 1; Model_CreatedAt := now; Model_UpdatedAt := now
|}.

Definition CreateModel (input : ModelInput) : svc Model :=
  input ← normalizeModelInput input;
  id ← call (NewID "mdl");
  now ← call now;
  let model := new_model id input now in
  _ ← call (ModelRepository.CreateModel (models s) model);
  r ← registry "sync model subject: %w";
  _ ← svc_wrap_err (λ e, Errorf "sync model subject: %w" [AWrap e])
        (call (@reg_SyncModel r (modelSubjectFor model false)));
  mret model.

Definition GetModel (id : string) : svc Model := call (ModelRepository.GetModel (models s) id).
Definition ListModels : svc (list Model) := call (ModelRepository.ListModels (models s)).

Definition updated_model (current : Model) (input : ModelInput) (now : Time) : Model := {|
  Model_ID := Model_ID current; Model_Alias := Model_Alias current;
  Model_ProviderID := MI_ProviderID input; Model_UpstreamModel := MI_UpstreamModel input;
  Model_Status := MI_Status input; Model_Revision := uint64 (Model_Revision current + 1);
  Model_CreatedAt := Model_CreatedAt current; Model_UpdatedAt := now
|}.

Definition updateModel (id : string) (input : ModelInput) (precondition : ifMatchPrecondition)
    : svc Model :=
  old ← call (ModelRepository.GetModel (models s) id);
  _ ← ensure (enforceIfMatch precondition old);
  _ ← ensure (refuse (bool_decide (MI_Status input = "")) status_error);
  input ← normalizeModelInput input;
  _ ← ensure (refuse (negb (bool_decide (MI_Alias input = Model_Alias old)))
        (ValidationError "alias" "is immutable" []));
  now ← call now;
  let current := updated_model old input now in
  r ← registry "sync model subject: %w";
  _ ← (if bool_decide (Model_Status current = StatusDisabled) then
         svc_wrap_err (λ e, Errorf "disable model subject: %w" [AWrap e])
           (call (@reg_SyncModel r (modelSubjectFor current false)))
       else mret tt);
  _ ← call (ModelRepository.ReplaceModel (models s) old current);
  _ ← (if bool_decide (Model_Status current = StatusActive) then
         svc_wrap_err (λ e, Errorf "enable model subject: %w" [AWrap e])
           (call (@reg_SyncModel r (modelSubjectFor current false)))
       else mret tt);
  mret current.

Definition UpdateModel (id : string) (input : ModelInput) : svc Model :=
  updateModel id input no_precondition.
Definition UpdateModelIfMatch (id : string) (input : ModelInput) (ifMatch : string) : svc Model :=
  updateModel id input (optionalIfMatch ifMatch).

Definition fence_model (model : Model) (now : Time) : Model := {|
  Model_ID := Model_ID model; Model_Alias := Model_Alias model;
  Model_ProviderID := Model_ProviderID model; Model_UpstreamModel := Model_UpstreamModel model;
  Model_Status := Model_Status model; Model_Revision := uint64 (Model_Revision model + 1);
  Model_CreatedAt := Model_CreatedAt model; Model_UpdatedAt := now
|}.

Definition deleteModel (id : string) (precondition : ifMatchPrecondition) : svc unit :=
  model ← call (ModelRepository.GetModel (models s) id);
  _ ← ensure (enforceIfMatch precondition model);
  now ← call now;
  r ← registry "fence model subject: %w";
  _ ← call (@reg_FenceModel r (modelSubjectFor (fence_model model now) true));
  call (ModelRepository.DeleteModel (models s) model).

Definition DeleteModel (id : string) : svc unit := deleteModel id no_precondition.
Definition DeleteModelIfMatch (id ifMatch : string) : svc unit :=
  deleteModel id (optionalIfMatch ifMatch).
End service.
