(* ===== verification/Platform.v ===== *)
(** * HTTP plumbing shared by the services ([internal/platform/http.go])

    Requests and responses as the handlers see them, the bearer token, the
    bounded JSON decoder, problem documents, the routing of [http.ServeMux] on
    clean paths and the middleware.  The listener, logging, panics and the
    wrapped response writer are not modelled. *)

From Stdlib Require Import Ascii.
From S2P Require Import Prelude GoStd Json GoText GoTime Errors GoFmt State Model Svc Service.

(** A request: its path is the list of its decoded segments, header names are
    canonical, one entry per line of the header. *)
Record http_request := {
  Method : string; Path : list string; Header : list (string * string); Body : string
}.
Record http_response := {
  StatusCode : Z; RespHeader : list (string * string); RespBody : string
}.

Definition header_values (name : string) (h : list (string * string)) : list string :=
  omap (λ kv, if bool_decide (kv.1 = name) then Some kv.2 else None) h.
(** [Header.Get]. *)
Definition header_get (name : string) (h : list (string * string)) : string :=
  default "" (head (header_values name h)).

(** [subtle.ConstantTimeCompare] of two slices of the same length. *)
Definition SecureEqual (left right : string) : bool :=
  if negb (String.length left =? String.length right)%nat then false
  else bool_decide (left = right).

(** [strings.Fields]: each round takes a byte, so the length is enough fuel. *)
Definition skip_space (s : string) : option string :=
  first_some (λ p, CutPrefix p s) unicode_spaces.
Definition put_field (field : string) (l : list string) : list string :=
  if bool_decide (field = "") then l else field :: l.
Fixpoint fields_go (fuel : nat) (field s : string) : list string :=
  match fuel, s with
  | S fuel', String c s' =>
      match skip_space s with
      | Some r => put_field field (fields_go fuel' "" r)
      | None => fields_go fuel' (field +:+ String c "") s'
      end
  | _, _ => put_field field []
  end.
Definition Fields (s : string) : list string := fields_go (S (String.length s)) "" s.

Definition BearerToken (header : string) : option string :=
  match Fields header with
  | [scheme; token] =>
      if negb (EqualFold scheme "Bearer") || bool_decide (token = "") then None else Some token
  | _ => None
  end.

(** ** Decoding a body *)

(** [json.Decoder.Decode] on the first [maxBytes+1] bytes of the body: a value,
    then nothing but blanks.  Error texts of [encoding/json] are one constant. *)
Definition json_text_error : error := NewError "json: cannot unmarshal value".

Definition DecodeJSON {A} (dec : json → option A) (body : string) (maxBytes : Z) : error + A :=
  let read := if (0 <? maxBytes)%Z then str_take (S (Z.to_nat maxBytes)) body else body in
  match parse_value (2 * String.length read + 2) read with
  | None => inl (Errorf "decode JSON body: %w" [AWrap json_text_error])
  | Some (j, rest) =>
      match dec j with
      | None => inl (Errorf "decode JSON body: %w" [AWrap json_text_error])
      | Some a =>
          let offset := Z.of_nat (String.length read - String.length rest) in
          if ((0 <? maxBytes) && (maxBytes <? offset))%Z then
            inl (Errorf "request body exceeds %d bytes" [AInt maxBytes])
          else if bool_decide (skip_ws rest = "") then inr a
          else if parse_value (2 * String.length rest + 2) rest is Some _ then
            inl (NewError "request body must contain a single JSON value")
          else inl (Errorf "decode trailing JSON: %w" [AWrap json_text_error])
      end
  end.

(** [DisallowUnknownFields]. *)
Definition strict_fields {A} (names : list string) (dec : json → option A) (j : json) : option A :=
  m ← members j; if known_fields names m then dec j else None.

(** ** Responses *)

Definition newline : string := String (chr 10) "".

(** [json.Encoder.Encode]: nothing is written when the value has no encoding. *)
Definition encoded (value : option json) : string :=
  match value with Some j => print j +:+ newline | None => "" end.

Definition JSON (status : Z) (value : option json) : http_response :=
  {| StatusCode := status; RespHeader := [("Content-Type", "application/json")];
     RespBody := encoded value |}.

Definition omitempty (name value : string) : list (string * json) :=
  if bool_decide (value = "") then [] else [(name, JStr value)].

Definition problem_json (status : Z) (title detail instance : string) : json :=
  JObj ([("type", JStr "about:blank"); ("title", JStr title); ("status", JNum (FormatInt status))] ++
        omitempty "detail" detail ++ omitempty "instance" instance).

(** The request id is the one the middleware put in the context. *)
Definition WriteProblem (requestID : string) (status : Z) (title detail : string) : http_response :=
  {| StatusCode := status; RespHeader := [("Content-Type", "application/problem+json")];
     RespBody := encoded (Some (problem_json status title detail requestID)) |}.

Definition with_header (name value : string) (r : http_response) : http_response :=
  {| StatusCode := StatusCode r; RespHeader := (name, value) :: RespHeader r;
     RespBody := RespBody r |}.

(** [w.WriteHeader(status)] alone. *)
Definition no_body (status : Z) : http_response :=
  {| StatusCode := status; RespHeader := []; RespBody := "" |}.

(** ** Routing

    A pattern is a method and segments, [{id}] being [None].  A pattern with
    [GET] matches [HEAD] too. *)

Definition handler : Type := string → http_request → svc http_response.
Record route := { rt_method : string; rt_pattern : list (option string); rt_handler : string → handler }.

(** The segment at the wildcard, [""] when the pattern has none. *)
Fixpoint match_path (pattern : list (option string)) (path : list string) (id : string)
    : option string :=
  match pattern, path with
  | [], [] => Some id
  | Some s :: pattern', seg :: path' =>
      if bool_decide (s = seg) then match_path pattern' path' id else None
  | None :: pattern', seg :: path' =>
      if bool_decide (seg = "") then None else match_path pattern' path' seg
  | _, _ => None
  end.

Definition method_matches (pattern method : string) : bool :=
  bool_decide (pattern = method) ||
  (bool_decide (pattern = "GET") && bool_decide (method = "HEAD")).

Definition plain (status : Z) (text : string) : http_response :=
  {| StatusCode := status; RespHeader := [("Content-Type", "text/plain; charset=utf-8")];
     RespBody := text +:+ newline |}.

Definition ServeMux (routes : list route) : handler := λ requestID r,
  let found := omap (λ rt, pair rt <$> match_path (rt_pattern rt) (Path r) "") routes in
  match List.find (λ p, method_matches (rt_method p.1) (Method r)) found with
  | Some (rt, id) => rt_handler rt id requestID r
  | None =>
      mret (if bool_decide (found = []) then plain 404 "404 page not found"
            else plain 405 "Method Not Allowed")
  end.

(** [HTTPMiddleware]: the request id, given or made. *)
Definition HTTPMiddleware (next : handler) (r : http_request) : svc http_response :=
  let serve requestID :=
    response ← next requestID r; mret (with_header "X-Request-Id" requestID response) in
  let given := header_get "X-Request-Id" (Header r) in
  if bool_decide (given = "") then
    svc_bind_result (call (NewID "req")) (λ id, serve (match id with inr id => id | inl _ => "" end))
  else serve given.
