(* ===== verification/Wire.v ===== *)
(** * Structs on the wire ([encoding/json])

    How [json.Marshal] writes the structs of the protocols and [json.Unmarshal]
    or a [json.Decoder] reads them, from the texts of the values: a raw message
    keeps its text.  A reader decodes a text into a value that is already
    there, as repeated members of an object do.  Elements of a slice beyond its
    length, which a third occurrence of a member can bring back, are not
    modelled. *)

From Stdlib Require Import SpecFloat Ascii.
From S2P Require Import Prelude GoStd Json JsonRaw GoFloat GoFmt GoTime GoWeb Errors State.
From S2P Require Import Model Svc Service Platform.

(** ** Writing *)

(** The text of a struct whose fields have these texts. *)
Definition text_member (kv : string * string) : string := quote kv.1 +:+ ":" +:+ kv.2.
Definition object_text (m : list (string * string)) : string :=
  "{" +:+ join "," (map text_member m) +:+ "}".
Definition array_text (l : list string) : string := "[" +:+ join "," l +:+ "]".

(** A field of a struct: its name, and its text unless it is left out; no
    encoding is an error. *)
Definition written : Type := string * option (option string).
Definition must (name : string) (text : option string) : written := (name, Some <$> text).
(** [omitempty]: [empty] tells whether the value is left out. *)
Definition omit (empty : bool) (name : string) (text : option string) : written :=
  (name, if empty then Some None else Some <$> text).
Fixpoint member_texts (l : list written) : option (list (string * string)) :=
  match l with
  | [] => Some []
  | (_, None) :: _ => None
  | (_, Some None) :: l' => member_texts l'
  | (name, Some (Some text)) :: l' => cons (name, text) <$> member_texts l'
  end.
Definition struct_text (l : list written) : option string := object_text <$> member_texts l.

Definition string_text (s : string) : option string := Some (quote s).
Definition bool_text (b : bool) : option string := Some (if b then "true" else "false").
Definition int_text (n : Z) : option string := Some (FormatInt n).
(** A nil raw message is [null]. *)
Definition raw_text (raw : string) : option string :=
  if bool_decide (raw = "") then Some "null" else compact raw.
Definition pointer_text {A} (text : A → option string) (o : option A) : option string :=
  match o with Some a => text a | None => Some "null" end.
Definition slice_text {A} (text : A → option string) (l : list A) : option string :=
  array_text <$> all_some text l.
(** A slice that is nil when it has no elements. *)
Definition nil_slice_text {A} (text : A → option string) (l : list A) : option string :=
  match l with [] => Some "null" | _ => slice_text text l end.

(** Fields of each type that are left out when they are empty. *)
Definition omit_string (name s : string) : written :=
  omit (bool_decide (s = "")) name (string_text s).
Definition omit_bool (name : string) (b : bool) : written := omit (negb b) name (bool_text b).
Definition omit_int (name : string) (n : Z) : written := omit (n =? 0)%Z name (int_text n).
Definition omit_raw (name raw : string) : written := omit (bool_decide (raw = "")) name (raw_text raw).
Definition omit_pointer {A} (name : string) (text : A → option string) (o : option A) : written :=
  omit (if o is Some _ then false else true) name (pointer_text text o).
Definition omit_slice {A} (name : string) (text : A → option string) (l : list A) : written :=
  omit (if l is [] then true else false) name (slice_text text l).

(** ** Reading *)

Definition reader (A : Type) : Type := A → string → option A.

(** A basic value: [null] changes nothing. *)
Definition read_basic {A} (dec : json → option A) : reader A := λ current raw,
  match parse raw with
  | Some JNull => Some current
  | Some j => dec j
  | None => None
  end.
Definition dec_integer (j : json) : option Z := match j with JNum lit => ParseInt lit | _ => None end.
Definition dec_float (j : json) : option spec_float :=
  match j with JNum lit => ParseFloat lit | _ => None end.
Definition read_string : reader string := read_basic dec_string.
Definition read_bool : reader bool := read_basic dec_bool.
Definition read_int : reader Z := read_basic dec_integer.
Definition read_float : reader spec_float := read_basic dec_float.
Definition read_raw : reader string := λ _ raw, Some raw.

(** [null] makes a pointer nil; another value is decoded into its target. *)
Definition read_pointer {A} (zero : A) (read : reader A) : reader (option A) := λ current raw,
  match parse raw with
  | Some JNull => Some None
  | Some _ => Some <$> read (default zero current) raw
  | None => None
  end.

(** The elements of an array are decoded into those that are there. *)
Fixpoint read_elements {A} (zero : A) (read : reader A) (current : list A) (raws : list string)
    : option (list A) :=
  match raws with
  | [] => Some []
  | raw :: raws' =>
      x ← read (default zero (head current)) raw;
      xs ← read_elements zero read (tail current) raws';
      Some (x :: xs)
  end.
Definition read_slice {A} (zero : A) (read : reader A) : reader (list A) := λ current raw,
  match parse raw with
  | Some JNull => Some []
  | Some (JArr _) => raws ← raw_array raw; read_elements zero read current raws
  | _ => None
  end.

(** A struct: its members in order, unknown ones refused or skipped. *)
Definition read_struct {A} (strict : bool) (names : list string)
    (dec : A → list (string * string) → option A) : reader A := λ current raw,
  match parse raw with
  | Some JNull => Some current
  | Some (JObj _) =>
      m ← raw_object raw;
      if strict && negb (forallb (λ kv, existsb (EqualFold kv.1) names) m) then None
      else dec current m
  | _ => None
  end.

(** The values of one field, each decoded into the field. *)
Definition read_field {A} (read : reader A) (name : string) (current : A)
    (m : list (string * string)) : option A :=
  foldl (λ acc kv, if EqualFold kv.1 name then x ← acc; read x kv.2 else acc) (Some current) m.

(** A map as its members sorted by key, a later value replacing an earlier one. *)
Definition set_key {A} (l : list (string * A)) (kv : string * A) : list (string * A) :=
  List.filter (λ kv', negb (bool_decide (kv'.1 = kv.1))) l ++ [kv].
Definition as_map {A} (l : list (string * A)) : list (string * A) :=
  sort_by (λ kv, [kv.1]) (foldl set_key [] l).
Definition map_text {A} (text : A → option string) (m : list (string * A)) : option string :=
  object_text <$> all_some (λ kv, pair kv.1 <$> text kv.2) m.
Definition read_map {A} (dec : json → option A) : reader (list (string * A)) := λ current raw,
  match parse raw with
  | Some JNull => Some []
  | Some (JObj m) => l ← all_some (λ kv, pair kv.1 <$> dec kv.2) m; Some (as_map (current ++ l))
  | _ => None
  end.
(** An element of a [map[string]string]. *)
Definition dec_text (j : json) : option string := if j is JNull then Some "" else dec_string j.

(** A value decoded into [any], as the JSON it is written as: numbers are
    doubles, objects are maps. *)
Fixpoint dec_any (j : json) : option json :=
  match j with
  | JNum lit => JNum <$> (ParseFloat lit ≫= FormatFloat)
  | JArr l =>
      JArr <$> (fix go l := match l with
                | [] => Some []
                | x :: l' => y ← dec_any x; cons y <$> go l'
                end) l
  | JObj m =>
      (λ m, JObj (as_map m)) <$> (fix go m := match m with
                | [] => Some []
                | (k, x) :: m' => y ← dec_any x; cons (k, y) <$> go m'
                end) m
  | _ => Some j
  end.
Definition any_text (j : json) : option string := Some (print j).

(** ** Bodies *)

(** [json.Unmarshal] checks the whole text first. *)
Definition UnmarshalText {A} (zero : A) (read : reader A) (text : string) : option A :=
  if Valid text then read zero text else None.

(** [json.Decoder.Decode]: the first value of a text, and what follows it. *)
Definition DecodeText {A} (zero : A) (read : reader A) (text : string) : option (A * string) :=
  match parse_value (2 * String.length text + 2) text with
  | Some (_, rest) => a ← read zero (raw_of (skip_ws text) rest); Some (a, rest)
  | None => None
  end.

(** [DecodeJSON] of a struct with raw fields: its reader gets the text of the
    value. *)
Definition DecodeBody {A} (zero : A) (read : reader A) (body : string) (maxBytes : Z) : error + A :=
  let bounded := if (0 <? maxBytes)%Z then str_take (S (Z.to_nat maxBytes)) body else body in
  match DecodeText zero read bounded with
  | None => inl (Errorf "decode JSON body: %w" [AWrap json_text_error])
  | Some (a, rest) =>
      let offset := Z.of_nat (String.length bounded - String.length rest) in
      if ((0 <? maxBytes) && (maxBytes <? offset))%Z then
        inl (Errorf "request body exceeds %d bytes" [AInt maxBytes])
      else if bool_decide (skip_ws rest = "") then inr a
      else if parse_value (2 * String.length rest + 2) rest is Some _ then
        inl (NewError "request body must contain a single JSON value")
      else inl (Errorf "decode trailing JSON: %w" [AWrap json_text_error])
  end.

(** [JSON] of a value with this text: nothing is written without one. *)
Definition JSON_text (status : Z) (text : option string) : http_response :=
  {| StatusCode := status; RespHeader := [("Content-Type", "application/json")];
     RespBody := match text with Some t => t +:+ newline | None => "" end |}.

Example maps_read :
  (l ← read_map dec_any [] (requote "{ 'b': 1.0, 'a': {'y':[2e0], 'x':null}, 'b': 0.5}"); map_text any_text l) =
  Some (requote "{'a':{'x':null,'y':[2]},'b':0.5}").
Proof. vm_compute. reflexivity. Qed.
