(* ===== verification/WireFacts.v ===== *)
(** * What is written is read back

    The texts of values in any context, and the round trip of the structs of
    [Wire]: a field that was written is read, one that was left out keeps the
    zero value.  [codec] packages the round trip of a type for the fields of
    other structs. *)

From Stdlib Require Import SpecFloat Ascii DecimalString.
From S2P Require Import Prelude GoStd Json JsonPrefix JsonRaw GoText Utf8 GoFloat GoFmt GoWeb.
From S2P Require Import Errors State Model Svc Service Platform Wire.

#[local] Arguments bool_decide : simpl never.

(** ** Texts of values *)

(** The text of the value [j], before anything that does not continue it. *)
Record value_text (t : string) (j : json) : Prop := {
  vt_head : ∃ c u, t = String c u ∧ is_ws c = false ∧ Ascii.eqb c "]" = false;
  vt_parse f s : (2 * String.length t + 2 <= f)%nat → delimited s → parse_value f (t +:+ s) = Some (j, s)
}.

Lemma value_text_print j : wf_json j → value_text (print j) j.
Proof. intros Hj. split; [by apply print_head|]. intros f s. by apply parse_value_print. Qed.

Lemma value_text_skip t j s : value_text t j → skip_ws (t +:+ s) = t +:+ s.
Proof.
  intros [(c & u & -> & Hc & _) _]. rewrite string_app_cons. cbn [skip_ws]. by rewrite Hc.
Qed.

Lemma value_text_parse t j : value_text t j → parse t = Some j.
Proof.
  intros [_ Hp]. unfold parse. specialize (Hp (2 * String.length t + 2)%nat "" (le_n _) I).
  rewrite string_app_nil_r in Hp. by rewrite Hp.
Qed.

Lemma str_take_app s t : str_take (String.length s) (s +:+ t) = s.
Proof. induction s as [|c s IH]; [by destruct t|]. rewrite string_app_cons. cbn. by rewrite IH. Qed.
Lemma raw_of_app s t : raw_of (s +:+ t) t = s.
Proof.
  unfold raw_of. rewrite string_length_app. replace (_ - _)%nat with (String.length s) by lia.
  apply str_take_app.
Qed.

Lemma scan_value_text t j s : value_text t j → delimited s →
  scan_value (t +:+ s) = Some (t, s).
Proof.
  intros [_ Hp] Hs. unfold scan_value. rewrite Hp; [by rewrite raw_of_app| |done].
  rewrite string_length_app. lia.
Qed.

(** ** Arrays *)

Lemma elements_read l js f s : Forall2 value_text l js → l ≠ [] → (2 * String.length (join "," l) + 4 <= f)%nat →
  parse_elements f (join "," l +:+ String "]" s) = Some (js, s).
Proof.
  intros Hl. revert f. induction Hl as [|t j l' js' Ht Hl' IH]; intros f Hne Hf; [done|].
  destruct f as [|f]; [lia|]. destruct Hl' as [|t2 j2 l' js' Ht2 Hl'].
  - cbn [join] in *. cbn [parse_elements]. by rewrite (vt_parse _ _ Ht) by (done || lia).
  - set (rest := join "," (t2 :: l')) in *.
    change (join "," (t :: t2 :: l')) with (t +:+ "," +:+ rest) in *.
    rewrite !string_length_app in Hf. cbn [String.length] in Hf.
    rewrite !string_app_assoc. cbn [parse_elements].
    rewrite (vt_parse _ _ Ht) by (done || lia). rewrite string_app_cons. cbn [skip_ws].
    change (is_ws ",") with false. cbv iota. rewrite string_app_nil_l. by rewrite IH by (done || lia).
Qed.

Lemma elements_scanned l js f s : Forall2 value_text l js → l ≠ [] → (String.length (join "," l) < f)%nat →
  scan_elements f (join "," l +:+ String "]" s) = Some l.
Proof.
  intros Hl. revert f. induction Hl as [|t j l' js' Ht Hl' IH]; intros f Hne Hf; [done|].
  destruct f as [|f]; [lia|]. destruct Hl' as [|t2 j2 l' js' Ht2 Hl'].
  - cbn [join] in *. cbn [scan_elements]. rewrite (value_text_skip _ _ _ Ht).
    by rewrite (scan_value_text _ _ _ Ht) by done.
  - set (rest := join "," (t2 :: l')) in *.
    change (join "," (t :: t2 :: l')) with (t +:+ "," +:+ rest) in *.
    rewrite !string_length_app in Hf. cbn [String.length] in Hf.
    rewrite !string_app_assoc. cbn [scan_elements]. rewrite (value_text_skip _ _ _ Ht).
    rewrite (scan_value_text _ _ _ Ht) by done. cbn [mbind option_bind].
    rewrite string_app_cons. cbn [skip_ws]. change (is_ws ",") with false. cbv iota.
    rewrite string_app_nil_l. by rewrite IH by (done || lia).
Qed.

Lemma array_value l js : Forall2 value_text l js → value_text (array_text l) (JArr js).
Proof.
  intros Hl. unfold array_text. split; [by eexists _, _|]. intros f s Hf Hs.
  rewrite !string_length_app in Hf. cbn [String.length] in Hf. destruct f as [|f]; [lia|].
  rewrite !string_app_assoc, string_app_cons, string_app_nil_l. cbn [parse_value skip_ws].
  change (is_ws "[") with false. cbv iota. change (Ascii.eqb "[" dquote) with false.
  change (Ascii.eqb "[" "[") with true. cbv iota.
  destruct (decide (l = [])) as [E|Hne].
  { subst l. by inversion Hl. }
  change ("]" +:+ s) with (String "]" s). rewrite (elements_read _ _ _ _ Hl) by (done || lia).
  destruct Hl as [|t j l' js' [(c & u & Hu & Hcw & Hcb) _] _]; [done|].
  assert (∃ v, join "," (t :: l') +:+ String "]" s = String c v) as [v ->].
  { rewrite Hu. destruct l'; eexists; reflexivity. }
  cbn [skip_ws]. rewrite Hcw. by_byte c.
Qed.

Lemma array_scanned l js : Forall2 value_text l js → raw_array (array_text l) = Some l.
Proof.
  intros Hl. unfold raw_array. rewrite (value_text_parse _ _ (array_value _ _ Hl)).
  destruct (decide (l = [])) as [E|Hne].
  { subst l. by inversion Hl. }
  destruct js as [|j js']; [by inversion Hl; subst|].
  change (array_text l) with (String "[" (join "," l +:+ "]")). cbn [skip_ws].
  change (is_ws "[") with false. cbv iota. cbn [String.length].
  change "]" with (String "]" ""). eapply elements_scanned; [done..|].
  rewrite string_length_app. lia.
Qed.

(** ** Objects *)

(** The members of an object with their values. *)
Definition member_value (kv : string * string) (kj : string * json) : Prop :=
  kv.1 = kj.1 ∧ valid_utf8 kv.1 = true ∧ value_text kv.2 kj.2.

Lemma text_member_length k t :
  (String.length t + 3 <= String.length (text_member (k, t)))%nat.
Proof.
  unfold text_member, quote. cbn [fst snd]. rewrite !string_length_app. cbn [String.length].
  rewrite string_length_app. cbn. lia.
Qed.

(** One member: its name is read, then its value. *)
Lemma text_member_app k t s : valid_utf8 k = true →
  ∃ u, text_member (k, t) +:+ s = String dquote u ∧
       parse_lit (S (String.length u)) u = Some (k, String ":" (t +:+ s)).
Proof.
  intros Hk. destruct (parse_lit_quoted k (String ":" (t +:+ s)) Hk) as (u & Hu & Hp).
  exists u. split; [|done]. rewrite <- Hu. unfold text_member. cbn [fst snd].
  by rewrite !string_app_assoc.
Qed.

Lemma members_read m ms f s : Forall2 member_value m ms → m ≠ [] →
  (2 * String.length (join "," (map text_member m)) + 4 <= f)%nat →
  parse_members f (join "," (map text_member m) +:+ String "}" s) = Some (ms, s).
Proof.
  intros Hm. revert f. induction Hm as [|[k t] [k' j] m ms (Hkk & Hk & Ht) Hm IH]; intros f Hne Hf; [done|].
  cbn [fst snd] in *. subst k'. destruct f as [|f]; [lia|]. pose proof (text_member_length k t) as Hlen.
  destruct Hm as [|[k2 t2] j2 m ms Ht2 Hm].
  - cbn [map join] in *. destruct (text_member_app k t (String "}" s) Hk) as (u & -> & Hu).
    cbn [parse_members]. change (skip_ws (String dquote u)) with (String dquote u). cbv iota beta.
    change (Ascii.eqb dquote dquote) with true. cbv iota. rewrite Hu. cbn [skip_ws].
    change (is_ws ":") with false. cbv iota beta. by rewrite (vt_parse _ _ Ht) by (done || lia).
  - cbn [map] in *. set (rest := join "," (text_member (k2, t2) :: map text_member m)) in *.
    change (join "," (text_member (k, t) :: text_member (k2, t2) :: map text_member m))
      with (text_member (k, t) +:+ "," +:+ rest) in *.
    rewrite !string_length_app in Hf. cbn [String.length] in Hf. rewrite !string_app_assoc.
    destruct (text_member_app k t ("," +:+ rest +:+ String "}" s) Hk) as (u & -> & Hu).
    cbn [parse_members]. change (skip_ws (String dquote u)) with (String dquote u). cbv iota beta.
    change (Ascii.eqb dquote dquote) with true. cbv iota. rewrite Hu. cbn [skip_ws].
    change (is_ws ":") with false. cbv iota beta. rewrite (vt_parse _ _ Ht) by (done || lia).
    rewrite string_app_cons. cbn [skip_ws]. change (is_ws ",") with false. cbv iota.
    rewrite string_app_nil_l. by rewrite IH by (done || lia).
Qed.

Lemma members_scanned m ms f s : Forall2 member_value m ms → m ≠ [] →
  (String.length (join "," (map text_member m)) < f)%nat →
  scan_members f (join "," (map text_member m) +:+ String "}" s) = Some m.
Proof.
  intros Hm. revert f. induction Hm as [|[k t] [k' j] m ms (Hkk & Hk & Ht) Hm IH]; intros f Hne Hf; [done|].
  cbn [fst snd] in *. subst k'. destruct f as [|f]; [lia|]. pose proof (text_member_length k t) as Hlen.
  destruct Hm as [|[k2 t2] j2 m ms Ht2 Hm].
  - cbn [map join] in *. destruct (text_member_app k t (String "}" s) Hk) as (u & -> & Hu).
    cbn [scan_members]. change (skip_ws (String dquote u)) with (String dquote u). cbv iota beta.
    rewrite Hu. cbn [mbind option_bind skip_ws]. change (is_ws ":") with false. cbv iota beta.
    rewrite (value_text_skip _ _ _ Ht). by rewrite (scan_value_text _ _ _ Ht) by done.
  - cbn [map] in *. set (rest := join "," (text_member (k2, t2) :: map text_member m)) in *.
    change (join "," (text_member (k, t) :: text_member (k2, t2) :: map text_member m))
      with (text_member (k, t) +:+ "," +:+ rest) in *.
    rewrite !string_length_app in Hf. cbn [String.length] in Hf. rewrite !string_app_assoc.
    destruct (text_member_app k t ("," +:+ rest +:+ String "}" s) Hk) as (u & -> & Hu).
    cbn [scan_members]. change (skip_ws (String dquote u)) with (String dquote u). cbv iota beta.
    rewrite Hu. cbn [mbind option_bind skip_ws]. change (is_ws ":") with false. cbv iota beta.
    rewrite (value_text_skip _ _ _ Ht), (scan_value_text _ _ _ Ht) by done. cbn [mbind option_bind].
    rewrite string_app_cons. cbn [skip_ws]. change (is_ws ",") with false. cbv iota.
    rewrite string_app_nil_l. by rewrite IH by (done || lia).
Qed.

Lemma object_value m ms : Forall2 member_value m ms → value_text (object_text m) (JObj ms).
Proof.
  intros Hm. unfold object_text. split; [by eexists _, _|]. intros f s Hf Hs.
  rewrite !string_length_app in Hf. cbn [String.length] in Hf. destruct f as [|f]; [lia|].
  rewrite !string_app_assoc, string_app_cons, string_app_nil_l. cbn [parse_value skip_ws].
  change (is_ws "{") with false. cbv iota. change (Ascii.eqb "{" dquote) with false.
  change (Ascii.eqb "{" "[") with false. change (Ascii.eqb "{" "{") with true. cbv iota.
  destruct (decide (m = [])) as [E|Hne]; [subst m; by inversion Hm|].
  change ("}" +:+ s) with (String "}" s). rewrite (members_read _ _ _ _ Hm) by (done || lia).
  assert (∃ u, join "," (map text_member m) +:+ String "}" s = String dquote u) as [u ->]; [|done].
  destruct m as [|kv m]; [done|]. cbn [map join]. destruct (map text_member m); eexists; reflexivity.
Qed.

Lemma object_scanned m ms : Forall2 member_value m ms → raw_object (object_text m) = Some m.
Proof.
  intros Hm. unfold raw_object. rewrite (value_text_parse _ _ (object_value _ _ Hm)).
  destruct (decide (m = [])) as [E|Hne]; [subst m; by inversion Hm|].
  destruct ms as [|kj ms]; [by inversion Hm; subst|].
  change (object_text m) with (String "{" (join "," (map text_member m) +:+ "}")). cbn [skip_ws].
  change (is_ws "{") with false. cbv iota. cbn [String.length].
  change "}" with (String "}" ""). eapply members_scanned; [done..|].
  rewrite string_length_app. lia.
Qed.

(** ** Raw messages *)

(** A raw message as [json.Marshal] leaves it. *)
Definition compacted (raw : string) : Prop :=
  compact raw = Some raw ∧ scan_value raw = Some (raw, "") ∧
  ∃ c u, raw = String c u ∧ is_ws c = false.
#[export] Instance compacted_dec raw : Decision (compacted raw).
Proof.
  unfold compacted. destruct raw as [|c u]; [right; by intros (_ & _ & ? & ? & [=] & _)|].
  refine (cast_if (decide (compact (String c u) = Some (String c u) ∧
    scan_value (String c u) = Some (String c u, "") ∧ is_ws c = false))).
  - abstract naive_solver.
  - abstract (intros (? & ? & ? & ? & [= <- <-] & ?); naive_solver).
Defined.

Lemma compacted_print j : wf_json j → compacted (print j).
Proof.
  intros Hj. split_and!; [by apply compact_print| |].
  - rewrite <- (string_app_nil_r (print j)) at 1.
    by apply (scan_value_text _ j); [apply value_text_print|].
  - destruct (print_head j Hj) as (c & u & ? & ? & _). by exists c, u.
Qed.

Lemma span_concat p s l r : span p s = (l, r) → s = l +:+ r.
Proof.
  revert l r. induction s as [|c s IH]; intros l r; cbn [span]; [by intros [= <- <-]|].
  destruct (p c); [|by intros [= <- <-]]. destruct (span p s) as [l' r'].
  intros [= <- <-]. by rewrite string_app_cons, (IH l' r').
Qed.

Lemma number_text c u f lit : is_ws c = false → parse_value f (String c u) = Some (JNum lit, "") →
  String c u = lit.
Proof.
  intros Hw E. pose proof (parse_value_number _ _ _ _ _ E Hw) as Hn.
  destruct (is_digit_not_special _ Hn) as (_ & H1 & H2 & H3 & _). destruct f as [|f]; [done|].
  cbn [parse_value skip_ws] in E. rewrite Hw, H1, H2, H3, Hn in E. unfold parse_number in E.
  destruct (span number_char (String c u)) as [lit' r'] eqn:Es. apply span_concat in Es.
  destruct (valid_number lit'); [|done]. injection E as <- ->. by rewrite string_app_nil_r in Es.
Qed.

Lemma compacted_value raw : compacted raw → ∃ j, value_text raw j.
Proof.
  intros (_ & Hs & c & u & Hraw & Hw). unfold scan_value in Hs.
  destruct (parse_value _ raw) as [[j r]|] eqn:E; [|done]. injection Hs as _ ->. exists j.
  assert ((∃ lit, j = JNum lit) ∨ ∀ lit, j ≠ JNum lit) as [[lit ->]|Hj]
    by (destruct j; naive_solver).
  { pose proof (proj1 (parse_wf_fuel _) _ _ _ E) as Hwf. subst raw.
    rewrite (number_text _ _ _ _ Hw E). by apply (value_text_print (JNum lit)). }
  split.
  - exists c, u. split_and!; [done..|]. subst raw. by_byte c.
  - intros f s Hf _. change s with ("" +:+ s) at 2. eapply parse_extend; [exact E|by right|done].
Qed.

(** ** Codecs *)

(** The text of [x], read over [zero], is [x] again; it is not [null]. *)
Definition codec {A} (text : A → option string) (read : reader A) (zero x : A) : Prop :=
  ∃ t j, text x = Some t ∧ value_text t j ∧ j ≠ JNull ∧ read zero t = Some x.

(** A field of a struct: it is left out when it has its zero value. *)
Definition field_law {A} (value : option (option string)) (read : reader A) (zero x : A) : Prop :=
  ∃ o, value = Some o ∧
    match o with Some t => (∃ j, value_text t j) ∧ read zero t = Some x | None => x = zero end.

Lemma must_law {A} (text : A → option string) read zero name x :
  codec text read zero x → field_law (must name (text x)).2 read zero x.
Proof. intros (t & j & Ht & Hj & _ & Hr). exists (Some t). unfold must. cbn. rewrite Ht. eauto. Qed.

Lemma omit_law {A} (text : A → option string) read zero (empty : bool) name x :
  (empty = true → x = zero) → (empty = false → codec text read zero x) →
  field_law (omit empty name (text x)).2 read zero x.
Proof.
  intros He Hc. unfold omit. cbn [snd]. destruct empty; [exists None; eauto|].
  destruct (Hc eq_refl) as (t & j & Ht & Hj & _ & Hr). exists (Some t). rewrite Ht. eauto.
Qed.

Section codecs.
Context {A : Type} (text : A → option string) (read : reader A) (zero : A).

Lemma pointer_law name (o : option A) : (∀ x, o = Some x → codec text read zero x) →
  field_law (omit_pointer name text o).2 (read_pointer zero read) None o.
Proof.
  intros Hc. unfold omit_pointer, omit. cbn [snd]. destruct o as [x|]; [|exists None; eauto].
  destruct (Hc x eq_refl) as (t & j & Ht & Hj & Hn & Hr). exists (Some t). cbn [pointer_text].
  rewrite Ht. split_and!; [done|by exists j|]. unfold read_pointer.
  rewrite (value_text_parse _ _ Hj). cbn [default]. rewrite Hr. by destruct j.
Qed.

Lemma slice_codec (l : list A) : Forall (codec text read zero) l →
  codec (slice_text text) (read_slice zero read) [] l.
Proof.
  intros Hl. assert (∃ ts js, all_some text l = Some ts ∧ Forall2 value_text ts js ∧
    read_elements zero read [] ts = Some l) as (ts & js & Ht & Hv & Hr).
  { induction Hl as [|x l (t & j & Ht & Hj & _ & Hr) Hl (ts & js & Hts & Hv & Hrs)]; [by exists [], []|].
    exists (t :: ts), (j :: js). cbn. rewrite Ht, Hts. cbn. rewrite Hr. cbn. rewrite Hrs.
    split_and!; [done|by constructor|done]. }
  exists (array_text ts), (JArr js). unfold slice_text. rewrite Ht.
  split_and!; [done|by apply array_value|done|]. unfold read_slice.
  rewrite (value_text_parse _ _ (array_value _ _ Hv)), (array_scanned _ _ Hv). done.
Qed.

Lemma must_slice_law name (l : list A) : Forall (codec text read zero) l →
  field_law (must name (slice_text text l)).2 (read_slice zero read) [] l.
Proof. intros Hl. by apply must_law, slice_codec. Qed.
Lemma nil_slice_law name (l : list A) : Forall (codec text read zero) l →
  field_law (must name (nil_slice_text text l)).2 (read_slice zero read) [] l.
Proof.
  destruct l as [|x l]; [|apply must_slice_law]. intros _. exists (Some "null").
  split_and!; [done| |done]. exists JNull. apply (value_text_print JNull). constructor.
Qed.
Lemma slice_law name (l : list A) : Forall (codec text read zero) l →
  field_law (omit_slice name text l).2 (read_slice zero read) [] l.
Proof.
  intros Hl. apply omit_law; [by destruct l|]. intros _. by apply slice_codec.
Qed.
End codecs.

(** *** Basic values *)

Lemma read_basic_codec {A} (text : A → option string) (dec : json → option A) zero x j :
  text x = Some (print j) → wf_json j → j ≠ JNull → dec j = Some x →
  codec text (read_basic dec) zero x.
Proof.
  intros Ht Hj Hn Hd. exists (print j), j. split_and!; [done|by apply value_text_print|done|].
  unfold read_basic. rewrite parse_print by done. by destruct j.
Qed.

Lemma string_codec zero s : valid_utf8 s = true → codec string_text read_string zero s.
Proof. intros Hs. by apply (read_basic_codec _ _ _ _ (JStr s)); [|constructor|..]. Qed.

Lemma bool_codec zero b : codec bool_text read_bool zero b.
Proof. apply (read_basic_codec _ _ _ _ (JBool b)); [by destruct b|constructor|done..]. Qed.

Definition int_range (n : Z) : Prop := (- two63 <= n < two63)%Z.
#[export] Instance int_range_dec n : Decision (int_range n).
Proof. unfold int_range. apply _. Defined.

Lemma parse_digits_FormatUint n : (0 <= n)%Z → parse_digits (FormatUint n) = Some n.
Proof.
  intros Hn. unfold parse_digits, FormatUint. rewrite NilZero.usu by apply N_to_uint_nonnil.
  cbn. by rewrite DecimalN.Unsigned.of_to, Z2N.id by lia.
Qed.

Lemma FormatUint_head n : ∃ c s, FormatUint n = String c s ∧ is_digit c = true.
Proof.
  unfold FormatUint. pose proof (N_to_uint_nonnil (Z.to_N n)) as Hn.
  destruct (N.to_uint (Z.to_N n)); [done|..]; by eexists _, _.
Qed.

Lemma wf_FormatInt n : wf_json (JNum (FormatInt n)).
Proof.
  unfold FormatInt. destruct (n <? 0)%Z; [|apply wf_FormatUint].
  pose proof (wf_FormatUint (- n)) as Hw. destruct (FormatUint_head (- n)) as (c & s & E & Hc).
  rewrite E in *. inversion Hw as [| |? ? Hv _ Hl| | |]; subst.
  rewrite string_app_cons, string_app_nil_l. apply wf_num; [|done|].
  - unfold valid_number in *. change (byte_is 45 "-") with true. cbv iota.
    assert (byte_is 45 c = false) as Hm; [|by rewrite Hm in Hv]. by_byte c.
  - cbn [bytes_of forallb]. rewrite Hl, andb_true_r. unfold number_char. by rewrite Hc.
Qed.

Lemma ParseInt_FormatInt n : int_range n → ParseInt (FormatInt n) = Some n.
Proof.
  intros Hn. unfold int_range in Hn. unfold FormatInt. destruct (Z.ltb_spec n 0).
  - rewrite string_app_cons, string_app_nil_l. unfold ParseInt.
    rewrite parse_digits_FormatUint by lia. cbn [mbind option_bind].
    destruct (Z.leb_spec (- n) two63); [by rewrite Z.opp_involutive|lia].
  - assert (ParseInt (FormatUint n) = (m ← parse_digits (FormatUint n);
      if (m <? two63)%Z then Some m else None)) as ->.
    { destruct (FormatUint_head n) as (c & s & -> & Hc). by_byte c. }
    rewrite parse_digits_FormatUint by lia. cbn [mbind option_bind].
    by destruct (Z.ltb_spec n two63); [|lia].
Qed.

Lemma int_codec zero n : int_range n → codec int_text read_int zero n.
Proof.
  intros Hn. apply (read_basic_codec _ _ _ _ (JNum (FormatInt n))); [done|apply wf_FormatInt|done|].
  by apply ParseInt_FormatInt.
Qed.

(** A double that is read back from what is written for it. *)
Definition float_kept (x : spec_float) : Prop :=
  match FormatFloat x with
  | Some t => ParseFloat t = Some x ∧ parse t = Some (JNum t)
  | None => False
  end.

Lemma float_codec zero x : float_kept x → codec FormatFloat read_float zero x.
Proof.
  unfold float_kept. destruct (FormatFloat x) as [t|] eqn:E; [|done]. intros [Hp Hj].
  by apply (read_basic_codec _ _ _ _ (JNum t)); [|eapply parse_wf|..].
Qed.

Definition string_codec_empty := string_codec "".
Definition bool_codec_false := bool_codec false.
Definition int_codec_zero := int_codec 0.
Definition float_codec_zero := float_codec (S754_zero false).

(** *** Fields of basic type *)

Lemma omit_string_law name s : valid_utf8 s = true →
  field_law (omit_string name s).2 read_string "" s.
Proof.
  intros Hs. apply omit_law; [apply bool_decide_eq_true|]. intros _. by apply string_codec.
Qed.
Lemma omit_bool_law name b : field_law (omit_bool name b).2 read_bool false b.
Proof. apply omit_law; [by destruct b|]. intros _. apply bool_codec. Qed.
Lemma omit_int_law name n : int_range n → field_law (omit_int name n).2 read_int 0%Z n.
Proof. intros Hn. apply omit_law; [apply Z.eqb_eq|]. intros _. by apply int_codec. Qed.

Lemma must_raw_law name raw : compacted raw → field_law (must name (raw_text raw)).2 read_raw "" raw.
Proof.
  intros Hr. exists (Some raw). destruct (compacted_value _ Hr) as [j Hj].
  destruct Hr as (Hc & _ & c & u & -> & _). unfold must, raw_text. cbn [snd].
  rewrite bool_decide_eq_false_2, Hc by done. split_and!; [done|by exists j|done].
Qed.
Lemma omit_raw_law name raw : raw = "" ∨ compacted raw →
  field_law (omit_raw name raw).2 read_raw "" raw.
Proof.
  intros Hr. unfold omit_raw, omit. cbn [snd]. case_bool_decide as E; [by exists None|].
  destruct Hr as [Hr|Hr]; [done|]. apply (must_raw_law name raw Hr).
Qed.

(** ** Structs *)

(** Names that are distinct ignoring case. *)
Definition field_names (names : list string) : bool :=
  forallb (λ n, bool_decide (List.filter (λ k, EqualFold k n) names = [n])) names.

Lemma read_field_none {A} (read : reader A) n acc m :
  List.filter (λ k, EqualFold k n) (map fst m) = [] →
  foldl (λ acc kv, if EqualFold kv.1 n then x ← acc; read x kv.2 else acc) acc m = acc.
Proof.
  revert acc. induction m as [|[k t] m IH]; intros acc Hm; [done|].
  cbn [map fst List.filter] in Hm. cbn [foldl fst]. destruct (EqualFold k n); [done|]. by apply IH.
Qed.

Lemma member_texts_cons k v l m : member_texts ((k, v) :: l) = Some m →
  ∃ o m', v = Some o ∧ member_texts l = Some m' ∧
    m = match o with Some t => (k, t) :: m' | None => m' end.
Proof.
  cbn [member_texts]. destruct v as [[t|]|]; [|by intros ?; exists None, m|done].
  destruct (member_texts l) as [m'|]; [|done]. intros [= <-]. by exists (Some t), m'.
Qed.

Lemma member_texts_absent l m n : member_texts l = Some m →
  List.filter (λ k, EqualFold k n) (map fst l) = [] →
  List.filter (λ k, EqualFold k n) (map fst m) = [].
Proof.
  revert m. induction l as [|[k v] l IH]; intros m Hm; [by injection Hm as <-|].
  apply member_texts_cons in Hm as (o & m' & -> & Hm & ->). cbn [map fst List.filter].
  destruct (EqualFold k n) eqn:E; [done|]. intros Hl. specialize (IH _ Hm Hl).
  destruct o; [|done]. cbn [map fst List.filter]. by rewrite E.
Qed.

Lemma read_field_law {A} (read : reader A) (zero x : A) f l m :
  field_names (map fst l) = true → member_texts l = Some m → f ∈ l → field_law f.2 read zero x →
  read_field read f.1 zero m = Some x.
Proof.
  intros Hn Hm Hf (o & Ho & Hlaw). unfold read_field. destruct f as [n v]. cbn [fst snd] in *. subst v.
  assert (List.filter (λ k, EqualFold k n) (map fst l) = [n]) as Hu.
  { unfold field_names in Hn. rewrite forallb_forall in Hn.
    assert (In n (map fst l)) as Hi by (apply List.in_map_iff; exists (n, Some o);
      split; [done|by apply list_elem_of_In]).
    apply Hn in Hi. by apply bool_decide_eq_true in Hi. }
  clear Hn. remember (n, Some o) as f eqn:Ef. revert m Hm. induction Hf as [f l|f [k v] l Hf IH]; intros m Hm.
  - subst f. apply member_texts_cons in Hm as (o' & m' & [= <-] & Hm & ->). cbn [map fst List.filter] in Hu.
    destruct (EqualFold n n) eqn:E.
    + injection Hu as Hu. pose proof (member_texts_absent _ _ _ Hm Hu) as Ha.
      destruct o as [t|]; [|by rewrite read_field_none by done; rewrite Hlaw].
      cbn [foldl fst snd]. rewrite E, read_field_none by done. by destruct Hlaw.
    + unfold EqualFold in E. by apply bool_decide_eq_false in E.
  - apply member_texts_cons in Hm as (o' & m' & -> & Hm & ->). cbn [map fst List.filter] in Hu.
    destruct (EqualFold k n) eqn:E.
    + exfalso. injection Hu as -> Hu. assert (n ∈ List.filter (λ k, EqualFold k n) (map fst l)) as Hi.
      { apply list_elem_of_In, List.filter_In. split; [|by apply bool_decide_eq_true].
        apply List.in_map_iff. exists f. subst f. split; [done|by apply list_elem_of_In]. }
      rewrite Hu in Hi. by inversion Hi.
    + destruct o' as [t|]; [|by apply IH]. cbn [foldl fst snd]. rewrite E. by apply IH.
Qed.

(** What a field writes is the text of a value, or nothing. *)
Definition well_written (f : written) : Prop :=
  ∃ o, f.2 = Some o ∧ ∀ t, o = Some t → ∃ j, value_text t j.
Lemma law_written {A} (read : reader A) zero x f : field_law f.2 read zero x → well_written f.
Proof.
  intros (o & Ho & Hl). exists o. split; [done|]. intros t ->. by destruct Hl.
Qed.

Lemma members_written l : Forall well_written l → forallb valid_utf8 (map fst l) = true →
  ∃ m ms, member_texts l = Some m ∧ Forall2 member_value m ms ∧ Forall (λ kv, kv.1 ∈ map fst l) m.
Proof.
  induction 1 as [|[k v] l (o & Hv & Ht) Hl IH]; [by exists [], []|].
  cbn [map fst forallb] in *. intros [Hk Hks]%andb_true_iff.
  destruct (IH Hks) as (m & ms & Hm & Hms & Hin). cbn [snd] in Hv. subst v.
  assert (Forall (λ kv : string * string, kv.1 ∈ k :: map fst l) m) as Hin'.
  { eapply list.Forall_impl; [exact Hin|]. intros kv Hkv. by right. }
  destruct o as [t|]; [|by exists m, ms].
  destruct (Ht t eq_refl) as [j Hj]. exists ((k, t) :: m), ((k, j) :: ms). cbn [member_texts].
  rewrite Hm. split_and!; [done|by constructor|constructor; [by left|done]].
Qed.

Lemma struct_codec {A} (l : list written) strict names dec (zero x : A) :
  Forall well_written l → forallb valid_utf8 (map fst l) = true →
  forallb (λ k, existsb (EqualFold k) names) (map fst l) = true →
  (∀ m, member_texts l = Some m → dec zero m = Some x) →
  codec (λ _, struct_text l) (read_struct strict names dec) zero x.
Proof.
  intros Hl Hu Hn Hd. destruct (members_written l Hl Hu) as (m & ms & Hm & Hms & Hin).
  exists (object_text m), (JObj ms). unfold struct_text. rewrite Hm.
  pose proof (object_value _ _ Hms) as Hv. split_and!; [done..|]. unfold read_struct.
  rewrite (value_text_parse _ _ Hv), (object_scanned _ _ Hms). cbn [mbind option_bind].
  replace (forallb _ m) with true; [rewrite andb_false_r; by apply Hd|]. symmetry.
  apply forallb_forall. intros kv Hkv%list_elem_of_In. rewrite list.Forall_forall in Hin.
  apply Hin in Hkv. rewrite forallb_forall in Hn. by apply Hn, list_elem_of_In.
Qed.

Lemma bind_read {A B} (o : option A) (k : A → option B) a b : o = Some a → k a = Some b → o ≫= k = Some b.
Proof. by intros ->. Qed.

(** ** Automation *)

Create HintDb wire.
#[export] Hint Resolve must_law omit_string_law omit_bool_law omit_int_law must_raw_law omit_raw_law
  pointer_law must_slice_law nil_slice_law slice_law string_codec_empty bool_codec_false int_codec_zero float_codec_zero : wire.

(** The field named [n] among the written ones. *)
Ltac find_written n l :=
  match l with
  | ?e :: _ => let k := eval lazy in (fst e) in
               let _ := match goal with _ => constr_eq k n end in e
  | _ :: ?l' => find_written n l'
  end.
Ltac by_membership := solve [repeat first [apply list_elem_of_here|apply list_elem_of_further]].
(** Every field is well written, by its law. *)
Ltac all_written := repeat (apply List.Forall_cons || apply list.Forall_cons_2); try apply list.Forall_nil_2;
  try (eapply law_written; solve [eauto with wire]).
(** Read the next field of a struct written as [l]. *)
Ltac read_next l :=
  lazymatch goal with
  | Hm : member_texts _ = Some ?m |- read_field ?r ?n _ ?m ≫= _ = Some _ =>
      let e := find_written n l in
      eapply bind_read;
        [apply (read_field_law r _ _ e l m); [reflexivity|exact Hm|by_membership|cbn [snd]; solve [eauto with wire]]
        |cbv beta]
  end.
(** A struct whose text is [f x], from the laws of its fields. *)
Ltac head_of f := lazymatch f with ?g _ => head_of g | _ => f end.
Ltac by_fields :=
  lazymatch goal with
  | |- codec ?f ?r ?z ?x =>
      let h := head_of f in
      let t := match goal with
               | _ => let t := eval cbn [h] in (f x) in lazymatch t with struct_text _ => t end
               | _ => eval cbv beta iota delta [h] in (f x)
               end in
      lazymatch t with
      | struct_text ?l =>
          change (codec (λ _, struct_text l) r z x);
          apply struct_codec; [all_written|reflexivity|reflexivity|];
          let m := fresh "m" in let Hm := fresh "Hm" in
          intros m Hm; repeat read_next l; reflexivity
      end
  end.

(** ** Lengths *)

Lemma join_length (l : list string) x : x ∈ l → (String.length x <= String.length (join "," l))%nat.
Proof.
  induction l as [|y l IH]; intros Hx; [by inversion Hx|].
  destruct l as [|z l]; [inversion Hx as [|? ? ? Hx']; subst; [done|by inversion Hx']|].
  change (join "," (y :: z :: l)) with (y +:+ "," +:+ join "," (z :: l)).
  rewrite !string_length_app. inversion Hx as [|? ? ? Hx']; subst; [lia|]. apply IH in Hx'. lia.
Qed.

Lemma struct_length l t f u : struct_text l = Some t → f ∈ l → f.2 = Some (Some u) →
  (String.length u < String.length t)%nat.
Proof.
  unfold struct_text. destruct (member_texts l) as [m|] eqn:Hm; [|done]. intros [= <-] Hf Hu.
  assert ((f.1, u) ∈ m) as Hin.
  { revert m Hm. induction Hf as [f l|f [k v] l Hf IH]; intros m Hm.
    - destruct f as [k v]. cbn [snd] in Hu. subst v.
      apply member_texts_cons in Hm as (o & m' & [= <-] & _ & ->). apply list_elem_of_here.
    - apply member_texts_cons in Hm as (o & m' & _ & Hm & ->). specialize (IH Hu _ Hm).
      destruct o; [by apply list_elem_of_further|done]. }
  apply (list_elem_of_fmap_2 text_member) in Hin. apply join_length in Hin.
  pose proof (text_member_length f.1 u). unfold object_text. rewrite !string_length_app.
  change (map text_member m) with (text_member <$> m). cbn [String.length]. lia.
Qed.

Lemma slice_length {A} (text : A → option string) l t x : slice_text text l = Some t → x ∈ l →
  ∃ u, text x = Some u ∧ (String.length u < String.length t)%nat.
Proof.
  unfold slice_text. destruct (all_some text l) as [us|] eqn:Hus; [|done]. intros [= <-] Hx.
  assert (∃ u, text x = Some u ∧ u ∈ us) as (u & Hu & Hin).
  { revert us Hus. induction Hx as [x l|x y l Hx IH]; intros us; cbn [all_some].
    - destruct (text x) as [u|]; [|done]. cbn. destruct (all_some text l); [|done]. intros [= <-].
      exists u. split; [done|apply list_elem_of_here].
    - destruct (text y); [|done]. cbn. destruct (all_some text l) as [us'|]; [|done]. intros [= <-].
      destruct (IH _ eq_refl) as (u & ? & ?). exists u. split; [done|by apply list_elem_of_further]. }
  exists u. split; [done|]. apply join_length in Hin. unfold array_text.
  rewrite !string_length_app. cbn [String.length]. lia.
Qed.

(** ** Maps *)

Lemma map_law {A} (text : A → option string) (dec : json → option A) (js : A → json) name
    (m : list (string * A)) :
  as_map m = m →
  Forall (λ kv, valid_utf8 kv.1 = true ∧ wf_json (js kv.2) ∧ text kv.2 = Some (print (js kv.2)) ∧
                dec (js kv.2) = Some kv.2) m →
  field_law (omit (if m is [] then true else false) name (map_text text m)).2 (read_map dec) [] m.
Proof.
  intros Hm Hl. apply omit_law; [by destruct m|]. intros _.
  assert (∃ ts, all_some (λ kv, pair kv.1 <$> text kv.2) m = Some ts ∧
    Forall2 member_value ts ((λ kv, (kv.1, js kv.2)) <$> m) ∧
    all_some (λ kv : string * json, pair kv.1 <$> dec kv.2) ((λ kv, (kv.1, js kv.2)) <$> m) = Some m)
    as (ts & Ht & Hv & Hd).
  { clear Hm. induction Hl as [|[k x] l (Hk & Hj & Ht & Hd) Hl (ts & Hts & Hv & Hds)]; [by exists []|].
    cbn [fst snd] in *. exists ((k, print (js x)) :: ts). cbn. rewrite Ht, Hts. cbn. rewrite Hd. cbn.
    cbn in Hds. rewrite Hds. split_and!; [done| |done]. constructor; [|done].
    split_and!; [done|done|by apply value_text_print]. }
  pose proof (object_value _ _ Hv) as Ho. eexists _, _. unfold map_text. rewrite Ht.
  split_and!; [done|exact Ho|done|]. unfold read_map. rewrite (value_text_parse _ _ Ho), Hd.
  cbn [mbind option_bind app]. by rewrite Hm.
Qed.
