(* ===== verification/KeyService.v ===== *)
(** * The virtual-key control plane ([virtual_key_service.go])

    Key generation and hashing, input normalisation and the operations of
    [VirtualKeyService] on keys and on the projected subjects. *)

From stdpp Require Import sorting.
From S2P Require Import Prelude GoStd Json GoText GoTime Errors State Model Repository.
From S2P Require Import ModelRepository KeyRepository ETag Svc Service.

Record VirtualKeyInput := {
  VI_Name : string; VI_UserID : string; VI_ModelIDs : list string; VI_Status : Status;
  VI_ExpiresAt : option Time
}.

Definition hashKey (key : string) : string := sha256_hex key.

Definition generateKey : prog string :=
  random ← wrap_err (λ e, Errorf "generate virtual key: %w" [AWrap e]) (rand_read 32);
  mret ("gwai_" +:+ RawURLEncode random).

(** [VirtualKeyService]: its repository is a state domain. *)
Section service.
Context (keys : domain).

Definition user_id_error (message : string) : error := ValidationError "user_id" message [].
Definition model_ids_error (message : string) (args : list farg) : error :=
  ValidationError "model_ids" message args.

(** The loop over [input.ModelIDs]: [normalized] lists the ids kept so far,
    [seen] is the set of its members. *)
Fixpoint normalize_models (status : Status) (values normalized : list string)
    : svc (list string) :=
  match values with
  | [] => mret normalized
  | value :: values' =>
      let modelID := TrimSpace value in
      _ ← ensure (refuse (bool_decide (modelID = ""))
            (model_ids_error "must not contain empty IDs" []));
      if bool_decide (modelID ∈ normalized) then normalize_models status values' normalized else
      svc_bind_result (call (GetModelSubject keys modelID)) (λ r,
        match r with
        | inl err =>
            if errors_Is err NotFound then
              reject (model_ids_error "model ID %q does not exist" [AStr modelID])
            else reject err
        | inr model =>
            if MS_Deleted model then
              reject (model_ids_error "model ID %q does not exist" [AStr modelID])
            else if bool_decide (status = StatusActive) &&
                    negb (bool_decide (MS_Status model = StatusActive)) then
              reject (model_ids_error "model ID %q is disabled" [AStr modelID])
            else normalize_models status values' (normalized ++ [modelID])
        end)
  end.

(** [!ExpiresAt.After(s.now())], with the clock read only for a non-nil time. *)
Definition expired (expires : option Time) : svc bool :=
  match expires with
  | None => mret false
  | Some t => now ← call now; mret (negb (After t now))
  end.

Definition normalizeInput (input : VirtualKeyInput) : svc VirtualKeyInput :=
  let name := TrimSpace (VI_Name input) in
  let user_id := TrimSpace (VI_UserID input) in
  let status := normalizeStatus (VI_Status input) in
  _ ← ensure (validateName name);
  subject ← svc_bind_result (call (GetSubject keys user_id)) (λ r,
    match r with
    | inl err =>
        if errors_Is err NotFound then
          reject (user_id_error "does not reference an existing user")
        else reject err
    | inr subject =>
        if KS_Deleted subject then reject (user_id_error "does not reference an existing user")
        else mret subject
    end);
  _ ← ensure (refuse (negb (bool_decide (KS_Status subject = StatusActive)) &&
                      bool_decide (status = StatusActive))
        (user_id_error "references a disabled user"));
  _ ← ensure (validateStatus status);
  past ← expired (VI_ExpiresAt input);
  _ ← ensure (refuse ((past : bool) && bool_decide (status = StatusActive))
        (ValidationError "expires_at" "must be in the future for an active key" []));
  normalized ← normalize_models status (VI_ModelIDs input) [];
  _ ← ensure (refuse (bool_decide (normalized = []))
        (model_ids_error "must contain at least one model ID" []));
  mret {| VI_Name := name; VI_UserID := user_id;
          VI_ModelIDs := merge_sort String.le normalized; VI_Status := status;
          VI_ExpiresAt := VI_ExpiresAt input |}.

Definition new_key (id secret : string) (input : VirtualKeyInput) (now : Time) : VirtualKey := {|
  Key_ID := id; Key_Name := VI_Name input; Key_UserID := VI_UserID input;
  Key_Prefix := String.substring 0 13 secret; Key_KeyHash := hashKey secret;
  Key_ModelIDs := VI_ModelIDs input; Key_Status := VI_Status input;
  Key_ExpiresAt := VI_ExpiresAt input; Key_CreatedAt := now; Key_UpdatedAt := now
|}.

Definition CreateVirtualKey (input : VirtualKeyInput) : svc CreatedVirtualKey :=
  input ← normalizeInput input;
  secret ← call generateKey;
  id ← call (NewID "key");
  now ← call now;
  let key := new_key id secret input now in
  _ ← call (KeyRepository.CreateVirtualKey keys key);
  mret {| Created_VirtualKey := Public key; Created_Key := secret |}.

Definition GetVirtualKey (id : string) : svc PublicVirtualKey :=
  key ← call (KeyRepository.GetVirtualKey keys id);
  mret (Public key).
Definition ListVirtualKeys : svc (list PublicVirtualKey) :=
  l ← call (KeyRepository.ListVirtualKeys keys);
  mret (map Public l).

Definition updated_key (current : VirtualKey) (input : VirtualKeyInput) (now : Time)
    : VirtualKey := {|
  Key_ID := Key_ID current; Key_Name := VI_Name input; Key_UserID := VI_UserID input;
  Key_Prefix := Key_Prefix current; Key_KeyHash := Key_KeyHash current;
  Key_ModelIDs := VI_ModelIDs input; Key_Status := VI_Status input;
  Key_ExpiresAt := VI_ExpiresAt input; Key_CreatedAt := Key_CreatedAt current;
  Key_UpdatedAt := now
|}.

Definition updateVirtualKey (id : string) (input : VirtualKeyInput)
    (precondition : ifMatchPrecondition) : svc PublicVirtualKey :=
  old ← call (KeyRepository.GetVirtualKey keys id);
  _ ← ensure (enforceIfMatch precondition (Public old));
  input ← normalizeInput input;
  now ← call now;
  let current := updated_key old input now in
  _ ← call (KeyRepository.ReplaceVirtualKey keys old current);
  mret (Public current).

Definition UpdateVirtualKey (id : string) (input : VirtualKeyInput) : svc PublicVirtualKey :=
  updateVirtualKey id input no_precondition.
Definition UpdateVirtualKeyIfMatch (id : string) (input : VirtualKeyInput) (ifMatch : string)
    : svc PublicVirtualKey := updateVirtualKey id input (optionalIfMatch ifMatch).

Definition deleteVirtualKey (id : string) (precondition : ifMatchPrecondition) : svc unit :=
  key ← call (KeyRepository.GetVirtualKey keys id);
  _ ← ensure (enforceIfMatch precondition (Public key));
  call (KeyRepository.DeleteVirtualKey keys key).

Definition DeleteVirtualKey (id : string) : svc unit := deleteVirtualKey id no_precondition.
Definition DeleteVirtualKeyIfMatch (id ifMatch : string) : svc unit :=
  deleteVirtualKey id (optionalIfMatch ifMatch).

(** *** Subjects: each a single repository call *)

Definition SyncSubject (subject : KeySubject) : prog unit := KeyRepository.SyncSubject keys subject.
Definition FenceSubject (subject : KeySubject) : prog unit :=
  if negb (KS_Deleted subject) then
    fail (ValidationError "deleted" "must be true when fencing a subject" [])
  else KeyRepository.FenceSubject keys subject.
Definition SyncModel (subject : ModelSubject) : prog unit := SyncModelSubject keys subject.
Definition FenceModel (subject : ModelSubject) : prog unit :=
  if negb (MS_Deleted subject) then
    fail (ValidationError "deleted" "must be true when fencing a model subject" [])
  else FenceModelSubject keys subject.
End service.
