(* ===== verification/Http.v ===== *)
(** * The control planes over HTTP ([controlplane/http.go], [model_http.go],
      [virtual_key_http.go])

    The handlers of the two control planes, the guards in front of them, the
    status of each error and the routes. *)

From S2P Require Import Prelude GoStd Json GoText GoTime Errors GoFmt State Model Repository.
From S2P Require Import KeyRepository ETag Svc Service KeyService Platform.

(** ** Bodies *)

Definition decode_UserInput : json → option UserInput :=
  strict_fields ["name"; "email"; "status"] (λ j,
    m ← members j;
    name ← string_field "name" m; email ← string_field "email" m;
    status ← string_field "status" m;
    Some {| UI_Name := name; UI_Email := email; UI_Status := status |}).

Definition decode_ProviderInput : json → option ProviderInput :=
  strict_fields ["slug"; "name"; "kind"; "adapter_app_id"; "status"] (λ j,
    m ← members j;
    slug ← string_field "slug" m; name ← string_field "name" m; kind ← string_field "kind" m;
    app ← string_field "adapter_app_id" m; status ← string_field "status" m;
    Some {| PI_Slug := slug; PI_Name := name; PI_Kind := kind; PI_AdapterAppID := app;
            PI_Status := status |}).

Definition decode_ModelInput : json → option ModelInput :=
  strict_fields ["alias"; "provider_id"; "upstream_model"; "status"] (λ j,
    m ← members j;
    alias ← string_field "alias" m; provider ← string_field "provider_id" m;
    upstream ← string_field "upstream_model" m; status ← string_field "status" m;
    Some {| MI_Alias := alias; MI_ProviderID := provider; MI_UpstreamModel := upstream;
            MI_Status := status |}).

Definition decode_VirtualKeyInput : json → option VirtualKeyInput :=
  strict_fields ["name"; "user_id"; "model_ids"; "status"; "expires_at"] (λ j,
    m ← members j;
    name ← string_field "name" m; user ← string_field "user_id" m;
    models ← strings_field "model_ids" m; status ← string_field "status" m;
    expires ← last_pointer dec_time None (field_values "expires_at" m);
    Some {| VI_Name := name; VI_UserID := user; VI_ModelIDs := models; VI_Status := status;
            VI_ExpiresAt := expires |}).

Definition decode_KeySubject : json → option KeySubject :=
  strict_fields ["user_id"; "status"; "revision"; "deleted"; "updated_at"] of_json.
Definition decode_ModelSubject : json → option ModelSubject :=
  strict_fields ["model_id"; "alias"; "status"; "revision"; "deleted"; "updated_at"] of_json.

Definition created_key_json (key : CreatedVirtualKey) : option json :=
  public ← to_json (Created_VirtualKey key);
  Some (JObj [("virtual_key", public); ("key", JStr (Created_Key key))]).

Fixpoint all_json {T} `{Codec T} (l : list T) : option (list json) :=
  match l with
  | [] => Some []
  | x :: l' => j ← to_json x; js ← all_json l'; Some (j :: js)
  end.
Definition data_json {T} `{Codec T} (l : list T) : option json :=
  js ← all_json l; Some (JObj [("data", JArr js)]).

(** ** [adminHTTP] *)

Record adminHTTP := { adminToken : string; maxBody : Z }.

Definition authorization : string := "Authorization".
Definition challenge : string :=
  "Bearer realm=" +:+ String dquote "gwai-control-plane" +:+ String dquote "".

Definition unauthorized (requestID : string) : http_response :=
  with_header "Www-Authenticate" challenge
    (WriteProblem requestID 401 "Unauthorized" "a valid control-plane admin token is required").

Definition admin (h : adminHTTP) (next : handler) : handler := λ requestID r,
  match BearerToken (header_get authorization (Header r)) with
  | Some token =>
      if SecureEqual token (adminToken h) then next requestID r else mret (unauthorized requestID)
  | None => mret (unauthorized requestID)
  end.

Definition health : handler := λ _ _, mret (JSON 200 (Some (JObj [("status", JStr "ok")]))).

Definition writeError (requestID : string) (err : error) : http_response :=
  let problem := WriteProblem requestID in
  match errors_As as_validation err with
  | Some (field, message, args) =>
      problem 400 "Invalid request" (Error (ValidationError field message args))
  | None =>
      if errors_Is err NotFound then problem 404 "Not found" "the requested resource does not exist"
      else if errors_Is err Conflict then problem 409 "Conflict" (Error err)
      else if errors_Is err Unauthorized then problem 401 "Unauthorized" "authentication failed"
      else if errors_Is err Forbidden then
        problem 403 "Forbidden" "access to the requested resource is denied"
      else if errors_Is err Unavailable then
        problem 503 "Service Unavailable" "a required control-plane dependency is unavailable"
      else
        problem 500 "Internal Server Error" "the control plane could not process the request"
  end%Z.

Definition writeEntity {T} `{Codec T} (requestID : string) (status : Z) (etagValue : T)
    (response : option json) : http_response :=
  match entityETag etagValue with
  | inl err => writeError requestID err
  | inr etag => with_header "Etag" etag (JSON status response)
  end.

Definition requestIfMatch (r : http_request) : ifMatchPrecondition :=
  let values := header_values "If-Match" (Header r) in
  {| im_present := negb (bool_decide (values = [])); im_value := join "," values |}.

(** [if !h.decode(...) { return }]. *)
Definition decode {A} (h : adminHTTP) (requestID : string) (dec : json → option A) (r : http_request)
    (next : A → svc http_response) : svc http_response :=
  match DecodeJSON dec (Body r) (maxBody h) with
  | inl err => mret (WriteProblem requestID 400 "Invalid request" (Error err))
  | inr input => next input
  end.

(** [x, err := op; if err != nil { h.writeError; return }; ...]. *)
Definition respond {A} (requestID : string) (op : svc A) (ok : A → http_response)
    : svc http_response :=
  svc_bind_result op (λ result,
    mret match result with inl err => writeError requestID err | inr a => ok a end).

Definition created {T} `{Codec T} (requestID : string) (x : T) : http_response :=
  writeEntity requestID 201 x (to_json x).
Definition entity {T} `{Codec T} (requestID : string) (x : T) : http_response :=
  writeEntity requestID 200 x (to_json x).
Definition listed {T} `{Codec T} (l : list T) : http_response := JSON 200 (data_json l).
Definition deleted (_ : unit) : http_response := no_body 204.

(** ** The resource control plane *)

Section resources.
Context (h : adminHTTP) (service : ResourceService).

Definition createUser : handler := λ id r, decode h id decode_UserInput r (λ input,
  respond id (CreateUser service input) (created id)).
Definition listUsers : handler := λ id _, respond id (ListUsers service) listed.
Definition getUser (user : string) : handler := λ id _,
  respond id (GetUser service user) (entity id).
Definition updateUser (user : string) : handler := λ id r, decode h id decode_UserInput r (λ input,
  respond id (Service.updateUser service user input (requestIfMatch r)) (entity id)).
Definition deleteUser (user : string) : handler := λ id r,
  respond id (Service.deleteUser service user (requestIfMatch r)) deleted.

Definition createProvider : handler := λ id r, decode h id decode_ProviderInput r (λ input,
  respond id (CreateProvider service input) (created id)).
Definition listProviders : handler := λ id _, respond id (ListProviders service) listed.
Definition getProvider (provider : string) : handler := λ id _,
  respond id (GetProvider service provider) (entity id).
Definition updateProvider (provider : string) : handler := λ id r,
  decode h id decode_ProviderInput r (λ input,
    respond id (Service.updateProvider service provider input (requestIfMatch r)) (entity id)).
Definition deleteProvider (provider : string) : handler := λ id r,
  respond id (Service.deleteProvider service provider (requestIfMatch r)) deleted.

Definition createModel : handler := λ id r, decode h id decode_ModelInput r (λ input,
  respond id (CreateModel service input) (created id)).
Definition listModels : handler := λ id _, respond id (ListModels service) listed.
Definition getModel (model : string) : handler := λ id _,
  respond id (GetModel service model) (entity id).
Definition updateModel (model : string) : handler := λ id r, decode h id decode_ModelInput r (λ input,
  respond id (Service.updateModel service model input (requestIfMatch r)) (entity id)).
Definition deleteModel (model : string) : handler := λ id r,
  respond id (Service.deleteModel service model (requestIfMatch r)) deleted.
End resources.

Definition path (segments : list string) : list (option string) := map Some segments.
Definition path_id (segments : list string) : list (option string) := path segments ++ [None].

Definition health_routes : list route :=
  [{| rt_method := "GET"; rt_pattern := path ["livez"]; rt_handler := λ _, health |};
   {| rt_method := "GET"; rt_pattern := path ["readyz"]; rt_handler := λ _, health |}].

(** The five routes of a collection. *)
Definition collection_routes (h : adminHTTP) (name : string) (create list_all : handler)
    (get update delete : string → handler) : list route :=
  [{| rt_method := "POST"; rt_pattern := path ["v1"; name]; rt_handler := λ _, admin h create |};
   {| rt_method := "GET"; rt_pattern := path ["v1"; name]; rt_handler := λ _, admin h list_all |};
   {| rt_method := "GET"; rt_pattern := path_id ["v1"; name]; rt_handler := λ id, admin h (get id) |};
   {| rt_method := "PUT"; rt_pattern := path_id ["v1"; name]; rt_handler := λ id, admin h (update id) |};
   {| rt_method := "DELETE"; rt_pattern := path_id ["v1"; name];
      rt_handler := λ id, admin h (delete id) |}].

Definition resource_routes (h : adminHTTP) (s : ResourceService) : list route :=
  health_routes ++
  collection_routes h "users" (createUser h s) (listUsers s) (getUser s) (updateUser h s)
    (deleteUser s) ++
  collection_routes h "providers" (createProvider h s) (listProviders s) (getProvider s)
    (updateProvider h s) (deleteProvider s) ++
  collection_routes h "models" (createModel h s) (listModels s) (getModel s) (updateModel h s)
    (deleteModel s).

Definition NewResourceHTTPHandler (service : ResourceService) (h : adminHTTP)
    : http_request → svc http_response := HTTPMiddleware (ServeMux (resource_routes h service)).

(** ** The virtual-key control plane *)

Section keys.
Context (h : adminHTTP) (service : domain) (appToken : string).

Definition internal (next : handler) : handler := λ requestID r,
  if bool_decide (appToken = "") ||
     negb (SecureEqual (header_get "Dapr-Api-Token" (Header r)) appToken) then
    mret (WriteProblem requestID 401 "Unauthorized"
            "the endpoint is only available through the authenticated Dapr sidecar")
  else next requestID r.

(** The creation envelope holds the secret; its tag is that of the key. *)
Definition createVirtualKey : handler := λ id r, decode h id decode_VirtualKeyInput r (λ input,
  respond id (CreateVirtualKey service input) (λ key,
    writeEntity id 201 (Created_VirtualKey key) (created_key_json key))).
Definition listVirtualKeys : handler := λ id _, respond id (ListVirtualKeys service) listed.
Definition getVirtualKey (key : string) : handler := λ id _,
  respond id (KeyService.GetVirtualKey service key) (entity id).
Definition updateVirtualKey (key : string) : handler := λ id r,
  decode h id decode_VirtualKeyInput r (λ input,
    respond id (KeyService.updateVirtualKey service key input (requestIfMatch r)) (entity id)).
Definition deleteVirtualKey (key : string) : handler := λ id r,
  respond id (KeyService.deleteVirtualKey service key (requestIfMatch r)) deleted.

Definition syncSubject : handler := λ id r, decode h id decode_KeySubject r (λ subject,
  respond id (call (KeyService.SyncSubject service subject)) deleted).
Definition fenceSubject : handler := λ id r, decode h id decode_KeySubject r (λ subject,
  respond id (call (KeyService.FenceSubject service subject)) deleted).
Definition syncModelSubject : handler := λ id r, decode h id decode_ModelSubject r (λ subject,
  respond id (call (KeyService.SyncModel service subject)) deleted).
Definition fenceModelSubject : handler := λ id r, decode h id decode_ModelSubject r (λ subject,
  respond id (call (KeyService.FenceModel service subject)) deleted).

Definition internal_routes : list Platform.route :=
  [{| rt_method := "POST"; rt_pattern := path ["internal"; "v1"; "subjects"; "sync"];
      rt_handler := λ _, internal syncSubject |};
   {| rt_method := "POST"; rt_pattern := path ["internal"; "v1"; "subjects"; "fence"];
      rt_handler := λ _, internal fenceSubject |};
   {| rt_method := "POST"; rt_pattern := path ["internal"; "v1"; "model-subjects"; "sync"];
      rt_handler := λ _, internal syncModelSubject |};
   {| rt_method := "POST"; rt_pattern := path ["internal"; "v1"; "model-subjects"; "fence"];
      rt_handler := λ _, internal fenceModelSubject |}].

Definition key_routes : list Platform.route :=
  health_routes ++
  collection_routes h "virtual-keys" createVirtualKey listVirtualKeys getVirtualKey
    updateVirtualKey deleteVirtualKey ++
  internal_routes.

Definition NewVirtualKeyHTTPHandler : http_request → svc http_response :=
  HTTPMiddleware (ServeMux key_routes).
End keys.
