(* ===== verification/Registry.v ===== *)
(** * Projection across services ([subject_client.go])

    [RemoteSubjectRegistry], the client the resource control plane uses to
    project users and models into the virtual-key control plane, over a
    [JSONInvoker]; and the direct registry, [VirtualKeyService] itself. *)

From S2P Require Import Prelude GoStd Json GoTime Errors State Model Repository.
From S2P Require Import KeyRepository Svc Service KeyService.

(** What [InvokeJSON] is given as its input. *)
Inductive payload : Type := PSubject (s : KeySubject) | PModel (s : ModelSubject).

(** [InvokeJSON(ctx, appID, method, input, nil)]. *)
Definition JSONInvoker : Type := string → string → payload → prog unit.

(** A registry pointer may be nil, and so may its invoker. *)
Record RemoteSubjectRegistry := { invoker : option JSONInvoker; appID : string }.

Definition StatusConflict : Z := 409.

(** The error [invoke] makes of the one [InvokeJSON] returned. *)
Definition invoke_error (resource : string) (err : error) : error :=
  let unavailable :=
    Errorf "%w: invoke virtual-key control-plane: %w" [AWrap ErrUnavailable; AWrap err] in
  match errors_As as_http err with
  | Some code =>
      if (code =? StatusConflict)%Z then Errorf "%w: %s" [AWrap ErrConflict; AStr resource]
      else unavailable
  | None => unavailable
  end.

Definition invoke (r : option RemoteSubjectRegistry) (method : string) (input : payload)
    (resource : string) : prog unit :=
  let unconfigured :=
    wrap Unavailable "virtual-key control-plane invocation is not configured" in
  match r with
  | Some {| invoker := Some f; appID := app |} =>
      if bool_decide (app = "") then fail unconfigured
      else wrap_err (invoke_error resource) (f app method input)
  | _ => fail unconfigured
  end.

Section remote.
Context (r : option RemoteSubjectRegistry).

Definition SyncSubject (subject : KeySubject) : prog unit :=
  invoke r "/internal/v1/subjects/sync" (PSubject subject) "authorization subject".
Definition FenceSubject (subject : KeySubject) : prog unit :=
  invoke r "/internal/v1/subjects/fence" (PSubject subject) "authorization subject".
Definition SyncModel (subject : ModelSubject) : prog unit :=
  invoke r "/internal/v1/model-subjects/sync" (PModel subject) "model subject".
Definition FenceModel (subject : ModelSubject) : prog unit :=
  invoke r "/internal/v1/model-subjects/fence" (PModel subject) "model subject".

Definition remote_subjects : SubjectRegistry :=
  {| reg_SyncSubject := SyncSubject; reg_FenceSubject := FenceSubject |}.
Definition remote_models : ModelRegistry :=
  {| reg_SyncModel := SyncModel; reg_FenceModel := FenceModel |}.
End remote.

(** [VirtualKeyService] is a registry itself. *)
Definition direct_subjects (keys : domain) : SubjectRegistry :=
  {| reg_SyncSubject := KeyService.SyncSubject keys;
     reg_FenceSubject := KeyService.FenceSubject keys |}.
Definition direct_models (keys : domain) : ModelRegistry :=
  {| reg_SyncModel := KeyService.SyncModel keys;
     reg_FenceModel := KeyService.FenceModel keys |}.
