(* ===== verification/Dapr.v ===== *)
(** * Service invocation through Dapr ([internal/daprhttp/client.go])

    The client of the sidecar over a transport, which is a parameter: the HTTP
    client that sends a request to the sidecar and does not follow redirects. *)

From Stdlib Require Import Ascii.
From S2P Require Import Prelude GoStd Json GoText GoNet GoTime Errors State Model Repository.
From S2P Require Import Svc Service Platform Registry.

(** What is sent: a URL, header values by canonical name and a body, which is
    streamed when its length is not known before. *)
Record outgoing := {
  Out_Method : string; Out_URL : string; Out_Header : list (string * string); Out_Body : string;
  Out_Streamed : bool
}.
Definition transport : Type := outgoing → prog http_response.

(** [url.PathEscape]: bytes a path segment holds as they are. *)
Definition segment_char (c : ascii) : bool := alnum c || one_of "-_.~$&+:=@" c.
Definition upper_hex (n : N) : ascii :=
  if (n <? 10)%N then chr (48 + n) else chr (55 + n).
Definition percent (c : ascii) : string :=
  let n := byte_val c in
  String "%" (String (upper_hex (n / 16)) (String (upper_hex (n mod 16)) "")).
Fixpoint PathEscape (s : string) : string :=
  match s with
  | EmptyString => ""
  | String c s' => (if segment_char c then String c "" else percent c) +:+ PathEscape s'
  end.

(** [strings.TrimLeft] and [TrimRight] of a single byte. *)
Fixpoint TrimLeft (c : ascii) (s : string) : string :=
  match s with
  | String c' s' => if Ascii.eqb c' c then TrimLeft c s' else s
  | EmptyString => ""
  end.
Definition TrimRight (c : ascii) (s : string) : string := string_rev (TrimLeft c (string_rev s)).

Record Client := { baseURL : string; apiToken : string; http_do : transport }.

Definition New (base token : string) (httpClient : transport) : Client :=
  {| baseURL := TrimRight "/" base; apiToken := token; http_do := httpClient |}.

(** [Header.Set]. *)
Definition header_set (name value : string) (h : list (string * string)) : list (string * string) :=
  (name, value) :: List.filter (λ kv, negb (bool_decide (kv.1 = name))) h.

Definition with_token (c : Client) (h : list (string * string)) : list (string * string) :=
  if bool_decide (apiToken c = "") then h else header_set "Dapr-Api-Token" (apiToken c) h.

(** [newRequest]: the base URL is absolute and has no fragment, so [url.Parse]
    accepts what [url.ParseRequestURI] does. *)
Definition newRequest (c : Client) (method endpoint body : string) (streamed : bool)
    : error + outgoing :=
  let url := baseURL c +:+ endpoint in
  if ParseRequestURI url is Some _ then
    inr {| Out_Method := method; Out_URL := url; Out_Header := with_token c []; Out_Body := body;
           Out_Streamed := streamed |}
  else inl (Errorf "parse %q: %w" [AStr url; AWrap (NewError "invalid URL")]).

Definition invoke_endpoint (appID method : string) : string :=
  "/v1.0/invoke/" +:+ PathEscape appID +:+ "/method/" +:+ TrimLeft "/" method.

Definition InvokeMethod (c : Client) (httpMethod appID method body : string) (streamed : bool)
    (headers : list (string * string)) : prog http_response :=
  request ← lift match newRequest c httpMethod (invoke_endpoint appID method) body streamed with
                 | inl err => inl (Errorf "create Dapr invocation request: %w" [AWrap err])
                 | inr request => inr request
                 end;
  http_do c {| Out_Method := Out_Method request; Out_URL := Out_URL request;
               Out_Header := with_token c headers; Out_Body := Out_Body request;
               Out_Streamed := Out_Streamed request |}.

Definition Invoke (c : Client) (appID method body contentType : string) : prog http_response :=
  InvokeMethod c "POST" appID method body false
    (if bool_decide (contentType = "") then [] else [("Content-Type", contentType)]).

Definition succeeded (status : Z) : bool := ((200 <=? status) && (status <? 300))%Z.

(** What is read of an answer that is not a success. *)
Definition error_body (response : http_response) : string :=
  TrimSpace (str_take (Z.to_nat 65536) (RespBody response)).

(** [InvokeJSON(ctx, appID, method, input, nil)], the marshalled input given. *)
Definition InvokeJSON (c : Client) (appID method : string) (input : option string) : prog unit :=
  payload ← lift match input with
                 | Some payload => inr payload
                 | None => inl (Errorf "encode Dapr invocation request: %w" [AWrap json_text_error])
                 end;
  response ← wrap_err (λ e, Errorf "invoke Dapr app %q: %w" [AStr appID; AWrap e])
               (Invoke c appID method payload "application/json");
  if succeeded (StatusCode response) then mret tt
  else fail (HTTPError (StatusCode response) (error_body response)).

Definition payload_text (input : payload) : option string :=
  match input with PSubject s => Marshal s | PModel s => Marshal s end.

(** The client as the [JSONInvoker] of the registry. *)
Definition json_invoker (c : Client) : JSONInvoker := λ appID method input,
  InvokeJSON c appID method (payload_text input).
