(* ===== verification/Faults.v ===== *)
(** * Failing stores and ambiguous commits

    [exec] runs an effect tree against a store reached over a network: a read
    may fail, a transaction may be lost before it commits or its answer may be
    lost after it, the clock and the random source answer anything.  The write
    operations of the repositories only read and then end in one transaction
    ([strict]), so a failing one either changed nothing or did exactly what it
    does without faults. *)

From S2P Require Import Prelude GoStd Json GoTime Errors State Model Repository.
From S2P Require Import Collections ModelRepository KeyRepository.

Section exec.
Context {S : Type} `{StateStore S}.

Inductive exec {A} : prog A → world S → error + A → world S → Prop :=
| exec_done r w : exec (Done r) w r w
| exec_get d key k w r w' :
    exec (k (Get (store_of w d) key)) w r w' → exec (DoGet d key k) w r w'
| exec_get_failed d key k w e r w' :
    exec (k (inl e)) w r w' → exec (DoGet d key k) w r w'
| exec_transact d ops k w e s r w' :
    Transact (store_of w d) ops = (e, s) →
    exec (k e) (set_store w d s) r w' → exec (DoTransact d ops k) w r w'
| exec_transact_lost d ops k w e r w' :
    exec (k (Some e)) w r w' → exec (DoTransact d ops k) w r w'
| exec_transact_ambiguous d ops k w e e' s r w' :
    Transact (store_of w d) ops = (e, s) →
    exec (k (Some e')) (set_store w d s) r w' → exec (DoTransact d ops k) w r w'
| exec_now k w t r w' : time_ok t → exec (k t) w r w' → exec (DoNow k) w r w'
| exec_random n k w bytes r w' :
    length bytes = n → Forall (λ b, (b < 256)%N) bytes →
    exec (k (inr bytes)) w r w' → exec (DoRead n k) w r w'
| exec_random_failed n k w e r w' :
    exec (k (inl e)) w r w' → exec (DoRead n k) w r w'.

Lemma exec_get_inv {A} d key (k : error + Entry → prog A) w r w' :
  exec (DoGet d key k) w r w' →
  exec (k (Get (store_of w d) key)) w r w' ∨ ∃ e, exec (k (inl e)) w r w'.
Proof. inversion 1; simplify_eq; eauto. Qed.

Lemma exec_transact_inv {A} d ops (k : option error → prog A) w r w' :
  exec (DoTransact d ops k) w r w' →
  exec (k (Transact (store_of w d) ops).1) (set_store w d (Transact (store_of w d) ops).2) r w' ∨
  (∃ e, exec (k (Some e)) w r w') ∨
  ∃ e, exec (k (Some e)) (set_store w d (Transact (store_of w d) ops).2) r w'.
Proof.
  inversion 1 as [| | |? ? ? ? ? ? ? ? E| |? ? ? ? ? ? ? ? ? E| | |]; simplify_eq; eauto;
    rewrite E; cbn; eauto.
Qed.

Lemma exec_now_inv {A} (k : Time → prog A) w r w' :
  exec (DoNow k) w r w' → ∃ t, time_ok t ∧ exec (k t) w r w'.
Proof. inversion 1; simplify_eq; eauto. Qed.

Lemma exec_random_inv {A} n (k : error + list N → prog A) w r w' :
  exec (DoRead n k) w r w' →
  (∃ bytes, length bytes = n ∧ Forall (λ b, (b < 256)%N) bytes ∧ exec (k (inr bytes)) w r w') ∨
  ∃ e, exec (k (inl e)) w r w'.
Proof. inversion 1; simplify_eq; eauto 6. Qed.

Lemma exec_Done {A} (r r' : error + A) w w' : exec (Done r) w r' w' → r' = r ∧ w' = w.
Proof. by inversion 1; subst. Qed.

Lemma exec_bind_result {A B} (p : prog A) (f : error + A → prog B) w r w' :
  exec (bind_result p f) w r w' ↔ ∃ r1 w1, exec p w r1 w1 ∧ exec (f r1) w1 r w'.
Proof.
  split.
  - revert w. induction p as [r0|d key k IH|d ops k IH|k IH|m k IH]; intros w; cbn.
    + intros He. exists r0, w. split; [constructor|done].
    + intros [He|[e He]]%exec_get_inv; apply IH in He as (r1 & w1 & ? & ?); exists r1, w1;
        (split; [|done]); [by apply exec_get|by eapply exec_get_failed].
    + intros [He|[[e He]|[e He]]]%exec_transact_inv; apply IH in He as (r1 & w1 & ? & ?);
        exists r1, w1; (split; [|done]).
      * eapply exec_transact; [apply surjective_pairing|done].
      * by eapply exec_transact_lost.
      * eapply exec_transact_ambiguous; [apply surjective_pairing|done].
    + intros (x & Hx & He)%exec_now_inv. apply IH in He as (r1 & w1 & ? & ?). exists r1, w1.
      split; [|done]. by eapply exec_now.
    + intros [(b & ? & ? & He)|[e He]]%exec_random_inv; apply IH in He as (r1 & w1 & ? & ?);
        exists r1, w1; (split; [|done]); [by eapply exec_random|by eapply exec_random_failed].
  - intros (r1 & w1 & Hp & Hf). revert f Hf. induction Hp; intros f Hf; cbn; [done|..].
    + by apply exec_get, IHHp.
    + eapply exec_get_failed. by apply IHHp.
    + eapply exec_transact; [done|]. by apply IHHp.
    + eapply exec_transact_lost. by apply IHHp.
    + eapply exec_transact_ambiguous; [done|]. by apply IHHp.
    + eapply exec_now; [done|]. by apply IHHp.
    + eapply exec_random; [done..|]. by apply IHHp.
    + eapply exec_random_failed. by apply IHHp.
Qed.

Lemma exec_bind {A B} (p : prog A) (f : A → prog B) w r w' :
  exec (p ≫= f) w r w' ↔
  (∃ e, r = inl e ∧ exec p w (inl e) w') ∨
  ∃ a w1, exec p w (inr a) w1 ∧ exec (f a) w1 r w'.
Proof.
  unfold mbind, prog_bind. rewrite exec_bind_result. split.
  - intros ([e|a] & w1 & Hp & Hf); [|eauto]. apply exec_Done in Hf as [-> ->]. eauto.
  - intros [(e & -> & Hp)|(a & w1 & Hp & Hf)]; [|eauto].
    exists (inl e), w'. split; [done|constructor].
Qed.

End exec.

(** ** Programs that read, then commit once *)

Definition failed {A} (p : prog A) : Prop := ∃ e, p = Done (inl e).

Fixpoint reads {A} (p : prog A) : Prop :=
  match p with
  | Done _ => True
  | DoGet d key k => (∀ en, reads (k (inr en))) ∧ ∀ e, failed (k (inl e))
  | _ => False
  end.

Fixpoint strict {A} (p : prog A) : Prop :=
  match p with
  | Done _ => True
  | DoGet d key k => (∀ en, strict (k (inr en))) ∧ ∀ e, failed (k (inl e))
  | DoTransact d ops k => (∃ r, k None = Done r) ∧ ∀ e, failed (k (Some e))
  | _ => False
  end.

Lemma failed_bind {A B} (p : prog A) (f : A → prog B) : failed p → failed (p ≫= f).
Proof. intros [e ->]. by exists e. Qed.

Lemma reads_bind {A B} (p : prog A) (f : A → prog B) :
  reads p → (∀ a, reads (f a)) → reads (p ≫= f).
Proof.
  induction p as [[e|a]|d key k IH| | |]; cbn; try done.
  intros [Hk He] Hf. split; [intros en; by apply IH|intros e; by apply failed_bind].
Qed.

Lemma strict_bind {A B} (p : prog A) (f : A → prog B) :
  reads p → (∀ a, strict (f a)) → strict (p ≫= f).
Proof.
  induction p as [[e|a]|d key k IH| | |]; cbn; try done.
  intros [Hk He] Hf. split; [intros en; by apply IH|intros e; by apply failed_bind].
Qed.

Lemma reads_strict {A} (p : prog A) : reads p → strict p.
Proof. induction p as [r|d key k IH| | |]; cbn; try done. intros [Hk He]. split; auto. Qed.

Lemma reads_wrap_err {A} f (p : prog A) : reads p → reads (wrap_err f p).
Proof.
  induction p as [[e|a]|d key k IH| | |]; cbn; try done.
  intros [Hk He]. split; [intros en; by apply IH|].
  intros e. destruct (He e) as [e' ->]. by eexists.
Qed.

Lemma reads_get d key : reads (store_get d key).
Proof. split; [done|]. intros e. by exists e. Qed.
Lemma reads_encode {T} `{Codec T} (x : T) : reads (encode x).
Proof. unfold encode. by destruct (Marshal x). Qed.
Lemma reads_decode_or {T} `{Codec T} f v : reads (decode_or (T := T) f v).
Proof. unfold decode_or. by destruct (Unmarshal v). Qed.
Lemma reads_check e : reads (check e).
Proof. by destruct e. Qed.
Lemma reads_guard c e : reads (guard_err c e).
Proof. by destruct c. Qed.

Lemma strict_transact d ops : strict (transact d ops).
Proof.
  split; [by eexists|]. intros e. cbn. destruct (errors_Is e StateConflict); by eexists.
Qed.

Create HintDb reads discriminated.
#[export] Hint Resolve reads_get reads_encode reads_decode_or reads_check reads_guard
  strict_transact reads_wrap_err : reads.

(** Walk through a program made of reads and ending in a transaction. *)
Ltac reads_tac :=
  cbv zeta;
  lazymatch goal with
  | |- reads (mbind _ _) => apply reads_bind; [reads_tac|intros ?; reads_tac]
  | |- strict (mbind _ _) => apply strict_bind; [reads_tac|intros ?; reads_tac]
  | |- reads (if ?c then _ else _) => destruct c; reads_tac
  | |- strict (if ?c then _ else _) => destruct c; reads_tac
  | |- reads (match ?x with _ => _ end) => destruct x; reads_tac
  | |- strict (match ?x with _ => _ end) => destruct x; reads_tac
  | |- reads ((λ _, _) _) => cbn beta; reads_tac
  | |- strict ((λ _, _) _) => cbn beta; reads_tac
  | |- strict (transact _ _) => apply strict_transact
  | |- strict (fail _) => exact I
  | |- strict (mret _) => exact I
  | |- reads (fail _) => exact I
  | |- reads (mret _) => exact I
  | |- _ => first [solve [auto with reads nocore]|assumption|idtac]
  end.

Lemma reads_readIndex d key : reads (readIndex d key).
Proof. unfold readIndex. reads_tac. Qed.
Lemma reads_getResource {T} `{Codec T} d c id : reads (getResource (T := T) d c id).
Proof. unfold getResource. reads_tac. Qed.
Lemma reads_check_absent d keys : reads (check_absent d keys).
Proof. induction keys as [|k keys IH]; cbn [check_absent]; reads_tac. Qed.
Lemma reads_check_owned d id keys : reads (check_owned d id keys).
Proof. induction keys as [|k keys IH]; cbn [check_owned]; reads_tac. Qed.
Lemma reads_lookup_upserts l : reads (lookup_upserts l).
Proof. induction l as [|[k x] l IH]; cbn [lookup_upserts]; reads_tac. Qed.
Lemma reads_lookup_id d kind v : reads (lookup_id d kind v).
Proof. unfold lookup_id. reads_tac. Qed.

#[export] Hint Resolve reads_readIndex reads_getResource reads_check_absent reads_check_owned
  reads_lookup_upserts reads_lookup_id : reads.

Lemma strict_createResource {T} `{Codec T} d c id (x : T) l : strict (createResource d c id x l).
Proof. unfold createResource. reads_tac. Qed.
Lemma strict_replaceResource {T} `{Codec T} `{EqDecision T} d c id (x y : T) l l' :
  strict (replaceResource d c id x y l l').
Proof. unfold replaceResource. reads_tac. Qed.
Lemma strict_deleteResource {T} `{Codec T} `{EqDecision T} d c id (x : T) l :
  strict (deleteResource d c id x l).
Proof. unfold deleteResource. reads_tac. Qed.

(** *** The catalog *)

Lemma reads_readProviderEntry d id : reads (readProviderEntry d id).
Proof. unfold readProviderEntry. reads_tac. Qed.
Lemma reads_providerTouch p en : reads (providerTouchOperation p en).
Proof. unfold providerTouchOperation. reads_tac. Qed.
#[export] Hint Resolve reads_readProviderEntry reads_providerTouch : reads.

Lemma strict_CreateModel d x : strict (CreateModel d x).
Proof. unfold CreateModel. reads_tac. Qed.
Lemma strict_ReplaceModel d old x : strict (ReplaceModel d old x).
Proof. unfold ReplaceModel. reads_tac. Qed.
Lemma strict_DeleteProviderIfNoModels d p : strict (DeleteProviderIfNoModels d p).
Proof. unfold DeleteProviderIfNoModels. reads_tac. Qed.

(** A provider read that fails never looks like a provider that is not there. *)
Lemma readProviderEntry_get d id :
  ∃ k, readProviderEntry d id = DoGet d (entityKey "providers" id) k ∧
    (∀ en, ∃ r, k (inr en) = Done r) ∧
    ∀ e, k (inl e) = Done (inl (Errorf "get providers %q: %w" [AStr id; AWrap e])).
Proof.
  eexists. split; [reflexivity|]. split; [|done].
  intros [v e []]; cbn; [|by eexists]. unfold decode_or. destruct (Unmarshal v); by eexists.
Qed.

Lemma strict_DeleteModel d x : strict (DeleteModel d x).
Proof.
  unfold DeleteModel. reads_tac.
  destruct (readProviderEntry_get d (Model_ProviderID x)) as (k & -> & Hr & Hk).
  split; [intros en; destruct (Hr en) as [q ->]|intros e; rewrite Hk; by eexists].
  destruct q as [e|[provider en']]; cbn [bind_result]; reads_tac.
Qed.

(** *** Virtual keys *)

Lemma reads_readSubject d u : reads (readSubject d u).
Proof. unfold readSubject. reads_tac. Qed.
Lemma reads_readModelSubject d x : reads (readModelSubject d x).
Proof. unfold readModelSubject. reads_tac. Qed.
Lemma reads_lift {A} (r : error + A) : reads (lift r).
Proof. done. Qed.
#[export] Hint Resolve reads_readSubject reads_readModelSubject reads_lift : reads.

Lemma reads_subjectTouch s : reads (subjectTouchOperation s).
Proof. unfold subjectTouchOperation. reads_tac. Qed.
Lemma reads_modelSubjectTouch s : reads (modelSubjectTouchOperation s).
Proof. unfold modelSubjectTouchOperation. reads_tac. Qed.
#[export] Hint Resolve reads_subjectTouch reads_modelSubjectTouch : reads.

Lemma reads_prepare_mutations d new key ids : reads (prepare_mutations d new key ids).
Proof. induction ids as [|id ids IH]; cbn [prepare_mutations]; reads_tac. Qed.
Lemma reads_modelIndexOperations ids muts id olds news :
  reads (modelIndexOperations ids muts id olds news).
Proof. induction ids as [|x ids IH]; cbn [modelIndexOperations]; reads_tac. Qed.
#[export] Hint Resolve reads_prepare_mutations reads_modelIndexOperations : reads.
Lemma reads_prepareModelIndexMutations d olds news key :
  reads (prepareModelIndexMutations d olds news key).
Proof. unfold prepareModelIndexMutations. reads_tac. Qed.
#[export] Hint Resolve reads_prepareModelIndexMutations : reads.

Lemma strict_SyncSubject d s : strict (SyncSubject d s).
Proof. unfold SyncSubject. reads_tac. Qed.
Lemma strict_FenceSubject d s : strict (FenceSubject d s).
Proof. unfold FenceSubject. reads_tac. Qed.
Lemma strict_SyncModelSubject d s : strict (SyncModelSubject d s).
Proof. unfold SyncModelSubject. reads_tac. Qed.
Lemma strict_FenceModelSubject d s : strict (FenceModelSubject d s).
Proof. unfold FenceModelSubject. reads_tac. Qed.
Lemma strict_CreateVirtualKey d k : strict (CreateVirtualKey d k).
Proof. unfold CreateVirtualKey. reads_tac. Qed.
Lemma strict_ReplaceVirtualKey d old k : strict (ReplaceVirtualKey d old k).
Proof. unfold ReplaceVirtualKey. reads_tac. Qed.
Lemma strict_DeleteVirtualKey d k : strict (DeleteVirtualKey d k).
Proof. unfold DeleteVirtualKey. reads_tac. Qed.

(** *** Lists *)

(** No transaction on any path. *)
Fixpoint readonly {A} (p : prog A) : Prop :=
  match p with
  | Done _ => True
  | DoGet d key k => ∀ r, readonly (k r)
  | DoTransact d ops k => False
  | DoNow k => ∀ t, readonly (k t)
  | DoRead n k => ∀ r, readonly (k r)
  end.

Lemma readonly_bind_result {A B} (p : prog A) (f : error + A → prog B) :
  readonly p → (∀ r, readonly (f r)) → readonly (bind_result p f).
Proof. induction p as [r|d key k IH|d ops k IH|k IH|m k IH]; cbn; naive_solver. Qed.

Lemma readonly_bind {A B} (p : prog A) (f : A → prog B) :
  readonly p → (∀ a, readonly (f a)) → readonly (p ≫= f).
Proof. intros Hp Hf. apply readonly_bind_result; [done|]. by intros [e|a]. Qed.

Lemma reads_readonly {A} (p : prog A) : reads p → readonly p.
Proof.
  induction p as [r|d key k IH| | |]; cbn; try done. intros [Hk He] [e|en]; [|by apply IH].
  by destruct (He e) as [e' ->].
Qed.

Lemma readonly_collect {T} `{Codec T} d c ids : readonly (collect (T := T) d c ids).
Proof.
  induction ids as [|id ids IH]; [done|]. cbn [collect].
  apply readonly_bind_result; [apply reads_readonly, reads_getResource|].
  intros [e|x]; [by destruct (errors_Is e NotFound)|]. by apply readonly_bind.
Qed.

Lemma readonly_listResourcesAtIndex {T} `{Codec T} d c key :
  readonly (listResourcesAtIndex (T := T) d c key).
Proof.
  apply readonly_bind; [apply reads_readonly, reads_wrap_err, reads_readIndex|].
  intros [index etag]. apply readonly_collect.
Qed.

(** ** What a fault can do *)

Section outcomes.
Context {S : Type} `{StateStoreLaws S} (env : environment).
Implicit Types w : world S.

Lemma exec_failed {A} (p : prog A) w r w' :
  failed p → exec p w r w' → (∃ e, r = inl e) ∧ w' = w.
Proof. intros [e ->] [-> ->]%exec_Done. split; [by eexists|done]. Qed.

(** Without faults [exec] gives what [run] gives. *)
Lemma exec_run_strict {A} (p : prog A) w : strict p → exec p w (run env p w).1 (run env p w).2.
Proof.
  revert w. induction p as [r|d key k IH|d ops k IH|k IH|n k IH]; intros w; try done.
  - constructor.
  - intros [Hk _]. cbn. apply exec_get. rewrite Get_view. apply IH, Hk.
  - intros [[r Hr] He]. cbn. destruct (Transact (store_of w d) ops) as [e s] eqn:E.
    eapply exec_transact; [done|]. apply IH. destruct e as [e|].
    + destruct (He e) as [e' ->]. done.
    + by rewrite Hr.
Qed.

(** A faulty write behaves as the write without faults, or reports an error
    after changing nothing or exactly what it was to change. *)
Lemma exec_strict {A} (p : prog A) w r w' :
  strict p → exec p w r w' →
  (r, w') = run env p w ∨ ∃ e, r = inl e ∧ (w' = w ∨ w' = (run env p w).2).
Proof.
  revert w. induction p as [r0|d key k IH|d ops k IH|k IH|n k IH]; intros w; try done.
  - intros _ [-> ->]%exec_Done. by left.
  - intros [Hk Hfail] [He|[e He]]%exec_get_inv.
    + cbn. rewrite Get_view in *. by apply IH.
    + destruct (exec_failed _ _ _ _ (Hfail e) He) as [[e' ->] ->]. right. exists e'. auto.
  - intros [[r0 Hr] Hfail]. cbn. destruct (Transact (store_of w d) ops) as [e s] eqn:E.
    intros [He|[[e' He]|[e' He]]]%exec_transact_inv; rewrite ?E in He; cbn [fst snd] in He.
    + destruct e as [e|]; [destruct (Hfail e) as [e' E']; rewrite E' in *|rewrite Hr in *];
        apply exec_Done in He as [-> ->]; by left.
    + destruct (exec_failed _ _ _ _ (Hfail _) He) as [[e'' ->] ->]. right. exists e''. auto.
    + destruct (exec_failed _ _ _ _ (Hfail _) He) as [[e'' ->] ->]. right.
      exists e''. split; [done|]. right.
      destruct e as [e|]; [by destruct (Hfail e) as [? ->]|by rewrite Hr].
Qed.

Lemma exec_readonly {A} (p : prog A) w r w' : readonly p → exec p w r w' → w' = w.
Proof.
  revert w. induction p as [r0|d key k IH|d ops k IH|k IH|m k IH]; intros w Hp; [..|done| |].
  - by intros [_ ->]%exec_Done.
  - intros [He|[e He]]%exec_get_inv; by eapply IH.
  - intros (t & _ & He)%exec_now_inv. by eapply IH.
  - intros [(b & _ & _ & He)|[e He]]%exec_random_inv; by eapply IH.
Qed.

(** Reads run alone leave the world as it is. *)
Lemma run_reads {A} (p : prog A) w r : reads p → (run env p w).1 = r → run env p w = (r, w).
Proof.
  intros Hp Hr. rewrite (surjective_pairing (run env p w)), Hr. f_equal. clear Hr.
  induction p as [r0|d key k IH|d ops k IH|k IH|m k IH]; try done.
  destruct Hp as [Hk Hf]. cbn. destruct (Get (store_of w d) key) as [e|en] eqn:E; [|by apply IH].
  by destruct (Hf e) as [e' ->].
Qed.
Lemma run_result {A} (p : prog A) w r : (run env p w).1 = r → run env p w = (r, (run env p w).2).
Proof. intros <-. apply surjective_pairing. Qed.

(** A faulty read: the value, or an error; nothing changes. *)
Lemma exec_reads {A} (p : prog A) w r w' :
  reads p → exec p w r w' → w' = w ∧ ((r, w) = run env p w ∨ ∃ e, r = inl e).
Proof.
  revert w. induction p as [r0|d key k IH|d ops k IH|k IH|n k IH]; intros w; try done.
  - intros _ [-> ->]%exec_Done. auto.
  - intros [Hk Hfail] [He|[e He]]%exec_get_inv.
    + cbn. rewrite Get_view in *. by apply IH.
    + destruct (exec_failed _ _ _ _ (Hfail e) He) as [[e' ->] ->]. eauto.
Qed.
End outcomes.
