(* ===== verification/HttpFacts.v ===== *)
(** * The control planes over HTTP: what a client and the network can do

    Bounded bodies, refused requests, the statuses of errors, and conditional
    writes end to end. *)

From Stdlib Require Import Ascii.
From S2P Require Import Prelude GoStd Json JsonPrefix GoText GoTime Errors GoFmt State Model Repository.
From S2P Require Import Collections Directory ETag Svc Service KeyService Faults Platform Http.

#[local] Arguments bool_decide : simpl never.

(** ** Bodies *)

Lemma str_take_all n s : (String.length s <= n)%nat → str_take n s = s.
Proof.
  revert s. induction n as [|n IH]; intros [|c s]; cbn; try done; [lia|].
  intros Hl. rewrite IH by lia. done.
Qed.
Lemma str_take_length n s : (n <= String.length s)%nat → String.length (str_take n s) = n.
Proof.
  revert s. induction n as [|n IH]; intros [|c s]; cbn; try done; [lia|].
  intros Hl. rewrite IH by lia. done.
Qed.

Section decoding.
Context {A : Type} (dec : json → option A).

(** The part of a body that is read. *)
Definition read_part (body : string) (maxBytes : Z) : string :=
  if (0 <? maxBytes)%Z then str_take (S (Z.to_nat maxBytes)) body else body.

Lemma DecodeJSON_ok body maxBytes a :
  DecodeJSON dec body maxBytes = inr a ↔
  ∃ j rest, let read := read_part body maxBytes in
    parse_value (2 * String.length read + 2) read = Some (j, rest) ∧ dec j = Some a ∧
    skip_ws rest = "" ∧
    (0 < maxBytes → Z.of_nat (String.length read - String.length rest) <= maxBytes)%Z.
Proof.
  unfold DecodeJSON. fold (read_part body maxBytes). cbv zeta. set (read := read_part body maxBytes).
  destruct (parse_value _ read) as [[j rest]|]; [|by split; [|intros (? & ? & ? & _)]].
  destruct (dec j) as [x|] eqn:Ed; [|by split; [|intros (? & ? & [= <- <-] & ? & _); congruence]].
  set (offset := Z.of_nat _).
  destruct ((0 <? maxBytes) && (maxBytes <? offset))%Z eqn:Eo.
  { split; [done|]. apply andb_true_iff in Eo as [?%Z.ltb_lt ?%Z.ltb_lt].
    intros (? & ? & [= <- <-] & _ & _ & Hm). unfold offset in *. lia. }
  assert (0 < maxBytes → offset <= maxBytes)%Z as Hoff.
  { intros H. apply andb_false_iff in Eo as [?%Z.ltb_ge|?%Z.ltb_ge]; lia. }
  destruct (bool_decide_reflect (skip_ws rest = "")) as [Hr|Hr].
  - split; [intros [= ->]; by exists j, rest|]. intros (? & ? & [= <- <-] & ? & _). congruence.
  - split; [by destruct (parse_value _ rest)|]. by intros (? & ? & [= <- <-] & _ & ? & _).
Qed.

Lemma DecodeJSON_fits body maxBytes a :
  (maxBytes ≤ 0 ∨ Z.of_nat (String.length body) ≤ maxBytes)%Z →
  DecodeJSON dec body maxBytes = inr a ↔ parse body ≫= dec = Some a.
Proof.
  intros Hfit. rewrite DecodeJSON_ok.
  assert (read_part body maxBytes = body) as ->.
  { unfold read_part. destruct (Z.ltb_spec 0 maxBytes); [|done]. apply str_take_all. lia. }
  cbv zeta. unfold parse. destruct (parse_value _ body) as [[j rest]|]; [|by split; [intros (? & ? & ? & _)|]].
  destruct (bool_decide_reflect (skip_ws rest = "")) as [Hr|Hr]; cbn.
  - split; [by intros (? & ? & [= <- <-] & ? & _)|]. intros Hd. exists j, rest.
    split_and!; try done. lia.
  - split; [|done]. by intros (? & ? & [= <- <-] & _ & ? & _).
Qed.

(** A printed value is decoded as itself or, when it is too long, not at all. *)
Lemma DecodeJSON_print j maxBytes a :
  wf_json j → DecodeJSON dec (print j) maxBytes = inr a ↔
    dec j = Some a ∧ (maxBytes ≤ 0 ∨ Z.of_nat (String.length (print j)) ≤ maxBytes)%Z.
Proof.
  intros Hj. destruct (decide (maxBytes ≤ 0 ∨ Z.of_nat (String.length (print j)) ≤ maxBytes)%Z) as [Hfit|Hbig].
  { rewrite DecodeJSON_fits by done. rewrite parse_print by done. cbn. tauto. }
  split; [|by intros [_ ?]]. intros (v & rest & Hv & _ & Hrest & Hoff)%DecodeJSON_ok. exfalso.
  unfold read_part in *. destruct (Z.ltb_spec 0 maxBytes) as [Hm|]; [|lia].
  set (n := S (Z.to_nat maxBytes)) in *.
  assert (String.length (str_take n (print j)) = n) as Hl by (apply str_take_length; lia).
  assert (rest ≠ "") as Hne by (intros ->; rewrite Hl in Hoff; specialize (Hoff Hm); cbn [String.length] in Hoff; lia).
  apply (proj1 (parse_extend _)) with
    (n := (2 * String.length (print j) + 2)%nat) (t := str_drop n (print j)) in Hv; [|by left|lia].
  rewrite str_take_drop in Hv.
  pose proof (parse_value_print j Hj (2 * String.length (print j) + 2)%nat "") as Hp.
  rewrite string_app_nil_r, Hv in Hp. specialize (Hp (le_n _) I). injection Hp as _ Hp.
  destruct rest; [done|]. by rewrite string_app_cons in Hp.
Qed.
End decoding.


(** ** Refused requests *)

Lemma SecureEqual_true s t : SecureEqual s t = true ↔ s = t.
Proof.
  unfold SecureEqual. destruct (Nat.eqb_spec (String.length s) (String.length t)) as [|Hl]; cbn.
  - apply bool_decide_eq_true.
  - split; [done|]. by intros ->.
Qed.

(** A handler that answers without any call, and the answers it may give. *)
Definition answers (ok : http_response → Prop) (f : handler) (r : http_request) : Prop :=
  ∀ id, ∃ response, f id r = mret response ∧ ok response.

Definition refusal (response : http_response) : Prop := StatusCode response = 401%Z.

Lemma ServeMux_answers ok routes r :
  (∀ rt, rt ∈ routes → ∀ seg, answers ok (rt_handler rt seg) r) →
  (∀ text, ok (plain 404 text)) → (∀ text, ok (plain 405 text)) →
  answers ok (ServeMux routes) r.
Proof.
  intros Hroutes H404 H405 id. unfold ServeMux.
  destruct (List.find _ _) as [[rt seg]|] eqn:E; [|destruct (bool_decide _); by eexists].
  apply List.find_some in E as [(rt' & Hin & Hrt)%list_elem_of_In%list_elem_of_omap _].
  destruct (match_path _ _ _); [|done]. injection Hrt as <- <-. by apply (Hroutes rt' Hin).
Qed.

Lemma admin_refuses h f r :
  BearerToken (header_get authorization (Header r)) ≠ Some (adminToken h) →
  answers refusal (admin h f) r.
Proof.
  intros Ht id. unfold admin. destruct (BearerToken _) as [token|]; [|by eexists].
  destruct (SecureEqual token (adminToken h)) eqn:E; [|by eexists].
  apply SecureEqual_true in E as ->. done.
Qed.

Lemma internal_refuses appToken f r :
  appToken = "" ∨ header_get "Dapr-Api-Token" (Header r) ≠ appToken →
  answers refusal (internal appToken f) r.
Proof.
  intros Ht id. unfold internal. destruct (bool_decide_reflect (appToken = "")); [by eexists|].
  destruct (SecureEqual _ appToken) eqn:E; [|by eexists]. apply SecureEqual_true in E.
  by destruct Ht as [?|Ht].
Qed.

(** What a stranger gets: a health check, a refusal, or no such route. *)
Definition public_answer (response : http_response) : Prop :=
  response = JSON 200 (Some (JObj [("status", JStr "ok")])) ∨
  StatusCode response ∈ [401; 404; 405]%Z.

Lemma refusal_public response : refusal response → public_answer response.
Proof. intros Hr. right. rewrite Hr. by left. Qed.

Lemma answers_weaken (P Q : http_response → Prop) f r :
  answers P f r → (∀ x, P x → Q x) → answers Q f r.
Proof. intros Hf HPQ id. destruct (Hf id) as (x & ? & ?). eauto. Qed.

Lemma collection_refused h name c l g u d r rt seg :
  BearerToken (header_get authorization (Header r)) ≠ Some (adminToken h) →
  rt ∈ collection_routes h name c l g u d → answers public_answer (rt_handler rt seg) r.
Proof.
  intros Ht Hrt. eapply answers_weaken; [|apply refusal_public].
  unfold collection_routes in Hrt.
  repeat (apply elem_of_cons in Hrt as [->|Hrt]; [by apply admin_refuses|]).
  by apply elem_of_nil in Hrt.
Qed.

Lemma health_public r rt seg : rt ∈ health_routes → answers public_answer (rt_handler rt seg) r.
Proof.
  intros Hrt id. exists (JSON 200 (Some (JObj [("status", JStr "ok")]))). split; [|by left].
  unfold health_routes in Hrt. repeat (apply elem_of_cons in Hrt as [->|Hrt]; [done|]).
  by apply elem_of_nil in Hrt.
Qed.

(** C26.  Nothing happens without a token.  A request that does not carry the
    admin token is answered by the resource control plane, whatever its
    method, path and body, without any call to a repository, registry, clock
    or random source: a health check, 401, or no such route.  The same holds
    for the virtual-key control plane when the request does not carry the
    token of the sidecar either, or when no such token is configured. *)
Theorem strangers_refused h service domain appToken r :
  BearerToken (header_get authorization (Header r)) ≠ Some (adminToken h) →
  answers public_answer (ServeMux (resource_routes h service)) r ∧
  (appToken = "" ∨ header_get "Dapr-Api-Token" (Header r) ≠ appToken →
   answers public_answer (ServeMux (key_routes h domain appToken)) r).
Proof.
  intros Ht. assert (∀ status text, (status ∈ [401; 404; 405])%Z → public_answer (plain status text))
    as Hplain by (intros; by right).
  split; [|intros Happ]; (apply ServeMux_answers; [|intros; apply Hplain; set_solver..]);
    intros rt Hrt seg; apply elem_of_app in Hrt as [Hrt|Hrt]; try (by eapply health_public).
  - apply elem_of_app in Hrt as [Hrt|[Hrt|Hrt]%elem_of_app]; by eapply collection_refused.
  - apply elem_of_app in Hrt as [Hrt|Hrt]; [by eapply collection_refused|].
    eapply answers_weaken; [|apply refusal_public]. unfold internal_routes in Hrt.
    repeat (apply elem_of_cons in Hrt as [->|Hrt]; [by apply internal_refuses|]).
    by apply elem_of_nil in Hrt.
Qed.

(** ** Errors *)

(** The status of an error. *)
Definition error_status (err : error) : Z :=
  if errors_As as_validation err is Some _ then 400
  else if errors_Is err NotFound then 404
  else if errors_Is err Conflict then 409
  else if errors_Is err Unauthorized then 401
  else if errors_Is err Forbidden then 403
  else if errors_Is err Unavailable then 503
  else 500.

Lemma writeError_status id err : StatusCode (writeError id err) = error_status err.
Proof.
  unfold writeError, error_status. destruct (errors_As _ err) as [[[field message] args]|]; [done|].
  by repeat case_match.
Qed.

Lemma error_status_range err : (400 <= error_status err)%Z.
Proof. unfold error_status. repeat case_match; lia. Qed.

(** What is said of an error that is not described. *)
Definition fixed_problem (id : string) (status : Z) : http_response :=
  let problem := WriteProblem id status in
  (if status =? 404 then problem "Not found" "the requested resource does not exist"
   else if status =? 401 then problem "Unauthorized" "authentication failed"
   else if status =? 403 then problem "Forbidden" "access to the requested resource is denied"
   else if status =? 503 then
     problem "Service Unavailable" "a required control-plane dependency is unavailable"
   else problem "Internal Server Error" "the control plane could not process the request")%Z.

Lemma writeError_fixed id err :
  error_status err ≠ 400%Z → error_status err ≠ 409%Z →
  writeError id err = fixed_problem id (error_status err).
Proof.
  unfold error_status, writeError. destruct (errors_As _ err) as [[[f1 m1] a1]|]; [done|].
  destruct (errors_Is err NotFound); [done|]. destruct (errors_Is err Conflict); [done|].
  destruct (errors_Is err Unauthorized); [done|]. destruct (errors_Is err Forbidden); [done|].
  by destruct (errors_Is err Unavailable).
Qed.

Section runs.
Context {S : Type} `{StateStoreLaws S} (env : environment).
Implicit Types w : world S.

Lemma run_respond {A} id (op : svc A) (ok : A → http_response) w :
  run_svc env (respond id op ok) w =
  let '(r, w') := run_svc env op w in
  (inr match r with inl err => writeError id err | inr a => ok a end, w').
Proof.
  unfold respond. rewrite run_svc_bind_result. by destruct (run_svc env op w) as [[e|a] w'].
Qed.

(** What errors tell.  A failed operation is answered with the status of
    its error, which is never a success; only validation errors and conflicts
    are described: any two other errors of the same status give the same
    answer, so nothing of an internal failure reaches the client. *)
Theorem errors_disclosed {A} id (op : svc A) (ok : A → http_response) w :
  (∀ err w', run_svc env op w = (inl err, w') →
     ∃ response, run_svc env (respond id op ok) w = (inr response, w') ∧
       StatusCode response = error_status err ∧ (400 <= StatusCode response)%Z) ∧
  ∀ err1 err2, error_status err1 = error_status err2 →
    error_status err1 ≠ 400%Z → error_status err1 ≠ 409%Z →
    writeError id err1 = writeError id err2.
Proof.
  split.
  - intros err w' Hop. rewrite run_respond, Hop. exists (writeError id err).
    rewrite writeError_status. split_and!; [done..|apply error_status_range].
  - intros err1 err2 He H1 H2. rewrite !writeError_fixed by congruence. by rewrite He.
Qed.

(** ** Conditional writes *)

Lemma header_with_header name value r :
  header_get name (RespHeader (with_header name value r)) = value.
Proof.
  unfold header_get, header_values, with_header. cbn. by rewrite bool_decide_eq_true_2.
Qed.

Lemma served_etag {T} `{CodecLaws T} id status (x : T) j :
  storable x →
  entityETag x = inr (header_get "Etag" (RespHeader (writeEntity id status x j))).
Proof.
  intros Hx. unfold writeEntity. rewrite entityETag_storable by done.
  by rewrite header_with_header.
Qed.

Definition changed : error :=
  Errorf "%w: resource changed since it was loaded" [AWrap ErrConflict].

(** A tag that was served, sent back with [If-Match]. *)
Lemma sent_back {T} `{CodecLaws T} id status (seen current : T) j r :
  storable seen → storable current →
  header_values "If-Match" (Header r) = [header_get "Etag" (RespHeader (writeEntity id status seen j))] →
  enforceIfMatch (requestIfMatch r) current =
    if bool_decide (sha256_hex (enc seen) = sha256_hex (enc current)) then None else Some changed.
Proof.
  intros Hs Hc Hv. unfold requestIfMatch. rewrite Hv.
  rewrite bool_decide_eq_false_2 by done. cbn [negb join].
  exact (proj1 (enforceIfMatch_served seen current _ Hs Hc (served_etag id status seen j Hs))).
Qed.

Section users.
Context (h : adminHTTP) (s : ResourceService) (ut : gmap string User) (w : world S).
Context (Hinv : coll_inv (view (store_of w (users s))) ut).

Lemma run_current id v :
  ut !! id = Some v → run_svc env (call (Repository.GetUser (users s) id)) w = (inr v, w).
Proof. intros Hv. rewrite run_svc_call, (run_GetUser env _ w ut id Hinv). by rewrite Hv. Qed.

Lemma refused_update id v input cond e :
  ut !! id = Some v → enforceIfMatch cond v = Some e →
  run_svc env (Service.updateUser s id input cond) w = (inl e, w).
Proof.
  intros Hv He. unfold Service.updateUser. rewrite run_svc_bind, (run_current id v Hv).
  rewrite He. reflexivity.
Qed.

Lemma refused_delete id v cond e :
  ut !! id = Some v → enforceIfMatch cond v = Some e →
  run_svc env (Service.deleteUser s id cond) w = (inl e, w).
Proof.
  intros Hv He. unfold Service.deleteUser. rewrite run_svc_bind, (run_current id v Hv).
  rewrite He. reflexivity.
Qed.

(** No lost updates.  A client that reads a user, and sends the entity
    tag it got back in [If-Match] of a [PUT] or [DELETE], is answered 409, and
    nothing changes, when the stored user is not the one it read (their
    encodings have different digests). *)
Theorem stale_writes_refused id requestID getID (seen current : User) r input :
  storable seen → ut !! id = Some current →
  sha256_hex (enc seen) ≠ sha256_hex (enc current) →
  header_values "If-Match" (Header r) = [header_get "Etag" (RespHeader (entity getID seen))] →
  DecodeJSON decode_UserInput (Body r) (maxBody h) = inr input →
  let conflict := WriteProblem requestID 409 "Conflict"
    "resource conflict: resource changed since it was loaded" in
  run_svc env (updateUser h s id requestID r) w = (inr conflict, w) ∧
  run_svc env (deleteUser s id requestID r) w = (inr conflict, w).
Proof.
  intros Hs Hv Hne Hm Hd conflict. destruct (ci_ok _ _ Hinv id current Hv) as [_ Hc].
  pose proof (sent_back getID 200 seen current _ r Hs Hc Hm) as He.
  rewrite bool_decide_eq_false_2 in He by done. unfold updateUser, deleteUser, decode.
  rewrite Hd, !run_respond, (refused_update id current input _ _ Hv He),
    (refused_delete id current _ _ Hv He). done.
Qed.
End users.
End runs.

(** ** Examples *)

Module HttpSample.
Definition h : adminHTTP := {| adminToken := "secret"; maxBody := 1000 |}.
Definition service : ResourceService := {|
  users := ControlState; providers := ProviderState; models := ProviderState;
  subjects := {| reg_SyncSubject := λ _, fail ErrUnavailable;
                 reg_FenceSubject := λ _, fail ErrUnavailable |};
  modelSubjects := None |}.
Definition user (name : string) : User := {|
  User_ID := "u1"; User_Name := name; User_Email := "a@b.c"; User_Status := StatusActive;
  User_Revision := 1; User_CreatedAt := zero_time; User_UpdatedAt := zero_time |}.
Definition input : json := JObj [("name", JStr "Eve"); ("email", JStr "e@b.c"); ("status", JStr "active")].
Definition put : http_request := {|
  Method := "PUT"; Path := ["v1"; "users"; "u1"];
  Header := [("Authorization", "bearer secret");
             ("If-Match", header_get "Etag" (RespHeader (entity "r0" (user "Ada"))))];
  Body := print input |}.
Definition stranger : http_request := {|
  Method := "DELETE"; Path := ["v1"; "users"; "u1"]; Header := [("Authorization", "Bearer guess")];
  Body := "" |}.
End HttpSample.


Lemma strangers_refused_witness :
  answers public_answer (ServeMux (key_routes HttpSample.h KeyState "")) HttpSample.stranger.
Proof.
  apply (strangers_refused HttpSample.h HttpSample.service KeyState "" HttpSample.stranger);
    [by vm_compute|by left].
Defined.

Lemma errors_disclosed_witness :
  ∃ response, run_svc Sample.env (respond "r" (GetUser HttpSample.service "u") (entity "r"))
    Sample.world0 = (inr response, Sample.world0) ∧ StatusCode response = 404%Z.
Proof.
  assert (run_svc Sample.env (GetUser HttpSample.service "u") Sample.world0 =
    (inl ErrNotFound, Sample.world0)) as Hop.
  { unfold GetUser. rewrite run_svc_call, (run_GetUser Sample.env ControlState Sample.world0 ∅); [done|].
    by apply coll_inv_empty. }
  destruct (proj1 (errors_disclosed Sample.env "r" (GetUser HttpSample.service "u") (entity "r")
    Sample.world0) ErrNotFound Sample.world0 Hop) as (response & Hr & Hs & _).
  exists response. exact (conj Hr Hs).
Defined.

Lemma stale_writes_refused_witness :
  ∃ w : world Memory.MemoryStore, run_svc Sample.env
    (updateUser HttpSample.h HttpSample.service "u1" "r2" HttpSample.put) w =
    (inr (WriteProblem "r2" 409 "Conflict"
       "resource conflict: resource changed since it was loaded"), w).
Proof.
  assert (coll_inv (T := User) (view (store_of Sample.world0 ControlState)) ∅) as Hempty
    by by apply coll_inv_empty.
  pose proof (collection_step_refines Sample.env Sample.world0 ControlState ∅
    (OpCreate (HttpSample.user "Bob")) Hempty) as H.
  assert (op_ok (OpCreate (HttpSample.user "Bob"))) as Hok.
  { storable_sample. }
  destruct (H Hok) as (st & _ & Hinv & _).
  exists (set_store Sample.world0 ControlState st).
  refine (proj1 (stale_writes_refused Sample.env HttpSample.h HttpSample.service _
    (set_store Sample.world0 ControlState st) Hinv
    "u1" "r2" "r0" (HttpSample.user "Ada") (HttpSample.user "Bob") HttpSample.put
    {| UI_Name := "Eve"; UI_Email := "e@b.c"; UI_Status := "active" |} _ _ _ _ _)).
  - storable_sample.
  - reflexivity.
  - by vm_compute.
  - by_vm.
  - by_vm.
Defined.
