(* ===== verification/Runtime.v ===== *)
(** * What gateways and adapters read ([runtime.go])

    [GatewayRuntime] authorizes a token for a model and resolves the route of
    a model; [ProviderRuntime] resolves the provider of an adapter.  They only
    read, from the key state and from the provider state. *)

From S2P Require Import Prelude GoStd Json GoTime Errors State Model Repository Collections.
From S2P Require Import Directory ModelRepository KeyRepository KeyFacts KeyService.

(** ** Definitions *)

(** [GatewayRuntime]: its repositories are state domains. *)
Record GatewayRuntime := { rt_keys : domain; rt_models : domain; rt_providers : domain }.

(** [errors.Is(err, ErrNotFound)] turned into another error. *)
Definition not_found_as {A} (e : error) (p : prog A) : prog A :=
  wrap_err (λ err, if errors_Is err NotFound then e else err) p.

(** [t != nil && !t.After(now())]; the clock is read only for a non-nil time. *)
Definition past (t : option Time) : prog bool :=
  match t with
  | None => mret false
  | Some t => n ← now; mret (negb (After t n))
  end.

Section runtime.
Context (r : GatewayRuntime).

Definition resolveActiveModel (requestedModel : string) : prog Model :=
  let alias := TrimSpace requestedModel in
  _ ← guard_err (bool_decide (alias = "") || negb (bool_decide (alias = requestedModel)))
        (ValidationError "model"
           "must be a registered model alias without surrounding whitespace" []);
  model ← GetModelByAlias (rt_models r) alias;
  _ ← guard_err (negb (bool_decide (Model_Status model = StatusActive))) ErrForbidden;
  subject ← not_found_as ErrForbidden (GetModelSubject (rt_keys r) (Model_ID model));
  _ ← guard_err
        (negb (bool_decide (MS_ModelID subject = Model_ID model)) ||
         negb (bool_decide (MS_Alias subject = Model_Alias model)) ||
         negb (bool_decide (MS_Status subject = StatusActive)) ||
         MS_Deleted subject || negb (MS_Revision subject =? Model_Revision model)%Z)
        ErrForbidden;
  mret model.

Definition resolveActiveProviderByID (store : domain) (id : string) : prog Provider :=
  provider ← GetProvider store id;
  _ ← guard_err (negb (bool_decide (Provider_Status provider = StatusActive))) ErrForbidden;
  mret provider.

Definition Authorize (token requestedModel : string) : prog Authorization :=
  _ ← guard_err (bool_decide (token = "")) ErrUnauthorized;
  key ← not_found_as ErrUnauthorized (GetVirtualKeyByHash (rt_keys r) (hashKey token));
  _ ← guard_err (negb (bool_decide (Key_Status key = StatusActive))) ErrUnauthorized;
  expired ← past (Key_ExpiresAt key);
  _ ← guard_err expired ErrUnauthorized;
  subject ← not_found_as ErrUnauthorized (GetSubject (rt_keys r) (Key_UserID key));
  _ ← guard_err
        (negb (bool_decide (KS_UserID subject = Key_UserID key)) ||
         negb (bool_decide (KS_Status subject = StatusActive)) || KS_Deleted subject)
        ErrUnauthorized;
  model ← resolveActiveModel requestedModel;
  _ ← guard_err (negb (bool_decide (Model_ID model ∈ Key_ModelIDs key))) ErrForbidden;
  mret {| Auth_KeyID := Key_ID key; Auth_UserID := Key_UserID key |}.

Definition ResolveRoute (requestedModel : string) : prog Route :=
  model ← resolveActiveModel requestedModel;
  provider ← resolveActiveProviderByID (rt_providers r) (Model_ProviderID model);
  let upstreamModel :=
    if bool_decide (Model_UpstreamModel model = "") then Model_Alias model
    else Model_UpstreamModel model in
  mret {| Route_ModelID := Model_ID model; Route_Alias := Model_Alias model;
          Route_ProviderID := Provider_ID provider; Route_UpstreamModel := upstreamModel;
          Route_AdapterAppID := Provider_AdapterAppID provider |}.
End runtime.

(** [ProviderRuntime]. *)
Definition ResolveProviderByAdapterAppID (providers : domain) (appID : string) : prog Provider :=
  provider ← GetProviderByAdapterAppID providers appID;
  _ ← guard_err (negb (bool_decide (Provider_Status provider = StatusActive))) ErrForbidden;
  mret provider.
