(* ===== verification/Protocol.v ===== *)
(** * The projection protocol

    What the two control planes keep about one user (or model): the canonical
    record of the resource control plane, of which only "is it active" and the
    revision matter here, and its projection in the key state.  The facts the
    service operations rely on between their calls, and the moves they make,
    for one id; [System] applies them to users and to models. *)

From S2P Require Import Prelude.

(** Canonical record: active?, revision. *)
Record canon := { c_active : bool; c_rev : Z }.
(** Projection: active?, revision, tombstone? *)
Record proj := { p_active : bool; p_rev : Z; p_deleted : bool }.

Implicit Types (c : option canon) (p : option proj).

(** An active projection is backed by an active canonical record that is at
    least as recent; a tombstone is never active. *)
Record backed_by c p : Prop := {
  backed_active x : p = Some x → p_active x = true →
    ∃ y, c = Some y ∧ c_active y = true ∧ (p_rev x <= c_rev y)%Z;
  backed_tombstone x : p = Some x → p_deleted x = true → p_active x = false
}.

Definition revs_ok (n : Z) c : Prop := ∀ y, c = Some y → (1 <= c_rev y <= n)%Z.

(** How a projection evolves. *)
Definition proj_after p p' : Prop :=
  ∀ x, p = Some x → ∃ x', p' = Some x' ∧ (p_rev x <= p_rev x')%Z ∧
    (p_deleted x = true → p_deleted x' = true) ∧
    (p_rev x = p_rev x' → p_active x = p_active x' ∧ p_deleted x = p_deleted x').

(** The projection has passed revision [r]. *)
Definition passed (r : Z) p : Prop := ∃ x, p = Some x ∧ (r < p_rev x)%Z.

(** What any step of any operation guarantees: projections move forward, and
    an active canonical record stays active and does not go back, unless the
    projection has passed its revision. *)
Definition guarantee c p c' p' : Prop :=
  proj_after p p' ∧
  ∀ y, c = Some y → c_active y = true →
    (∃ y', c' = Some y' ∧ c_active y' = true ∧ (c_rev y <= c_rev y')%Z) ∨ passed (c_rev y) p'.

(** The projection is inactive at [r], or has passed it. *)
Definition revoked (r : Z) p : Prop :=
  ∃ x, p = Some x ∧ ((r < p_rev x)%Z ∨ (r = p_rev x ∧ p_active x = false)).

(** Enough to project revision [r] as active. *)
Definition may_activate (r : Z) c p : Prop :=
  (∃ y, c = Some y ∧ c_active y = true ∧ (r <= c_rev y)%Z) ∨ revoked r p.

(** A tombstone beyond revision [r]. *)
Definition buried (r : Z) p : Prop := ∃ x, p = Some x ∧ p_deleted x = true ∧ (r < p_rev x)%Z.

(** ** Facts that survive every step *)

Lemma proj_after_refl p : proj_after p p.
Proof. intros x ->. exists x. split_and!; [done|lia|done|done]. Qed.
Lemma proj_after_trans p1 p2 p3 : proj_after p1 p2 → proj_after p2 p3 → proj_after p1 p3.
Proof.
  intros H1 H2 x Hx. destruct (H1 x Hx) as (y & Hy & Hxy & Dxy & Exy).
  destruct (H2 y Hy) as (z & Hz & Hyz & Dyz & Eyz). exists z.
  split_and!; [done|lia|by auto|]. intros E.
  destruct (Exy ltac:(lia)), (Eyz ltac:(lia)). split; congruence.
Qed.
Lemma guarantee_refl c p : guarantee c p c p.
Proof. split; [apply proj_after_refl|]. intros y ? ?. left. exists y. split_and!; [done..|lia]. Qed.

Lemma passed_after r p p' : proj_after p p' → passed r p → passed r p'.
Proof. intros Ha (x & Hx & Hr). destruct (Ha x Hx) as (x' & ? & ? & _). exists x'. split; [done|lia]. Qed.

Lemma revoked_after r p p' : proj_after p p' → revoked r p → revoked r p'.
Proof.
  intros Ha (x & Hx & Hr). destruct (Ha x Hx) as (x' & Hx' & Hle & _ & He). exists x'.
  split; [done|]. destruct Hr as [Hr|[-> Hact]]; [left; lia|].
  destruct (decide (p_rev x = p_rev x')) as [E|]; [right|left; lia].
  destruct (He E) as [<- _]. done.
Qed.

Lemma passed_revoked r p : passed r p → revoked r p.
Proof. intros (x & ? & ?). exists x. auto. Qed.

Lemma may_activate_after r c p c' p' :
  guarantee c p c' p' → may_activate r c p → may_activate r c' p'.
Proof.
  intros [Ha Hc] [(y & Hy & Hact & Hr)|Hrev]; [|right; by eapply revoked_after].
  destruct (Hc y Hy Hact) as [(y' & ? & ? & ?)|(x & Hx & Hlt)].
  - left. exists y'. split_and!; [done..|lia].
  - right. exists x. split; [done|]. left. lia.
Qed.

Lemma buried_after r p p' : proj_after p p' → buried r p → buried r p'.
Proof.
  intros Ha (x & Hx & Hd & Hr). destruct (Ha x Hx) as (x' & ? & ? & ? & _).
  exists x'. split_and!; [done|auto|lia].
Qed.

Lemma revs_ok_mono n n' c : (n <= n')%Z → revs_ok n c → revs_ok n' c.
Proof. intros Hn Hc y Hy. specialize (Hc y Hy). lia. Qed.

Lemma revs_ok_next n c : revs_ok n c → revs_ok (n + 1) c.
Proof. apply revs_ok_mono. lia. Qed.

(** ** Moves *)

Section moves.
Context (n : Z) (c : option canon) (p : option proj).
Context (Hback : backed_by c p) (Hrevs : revs_ok n c).

Definition step_ok c' p' : Prop :=
  backed_by c' p' ∧ revs_ok (n + 1) c' ∧ guarantee c p c' p'.

Lemma step_stay : step_ok c p.
Proof. refine (conj _ (conj _ _)); [done|by apply revs_ok_next|apply guarantee_refl]. Qed.

(** A new record has revision 1, and is active or not. *)
Lemma step_create a :
  c = None → (1 <= n + 1)%Z → step_ok (Some {| c_active := a; c_rev := 1 |}) p.
Proof.
  intros Hc Hn. refine (conj _ (conj _ _)).
  - split; [|apply Hback]. intros x Hx Ha.
    destruct (backed_active _ _ Hback x Hx Ha) as (? & ? & _). congruence.
  - intros y [= <-]. cbn. lia.
  - split; [apply proj_after_refl|congruence].
Qed.

(** Any accepted update of the projection that is not active. *)
Lemma step_project x' :
  proj_after p (Some x') → p_active x' = false → step_ok c (Some x').
Proof.
  intros Ha Hx'. refine (conj _ (conj _ _)).
  - split; [intros x [= <-]; congruence|intros x [= <-]; done].
  - by apply revs_ok_next.
  - split; [done|]. intros y ? ?. left. exists y. split_and!; [done..|lia].
Qed.

(** An accepted active update, or no update at all. *)
Lemma step_activate x' :
  proj_after p (Some x') → may_activate (p_rev x') c p → p_active x' = true →
  p_deleted x' = false → step_ok c (Some x').
Proof.
  intros Ha Hmay Hact Hdel. refine (conj _ (conj _ _)).
  - split; [|intros x [= <-]; congruence]. intros x [= <-] _.
    destruct Hmay as [Hc|(x & Hx & Hr)]; [done|exfalso].
    destruct (Ha x Hx) as (? & [= <-] & Hle & _ & He).
    destruct Hr as [Hr|[Hr Hf]]; [lia|]. destruct (He (eq_sym Hr)) as [E _]. congruence.
  - by apply revs_ok_next.
  - split; [done|]. intros y ? ?. left. exists y. split_and!; [done..|lia].
Qed.

(** The next revision of the record, active. *)
Lemma step_replace_active y :
  c = Some y → step_ok (Some {| c_active := true; c_rev := c_rev y + 1 |}) p.
Proof.
  intros Hc. pose proof (Hrevs y Hc) as Hy. refine (conj _ (conj _ _)).
  - split; [|apply Hback]. intros x Hx Ha.
    destruct (backed_active _ _ Hback x Hx Ha) as (y' & Hy' & _ & Hle).
    assert (y' = y) as -> by congruence.
    eexists. split_and!; [done..|]. cbn. lia.
  - intros y' [= <-]. cbn. lia.
  - split; [apply proj_after_refl|]. intros y' Hy' _. left. eexists.
    assert (y' = y) as -> by congruence. split_and!; [done..|]. cbn. lia.
Qed.

(** The next revision, disabled, once the projection is revoked there. *)
Lemma step_replace_disabled y :
  c = Some y → revoked (c_rev y + 1) p →
  step_ok (Some {| c_active := false; c_rev := c_rev y + 1 |}) p.
Proof.
  intros Hc (x & Hx & Hr). pose proof (Hrevs y Hc) as Hy. refine (conj _ (conj _ _)).
  - split; [|apply Hback]. intros x' Hx' Ha. assert (x' = x) as -> by congruence.
    destruct (backed_active _ _ Hback x Hx Ha) as (y' & Hy' & _ & Hle).
    assert (y' = y) as -> by congruence.
    destruct Hr as [Hr|[Hr Hf]]; [lia|congruence].
  - intros y' [= <-]. cbn. lia.
  - split; [apply proj_after_refl|]. intros y' Hy' _. right. exists x.
    assert (y' = y) as -> by congruence. split; [done|]. destruct Hr as [Hr|[Hr Hf]]; lia.
Qed.

(** The record goes once its projection is a tombstone beyond it. *)
Lemma step_delete y : c = Some y → buried (c_rev y) p → step_ok None p.
Proof.
  intros Hc (x & Hx & Hd & Hr). refine (conj _ (conj _ _)).
  - split; [|apply Hback]. intros x' Hx' Ha. assert (x' = x) as -> by congruence.
    rewrite (backed_tombstone _ _ Hback x Hx Hd) in Ha. done.
  - done.
  - split; [apply proj_after_refl|]. intros y' Hy' _. right. exists x.
    assert (y' = y) as -> by congruence. done.
Qed.

Lemma may_activate_canon y r :
  c = Some y → c_active y = true → (r <= c_rev y)%Z → may_activate r c p.
Proof. intros. left. by exists y. Qed.
End moves.
