(* ===== verification/System.v ===== *)
(** * The control planes as a concurrent system

    The three state domains as tables, the invariant that ties them to the
    stores, and the calls that change them.  Any number of service operations
    run at once: each step is one atomic call of one of them, with any fault of
    [Faults.exec]; an operation may stop for good between two calls (a crash).
    [safe] is the obligation of one operation under what the others guarantee,
    and [reach_safe] is its soundness. *)

From S2P Require Import Prelude GoStd Json GoTime Errors State Model Repository Collections.
From S2P Require Import Directory ModelRepository KeyRepository KeyFacts Svc Faults Protocol.

(** ** Tables *)

Record tables := {
  t_users : gmap string User; t_providers : gmap string Provider;
  t_models : gmap string Model; t_keys : key_tables
}.

Definition no_tables : tables :=
  {| t_users := ∅; t_providers := ∅; t_models := ∅; t_keys := no_keys |}.

(** A call that changes one of the stores. *)
Inductive sys_op : Type :=
| UserOp (o : table_op User)
| CatalogOp (o : catalog_op)
| KeyOp (o : key_op).

Definition sys_prog (o : sys_op) : prog unit :=
  match o with
  | UserOp o => user_step ControlState o
  | CatalogOp o => catalog_step ProviderState o
  | KeyOp o => key_step KeyState o
  end.

Definition sys_op_ok (o : sys_op) : Prop :=
  match o with UserOp o => op_ok o | CatalogOp o => catalog_op_ok o | KeyOp o => key_op_ok o end.

Definition set_users t ut : tables :=
  {| t_users := ut; t_providers := t_providers t; t_models := t_models t; t_keys := t_keys t |}.
Definition set_catalog t (c : catalog) : tables :=
  {| t_users := t_users t; t_providers := c.1; t_models := c.2; t_keys := t_keys t |}.
Definition set_key_tables t kt : tables :=
  {| t_users := t_users t; t_providers := t_providers t; t_models := t_models t; t_keys := kt |}.

Definition map_ok {A B} (f : A → B) (r : error + A) : error + B :=
  match r with inl e => inl e | inr a => inr (f a) end.

Definition sys_spec (t : tables) (o : sys_op) : error + tables :=
  match o with
  | UserOp o => map_ok (set_users t) (table_step (t_users t) o)
  | CatalogOp o => map_ok (set_catalog t) (catalog_spec (t_providers t, t_models t) o)
  | KeyOp o => map_ok (set_key_tables t) (key_spec (t_keys t) o)
  end.

Lemma strict_sys_prog o : strict (sys_prog o).
Proof.
  destruct o as [[x|old x|x]|[p|old p|p|x|old x|x]|[s|s|s|s|k|old k|k]]; cbn [sys_prog].
  - apply strict_createResource.
  - apply strict_replaceResource.
  - apply strict_deleteResource.
  - apply strict_createResource.
  - apply strict_replaceResource.
  - apply strict_DeleteProviderIfNoModels.
  - apply strict_CreateModel.
  - apply strict_ReplaceModel.
  - apply strict_DeleteModel.
  - apply strict_SyncSubject.
  - apply strict_FenceSubject.
  - apply strict_SyncModelSubject.
  - apply strict_FenceModelSubject.
  - apply strict_CreateVirtualKey.
  - apply strict_ReplaceVirtualKey.
  - apply strict_DeleteVirtualKey.
Qed.

Section system.
Context {S : Type} `{StateStoreLaws S}.
Implicit Types (w : world S) (t : tables).

(** The stores hold the tables. *)
Record sys_inv w t : Prop := {
  si_users : coll_inv (view (store_of w ControlState)) (t_users t);
  si_catalog : catalog_inv (view (store_of w ProviderState)) (t_providers t) (t_models t);
  si_keys : keys_inv (view (store_of w KeyState)) (t_keys t)
}.

Lemma sys_inv_empty w :
  (∀ d, view (store_of w d) = ∅) → sys_inv w no_tables.
Proof.
  intros He. split; cbn [t_users t_providers t_models t_keys no_tables].
  - apply coll_inv_empty. intros k _. by rewrite He.
  - apply catalog_inv_empty, He.
  - apply keys_inv_empty, He.
Qed.

Lemma run_sys_prog env w t o :
  sys_inv w t → sys_op_ok o →
  match sys_spec t o with
  | inl e => run env (sys_prog o) w = (inl e, w)
  | inr t' => ∃ w', run env (sys_prog o) w = (inr tt, w') ∧ sys_inv w' t'
  end.
Proof.
  intros [Hu Hc Hk] Ho. destruct o as [o|o|o]; cbn [sys_prog sys_spec sys_op_ok] in *.
  - assert (user_step ControlState o = collection_step ControlState o) as -> by by destruct o.
    pose proof (collection_step_refines env w _ _ o Hu Ho) as Hr. unfold refines_table in Hr.
    destruct (table_step (t_users t) o) as [e|ut]; cbn [map_ok]; [done|].
    destruct Hr as (s & -> & Hi & _). by eexists.
  - pose proof (catalog_step_refines env w _ (t_providers t, t_models t) o Hc Ho) as Hr.
    unfold refines_catalog in Hr. destruct (catalog_spec _ o) as [e|[pt mt]]; cbn [map_ok]; [done|].
    destruct Hr as (s & -> & Hi). by eexists.
  - pose proof (key_step_refines env w _ _ o Hk Ho) as Hr. unfold refines_keys in Hr.
    destruct (key_spec (t_keys t) o) as [e|kt]; cbn [map_ok]; [done|].
    destruct Hr as (w' & -> & Hi & Hsame). exists w'. split; [done|].
    split; cbn [t_users t_providers t_models t_keys set_key_tables];
      [by rewrite Hsame|by rewrite Hsame|done].
Qed.

(** What a call did under faults: nothing and an error, or what its
    specification says, reported or not. *)
Definition outcome t (o : sys_op) (r : error + unit) w' : Prop :=
  ((∃ e, r = inl e) ∧ sys_inv w' t) ∨
  ∃ t', sys_spec t o = inr t' ∧ sys_inv w' t' ∧ (r = inr tt ∨ ∃ e, r = inl e).

Lemma exec_sys_prog w t o r w' :
  sys_inv w t → sys_op_ok o → exec (sys_prog o) w r w' → outcome t o r w'.
Proof.
  intros Hi Ho He. set (env := {| clock := λ _, zero_time; random := λ _ _, inr [] |}).
  pose proof (run_sys_prog env w t o Hi Ho) as Hr.
  destruct (exec_strict env _ _ _ _ (strict_sys_prog o) He) as [E|(e & -> & [-> | ->])].
  - destruct (sys_spec t o) as [e|t'] eqn:Es.
    + rewrite Hr in E. injection E as -> ->. left. eauto.
    + destruct Hr as (w1 & Hr & Hi1). rewrite Hr in E. injection E as -> ->. right. eauto.
  - left. eauto.
  - destruct (sys_spec t o) as [e'|t'] eqn:Es.
    + rewrite Hr. left. eauto.
    + destruct Hr as (w1 & -> & Hi1). right. eauto 6.
Qed.
End system.
