(* ===== verification/Interleave.v ===== *)
(** * Interleaved service operations

    The protocol of [Protocol] over the tables, the obligation [safe] of one
    service operation, its rules, and the soundness of the obligations for any
    interleaving of any number of operations.  Every store-changing call of a service
    operation is one of the moves at the end. *)

From S2P Require Import Prelude GoStd Json GoTime Errors State Model Repository Collections Directory.
From S2P Require Import ModelRepository KeyRepository KeyFacts Svc Faults Protocol System.

(** ** The protocol over the tables *)

Definition canon_of_user (u : User) : canon :=
  {| c_active := bool_decide (User_Status u = StatusActive); c_rev := User_Revision u |}.
Definition canon_of_model (x : Model) : canon :=
  {| c_active := bool_decide (Model_Status x = StatusActive); c_rev := Model_Revision x |}.
Definition proj_of_subject (s : KeySubject) : proj :=
  {| p_active := bool_decide (KS_Status s = StatusActive); p_rev := KS_Revision s;
     p_deleted := KS_Deleted s |}.
Definition proj_of_model (s : ModelSubject) : proj :=
  {| p_active := bool_decide (MS_Status s = StatusActive); p_rev := MS_Revision s;
     p_deleted := MS_Deleted s |}.

Implicit Types t : tables.

Definition ucanon t id : option canon := canon_of_user <$> t_users t !! id.
Definition uproj t id : option proj := proj_of_subject <$> subjects (t_keys t) !! id.
Definition mcanon t id : option canon := canon_of_model <$> t_models t !! id.
Definition mproj t id : option proj := proj_of_model <$> model_subjects (t_keys t) !! id.

Record proto (n : Z) t : Prop := {
  pr_user id : backed_by (ucanon t id) (uproj t id);
  pr_user_rev id : revs_ok n (ucanon t id);
  pr_model id : backed_by (mcanon t id) (mproj t id);
  pr_model_rev id : revs_ok n (mcanon t id)
}.

Definition guar t t' : Prop :=
  (∀ id, guarantee (ucanon t id) (uproj t id) (ucanon t' id) (uproj t' id)) ∧
  (∀ id, guarantee (mcanon t id) (mproj t id) (mcanon t' id) (mproj t' id)).

Lemma guar_refl t : guar t t.
Proof. split; intros id; apply guarantee_refl. Qed.

Lemma proto_next n t : proto n t → proto (n + 1) t.
Proof. intros [? ? ? ?]. split; try done; intros id; by apply revs_ok_next. Qed.

Lemma proto_empty : proto 0 no_tables.
Proof.
  assert (Hb : backed_by None None) by by split.
  assert (Hr : revs_ok 0 None) by done.
  split; intros id; unfold ucanon, uproj, mcanon, mproj; cbn; by rewrite ?lookup_empty.
Qed.

(** Facts that the steps of other operations keep. *)
Definition stable (P : tables → Prop) : Prop := ∀ t t', guar t t' → P t → P t'.

Lemma stable_const (φ : Prop) : stable (λ _, φ).
Proof. by intros t t'. Qed.
Lemma stable_and P Q : stable P → stable Q → stable (λ t, P t ∧ Q t).
Proof. intros HP HQ t t' Hg [? ?]. split; [by eapply HP|by eapply HQ]. Qed.
Lemma stable_user_revoked r id : stable (λ t, revoked r (uproj t id)).
Proof. intros t t' [Hg _]. apply revoked_after, Hg. Qed.
Lemma stable_model_revoked r id : stable (λ t, revoked r (mproj t id)).
Proof. intros t t' [_ Hg]. apply revoked_after, Hg. Qed.
Lemma stable_user_may r id : stable (λ t, may_activate r (ucanon t id) (uproj t id)).
Proof. intros t t' [Hg _]. apply may_activate_after, Hg. Qed.
Lemma stable_model_may r id : stable (λ t, may_activate r (mcanon t id) (mproj t id)).
Proof. intros t t' [_ Hg]. apply may_activate_after, Hg. Qed.
Lemma stable_user_buried r id : stable (λ t, buried r (uproj t id)).
Proof. intros t t' [Hg _]. apply buried_after, Hg. Qed.
Lemma stable_model_buried r id : stable (λ t, buried r (mproj t id)).
Proof. intros t t' [_ Hg]. apply buried_after, Hg. Qed.

Create HintDb stable discriminated.
#[export] Hint Resolve stable_const stable_and stable_user_revoked stable_model_revoked
  stable_user_may stable_model_may stable_user_buried stable_model_buried : stable.

(** ** The obligation of one operation *)

Section safe.
Context {S : Type} `{StateStoreLaws S}.
Implicit Types (w : world S) (P Q : tables → Prop).

(** [n] bounds the revisions; it grows by one with every step. *)
Fixpoint safe {A} (s : svc A) P (Φ : A → tables → Prop) : Prop :=
  match s with
  | Ret (inl _) => True
  | Ret (inr a) => ∀ t, P t → Φ a t
  | Call p k => ∀ n t w r w',
      (0 <= n)%Z → (n + 1 < two64)%Z → sys_inv w t → proto n t → P t → exec p w r w' →
      ∃ t', sys_inv w' t' ∧ proto (n + 1) t' ∧ guar t t' ∧
        ∃ Q, stable Q ∧ Q t' ∧ safe (k r) Q Φ
  end.

Lemma safe_mono {A} (s : svc A) P Q Φ : (∀ t, Q t → P t) → safe s P Φ → safe s Q Φ.
Proof.
  intros HPQ. destruct s as [[e|a]|B p k]; cbn; [done|by eauto|].
  intros Hs n t w r w' ? ? ? ? ?. apply Hs; auto.
Qed.

Lemma safe_post {A} (s : svc A) P Φ Ψ : (∀ a t, Φ a t → Ψ a t) → safe s P Φ → safe s P Ψ.
Proof.
  intros HΦ. revert P. induction s as [[e|a]|C p k IH]; intros P Hs; [done|by cbn in *; auto|].
  intros n t w r w' Hn Hn' Hi Hpr HP He.
  destruct (Hs n t w r w' Hn Hn' Hi Hpr HP He) as (t' & Hi' & Hpr' & Hg & Q & HQ & HQt & Hk).
  exists t'. split_and!; [done..|]. exists Q. split_and!; [done..|]. by apply IH.
Qed.

(** What is not about the tables can be used outside. *)
Lemma safe_pure {A} (φ : Prop) (s : svc A) P Φ :
  (φ → safe s P Φ) → safe s (λ t, φ ∧ P t) Φ.
Proof.
  intros Hs. destruct s as [[e|a]|B p k]; cbn in *; [done|by intros t [? ?]; apply Hs|].
  intros n t w r w' ? ? ? ? [Hφ ?]. by apply (Hs Hφ).
Qed.

Lemma safe_pure_l {A} (φ : Prop) (s : svc A) Φ : (φ → safe s (λ _, True) Φ) → safe s (λ _, φ) Φ.
Proof.
  intros Hs. apply (safe_mono s (λ _, φ ∧ True)); [auto|].
  by apply (safe_pure φ s (λ _, True)).
Qed.

Lemma safe_bind {A B} (s : svc A) (f : A → svc B) P Φ Ψ :
  safe s P Φ → (∀ a, safe (f a) (Φ a) Ψ) → safe (s ≫= f) P Ψ.
Proof.
  intros Hs Hf. revert P Hs. induction s as [[e|a]|C p k IH]; intros P Hs; [done| |].
  - eapply safe_mono; [|apply Hf]. apply Hs.
  - intros n t w r w' Hn Hn' Hi Hpr HP He.
    destruct (Hs n t w r w' Hn Hn' Hi Hpr HP He) as (t' & Hi' & Hpr' & Hg & Q & HQ & HQt & Hk).
    exists t'. split_and!; [done..|]. exists Q. split_and!; [done..|]. by apply IH.
Qed.

Lemma safe_ret {A} (a : A) P Φ : (∀ t, P t → Φ a t) → safe (mret a) P Φ.
Proof. done. Qed.
Lemma safe_reject {A} e P (Φ : A → tables → Prop) : safe (reject e) P Φ.
Proof. done. Qed.

Lemma safe_returned {A} (r : error + A) P (Φ : A → tables → Prop) :
  (∀ a t, r = inr a → P t → Φ a t) → safe (returned r) P Φ.
Proof. intros Hr. destruct r as [e|a]; cbn; [done|]. intros t. by apply Hr. Qed.

Lemma safe_ensure e P : safe (ensure e) P (λ _ t, e = None ∧ P t).
Proof. by destruct e. Qed.

Lemma safe_wrap_err {A} f (s : svc A) P Φ : safe s P Φ → safe (svc_wrap_err f s) P Φ.
Proof.
  revert P. induction s as [[e|a]|C p k IH]; intros P Hs; [done|done|].
  intros n t w r w' Hn Hn' Hi Hpr HP He.
  destruct (Hs n t w r w' Hn Hn' Hi Hpr HP He) as (t' & Hi' & Hpr' & Hg & Q & HQ & HQt & Hk).
  exists t'. split_and!; [done..|]. exists Q. split_and!; [done..|]. by apply IH.
Qed.

(** A step that changes nothing. *)
Lemma safe_same {A B} (p : prog B) (k : error + B → svc A) P Φ :
  (∀ n t w r w', sys_inv w t → proto n t → P t → exec p w r w' →
     w' = w ∧ ∃ Q, stable Q ∧ Q t ∧ safe (k r) Q Φ) →
  safe (Call p k) P Φ.
Proof.
  intros Hs n t w r w' Hn Hn' Hi Hpr HP He.
  destruct (Hs n t w r w' Hi Hpr HP He) as (-> & Q & HQ).
  exists t. split_and!; [done|by apply proto_next|apply guar_refl|by exists Q].
Qed.

(** A faulty read, continued with its value or with an error. *)
Lemma safe_reads_then {A B} (p : prog B) (k : error + B → svc A) P φ Φ :
  reads p → stable P →
  (∀ env n t w b, (n + 1 < two64)%Z → sys_inv w t → proto n t → P t →
     run env p w = (inr b, w) → φ b) →
  (∀ e, safe (k (inl e)) P Φ) → (∀ b, φ b → safe (k (inr b)) P Φ) →
  safe (Call p k) P Φ.
Proof.
  intros Hp HP Hval Herr Hok n t w r w' Hn Hn' Hi Hpr HPt He.
  set (env := {| clock := λ _, zero_time; random := λ _ _, inr [] |}).
  destruct (exec_reads env p w r w' Hp He) as [-> Hr].
  exists t. split_and!; [done|by apply proto_next|apply guar_refl|]. exists P.
  split_and!; [done..|]. destruct Hr as [Hr|[e ->]]; [|done].
  destruct r as [e|b]; [done|]. apply Hok. by eapply Hval.
Qed.

Lemma safe_reads {B} (p : prog B) P φ :
  reads p → stable P →
  (∀ env n t w b, (n + 1 < two64)%Z → sys_inv w t → proto n t → P t →
     run env p w = (inr b, w) → φ b) →
  safe (call p) P (λ b t, φ b ∧ P t).
Proof. intros Hp HP Hv. by apply (safe_reads_then _ _ _ φ). Qed.

Lemma safe_readonly {B} (p : prog B) P : readonly p → stable P → safe (call p) P (λ _, P).
Proof.
  intros Hp HP. apply safe_same. intros n t w r w' Hi Hpr HPt He.
  split; [by eapply exec_readonly|]. exists P.
  refine (conj HP (conj HPt _)). destruct r; cbn; auto.
Qed.

Lemma safe_now P : stable P → safe (call now) P (λ x t, time_ok x ∧ P t).
Proof.
  intros HP. apply safe_same. intros n t w r w' Hi Hpr HPt (x & Hx & He)%exec_now_inv.
  apply exec_Done in He as [-> ->]. split; [done|]. exists P. by split_and!.
Qed.

(** ** Calls that change a store *)

(** A call that does [o], or nothing and reports an error, or does it and
    reports an error. *)
Definition behaves (p : prog unit) (o : sys_op) : Prop :=
  ∀ w r w', exec p w r w' →
    (w' = w ∧ ∃ e, r = inl e) ∨
    ∃ r1, exec (sys_prog o) w r1 w' ∧ (r = r1 ∨ ∃ e, r = inl e).

Lemma behaves_self o : behaves (sys_prog o) o.
Proof. intros w r w' He. right. eauto. Qed.

Lemma behaves_wrap f p o : behaves p o → behaves (wrap_err f p) o.
Proof.
  intros Hp w r w'. unfold wrap_err. intros He.
  apply exec_bind_result in He as (r0 & w1 & He0 & Hr).
  assert (w1 = w' ∧ (r = r0 ∨ ∃ e, r = inl e)) as [-> Hr'].
  { destruct r0 as [e|a]; apply exec_Done in Hr as [-> ->]; eauto. }
  clear Hr. rename Hr' into Hr.
  destruct (Hp w r0 w' He0) as [[-> [e ->]]|(r1 & H1 & H2)].
  - left. split; [done|]. destruct Hr as [->|Hr]; eauto.
  - right. exists r1. split; [done|].
    destruct Hr as [->|Hr]; [|eauto]. done.
Qed.

Lemma safe_op p o P (Φ : unit → tables → Prop) :
  behaves p o → sys_op_ok o → stable (Φ tt) →
  (∀ n t t', (0 <= n)%Z → (n + 1 < two64)%Z → proto n t → P t → sys_spec t o = inr t' →
     proto (n + 1) t' ∧ guar t t' ∧ Φ tt t') →
  safe (call p) P Φ.
Proof.
  intros Hp Ho HΦ Hspec n t w r w' Hn Hn' Hi Hpr HP He.
  assert (Hstay : ∃ t', sys_inv w t' ∧ proto (n + 1) t' ∧ guar t t' ∧
    ∃ Q, stable Q ∧ Q t' ∧ safe (Ret (A := unit) (inl ErrConflict)) Q Φ).
  { exists t. split_and!; [done|by apply proto_next|apply guar_refl|].
    exists (λ _, True). by split_and!; [apply stable_const|..]. }
  destruct (Hp w r w' He) as [[-> [e ->]]|(r1 & He1 & Hr)]; [exact Hstay|].
  destruct (exec_sys_prog w t o r1 w' Hi Ho He1) as [[[e ->] Hi']|(t' & Hsp & Hi' & Hr1)].
  - destruct Hr as [->|[e' ->]]; exists t;
      (split_and!; [done|by apply proto_next|apply guar_refl|]);
      exists (λ _, True); by split_and!; [apply stable_const|..].
  - destruct (Hspec n t t' Hn Hn' Hpr HP Hsp) as (Hpr' & Hg & HΦt).
    exists t'. split_and!; [done..|].
    assert (Hfin : r = inr tt ∨ ∃ e, r = inl e) by (destruct Hr as [->|?]; auto).
    destruct Hfin as [->|[e ->]].
    + exists (Φ tt). split_and!; [done..|]. by cbn.
    + exists (λ _, True). by split_and!; [apply stable_const|..].
Qed.
End safe.

(** * The moves of the system

    What each store-changing call does to the protocol of users and models:
    every call of a service operation is one of these moves. *)

#[local] Arguments bool_decide : simpl never.


(** ** One id at a time *)

Definition users_kept t t' : Prop :=
  ∀ id, ucanon t' id = ucanon t id ∧ uproj t' id = uproj t id.
Definition models_kept t t' : Prop :=
  ∀ id, mcanon t' id = mcanon t id ∧ mproj t' id = mproj t id.

Definition moved (n : Z) t t' : Prop := proto (n + 1) t' ∧ guar t t'.

Lemma one_user n t t' id :
  proto n t → step_ok n (ucanon t id) (uproj t id) (ucanon t' id) (uproj t' id) →
  (∀ id', id' ≠ id → ucanon t' id' = ucanon t id' ∧ uproj t' id' = uproj t id') →
  models_kept t t' → moved n t t'.
Proof.
  intros Hp (Hb & Hr & Hg) Hother Hm. pose proof (proto_next _ _ Hp) as Hn. split; split.
  - intros id'. destruct (decide (id' = id)) as [->|Hne]; [done|].
    destruct (Hother id' Hne) as [-> ->]. apply Hn.
  - intros id'. destruct (decide (id' = id)) as [->|Hne]; [done|].
    destruct (Hother id' Hne) as [-> _]. apply Hn.
  - intros x. destruct (Hm x) as [-> ->]. apply Hn.
  - intros x. destruct (Hm x) as [-> _]. apply Hn.
  - intros id'. destruct (decide (id' = id)) as [->|Hne]; [done|].
    destruct (Hother id' Hne) as [-> ->]. apply guarantee_refl.
  - intros x. destruct (Hm x) as [-> ->]. apply guarantee_refl.
Qed.

Lemma one_model n t t' id :
  proto n t → step_ok n (mcanon t id) (mproj t id) (mcanon t' id) (mproj t' id) →
  (∀ id', id' ≠ id → mcanon t' id' = mcanon t id' ∧ mproj t' id' = mproj t id') →
  users_kept t t' → moved n t t'.
Proof.
  intros Hp (Hb & Hr & Hg) Hother Hu. pose proof (proto_next _ _ Hp) as Hn. split; split.
  - intros x. destruct (Hu x) as [-> ->]. apply Hn.
  - intros x. destruct (Hu x) as [-> _]. apply Hn.
  - intros id'. destruct (decide (id' = id)) as [->|Hne]; [done|].
    destruct (Hother id' Hne) as [-> ->]. apply Hn.
  - intros id'. destruct (decide (id' = id)) as [->|Hne]; [done|].
    destruct (Hother id' Hne) as [-> _]. apply Hn.
  - intros x. destruct (Hu x) as [-> ->]. apply guarantee_refl.
  - intros id'. destruct (decide (id' = id)) as [->|Hne]; [done|].
    destruct (Hother id' Hne) as [-> ->]. apply guarantee_refl.
Qed.

Lemma none_moved n t t' : proto n t → users_kept t t' → models_kept t t' → moved n t t'.
Proof.
  intros Hp Hu Hm. apply (one_user n t t' ""); [done| |auto|done].
  destruct (Hu "") as [-> ->]. apply step_stay; apply Hp.
Qed.

(** ** Users *)

Lemma users_frame t ut id :
  (∀ id', id' ≠ id → ut !! id' = t_users t !! id') →
  (∀ id', id' ≠ id → ucanon (set_users t ut) id' = ucanon t id' ∧
     uproj (set_users t ut) id' = uproj t id') ∧
  models_kept t (set_users t ut) ∧ uproj (set_users t ut) id = uproj t id.
Proof.
  intros Hu. split_and!; [|by intros x|done].
  intros id' Hne. unfold ucanon. cbn. by rewrite Hu.
Qed.

Lemma ucanon_insert t u :
  ucanon (set_users t (<[User_ID u := u]> (t_users t))) (User_ID u) = Some (canon_of_user u).
Proof. unfold ucanon. cbn. by rewrite lookup_insert_eq. Qed.

Lemma move_create_user n t t' u :
  proto n t → (0 <= n)%Z → sys_spec t (UserOp (OpCreate u)) = inr t' → User_Revision u = 1%Z →
  moved n t t' ∧
  (User_Status u = StatusActive → may_activate 1 (ucanon t' (User_ID u)) (uproj t' (User_ID u))).
Proof.
  intros Hp Hn Hsp Hr. cbn in Hsp. unfold table_create in Hsp. cbn [ident User_Collection] in Hsp.
  destruct (bool_decide (is_Some _) || _) eqn:E; [done|]. injection Hsp as <-.
  apply orb_false_iff in E as [E _]. apply bool_decide_eq_false in E.
  assert (Hc : ucanon t (User_ID u) = None).
  { unfold ucanon. destruct (t_users t !! User_ID u); [by destruct E|done]. }
  destruct (users_frame t (<[User_ID u := u]> (t_users t)) (User_ID u)) as (Ho & Hm & Hup).
  { intros id' Hne. by rewrite lookup_insert_ne. }
  rewrite ucanon_insert, Hup. split.
  - apply (one_user n _ _ (User_ID u)); [done| |done|done]. rewrite ucanon_insert, Hup.
    unfold canon_of_user. rewrite Hr. apply step_create; [apply Hp|done|lia].
  - intros Ha. left. eexists. split; [done|]. unfold canon_of_user. cbn.
    rewrite Ha, Hr, bool_decide_eq_true_2 by done. split; [done|lia].
Qed.

Lemma spec_replace_user t t' old u :
  sys_spec t (UserOp (OpReplace old u)) = inr t' →
  t_users t !! User_ID u = Some old ∧ t' = set_users t (<[User_ID u := u]> (t_users t)).
Proof.
  cbn. unfold table_replace. cbn [ident User_Collection].
  destruct (t_users t !! User_ID u) as [c|] eqn:E; [|done]. destruct (negb _ || _) eqn:E'; [done|].
  apply orb_false_iff in E' as [E' _]. apply negb_false_iff, bool_decide_eq_true in E' as ->.
  by intros [= <-].
Qed.

Lemma move_replace_user n t t' old u :
  proto n t → sys_spec t (UserOp (OpReplace old u)) = inr t' →
  User_Revision u = (User_Revision old + 1)%Z →
  (User_Status u = StatusActive ∨
   User_Status u = StatusDisabled ∧ revoked (User_Revision u) (uproj t (User_ID u))) →
  moved n t t' ∧
  (User_Status u = StatusActive →
     may_activate (User_Revision u) (ucanon t' (User_ID u)) (uproj t' (User_ID u))).
Proof.
  intros Hp [Hold ->]%spec_replace_user Hr Hst.
  assert (Hc : ucanon t (User_ID u) = Some (canon_of_user old)) by (unfold ucanon; by rewrite Hold).
  destruct (users_frame t (<[User_ID u := u]> (t_users t)) (User_ID u)) as (Ho & Hm & Hup).
  { intros id' Hne. by rewrite lookup_insert_ne. }
  rewrite ucanon_insert, Hup. split.
  - apply (one_user n _ _ (User_ID u)); [done| |done|done]. rewrite ucanon_insert, Hup.
    unfold canon_of_user at 1. rewrite Hr.
    change (User_Revision old) with (c_rev (canon_of_user old)).
    destruct Hst as [Hst|[Hst Hrev]]; rewrite Hst.
    + apply step_replace_active; [apply Hp..|done].
    + apply step_replace_disabled; [apply Hp..|done|]. by rewrite Hr in Hrev.
  - intros Ha. left. eexists. split; [done|]. unfold canon_of_user. cbn.
    rewrite Ha, bool_decide_eq_true_2 by done. split; [done|lia].
Qed.

Lemma move_delete_user n t t' u :
  proto n t → sys_spec t (UserOp (OpDelete u)) = inr t' →
  buried (User_Revision u) (uproj t (User_ID u)) → moved n t t'.
Proof.
  intros Hp Hsp Hb. cbn in Hsp. unfold table_delete in Hsp. cbn [ident User_Collection] in Hsp.
  destruct (t_users t !! User_ID u) as [c|] eqn:E; [|done]. case_bool_decide; [|done].
  subst c. injection Hsp as <-.
  destruct (users_frame t (delete (User_ID u) (t_users t)) (User_ID u)) as (Ho & Hm & Hup).
  { intros id' Hne. by rewrite lookup_delete_ne. }
  apply (one_user n _ _ (User_ID u)); [done| |done|done]. rewrite Hup.
  assert (ucanon (set_users t (delete (User_ID u) (t_users t))) (User_ID u) = None) as ->.
  { unfold ucanon. cbn. by rewrite lookup_delete_eq. }
  apply step_delete with (canon_of_user u); [apply Hp| |done]. unfold ucanon. by rewrite E.
Qed.

(** ** Subjects of users *)

Lemma proj_after_subjects t t' id :
  tables_after (t_keys t) (t_keys t') → proj_after (uproj t id) (uproj t' id).
Proof.
  intros [Ha _] x Hx. unfold uproj in *.
  destruct (subjects (t_keys t) !! id) as [s|] eqn:E; [|done]. injection Hx as <-.
  destruct (Ha id s E) as (s' & -> & Hr & Hd & He). exists (proj_of_subject s').
  cbn. split_and!; [done..|]. intros E'. apply He, subjectPayloadEqual_true in E' as (_ & -> & _ & ->).
  done.
Qed.

Lemma update_subject_proj kt kt' s :
  spec_update_subject kt s = inr kt' →
  proj_of_subject <$> subjects kt' !! KS_UserID s = Some (proj_of_subject s) ∧
  (∀ u, u ≠ KS_UserID s → subjects kt' !! u = subjects kt !! u) ∧
  model_subjects kt' = model_subjects kt.
Proof.
  unfold spec_update_subject, compareSubjectUpdate.
  destruct (subjects kt !! KS_UserID s) as [c|] eqn:Hc; cbn [stored sub_exists sub_value negb].
  - destruct (_ <? _)%Z; [done|]. destruct (_ =? _)%Z.
    + destruct (subjectPayloadEqual c s) eqn:E; [|done]. intros [= <-]. split_and!; [|done..].
      rewrite Hc. cbn. unfold proj_of_subject.
      by apply subjectPayloadEqual_true in E as (_ & -> & -> & ->).
    + destruct (_ && _); [done|]. intros [= <-]. cbn. rewrite lookup_insert_eq.
      split_and!; [done| |done]. intros u Hu. by rewrite lookup_insert_ne.
  - intros [= <-]. cbn. rewrite lookup_insert_eq.
    split_and!; [done| |done]. intros u Hu. by rewrite lookup_insert_ne.
Qed.

Lemma key_moved n t kt' s :
  proto n t → spec_update_subject (t_keys t) s = inr kt' →
  (let id := KS_UserID s in
   proj_after (uproj t id) (Some (proj_of_subject s)) →
   step_ok n (ucanon t id) (uproj t id) (ucanon t id) (Some (proj_of_subject s))) →
  moved n t (set_key_tables t kt') ∧
  uproj (set_key_tables t kt') (KS_UserID s) = Some (proj_of_subject s).
Proof.
  intros Hp Hsp Hstep. pose proof (update_subject_after _ _ _ Hsp) as Ha.
  destruct (update_subject_proj _ _ _ Hsp) as (Hs & Ho & Hm).
  assert (Hproj : uproj (set_key_tables t kt') (KS_UserID s) = Some (proj_of_subject s)) by exact Hs.
  split; [|done]. apply (one_user n _ _ (KS_UserID s)); [done| | |].
  - rewrite Hproj. apply Hstep. rewrite <- Hproj. by apply proj_after_subjects.
  - intros id' Hne. split; [done|]. unfold uproj. cbn. by rewrite Ho.
  - intros x. split; [done|]. unfold mproj. cbn. by rewrite Hm.
Qed.

Lemma validate_status s : validateSubjectPayload s = None → bad_status (KS_Status s) = false.
Proof. unfold validateSubjectPayload. by repeat case_match. Qed.
Lemma validate_deleted s :
  validateSubjectPayload s = None → KS_Deleted s = true → KS_Status s = StatusDisabled.
Proof.
  unfold validateSubjectPayload. repeat case_match; try done. intros _ Hd.
  rewrite Hd in *. cbn in *. by case_bool_decide.
Qed.

Lemma move_sync_subject n t t' s :
  proto n t → sys_spec t (KeyOp (OpSyncSubject s)) = inr t' →
  (KS_Status s = StatusActive ∧ may_activate (KS_Revision s) (ucanon t (KS_UserID s)) (uproj t (KS_UserID s)) ∨
   KS_Status s = StatusDisabled) →
  moved n t t' ∧
  (KS_Status s = StatusDisabled → revoked (KS_Revision s) (uproj t' (KS_UserID s))).
Proof.
  intros Hp Hsp Hst. cbn in Hsp. unfold spec_SyncSubject, or_err, require in Hsp.
  destruct (validateSubjectPayload s) eqn:Hval; [done|].
  destruct (KS_Deleted s) eqn:Hd; [done|]. cbn [negb] in Hsp.
  destruct (spec_update_subject (t_keys t) s) as [e|kt'] eqn:Hup; [done|]. injection Hsp as <-.
  destruct (key_moved n t kt' s Hp Hup) as [Hm ->].
  { cbn zeta. intros Ha. destruct Hst as [[Hst Hmay]|Hst].
    - apply step_activate; try done; [apply Hp..|]. cbn. by rewrite Hst.
    - apply step_project; [apply Hp..|done|]. cbn. by rewrite Hst. }
  split; [done|]. intros Hdis. eexists. split; [done|]. right. cbn. by rewrite Hdis.
Qed.

Lemma move_fence_subject n t t' s :
  proto n t → sys_spec t (KeyOp (OpFenceSubject s)) = inr t' →
  moved n t t' ∧ ∀ r, (r < KS_Revision s)%Z → buried r (uproj t' (KS_UserID s)).
Proof.
  intros Hp Hsp. cbn in Hsp. unfold spec_FenceSubject, or_err, require in Hsp.
  destruct (validateSubjectPayload s) eqn:Hval; [done|].
  destruct (KS_Deleted s) eqn:Hd; [|done].
  destruct (negb (owns_keys (t_keys t) (KS_UserID s))); [|done].
  destruct (spec_update_subject (t_keys t) s) as [e|kt'] eqn:Hup; [done|]. injection Hsp as <-.
  pose proof (validate_deleted _ Hval Hd) as Hst.
  destruct (key_moved n t kt' s Hp Hup) as [Hm ->].
  { cbn zeta. intros Ha. apply step_project; [apply Hp..|done|]. cbn. by rewrite Hst. }
  split; [done|]. intros r Hr. eexists. split; [done|]. cbn. done.
Qed.

(** ** Models *)

Lemma models_frame t c id :
  (∀ id', id' ≠ id → c.2 !! id' = t_models t !! id') →
  (∀ id', id' ≠ id → mcanon (set_catalog t c) id' = mcanon t id' ∧
     mproj (set_catalog t c) id' = mproj t id') ∧
  users_kept t (set_catalog t c) ∧ mproj (set_catalog t c) id = mproj t id.
Proof.
  intros Hu. split_and!; [|by intros x|done].
  intros id' Hne. unfold mcanon. cbn. by rewrite Hu.
Qed.

Lemma mcanon_insert t pt x :
  mcanon (set_catalog t (pt, <[Model_ID x := x]> (t_models t))) (Model_ID x) = Some (canon_of_model x).
Proof. unfold mcanon. cbn. by rewrite lookup_insert_eq. Qed.

Lemma move_create_model n t t' x :
  proto n t → (0 <= n)%Z → sys_spec t (CatalogOp (CatCreateModel x)) = inr t' →
  Model_Revision x = 1%Z →
  moved n t t' ∧
  (Model_Status x = StatusActive → may_activate 1 (mcanon t' (Model_ID x)) (mproj t' (Model_ID x))).
Proof.
  intros Hp Hn Hsp Hr. cbn in Hsp. unfold spec_CreateModel, table_create in Hsp.
  cbn [ident Model_Collection] in Hsp.
  destruct (bool_decide (is_Some _) || _) eqn:E; [done|].
  destruct (backed (t_providers t) x); [done|]. injection Hsp as <-.
  apply orb_false_iff in E as [E _]. apply bool_decide_eq_false in E.
  assert (Hc : mcanon t (Model_ID x) = None).
  { unfold mcanon. destruct (t_models t !! Model_ID x); [by destruct E|done]. }
  destruct (models_frame t (t_providers t, <[Model_ID x := x]> (t_models t)) (Model_ID x))
    as (Ho & Hm & Hup). { intros id' Hne. cbn. by rewrite lookup_insert_ne. }
  rewrite mcanon_insert, Hup. split.
  - apply (one_model n _ _ (Model_ID x)); [done| |done|done]. rewrite mcanon_insert, Hup.
    unfold canon_of_model. rewrite Hr. apply step_create; [apply Hp|done|lia].
  - intros Ha. left. eexists. split; [done|]. unfold canon_of_model. cbn.
    rewrite Ha, Hr, bool_decide_eq_true_2 by done. split; [done|lia].
Qed.

Lemma spec_replace_model t t' old x :
  sys_spec t (CatalogOp (CatReplaceModel old x)) = inr t' →
  t_models t !! Model_ID x = Some old ∧
  t' = set_catalog t (t_providers t, <[Model_ID x := x]> (t_models t)).
Proof.
  cbn. unfold spec_ReplaceModel, table_replace. cbn [ident Model_Collection].
  destruct (negb (bool_decide (Model_ID old = _))); [done|]. destruct (negb (bool_decide (Model_Alias old = _))); [done|].
  destruct (t_models t !! Model_ID x) as [c|] eqn:E; [|done]. destruct (negb _ || _) eqn:E'; [done|].
  apply orb_false_iff in E' as [E' _]. apply negb_false_iff, bool_decide_eq_true in E' as ->.
  destruct (backed _ _); [done|]. by intros [= <-].
Qed.

Lemma move_replace_model n t t' old x :
  proto n t → sys_spec t (CatalogOp (CatReplaceModel old x)) = inr t' →
  Model_Revision x = (Model_Revision old + 1)%Z →
  (Model_Status x = StatusActive ∨
   Model_Status x = StatusDisabled ∧ revoked (Model_Revision x) (mproj t (Model_ID x))) →
  moved n t t' ∧
  (Model_Status x = StatusActive →
     may_activate (Model_Revision x) (mcanon t' (Model_ID x)) (mproj t' (Model_ID x))).
Proof.
  intros Hp [Hold ->]%spec_replace_model Hr Hst.
  assert (Hc : mcanon t (Model_ID x) = Some (canon_of_model old)) by (unfold mcanon; by rewrite Hold).
  destruct (models_frame t (t_providers t, <[Model_ID x := x]> (t_models t)) (Model_ID x))
    as (Ho & Hm & Hup). { intros id' Hne. cbn. by rewrite lookup_insert_ne. }
  rewrite mcanon_insert, Hup. split.
  - apply (one_model n _ _ (Model_ID x)); [done| |done|done]. rewrite mcanon_insert, Hup.
    unfold canon_of_model at 1. rewrite Hr.
    change (Model_Revision old) with (c_rev (canon_of_model old)).
    destruct Hst as [Hst|[Hst Hrev]]; rewrite Hst.
    + apply step_replace_active; [apply Hp..|done].
    + apply step_replace_disabled; [apply Hp..|done|]. by rewrite Hr in Hrev.
  - intros Ha. left. eexists. split; [done|]. unfold canon_of_model. cbn.
    rewrite Ha, bool_decide_eq_true_2 by done. split; [done|lia].
Qed.

Lemma move_delete_model n t t' x :
  proto n t → sys_spec t (CatalogOp (CatDeleteModel x)) = inr t' →
  buried (Model_Revision x) (mproj t (Model_ID x)) → moved n t t'.
Proof.
  intros Hp Hsp Hb. cbn in Hsp. unfold spec_DeleteModel, table_delete in Hsp.
  cbn [ident Model_Collection] in Hsp.
  destruct (t_models t !! Model_ID x) as [c|] eqn:E; [|done]. case_bool_decide; [|done].
  subst c. injection Hsp as <-.
  destruct (models_frame t (t_providers t, delete (Model_ID x) (t_models t)) (Model_ID x))
    as (Ho & Hm & Hup). { intros id' Hne. cbn. by rewrite lookup_delete_ne. }
  apply (one_model n _ _ (Model_ID x)); [done| |done|done]. rewrite Hup.
  assert (mcanon (set_catalog t (t_providers t, delete (Model_ID x) (t_models t))) (Model_ID x) = None) as ->.
  { unfold mcanon. cbn. by rewrite lookup_delete_eq. }
  apply step_delete with (canon_of_model x); [apply Hp| |done]. unfold mcanon. by rewrite E.
Qed.

(** ** Subjects of models *)

Lemma proj_after_models t t' id :
  tables_after (t_keys t) (t_keys t') → proj_after (mproj t id) (mproj t' id).
Proof.
  intros [_ Ha] x Hx. unfold mproj in *.
  destruct (model_subjects (t_keys t) !! id) as [s|] eqn:E; [|done]. injection Hx as <-.
  destruct (Ha id s E) as (s' & -> & Hr & Hd & _ & He). exists (proj_of_model s').
  cbn. split_and!; [done..|]. intros E'.
  apply He, modelSubjectPayloadEqual_true in E' as (_ & _ & -> & _ & ->). done.
Qed.

Lemma update_model_proj kt kt' s :
  spec_update_model kt s = inr kt' →
  proj_of_model <$> model_subjects kt' !! MS_ModelID s = Some (proj_of_model s) ∧
  (∀ u, u ≠ MS_ModelID s → model_subjects kt' !! u = model_subjects kt !! u) ∧
  subjects kt' = subjects kt.
Proof.
  unfold spec_update_model, compareModelSubjectUpdate.
  destruct (model_subjects kt !! MS_ModelID s) as [c|] eqn:Hc;
    cbn [stored_model msub_exists msub_value negb].
  - destruct (_ || _); [done|]. destruct (_ <? _)%Z; [done|]. destruct (_ =? _)%Z.
    + destruct (modelSubjectPayloadEqual c s) eqn:E; [|done]. intros [= <-]. split_and!; [|done..].
      rewrite Hc. cbn. unfold proj_of_model.
      by apply modelSubjectPayloadEqual_true in E as (_ & _ & -> & -> & ->).
    + destruct (_ && _); [done|]. intros [= <-]. cbn. rewrite lookup_insert_eq.
      split_and!; [done| |done]. intros u Hu. by rewrite lookup_insert_ne.
  - intros [= <-]. cbn. rewrite lookup_insert_eq.
    split_and!; [done| |done]. intros u Hu. by rewrite lookup_insert_ne.
Qed.

Lemma model_key_moved n t kt' s :
  proto n t → spec_update_model (t_keys t) s = inr kt' →
  (let id := MS_ModelID s in
   proj_after (mproj t id) (Some (proj_of_model s)) →
   step_ok n (mcanon t id) (mproj t id) (mcanon t id) (Some (proj_of_model s))) →
  moved n t (set_key_tables t kt') ∧
  mproj (set_key_tables t kt') (MS_ModelID s) = Some (proj_of_model s).
Proof.
  intros Hp Hsp Hstep. pose proof (update_model_after _ _ _ Hsp) as Ha.
  destruct (update_model_proj _ _ _ Hsp) as (Hs & Ho & Hm).
  assert (Hproj : mproj (set_key_tables t kt') (MS_ModelID s) = Some (proj_of_model s)) by exact Hs.
  split; [|done]. apply (one_model n _ _ (MS_ModelID s)); [done| | |].
  - rewrite Hproj. apply Hstep. rewrite <- Hproj. by apply proj_after_models.
  - intros id' Hne. split; [done|]. unfold mproj. cbn. by rewrite Ho.
  - intros x. split; [done|]. unfold uproj. cbn. by rewrite Hm.
Qed.

Lemma validate_model_deleted s :
  validateModelSubjectPayload s = None → MS_Deleted s = true → MS_Status s = StatusDisabled.
Proof.
  unfold validateModelSubjectPayload. repeat case_match; try done. intros _ Hd.
  rewrite Hd in *. cbn in *. by case_bool_decide.
Qed.

Lemma move_sync_model n t t' s :
  proto n t → sys_spec t (KeyOp (OpSyncModelSubject s)) = inr t' →
  (MS_Status s = StatusActive ∧ may_activate (MS_Revision s) (mcanon t (MS_ModelID s)) (mproj t (MS_ModelID s)) ∨
   MS_Status s = StatusDisabled) →
  moved n t t' ∧
  (MS_Status s = StatusDisabled → revoked (MS_Revision s) (mproj t' (MS_ModelID s))).
Proof.
  intros Hp Hsp Hst. cbn in Hsp. unfold spec_SyncModelSubject, or_err, require in Hsp.
  destruct (validateModelSubjectPayload s) eqn:Hval; [done|].
  destruct (MS_Deleted s) eqn:Hd; [done|]. cbn [negb] in Hsp.
  destruct (spec_update_model (t_keys t) s) as [e|kt'] eqn:Hup; [done|]. injection Hsp as <-.
  destruct (model_key_moved n t kt' s Hp Hup) as [Hm ->].
  { cbn zeta. intros Ha. destruct Hst as [[Hst Hmay]|Hst].
    - apply step_activate; try done; [apply Hp..|]. cbn. by rewrite Hst.
    - apply step_project; [apply Hp..|done|]. cbn. by rewrite Hst. }
  split; [done|]. intros Hdis. eexists. split; [done|]. right. cbn. by rewrite Hdis.
Qed.

Lemma move_fence_model n t t' s :
  proto n t → sys_spec t (KeyOp (OpFenceModelSubject s)) = inr t' →
  moved n t t' ∧ ∀ r, (r < MS_Revision s)%Z → buried r (mproj t' (MS_ModelID s)).
Proof.
  intros Hp Hsp. cbn in Hsp. unfold spec_FenceModelSubject, or_err, require in Hsp.
  destruct (validateModelSubjectPayload s) eqn:Hval; [done|].
  destruct (MS_Deleted s) eqn:Hd; [|done].
  destruct (negb (uses_model (t_keys t) (MS_ModelID s))); [|done].
  destruct (spec_update_model (t_keys t) s) as [e|kt'] eqn:Hup; [done|]. injection Hsp as <-.
  pose proof (validate_model_deleted _ Hval Hd) as Hst.
  destruct (model_key_moved n t kt' s Hp Hup) as [Hm ->].
  { cbn zeta. intros Ha. apply step_project; [apply Hp..|done|]. cbn. by rewrite Hst. }
  split; [done|]. intros r Hr. eexists. split; [done|]. cbn. done.
Qed.

(** ** Calls the protocol does not see *)

Definition provider_op (o : sys_op) : bool :=
  match o with
  | CatalogOp (CatCreateProvider _ | CatReplaceProvider _ _ | CatDeleteProvider _) => true
  | _ => false
  end.
Definition virtual_key_op (o : sys_op) : bool :=
  match o with KeyOp (OpCreateKey _ | OpReplaceKey _ _ | OpDeleteKey _) => true | _ => false end.

Lemma move_provider n t t' o :
  proto n t → provider_op o = true → sys_spec t o = inr t' → moved n t t'.
Proof.
  intros Hp Ho Hsp.
  assert (users_kept t t' ∧ t_models t' = t_models t ∧ t_keys t' = t_keys t) as (Hu & Hm & Hk).
  { destruct o as [|[p|old p|p| | | ]|]; try done;
      cbn [sys_spec catalog_spec fst snd spec_DeleteProvider] in Hsp.
    - destruct (table_create _ _) as [e|pt]; cbn in Hsp; [done|]. by injection Hsp as <-.
    - destruct (table_replace _ _ _) as [e|pt]; cbn in Hsp; [done|]. by injection Hsp as <-.
    - destruct (table_delete _ _) as [e|pt]; cbn in Hsp; [done|].
      destruct (models_of _ _); cbn in Hsp; [done|]. by injection Hsp as <-. }
  apply none_moved; [done|done|]. intros x. unfold mcanon, mproj. by rewrite Hm, Hk.
Qed.

Lemma move_virtual_key n t t' o :
  proto n t → virtual_key_op o = true → sys_spec t o = inr t' → moved n t t'.
Proof.
  intros Hp Ho Hsp.
  assert (t_users t' = t_users t ∧ t_models t' = t_models t ∧
    subjects (t_keys t') = subjects (t_keys t) ∧
    model_subjects (t_keys t') = model_subjects (t_keys t)) as (Hu & Hm & Hs & Hms).
  { destruct o as [| |[| | | |k|old k|k]]; try done; cbn in Hsp;
      unfold spec_CreateVirtualKey, spec_ReplaceVirtualKey, spec_DeleteVirtualKey, spec_models,
        require, or_err in Hsp; repeat case_match; try done; cbn in Hsp; simplify_eq; done. }
  apply none_moved; [done|..]; intros x; unfold ucanon, uproj, mcanon, mproj;
    by rewrite ?Hu, ?Hm, ?Hs, ?Hms.
Qed.
