(* ===== verification/ServiceFacts.v ===== *)
(** * Inputs and records of the services

    What normalisation guarantees, and that every record a service builds from
    a valid input can be stored. *)

From stdpp Require Import sorting.
From S2P Require Import Prelude GoStd Json GoText GoTime Errors State Model Repository Collections.
From S2P Require Import Directory ModelRepository KeyRepository KeyFacts ETag Svc Service KeyService.

#[local] Arguments bool_decide : simpl never.

(** ** Checks *)

Lemma checked_ok {A} checks (a b : A) :
  checked checks a = inr b → b = a ∧ ∀ e, e ∈ checks → e = None.
Proof.
  unfold checked. destruct (first_some id checks) eqn:E; [done|]. intros [= <-]. split; [done|].
  induction checks as [|c checks IH]; intros e He; [by apply elem_of_nil in He|].
  cbn in E. destruct c; [done|]. apply elem_of_cons in He as [->|He]; [done|]. by apply IH.
Qed.

Lemma refuse_None c e : refuse c e = None → c = false.
Proof. by destruct c. Qed.

Lemma validateStatus_ok st :
  validateStatus st = None → st = StatusActive ∨ st = StatusDisabled.
Proof.
  unfold validateStatus, validStatus. destruct (bool_decide _) eqn:E; [apply bool_decide_eq_true in E; auto|].
  destruct (bool_decide (st = StatusDisabled)) eqn:E'; [apply bool_decide_eq_true in E'; auto|done].
Qed.

Lemma valid_text st : st = StatusActive ∨ st = StatusDisabled → text_ok st.
Proof. by intros [-> | ->]. Qed.

(** ** Valid inputs: text as the JSON decoder delivers it *)

Definition UserInput_ok (i : UserInput) : Prop := text_ok (UI_Name i) ∧ text_ok (UI_Email i).
Definition ProviderInput_ok (i : ProviderInput) : Prop :=
  text_ok (PI_Slug i) ∧ text_ok (PI_Name i) ∧ text_ok (PI_Kind i) ∧ text_ok (PI_AdapterAppID i).
Definition ModelInput_ok (i : ModelInput) : Prop :=
  text_ok (MI_Alias i) ∧ text_ok (MI_ProviderID i) ∧ text_ok (MI_UpstreamModel i).
Definition VirtualKeyInput_ok (i : VirtualKeyInput) : Prop :=
  text_ok (VI_Name i) ∧ text_ok (VI_UserID i) ∧ Forall text_ok (VI_ModelIDs i) ∧
  match VI_ExpiresAt i with Some t => time_ok t | None => True end.

Definition one_status (st : Status) : Prop := st = StatusActive ∨ st = StatusDisabled.

Lemma normalizeUserInput_ok i j :
  UserInput_ok i → normalizeUserInput i = inr j →
  text_ok (UI_Name j) ∧ text_ok (UI_Email j) ∧ one_status (UI_Status j).
Proof.
  intros [Hn He] [-> Hc]%checked_ok. cbn. split_and!.
  - by apply TrimSpace_valid.
  - by apply TrimSpace_valid, ToLower_valid.
  - apply validateStatus_ok, Hc. set_solver.
Qed.

Lemma normalizeProviderInput_ok i j :
  ProviderInput_ok i → normalizeProviderInput i = inr j →
  text_ok (PI_Slug j) ∧ text_ok (PI_Name j) ∧ text_ok (PI_Kind j) ∧ text_ok (PI_AdapterAppID j) ∧
  one_status (PI_Status j).
Proof.
  intros (Hs & Hn & Hk & Ha) [-> Hc]%checked_ok. cbn. split_and!.
  - by apply TrimSpace_valid.
  - by apply TrimSpace_valid.
  - by apply ToLower_valid, TrimSpace_valid.
  - by apply TrimSpace_valid.
  - apply validateStatus_ok, Hc. set_solver.
Qed.

(** ** Storable records *)

Lemma uint64_1 : uint64_ok 1.
Proof. done. Qed.

Lemma new_user_storable id i n :
  text_ok id → text_ok (UI_Name i) → text_ok (UI_Email i) → one_status (UI_Status i) → time_ok n →
  storable (new_user id i n).
Proof. intros. repeat (split; [try done; by apply valid_text|]). done. Qed.

Lemma updated_user_storable old i n :
  storable old → text_ok (UI_Name i) → text_ok (UI_Email i) → one_status (UI_Status i) → time_ok n →
  storable (updated_user old i n).
Proof.
  intros (Hid & _ & _ & _ & _ & Hc & _) ? ? ? ?. split_and!; try done; [by apply valid_text|].
  cbn. apply Z.mod_pos_bound. done.
Qed.

Lemma subjectForUser_storable u d : storable u → storable (subjectForUser u d).
Proof. intros (? & ? & ? & ? & ? & ? & ?). destruct d; by split_and!. Qed.

Lemma fence_user_storable u n : storable u → time_ok n → storable (fence_user u n).
Proof.
  intros (? & ? & ? & ? & ? & ? & ?) ?. split_and!; try done. cbn. by apply Z.mod_pos_bound.
Qed.

Lemma new_provider_storable id i n :
  text_ok id → text_ok (PI_Slug i) → text_ok (PI_Name i) → text_ok (PI_Kind i) →
  text_ok (PI_AdapterAppID i) → one_status (PI_Status i) → time_ok n →
  storable (new_provider id i n).
Proof. intros. split_and!; try done. by apply valid_text. Qed.

Lemma updated_provider_storable old i n :
  storable old → text_ok (PI_Name i) → text_ok (PI_Kind i) → one_status (PI_Status i) → time_ok n →
  storable (updated_provider old i n).
Proof.
  intros (? & ? & ? & ? & ? & ? & ? & ?) ? ? ? ?. split_and!; try done. by apply valid_text.
Qed.

Lemma new_model_storable id i n :
  text_ok id → text_ok (MI_Alias i) → text_ok (MI_ProviderID i) → text_ok (MI_UpstreamModel i) →
  one_status (MI_Status i) → time_ok n → storable (new_model id i n).
Proof. intros. split_and!; try done. by apply valid_text. Qed.

Lemma updated_model_storable old i n :
  storable old → text_ok (MI_ProviderID i) → text_ok (MI_UpstreamModel i) →
  one_status (MI_Status i) → time_ok n → storable (updated_model old i n).
Proof.
  intros (? & ? & ? & ? & ? & ? & ? & ?) ? ? ? ?. split_and!; try done; [by apply valid_text|].
  cbn. by apply Z.mod_pos_bound.
Qed.

Lemma fence_model_storable x n : storable x → time_ok n → storable (fence_model x n).
Proof.
  intros (? & ? & ? & ? & ? & ? & ? & ?) ?. split_and!; try done. cbn. by apply Z.mod_pos_bound.
Qed.

Lemma modelSubjectFor_storable x d : storable x → storable (modelSubjectFor x d).
Proof. intros (? & ? & ? & ? & ? & ? & ? & ?). destruct d; by split_and!. Qed.

(** The text of a secret is ASCII, and so is its prefix. *)
Lemma substring_bytes n s :
  forallb (λ c, byte_val c <? 128)%N (bytes_of s) = true →
  forallb (λ c, byte_val c <? 128)%N (bytes_of (String.substring 0 n s)) = true.
Proof.
  revert n. induction s as [|c s IH]; intros [|n]; cbn; try done.
  intros [Hc Hs]%andb_true_iff. by rewrite Hc, IH.
Qed.

Definition ascii_text (s : string) : Prop := forallb (λ c, byte_val c <? 128)%N (bytes_of s) = true.

Lemma new_key_storable id secret i n :
  text_ok id → ascii_text secret → VirtualKeyInput_ok i → one_status (VI_Status i) → time_ok n →
  storable (new_key id secret i n).
Proof.
  intros Hid Hsec (Hn & Hu & Hm & He) Hst Ht. split_and!; try done.
  - by apply ascii_runes, substring_bytes.
  - apply ascii_runes. by apply sha256_hex_text.
  - by apply valid_text.
Qed.

Lemma updated_key_storable old i n :
  storable old → VirtualKeyInput_ok i → one_status (VI_Status i) → time_ok n →
  storable (updated_key old i n).
Proof.
  intros (? & ? & ? & ? & ? & ? & ? & ? & ? & ?) (Hn & Hu & Hm & He) Hst Ht.
  split_and!; try done. by apply valid_text.
Qed.
