(* ===== verification/ServiceSafety.v ===== *)
(** * The service operations keep the protocol

    The registries, direct and remote, do what the virtual-key control plane
    does or report an error; and every operation of [ResourceService] and of
    [VirtualKeyService] meets its obligation [safe]: whatever else runs and
    whatever fails, its calls are moves of the protocol. *)

From stdpp Require Import sorting.
From S2P Require Import Prelude GoStd Json GoText GoTime Errors State Model Repository Collections.
From S2P Require Import Directory ModelRepository KeyRepository KeyFacts ETag Svc Faults Protocol.
From S2P Require Import System Interleave Service KeyService Registry ServiceFacts.

#[local] Arguments bool_decide : simpl never.

(** ** Registries *)

Section registries.
Context {S : Type} `{StateStoreLaws S}.

Class SubjectRegistryLaws (r : SubjectRegistry) : Prop := {
  sync_behaves s : storable s → behaves (reg_SyncSubject s) (KeyOp (OpSyncSubject s));
  fence_behaves s : storable s → behaves (reg_FenceSubject s) (KeyOp (OpFenceSubject s))
}.
Class ModelRegistryLaws (r : ModelRegistry) : Prop := {
  sync_model_behaves s : storable s → behaves (reg_SyncModel s) (KeyOp (OpSyncModelSubject s));
  fence_model_behaves s : storable s → behaves (reg_FenceModel s) (KeyOp (OpFenceModelSubject s))
}.

Lemma behaves_fail e o : behaves (fail e) o.
Proof. intros w r w' [-> ->]%exec_Done. left. split; [done|by eexists]. Qed.

#[export] Instance direct_subjects_laws : SubjectRegistryLaws (direct_subjects KeyState).
Proof.
  split; intros s _; [apply (behaves_self (KeyOp (OpSyncSubject s)))|].
  cbn. unfold KeyService.FenceSubject. destruct (negb (KS_Deleted s)); [apply behaves_fail|].
  apply (behaves_self (KeyOp (OpFenceSubject s))).
Qed.

#[export] Instance direct_models_laws : ModelRegistryLaws (direct_models KeyState).
Proof.
  split; intros s _; [apply (behaves_self (KeyOp (OpSyncModelSubject s)))|].
  cbn. unfold KeyService.FenceModel. destruct (negb (MS_Deleted s)); [apply behaves_fail|].
  apply (behaves_self (KeyOp (OpFenceModelSubject s))).
Qed.

(** The route of the virtual-key control plane for an internal method
    ([virtual_key_http.go]). *)
Definition internal_route (method : string) (input : payload) : option sys_op :=
  match input with
  | PSubject s =>
      if bool_decide (method = "/internal/v1/subjects/sync") then Some (KeyOp (OpSyncSubject s))
      else if bool_decide (method = "/internal/v1/subjects/fence") then
        Some (KeyOp (OpFenceSubject s))
      else None
  | PModel s =>
      if bool_decide (method = "/internal/v1/model-subjects/sync") then
        Some (KeyOp (OpSyncModelSubject s))
      else if bool_decide (method = "/internal/v1/model-subjects/fence") then
        Some (KeyOp (OpFenceModelSubject s))
      else None
  end.

(** A call on a subject that JSON represents exactly. *)
Definition subject_ok (input : payload) : Prop :=
  match input with PSubject s => storable s | PModel s => storable s end.

(** What an invoker may do for an application: run the route at most once, and
    report success only when it ran and succeeded. *)
Definition invoker_ok (f : JSONInvoker) (app : string) : Prop :=
  ∀ method input o, subject_ok input → internal_route method input = Some o →
    behaves (f app method input) o.

Lemma invoke_behaves r method input resource o :
  (∀ x f, r = Some x → invoker x = Some f → invoker_ok f (appID x)) →
  subject_ok input → internal_route method input = Some o →
  behaves (invoke r method input resource) o.
Proof.
  intros Hr Hi Ho. unfold invoke. destruct r as [[[f|] app]|]; try apply behaves_fail.
  destruct (bool_decide _); [apply behaves_fail|]. apply behaves_wrap.
  by apply (Hr {| invoker := Some f; appID := app |} f).
Qed.

Section remote.
Context (r : option RemoteSubjectRegistry).
Context (Hr : ∀ x f, r = Some x → invoker x = Some f → invoker_ok f (appID x)).

Lemma remote_subjects_laws : SubjectRegistryLaws (remote_subjects r).
Proof. split; intros s Hs; by apply invoke_behaves. Qed.
Lemma remote_models_laws : ModelRegistryLaws (remote_models r).
Proof. split; intros s Hs; by apply invoke_behaves. Qed.
End remote.
End registries.

(** ** Small calls *)

Section calls.
Context {S : Type} `{StateStoreLaws S}.
Implicit Types (P : tables → Prop).

Lemma safe_NewID prefix P :
  text_ok prefix → stable P → safe (call (NewID prefix)) P (λ id t, text_ok id ∧ P t).
Proof.
  intros Hpre HP. apply safe_same. intros n t w r w' Hi Hpr HPt He.
  apply exec_random_inv in He as [(b & _ & Hb & He)|[e He]];
    apply exec_Done in He as [-> ->]; (split; [done|]).
  - exists P. split_and!; [done..|]. cbn. intros t' Ht'. split; [|done].
    apply valid_utf8_app; [done|]. apply (valid_utf8_app "_"); [by vm_compute|by apply hex_valid].
  - exists P. by split_and!.
Qed.

Lemma safe_generateKey P :
  stable P → safe (call generateKey) P (λ secret t, ascii_text secret ∧ P t).
Proof.
  intros HP. apply safe_same. intros n t w r w' Hi Hpr HPt He.
  apply exec_random_inv in He as [(b & _ & Hb & He)|[e He]];
    apply exec_Done in He as [-> ->]; (split; [done|]).
  - exists P. split_and!; [done..|]. cbn. intros t' Ht'. split; [|done].
    unfold ascii_text. rewrite bytes_of_app, forallb_app, RawURLEncode_ascii by done. done.
  - exists P. by split_and!.
Qed.

(** Records read from the stores. *)
Definition user_read (id : string) (u : User) : Prop :=
  storable u ∧ User_ID u = id ∧ (1 <= User_Revision u)%Z ∧ (User_Revision u + 1 < two64)%Z.
Definition model_read (id : string) (x : Model) : Prop :=
  storable x ∧ Model_ID x = id ∧ (1 <= Model_Revision x)%Z ∧ (Model_Revision x + 1 < two64)%Z.

Lemma safe_GetUser id P :
  stable P → safe (call (Repository.GetUser ControlState id)) P (λ u t, user_read id u ∧ P t).
Proof.
  intros HP. apply safe_reads; [apply reads_getResource|done|].
  intros env n t w u Hn Hi Hpr _ Hu. rewrite (run_GetUser env _ w (t_users t)) in Hu by apply Hi.
  destruct (t_users t !! id) as [v|] eqn:E; [|done]. injection Hu as ->.
  destruct (ci_ok _ _ (si_users _ _ Hi) id u E) as [Hid Hs]. split_and!; [done..| |].
  all: destruct (pr_user_rev _ _ Hpr id (canon_of_user u)) as [H1 H2];
    [unfold ucanon; by rewrite E|cbn in *; lia].
Qed.

Lemma safe_GetProvider id P :
  stable P → safe (call (Repository.GetProvider ProviderState id)) P (λ p t, storable p ∧ P t).
Proof.
  intros HP. apply safe_reads; [apply reads_getResource|done|].
  intros env n t w p Hn Hi Hpr _ Hp.
  pose proof (cat_providers _ _ _ (si_catalog _ _ Hi)) as Hc.
  pose proof (run_get_entity (T := Provider) env w _ _ id Hc) as Hg.
  unfold Repository.GetProvider in Hp. cbn [coll_name Provider_Collection] in Hg.
  rewrite Hg in Hp. destruct (t_providers t !! id) as [q|] eqn:E; [|done]. injection Hp as ->.
  by destruct (ci_ok _ _ Hc id p E).
Qed.

Lemma safe_GetModel id P :
  stable P → safe (call (ModelRepository.GetModel ProviderState id)) P
    (λ x t, model_read id x ∧ P t).
Proof.
  intros HP. apply safe_reads; [apply reads_getResource|done|].
  intros env n t w x Hn Hi Hpr _ Hx.
  pose proof (cat_models _ _ _ (si_catalog _ _ Hi)) as Hc.
  pose proof (run_get_entity (T := Model) env w _ _ id Hc) as Hg.
  unfold ModelRepository.GetModel in Hx. cbn [coll_name Model_Collection] in Hg.
  rewrite Hg in Hx. destruct (t_models t !! id) as [y|] eqn:E; [|done]. injection Hx as ->.
  destruct (ci_ok _ _ Hc id x E) as [Hid Hs]. split_and!; [done..| |].
  all: destruct (pr_model_rev _ _ Hpr id (canon_of_model x)) as [H1 H2];
    [unfold mcanon; by rewrite E|cbn in *; lia].
Qed.

Lemma safe_GetVirtualKey id P :
  stable P → safe (call (KeyRepository.GetVirtualKey KeyState id)) P (λ k t, storable k ∧ P t).
Proof.
  intros HP. apply safe_reads; [apply reads_getResource|done|].
  intros env n t w k Hn Hi Hpr _ Hk. rewrite (run_GetVirtualKey env w _ (t_keys t)) in Hk by apply Hi.
  destruct (keys (t_keys t) !! id) as [k'|] eqn:E; [|done]. injection Hk as ->.
  by destruct (ci_ok _ _ (ki_keys _ _ (si_keys _ _ Hi)) id k E).
Qed.
End calls.

(** Run the next call, then keep what it gives outside of the assertion. *)
Tactic Notation "next" ident(x) simple_intropattern(Hx) "by" tactic3(tac) :=
  eapply safe_bind; [tac|intros x; apply safe_pure; intros Hx].

(** ** Users *)

Definition anything : tables → Prop := λ _, True.
Lemma stable_anything : stable anything.
Proof. by intros t t'. Qed.
#[export] Hint Resolve stable_anything : stable.

Lemma stable_impl (φ : Prop) P : stable P → stable (λ t, φ → P t).
Proof. intros HP t t' Hg Ht Hφ. eapply HP; [done|auto]. Qed.
#[export] Hint Resolve stable_impl : stable.

Section operations.
Context {S : Type} `{StateStoreLaws S}.
Context (subj : SubjectRegistry) (Hsubj : SubjectRegistryLaws (S := S) subj).
Context (mods : option ModelRegistry) (Hmods : ∀ m, mods = Some m → ModelRegistryLaws (S := S) m).

(** The services as the control planes wire them. *)
Definition resource_service : ResourceService := {|
  users := ControlState; providers := ProviderState; models := ProviderState;
  Service.subjects := subj; modelSubjects := mods
|}.

Abbreviation safe := (safe (S := S)).

(** A subject synchronised at [r], as the operation goes on. *)
Lemma safe_sync_user (s : KeySubject) (P : tables → Prop) f :
  storable s → one_status (KS_Status s) → stable P →
  (∀ t, P t → KS_Status s = StatusActive →
     may_activate (KS_Revision s) (ucanon t (KS_UserID s)) (uproj t (KS_UserID s))) →
  safe (svc_wrap_err f (call (SyncSubject_of resource_service s))) P
    (λ _ t, P t ∧ (KS_Status s = StatusDisabled → revoked (KS_Revision s) (uproj t (KS_UserID s)))).
Proof.
  intros Hs Hst HP Hmay. apply safe_wrap_err.
  apply (safe_op _ (KeyOp (OpSyncSubject s))).
  - by apply sync_behaves.
  - done.
  - auto with stable.
  - intros n t t' _ _ Hpr HPt Hsp. destruct (move_sync_subject n t t' s Hpr Hsp) as [[Hp' Hg] Hrev].
    { destruct Hst as [Hst|Hst]; [left|by right]. split; [done|]. by apply Hmay. }
    refine (conj Hp' (conj Hg (conj _ Hrev))). by eapply HP.
Qed.

Lemma safe_CreateUser i :
  UserInput_ok i → safe (Service.CreateUser resource_service i) anything
    (λ u t, User_Status u = StatusDisabled → revoked 1 (uproj t (User_ID u))).
Proof.
  intros Hi. unfold Service.CreateUser.
  next j Hj by (apply (safe_returned _ _ (λ j t, normalizeUserInput i = inr j ∧ anything t)); auto).
  destruct (normalizeUserInput_ok i j Hi Hj) as (Hn & He & Hst).
  next id Hid by (apply safe_NewID; [by vm_compute|auto with stable]).
  next now Hnow by (apply safe_now; auto with stable).
  set (u := new_user id j now).
  assert (Hu : storable u) by by apply new_user_storable.
  eapply (safe_bind _ _ _ (λ _ t, User_Status u = StatusActive →
    may_activate 1 (ucanon t (User_ID u)) (uproj t (User_ID u)))).
  - apply (safe_op _ (UserOp (OpCreate u))); [apply (behaves_self (UserOp (OpCreate u)))|done|auto with stable|].
    intros n t t' Hn0 _ Hpr _ Hsp.
    destruct (move_create_user n t t' u Hpr Hn0 Hsp eq_refl) as [[? ?] ?]. done.
  - intros ?. eapply safe_bind.
    + apply (safe_sync_user (subjectForUser u false)); [by apply subjectForUser_storable|done|..].
      * auto with stable.
      * intros t Ht. exact Ht.
    + intros ?. apply safe_ret. intros t [_ Ht]. exact Ht.
Qed.

Lemma safe_updateUser id i c :
  UserInput_ok i → safe (updateUser resource_service id i c) anything
    (λ u t, User_ID u = id ∧
       (User_Status u = StatusDisabled → revoked (User_Revision u) (uproj t id))).
Proof.
  intros Hi. unfold updateUser.
  next old (Hold & Hid & Hr1 & Hr2) by (apply safe_GetUser; auto with stable).
  next u0 Hc by (apply safe_ensure). next u1 Hs by (apply safe_ensure).
  next j Hj by (apply (safe_returned _ _ (λ j t, normalizeUserInput i = inr j ∧ anything t)); auto).
  destruct (normalizeUserInput_ok i j Hi Hj) as (Hn & He & Hst).
  next now Hnow by (apply safe_now; auto with stable).
  set (u := updated_user old j now).
  assert (Hu : storable u) by by apply updated_user_storable.
  assert (Hrev : User_Revision u = (User_Revision old + 1)%Z).
  { cbn. unfold uint64. apply Z.mod_small. lia. }
  assert (HuID : User_ID u = id) by done.
  eapply (safe_bind _ _ _ (λ _ t, User_Status u = StatusDisabled →
    revoked (User_Revision u) (uproj t (User_ID u)))).
  { destruct (bool_decide (User_Status u = StatusDisabled)) eqn:Hd;
      [apply bool_decide_eq_true in Hd|apply bool_decide_eq_false in Hd; by apply safe_ret].
    eapply safe_post; [|apply (safe_sync_user (subjectForUser u false) anything)].
    - intros _ t [_ Ht]. exact Ht.
    - by apply subjectForUser_storable.
    - done.
    - auto with stable.
    - intros t _ Ha. change (User_Status u = StatusActive) in Ha. by rewrite Hd in Ha. }
  intros ?.
  eapply (safe_bind _ _ _ (λ _ t,
    (User_Status u = StatusActive →
       may_activate (User_Revision u) (ucanon t (User_ID u)) (uproj t (User_ID u))) ∧
    (User_Status u = StatusDisabled → revoked (User_Revision u) (uproj t (User_ID u))))).
  { apply (safe_op _ (UserOp (OpReplace old u)));
      [apply (behaves_self (UserOp (OpReplace old u)))|done|auto with stable|].
    intros n t t' _ _ Hpr Ht Hsp.
    destruct (move_replace_user n t t' old u Hpr Hsp Hrev) as [[Hp' Hg] Hmay].
    { destruct Hst as [Hst|Hst]; [by left|right; split; [done|by apply Ht]]. }
    refine (conj Hp' (conj Hg (conj Hmay _))). intros Hd.
    eapply (stable_user_revoked _ _ t t' Hg). by apply Ht. }
  intros ?. eapply (safe_bind _ _ _ (λ _ t, User_Status u = StatusDisabled →
    revoked (User_Revision u) (uproj t (User_ID u)))).
  { destruct (bool_decide (User_Status u = StatusActive)) eqn:Ha;
      [apply bool_decide_eq_true in Ha|apply safe_ret; by intros t [_ ?]].
    eapply safe_mono, (safe_post _ _ (λ _ _, True)).
    - intros t [Ht _]. exact Ht.
    - intros _ t _ Hd. by rewrite Ha in Hd.
    - eapply safe_post; [done|]. apply (safe_sync_user (subjectForUser u false)).
      + by apply subjectForUser_storable.
      + done.
      + auto with stable.
      + intros t Ht. exact Ht. }
  intros ?. apply safe_ret. intros t Ht. by rewrite <- HuID.
Qed.

Lemma buried_le r r' p : (r' <= r)%Z → buried r p → buried r' p.
Proof. intros Hr (x & Hx & Hd & Hlt). exists x. split_and!; [done..|lia]. Qed.

Lemma safe_deleteUser id c :
  safe (deleteUser resource_service id c) anything (λ _ t, buried 1 (uproj t id)).
Proof.
  unfold deleteUser.
  next user (Hold & Hid & Hr1 & Hr2) by (apply safe_GetUser; auto with stable).
  next u0 Hc by (apply safe_ensure).
  next now Hnow by (apply safe_now; auto with stable).
  set (s := subjectForUser (fence_user user now) true).
  assert (Hs : storable s) by by apply subjectForUser_storable, fence_user_storable.
  assert (Hrev : (User_Revision user < KS_Revision s)%Z).
  { cbn. unfold uint64. rewrite Z.mod_small; lia. }
  eapply (safe_bind _ _ _ (λ _ t, buried (User_Revision user) (uproj t id))).
  - apply (safe_op _ (KeyOp (OpFenceSubject s))); [by apply fence_behaves|done|auto with stable|].
    intros n t t' _ _ Hpr _ Hsp. destruct (move_fence_subject n t t' s Hpr Hsp) as [[Hp' Hg] Hb].
    refine (conj Hp' (conj Hg _)). rewrite <- Hid. by apply (Hb (User_Revision user)).
  - intros ?. eapply safe_post; [|apply (safe_op _ (UserOp (OpDelete user)) _
      (λ _ t, buried (User_Revision user) (uproj t id)))].
    + intros ? t. by apply buried_le.
    + apply (behaves_self (UserOp (OpDelete user))).
    + done.
    + auto with stable.
    + intros n t t' _ _ Hpr Hb Hsp. subst id.
      destruct (move_delete_user n t t' user Hpr Hsp Hb) as [Hp' Hg].
      refine (conj Hp' (conj Hg _)). by eapply (stable_user_buried _ _ t t' Hg).
Qed.

(** Operations that do not change users or models. *)
Lemma safe_provider_op o P (Φ : unit → tables → Prop) :
  provider_op o = true → sys_op_ok o → stable (Φ tt) → (∀ t, P t → Φ tt t) → stable P →
  safe (call (sys_prog o)) P Φ.
Proof.
  intros Hp Ho HΦ HPΦ HP. apply (safe_op _ o); [apply behaves_self|done|done|].
  intros n t t' _ _ Hpr HPt Hsp. destruct (move_provider n t t' o Hpr Hp Hsp) as [Hp' Hg].
  refine (conj Hp' (conj Hg _)). apply HPΦ. by eapply HP.
Qed.

Lemma safe_virtual_key_op o :
  virtual_key_op o = true → sys_op_ok o → safe (call (sys_prog o)) anything (λ _, anything).
Proof.
  intros Hp Ho. apply (safe_op _ o); [apply behaves_self|done|auto with stable|].
  intros n t t' _ _ Hpr HPt Hsp. destruct (move_virtual_key n t t' o Hpr Hp Hsp) as [Hp' Hg].
  done.
Qed.

(** *** Providers *)

Lemma safe_CreateProvider i :
  ProviderInput_ok i → safe (Service.CreateProvider resource_service i) anything (λ _, anything).
Proof.
  intros Hi. unfold Service.CreateProvider.
  next j Hj by (apply (safe_returned _ _ (λ j t, normalizeProviderInput i = inr j ∧ anything t)); auto).
  destruct (normalizeProviderInput_ok i j Hi Hj) as (Hs & Hn & Hk & Ha & Hst).
  next id Hid by (apply safe_NewID; [by vm_compute|auto with stable]).
  next now Hnow by (apply safe_now; auto with stable).
  eapply safe_bind; [|intros ?; by apply safe_ret].
  apply (safe_provider_op (CatalogOp (CatCreateProvider (new_provider id j now))) _ (λ _, anything));
    try done. by apply new_provider_storable.
Qed.

Lemma safe_updateProvider id i c :
  ProviderInput_ok i → safe (updateProvider resource_service id i c) anything (λ _, anything).
Proof.
  intros Hi. unfold updateProvider.
  next old Hold by (apply safe_GetProvider; auto with stable).
  next u0 Hc by (apply safe_ensure).
  next j Hj by (apply (safe_returned _ _ (λ j t, normalizeProviderInput i = inr j ∧ anything t)); auto).
  destruct (normalizeProviderInput_ok i j Hi Hj) as (Hs & Hn & Hk & Ha & Hst).
  next u1 Hc1 by (apply safe_ensure). next u2 Hc2 by (apply safe_ensure).
  next now Hnow by (apply safe_now; auto with stable).
  eapply safe_bind; [|intros ?; by apply safe_ret].
  apply (safe_provider_op (CatalogOp (CatReplaceProvider old (updated_provider old j now))) _
    (λ _, anything)); try done. by apply updated_provider_storable.
Qed.

Lemma safe_deleteProvider id c :
  safe (deleteProvider resource_service id c) anything (λ _, anything).
Proof.
  unfold deleteProvider. next p Hp by (apply safe_GetProvider; auto with stable).
  next u0 Hc by (apply safe_ensure).
  by apply (safe_provider_op (CatalogOp (CatDeleteProvider p)) _ (λ _, anything)).
Qed.

(** *** Models *)

Lemma safe_normalizeModelInput i :
  ModelInput_ok i → safe (normalizeModelInput resource_service i) anything
    (λ j t, (text_ok (MI_Alias j) ∧ text_ok (MI_ProviderID j) ∧ text_ok (MI_UpstreamModel j) ∧
       one_status (MI_Status j)) ∧ anything t).
Proof.
  intros (Ha & Hp & Hu). unfold normalizeModelInput.
  next u1 Hc1 by (apply safe_ensure). next u2 Hc2 by (apply safe_ensure).
  next u3 Hc3 by (apply safe_ensure).
  eapply (safe_bind _ _ _ (λ _, anything)).
  { apply (safe_reads_then _ _ _ (λ _, True)); [apply reads_getResource|auto with stable|done| |done].
    intros e. cbn. by destruct (errors_Is e NotFound). }
  intros p. next u4 Hc4 by (apply safe_ensure). next u5 Hc5 by (apply safe_ensure).
  next u6 Hc6 by (apply safe_ensure). apply safe_ret. intros t _. cbn.
  refine (conj (conj _ (conj _ (conj _ _))) I);
    [by apply TrimSpace_valid..|by apply validateStatus_ok].
Qed.

Lemma safe_registry format P :
  safe (registry resource_service format) P (λ m t, mods = Some m ∧ P t).
Proof. unfold registry. cbn [modelSubjects resource_service]. by destruct mods. Qed.

Lemma safe_sync_model m (s : ModelSubject) (P : tables → Prop) f :
  mods = Some m → storable s → one_status (MS_Status s) → stable P →
  (∀ t, P t → MS_Status s = StatusActive →
     may_activate (MS_Revision s) (mcanon t (MS_ModelID s)) (mproj t (MS_ModelID s))) →
  safe (svc_wrap_err f (call (@reg_SyncModel m s))) P
    (λ _ t, P t ∧ (MS_Status s = StatusDisabled → revoked (MS_Revision s) (mproj t (MS_ModelID s)))).
Proof.
  intros Hm Hs Hst HP Hmay. apply safe_wrap_err.
  apply (safe_op _ (KeyOp (OpSyncModelSubject s))).
  - pose proof (Hmods m Hm). by apply sync_model_behaves.
  - done.
  - auto with stable.
  - intros n t t' _ _ Hpr HPt Hsp. destruct (move_sync_model n t t' s Hpr Hsp) as [[Hp' Hg] Hrev].
    { destruct Hst as [Hst|Hst]; [left|by right]. split; [done|]. by apply Hmay. }
    refine (conj Hp' (conj Hg (conj _ Hrev))). by eapply HP.
Qed.

Lemma safe_CreateModel i :
  ModelInput_ok i → safe (Service.CreateModel resource_service i) anything
    (λ x t, Model_Status x = StatusDisabled → revoked 1 (mproj t (Model_ID x))).
Proof.
  intros Hi. unfold Service.CreateModel.
  next j (Ha & Hp & Hu & Hst) by (by apply safe_normalizeModelInput).
  next id Hid by (apply safe_NewID; [by vm_compute|auto with stable]).
  next now Hnow by (apply safe_now; auto with stable).
  set (x := new_model id j now).
  assert (Hx : storable x) by by apply new_model_storable.
  eapply (safe_bind _ _ _ (λ _ t, Model_Status x = StatusActive →
    may_activate 1 (mcanon t (Model_ID x)) (mproj t (Model_ID x)))).
  - apply (safe_op _ (CatalogOp (CatCreateModel x)));
      [apply (behaves_self (CatalogOp (CatCreateModel x)))|done|auto with stable|].
    intros n t t' Hn0 _ Hpr _ Hsp.
    destruct (move_create_model n t t' x Hpr Hn0 Hsp eq_refl) as [[? ?] ?]. done.
  - intros ?. next m Hm by (apply safe_registry). eapply safe_bind.
    + apply (safe_sync_model m (modelSubjectFor x false)); [done|by apply modelSubjectFor_storable|done|..].
      * auto with stable.
      * intros t Ht. exact Ht.
    + intros ?. apply safe_ret. intros t [_ Ht]. exact Ht.
Qed.

Lemma safe_updateModel id i c :
  ModelInput_ok i → safe (updateModel resource_service id i c) anything
    (λ x t, Model_ID x = id ∧
       (Model_Status x = StatusDisabled → revoked (Model_Revision x) (mproj t id))).
Proof.
  intros Hi. unfold updateModel.
  next old (Hold & Hid & Hr1 & Hr2) by (apply safe_GetModel; auto with stable).
  next u0 Hc by (apply safe_ensure). next u1 Hs by (apply safe_ensure).
  next j (Hal & Hpi & Hup & Hst) by (by apply safe_normalizeModelInput).
  next u2 Hc2 by (apply safe_ensure).
  next now Hnow by (apply safe_now; auto with stable).
  next m Hm by (apply safe_registry).
  set (x := updated_model old j now).
  assert (Hx : storable x) by by apply updated_model_storable.
  assert (Hrev : Model_Revision x = (Model_Revision old + 1)%Z).
  { cbn. unfold uint64. apply Z.mod_small. lia. }
  assert (HxID : Model_ID x = id) by done.
  eapply (safe_bind _ _ _ (λ _ t, Model_Status x = StatusDisabled →
    revoked (Model_Revision x) (mproj t (Model_ID x)))).
  { destruct (bool_decide (Model_Status x = StatusDisabled)) eqn:Hd;
      [apply bool_decide_eq_true in Hd|apply bool_decide_eq_false in Hd; by apply safe_ret].
    eapply safe_post; [|apply (safe_sync_model m (modelSubjectFor x false) anything)].
    - intros _ t [_ Ht]. exact Ht.
    - done.
    - by apply modelSubjectFor_storable.
    - done.
    - auto with stable.
    - intros t _ Ha. change (Model_Status x = StatusActive) in Ha. by rewrite Hd in Ha. }
  intros ?.
  eapply (safe_bind _ _ _ (λ _ t,
    (Model_Status x = StatusActive →
       may_activate (Model_Revision x) (mcanon t (Model_ID x)) (mproj t (Model_ID x))) ∧
    (Model_Status x = StatusDisabled → revoked (Model_Revision x) (mproj t (Model_ID x))))).
  { apply (safe_op _ (CatalogOp (CatReplaceModel old x)));
      [apply (behaves_self (CatalogOp (CatReplaceModel old x)))|done|auto with stable|].
    intros n t t' _ _ Hpr Ht Hsp.
    destruct (move_replace_model n t t' old x Hpr Hsp Hrev) as [[Hp' Hg] Hmay].
    { destruct Hst as [Hst|Hst]; [by left|right; split; [done|by apply Ht]]. }
    refine (conj Hp' (conj Hg (conj Hmay _))). intros Hd.
    eapply (stable_model_revoked _ _ t t' Hg). by apply Ht. }
  intros ?. eapply (safe_bind _ _ _ (λ _ t, Model_Status x = StatusDisabled →
    revoked (Model_Revision x) (mproj t (Model_ID x)))).
  { destruct (bool_decide (Model_Status x = StatusActive)) eqn:Ha;
      [apply bool_decide_eq_true in Ha|apply safe_ret; by intros t [_ ?]].
    eapply safe_mono, (safe_post _ _ (λ _ _, True)).
    - intros t [Ht _]. exact Ht.
    - intros _ t _ Hd. by rewrite Ha in Hd.
    - eapply safe_post; [done|]. apply (safe_sync_model m (modelSubjectFor x false)).
      + done.
      + by apply modelSubjectFor_storable.
      + done.
      + auto with stable.
      + intros t Ht. exact Ht. }
  intros ?. apply safe_ret. intros t Ht. by rewrite <- HxID.
Qed.

Lemma safe_deleteModel id c :
  safe (deleteModel resource_service id c) anything (λ _ t, buried 1 (mproj t id)).
Proof.
  unfold deleteModel.
  next x (Hold & Hid & Hr1 & Hr2) by (apply safe_GetModel; auto with stable).
  next u0 Hc by (apply safe_ensure).
  next now Hnow by (apply safe_now; auto with stable).
  next m Hm by (apply safe_registry).
  set (s := modelSubjectFor (fence_model x now) true).
  assert (Hs : storable s) by by apply modelSubjectFor_storable, fence_model_storable.
  assert (Hrev : (Model_Revision x < MS_Revision s)%Z).
  { cbn. unfold uint64. rewrite Z.mod_small; lia. }
  eapply (safe_bind _ _ _ (λ _ t, buried (Model_Revision x) (mproj t id))).
  - apply (safe_op _ (KeyOp (OpFenceModelSubject s)));
      [pose proof (Hmods m Hm); by apply fence_model_behaves|done|auto with stable|].
    intros n t t' _ _ Hpr _ Hsp. destruct (move_fence_model n t t' s Hpr Hsp) as [[Hp' Hg] Hb].
    refine (conj Hp' (conj Hg _)). rewrite <- Hid. by apply (Hb (Model_Revision x)).
  - intros ?. eapply safe_post; [|apply (safe_op _ (CatalogOp (CatDeleteModel x)) _
      (λ _ t, buried (Model_Revision x) (mproj t id)))].
    + intros ? t. by apply buried_le.
    + apply (behaves_self (CatalogOp (CatDeleteModel x))).
    + done.
    + auto with stable.
    + intros n t t' _ _ Hpr Hb Hsp. subst id.
      destruct (move_delete_model n t t' x Hpr Hsp Hb) as [Hp' Hg].
      refine (conj Hp' (conj Hg _)). by eapply (stable_model_buried _ _ t t' Hg).
Qed.

(** *** Virtual keys *)

Lemma safe_normalize_models st values normalized :
  Forall text_ok values → Forall text_ok normalized →
  safe (normalize_models KeyState st values normalized) anything
    (λ l t, Forall text_ok l ∧ anything t).
Proof.
  intros Hv. revert normalized. induction Hv as [|v values Hv Hvs IH]; intros l Hl; [done|].
  cbn [normalize_models]. next u0 Hc by (apply safe_ensure).
  destruct (bool_decide (TrimSpace v ∈ l)); [by apply IH|].
  apply (safe_reads_then _ _ _ (λ _, True)); [|auto with stable|done|..].
  { unfold GetModelSubject. reads_tac. }
  - intros e. cbn. by destruct (errors_Is e NotFound).
  - intros s _. cbn. destruct (MS_Deleted s); [done|]. destruct (_ && _); [done|]. apply IH.
    apply list.Forall_app. split; [done|]. apply list.Forall_singleton. by apply TrimSpace_valid.
Qed.

Lemma safe_expired x : safe (expired x) anything (λ _, anything).
Proof.
  destruct x as [x|]; [|done]. eapply safe_bind; [apply safe_now; auto with stable|].
  intros n. apply safe_pure. intros _. by apply safe_ret.
Qed.

Lemma safe_normalizeInput i :
  VirtualKeyInput_ok i → safe (normalizeInput KeyState i) anything
    (λ j t, (VirtualKeyInput_ok j ∧ one_status (VI_Status j)) ∧ anything t).
Proof.
  intros (Hn & Hu & Hm & He). unfold normalizeInput. next u0 Hc by (apply safe_ensure).
  eapply (safe_bind _ _ _ (λ _, anything)).
  { apply (safe_reads_then _ _ _ (λ _, True)); [|auto with stable|done|..].
    { unfold GetSubject. reads_tac. }
    - intros e. cbn. by destruct (errors_Is e NotFound).
    - intros s _. cbn. by destruct (KS_Deleted s). }
  intros s. next u1 Hc1 by (apply safe_ensure). next u2 Hc2 by (apply safe_ensure).
  eapply safe_bind; [apply safe_expired|]. intros b. next u3 Hc3 by (apply safe_ensure).
  next l Hl by (by apply safe_normalize_models). next u4 Hc4 by (apply safe_ensure).
  apply safe_ret. intros t _. split; [|done]. split; [|by apply validateStatus_ok].
  split_and!; cbn; try done; [by apply TrimSpace_valid..|].
  rewrite list.Forall_forall in *. intros x Hx. apply Hl. by rewrite merge_sort_Permutation in Hx.
Qed.

Lemma safe_CreateVirtualKey i :
  VirtualKeyInput_ok i → safe (KeyService.CreateVirtualKey KeyState i) anything (λ _, anything).
Proof.
  intros Hi. unfold KeyService.CreateVirtualKey.
  next j (Hj & Hst) by (by apply safe_normalizeInput).
  next secret Hsec by (apply safe_generateKey; auto with stable).
  next id Hid by (apply safe_NewID; [by vm_compute|auto with stable]).
  next now Hnow by (apply safe_now; auto with stable).
  eapply safe_bind; [|intros ?; by apply safe_ret].
  apply (safe_virtual_key_op (KeyOp (OpCreateKey (new_key id secret j now)))); [done|].
  by apply new_key_storable.
Qed.

Lemma safe_updateVirtualKey id i c :
  VirtualKeyInput_ok i → safe (updateVirtualKey KeyState id i c) anything (λ _, anything).
Proof.
  intros Hi. unfold updateVirtualKey.
  next old Hold by (apply safe_GetVirtualKey; auto with stable).
  next u0 Hc by (apply safe_ensure).
  next j (Hj & Hst) by (by apply safe_normalizeInput).
  next now Hnow by (apply safe_now; auto with stable).
  eapply safe_bind; [|intros ?; by apply safe_ret].
  apply (safe_virtual_key_op (KeyOp (OpReplaceKey old (updated_key old j now)))); [done|].
  by apply updated_key_storable.
Qed.

Lemma safe_deleteVirtualKey id c :
  safe (deleteVirtualKey KeyState id c) anything (λ _, anything).
Proof.
  unfold deleteVirtualKey. next k Hk by (apply safe_GetVirtualKey; auto with stable).
  next u0 Hc by (apply safe_ensure).
  by apply (safe_virtual_key_op (KeyOp (OpDeleteKey k))).
Qed.
End operations.
