(* ===== verification/DaprFacts.v ===== *)
(** * The remote registry is the virtual-key control plane

    The registry client, the Dapr client, the handlers of the internal routes
    and the service put together: what a call of [RemoteSubjectRegistry] does
    is what the service does, when the sidecar delivers the request at most
    once. *)

From Stdlib Require Import Ascii.
From S2P Require Import Prelude GoStd Json JsonPrefix GoText GoNet GoTime Errors GoFmt State Model.
From S2P Require Import Results Repository Collections ModelRepository KeyRepository KeyFacts Svc Service Directory.
From S2P Require Import KeyService Registry Faults System Interleave ServiceSafety Platform Http HttpFacts.
From S2P Require Import Dapr.

#[local] Arguments bool_decide : simpl never.

(** A handler's calls as one program, for a handler with a single store call. *)
Fixpoint atomic {A} (s : svc A) : prog A :=
  match s with Ret r => Done r | Call p k => bind_result p (λ r, atomic (k r)) end.

(** The answer of a sidecar that did not pass a success on. *)
Definition unsuccessful (r : error + http_response) : Prop :=
  match r with inl _ => True | inr response => succeeded (StatusCode response) = false end.

(** A segment of a path, and the path of a text. *)
Definition segment (s : string) : Prop := s ≠ "" ∧ contains_byte "/" s = false.
Fixpoint split_path (s : string) : string * list string :=
  match s with
  | EmptyString => ("", [])
  | String c s' =>
      let '(seg, segs) := split_path s' in
      if Ascii.eqb "/" c then ("", seg :: segs) else (String c seg, segs)
  end.
Definition path_of (s : string) : list string := (split_path s).1 :: (split_path s).2.

Lemma split_path_app s t : contains_byte "/" s = false →
  split_path (s +:+ t) = (s +:+ (split_path t).1, (split_path t).2).
Proof.
  induction s as [|c s IH]; [intros _; rewrite !string_app_nil_l; apply surjective_pairing|]. unfold contains_byte. cbn [bytes_of existsb].
  intros [E Hs]%orb_false_iff. rewrite string_app_cons. cbn [split_path].
  unfold contains_byte in IH. by rewrite IH, E.
Qed.
Lemma path_of_join p ps : Forall segment (p :: ps) → path_of (join "/" (p :: ps)) = p :: ps.
Proof.
  revert p. induction ps as [|q ps IH]; intros p [Hp Hps]%list.Forall_cons.
  - unfold path_of. cbn. rewrite <- (string_app_nil_r p) at 1 2. rewrite split_path_app by apply Hp.
    cbn. by rewrite string_app_nil_r.
  - change (join "/" (p :: q :: ps)) with (p +:+ ("/" +:+ join "/" (q :: ps))).
    unfold path_of. rewrite split_path_app by apply Hp. cbn [fst snd].
    specialize (IH q Hps). unfold path_of in IH. change ("/" +:+ ?t) with (String "/" t).
    cbn [split_path]. change (Ascii.eqb "/" "/") with true. cbv iota.
    destruct (split_path (join "/" (q :: ps))) as [seg segs]. cbn in IH |- *.
    rewrite string_app_nil_r. by injection IH as -> ->.
Qed.

Section compose.
Context {S : Type} `{StateStoreLaws S}.
Implicit Types w : world S.

Definition method_prefix (app : string) : string :=
  "/v1.0/invoke/" +:+ PathEscape app +:+ "/method/".

(** Service invocation as Dapr documents it: a [POST] to
    [/v1.0/invoke/<app>/method/<path>] reaches the application as a request for
    [/<path>] with the same method and body and the application's token, once
    or not at all; the caller gets the application's answer, or an error. *)
Definition delivers (do : transport) (base app appToken : string)
    (serve : http_request → svc http_response) : Prop :=
  ∀ o path w r w',
    path ≠ [] → Forall segment path → Out_URL o = base +:+ method_prefix app +:+ join "/" path →
    exec (do o) w r w' →
    (w' = w ∧ unsuccessful r) ∨
    ∃ headers r1, header_get "Dapr-Api-Token" headers = appToken ∧
      exec (atomic (serve {| Method := Out_Method o; Path := path; Header := headers;
                             Body := Out_Body o |})) w r1 w' ∧
      (r = r1 ∨ unsuccessful r).

(** A sidecar in the caller's process, which never fails. *)
Definition local_sidecar (base app appToken : string)
    (serve : http_request → svc http_response) : transport := λ o,
  match CutPrefix (base +:+ method_prefix app) (Out_URL o) with
  | Some rest =>
      atomic (serve {| Method := Out_Method o; Path := path_of rest;
                       Header := ("Dapr-Api-Token", appToken) :: Out_Header o;
                       Body := Out_Body o |})
  | None => Done (inr (no_body 404))
  end.

Lemma CutPrefix_own p s : CutPrefix p (p +:+ s) = Some s.
Proof.
  induction p as [|c p IH]; [by rewrite string_app_nil_l|].
  rewrite string_app_cons. cbn [CutPrefix]. by rewrite Ascii.eqb_refl.
Qed.

Lemma local_sidecar_delivers base app appToken serve :
  delivers (local_sidecar base app appToken serve) base app appToken serve.
Proof.
  intros o [|p ps] w r w' Hp Hsegs Hurl He; [done|]. unfold local_sidecar in He.
  rewrite Hurl, <- string_app_assoc, CutPrefix_own, path_of_join in He by done.
  right. by exists (("Dapr-Api-Token", appToken) :: Out_Header o), r; split_and!; [|done|left].
Qed.

Section handler.
Context (h : adminHTTP) (appToken : string) (Htoken : appToken ≠ "").
Abbreviation serve := (NewVirtualKeyHTTPHandler h KeyState appToken).

(** What the route of a subject operation answers. *)
Definition operation_answer (id : string) (q : error + unit) : http_response :=
  match q with inr _ => no_body 204 | inl err => writeError id err end.

Lemma atomic_bind {A B} (s : svc A) (f : error + A → svc B) w r w' :
  exec (atomic (svc_bind_result s f)) w r w' ↔
  ∃ q w1, exec (atomic s) w q w1 ∧ exec (atomic (f q)) w1 r w'.
Proof.
  revert w. induction s as [q|C p k IH]; intros w; cbn [svc_bind_result atomic].
  - split; [intros H1; exists q, w; split; [constructor|done]|].
    by intros (q' & w1 & [-> ->]%exec_Done & H1).
  - rewrite exec_bind_result. setoid_rewrite IH. setoid_rewrite exec_bind_result. naive_solver.
Qed.

Lemma middleware_exec (next : handler) req w r w' :
  exec (atomic (HTTPMiddleware next req)) w r w' →
  ∃ id r1, exec (atomic (next id req)) w r1 w' ∧
    match r1 with
    | inr response => r = inr (with_header "X-Request-Id" id response)
    | inl e => r = inl e
    end.
Proof.
  unfold HTTPMiddleware. intros He.
  assert (∀ id, exec (atomic (response ← next id req; mret (with_header "X-Request-Id" id response))) w r w' →
    ∃ r1, exec (atomic (next id req)) w r1 w' ∧
      match r1 with
      | inr response => r = inr (with_header "X-Request-Id" id response)
      | inl e => r = inl e
      end) as Hserve.
  { intros id (q & w1 & Hq & Hr)%atomic_bind. exists q.
    destruct q; apply exec_Done in Hr as [-> ->]; by split. }
  destruct (bool_decide _); [|apply Hserve in He as (r1 & ? & ?); eauto].
  cbn [svc_bind_result call atomic] in He. apply exec_bind_result in He as (q & w1 & Hid & He).
  assert (w1 = w) as ->.
  { eapply (exec_readonly (A := string)); [|exact Hid].
    apply readonly_bind_result; [|by intros [e|a]].
    apply readonly_bind_result; [by intros ?|by intros [e|a]]. }
  apply Hserve in He as (r1 & ? & ?). eauto.
Qed.

(** The handler of one internal route. *)
Lemma subject_route_exec {T} (dec : json → option T) (op : T → prog unit) id headers path body w r w' :
  header_get "Dapr-Api-Token" headers = appToken →
  exec (atomic (internal appToken (λ id r, decode h id dec r (λ s, respond id (call (op s)) deleted)) id
    {| Method := "POST"; Path := path; Header := headers; Body := body |})) w r w' →
  (∃ response, r = inr response ∧ w' = w ∧ succeeded (StatusCode response) = false) ∨
  ∃ s q, DecodeJSON dec body (maxBody h) = inr s ∧ exec (op s) w q w' ∧
    r = inr (operation_answer id q).
Proof.
  intros Ht. unfold internal. cbn [Header]. rewrite Ht, bool_decide_eq_false_2 by done.
  rewrite (proj2 (SecureEqual_true appToken appToken) eq_refl). cbn [orb negb].
  unfold decode. cbn [Body]. destruct (DecodeJSON dec body (maxBody h)) as [e|s] eqn:E.
  { intros [-> ->]%exec_Done. left. by eexists. }
  unfold respond, call. cbn [svc_bind_result atomic].
  intros (q & w1 & Hq & He)%exec_bind_result. cbn [atomic] in He. apply exec_Done in He as [-> ->].
  right. exists s, q. split_and!; [done..|]. by destruct q as [|[]].
Qed.

Lemma operation_answer_status id q :
  succeeded (StatusCode (operation_answer id q)) = is_ok q.
Proof.
  destruct q as [e|]; [|done]. cbn [operation_answer is_ok]. rewrite writeError_status.
  pose proof (error_status_range e). unfold succeeded. apply andb_false_iff. right.
  apply Z.ltb_ge. lia.
Qed.

(** A body that the client wrote is decoded as what it wrote. *)
Lemma decoded_payload {T} `{CodecLaws T} names (x y : T) maxBytes :
  storable x → DecodeJSON (strict_fields names of_json) (enc x) maxBytes = inr y → y = x.
Proof.
  intros Hx Hd. destruct (to_json_storable x Hx) as (j & Hj & Hwf & Hof).
  unfold enc, Marshal in Hd. rewrite Hj in Hd. cbn in Hd.
  apply DecodeJSON_print in Hd as [Hd _]; [|done]. unfold strict_fields in Hd.
  destruct (members j) as [m|]; cbn in Hd; [|done]. destruct (known_fields names m); [|done].
  rewrite Hof in Hd. congruence.
Qed.

(** The four routes. *)
Definition route_path (method : string) : list string :=
  if bool_decide (method = "/internal/v1/subjects/sync") then ["internal"; "v1"; "subjects"; "sync"]
  else if bool_decide (method = "/internal/v1/subjects/fence") then
    ["internal"; "v1"; "subjects"; "fence"]
  else if bool_decide (method = "/internal/v1/model-subjects/sync") then
    ["internal"; "v1"; "model-subjects"; "sync"]
  else ["internal"; "v1"; "model-subjects"; "fence"].

(** What the service does for an input. *)
Definition service_op (method : string) (input : payload) : prog unit :=
  match input with
  | PSubject s => if bool_decide (method = "/internal/v1/subjects/sync")
                  then KeyService.SyncSubject KeyState s else KeyService.FenceSubject KeyState s
  | PModel s => if bool_decide (method = "/internal/v1/model-subjects/sync")
                then KeyService.SyncModel KeyState s else KeyService.FenceModel KeyState s
  end.

Lemma internal_route_cases method input o :
  internal_route method input = Some o →
  (∃ s, input = PSubject s ∧ (method = "/internal/v1/subjects/sync" ∨ method = "/internal/v1/subjects/fence")) ∨
  (∃ s, input = PModel s ∧
     (method = "/internal/v1/model-subjects/sync" ∨ method = "/internal/v1/model-subjects/fence")).
Proof.
  unfold internal_route. destruct input as [s|s];
    repeat (case_bool_decide; [intros _; subst; naive_solver|]); done.
Qed.

Lemma serve_exec method input o body headers w r w' :
  subject_ok input → internal_route method input = Some o → payload_text input = Some body →
  header_get "Dapr-Api-Token" headers = appToken →
  exec (atomic (serve {| Method := "POST"; Path := route_path method; Header := headers;
                         Body := body |})) w r w' →
  (w' = w ∧ unsuccessful r) ∨
  ∃ id q, exec (service_op method input) w q w' ∧
    r = inr (with_header "X-Request-Id" id (operation_answer id q)).
Proof.
  intros Hok Ho Hbody Ht He.
  apply middleware_exec in He as (id & r1 & He & Hr).
  assert (∀ (T : Type) (dec : json → option T) op (x : T),
    (∀ y, DecodeJSON dec body (maxBody h) = inr y → y = x) →
    service_op method input = op x →
    exec (atomic (internal appToken (λ id r, decode h id dec r (λ s, respond id (call (op s)) deleted)) id
      {| Method := "POST"; Path := route_path method; Header := headers; Body := body |})) w r1 w' →
    (w' = w ∧ unsuccessful r) ∨ ∃ id q, exec (service_op method input) w q w' ∧
      r = inr (with_header "X-Request-Id" id (operation_answer id q))) as Hroute.
  { intros T dec op x Hdec Hop Hex. rewrite Hop.
    apply subject_route_exec in Hex as [(resp & -> & -> & Hs)|(s & q & Hd & Hq & ->)]; [|..|done].
    - left. split; [done|]. by rewrite Hr.
    - right. exists id, q. apply Hdec in Hd as ->. split; [done|]. by rewrite Hr. }
  destruct (internal_route_cases _ _ _ Ho) as [(s & -> & [->| ->])|(s & -> & [->| ->])];
    cbn [payload_text subject_ok] in Hbody, Hok; rewrite Marshal_enc in Hbody by done;
    injection Hbody as <-.
  - eapply (Hroute _ decode_KeySubject (KeyService.SyncSubject KeyState) s); [|reflexivity|exact He].
    intros y Hd. by eapply decoded_payload.
  - eapply (Hroute _ decode_KeySubject (KeyService.FenceSubject KeyState) s); [|reflexivity|exact He].
    intros y Hd. by eapply decoded_payload.
  - eapply (Hroute _ decode_ModelSubject (KeyService.SyncModel KeyState) s); [|reflexivity|exact He].
    intros y Hd. by eapply decoded_payload.
  - eapply (Hroute _ decode_ModelSubject (KeyService.FenceModel KeyState) s); [|reflexivity|exact He].
    intros y Hd. by eapply decoded_payload.
Qed.

(** ** The client *)

Section client.
Context (c : Client) (app : string).
Context (Hdo : delivers (http_do c) (baseURL c) app appToken serve).

(** What the client makes of the service's answer. *)
Definition client_answer (id : string) (q : error + unit) : error + unit :=
  match q with
  | inr _ => inr tt
  | inl err => inl (HTTPError (error_status err) (error_body (writeError id err)))
  end.

Lemma route_segments method : Forall segment (route_path method).
Proof. unfold route_path. repeat case_bool_decide; repeat constructor; by vm_compute. Qed.

Lemma endpoint_path method input o :
  internal_route method input = Some o →
  invoke_endpoint app method = method_prefix app +:+ join "/" (route_path method).
Proof.
  intros Ho. unfold invoke_endpoint, method_prefix. rewrite !string_app_assoc.
  by destruct (internal_route_cases _ _ _ Ho) as [(s & -> & [->| ->])|(s & -> & [->| ->])].
Qed.

(** The request a call sends. *)
Definition sent (method body : string) : outgoing := {|
  Out_Method := "POST"; Out_URL := baseURL c +:+ invoke_endpoint app method;
  Out_Header := with_token c [("Content-Type", "application/json")]; Out_Body := body;
  Out_Streamed := false |}.

Definition received (r : error + http_response) : error + unit :=
  match r with
  | inl e => inl (Errorf "invoke Dapr app %q: %w" [AStr app; AWrap e])
  | inr response => if succeeded (StatusCode response) then inr tt
                    else inl (HTTPError (StatusCode response) (error_body response))
  end.

(** A call sends its request, or fails before it does. *)
Lemma Invoke_exec method body w r w' :
  exec (wrap_err (λ e, Errorf "invoke Dapr app %q: %w" [AStr app; AWrap e])
    (Invoke c app method body "application/json")) w r w' →
  (w' = w ∧ ∃ e, r = inl e) ∨ ∃ r0, exec (http_do c (sent method body)) w r0 w' ∧
    r = match r0 with
        | inl e => inl (Errorf "invoke Dapr app %q: %w" [AStr app; AWrap e])
        | inr response => inr response
        end.
Proof.
  intros (r0 & w1 & Hi & Hw)%exec_bind_result.
  unfold Invoke, InvokeMethod in Hi. rewrite bool_decide_eq_false_2 in Hi by done.
  unfold newRequest in Hi. destruct (ParseRequestURI _); cbn [lift] in Hi.
  - apply exec_bind in Hi as [(e & -> & [? _]%exec_Done)|(o & w2 & [[= ->] ->]%exec_Done & Hi)]; [done|].
    right. exists r0. cbn [Out_Method Out_URL Out_Header Out_Body Out_Streamed] in Hi.
    destruct r0; apply exec_Done in Hw as [-> ->]; by split.
  - apply exec_bind in Hi as [(e & -> & [_ ->]%exec_Done)|(o & w2 & [? _]%exec_Done & _)]; [|done].
    apply exec_Done in Hw as [-> ->]. left. eauto.
Qed.

(** A call marshals, sends and looks at the status, or fails before it sends. *)
Lemma InvokeJSON_shape method body w r w' :
  exec (InvokeJSON c app method (Some body)) w r w' →
  (w' = w ∧ ∃ e, r = inl e) ∨ ∃ r0, exec (http_do c (sent method body)) w r0 w' ∧ r = received r0.
Proof.
  unfold InvokeJSON. intros [(e & _ & He)|(payload & w0 & Hp & He)]%exec_bind.
  { by apply exec_Done in He as [? _]. }
  apply exec_Done in Hp as [[= ->] ->].
  apply exec_bind in He as [(e & -> & He)|(response & w1 & He & Hs)].
  - apply Invoke_exec in He as [[-> _]|(r0 & Hr0 & Hr)]; [left; eauto|].
    right. exists r0. split; [done|]. by destruct r0; [injection Hr as ->|].
  - assert (w1 = w' ∧ r = received (inr response)) as [-> ->].
    { cbn. destruct (succeeded _); by apply exec_Done in Hs as [-> ->]. }
    apply Invoke_exec in He as [[_ [e ?]]|(r0 & Hr0 & Hr)]; [done|].
    right. exists r0. split; [done|]. destruct r0; [done|]. by injection Hr as ->.
Qed.

Lemma received_unsuccessful r : unsuccessful r → ∃ e, received r = inl e.
Proof. destruct r as [e|resp]; cbn; [eauto|]. intros ->. eauto. Qed.

Lemma json_invoker_exec method input o w r w' :
  subject_ok input → internal_route method input = Some o →
  exec (json_invoker c app method input) w r w' →
  (w' = w ∧ ∃ e, r = inl e) ∨
  ∃ id q, exec (service_op method input) w q w' ∧ (r = client_answer id q ∨ ∃ e, r = inl e).
Proof.
  intros Hok Ho He. unfold json_invoker in He.
  assert (∃ body, payload_text input = Some body) as [body Hbody].
  { destruct input; cbn [payload_text subject_ok] in Hok |- *; rewrite Marshal_enc by done; eauto. }
  rewrite Hbody in He. apply InvokeJSON_shape in He as [?|(r0 & Hr0 & ->)]; [by left|].
  apply (Hdo _ (route_path method)) in Hr0 as [[-> Hu]|(headers & r1 & Ht & Hr1 & Hr)].
  - left. split; [done|by apply received_unsuccessful].
  - cbn [Out_Method Out_Body sent] in Hr1.
    destruct (serve_exec method input o body headers w r1 w' Hok Ho Hbody Ht Hr1) as
      [[-> Hu]|(id & q & Hq & ->)].
    + left. split; [done|]. destruct Hr as [->|Hr]; by apply received_unsuccessful.
    + right. exists id, q. split; [done|]. destruct Hr as [->|Hr]; [left|right; by apply received_unsuccessful].
      unfold received. cbn [with_header StatusCode]. rewrite operation_answer_status.
      destruct q as [e|]; [|done]. cbn [is_ok operation_answer client_answer].
      unfold error_body, with_header. cbn [RespBody StatusCode]. by rewrite writeError_status.
  - unfold route_path. by repeat case_bool_decide.
  - apply route_segments.
  - cbn [Out_URL sent]. by rewrite (endpoint_path method input o Ho).
Qed.

Lemma service_op_behaves method input o w q w' :
  internal_route method input = Some o → exec (service_op method input) w q w' →
  (w' = w ∧ ∃ e, q = inl e) ∨ exec (sys_prog o) w q w'.
Proof.
  unfold internal_route, service_op. destruct input as [s|s]; repeat case_bool_decide; try done;
    intros [= <-]; try (by right).
  - unfold KeyService.FenceSubject. destruct (KS_Deleted s); [by right|].
    intros [-> ->]%exec_Done. left. eauto.
  - unfold KeyService.FenceModel. destruct (MS_Deleted s); [by right|].
    intros [-> ->]%exec_Done. left. eauto.
Qed.

Lemma client_invoker_ok : invoker_ok (json_invoker c) app.
Proof.
  intros method input o Hok Ho w r w' He.
  apply (json_invoker_exec method input o) in He as [?|(id & q & Hq & Hr)]; [by left| |done..].
  apply (service_op_behaves method input o) in Hq as [[-> [e ->]]|Hq]; [..|done].
  - left. split; [done|]. destruct Hr as [->|?]; [by eexists|done].
  - right. exists q. split; [done|]. destruct Hr as [->|?]; [|by right].
    destruct q as [e|[]]; [right; by eexists|by left].
Qed.

End client.
End handler.
End compose.

(** ** A concrete sidecar *)

Module DaprSample.
Definition h : adminHTTP := {| adminToken := "admin"; maxBody := 1048576 |}.
Definition base : string := "http://127.0.0.1:3500".
Definition app : string := "gwai-virtual-key".
Definition client : Client :=
  New (base +:+ "/") "dapr"
    (local_sidecar base app "secret" (NewVirtualKeyHTTPHandler h KeyState "secret")).
End DaprSample.


(** The whole path from the client to the store and back. *)
Example local_call_stored :
  let s := {| KS_UserID := "u1"; KS_Status := StatusActive; KS_Revision := 1; KS_Deleted := false;
              KS_UpdatedAt := Sample.time |} in
  let r := Some {| invoker := Some (json_invoker DaprSample.client); appID := DaprSample.app |} in
  (run Sample.env (_ ← Registry.SyncSubject r s; GetSubject KeyState "u1") Sample.world0).1 = inr s.
Proof. cbv zeta. by_vm. Qed.
