(* ===== verification/Concurrency.v ===== *)
(** * Any number of requests at once

    The requests of the two control planes, configurations of stores and
    operations in progress, the step relation that interleaves their calls
    under faults, and what holds in every reachable configuration. *)

From S2P Require Import Prelude GoStd Json GoText GoTime Errors State Model Repository Collections.
From S2P Require Import Directory ModelRepository KeyRepository KeyFacts ETag Svc Faults Protocol.
From S2P Require Import System Interleave Service KeyService Registry ServiceFacts.
From S2P Require Import ServiceSafety Runtime.

#[local] Arguments bool_decide : simpl never.

(** ** Requests *)

Inductive request : Type :=
| ReqCreateUser (i : UserInput) | ReqGetUser (id : string) | ReqListUsers
| ReqUpdateUser (id : string) (i : UserInput) (c : ifMatchPrecondition)
| ReqDeleteUser (id : string) (c : ifMatchPrecondition)
| ReqCreateProvider (i : ProviderInput) | ReqGetProvider (id : string) | ReqListProviders
| ReqUpdateProvider (id : string) (i : ProviderInput) (c : ifMatchPrecondition)
| ReqDeleteProvider (id : string) (c : ifMatchPrecondition)
| ReqCreateModel (i : ModelInput) | ReqGetModel (id : string) | ReqListModels
| ReqUpdateModel (id : string) (i : ModelInput) (c : ifMatchPrecondition)
| ReqDeleteModel (id : string) (c : ifMatchPrecondition)
| ReqCreateKey (i : VirtualKeyInput) | ReqGetKey (id : string) | ReqListKeys
| ReqUpdateKey (id : string) (i : VirtualKeyInput) (c : ifMatchPrecondition)
| ReqDeleteKey (id : string) (c : ifMatchPrecondition).

Inductive response : Type :=
| RUser (u : User) | RUsers (l : list User)
| RProvider (p : Provider) | RProviders (l : list Provider)
| RModel (x : Model) | RModels (l : list Model)
| RCreatedKey (k : CreatedVirtualKey) | RKey (k : PublicVirtualKey)
| RKeys (l : list PublicVirtualKey)
| RNone.

Definition respond {A} (f : A → response) (s : svc A) : svc response := a ← s; mret (f a).

(** Texts and times as the JSON decoder delivers them. *)
Definition request_ok (q : request) : Prop :=
  match q with
  | ReqCreateUser i | ReqUpdateUser _ i _ => UserInput_ok i
  | ReqCreateProvider i | ReqUpdateProvider _ i _ => ProviderInput_ok i
  | ReqCreateModel i | ReqUpdateModel _ i _ => ModelInput_ok i
  | ReqCreateKey i | ReqUpdateKey _ i _ => VirtualKeyInput_ok i
  | _ => True
  end.

Section handlers.
Context (subj : SubjectRegistry) (mods : option ModelRegistry).

Definition handle (q : request) : svc response :=
  let s := resource_service subj mods in
  match q with
  | ReqCreateUser i => respond RUser (Service.CreateUser s i)
  | ReqGetUser id => respond RUser (Service.GetUser s id)
  | ReqListUsers => respond RUsers (Service.ListUsers s)
  | ReqUpdateUser id i c => respond RUser (updateUser s id i c)
  | ReqDeleteUser id c => respond (λ _, RNone) (deleteUser s id c)
  | ReqCreateProvider i => respond RProvider (Service.CreateProvider s i)
  | ReqGetProvider id => respond RProvider (Service.GetProvider s id)
  | ReqListProviders => respond RProviders (Service.ListProviders s)
  | ReqUpdateProvider id i c => respond RProvider (updateProvider s id i c)
  | ReqDeleteProvider id c => respond (λ _, RNone) (deleteProvider s id c)
  | ReqCreateModel i => respond RModel (Service.CreateModel s i)
  | ReqGetModel id => respond RModel (Service.GetModel s id)
  | ReqListModels => respond RModels (Service.ListModels s)
  | ReqUpdateModel id i c => respond RModel (updateModel s id i c)
  | ReqDeleteModel id c => respond (λ _, RNone) (deleteModel s id c)
  | ReqCreateKey i => respond RCreatedKey (KeyService.CreateVirtualKey KeyState i)
  | ReqGetKey id => respond RKey (KeyService.GetVirtualKey KeyState id)
  | ReqListKeys => respond RKeys (KeyService.ListVirtualKeys KeyState)
  | ReqUpdateKey id i c => respond RKey (updateVirtualKey KeyState id i c)
  | ReqDeleteKey id c => respond (λ _, RNone) (deleteVirtualKey KeyState id c)
  end.
End handlers.

(** What a successful answer promises, then and later. *)
Definition promise (q : request) (a : response) (t : tables) : Prop :=
  match q, a with
  | ReqDeleteUser id _, _ => buried 1 (uproj t id)
  | ReqDeleteModel id _, _ => buried 1 (mproj t id)
  | ReqUpdateUser id _ _, RUser u =>
      User_ID u = id ∧ (User_Status u = StatusDisabled → revoked (User_Revision u) (uproj t id))
  | ReqUpdateModel id _ _, RModel x =>
      Model_ID x = id ∧ (Model_Status x = StatusDisabled → revoked (Model_Revision x) (mproj t id))
  | _, _ => True
  end.

Section concurrency.
Context {S : Type} `{StateStoreLaws S}.
Context (subj : SubjectRegistry) (Hsubj : SubjectRegistryLaws (S := S) subj).
Context (mods : option ModelRegistry) (Hmods : ∀ m, mods = Some m → ModelRegistryLaws (S := S) m).

Lemma safe_respond {A} (f : A → response) (s : svc A) Φ q :
  safe (S := S) s anything Φ → (∀ a t, Φ a t → promise q (f a) t) →
  safe (S := S) (respond f s) anything (promise q).
Proof. intros Hs Hf. eapply safe_bind; [exact Hs|]. intros a. apply safe_ret. apply Hf. Qed.

Lemma safe_handle q : request_ok q → safe (S := S) (handle subj mods q) anything (promise q).
Proof.
  intros Hq. destruct q; cbn [handle request_ok] in *.
  - eapply safe_respond; [by eapply safe_CreateUser|done].
  - eapply safe_respond; [by apply safe_readonly, stable_anything; apply reads_readonly, reads_getResource|done].
  - eapply safe_respond; [by apply safe_readonly, stable_anything; apply readonly_listResourcesAtIndex|done].
  - eapply safe_respond; [by eapply safe_updateUser|done].
  - eapply safe_respond; [by eapply safe_deleteUser|done].
  - eapply safe_respond; [by eapply safe_CreateProvider|done].
  - eapply safe_respond; [by apply safe_readonly, stable_anything; apply reads_readonly, reads_getResource|done].
  - eapply safe_respond; [by apply safe_readonly, stable_anything; apply readonly_listResourcesAtIndex|done].
  - eapply safe_respond; [by eapply safe_updateProvider|done].
  - eapply safe_respond; [by eapply safe_deleteProvider|done].
  - eapply safe_respond; [by eapply safe_CreateModel|done].
  - eapply safe_respond; [by apply safe_readonly, stable_anything; apply reads_readonly, reads_getResource|done].
  - eapply safe_respond; [by apply safe_readonly, stable_anything; apply readonly_listResourcesAtIndex|done].
  - eapply safe_respond; [by eapply safe_updateModel|done].
  - eapply safe_respond; [by eapply safe_deleteModel|done].
  - eapply safe_respond; [by eapply safe_CreateVirtualKey|done].
  - eapply (safe_respond _ _ (λ _, anything)); [|done]. eapply safe_bind; [|intros a; by apply safe_ret].
    apply safe_readonly, stable_anything. apply reads_readonly, reads_getResource.
  - eapply (safe_respond _ _ (λ _, anything)); [|done]. eapply safe_bind; [|intros a; by apply safe_ret].
    apply safe_readonly, stable_anything. apply readonly_listResourcesAtIndex.
  - eapply safe_respond; [by eapply safe_updateVirtualKey|done].
  - eapply safe_respond; [by eapply safe_deleteVirtualKey|done].
Qed.

(** ** Configurations and steps *)

Record config := { stores : world S; running : list (request * svc response) }.

(** A request arrives, or one of those running makes its next call.  A request
    that crashed is one that makes no further call. *)
Inductive step : config → config → Prop :=
| step_arrive w l q :
    request_ok q →
    step {| stores := w; running := l |} {| stores := w; running := l ++ [(q, handle subj mods q)] |}
| step_call w l i q B (p : prog B) k r w' :
    l !! i = Some (q, Call p k) → exec p w r w' →
    step {| stores := w; running := l |} {| stores := w'; running := <[i := (q, k r)]> l |}.

Definition started (w : world S) : config := {| stores := w; running := [] |}.

Definition thread_ok (t : tables) (th : request * svc response) : Prop :=
  ∃ P, stable P ∧ P t ∧ safe (S := S) th.2 P (promise th.1).

Record good (n : Z) (c : config) (t : tables) : Prop := {
  good_inv : sys_inv (stores c) t;
  good_proto : proto n t;
  good_threads : Forall (thread_ok t) (running c)
}.

Lemma thread_ok_after t t' th : guar t t' → thread_ok t th → thread_ok t' th.
Proof. intros Hg (P & HP & HPt & Hs). exists P. split_and!; [done|by eapply HP|done]. Qed.

Lemma step_good n c c' t :
  (0 <= n)%Z → (n + 1 < two64)%Z → good n c t → step c c' → ∃ t', good (n + 1) c' t' ∧ guar t t'.
Proof.
  intros Hn Hn' [Hi Hp Ht] Hst. destruct Hst as [w l q Hq|w l i q B p k r w' Hl He]; cbn in *.
  - exists t. split; [|apply guar_refl]. split; [done|by apply proto_next|].
    apply list.Forall_app. split; [done|]. apply list.Forall_singleton.
    exists anything. split_and!; [apply stable_anything|done|by apply safe_handle].
  - destruct (list.Forall_lookup_1 _ _ _ _ Ht Hl) as (P & HP & HPt & Hs). cbn [fst snd] in Hs.
    destruct (Hs n t w r w' Hn Hn' Hi Hp HPt He) as (t' & Hi' & Hp' & Hg & Q & HQ & HQt & Hk).
    exists t'. split; [|done]. split; [done..|]. apply list.Forall_insert; [|by exists Q].
    eapply list.Forall_impl; [exact Ht|]. intros th. by apply thread_ok_after.
Qed.

Lemma steps_good m n c c' t :
  (0 <= n)%Z → (n + Z.of_nat m < two64)%Z → good n c t → nsteps step m c c' →
  ∃ t', good (n + Z.of_nat m) c' t' ∧ ∀ P, stable P → P t → P t'.
Proof.
  intros Hn Hm Hg Hst. revert n t Hn Hm Hg.
  induction Hst as [c|m c c1 c' Hst Hrest IH]; intros n t Hn Hm Hg.
  - exists t. rewrite Z.add_0_r. done.
  - destruct (step_good n c c1 t) as (t1 & Hg1 & Hgu); [lia|lia|done|done|].
    destruct (IH (n + 1)%Z t1) as (t' & Hg' & HP); [lia|lia|done|].
    exists t'. replace (n + Z.of_nat (Datatypes.S m))%Z with (n + 1 + Z.of_nat m)%Z by lia.
    split; [done|]. intros P Hst' HPt. apply HP; [done|]. by eapply Hst'.
Qed.

Lemma good_started w : (∀ d, view (store_of w d) = ∅) → good 0 (started w) no_tables.
Proof. intros He. split; [by apply sys_inv_empty|apply proto_empty|constructor]. Qed.

(** Every configuration reached from empty stores in fewer than 2^64 steps. *)
Lemma reach_good m w c :
  (∀ d, view (store_of w d) = ∅) → (Z.of_nat m < two64)%Z → nsteps step m (started w) c →
  ∃ t, good (Z.of_nat m) c t.
Proof.
  intros He Hm Hst. destruct (steps_good m 0 (started w) c no_tables) as (t & Hg & _); [lia|lia| |done|].
  - by apply good_started.
  - by exists t.
Qed.
End concurrency.
