(* ===== verification/RuntimeFacts.v ===== *)
(** * Authorization and routing against their reference

    [Authorize] and [ResolveRoute] as functions of the tables, and the
    equivalence of the effectful definitions with them on any stores that hold
    the tables. *)

From S2P Require Import Prelude GoStd Json GoText GoTime Errors State Model Repository Collections.
From S2P Require Import Directory ModelRepository KeyRepository Svc Service KeyService KeyFacts.
From S2P Require Import Faults Protocol System Runtime.

#[local] Opaque enc Marshal Unmarshal entityKey indexKey.
#[local] Arguments bool_decide : simpl never.

(** ** Reference *)

(** The resource of a table with a lookup value; the lookup compares SHA-256
    digests. *)
Definition find_by {T} (value : T → string) (t : gmap string T) (v : string) : option T :=
  snd <$> head (filter (λ '(_, x), sha256_hex (value x) = sha256_hex v) (map_to_list t)).

Definition ref_active_model (mt : gmap string Model) (kt : key_tables) (requested : string)
    : error + Model :=
  if bool_decide (TrimSpace requested = "") || negb (bool_decide (TrimSpace requested = requested))
  then inl (ValidationError "model"
         "must be a registered model alias without surrounding whitespace" [])
  else
    match find_by Model_Alias mt (TrimSpace requested) with
    | None => inl ErrNotFound
    | Some x =>
        if negb (bool_decide (Model_Status x = StatusActive)) then inl ErrForbidden else
        match model_subjects kt !! Model_ID x with
        | None => inl ErrForbidden
        | Some s =>
            if bool_decide (MS_Alias s = Model_Alias x) &&
               bool_decide (MS_Status s = StatusActive) && negb (MS_Deleted s) &&
               (MS_Revision s =? Model_Revision x)%Z
            then inr x else inl ErrForbidden
        end
    end.

(** The key is active and not expired at [now]. *)
Definition ref_usable (now : Time) (k : VirtualKey) : bool :=
  bool_decide (Key_Status k = StatusActive) &&
  match Key_ExpiresAt k with Some e => After e now | None => true end.

Definition ref_authorize (now : Time) (mt : gmap string Model) (kt : key_tables)
    (token requested : string) : error + Authorization :=
  if bool_decide (token = "") then inl ErrUnauthorized else
  match find_by Key_KeyHash (keys kt) (hashKey token) with
  | None => inl ErrUnauthorized
  | Some k =>
      if negb (ref_usable now k) then inl ErrUnauthorized else
      match subjects kt !! Key_UserID k with
      | None => inl ErrUnauthorized
      | Some s =>
          if negb (bool_decide (KS_Status s = StatusActive)) || KS_Deleted s
          then inl ErrUnauthorized else
          match ref_active_model mt kt requested with
          | inl e => inl e
          | inr x =>
              if bool_decide (Model_ID x ∈ Key_ModelIDs k)
              then inr {| Auth_KeyID := Key_ID k; Auth_UserID := Key_UserID k |}
              else inl ErrForbidden
          end
      end
  end.

Definition ref_route (pt : gmap string Provider) (mt : gmap string Model) (kt : key_tables)
    (requested : string) : error + Route :=
  match ref_active_model mt kt requested with
  | inl e => inl e
  | inr x =>
      match pt !! Model_ProviderID x with
      | None => inl ErrNotFound
      | Some p =>
          if bool_decide (Provider_Status p = StatusActive) then
            inr {| Route_ModelID := Model_ID x; Route_Alias := Model_Alias x;
                   Route_ProviderID := Provider_ID p;
                   Route_UpstreamModel :=
                     if bool_decide (Model_UpstreamModel x = "") then Model_Alias x
                     else Model_UpstreamModel x;
                   Route_AdapterAppID := Provider_AdapterAppID p |}
          else inl ErrForbidden
      end
  end.

(** ** Searching a table *)

Lemma lookupKey_digest kind v v' :
  lookupKey kind v = lookupKey kind v' ↔ sha256_hex v = sha256_hex v'.
Proof.
  unfold lookupKey. split; [by intros ?%(inj _)%(inj _)%(inj _)|by intros ->].
Qed.

Section find.
Context {T : Type} `{CollectionLaws T} (value : T → string).
Implicit Types t : gmap string T.

Lemma find_by_Some t v x :
  (∀ id1 id2 x1 x2, t !! id1 = Some x1 → t !! id2 = Some x2 →
     sha256_hex (value x1) = sha256_hex (value x2) → id1 = id2) →
  (∀ id x, t !! id = Some x → ident x = id) →
  t !! ident x = Some x → sha256_hex (value x) = sha256_hex v →
  find_by value t v = Some x.
Proof.
  intros Huniq Hid Hx Hv. unfold find_by.
  assert (Hin : (ident x, x) ∈ filter (λ '(_, y), sha256_hex (value y) = sha256_hex v)
    (map_to_list t)) by by apply list_elem_of_filter; rewrite elem_of_map_to_list.
  destruct (filter _ (map_to_list t)) as [|[id y] l] eqn:E; [by apply elem_of_nil in Hin|].
  cbn. assert (Hy : (id, y) ∈ filter (λ '(_, y), sha256_hex (value y) = sha256_hex v)
    (map_to_list t)) by (rewrite E; by left).
  apply list_elem_of_filter in Hy as [Hyv Hy]. rewrite elem_of_map_to_list in Hy.
  assert (id = ident x) as ->; [|congruence].
  eapply (Huniq id (ident x) y x); [done..|]. congruence.
Qed.

Lemma find_by_None t v :
  (∀ id x, t !! id = Some x → sha256_hex (value x) ≠ sha256_hex v) → find_by value t v = None.
Proof.
  intros Hno. unfold find_by.
  destruct (filter _ (map_to_list t)) as [|[id y] l] eqn:E; [done|].
  assert (Hy : (id, y) ∈ filter (λ '(_, y), sha256_hex (value y) = sha256_hex v)
    (map_to_list t)) by (rewrite E; by left).
  apply list_elem_of_filter in Hy as [Hyv Hy]. rewrite elem_of_map_to_list in Hy.
  by destruct (Hno id y Hy).
Qed.

Lemma find_by_lookup t v x :
  (∀ id x, t !! id = Some x → ident x = id) →
  find_by value t v = Some x → t !! ident x = Some x ∧ sha256_hex (value x) = sha256_hex v.
Proof.
  intros Hid. unfold find_by.
  destruct (filter _ (map_to_list t)) as [|[id y] l] eqn:E; [done|]. intros [= <-].
  assert (Hy : (id, y) ∈ filter (λ '(_, y), sha256_hex (value y) = sha256_hex v)
    (map_to_list t)) by (rewrite E; by left).
  apply list_elem_of_filter in Hy as [Hyv Hy]. rewrite elem_of_map_to_list in Hy.
  by rewrite (Hid id y Hy).
Qed.
End find.

Section facts.
Context {S : Type} `{StateStoreLaws S} (env : environment).
Implicit Types (w : world S) (d : domain).

Abbreviation values w d := (view (store_of w d)).

(** A lookup followed by the read of the entity it names. *)
Lemma run_find {T} `{CollectionLaws T} w d t kind (value : T → string) v y :
  coll_inv (values w d) t → (∀ x, lookupKey kind (value x) ∈ lookup_keys x) →
  (∀ x k, lookupKey kind k ∈ lookup_keys x → lookupKey kind k = lookupKey kind (value x)) →
  value y = v →
  run env (id ← lookup_id d kind v; getResource (T := T) d coll_name id) w =
    (match find_by value t v with Some x => inr x | None => inl ErrNotFound end, w).
Proof.
  intros Hi Hkey Honly Hy. rewrite run_bind.
  destruct (run_lookup_id env w d t kind v y Hi) as [(id & x & Hx & Hk & ->)|(Hno & ->)].
  - rewrite <- Hy. apply Hkey.
  - destruct (ci_ok _ _ Hi id x Hx) as [<- _].
    rewrite (run_get_entity env w d t) by done. rewrite Hx.
    assert (find_by value t v = Some x) as ->; [|done]. apply find_by_Some.
    + intros id1 id2 x1 x2 Hx1 Hx2 E.
      eapply (lookup_unique _ _ _ _ x1 x2); [exact Hi|done|done|apply Hkey|].
      apply (lookupKey_digest kind) in E. rewrite E. apply Hkey.
    + intros id x' Hx'. by destruct (ci_ok _ _ Hi id x' Hx').
    + done.
    + apply (lookupKey_digest kind). symmetry. by apply Honly.
  - assert (find_by value t v = None) as ->; [|done]. apply find_by_None.
    intros id x Hx E. apply (Hno id x Hx). apply (lookupKey_digest kind) in E.
    rewrite <- E. apply Hkey.
Qed.

Lemma run_key_by_hash w d kt hash :
  keys_inv (values w d) kt →
  run env (GetVirtualKeyByHash d hash) w =
    (match find_by Key_KeyHash (keys kt) hash with Some k => inr k | None => inl ErrNotFound end, w).
Proof.
  intros Hi. refine (run_find (T := VirtualKey) w d (keys kt) "key-hash" Key_KeyHash hash
    {| Key_ID := ""; Key_Name := ""; Key_UserID := ""; Key_Prefix := ""; Key_KeyHash := hash;
       Key_ModelIDs := []; Key_Status := ""; Key_ExpiresAt := None; Key_CreatedAt := zero_time;
       Key_UpdatedAt := zero_time |} _ _ _ _); [apply Hi|by left| |done].
  intros x k. cbn. by intros [?|[]%elem_of_nil]%elem_of_cons.
Qed.

Lemma run_model_by_alias w d pt mt alias :
  catalog_inv (values w d) pt mt →
  run env (GetModelByAlias d alias) w =
    (match find_by Model_Alias mt alias with Some x => inr x | None => inl ErrNotFound end, w).
Proof.
  intros Hi. refine (run_find (T := Model) w d mt "model-alias" Model_Alias alias
    {| Model_ID := ""; Model_Alias := alias; Model_ProviderID := ""; Model_UpstreamModel := "";
       Model_Status := ""; Model_Revision := 0; Model_CreatedAt := zero_time;
       Model_UpdatedAt := zero_time |} _ _ _ _); [apply Hi|by left| |done].
  intros x k. cbn. by intros [?|[]%elem_of_nil]%elem_of_cons.
Qed.

(** The gateways as they are wired. *)
Definition gateway_runtime : GatewayRuntime :=
  {| rt_keys := KeyState; rt_models := ProviderState; rt_providers := ProviderState |}.

Lemma run_not_found_as {A} e (p : prog A) w :
  run env (not_found_as e p) w =
    match run env p w with
    | (inl err, w') => (inl (if errors_Is err NotFound then e else err), w')
    | (inr a, w') => (inr a, w')
    end.
Proof.
  unfold not_found_as, wrap_err. rewrite run_bind_result. by destruct (run env p w) as [[err|a] w'].
Qed.

Lemma run_resolveActiveModel w t requested :
  sys_inv w t →
  run env (resolveActiveModel gateway_runtime requested) w =
    (ref_active_model (t_models t) (t_keys t) requested, w).
Proof.
  intros Hi. unfold resolveActiveModel, ref_active_model. cbn zeta.
  rewrite run_guard. destruct (_ || _); [done|]. rewrite run_bind.
  rewrite (run_model_by_alias w ProviderState _ _ _ (si_catalog _ _ Hi)).
  destruct (find_by Model_Alias _ _) as [x|]; [|done].
  rewrite run_guard. destruct (negb (bool_decide (Model_Status x = StatusActive))); [done|].
  rewrite run_bind, run_not_found_as.
  rewrite (run_GetModelSubject env w KeyState (t_keys t)) by apply Hi.
  destruct (model_subjects (t_keys t) !! Model_ID x) as [s|] eqn:Hs; [|done].
  rewrite run_guard. rewrite (ki_model_id _ _ (si_keys _ _ Hi) _ _ Hs), bool_decide_eq_true_2 by done.
  destruct (bool_decide (MS_Alias s = _)), (bool_decide (MS_Status s = _)), (MS_Deleted s),
    (MS_Revision s =? Model_Revision x)%Z; done.
Qed.

Definition same_stores w w' : Prop := ∀ d, store_of w' d = store_of w d.

Lemma sys_inv_same w w' t : same_stores w w' → sys_inv w t → sys_inv w' t.
Proof. intros Hs [? ? ?]. split; by rewrite Hs. Qed.

Lemma run_past x w :
  ∃ w', run env (past x) w =
    (inr match x with None => false | Some e => negb (After e (clock env (clock_calls w))) end, w') ∧
    same_stores w w'.
Proof. destruct x as [x|]; eexists; (split; [done|]); by intros []. Qed.

Lemma run_Authorize w t token requested :
  sys_inv w t →
  ∃ w', run env (Authorize gateway_runtime token requested) w =
    (ref_authorize (clock env (clock_calls w)) (t_models t) (t_keys t) token requested, w') ∧
    same_stores w w'.
Proof.
  intros Hi. unfold Authorize, ref_authorize. rewrite run_guard.
  destruct (bool_decide (token = "")); [by exists w|].
  rewrite run_bind, run_not_found_as.
  rewrite (run_key_by_hash w KeyState _ _ (si_keys _ _ Hi)).
  destruct (find_by Key_KeyHash _ _) as [k|]; [|by exists w].
  rewrite run_guard. unfold ref_usable.
  destruct (bool_decide (Key_Status k = StatusActive)); [|by exists w]. cbn [negb andb].
  rewrite run_bind. destruct (run_past (Key_ExpiresAt k) w) as (w' & -> & Hsame). exists w'.
  split; [|done]. rewrite run_guard.
  assert (negb match Key_ExpiresAt k with Some e => After e (clock env (clock_calls w)) | None => true end =
    match Key_ExpiresAt k with None => false | Some e => negb (After e (clock env (clock_calls w))) end)
    as -> by by destruct (Key_ExpiresAt k).
  destruct (match Key_ExpiresAt k with None => _ | Some e => _ end); [done|].
  pose proof (sys_inv_same w w' t Hsame Hi) as Hi'. rewrite run_bind, run_not_found_as.
  rewrite (run_GetSubject env w' KeyState (t_keys t)) by apply Hi'.
  destruct (subjects (t_keys t) !! Key_UserID k) as [s|] eqn:Hs; [|done].
  rewrite run_guard. rewrite (ki_subject_id _ _ (si_keys _ _ Hi) _ _ Hs), bool_decide_eq_true_2 by done.
  cbn [negb orb]. destruct (negb _ || _); [done|]. rewrite run_bind.
  rewrite (run_resolveActiveModel w' t) by done.
  destruct (ref_active_model _ _ requested) as [e|x]; [done|].
  rewrite run_guard. by destruct (bool_decide _).
Qed.

Lemma run_ResolveRoute w t requested :
  sys_inv w t →
  run env (ResolveRoute gateway_runtime requested) w =
    (ref_route (t_providers t) (t_models t) (t_keys t) requested, w).
Proof.
  intros Hi. unfold ResolveRoute, ref_route. rewrite run_bind, (run_resolveActiveModel w t) by done.
  destruct (ref_active_model _ _ requested) as [e|x]; [done|]. rewrite run_bind.
  unfold resolveActiveProviderByID. rewrite run_bind. cbn [rt_providers gateway_runtime].
  pose proof (run_get_entity (T := Provider) env w ProviderState (t_providers t) (Model_ProviderID x)
    (cat_providers _ _ _ (si_catalog _ _ Hi))) as Hg. cbn [coll_name Provider_Collection] in Hg.
  unfold Repository.GetProvider. rewrite Hg.
  destruct (t_providers t !! Model_ProviderID x) as [p|]; [|done].
  rewrite run_guard. by destruct (bool_decide (Provider_Status p = StatusActive)).
Qed.

(** ** What a positive answer means *)

Lemma ref_active_model_inr mt kt requested x :
  (∀ id y, mt !! id = Some y → Model_ID y = id) →
  ref_active_model mt kt requested = inr x →
  mt !! Model_ID x = Some x ∧ sha256_hex (Model_Alias x) = sha256_hex requested ∧
  Model_Status x = StatusActive ∧
  ∃ s, model_subjects kt !! Model_ID x = Some s ∧ MS_Status s = StatusActive ∧
    MS_Deleted s = false ∧ MS_Revision s = Model_Revision x.
Proof.
  intros Hid. unfold ref_active_model.
  destruct (bool_decide (TrimSpace requested = "")); [done|]. cbn [orb].
  destruct (bool_decide (TrimSpace requested = requested)) eqn:E; [|done].
  apply bool_decide_eq_true in E. rewrite E. cbn [negb].
  destruct (find_by Model_Alias mt requested) as [y|] eqn:Hy; [|done].
  destruct (bool_decide (Model_Status y = StatusActive)) eqn:Ha; [|done]. cbn [negb].
  apply bool_decide_eq_true in Ha.
  destruct (model_subjects kt !! Model_ID y) as [s|] eqn:Hs; [|done].
  destruct (_ && _) eqn:Hc; [|done]. intros [= ->].
  apply (find_by_lookup (T := Model) Model_Alias) in Hy as [Hy Hv]; [|done].
  rewrite !andb_true_iff, negb_true_iff, !bool_decide_eq_true, Z.eqb_eq in Hc.
  destruct Hc as [[[_ ?] ?] ?]. split_and!; [done..|]. by exists s.
Qed.

Lemma ref_authorize_inr now mt kt token requested a :
  (∀ id k, keys kt !! id = Some k → Key_ID k = id) →
  (∀ id y, mt !! id = Some y → Model_ID y = id) →
  ref_authorize now mt kt token requested = inr a →
  ∃ k x, keys kt !! Key_ID k = Some k ∧ Auth_KeyID a = Key_ID k ∧ Auth_UserID a = Key_UserID k ∧
    ref_usable now k = true ∧
    (∃ s, subjects kt !! Key_UserID k = Some s ∧ KS_Status s = StatusActive ∧ KS_Deleted s = false) ∧
    ref_active_model mt kt requested = inr x ∧ Model_ID x ∈ Key_ModelIDs k.
Proof.
  intros Hk Hm. unfold ref_authorize. destruct (bool_decide (token = "")); [done|].
  destruct (find_by Key_KeyHash _ _) as [k|] eqn:Hf; [|done].
  apply (find_by_lookup (T := VirtualKey) Key_KeyHash) in Hf as [Hf _]; [|done].
  destruct (ref_usable now k) eqn:Hu; [|done]. cbn [negb].
  destruct (subjects kt !! Key_UserID k) as [s|] eqn:Hs; [|done].
  destruct (bool_decide (KS_Status s = StatusActive)) eqn:Ha; [|done]. apply bool_decide_eq_true in Ha.
  cbn [negb orb]. destruct (KS_Deleted s) eqn:Hd; [done|].
  destruct (ref_active_model mt kt requested) as [e|x] eqn:Hx; [done|].
  destruct (bool_decide _) eqn:Hin; [|done]. apply bool_decide_eq_true in Hin. intros [= <-].
  exists k, x. split_and!; try done. by exists s.
Qed.
End facts.
