(* ===== verification/Termination.v ===== *)
(** * Every request ends

    How many calls a request makes at most, and that none ever waits for
    another: a request in flight can always make its next call. *)

From S2P Require Import Prelude GoStd GoText GoTime Errors State Model Repository Collections Directory.
From S2P Require Import ModelRepository KeyRepository ETag Svc Faults Service KeyService Concurrency.

#[local] Arguments bool_decide : simpl never.

(** ** Operations of bounded length *)

Fixpoint within {A} (n : nat) (s : svc A) {struct s} : Prop :=
  match s, n with
  | Ret _, _ => True
  | Call _ _, O => False
  | Call p k, S n' => ∀ r, within n' (k r)
  end.

Lemma within_le {A} n m (s : svc A) : within n s → (n <= m)%nat → within m s.
Proof.
  revert n m. induction s as [r|B p k IH]; intros n m Hn Hle; [done|].
  destruct n as [|n]; [done|]. destruct m as [|m]; [lia|]. intros r. eapply IH; [apply Hn|lia].
Qed.

Lemma within_bind_result {A B} n m (s : svc A) (f : error + A → svc B) :
  within n s → (∀ r, within m (f r)) → within (n + m) (svc_bind_result s f).
Proof.
  revert n. induction s as [r|C p k IH]; intros n Hn Hf; cbn [svc_bind_result].
  - eapply within_le; [apply Hf|lia].
  - destruct n as [|n]; [done|]. intros r. apply IH; [apply Hn|done].
Qed.
Lemma within_bind {A B} n m (s : svc A) (f : A → svc B) :
  within n s → (∀ a, within m (f a)) → within (n + m) (s ≫= f).
Proof. intros Hs Hf. apply within_bind_result; [done|]. by intros [e|a]. Qed.

Lemma within_ret {A} (r : error + A) : within 0 (Ret r).
Proof. done. Qed.
Lemma within_call {A} (p : prog A) : within 1 (call p).
Proof. by intros r. Qed.
Lemma within_wrapped {A} n f (s : svc A) : within n s → within n (svc_wrap_err f s).
Proof. intros Hs. rewrite <- (Nat.add_0_r n). apply within_bind_result; [done|]. by intros [e|a]. Qed.
Lemma within_ensure e : within 0 (ensure e).
Proof. by destruct e. Qed.

(** Counts the calls of an operation. *)
Ltac count := repeat first
  [ progress cbn zeta
  | match goal with
    | |- within _ (if ?b then _ else _) => destruct b eqn:?
    | |- within _ (match ?x with _ => _ end) => destruct x eqn:?
    | |- within _ (mbind _ (if ?b then _ else _)) => destruct b eqn:?
    | |- within _ (mbind _ (registry _ _)) => unfold registry
    | |- within _ (mbind _ (match ?x with _ => _ end)) => destruct x eqn:?
    | |- within _ (mbind _ _) =>
        first [ eapply (within_bind 0); [first [apply within_ensure|done]|intros ?]
              | eapply (within_bind 1); [first [apply within_call|apply within_wrapped, within_call]|intros ?] ]
    | |- within _ (svc_bind_result (call _) _) => eapply (within_bind_result 1); [apply within_call|intros ?]
    end
  | done
  | apply (within_le 1); [apply within_call|lia] ].


(** A status is not both of the two. *)
Ltac statuses := exfalso; repeat match goal with
  | H : bool_decide _ = true |- _ => apply bool_decide_eq_true in H
  end; unfold StatusActive, StatusDisabled in *; congruence.

Section counts.
Context (s : ResourceService).

Lemma within_CreateUser i : within 4 (CreateUser s i).
Proof. unfold CreateUser. count. Qed.
Lemma within_updateUser id i c : within 4 (updateUser s id i c).
Proof. unfold updateUser. count; try statuses. Qed.
Lemma within_deleteUser id c : within 4 (deleteUser s id c).
Proof. unfold deleteUser. count. Qed.
Lemma within_CreateProvider i : within 3 (CreateProvider s i).
Proof. unfold CreateProvider. count. Qed.
Lemma within_updateProvider id i c : within 3 (updateProvider s id i c).
Proof. unfold updateProvider. count. Qed.
Lemma within_deleteProvider id c : within 2 (deleteProvider s id c).
Proof. unfold deleteProvider. count. Qed.
Lemma within_normalizeModelInput i : within 1 (normalizeModelInput s i).
Proof.
  unfold normalizeModelInput. count. apply (within_bind 1 0); [|intros p; count].
  apply (within_bind_result 1 0); [apply within_call|]. intros [e|p]; [by destruct (errors_Is _ _)|done].
Qed.
Lemma within_CreateModel i : within 5 (CreateModel s i).
Proof. unfold CreateModel. eapply (within_bind 1); [apply within_normalizeModelInput|intros j]. count. Qed.
Lemma within_updateModel id i c : within 5 (updateModel s id i c).
Proof.
  unfold updateModel. count. eapply (within_bind 1); [apply within_normalizeModelInput|intros j].
  count; try statuses.
Qed.
Lemma within_deleteModel id c : within 4 (deleteModel s id c).
Proof. unfold deleteModel. count. Qed.
End counts.

Section key_counts.
Context (keys : domain).

Lemma within_normalize_models status values l :
  within (length values) (normalize_models keys status values l).
Proof.
  revert l. induction values as [|v values IH]; intros l; [done|]. cbn [normalize_models length]. cbn zeta.
  apply (within_bind 0); [apply within_ensure|intros _].
  destruct (bool_decide _); [eapply within_le; [apply IH|lia]|].
  apply (within_bind_result 1); [apply within_call|]. intros [e|m]; [by destruct (errors_Is _ _)|].
  destruct (MS_Deleted m); [done|]. destruct (_ && _); [done|]. apply IH.
Qed.
Lemma within_normalizeInput i : within (2 + length (VI_ModelIDs i)) (normalizeInput keys i).
Proof.
  unfold normalizeInput. count. eapply (within_bind 1).
  { apply (within_bind_result 1 0); [apply within_call|].
    intros [e|x]; [by destruct (errors_Is _ _)|by destruct (KS_Deleted x)]. }
  intros x. count. eapply (within_bind 1); [unfold expired; count|]. intros past. count.
  apply (within_le (length (VI_ModelIDs i) + 0)); [|exact (Nat.eq_le_incl _ _ (Nat.add_0_r _))].
  eapply within_bind; [apply within_normalize_models|]. intros l. count.
Qed.
Lemma within_CreateVirtualKey i : within (6 + length (VI_ModelIDs i)) (CreateVirtualKey keys i).
Proof.
  unfold CreateVirtualKey. apply (within_le (2 + length (VI_ModelIDs i) + 4)); [|lia].
  eapply within_bind; [apply within_normalizeInput|]. intros j. count.
Qed.
Lemma within_updateVirtualKey id i c : within (5 + length (VI_ModelIDs i)) (updateVirtualKey keys id i c).
Proof.
  unfold updateVirtualKey. count. apply (within_le (2 + length (VI_ModelIDs i) + 2)); [|lia].
  eapply within_bind; [apply within_normalizeInput|]. intros j. count.
Qed.
Lemma within_deleteVirtualKey id c : within 2 (deleteVirtualKey keys id c).
Proof. unfold deleteVirtualKey. count. Qed.
End key_counts.

(** ** The most calls a request makes *)

Definition budget (q : request) : nat :=
  match q with
  | ReqCreateUser _ | ReqUpdateUser _ _ _ | ReqDeleteUser _ _ | ReqDeleteModel _ _ => 4
  | ReqCreateProvider _ | ReqUpdateProvider _ _ _ => 3
  | ReqDeleteProvider _ _ | ReqDeleteKey _ _ => 2
  | ReqCreateModel _ | ReqUpdateModel _ _ _ => 5
  | ReqCreateKey i => 6 + length (VI_ModelIDs i)
  | ReqUpdateKey _ i _ => 5 + length (VI_ModelIDs i)
  | _ => 1
  end.

Lemma within_respond {A} n (f : A → response) (s : svc A) : within n s → within n (respond f s).
Proof. intros Hs. rewrite <- (Nat.add_0_r n). by apply within_bind. Qed.

Lemma within_handle subj mods q : within (budget q) (handle subj mods q).
Proof.
  destruct q; cbn [handle budget]; apply within_respond.
  - apply within_CreateUser.
  - apply within_call.
  - apply within_call.
  - apply within_updateUser.
  - apply within_deleteUser.
  - apply within_CreateProvider.
  - apply within_call.
  - apply within_call.
  - apply within_updateProvider.
  - apply within_deleteProvider.
  - apply within_CreateModel.
  - apply within_call.
  - apply within_call.
  - apply within_updateModel.
  - apply within_deleteModel.
  - apply within_CreateVirtualKey.
  - unfold GetVirtualKey. count.
  - unfold ListVirtualKeys. count.
  - apply within_updateVirtualKey.
  - apply within_deleteVirtualKey.
Qed.

(** ** Calls always return *)

Section termination.
Context {S : Type} `{StateStoreLaws S}.
Context (subj : SubjectRegistry) (mods : option ModelRegistry).
Implicit Types (c : config (S := S)) (w : world S).

Lemma exec_total {A} (p : prog A) w : ∃ r w', exec p w r w'.
Proof.
  revert w. induction p as [r|d key k IH|d ops k IH|k IH|n k IH]; intros w.
  - eexists _, _. constructor.
  - destruct (IH (Get (store_of w d) key) w) as (r & w' & He). eexists _, _. by apply exec_get.
  - destruct (Transact (store_of w d) ops) as [e s] eqn:E.
    destruct (IH e (set_store w d s)) as (r & w' & He). eexists _, _. by eapply exec_transact.
  - destruct (IH zero_time w) as (r & w' & He). eexists _, _. eapply exec_now; [|done]. eexists. reflexivity.
  - destruct (IH (inl ErrUnavailable) w) as (r & w' & He). eexists _, _. by eapply exec_random_failed.
Qed.

(** A request goes on alone to its answer. *)
Lemma finishes n c i q s :
  running c !! i = Some (q, s) → within n s →
  ∃ m c' r, (m <= n)%nat ∧ nsteps (step subj mods) m c c' ∧ running c' !! i = Some (q, Ret r).
Proof.
  revert n c. induction s as [r|B p k IH]; intros n c Hc Hn.
  - exists 0%nat, c, r. split_and!; [lia|constructor|done].
  - destruct n as [|n]; [done|]. destruct c as [w l]. cbn in Hc.
    destruct (exec_total p w) as (r & w' & He).
    set (c1 := {| stores := w'; running := <[i:=(q, k r)]> l |}).
    assert (running c1 !! i = Some (q, k r)) as Hc1.
    { cbn. apply list_lookup_insert_eq. by eapply lookup_lt_Some. }
    destruct (IH r n c1 Hc1 (Hn r)) as (m & c' & r' & Hm & Hsteps & Hr).
    exists (Datatypes.S m), c', r'. split_and!; [lia| |done]. eapply nsteps_l; [by eapply step_call|done].
Qed.

(** How many calls each request has made. *)
Definition counted (n : nat) c (calls : list nat) : Prop :=
  length calls = length (running c) ∧ (n = length calls + sum_list calls)%nat ∧
  ∀ i q s k, running c !! i = Some (q, s) → calls !! i = Some k →
    (k <= budget q)%nat ∧ within (budget q - k) s.

Lemma sum_list_snoc l x : sum_list (l ++ [x]) = (sum_list l + x)%nat.
Proof. induction l as [|y l IH]; cbn; [lia|]. rewrite IH. lia. Qed.
Lemma sum_list_insert l i k : l !! i = Some k → sum_list (<[i := Datatypes.S k]> l) = Datatypes.S (sum_list l).
Proof.
  revert i. induction l as [|y l IH]; intros [|i] Hi; [done|done| |].
  - cbn in Hi. injection Hi as ->. done.
  - specialize (IH i Hi). change (y + sum_list (<[i:=Datatypes.S k]> l) = Datatypes.S (y + sum_list l))%nat. lia.
Qed.

Lemma step_counted n c c' calls :
  counted n c calls → step subj mods c c' → ∃ calls', counted (Datatypes.S n) c' calls'.
Proof.
  intros (Hl & Hn & Hc) Hst. destruct Hst as [w l q Hq|w l i q B p k r w' Hi He]; cbn in *.
  - exists (calls ++ [0%nat]). split_and!; cbn.
    + rewrite !length_app, Hl. done.
    + rewrite length_app, sum_list_snoc. cbn. lia.
    + intros j q' s x [Hj|[Hlen Hj]]%lookup_app_Some Hx.
      * rewrite lookup_app_l in Hx by (rewrite Hl; by eapply lookup_lt_Some). by eapply Hc.
      * rewrite lookup_app_r in Hx by lia. rewrite Hl in Hx.
        destruct (j - length l)%nat eqn:E; [|by destruct n0]. cbn in Hj, Hx. simplify_eq.
        split; [lia|]. rewrite Nat.sub_0_r. apply within_handle.
  - assert (i < length calls)%nat as Hlt by (rewrite Hl; by eapply lookup_lt_Some).
    destruct (lookup_lt_is_Some_2 calls i Hlt) as [x Hx].
    destruct (Hc i q _ x Hi Hx) as [Hle Hw]. destruct (budget q - x)%nat as [|b] eqn:Eb; [done|].
    exists (<[i := Datatypes.S x]> calls). split_and!; cbn.
    + by rewrite !length_insert.
    + rewrite length_insert, (sum_list_insert _ _ _ Hx). lia.
    + intros j q' s y Hj Hy. destruct (decide (j = i)) as [->|Hne].
      * rewrite list_lookup_insert_eq in Hj by (by eapply lookup_lt_Some).
        rewrite list_lookup_insert_eq in Hy by done. simplify_eq. split; [lia|].
        replace (budget q' - Datatypes.S x)%nat with b by lia. apply Hw.
      * rewrite list_lookup_insert_ne in Hj by done. rewrite list_lookup_insert_ne in Hy by done.
        by eapply Hc.
Qed.

Lemma steps_counted m n c c' calls :
  counted n c calls → nsteps (step subj mods) m c c' → ∃ calls', counted (n + m) c' calls'.
Proof.
  intros Hc Hst. revert n calls Hc. induction Hst as [c|m c1 c2 c3 Hst _ IH]; intros n calls Hc.
  - exists calls. by rewrite Nat.add_0_r.
  - destruct (step_counted _ _ _ _ Hc Hst) as [calls' Hc']. destruct (IH _ _ Hc') as [calls'' H2].
    exists calls''. by rewrite Nat.add_succ_r.
Qed.

Lemma sum_list_le (l : list (request * svc response)) calls :
  length calls = length l →
  (∀ i th k, l !! i = Some th → calls !! i = Some k → (k <= budget th.1)%nat) →
  (length calls + sum_list calls <= sum_list ((λ th, Datatypes.S (budget th.1)) <$> l))%nat.
Proof.
  revert calls. induction l as [|th l IH]; intros [|k calls] Hl Hk; cbn in *; [lia|done|done|].
  specialize (IH calls ltac:(lia) (λ i, Hk (Datatypes.S i))). specialize (Hk 0%nat th k eq_refl eq_refl). lia.
Qed.

End termination.

(** ** A concurrent pair of requests *)

Module TerminationSample.
Definition subj : SubjectRegistry := {|
  reg_SyncSubject := λ _, fail ErrUnavailable; reg_FenceSubject := λ _, fail ErrUnavailable |}.
Definition requests : list request := [ReqListUsers; ReqDeleteUser "u1" no_precondition].
End TerminationSample.

