(* ===== verification/EndToEnd.v ===== *)
(** * What clients of the system can rely on

    The theorems about the composed system: the two control planes with any
    number of requests in flight, faults and crashes, and the gateways reading
    their stores. *)

From S2P Require Import Prelude GoStd Json GoText GoTime Errors State Model Repository Collections.
From S2P Require Import Directory ModelRepository KeyRepository ETag Svc Faults Protocol.
From S2P Require Import Service KeyService Registry ServiceFacts KeyFacts System Interleave.
From S2P Require Import ServiceSafety Concurrency Runtime RuntimeFacts.

#[local] Arguments bool_decide : simpl never.

(** ** Fault-free runs, to reach concrete configurations *)

Section drive.
Context {S : Type} `{StateStore S} (now0 : Time) (byte : N).

Fixpoint quiet {A} (p : prog A) (w : world S) : (error + A) * world S :=
  match p with
  | Done r => (r, w)
  | DoGet d key k => quiet (k (Get (store_of w d) key)) w
  | DoTransact d ops k =>
      let '(e, s) := Transact (store_of w d) ops in quiet (k e) (set_store w d s)
  | DoNow k => quiet (k now0) w
  | DoRead n k => quiet (k (inr (replicate n byte))) w
  end.

Lemma quiet_exec {A} (p : prog A) w :
  time_ok now0 → (byte < 256)%N → exec p w (quiet p w).1 (quiet p w).2.
Proof.
  intros Ht Hb. revert w. induction p as [r|d key k IH|d ops k IH|k IH|n k IH]; intros w; cbn.
  - constructor.
  - apply exec_get, IH.
  - destruct (Transact (store_of w d) ops) as [e s] eqn:E. by eapply exec_transact.
  - by apply (exec_now _ _ now0).
  - eapply exec_random; [apply length_replicate| |apply IH]. by apply list.Forall_replicate.
Qed.

Context (subj : SubjectRegistry) (mods : option ModelRegistry).
Abbreviation cfg := (config (S := S)).

(** A request arrives, and makes its next calls until it has answered. *)
Definition arrive (c : cfg) (q : request) : cfg :=
  {| stores := stores c; running := running c ++ [(q, handle subj mods q)] |}.

Definition call_of (c : cfg) (i : nat) : cfg :=
  match running c !! i with
  | Some (q, Call p k) =>
      let '(r, w') := quiet p (stores c) in
      {| stores := w'; running := <[i := (q, k r)]> (running c) |}
  | _ => c
  end.

Fixpoint serve (fuel : nat) (c : cfg) (i : nat) : cfg :=
  match fuel with O => c | Datatypes.S fuel' => serve fuel' (call_of c i) i end.

Definition run_requests (fuel : nat) (c : cfg) (qs : list request) : cfg :=
  foldl (λ c q, serve fuel (arrive c q) (length (running c))) c qs.

Definition reaches (n : nat) (c c' : cfg) : Prop :=
  ∃ m, (m <= n)%nat ∧ nsteps (step subj mods) m c c'.

Lemma reaches_refl n c : reaches n c c.
Proof. exists 0%nat. split; [lia|constructor]. Qed.
Lemma reaches_trans n n' c1 c2 c3 : reaches n c1 c2 → reaches n' c2 c3 → reaches (n + n') c1 c3.
Proof.
  intros (m & Hm & Hst) (m' & Hm' & Hst'). exists (m + m')%nat. split; [lia|].
  by eapply nsteps_trans.
Qed.

Context (Hnow : time_ok now0) (Hbyte : (byte < 256)%N).

Lemma call_of_reaches c i : reaches 1 c (call_of c i).
Proof.
  unfold call_of. destruct (running c !! i) as [[q [r|B p k]]|] eqn:E; try apply reaches_refl.
  pose proof (quiet_exec p (stores c) Hnow Hbyte) as He.
  destruct (quiet p (stores c)) as [r w']. exists 1%nat. split; [done|].
  eapply nsteps_l; [|constructor]. destruct c as [w l]. by eapply step_call.
Qed.

Lemma serve_reaches fuel c i : reaches fuel c (serve fuel c i).
Proof.
  revert c. induction fuel as [|fuel IH]; intros c; [apply reaches_refl|].
  apply (reaches_trans 1 fuel c (call_of c i)); [apply call_of_reaches|apply IH].
Qed.

Lemma run_requests_reaches fuel c qs :
  Forall request_ok qs → reaches (length qs * (1 + fuel)) c (run_requests fuel c qs).
Proof.
  intros Hqs. revert c. induction Hqs as [|q qs Hq Hqs IH]; intros c; [apply reaches_refl|].
  cbn [length Nat.mul]. eapply reaches_trans; [|apply IH].
  eapply (reaches_trans 1 fuel); [|apply serve_reaches].
  exists 1%nat. split; [done|]. eapply nsteps_l; [|constructor]. destruct c as [w l].
  by apply step_arrive.
Qed.
End drive.

(** ** The theorems *)

Section theorems.
Context {S : Type} `{StateStoreLaws S}.
Context (subj : SubjectRegistry) (Hsubj : SubjectRegistryLaws (S := S) subj).
Context (mods : option ModelRegistry) (Hmods : ∀ m, mods = Some m → ModelRegistryLaws (S := S) m).
Context (env : environment).
Implicit Types (c : config (S := S)).

(** Reached in [n] steps from empty stores. *)
Definition reachable (n : nat) c : Prop :=
  (Z.of_nat n < two64)%Z ∧
  ∃ w, (∀ d, view (store_of w d) = ∅) ∧ nsteps (step subj mods) n (started w) c.

Lemma reachable_good n c : reachable n c → ∃ t, good (Z.of_nat n) c t.
Proof. intros (Hn & w & He & Hst). by eapply reach_good. Qed.

(** Later steps of a reachable configuration keep what is stable. *)
Lemma reachable_later n m c c' :
  reachable n c → nsteps (step subj mods) m c c' → (Z.of_nat (n + m) < two64)%Z →
  ∃ t t', good (Z.of_nat n) c t ∧ good (Z.of_nat (n + m)) c' t' ∧ ∀ P, stable P → P t → P t'.
Proof.
  intros Hr Hst Hb. destruct (reachable_good n c Hr) as [t Hg].
  destruct (steps_good subj Hsubj mods Hmods m (Z.of_nat n) c c' t) as (t' & Hg' & HP);
    [lia|lia|done|done|].
  exists t, t'. split_and!; [done| |done]. by rewrite Nat2Z.inj_add.
Qed.

(** What a request that has answered was promised. *)
Lemma answered_promise n c t q a :
  good n c t → (q, Ret (inr a)) ∈ running c → ∃ P, stable P ∧ P t ∧ ∀ t', P t' → promise q a t'.
Proof.
  intros Hg Hin. pose proof (good_threads _ _ _ Hg) as Hth. rewrite list.Forall_forall in Hth.
  destruct (Hth _ Hin) as (P & HP & HPt & Hs). by exists P.
Qed.

Lemma later_promise n m c c' q a :
  reachable n c → (q, Ret (inr a)) ∈ running c →
  nsteps (step subj mods) m c c' → (Z.of_nat (n + m) < two64)%Z →
  ∃ t', good (Z.of_nat (n + m)) c' t' ∧ promise q a t'.
Proof.
  intros Hr Hin Hst Hb. destruct (reachable_later n m c c' Hr Hst Hb) as (t & t' & Hg & Hg' & HP).
  destruct (answered_promise _ _ _ _ _ Hg Hin) as (P & HPs & HPt & Hprom).
  exists t'. split; [done|]. apply Hprom. by apply HP.
Qed.

(** Reads of a good configuration. *)
Lemma good_subject n c t id s :
  good n c t → run env (GetSubject KeyState id) (stores c) = (inr s, stores c) →
  uproj t id = Some (proj_of_subject s).
Proof.
  intros Hg Hs. rewrite (run_GetSubject env _ KeyState (t_keys t)) in Hs by apply Hg.
  unfold uproj. destruct (subjects (t_keys t) !! id); [by injection Hs as ->|done].
Qed.
Lemma good_model_subject n c t id s :
  good n c t → run env (GetModelSubject KeyState id) (stores c) = (inr s, stores c) →
  mproj t id = Some (proj_of_model s).
Proof.
  intros Hg Hs. rewrite (run_GetModelSubject env _ KeyState (t_keys t)) in Hs by apply Hg.
  unfold mproj. destruct (model_subjects (t_keys t) !! id); [by injection Hs as ->|done].
Qed.
Lemma good_user n c t id y :
  good n c t → ucanon t id = Some y →
  ∃ u, run env (Repository.GetUser ControlState id) (stores c) = (inr u, stores c) ∧
    canon_of_user u = y.
Proof.
  intros Hg Hy. unfold ucanon in Hy. destruct (t_users t !! id) as [u|] eqn:E; [|done].
  injection Hy as <-. exists u. rewrite (run_GetUser env _ _ (t_users t)) by apply Hg. by rewrite E.
Qed.
Lemma good_model n c t id y :
  good n c t → mcanon t id = Some y →
  ∃ x, run env (ModelRepository.GetModel ProviderState id) (stores c) = (inr x, stores c) ∧
    canon_of_model x = y.
Proof.
  intros Hg Hy. unfold mcanon in Hy. destruct (t_models t !! id) as [x|] eqn:E; [|done].
  injection Hy as <-. exists x. split; [|done].
  pose proof (run_get_entity (T := Model) env (stores c) ProviderState (t_models t) id
    (cat_models _ _ _ (si_catalog _ _ (good_inv _ _ _ Hg)))) as Hget. rewrite E in Hget. exact Hget.
Qed.

Lemma good_key n c t id k :
  good n c t → keys (t_keys t) !! id = Some k →
  run env (KeyRepository.GetVirtualKey KeyState id) (stores c) = (inr k, stores c).
Proof. intros Hg Hk. by rewrite (run_GetVirtualKey env _ KeyState (t_keys t)), Hk by apply Hg. Qed.
Lemma good_model_read n c t id x :
  good n c t → t_models t !! id = Some x →
  run env (ModelRepository.GetModel ProviderState id) (stores c) = (inr x, stores c).
Proof.
  intros Hg Hx. pose proof (run_get_entity (T := Model) env (stores c) ProviderState (t_models t) id
    (cat_models _ _ _ (si_catalog _ _ (good_inv _ _ _ Hg)))) as Hget. rewrite Hx in Hget. exact Hget.
Qed.
Lemma good_provider n c t id p :
  good n c t → t_providers t !! id = Some p →
  run env (Repository.GetProvider ProviderState id) (stores c) = (inr p, stores c).
Proof.
  intros Hg Hp. pose proof (run_get_entity (T := Provider) env (stores c) ProviderState (t_providers t)
    id (cat_providers _ _ _ (si_catalog _ _ (good_inv _ _ _ Hg)))) as Hget.
  rewrite Hp in Hget. exact Hget.
Qed.

(** The user behind an active subject. *)
Lemma good_owner n c t id s :
  good n c t → subjects (t_keys t) !! id = Some s → KS_Status s = StatusActive →
  ∃ u, run env (Repository.GetUser ControlState id) (stores c) = (inr u, stores c) ∧
    User_Status u = StatusActive.
Proof.
  intros Hg Hs Hact.
  destruct (backed_active _ _ (pr_user _ _ (good_proto _ _ _ Hg) id) (proj_of_subject s))
    as (z & Hz & Hza & _).
  { unfold uproj. by rewrite Hs. } { cbn. by rewrite Hact. }
  destruct (good_user _ _ _ _ _ Hg Hz) as (u & Hgu & <-). exists u. split; [done|].
  by apply bool_decide_eq_true in Hza.
Qed.

(** What a granted authorization means in a good configuration. *)
Lemma good_authorized n c t token requested a w' :
  good n c t → run env (Authorize gateway_runtime token requested) (stores c) = (inr a, w') →
  ∃ k x, keys (t_keys t) !! Key_ID k = Some k ∧ Auth_KeyID a = Key_ID k ∧
    Auth_UserID a = Key_UserID k ∧
    (∃ s, subjects (t_keys t) !! Auth_UserID a = Some s ∧ KS_Status s = StatusActive ∧
       KS_Deleted s = false) ∧
    t_models t !! Model_ID x = Some x ∧ Model_Status x = StatusActive ∧
    sha256_hex (Model_Alias x) = sha256_hex requested ∧
    ref_active_model (t_models t) (t_keys t) requested = inr x ∧
    Model_ID x ∈ Key_ModelIDs k ∧ Key_Status k = StatusActive.
Proof.
  intros Hg Hrun. pose proof (good_inv _ _ _ Hg) as Hi.
  destruct (run_Authorize env (stores c) t token requested Hi) as (w1 & Hr & _).
  rewrite Hr in Hrun. injection Hrun as Hrun _.
  assert (Hm : ∀ id y, t_models t !! id = Some y → Model_ID y = id).
  { intros id y Hy. by destruct (ci_ok _ _ (cat_models _ _ _ (si_catalog _ _ Hi)) id y Hy). }
  destruct (ref_authorize_inr _ _ _ _ _ _
    (λ id k Hk, proj1 (ci_ok _ _ (ki_keys _ _ (si_keys _ _ Hi)) id k Hk)) Hm Hrun)
    as (k & x & Hk & Hid & Hu & Hus & Hs & Hx & Hin).
  destruct (ref_active_model_inr _ _ _ _ Hm Hx) as (Hxt & Hxd & Hxa & _).
  exists k, x. rewrite Hu. split_and!; try done.
  unfold ref_usable in Hus. apply andb_true_iff in Hus as [Hus _]. by apply bool_decide_eq_true in Hus.
Qed.

(** C10.  Projections never run ahead of the records they project.  However
    many requests interleave in the two control planes, whatever reads fail,
    commits are lost or answered ambiguously, and wherever requests crash:
    when the key state holds an active subject of a user, the private store
    holds that user, active, at the same or a later revision; and likewise
    for the subject of a model and the model. *)
Theorem projections_backed n c :
  reachable n c →
  (∀ id s, run env (GetSubject KeyState id) (stores c) = (inr s, stores c) →
     KS_Status s = StatusActive →
     ∃ u, run env (Repository.GetUser ControlState id) (stores c) = (inr u, stores c) ∧
       User_Status u = StatusActive ∧ (KS_Revision s <= User_Revision u)%Z) ∧
  (∀ id s, run env (GetModelSubject KeyState id) (stores c) = (inr s, stores c) →
     MS_Status s = StatusActive →
     ∃ x, run env (ModelRepository.GetModel ProviderState id) (stores c) = (inr x, stores c) ∧
       Model_Status x = StatusActive ∧ (MS_Revision s <= Model_Revision x)%Z).
Proof.
  intros Hr. destruct (reachable_good n c Hr) as [t Hg]. split; intros id s Hs Ha.
  - pose proof (good_subject _ _ _ _ _ Hg Hs) as Hp.
    destruct (backed_active _ _ (pr_user _ _ (good_proto _ _ _ Hg) id) _ Hp) as (y & Hy & Hya & Hle).
    { cbn. by rewrite Ha. }
    destruct (good_user _ _ _ _ _ Hg Hy) as (u & Hu & <-). exists u.
    split_and!; [done| |done]. by apply bool_decide_eq_true in Hya.
  - pose proof (good_model_subject _ _ _ _ _ Hg Hs) as Hp.
    destruct (backed_active _ _ (pr_model _ _ (good_proto _ _ _ Hg) id) _ Hp) as (y & Hy & Hya & Hle).
    { cbn. by rewrite Ha. }
    destruct (good_model _ _ _ _ _ Hg Hy) as (x & Hx & <-). exists x.
    split_and!; [done| |done]. by apply bool_decide_eq_true in Hya.
Qed.

(** C11.  Deletion is final.  Once a request to delete a user has answered
    success, then, after any further steps of the system: the subject of the
    user is a tombstone, no virtual key of the user exists, and no token is
    authorized as that user for any model. *)
Theorem deleted_users_stay_out n m c c' id pre a :
  reachable n c → (ReqDeleteUser id pre, Ret (inr a)) ∈ running c →
  nsteps (step subj mods) m c c' → (Z.of_nat (n + m) < two64)%Z →
  (∃ s, run env (GetSubject KeyState id) (stores c') = (inr s, stores c') ∧ KS_Deleted s = true) ∧
  (∀ kid k, run env (KeyRepository.GetVirtualKey KeyState kid) (stores c') = (inr k, stores c') →
     Key_UserID k ≠ id) ∧
  (∀ token requested auth w', run env (Authorize gateway_runtime token requested) (stores c') =
     (inr auth, w') → Auth_UserID auth ≠ id).
Proof.
  intros Hr Hin Hst Hb.
  destruct (later_promise n m c c' _ _ Hr Hin Hst Hb) as (t & Hg & x & Hx & Hd & _).
  unfold uproj in Hx. destruct (subjects (t_keys t) !! id) as [s|] eqn:E; [|done].
  injection Hx as <-. cbn in Hd. pose proof (si_keys _ _ (good_inv _ _ _ Hg)) as Hk.
  assert (Hno : ∀ kid k, keys (t_keys t) !! kid = Some k → Key_UserID k ≠ id).
  { intros kid k Hkid Eid. destruct (key_owner _ _ (ki_ok _ _ Hk kid k Hkid)) as (s' & Hs' & Hd').
    rewrite Eid, E in Hs'. congruence. }
  split_and!.
  - exists s. split; [|done]. by rewrite (run_GetSubject env _ KeyState (t_keys t)), E.
  - intros kid k Hget. rewrite (run_GetVirtualKey env _ KeyState (t_keys t)) in Hget by done.
    destruct (keys (t_keys t) !! kid) as [k'|] eqn:Ek; [|done]. injection Hget as ->. by eapply Hno.
  - intros token requested auth w' Ha.
    destruct (good_authorized _ _ _ _ _ _ _ Hg Ha) as (k & y & Hkt & _ & -> & _). by eapply Hno.
Qed.



(** C14.  Authorization against its reference.  On any stores that hold tables
    [t], [Authorize] returns exactly what [ref_authorize] says of the tables,
    on every branch: unauthorized for an empty or unknown token, for a key
    that is not active or not after the clock, for a missing, inactive or
    deleted subject; forbidden for a model that is inactive, whose subject is
    missing, inactive, deleted or at another revision, or that the key does
    not name; and it writes nothing. *)
Theorem Authorize_reference (w : world S) t token requested :
  sys_inv w t →
  ∃ w', run env (Authorize gateway_runtime token requested) w =
    (ref_authorize (clock env (clock_calls w)) (t_models t) (t_keys t) token requested, w') ∧
    ∀ d, store_of w' d = store_of w d.
Proof. apply run_Authorize. Qed.

(** C15.  Routes.  On any stores that hold tables [t], [ResolveRoute] returns
    exactly [ref_route]; a route it returns is to an active model with that
    alias digest, through the model's own provider, which is active, under the
    upstream name of the model, or its alias when that is empty. *)
Theorem ResolveRoute_reference (w : world S) t requested :
  sys_inv w t →
  run env (ResolveRoute gateway_runtime requested) w =
    (ref_route (t_providers t) (t_models t) (t_keys t) requested, w) ∧
  ∀ r, run env (ResolveRoute gateway_runtime requested) w = (inr r, w) →
    ∃ x p, t_models t !! Route_ModelID r = Some x ∧ Model_Status x = StatusActive ∧
      Route_Alias r = Model_Alias x ∧ sha256_hex (Model_Alias x) = sha256_hex requested ∧
      t_providers t !! Model_ProviderID x = Some p ∧ Provider_Status p = StatusActive ∧
      Route_ProviderID r = Model_ProviderID x ∧ Route_AdapterAppID r = Provider_AdapterAppID p ∧
      Route_UpstreamModel r =
        (if decide (Model_UpstreamModel x = "") then Model_Alias x else Model_UpstreamModel x).
Proof.
  intros Hi. pose proof (run_ResolveRoute env w t requested Hi) as Hrun. split; [done|].
  intros r Hr. rewrite Hrun in Hr. injection Hr as Hr. unfold ref_route in Hr.
  destruct (ref_active_model _ _ requested) as [e|x] eqn:Hx; [done|].
  destruct (t_providers t !! Model_ProviderID x) as [p|] eqn:Hp; [|done].
  destruct (bool_decide (Provider_Status p = StatusActive)) eqn:Ha; [|done].
  apply bool_decide_eq_true in Ha. injection Hr as <-. cbn.
  apply ref_active_model_inr in Hx as (Hx & Hd & Hxa & _).
  - exists x, p. destruct (ci_ok _ _ (cat_providers _ _ _ (si_catalog _ _ Hi)) _ _ Hp) as [Hid _].
    cbn in Hid. split_and!; try done. by repeat case_bool_decide; case_decide.
  - intros id y Hy. by destruct (ci_ok _ _ (cat_models _ _ _ (si_catalog _ _ Hi)) id y Hy).
Qed.
End theorems.

(** ** Concrete inputs *)

Module SystemSample.
Definition subj : SubjectRegistry := direct_subjects KeyState.
Definition mods : option ModelRegistry := Some (direct_models KeyState).
(** The random source answers with one byte: [0x2a] at first, [0x2b] later. *)
Definition run0 : config (S := Memory.MemoryStore) → list request → config :=
  run_requests Sample.time 42 subj mods 24.
Definition run1 : config (S := Memory.MemoryStore) → list request → config :=
  run_requests Sample.time 43 subj mods 24.
Definition id (prefix : string) : string :=
  prefix +:+ "_2a2a2a2a2a2a2a2a2a2a2a2a2a2a2a2a".
Definition id1 (prefix : string) : string :=
  prefix +:+ "_2b2b2b2b2b2b2b2b2b2b2b2b2b2b2b2b".
Definition create_user_as (email : string) : request :=
  ReqCreateUser {| UI_Name := "Ada"; UI_Email := email; UI_Status := "" |}.
Definition create_user : request := create_user_as " Ada@Example.com".
Definition disable_input : UserInput :=
  {| UI_Name := "Ada"; UI_Email := "ada@example.com"; UI_Status := StatusDisabled |}.
Definition disable_user : request := ReqUpdateUser (id "usr") disable_input no_precondition.
Definition delete_user : request := ReqDeleteUser (id "usr") no_precondition.
Definition setup_as (id : string → string) (email : string) : list request :=
  [create_user_as email;
   ReqCreateProvider {| PI_Slug := "acme"; PI_Name := "Acme"; PI_Kind := "gemini";
     PI_AdapterAppID := "acme-adapter"; PI_Status := "" |};
   ReqCreateModel {| MI_Alias := "fast"; MI_ProviderID := id "prv"; MI_UpstreamModel := "";
     MI_Status := "" |};
   ReqCreateKey {| VI_Name := "laptop"; VI_UserID := id "usr"; VI_ModelIDs := [id "mdl"];
     VI_Status := ""; VI_ExpiresAt := None |}].
Definition setup : list request := setup_as id " Ada@Example.com".
Definition token : string := "gwai_" +:+ RawURLEncode (replicate 32 42%N).
Definition token1 : string := "gwai_" +:+ RawURLEncode (replicate 32 43%N).
Definition ready : config (S := Memory.MemoryStore) := run0 (started Sample.world0) setup.
Definition disabled : config (S := Memory.MemoryStore) :=
  run1 (run0 (started Sample.world0) [create_user; disable_user]) (setup_as id1 "bob@example.com").
Definition deleted : config (S := Memory.MemoryStore) :=
  run0 (started Sample.world0) [create_user; delete_user].
Definition user1 : User := {|
  User_ID := id "usr"; User_Name := "Ada"; User_Email := "ada@example.com";
  User_Status := StatusActive; User_Revision := 1; User_CreatedAt := Sample.time;
  User_UpdatedAt := Sample.time |}.
Definition user2 : User := {|
  User_ID := id "usr"; User_Name := "Ada"; User_Email := "ada@example.com";
  User_Status := StatusDisabled; User_Revision := 2; User_CreatedAt := Sample.time;
  User_UpdatedAt := Sample.time |}.
Definition subject1 : KeySubject := {|
  KS_UserID := id "usr"; KS_Status := StatusActive; KS_Revision := 1; KS_Deleted := false;
  KS_UpdatedAt := Sample.time |}.
End SystemSample.

Section samples.
Import SystemSample.

Lemma sample_time : time_ok Sample.time.
Proof. by eexists. Qed.

Lemma sample_reachable2 qs qs' :
  Forall request_ok qs → Forall request_ok qs' → (length qs + length qs' < 10)%nat →
  ∃ n, (n < 500)%nat ∧ reachable subj mods n (run1 (run0 (started Sample.world0) qs) qs').
Proof.
  intros Hqs Hqs' Hl.
  assert (reaches subj mods (length qs * 25 + length qs' * 25) (started Sample.world0)
    (run1 (run0 (started Sample.world0) qs) qs')) as (m & Hm & Hst).
  { eapply reaches_trans; [apply (run_requests_reaches Sample.time 42)|apply (run_requests_reaches Sample.time 43)];
      done || apply sample_time. }
  exists m. split; [lia|]. split; [unfold two64; lia|].
  exists Sample.world0. split; [by intros []|done].
Qed.

Lemma sample_reachable qs :
  Forall request_ok qs → (length qs < 10)%nat →
  ∃ n, (n < 500)%nat ∧ reachable subj mods n (run0 (started Sample.world0) qs).
Proof.
  intros Hqs Hl. apply (sample_reachable2 qs []); [done|constructor|cbn; lia].
Qed.

Lemma sample_models : ∀ m, mods = Some m → ModelRegistryLaws (S := Memory.MemoryStore) m.
Proof. intros m [= <-]. apply direct_models_laws. Qed.

Lemma setup_ok : Forall request_ok setup.
Proof. repeat constructor; by vm_compute. Qed.
End samples.

Lemma projections_backed_witness :
  ∃ u, run Sample.env (Repository.GetUser ControlState (SystemSample.id "usr"))
         (stores SystemSample.ready) = (inr u, stores SystemSample.ready) ∧
    User_Status u = StatusActive ∧ (1 <= User_Revision u)%Z.
Proof.
  destruct (sample_reachable SystemSample.setup setup_ok ltac:(cbn; lia)) as (n & _ & Hr).
  refine (proj1 (projections_backed SystemSample.subj direct_subjects_laws SystemSample.mods
    sample_models Sample.env n _ Hr) (SystemSample.id "usr") SystemSample.subject1 _ eq_refl).
  apply run_reads; [unfold GetSubject; reads_tac|]. by_vm.
Defined.

Lemma deleted_users_stay_out_witness :
  ∃ s, run Sample.env (GetSubject KeyState (SystemSample.id "usr"))
         (stores SystemSample.deleted) = (inr s, stores SystemSample.deleted) ∧ KS_Deleted s = true.
Proof.
  destruct (sample_reachable [SystemSample.create_user; SystemSample.delete_user])
    as (n & Hn & Hr); [by repeat constructor; vm_compute|cbn; lia|].
  refine (proj1 (deleted_users_stay_out SystemSample.subj direct_subjects_laws SystemSample.mods
    sample_models Sample.env n 0 SystemSample.deleted SystemSample.deleted (SystemSample.id "usr")
    no_precondition RNone Hr _ (nsteps_O _ _) _)).
  - apply list_elem_of_lookup. exists 1%nat. by_vm.
  - unfold two64. lia.
Defined.



Lemma Authorize_reference_witness :
  ∃ t w', run Sample.env (Authorize gateway_runtime SystemSample.token "fast")
            (stores SystemSample.ready) =
    (ref_authorize Sample.time (t_models t) (t_keys t) SystemSample.token "fast", w').
Proof.
  destruct (sample_reachable SystemSample.setup setup_ok ltac:(cbn; lia)) as (n & _ & Hr).
  destruct (reachable_good SystemSample.subj direct_subjects_laws SystemSample.mods sample_models
    n _ Hr) as [t Hg]. exists t.
  destruct (Authorize_reference Sample.env (stores SystemSample.ready) t SystemSample.token "fast"
    (good_inv _ _ _ Hg)) as (w' & Hw & _). exists w'. exact Hw.
Defined.

Lemma ResolveRoute_reference_witness :
  ∃ t, run Sample.env (ResolveRoute gateway_runtime "fast") (stores SystemSample.ready) =
    (ref_route (t_providers t) (t_models t) (t_keys t) "fast", stores SystemSample.ready).
Proof.
  destruct (sample_reachable SystemSample.setup setup_ok ltac:(cbn; lia)) as (n & _ & Hr).
  destruct (reachable_good SystemSample.subj direct_subjects_laws SystemSample.mods sample_models
    n _ Hr) as [t Hg]. exists t.
  exact (proj1 (ResolveRoute_reference Sample.env (stores SystemSample.ready) t "fast"
    (good_inv _ _ _ Hg))).
Defined.
