(* ===== verification/Sequential.v ===== *)
(** * Requests one at a time

    What the update and the deletion of a user do when no other request runs
    and no call fails: a reference over the tables with every branch of the
    handlers, the commits a refused request leaves behind included, and what
    follows for a client that retries. *)

From S2P Require Import Prelude GoStd Json GoText GoTime Errors State Model Repository Collections.
From S2P Require Import Directory ModelRepository KeyRepository ETag Svc Faults Protocol.
From S2P Require Import Service KeyService Registry ServiceFacts KeyFacts System Interleave.
From S2P Require Import ServiceSafety Concurrency Runtime RuntimeFacts EndToEnd.

#[local] Arguments bool_decide : simpl never.

Implicit Types t : tables.

(** ** The reference *)

(** A call and what its error becomes. *)
Definition commits_of : Type := list (sys_op * (error → error)).

(** Calls up to the first that is refused. *)
Fixpoint commits t (l : commits_of) : option error * tables :=
  match l with
  | [] => (None, t)
  | (o, f) :: l' =>
      match sys_spec t o with inl e => (Some (f e), t) | inr t' => commits t' l' end
  end.

Definition finish {A} (a : A) (r : option error * tables) : (error + A) * tables :=
  (match r.1 with Some e => inl e | None => inr a end, r.2).

(** The checks of a PUT, in order. *)
Definition put_input (old : User) (input : UserInput) (cond : ifMatchPrecondition)
    : error + UserInput :=
  match enforceIfMatch cond old with
  | Some e => inl e
  | None => if bool_decide (UI_Status input = "") then inl status_error
            else normalizeUserInput input
  end.

Definition disable_failed (e : error) : error :=
  Errorf "disable authorization subject: %w" [AWrap e].
Definition enable_failed (e : error) : error :=
  Errorf "enable authorization subject: %w" [AWrap e].

(** Revocation comes first, activation last. *)
Definition put_commits (old u : User) : commits_of :=
  let project f := (KeyOp (OpSyncSubject (subjectForUser u false)), f) in
  let replace := (UserOp (OpReplace old u), id) in
  if bool_decide (User_Status u = StatusDisabled) then [project disable_failed; replace]
  else [replace; project enable_failed].

Definition put_user t (id : string) (input : UserInput) (cond : ifMatchPrecondition) (now : Time)
    : (error + User) * tables :=
  match t_users t !! id with
  | None => (inl ErrNotFound, t)
  | Some old =>
      match put_input old input cond with
      | inl e => (inl e, t)
      | inr i => let u := updated_user old i now in finish u (commits t (put_commits old u))
      end
  end.

Definition drop_user t (id : string) (cond : ifMatchPrecondition) (now : Time)
    : (error + unit) * tables :=
  match t_users t !! id with
  | None => (inl ErrNotFound, t)
  | Some old =>
      match enforceIfMatch cond old with
      | Some e => (inl e, t)
      | None =>
          finish tt (commits t
            [(KeyOp (OpFenceSubject (subjectForUser (fence_user old now) true)), Datatypes.id);
             (UserOp (OpDelete old), Datatypes.id)])
      end
  end.

Section sequential.
Context {S : Type} `{StateStoreLaws S}.
Context (env : environment) (mods : option ModelRegistry).
Context (Hclock : ∀ n, time_ok (clock env n) ∧ IsZero (clock env n) = false).
Implicit Types w : world S.

(** Both control planes in one process. *)
Abbreviation service := (resource_service (direct_subjects KeyState) mods).

(** ** The handlers against the reference *)

Definition gives {A} w (s : svc A) (r : (error + A) * tables) : Prop :=
  ∃ w', run_svc env s w = (r.1, w') ∧ sys_inv w' r.2.

Lemma gives_call {A} w t o (k : error + unit → svc A) (r : (error + A) * tables) :
  sys_inv w t → sys_op_ok o →
  (∀ w', sys_inv w' t → ∀ e, sys_spec t o = inl e → gives w' (k (inl e)) r) →
  (∀ w' t', sys_spec t o = inr t' → sys_inv w' t' → gives w' (k (inr tt)) r) →
  gives w (Call (sys_prog o) k) r.
Proof.
  intros Hi Ho He Hk. pose proof (run_sys_prog env w t o Hi Ho) as Hr. unfold gives. cbn [run_svc].
  destruct (sys_spec t o) as [e|t']; [rewrite Hr; by apply He|].
  destruct Hr as (w1 & -> & Hi1). by eapply Hk.
Qed.

Lemma gives_done {A} w t (r : error + A) : sys_inv w t → gives w (Ret r) (r, t).
Proof. intros Hi. by exists w. Qed.

(** Calls in a row, and nothing else. *)
Fixpoint follows {A} (l : commits_of) (a : A) (s : svc A) : Prop :=
  match l with
  | [] => s = Ret (inr a)
  | (o, f) :: l' =>
      ∃ k, s = Call (sys_prog o) k ∧ (∀ e, k (inl e) = Ret (inl (f e))) ∧ follows l' a (k (inr tt))
  end.

Lemma gives_commits {A} w t (a : A) (s : svc A) l :
  sys_inv w t → Forall (λ p, sys_op_ok p.1) l → follows l a s → gives w s (finish a (commits t l)).
Proof.
  intros Hi Hl. revert w t s Hi. induction Hl as [|[o f] l Ho Hl IH]; intros w t s Hi;
    cbn [follows commits].
  - intros ->. by apply (gives_done w t (inr a)).
  - intros (k & -> & He & Hk). apply (gives_call w t); [done..| |].
    + intros w' Hi' e ->. rewrite He. by apply (gives_done w' t (inl (f e))).
    + intros w' t' -> Hi'. by apply IH.
Qed.

Lemma sys_inv_tick w t : sys_inv w t → sys_inv (tick_clock w) t.
Proof. apply sys_inv_same. by intros []. Qed.

Lemma run_user w t id :
  sys_inv w t →
  run env (Repository.GetUser ControlState id) w =
    (match t_users t !! id with Some u => inr u | None => inl ErrNotFound end, w).
Proof. intros Hi. apply run_GetUser, Hi. Qed.

Lemma user_known w t id u : sys_inv w t → t_users t !! id = Some u → User_ID u = id ∧ storable u.
Proof. intros Hi. apply (ci_ok _ _ (si_users _ _ Hi)). Qed.

Lemma put_commits_ok old u :
  storable u → Forall (λ p, sys_op_ok p.1) (put_commits old u).
Proof.
  intros Hu. pose proof (subjectForUser_storable u false Hu) as Hs. unfold put_commits.
  case_bool_decide; by rewrite !list.Forall_cons, list.Forall_nil.
Qed.

Lemma updateUser_gives w t id input cond :
  sys_inv w t → UserInput_ok input →
  gives w (updateUser service id input cond)
    (put_user t id input cond (clock env (clock_calls w))).
Proof.
  intros Hi Hok. unfold updateUser, put_user. unfold gives. rewrite run_svc_bind, run_svc_call.
  rewrite (run_user w t) by done. destruct (t_users t !! id) as [old|] eqn:Hold; [|by exists w].
  destruct (user_known w t id old Hi Hold) as [_ Hst]. unfold put_input.
  destruct (enforceIfMatch cond old) as [e|]; [by exists w|].
  case_bool_decide as Hs; [by exists w|]. cbn [ensure].
  destruct (normalizeUserInput input) as [e|i] eqn:Hn; [by exists w|].
  destruct (normalizeUserInput_ok input i Hok Hn) as (? & ? & Hone).
  set (u := updated_user old i (clock env (clock_calls w))).
  assert (storable u) as Hu by (apply updated_user_storable; [done..|apply Hclock]).
  apply (gives_commits (tick_clock w) t u); [by apply sys_inv_tick|by apply put_commits_ok|].
  unfold put_commits. fold u. destruct (bool_decide_reflect (User_Status u = StatusDisabled)) as [E|E].
  - rewrite bool_decide_eq_false_2 by (intros E'; by rewrite E' in E). cbn. eauto 10.
  - rewrite bool_decide_eq_true_2 by (by destruct Hone). cbn. eauto 10.
Qed.

Lemma deleteUser_gives w t id cond :
  sys_inv w t →
  gives w (deleteUser service id cond) (drop_user t id cond (clock env (clock_calls w))).
Proof.
  intros Hi. unfold deleteUser, drop_user. unfold gives. rewrite run_svc_bind, run_svc_call.
  rewrite (run_user w t) by done. destruct (t_users t !! id) as [old|] eqn:Hold; [|by exists w].
  destruct (user_known w t id old Hi Hold) as [_ Hst].
  destruct (enforceIfMatch cond old) as [e|]; [by exists w|]. cbn [ensure].
  set (s := subjectForUser (fence_user old (clock env (clock_calls w))) true).
  assert (storable s) as Hs by (by apply subjectForUser_storable, fence_user_storable; [|apply Hclock]).
  assert (gives (tick_clock w)
    (_ ← call (FenceSubject_of service s); call (Repository.DeleteUser (users service) old))
    (finish tt (commits t [(KeyOp (OpFenceSubject s), Datatypes.id);
                           (UserOp (OpDelete old), Datatypes.id)]))) as Hg; [|exact Hg].
  apply (gives_commits (tick_clock w) t tt); [by apply sys_inv_tick| |].
  - by rewrite !list.Forall_cons, list.Forall_nil.
  - cbn. eauto 10.
Qed.

(** ** Users and their subjects after a PUT *)

(** No other user has the address. *)
Definition email_free t (id email : string) : Prop :=
  ∀ id' v, t_users t !! id' = Some v →
    lookupKey "user-email" (User_Email v) = lookupKey "user-email" email → id' = id.

Lemma clashes_email t u : clashes (t_users t) u = false ↔ email_free t (User_ID u) (User_Email u).
Proof.
  rewrite <- not_true_iff_false, clashes_true. unfold email_free. split.
  - intros Hno id' v Hv E. destruct (decide (id' = User_ID u)) as [|Hne]; [done|]. destruct Hno.
    exists id', v, (lookupKey "user-email" (User_Email u)). cbn. rewrite E.
    split_and!; [done..|by left|by left].
  - intros Hfree (id' & v & k & Hv & Hne & Hk & Hk'). cbn in Hk, Hk', Hne.
    apply list_elem_of_singleton in Hk, Hk'. apply Hne, (Hfree _ _ Hv). congruence.
Qed.

Lemma replace_user t old u :
  t_users t !! User_ID u = Some old → email_free t (User_ID u) (User_Email u) →
  sys_spec t (UserOp (OpReplace old u)) = inr (set_users t (<[User_ID u := u]> (t_users t))).
Proof.
  intros Hu Hfree%clashes_email. cbn. unfold table_replace. change (ident u) with (User_ID u).
  by rewrite Hu, bool_decide_eq_true_2, Hfree.
Qed.

Definition valid_subject (s : KeySubject) : Prop :=
  validateSubjectPayload s = None ∧ KS_Deleted s = false.

(** A synchronisation stores the subject or leaves the tables as they are. *)
Lemma sync_cases t s :
  valid_subject s →
  (∃ e, sys_spec t (KeyOp (OpSyncSubject s)) = inl e) ∨
  sys_spec t (KeyOp (OpSyncSubject s)) = inr t ∨
  sys_spec t (KeyOp (OpSyncSubject s)) = inr (set_key_tables t (set_subject (t_keys t) s)).
Proof.
  intros [Hv Hd]. cbn. unfold spec_SyncSubject, or_err, require. rewrite Hv, Hd. cbn [negb].
  unfold spec_update_subject. destruct (compareSubjectUpdate _ _) as [e|[]]; cbn; [eauto| |eauto].
  right. left. by destruct t.
Qed.

(** A later revision of a subject that is not a tombstone is stored. *)
Lemma sync_newer t s :
  valid_subject s →
  (∀ s0, subjects (t_keys t) !! KS_UserID s = Some s0 →
     KS_Deleted s0 = false ∧ (KS_Revision s0 < KS_Revision s)%Z) →
  sys_spec t (KeyOp (OpSyncSubject s)) = inr (set_key_tables t (set_subject (t_keys t) s)).
Proof.
  intros [Hv Hd] Hs0. cbn. unfold spec_SyncSubject, or_err, require. rewrite Hv, Hd. cbn [negb].
  unfold spec_update_subject. destruct (subjects (t_keys t) !! KS_UserID s) as [s0|]; [|done].
  destruct (Hs0 s0 eq_refl) as [Hd0 Hlt]. unfold compareSubjectUpdate. cbn [stored sub_exists sub_value negb].
  rewrite (proj2 (Z.ltb_ge _ _)), (proj2 (Z.eqb_neq _ _)), Hd0 by lia. done.
Qed.

Lemma next_revision n : (0 <= n)%Z → (n + 1 < two64)%Z → uint64 (n + 1) = (n + 1)%Z.
Proof. intros. unfold uint64. apply Z.mod_small. lia. Qed.

(** The subject of a stored user that is about to be projected. *)
Lemma new_subject_valid u i now :
  User_ID u ≠ "" → one_status (UI_Status i) → uint64 (User_Revision u + 1) ≠ 0%Z →
  IsZero now = false → valid_subject (subjectForUser (updated_user u i now) false).
Proof.
  intros Hid Hone Hrev Hz. split; [|done]. unfold validateSubjectPayload.
  cbn [subjectForUser updated_user KS_UserID KS_Revision KS_UpdatedAt KS_Status KS_Deleted User_ID
       User_Revision User_UpdatedAt User_Status].
  rewrite bool_decide_eq_false_2, (proj2 (Z.eqb_neq _ _)), Hz by done. cbn [andb].
  unfold bad_status. by destruct Hone as [-> | ->].
Qed.

(** A user whose subject, not a tombstone, is at most [g] revisions ahead. *)
Record ahead t (id : string) (u : User) (g : nat) : Prop := {
  ahead_user : t_users t !! id = Some u;
  ahead_subject s : subjects (t_keys t) !! id = Some s →
    KS_Deleted s = false ∧ (KS_Revision s <= User_Revision u + Z.of_nat g)%Z
}.

Section put.
Context (id : string) (input i : UserInput).
Context (Hid : id ≠ "") (Hinput : UserInput_ok input) (Hset : UI_Status input ≠ "").
Context (Hnorm : normalizeUserInput input = inr i).

Lemma put_status : one_status (UI_Status i).
Proof. by destruct (normalizeUserInput_ok input i Hinput Hnorm) as (_ & _ & ?). Qed.

Lemma put_found t u now :
  t_users t !! id = Some u →
  put_user t id input no_precondition now =
    finish (updated_user u i now) (commits t (put_commits u (updated_user u i now))).
Proof.
  intros Hu. unfold put_user, put_input. rewrite Hu. cbn [enforceIfMatch no_precondition im_present].
  by rewrite bool_decide_eq_false_2, Hnorm.
Qed.

(** An activating PUT: the user moves on; the subject too, unless it is ahead. *)
Lemma put_active_step t u g now :
  UI_Status i = StatusActive → User_ID u = id → (0 <= User_Revision u)%Z →
  (User_Revision u + 1 < two64)%Z → IsZero now = false →
  email_free t id (UI_Email i) → ahead t id u g →
  let u' := updated_user u i now in
  let '(r, t') := put_user t id input no_precondition now in
  ahead t' id u' (pred g) ∧ email_free t' id (UI_Email i) ∧
  (g = 0%nat → r = inr u' ∧ subjects (t_keys t') !! id = Some (subjectForUser u' false)).
Proof.
  intros Hact Hu Hpos Hfit Hz Hfree [Hau Has] u'. rewrite (put_found t u now Hau). fold u'.
  pose proof (next_revision _ Hpos Hfit) as Hrev.
  assert (valid_subject (subjectForUser u' false)) as Hvalid.
  { apply new_subject_valid; [by rewrite Hu|apply put_status|lia|done]. }
  unfold put_commits. rewrite bool_decide_eq_false_2 by (cbn; by rewrite Hact).
  pose proof (replace_user t u u') as Hreplace. change (User_ID u') with (User_ID u) in Hreplace.
  rewrite Hu in Hreplace. cbn [commits]. rewrite Hreplace by done.
  set (t1 := set_users t _).
  assert (∀ t2, t_users t2 = t_users t1 →
    (∀ s, subjects (t_keys t2) !! id = Some s → KS_Deleted s = false ∧
       (KS_Revision s <= User_Revision u' + Z.of_nat (pred g))%Z) →
    ahead t2 id u' (pred g) ∧ email_free t2 id (UI_Email i)) as Hafter.
  { intros t2 Ht2 Hs2. split; [split; [|done]|].
    - rewrite Ht2. apply lookup_insert_eq.
    - intros id' v. rewrite Ht2. cbn [t1 set_users t_users]. intros Hv E.
      destruct (decide (id' = id)) as [|Hne]; [done|]. rewrite lookup_insert_ne in Hv by done. by eapply Hfree. }
  assert (∀ s, subjects (t_keys t1) !! id = Some s → KS_Deleted s = false ∧
    (KS_Revision s <= User_Revision u' + Z.of_nat (pred g))%Z) as Hsame.
  { intros s Hs. destruct (Has s Hs) as [? ?]. split; [done|]. cbn [u' updated_user User_Revision]. lia. }
  set (t2 := set_key_tables t1 (set_subject (t_keys t1) (subjectForUser u' false))).
  assert (subjects (t_keys t2) !! id = Some (subjectForUser u' false)) as Hstored.
  { cbn. by rewrite Hu, lookup_insert_eq. }
  assert (ahead t2 id u' (pred g) ∧ email_free t2 id (UI_Email i)) as [H2a H2f].
  { apply Hafter; [done|]. intros s Hs. rewrite Hstored in Hs. injection Hs as <-. split; [done|]. cbn. lia. }
  destruct (Hafter t1 eq_refl Hsame) as [H1a H1f]. destruct g as [|g].
  - rewrite (sync_newer t1 _ Hvalid); [done|].
    cbn [subjectForUser KS_UserID KS_Revision u' updated_user User_ID User_Revision]. rewrite Hu.
    intros s0 Hs0. destruct (Has s0 Hs0) as [? ?]. split; [done|]. lia.
  - by destruct (sync_cases t1 _ Hvalid) as [[e Es]|[Es|Es]]; rewrite Es.
Qed.

(** The same PUT again, whatever it answered. *)
Fixpoint retried (n : nat) w : (error + User) * world S :=
  let '(r, w') := run_svc env (UpdateUser service id input) w in
  match n with O => (r, w') | Datatypes.S n' => retried n' w' end.

Lemma retried_synchronises g w t u :
  sys_inv w t → ahead t id u g → email_free t id (UI_Email i) → UI_Status i = StatusActive →
  (User_Revision u + Z.of_nat g + 1 < two64)%Z →
  ∃ u' w' t', retried g w = (inr u', w') ∧ sys_inv w' t' ∧ t_users t' !! id = Some u' ∧
    subjects (t_keys t') !! id = Some (subjectForUser u' false) ∧ User_Status u' = StatusActive.
Proof.
  intros Hi Ha Hfree Hact. revert w t u Hi Ha Hfree. induction g as [|g IH]; intros w t u Hi Ha Hfree Hfit;
    (destruct (user_known w t id u Hi (ahead_user _ _ _ _ Ha)) as [Hu (_ & _ & _ & _ & [Hpos _] & _)]);
    (destruct (updateUser_gives w t id input no_precondition Hi Hinput) as (w' & Hrun & Hi'));
    cbn [retried]; unfold UpdateUser; rewrite Hrun;
    pose proof (put_active_step t u _ (clock env (clock_calls w)) Hact Hu Hpos ltac:(lia)
      (proj2 (Hclock _)) Hfree Ha) as Hstep; cbv zeta in Hstep;
    destruct (put_user _ _ _ _ _) as [r t']; cbn [fst snd] in *; destruct Hstep as (Ha' & Hfree' & Hdone).
  - destruct (Hdone eq_refl) as [-> Hs]. eexists _, w', t'. split_and!; [done..|apply Ha'|done|done].
  - apply (IH w' t' (updated_user u i (clock env (clock_calls w)))); [done..|].
    cbn [updated_user User_Revision]. rewrite next_revision by lia. lia.
Qed.

(** A disabling PUT for an address that is taken: only the subject changes. *)
Lemma put_disable_refused t u v other now :
  UI_Status i = StatusDisabled → User_ID u = id → (0 <= User_Revision u)%Z →
  (User_Revision u + 1 < two64)%Z → IsZero now = false → ahead t id u 0 →
  t_users t !! other = Some v → other ≠ id →
  lookupKey "user-email" (User_Email v) = lookupKey "user-email" (UI_Email i) →
  let s := subjectForUser (updated_user u i now) false in
  put_user t id input no_precondition now =
    (inl ErrConflict, set_key_tables t (set_subject (t_keys t) s)).
Proof.
  intros Hdis Hu Hpos Hfit Hz [Hau Has] Hv Hne Hk s. rewrite (put_found t u now Hau).
  unfold put_commits. rewrite bool_decide_eq_true_2 by done. cbn [commits]. fold s.
  pose proof (next_revision _ Hpos Hfit) as Hrev.
  rewrite sync_newer.
  - cbn [commits sys_spec table_step]. unfold table_replace, map_ok.
    change (ident _) with (User_ID u). cbn [t_users set_key_tables]. rewrite Hu, Hau.
    rewrite bool_decide_eq_true_2 by done. cbn [negb orb].
    rewrite (proj2 (clashes_true _ _)); [done|]. exists other, v, (lookupKey "user-email" (UI_Email i)).
    split_and!; [done|cbn; congruence|by left|]. rewrite <- Hk. by left.
  - apply new_subject_valid; [by rewrite Hu|apply put_status|lia|done].
  - change (KS_UserID s) with (User_ID u). rewrite Hu. intros s0 Hs0.
    destruct (Has s0 Hs0) as [? ?]. split; [done|]. cbn. lia.
Qed.
End put.

(** A fence at the revision the subject is at, or for a user with keys. *)
Lemma fence_refused t s0 s :
  validateSubjectPayload s = None → KS_Deleted s = true →
  subjects (t_keys t) !! KS_UserID s = Some s0 → KS_Deleted s0 = false →
  KS_Revision s0 = KS_Revision s →
  ∃ text, sys_spec t (KeyOp (OpFenceSubject s)) = inl (wrap Conflict text).
Proof.
  intros Hv Hd Hs0 Hd0 Hrev. cbn. unfold spec_FenceSubject, or_err, require. rewrite Hv, Hd.
  destruct (owns_keys _ _); cbn [negb map_ok]; [eauto|].
  unfold spec_update_subject. rewrite Hs0. unfold compareSubjectUpdate.
  cbn [stored sub_exists sub_value negb]. rewrite Hrev, Z.ltb_irrefl, Z.eqb_refl.
  unfold subjectPayloadEqual. rewrite Hd0, Hd, andb_false_r. cbn. eauto.
Qed.

Lemma fence_user_valid u now :
  User_ID u ≠ "" → uint64 (User_Revision u + 1) ≠ 0%Z → IsZero now = false →
  validateSubjectPayload (subjectForUser (fence_user u now) true) = None.
Proof.
  intros Hid Hrev Hz. unfold validateSubjectPayload.
  cbn [subjectForUser fence_user KS_UserID KS_Revision KS_UpdatedAt KS_Status KS_Deleted User_ID
       User_Revision User_UpdatedAt User_Status].
  by rewrite bool_decide_eq_false_2, (proj2 (Z.eqb_neq _ _)), Hz by done.
Qed.

(** A deletion whose fence comes at the revision of the subject. *)
Lemma blocked_delete w t u s id :
  sys_inv w t → id ≠ "" → t_users t !! id = Some u → subjects (t_keys t) !! id = Some s →
  KS_Deleted s = false → KS_Revision s = (User_Revision u + 1)%Z → (User_Revision u + 1 < two64)%Z →
  ∃ e w', run_svc env (DeleteUser service id) w = (inl e, w') ∧ errors_Is e Conflict = true ∧
    sys_inv w' t.
Proof.
  intros Hi Hid Hu Hs Hd Hrev Hfit.
  destruct (user_known w t id u Hi Hu) as [Hidu (_ & _ & _ & _ & [Hpos _] & _)].
  pose proof (next_revision _ Hpos Hfit) as Hnext. set (now := clock env (clock_calls w)).
  destruct (fence_refused t s (subjectForUser (fence_user u now) true)) as [text Hf].
  - apply fence_user_valid; [by rewrite Hidu|lia|apply Hclock].
  - done.
  - change (KS_UserID _) with (User_ID u). by rewrite Hidu.
  - done.
  - change (KS_Revision (subjectForUser _ _)) with (uint64 (User_Revision u + 1)). by rewrite Hnext.
  - destruct (deleteUser_gives w t id no_precondition Hi) as (w' & Hdel & Hi').
    unfold drop_user in Hdel, Hi'. rewrite Hu in Hdel, Hi'. fold now in Hdel, Hi'.
    cbn [enforceIfMatch no_precondition im_present commits] in Hdel, Hi'.
    rewrite Hf in Hdel, Hi'. exists (wrap Conflict text), w'. by rewrite errors_Is_wrap.
Qed.

(** ** The theorems *)


Section history.
Context (subj : SubjectRegistry) (Hsubj : SubjectRegistryLaws (S := S) subj).
Context (mods' : option ModelRegistry).
Context (Hmods : ∀ m, mods' = Some m → ModelRegistryLaws (S := S) m).

Lemma reachable_ahead n c id u g :
  reachable subj mods' n c →
  run env (Repository.GetUser ControlState id) (stores c) = (inr u, stores c) →
  (∀ s, run env (GetSubject KeyState id) (stores c) = (inr s, stores c) →
     KS_Deleted s = false ∧ (KS_Revision s <= User_Revision u + Z.of_nat g)%Z) →
  ∃ t, sys_inv (stores c) t ∧ ahead t id u g.
Proof.
  intros Hr Hu Hs. destruct (reachable_good subj Hsubj mods' Hmods n c Hr) as [t Hg].
  pose proof (good_inv _ _ _ Hg) as Hi. exists t. split; [done|]. split.
  - rewrite (run_user _ t) in Hu by done. destruct (t_users t !! id); [by injection Hu as ->|done].
  - intros s Hst. apply Hs. by rewrite (run_GetSubject env _ KeyState (t_keys t)), Hst by apply Hi.
Qed.


(** A refused PUT that disables.  A PUT that disables a user and gives
    an address another user has is answered with a conflict and leaves the
    user as it was, but the subject has become disabled at the next revision;
    a DELETE of the user is then answered with a conflict too, although the
    user may have no keys, and changes nothing. *)
Theorem refused_disable_blocks_delete n c id input i u v :
  reachable subj mods' n c → id ≠ "" → UserInput_ok input →
  normalizeUserInput input = inr i → UI_Status input = StatusDisabled →
  run env (Repository.GetUser ControlState id) (stores c) = (inr u, stores c) →
  (∀ s, run env (GetSubject KeyState id) (stores c) = (inr s, stores c) →
     KS_Deleted s = false ∧ (KS_Revision s <= User_Revision u)%Z) →
  run env (GetUserByEmail ControlState (UI_Email i)) (stores c) = (inr v, stores c) →
  User_ID v ≠ id → (User_Revision u + 1 < two64)%Z →
  ∃ w1 s, run_svc env (UpdateUser service id input) (stores c) = (inl ErrConflict, w1) ∧
    run env (Repository.GetUser ControlState id) w1 = (inr u, w1) ∧
    run env (GetSubject KeyState id) w1 = (inr s, w1) ∧ KS_Status s = StatusDisabled ∧
    ∃ e w2, run_svc env (DeleteUser service id) w1 = (inl e, w2) ∧ errors_Is e Conflict = true ∧
      run env (Repository.GetUser ControlState id) w2 = (inr u, w2) ∧
      run env (GetSubject KeyState id) w2 = (inr s, w2).
Proof.
  intros Hr Hid Hok Hn Hdis Hu Hs Hv Hne Hfit.
  destruct (reachable_ahead n c id u 0 Hr Hu) as (t & Hi & Ha).
  { intros s Hrun. destruct (Hs s Hrun). split; [done|lia]. }
  destruct (user_known _ t id u Hi (ahead_user _ _ _ _ Ha)) as [Hidu (_ & _ & _ & _ & [Hpos _] & _)].
  assert (UI_Status i = StatusDisabled) as Hst.
  { apply checked_ok in Hn as [-> _]. cbn. by rewrite Hdis. }
  destruct (run_GetUserByEmail env ControlState (stores c) (t_users t) (UI_Email i))
    as [(v' & Hv' & E & Hrun)|[_ Hrun]]; [apply Hi| |by rewrite Hrun in Hv].
  rewrite Hrun in Hv. injection Hv as ->.
  destruct (updateUser_gives (stores c) t id input no_precondition Hi Hok) as (w1 & Hput & Hi1).
  rewrite (put_disable_refused id input i Hid Hok ltac:(by rewrite Hdis) Hn t u v (User_ID v)
    (clock env (clock_calls (stores c))) Hst Hidu Hpos Hfit (proj2 (Hclock _)) Ha Hv' Hne E) in *.
  set (s := subjectForUser _ false) in *. set (t1 := set_key_tables t _) in *. cbn [fst snd] in *.
  assert (subjects (t_keys t1) !! id = Some s) as Hs1 by (cbn; by rewrite Hidu, lookup_insert_eq).
  pose proof (ahead_user _ _ _ _ Ha) as Hau.
  assert (∀ w, sys_inv w t1 → run env (Repository.GetUser ControlState id) w = (inr u, w) ∧
    run env (GetSubject KeyState id) w = (inr s, w)) as Hread.
  { intros w Hw. rewrite (run_user w t1), (run_GetSubject env w KeyState (t_keys t1)), Hs1 by apply Hw.
    cbn [t1 set_key_tables t_users]. by rewrite Hau. }
  exists w1, s. split; [done|]. destruct (Hread w1 Hi1) as [-> ->]. split_and!; [done..|].
  destruct (blocked_delete w1 t1 u s id Hi1 Hid Hau Hs1 eq_refl) as (e & w2 & Hdel & He & Hi2).
  - exact (next_revision _ Hpos Hfit).
  - done.
  - exists e, w2. by destruct (Hread w2 Hi2) as [-> ->].
Qed.
End history.
End sequential.

(** ** Instances *)

Module SequentialSample.
Import SystemSample.
Definition bob : string := "bob@example.com".
(** Ada and Bob. *)
Definition two : config (S := Memory.MemoryStore) :=
  run1 (run0 (started Sample.world0) [create_user]) [create_user_as bob].
Definition disable_as_bob : UserInput :=
  {| UI_Name := "Ada"; UI_Email := bob; UI_Status := StatusDisabled |}.
Definition bob1 : User := {|
  User_ID := id1 "usr"; User_Name := "Ada"; User_Email := bob; User_Status := StatusActive;
  User_Revision := 1; User_CreatedAt := Sample.time; User_UpdatedAt := Sample.time |}.
(** The same after the refused PUT. *)
Definition refused : config (S := Memory.MemoryStore) :=
  run1 (run0 (started Sample.world0) [create_user])
    [create_user_as bob; ReqUpdateUser (id "usr") disable_as_bob no_precondition].
Definition subject2 : KeySubject := {|
  KS_UserID := id "usr"; KS_Status := StatusDisabled; KS_Revision := 2; KS_Deleted := false;
  KS_UpdatedAt := Sample.time |}.
Definition activate : UserInput :=
  {| UI_Name := "Ada"; UI_Email := "ada@example.com"; UI_Status := StatusActive |}.
End SequentialSample.

Lemma sample_clock n : time_ok (clock Sample.env n) ∧ IsZero (clock Sample.env n) = false.
Proof. split; [apply sample_time|done]. Qed.

Lemma read_known {A} (p : prog A) (w w' : world Memory.MemoryStore) a b :
  (run Sample.env p w).1 = inr a → run Sample.env p w = (inr b, w') → b = a.
Proof. intros Ha Hb. rewrite Hb in Ha. by injection Ha. Qed.



Lemma refused_disable_blocks_delete_witness :
  ∃ w1, run_svc Sample.env
    (UpdateUser (resource_service (direct_subjects KeyState) SystemSample.mods)
       (SystemSample.id "usr") SequentialSample.disable_as_bob) (stores SequentialSample.two) =
    (inl ErrConflict, w1).
Proof.
  destruct (sample_reachable2 [SystemSample.create_user]
    [SystemSample.create_user_as SequentialSample.bob]) as (n & _ & Hr);
    [by repeat constructor; vm_compute|by repeat constructor; vm_compute|cbn; lia|].
  destruct (refused_disable_blocks_delete Sample.env SystemSample.mods sample_clock
    SystemSample.subj direct_subjects_laws SystemSample.mods sample_models n
    SequentialSample.two (SystemSample.id "usr") SequentialSample.disable_as_bob
    SequentialSample.disable_as_bob SystemSample.user1 SequentialSample.bob1 Hr)
    as (w1 & s & Hrun & _).
  - done.
  - by split; vm_compute.
  - by_vm.
  - done.
  - apply run_reads; [apply reads_getResource|]. by_vm.
  - intros s Hs. apply (read_known _ _ _ SystemSample.subject1) in Hs; [|by_vm].
    subst s. split; [reflexivity|by apply Z.leb_le].
  - apply run_reads; [|by_vm]. apply reads_bind; [apply reads_lookup_id|intros x; apply reads_getResource].
  - done.
  - done.
  - exists w1. exact Hrun.
Defined.
