(* ===== verification/Ir.v ===== *)
(** * The provider-neutral protocol ([internal/ir])

    The versioned request and response every ingress adapter translates to and
    every provider adapter translates from, and their [Validate] methods.

    A [json.RawMessage] is its text; [*T] is an option; a [float64] is an
    IEEE 754 value of [SpecFloat]; an [int] is a [Z] within 64 bits. *)

From Stdlib Require Import SpecFloat.
From S2P Require Import Prelude GoStd Json GoText GoNet Errors Results.

(** ** types.go *)

Abbreviation float64 := spec_float.
Abbreviation RawMessage := string (only parsing).

Definition float_zero : float64 := S754_zero false.
Definition float_one : float64 := S754_finite false 4503599627370496 (-52).
(** [x < 0 || x > 1]. *)
Definition outside_unit (x : float64) : bool := SFltb x float_zero || SFltb float_one x.

Definition Version : string := "2026-07-12".

Definition RoleSystem : string := "system".
Definition RoleUser : string := "user".
Definition RoleAssistant : string := "assistant".
Definition RoleTool : string := "tool".

Definition ContentText : string := "text".
Definition ContentImage : string := "image".
Definition ContentToolCall : string := "tool_call".
Definition ContentToolResult : string := "tool_result".

Definition FinishStop : string := "stop".
Definition FinishLength : string := "length".
Definition FinishToolCalls : string := "tool_calls".
Definition FinishContent : string := "content_filter".

Record Route := { IR_ProviderID : string; IR_UpstreamModel : string }.

Record Image := { Image_URL : string; Image_MediaType : string; Image_Data : string }.

Record ToolCall := {
  Call_ID : string; Call_Name : string; Call_Arguments : RawMessage; Call_Signature : string
}.

Inductive Content : Type := MkContent {
  Content_Type : string; Content_Text : string; Content_Image : option Image;
  Content_ToolCall : option ToolCall; Content_ToolResult : option ToolResult
}
with ToolResult : Type := MkToolResult {
  Result_ToolCallID : string; Result_Name : string; Result_Content : list Content;
  Result_Result : RawMessage; Result_IsError : bool
}.

Record Message := { Message_Role : string; Message_Content : list Content }.

Record Tool := {
  Tool_Name : string; Tool_Description : string; Tool_InputSchema : RawMessage;
  Tool_Strict : option bool
}.

Record ToolChoice := {
  Choice_Mode : string; Choice_Name : string; Choice_DisableParallel : bool
}.

Record Request := {
  Req_Version : string; Req_ID : string; Req_Route : Route; Req_Messages : list Message;
  Req_MaxOutputTokens : option Z; Req_Temperature : option float64; Req_TopP : option float64;
  Req_Stop : list string; Req_Tools : list Tool; Req_ToolChoice : option ToolChoice;
  Req_Metadata : list (string * json); Req_Stream : bool
}.

Record Usage := {
  InputTokens : Z; OutputTokens : Z; CacheCreationInputTokens : Z; CachedInputTokens : Z
}.

Record Response := {
  Resp_Version : string; Resp_ID : string; Resp_Model : string; Resp_Content : list Content;
  Resp_FinishReason : string; Resp_StopSequence : string; Resp_Usage : Usage;
  Resp_ProviderResponseID : string
}.

(** The literals [ir.Content{Type: ...}] of the adapters. *)
Definition text_content (text : string) : Content := MkContent ContentText text None None None.
Definition image_content (image : Image) : Content :=
  MkContent ContentImage "" (Some image) None None.
Definition call_content (call : ToolCall) : Content :=
  MkContent ContentToolCall "" None (Some call) None.
Definition result_content (result : ToolResult) : Content :=
  MkContent ContentToolResult "" None None (Some result).

(** ** validate.go *)

(** A JSON object, decoded into a map: [null] leaves the map nil. *)
Definition isJSONObject (value : RawMessage) : bool :=
  match parse value with Some (JObj _) => true | _ => false end.

Definition none {A} (o : option A) : bool := if o is Some _ then false else true.
Definition eqs (s t : string) : bool := bool_decide (s = t).

Definition image_media_type (s : string) : bool :=
  bool_decide (s ∈ ["image/jpeg"; "image/png"; "image/gif"; "image/webp"]).

(** The URL is absolute, HTTP or HTTPS, with a host and no credentials. *)
Definition image_url_ok (raw : string) : bool :=
  match ParseRequestURI raw with
  | Some parsed =>
      (eqs (Scheme parsed) "http" || eqs (Scheme parsed) "https") &&
      negb (eqs (Host parsed) "") && negb (HasUser parsed)
  | None => false
  end.

Definition Image_Validate (image : Image) : error + unit :=
  let hasURL := negb (eqs (Image_URL image) "") in
  let hasInlineField :=
    negb (eqs (Image_MediaType image) "") || negb (eqs (Image_Data image) "") in
  _ ← require (negb (Bool.eqb hasURL hasInlineField))
        (Errorf "image requires exactly one of URL or media_type and base64 data" []);
  if hasURL then
    require (image_url_ok (Image_URL image))
      (Errorf "image URL must be an absolute credential-free HTTP(S) URL" [])
  else
    _ ← require (negb (eqs (Image_MediaType image) "") && negb (eqs (Image_Data image) ""))
          (Errorf "inline image requires media_type and base64 data" []);
    _ ← require (image_media_type (Image_MediaType image))
          (Errorf "unsupported image media_type %q" [AStr (Image_MediaType image)]);
    require (negb (none (StdDecode (Image_Data image))))
      (Errorf "image data is not valid base64: %w" [AWrap (NewError "illegal base64 data")]).

Definition Text_Validate (content : Content) : error + unit :=
  require (none (Content_Image content) && none (Content_ToolCall content) &&
           none (Content_ToolResult content))
    (Errorf "text content contains a payload for another content type" []).

Definition ToolCall_Validate (content : Content) : error + unit :=
  _ ← require (eqs (Content_Text content) "" && none (Content_Image content) &&
               none (Content_ToolResult content))
        (Errorf "tool_call content contains a payload for another content type" []);
  let missing := Errorf "tool_call requires id and name" [] in
  call ← result_of (Content_ToolCall content) missing;
  _ ← require (negb (eqs (Call_ID call) "") && negb (eqs (Call_Name call) "")) missing;
  require (isJSONObject (Call_Arguments call))
    (Errorf "tool_call arguments must be a JSON object" []).

Fixpoint Content_Validate (content : Content) : error + unit :=
  let '(MkContent type text image call result) := content in
  if eqs type ContentText then Text_Validate content
  else if eqs type ContentImage then
    _ ← require (eqs text "" && none call && none result)
          (Errorf "image content contains a payload for another content type" []);
    image ← result_of image (Errorf "image payload is required" []);
    Image_Validate image
  else if eqs type ContentToolCall then ToolCall_Validate content
  else if eqs type ContentToolResult then
    _ ← require (eqs text "" && none image && none call)
          (Errorf "tool_result content contains a payload for another content type" []);
    match result with
    | None => inl (Errorf "tool_result requires tool_call_id" [])
    | Some (MkToolResult callID name nested res _) =>
        _ ← require (negb (eqs callID "")) (Errorf "tool_result requires tool_call_id" []);
        _ ← require (negb (bool_decide (nested = []) && eqs res ""))
              (Errorf "tool_result requires content or result" []);
        _ ← require (eqs res "" || isJSONObject res)
              (Errorf "tool_result result must be a JSON object" []);
        (fix each (index : nat) (l : list Content) : error + unit :=
           match l with
           | [] => inr tt
           | part :: l' =>
               _ ← require (eqs (Content_Type part) ContentText || eqs (Content_Type part) ContentImage)
                     (Errorf "tool_result content[%d] must be text or image" [AIdx index]);
               _ ← Content_Validate part;
               each (S index) l'
           end) 0%nat nested
    end
  else inl (Errorf "unsupported content type %q" [AStr type]).

(** The maps of the loop over the messages. *)
Record tracker := {
  seenNonSystem : bool; toolCalls : gmap string string; toolResults : gset string
}.
Definition tracker0 : tracker := {| seenNonSystem := false; toolCalls := ∅; toolResults := ∅ |}.

Definition allowed (role type : string) : bool :=
  if eqs role RoleSystem then eqs type ContentText
  else if eqs role RoleUser then eqs type ContentText || eqs type ContentImage
  else if eqs role RoleAssistant then eqs type ContentText || eqs type ContentToolCall
  else if eqs role RoleTool then eqs type ContentToolResult
  else false.

Definition known_role (role : string) : bool :=
  bool_decide (role ∈ [RoleSystem; RoleUser; RoleAssistant; RoleTool]).

(** The body of the loop over the content parts of message [mi].  [Validate]
    has already refused a tool call or tool result without its payload. *)
Definition check_call (mi ci : nat) (content : Content) (st : tracker) : error + tracker :=
  match Content_ToolCall content with
  | Some call =>
      _ ← require (none (toolCalls st !! Call_ID call))
            (Errorf "messages[%d].content[%d]: tool_call id %q must be unique"
               [AIdx mi; AIdx ci; AStr (Call_ID call)]);
      mret {| seenNonSystem := seenNonSystem st;
              toolCalls := <[Call_ID call := Call_Name call]> (toolCalls st);
              toolResults := toolResults st |}
  | None => mret st
  end.

Definition check_result (mi ci : nat) (content : Content) (st : tracker) : error + tracker :=
  match Content_ToolResult content with
  | Some result =>
      let callID := Result_ToolCallID result in
      name ← result_of (toolCalls st !! callID)
               (Errorf "messages[%d].content[%d]: tool_result references unknown prior tool_call %q"
                  [AIdx mi; AIdx ci; AStr callID]);
      _ ← require (eqs (Result_Name result) "" || eqs (Result_Name result) name)
            (Errorf "messages[%d].content[%d]: tool_result name %q does not match tool_call name %q"
               [AIdx mi; AIdx ci; AStr (Result_Name result); AStr name]);
      _ ← require (negb (bool_decide (callID ∈ toolResults st)))
            (Errorf "messages[%d].content[%d]: tool_call %q already has a result"
               [AIdx mi; AIdx ci; AStr callID]);
      mret {| seenNonSystem := seenNonSystem st; toolCalls := toolCalls st;
              toolResults := {[ callID ]} ∪ toolResults st |}
  | None => mret st
  end.

Definition check_part (role : string) (mi ci : nat) (content : Content) (st : tracker)
    : error + tracker :=
  _ ← on_error (λ e, Errorf "messages[%d].content[%d]: %w" [AIdx mi; AIdx ci; AWrap e])
        (Content_Validate content);
  _ ← require (allowed role (Content_Type content))
        (Errorf "messages[%d].content[%d]: content type %q is not allowed for role %q"
           [AIdx mi; AIdx ci; AStr (Content_Type content); AStr role]);
  st ← (if eqs (Content_Type content) ContentToolCall then check_call mi ci content st else mret st);
  if eqs (Content_Type content) ContentToolResult then check_result mi ci content st else mret st.

Definition check_message (mi : nat) (message : Message) (st : tracker) : error + tracker :=
  let role := Message_Role message in
  _ ← require (known_role role)
        (Errorf "messages[%d] has unsupported role %q" [AIdx mi; AStr role]);
  _ ← require (negb (bool_decide (Message_Content message = [])))
        (Errorf "messages[%d] must contain at least one content part" [AIdx mi]);
  _ ← require (negb (eqs role RoleSystem && seenNonSystem st))
        (Errorf "messages[%d]: system messages must precede all other messages" [AIdx mi]);
  range (check_part role mi) 0 (Message_Content message)
    {| seenNonSystem := seenNonSystem st || negb (eqs role RoleSystem);
       toolCalls := toolCalls st; toolResults := toolResults st |}.

Definition check_tool (index : nat) (tool : Tool) (toolNames : gset string)
    : error + gset string :=
  _ ← require (negb (eqs (TrimSpace (Tool_Name tool)) ""))
        (Errorf "tools[%d].name is required" [AIdx index]);
  _ ← require (isJSONObject (Tool_InputSchema tool))
        (Errorf "tools[%d].input_schema must be a JSON object" [AIdx index]);
  _ ← require (negb (bool_decide (Tool_Name tool ∈ toolNames)))
        (Errorf "tools[%d].name must be unique" [AIdx index]);
  mret ({[ Tool_Name tool ]} ∪ toolNames).

Definition plain_mode (mode : string) : bool :=
  bool_decide (mode ∈ ["auto"; "none"; "required"]).

Definition check_choice (tools : list Tool) (toolNames : gset string) (choice : ToolChoice)
    : error + unit :=
  _ ← require (negb (bool_decide (tools = [])))
        (Errorf "tool_choice requires at least one tool" []);
  if plain_mode (Choice_Mode choice) then mret tt
  else if eqs (Choice_Mode choice) "named" then
    _ ← require (negb (eqs (Choice_Name choice) ""))
          (Errorf "named tool_choice requires a name" []);
    require (bool_decide (Choice_Name choice ∈ toolNames))
      (Errorf "named tool_choice references an unknown tool %q" [AStr (Choice_Name choice)])
  else inl (Errorf "unsupported tool_choice mode %q" [AStr (Choice_Mode choice)]).

Definition check_stop (index : nat) (stop : string) (_ : unit) : error + unit :=
  require (negb (eqs stop "")) (Errorf "stop[%d] must not be empty" [AIdx index]).

(** A pointer that is nil, or whose target satisfies [f]. *)
Definition unset_or {A} (f : A → bool) (o : option A) : bool :=
  match o with Some a => f a | None => true end.

Definition Request_Validate (request : Request) : error + unit :=
  _ ← require (eqs (Req_Version request) Version)
        (Errorf "unsupported IR version %q" [AStr (Req_Version request)]);
  _ ← require (negb (eqs (Req_ID request) "")) (Errorf "id is required" []);
  _ ← require (negb (eqs (IR_ProviderID (Req_Route request)) "" ||
                     eqs (IR_UpstreamModel (Req_Route request)) ""))
        (Errorf "route provider_id and upstream_model are required" []);
  _ ← require (negb (bool_decide (Req_Messages request = [])))
        (Errorf "at least one message is required" []);
  _ ← require (unset_or (λ n, 0 <? n)%Z (Req_MaxOutputTokens request))
        (Errorf "max_output_tokens must be positive" []);
  _ ← require (unset_or (λ x, negb (outside_unit x)) (Req_Temperature request))
        (Errorf "temperature must be between 0 and 1 for the portable IR" []);
  _ ← require (unset_or (λ x, negb (outside_unit x)) (Req_TopP request))
        (Errorf "top_p must be between 0 and 1" []);
  _ ← require (negb (Req_Stream request))
        (Errorf "streaming is not supported by IR version %s" [AStr Version]);
  _ ← range check_stop 0 (Req_Stop request) tt;
  st ← range check_message 0 (Req_Messages request) tracker0;
  _ ← require (seenNonSystem st) (Errorf "at least one non-system message is required" []);
  toolNames ← range check_tool 0 (Req_Tools request) ∅;
  match Req_ToolChoice request with
  | Some choice => check_choice (Req_Tools request) toolNames choice
  | None => mret tt
  end.

Definition response_type (type : string) : bool :=
  bool_decide (type ∈ [ContentText; ContentImage; ContentToolCall]).
Definition finish_reason (reason : string) : bool :=
  bool_decide (reason ∈ [FinishStop; FinishLength; FinishToolCalls; FinishContent]).

Definition check_output (index : nat) (content : Content) (_ : unit) : error + unit :=
  _ ← require (response_type (Content_Type content))
        (Errorf "content[%d] has unsupported response type %q"
           [AIdx index; AStr (Content_Type content)]);
  on_error (λ e, Errorf "content[%d]: %w" [AIdx index; AWrap e]) (Content_Validate content).

Definition negative_usage (u : Usage) : bool :=
  ((InputTokens u <? 0) || (OutputTokens u <? 0) || (CacheCreationInputTokens u <? 0) ||
   (CachedInputTokens u <? 0))%Z.

Definition Response_Validate (response : Response) : error + unit :=
  _ ← require (eqs (Resp_Version response) Version)
        (Errorf "unsupported IR version %q" [AStr (Resp_Version response)]);
  _ ← require (negb (eqs (Resp_ID response) "" || eqs (Resp_Model response) ""))
        (Errorf "id and model are required" []);
  _ ← require (finish_reason (Resp_FinishReason response))
        (Errorf "unsupported finish_reason %q" [AStr (Resp_FinishReason response)]);
  _ ← range check_output 0 (Resp_Content response) tt;
  require (negb (negative_usage (Resp_Usage response)))
    (Errorf "usage token counts must not be negative" []).
