(* ===== verification/IrFacts.v ===== *)
(** * What [Validate] accepts

    The requests and responses of the protocol described without the loops of
    [validate.go], and the proof that [Validate] accepts exactly those. *)

From Stdlib Require Import SpecFloat.
From S2P Require Import Prelude GoStd Json GoText GoNet Errors Results Ir.

Lemma eqs_true s t : eqs s t = true ↔ s = t.
Proof. apply bool_decide_eq_true. Qed.
Lemma eqs_refl s : eqs s s = true.
Proof. by apply eqs_true. Qed.
Lemma eqs_false s t : negb (eqs s t) = true ↔ s ≠ t.
Proof. unfold eqs. rewrite negb_true_iff. apply bool_decide_eq_false. Qed.
Lemma none_true {A} (o : option A) : none o = true ↔ o = None.
Proof. by destruct o. Qed.

(** Destruct the outermost test of a string against a constant. *)
Ltac case_eqs :=
  match goal with
  | |- context [eqs ?s ?t] =>
      let E := fresh "E" in destruct (eqs s t) eqn:E;
      [apply eqs_true in E; subst|apply bool_decide_eq_false in E]
  end.

(** ** Content *)

Definition image_ok (image : Image) : Prop :=
  (Image_URL image ≠ "" ∧ Image_MediaType image = "" ∧ Image_Data image = "" ∧
   image_url_ok (Image_URL image) = true) ∨
  (Image_URL image = "" ∧ image_media_type (Image_MediaType image) = true ∧
   Image_Data image ≠ "" ∧ ∃ bytes, StdDecode (Image_Data image) = Some bytes).

#[warnings="-register-all"]
Inductive plain_ok : Content → Prop :=
| plain_text text : plain_ok (text_content text)
| plain_image image : image_ok image → plain_ok (image_content image).

Definition call_ok (call : ToolCall) : Prop :=
  Call_ID call ≠ "" ∧ Call_Name call ≠ "" ∧ isJSONObject (Call_Arguments call) = true.

Definition result_ok (result : ToolResult) : Prop :=
  Result_ToolCallID result ≠ "" ∧
  (Result_Content result ≠ [] ∨ Result_Result result ≠ "") ∧
  (Result_Result result = "" ∨ isJSONObject (Result_Result result) = true) ∧
  Forall plain_ok (Result_Content result).

#[warnings="-register-all"]
Inductive content_ok : Content → Prop :=
| ok_plain content : plain_ok content → content_ok content
| ok_call call : call_ok call → content_ok (call_content call)
| ok_result result : result_ok result → content_ok (result_content result).

Lemma Image_Validate_ok image : Image_Validate image = inr tt ↔ image_ok image.
Proof.
  destruct image as [url mt data]. unfold Image_Validate, image_ok. cbn [Image_URL Image_MediaType Image_Data].
  assert (Hmt : image_media_type "" = true → False) by done.
  rewrite check_then, <- (negb_involutive (eqs url "")).
  case_eqs; case_eqs; case_eqs; cbn [negb orb Bool.eqb andb]; rewrite ?check_then, ?require_ok.
  1-3: split; [by intros (? & ? & ?)|intros [(? & _)|(_ & ? & ? & _)]; tauto || congruence].
  1: { split.
    - intros (_ & _ & Hm & Hd). right. split_and!; try done. destruct (StdDecode data); [eauto|done].
    - intros [(? & _)|(_ & Hm & _ & bytes & ->)]; [congruence|done]. }
  1: { split; [intros [_ Hu]; by left|]. by intros [(_ & _ & _ & ?)|(? & _)]. }
  all: split; [by intros [? _]|intros [(_ & ? & ? & _)|(? & _)]; congruence].
Qed.

Lemma none3 {A B C} (a : option A) (b : option B) (c : option C) :
  none a && none b && none c = true ↔ a = None ∧ b = None ∧ c = None.
Proof. rewrite !andb_true_iff, !none_true. tauto. Qed.
Lemma text_none2 {A B} s (a : option A) (b : option B) :
  eqs s "" && none a && none b = true ↔ s = "" ∧ a = None ∧ b = None.
Proof. rewrite !andb_true_iff, !none_true, eqs_true. tauto. Qed.

(** The parts nested in a tool result. *)
Definition plain_type (type : string) : bool := eqs type ContentText || eqs type ContentImage.

Lemma plain_Validate content :
  plain_type (Content_Type content) = true →
  Content_Validate content = inr tt ↔ plain_ok content.
Proof.
  destruct content as [type text image call result]. unfold plain_type. cbn [Content_Type].
  intros Hty. cbn [Content_Validate]. destruct (eqs type ContentText) eqn:E1.
  - apply eqs_true in E1 as ->. unfold Text_Validate. cbn. rewrite require_ok, none3. split.
    + intros (-> & -> & ->). apply plain_text.
    + by inversion 1.
  - destruct (eqs type ContentImage) eqn:E2; [|done]. apply eqs_true in E2 as ->.
    rewrite check_then, text_none2, bind_ok. split.
    + intros ((-> & -> & ->) & im & Him%result_of_ok & Hv). subst image.
      apply (plain_image im), Image_Validate_ok, Hv.
    + inversion 1 as [|im Him]; subst. split; [done|]. exists im. split; [done|].
      by apply Image_Validate_ok.
Qed.

Lemma plain_ok_type content : plain_ok content → plain_type (Content_Type content) = true.
Proof. by inversion 1. Qed.

Lemma Content_Validate_ok content : Content_Validate content = inr tt ↔ content_ok content.
Proof.
  destruct (plain_type (Content_Type content)) eqn:Hp.
  { rewrite plain_Validate by done. split; [by constructor|].
    inversion 1; subst; [done|by cbn in Hp|by cbn in Hp]. }
  destruct content as [type text image call result]. unfold plain_type in Hp. cbn [Content_Type] in Hp.
  apply orb_false_iff in Hp as [H1 H2]. cbn [Content_Validate]. rewrite H1, H2.
  assert (∀ c, content_ok c → Content_Type c = type →
    Content_Type c = ContentToolCall ∨ Content_Type c = ContentToolResult) as Hother.
  { intros c Hc <-. destruct Hc as [c Hc%plain_ok_type| |]; cbn; [|auto|auto].
    unfold plain_type in Hc. by rewrite H1, H2 in Hc. }
  destruct (eqs type ContentToolCall) eqn:H3; [|destruct (eqs type ContentToolResult) eqn:H4].
  - apply eqs_true in H3 as ->. clear. unfold ToolCall_Validate. cbn [Content_Text Content_Image
      Content_ToolCall Content_ToolResult].
    rewrite check_then, text_none2, bind_ok. setoid_rewrite result_of_ok. setoid_rewrite check_then.
    setoid_rewrite require_ok. setoid_rewrite andb_true_iff. setoid_rewrite eqs_false. split.
    + intros ((-> & -> & ->) & c & -> & (Hi & Hn) & Ha). by apply (ok_call c).
    + inversion 1 as [c Hc|c (Hi & Hn & Ha)|]; subst; [by inversion Hc|]. split; [done|]. by exists c.
  - apply eqs_true in H4 as ->. clear. rewrite check_then, text_none2.
    destruct result as [[callID name nested res err]|].
    2: { split; [by intros [_ ?]|]. inversion 1 as [c Hc| |]; by inversion Hc. }
    rewrite !check_then, eqs_false, orb_true_iff, eqs_true, negb_andb, orb_true_iff, eqs_false.
    rewrite negb_true_iff, bool_decide_eq_false.
    assert (∀ i, (fix each (index : nat) (l : list Content) : error + unit :=
           match l with
           | [] => inr tt
           | part :: l' =>
               _ ← require (eqs (Content_Type part) ContentText || eqs (Content_Type part) ContentImage)
                     (Errorf "tool_result content[%d] must be text or image" [AIdx index]);
               _ ← Content_Validate part;
               each (S index) l'
           end) i nested = inr tt ↔ Forall plain_ok nested) as ->.
    { induction nested as [|c nested IH]; intros i; [done|]. rewrite check_then, bind_ok.
      setoid_rewrite IH. rewrite list.Forall_cons. fold (plain_type (Content_Type c)). split.
      - intros (Hp & [] & Hc & Hn). split; [by apply plain_Validate|done].
      - intros [Hc Hn]. pose proof (plain_ok_type c Hc). split; [done|]. exists tt.
        split; [by apply plain_Validate|done]. }
    split.
    + intros ((-> & -> & ->) & Hid & Hne & Hres & Hn).
      apply (ok_result (MkToolResult callID name nested res err)). by split_and!.
    + inversion 1 as [c Hc| |r (Hid & Hne & Hres & Hn)]; subst; [by inversion Hc|].
      cbn in *. by split_and!.
  - split; [done|]. intros Hc. destruct (Hother _ Hc eq_refl) as [Ht|Ht]; cbn in Ht; subst;
      by rewrite eqs_refl in *.
Qed.

(** ** Conversations *)

Definition calls (l : list Content) : list ToolCall := omap Content_ToolCall l.
Definition results (l : list Content) : list ToolResult := omap Content_ToolResult l.
Definition parts (messages : list Message) : list Content := messages ≫= Message_Content.

(** A part of a message of [role], after the parts [before]: a tool call has a
    new id; a tool result answers an earlier call, under the name of that call
    if it gives one, and no earlier result answers it. *)
Definition fits (role : string) (before : list Content) (content : Content) : Prop :=
  content_ok content ∧ allowed role (Content_Type content) = true ∧
  (∀ call, Content_ToolCall content = Some call → Call_ID call ∉ Call_ID <$> calls before) ∧
  (∀ result, Content_ToolResult content = Some result →
     (∃ call, call ∈ calls before ∧ Call_ID call = Result_ToolCallID result ∧
        (Result_Name result = "" ∨ Result_Name result = Call_Name call)) ∧
     Result_ToolCallID result ∉ Result_ToolCallID <$> results before).

Definition message_ok (before : list Message) (message : Message) : Prop :=
  known_role (Message_Role message) = true ∧
  Message_Content message ≠ [] ∧
  (Message_Role message = RoleSystem → Forall (λ m, Message_Role m = RoleSystem) before) ∧
  ∀ pre content post, Message_Content message = pre ++ content :: post →
    fits (Message_Role message) (parts before ++ pre) content.

(** What the loop's maps hold after the parts [l]: calls have distinct ids. *)
Record tracks (l : list Content) (st : tracker) : Prop := {
  tr_nodup : NoDup (Call_ID <$> calls l);
  tr_calls id name : toolCalls st !! id = Some name ↔
    ∃ call, call ∈ calls l ∧ Call_ID call = id ∧ Call_Name call = name;
  tr_results id : id ∈ toolResults st ↔ id ∈ Result_ToolCallID <$> results l
}.

Lemma calls_app l1 l2 : calls (l1 ++ l2) = calls l1 ++ calls l2.
Proof. apply omap_app. Qed.
Lemma results_app l1 l2 : results (l1 ++ l2) = results l1 ++ results l2.
Proof. apply omap_app. Qed.

Lemma content_ok_payload content : content_ok content →
  (∀ call, Content_ToolCall content = Some call ↔ content = call_content call) ∧
  (∀ result, Content_ToolResult content = Some result ↔ content = result_content result).
Proof.
  destruct 1 as [c []| |]; cbn; (split; intros x; split; intros Hx); try done; try congruence;
    by injection Hx as ->.
Qed.

Lemma tracks_lookup l st id : tracks l st →
  toolCalls st !! id = None ↔ id ∉ Call_ID <$> calls l.
Proof.
  intros Ht. rewrite list_elem_of_fmap. split.
  - intros Hn (call & -> & Hin). assert (toolCalls st !! Call_ID call = Some (Call_Name call)) as E.
    { apply (tr_calls _ _ Ht). eauto. } congruence.
  - intros Hni. destruct (toolCalls st !! id) as [name|] eqn:E; [|done]. exfalso.
    apply (tr_calls _ _ Ht) in E as (call & Hin & <- & _). eauto.
Qed.

Lemma elem_snoc {A} (x y : A) l : x ∈ l ++ [y] ↔ x ∈ l ∨ x = y.
Proof. by rewrite elem_of_app, list_elem_of_singleton. Qed.

Lemma tracks_plain l st c :
  tracks l st → Content_ToolCall c = None → Content_ToolResult c = None → tracks (l ++ [c]) st.
Proof.
  intros [Hn Hc Hr] H1 H2. constructor; intros; rewrite ?calls_app, ?results_app; cbn;
    rewrite ?H1, ?H2, ?app_nil_r; auto.
Qed.

Lemma check_call_ok mi ci pre st call :
  tracks pre st →
  (is_ok (check_call mi ci (call_content call) st) = true ↔ Call_ID call ∉ Call_ID <$> calls pre) ∧
  ∀ st', check_call mi ci (call_content call) st = inr st' →
    tracks (pre ++ [call_content call]) st' ∧ seenNonSystem st' = seenNonSystem st.
Proof.
  intros Ht. pose proof (tracks_lookup _ _ (Call_ID call) Ht) as Hl. unfold check_call.
  cbn [Content_ToolCall call_content]. destruct (toolCalls st !! Call_ID call) as [n|] eqn:E; cbn.
  - split; [|done]. split; [done|]. intros Hni. by apply Hl in Hni.
  - split; [split; [intros _; by apply Hl|done]|]. intros st' [= <-]. split; [|done].
    pose proof (proj1 Hl eq_refl) as Hni. destruct Ht as [Hn Hc Hr].
    constructor; rewrite ?calls_app, ?results_app; cbn -[fmap list_fmap].
    + rewrite fmap_app, list.NoDup_app. split; [done|]. split; [|apply list.NoDup_singleton].
      intros x Hx ->%list_elem_of_singleton. done.
    + intros id name. setoid_rewrite elem_snoc. rewrite lookup_insert_Some, Hc. split.
      * intros [[<- <-]|[Hne (c & Hin & Hid & Hnm)]]; [eauto|]. exists c. auto.
      * intros (c & [Hin| ->] & Hid & Hnm); [|by left]. right. split; [|by exists c].
        intros Heq. apply Hni. rewrite Heq, <- Hid. by apply list_elem_of_fmap_2.
    + intros id. by rewrite app_nil_r, Hr.
Qed.

Lemma check_result_ok mi ci pre st result :
  tracks pre st →
  (is_ok (check_result mi ci (result_content result) st) = true ↔
     (∃ call, call ∈ calls pre ∧ Call_ID call = Result_ToolCallID result ∧
        (Result_Name result = "" ∨ Result_Name result = Call_Name call)) ∧
     Result_ToolCallID result ∉ Result_ToolCallID <$> results pre) ∧
  ∀ st', check_result mi ci (result_content result) st = inr st' →
    tracks (pre ++ [result_content result]) st' ∧ seenNonSystem st' = seenNonSystem st.
Proof.
  intros Ht. unfold check_result. cbn [Content_ToolResult result_content].
  destruct (toolCalls st !! Result_ToolCallID result) as [name|] eqn:E; cbn [result_of mbind result_bind].
  - apply (tr_calls _ _ Ht) in E as (call & Hin & Hid & Hnm).
    assert ((∃ call, call ∈ calls pre ∧ Call_ID call = Result_ToolCallID result ∧
        (Result_Name result = "" ∨ Result_Name result = Call_Name call)) ↔
      eqs (Result_Name result) "" || eqs (Result_Name result) name = true) as ->.
    { rewrite orb_true_iff, !eqs_true. split; [|rewrite <- Hnm; by exists call].
      intros (c & Hc & Hci & Hcn).
      assert (Some (Call_Name c) = Some name) as [= <-]; [|done].
      rewrite <- (proj2 (tr_calls _ _ Ht _ _) (ex_intro _ call (conj Hin (conj Hid Hnm)))).
      symmetry. apply (tr_calls _ _ Ht). by exists c. }
    pose proof (tr_results _ _ Ht (Result_ToolCallID result)) as Hr.
    destruct (eqs _ "" || _); cbn; [|by split; [split; [done|intros [? _]]|]].
    destruct (bool_decide (Result_ToolCallID result ∈ toolResults st)) eqn:Eb; cbn.
    + apply bool_decide_eq_true in Eb. split; [|done]. split; [done|]. intros [_ Hni]. by destruct (Hni (proj1 Hr Eb)).
    + apply bool_decide_eq_false in Eb. split; [split; [intros _; split; [done|by rewrite <- Hr]|done]|].
      intros st' [= <-]. split; [|done]. destruct Ht as [Hn Hc Hrs].
      constructor; rewrite ?calls_app, ?results_app; cbn -[fmap list_fmap]; rewrite ?app_nil_r; [done|done|].
      intros id. rewrite fmap_app. cbn [fmap list_fmap].
      rewrite elem_snoc, elem_of_union, elem_of_singleton, Hrs. tauto.
  - split; [|done]. split; [done|]. intros [(call & Hin & Hid & _) _].
    assert (toolCalls st !! Result_ToolCallID result = Some (Call_Name call)) as E'.
    { apply (tr_calls _ _ Ht). by exists call. } congruence.
Qed.

Lemma check_part_ok role mi ci pre c st :
  tracks pre st →
  (is_ok (check_part role mi ci c st) = true ↔ fits role pre c) ∧
  ∀ st', check_part role mi ci c st = inr st' →
    tracks (pre ++ [c]) st' ∧ seenNonSystem st' = seenNonSystem st.
Proof.
  intros Ht. unfold check_part, fits.
  destruct (Content_Validate c) as [e|[]] eqn:Hv; cbn [on_error mbind result_bind].
  { split; [|done]. split; [done|]. intros [Hc%Content_Validate_ok _]. congruence. }
  apply Content_Validate_ok in Hv as Hok. destruct (allowed role (Content_Type c)); cbn;
    [|by split; [split; [done|intros (_ & ? & _)]|]].
  destruct Hok as [c Hp|call Hc|result Hr].
  - assert (Content_ToolCall c = None ∧ Content_ToolResult c = None) as [H1 H2] by by destruct Hp.
    assert (eqs (Content_Type c) ContentToolCall = false) as -> by by destruct Hp.
    assert (eqs (Content_Type c) ContentToolResult = false) as -> by by destruct Hp.
    cbn. rewrite H1, H2. split; [split; [|done]; intros _; by split_and!; [constructor|..]|].
    intros st' [= <-]. split; [|done]. by apply tracks_plain.
  - cbn [Content_Type call_content]. rewrite eqs_refl.
    change (eqs ContentToolCall ContentToolResult) with false.
    destruct (check_call_ok mi ci pre st call Ht) as [Hi Hs].
    assert (∀ r : error + tracker, (r ≫= mret) = r) as -> by by intros [].
    split; [|done]. rewrite Hi. cbn. split; [|by intros (_ & _ & H & _); apply H].
    intros Hni. split_and!; [by constructor|done|by intros ? [= <-]|done].
  - cbn [Content_Type result_content]. rewrite eqs_refl.
    change (eqs ContentToolResult ContentToolCall) with false. cbn [mbind result_bind mret result_ret].
    destruct (check_result_ok mi ci pre st result Ht) as [Hi Hs].
    split; [|done]. rewrite Hi. cbn. split; [|by intros (_ & _ & _ & H); apply H].
    intros Hni. split_and!; [by constructor|done|done|by intros ? [= <-]].
Qed.

(** ** Requests *)

Lemma parts_snoc before message : parts (before ++ [message]) = parts before ++ Message_Content message.
Proof. unfold parts. rewrite bind_app. cbn. by rewrite app_nil_r. Qed.

Definition system_only (l : list Message) : Prop := Forall (λ m, Message_Role m = RoleSystem) l.
Definition sees (before : list Message) (st : tracker) : Prop :=
  tracks (parts before) st ∧ (seenNonSystem st = false ↔ system_only before).

Lemma check_message_ok mi before m st :
  sees before st →
  (is_ok (check_message mi m st) = true ↔ message_ok before m) ∧
  ∀ st', check_message mi m st = inr st' → sees (before ++ [m]) st'.
Proof.
  intros [Ht Hs]. unfold check_message, message_ok. fold (system_only before).
  destruct (known_role (Message_Role m)); cbn [require mbind result_bind];
    [|by split; [split; [|intros [? _]]|]].
  destruct (bool_decide (Message_Content m = [])) eqn:Ee; cbn [negb require mbind result_bind].
  { apply bool_decide_eq_true in Ee. split; [|done]. by split; [|intros (_ & ? & _)]. }
  apply bool_decide_eq_false in Ee.
  assert (negb (eqs (Message_Role m) RoleSystem && seenNonSystem st) = true ↔
    (Message_Role m = RoleSystem → system_only before)) as Hsys.
  { rewrite <- Hs. case_eqs; cbn; rewrite ?negb_true_iff; [|tauto]. rewrite E. tauto. }
  destruct (negb _); cbn [require mbind result_bind]; [|split; [|done]].
  2: { split; [done|]. intros (_ & _ & H & _). by apply Hsys in H. }
  edestruct (range_iff (check_part (Message_Role m) mi) (λ pre c, fits (Message_Role m) pre c)
    (λ pre st', tracks pre st' ∧
       seenNonSystem st' = seenNonSystem st || negb (eqs (Message_Role m) RoleSystem)))
    as [Hi Hr]; [..|rewrite Hi].
  - intros i pre c st' [Ht' _]. by apply check_part_ok.
  - intros i pre c st1 st2 [Ht1 Hs1] Hc.
    by destruct (proj2 (check_part_ok _ _ _ _ _ _ Ht1) _ Hc) as [Ht2 ->].
  - split; [|done]. destruct Ht. by constructor.
  - split; [naive_solver|]. intros st' Hst'. destruct (Hr _ Hst') as [Ht' Hs'].
    split; [by rewrite parts_snoc|]. rewrite Hs', orb_false_iff, Hs, negb_false_iff, eqs_true.
    unfold system_only. by rewrite list.Forall_app, list.Forall_singleton.
Qed.

Definition tool_ok (before : list Tool) (tool : Tool) : Prop :=
  TrimSpace (Tool_Name tool) ≠ "" ∧ isJSONObject (Tool_InputSchema tool) = true ∧
  Tool_Name tool ∉ Tool_Name <$> before.

Definition names_of (l : list Tool) (names : gset string) : Prop :=
  ∀ n, n ∈ names ↔ n ∈ Tool_Name <$> l.

Lemma check_tool_ok i before tool names :
  names_of before names →
  (is_ok (check_tool i tool names) = true ↔ tool_ok before tool) ∧
  ∀ names', check_tool i tool names = inr names' → names_of (before ++ [tool]) names'.
Proof.
  unfold names_of. intros Hn. unfold check_tool, tool_ok. rewrite <- (Hn (Tool_Name tool)).
  destruct (eqs (TrimSpace (Tool_Name tool)) "") eqn:E; cbn.
  { apply eqs_true in E. split; [|done]. by split; [|intros [? _]]. }
  apply bool_decide_eq_false in E. destruct (isJSONObject _); cbn; [|by split; [split; [|intros (_ & ? & _)]|]].
  destruct (bool_decide _) eqn:Eb; cbn.
  { apply bool_decide_eq_true in Eb. split; [|done]. by split; [|intros (_ & _ & ?)]. }
  apply bool_decide_eq_false in Eb. split; [by split|]. intros names' [= <-] n.
  rewrite elem_of_union, elem_of_singleton, fmap_app, Hn. cbn [fmap list_fmap].
  rewrite elem_snoc. tauto.
Qed.

Definition choice_ok (tools : list Tool) (choice : ToolChoice) : Prop :=
  tools ≠ [] ∧
  (Choice_Mode choice ∈ ["auto"; "none"; "required"] ∨
   Choice_Mode choice = "named" ∧ Choice_Name choice ≠ "" ∧
   Choice_Name choice ∈ Tool_Name <$> tools).

Lemma check_choice_ok tools names choice :
  names_of tools names → check_choice tools names choice = inr tt ↔ choice_ok tools choice.
Proof.
  unfold names_of. intros Hn. unfold check_choice, choice_ok. rewrite check_then, negb_true_iff, bool_decide_eq_false.
  apply and_iff_compat_l. unfold plain_mode.
  destruct (bool_decide (Choice_Mode choice ∈ _)) eqn:E.
  - apply bool_decide_eq_true in E. split; [by left|done].
  - apply bool_decide_eq_false in E. case_eqs.
    + rewrite check_then, require_ok, eqs_false, bool_decide_eq_true, (Hn (Choice_Name choice)).
      rewrite E0 in *. naive_solver.
    + split; [done|]. intros [?|[? _]]; [tauto|congruence].
Qed.

Definition in_unit (x : float64) : Prop := outside_unit x = false.

Record valid_request (r : Request) : Prop := {
  vr_version : Req_Version r = Version;
  vr_id : Req_ID r ≠ "";
  vr_provider : IR_ProviderID (Req_Route r) ≠ "";
  vr_model : IR_UpstreamModel (Req_Route r) ≠ "";
  vr_tokens n : Req_MaxOutputTokens r = Some n → (0 < n)%Z;
  vr_temperature x : Req_Temperature r = Some x → in_unit x;
  vr_top_p x : Req_TopP r = Some x → in_unit x;
  vr_stream : Req_Stream r = false;
  vr_stop : "" ∉ Req_Stop r;
  vr_messages before m after : Req_Messages r = before ++ m :: after → message_ok before m;
  vr_non_system : ¬ system_only (Req_Messages r);
  vr_tools before tool after : Req_Tools r = before ++ tool :: after → tool_ok before tool;
  vr_choice choice : Req_ToolChoice r = Some choice → choice_ok (Req_Tools r) choice
}.

Lemma unset_or_true {A} (f : A → bool) o :
  unset_or f o = true ↔ ∀ a, o = Some a → f a = true.
Proof. destruct o as [a|]; cbn; [|done]. split; [by intros ? ? [= <-]|auto]. Qed.

Lemma range_stop_ok l : range check_stop 0 l tt = inr tt ↔ "" ∉ l.
Proof.
  rewrite range_check. unfold check_stop. setoid_rewrite require_ok. setoid_rewrite eqs_false. split.
  - intros H (k & Hk)%list_elem_of_lookup. by apply (H k "").
  - intros H k x Hk ->. by apply H, (list_elem_of_lookup_2 _ k).
Qed.

Lemma sees_nothing : sees [] tracker0.
Proof.
  split; [|split; [by constructor|done]]. constructor; cbn; [constructor| |set_solver].
  intros id name. rewrite lookup_empty. split; [done|]. by intros (c & ?%not_elem_of_nil & _).
Qed.

Lemma range_messages_ok l :
  (is_ok (range check_message 0 l tracker0) = true ↔
     ∀ before m after, l = before ++ m :: after → message_ok before m) ∧
  ∀ st, range check_message 0 l tracker0 = inr st → sees l st.
Proof.
  apply (range_iff check_message message_ok sees) with (pre := []); [..|apply sees_nothing];
    intros; by eapply check_message_ok.
Qed.

Lemma range_tools_ok l :
  (is_ok (range check_tool 0 l ∅) = true ↔
     ∀ before tool after, l = before ++ tool :: after → tool_ok before tool) ∧
  ∀ names, range check_tool 0 l ∅ = inr names → names_of l names.
Proof.
  apply (range_iff check_tool tool_ok names_of) with (pre := []);
    [intros; by eapply check_tool_ok|intros; by eapply check_tool_ok|].
  intros n. cbn. set_solver.
Qed.

Lemma Request_Validate_ok r : Request_Validate r = inr tt ↔ valid_request r.
Proof.
  unfold Request_Validate.
  rewrite !check_then, !unset_or_true, !eqs_true, negb_orb, andb_true_iff, !eqs_false, negb_true_iff,
    bool_decide_eq_false, negb_true_iff, bind_ok.
  destruct (range_messages_ok (Req_Messages r)) as [Hm Hs].
  destruct (range_tools_ok (Req_Tools r)) as [Ht Hn].
  assert (∀ names, names_of (Req_Tools r) names →
    (match Req_ToolChoice r with
     | Some choice => check_choice (Req_Tools r) names choice
     | None => mret tt
     end = inr tt ↔ ∀ choice, Req_ToolChoice r = Some choice → choice_ok (Req_Tools r) choice))
    as Hchoice.
  { intros names Hnames. destruct (Req_ToolChoice r) as [c|]; [|done].
    rewrite check_choice_ok by done. split; [by intros ? ? [= <-]|auto]. }
  assert (∀ x, negb (outside_unit x) = true ↔ in_unit x) as Hu by (intros; apply negb_true_iff).
  split.
  - intros (Hv & Hid & [Hp Hmo] & Hne & Htok & Htemp & Htop & Hstr & [] & Hstop%range_stop_ok & H).
    apply bind_ok in H as (st & Hst & [Hsys H]%check_then).
    apply bind_ok in H as (names & Hnames & H).
    constructor; try done.
    + intros n Hin. apply Z.ltb_lt, Htok, Hin.
    + intros x Hx. by apply Hu, Htemp.
    + intros x Hx. by apply Hu, Htop.
    + apply Hm. by rewrite Hst.
    + intros Hall. destruct (Hs _ Hst) as [_ Hseen]. apply Hseen in Hall. congruence.
    + apply Ht. by rewrite Hnames.
    + by apply (Hchoice names (Hn _ Hnames)).
  - intros H. split_and!; try apply H.
    + intros E. apply (vr_non_system _ H). rewrite E. by constructor.
    + intros n Hin. apply Z.ltb_lt. by apply (vr_tokens _ H).
    + intros x Hx. apply Hu. by apply (vr_temperature _ H).
    + intros x Hx. apply Hu. by apply (vr_top_p _ H).
    + exists tt. split; [apply range_stop_ok, H|].
      pose proof (proj2 Hm (vr_messages _ H)) as [st Hst]%is_ok_inr. rewrite Hst.
      cbn [mbind result_bind]. apply check_then. split.
      { destruct (seenNonSystem st) eqn:E; [done|]. destruct (Hs _ Hst) as [_ Hseen].
        apply Hseen in E. by destruct (vr_non_system _ H). }
      pose proof (proj2 Ht (vr_tools _ H)) as [names Hnames]%is_ok_inr. rewrite Hnames.
      cbn [mbind result_bind]. apply (Hchoice names (Hn _ Hnames)), H.
Qed.

Lemma valid_then {A} f r (k : error + A) a :
  (_ ← on_error f (Request_Validate r); k) = inr a ↔ valid_request r ∧ k = inr a.
Proof.
  rewrite bind_ok, <- Request_Validate_ok. setoid_rewrite on_error_ok.
  split; [by intros ([] & ? & ?)|eauto].
Qed.
Lemma valid_first {A} r (k : error + A) a :
  (_ ← Request_Validate r; k) = inr a ↔ valid_request r ∧ k = inr a.
Proof.
  rewrite bind_ok, <- Request_Validate_ok. split; [by intros ([] & ? & ?)|eauto].
Qed.

(** *** Tool calls and their results *)

Lemma parts_split l before c after :
  parts l = before ++ c :: after →
  ∃ ms m ms' pre post, l = ms ++ m :: ms' ∧ Message_Content m = pre ++ c :: post ∧
    before = parts ms ++ pre.
Proof.
  revert before. induction l as [|m l IH]; intros before Hl; [by destruct before|].
  unfold parts in Hl. cbn in Hl. fold (parts l) in Hl.
  apply app_eq_inv in Hl as [(k & Hm & Hk)|(k & Hb & Hk)].
  - destruct k as [|c' k]; cbn in Hk.
    + rewrite app_nil_r in Hm. subst. destruct (IH [] (eq_sym Hk)) as (ms & m' & ms' & pre & post & -> & Hc & Hp).
      exists (m :: ms), m', ms', pre, post. split_and!; [done|done|].
      unfold parts in *. cbn. rewrite <- app_assoc, <- Hp. by rewrite app_nil_r.
    + injection Hk as -> _. exists [], m, l, before, k. by split_and!.
  - destruct (IH k Hk) as (ms & m' & ms' & pre & post & -> & Hc & Hp).
    exists (m :: ms), m', ms', pre, post. split_and!; [done|done|].
    rewrite Hb, Hp. unfold parts. cbn. by rewrite app_assoc.
Qed.

Lemma valid_fits r before c after :
  valid_request r → parts (Req_Messages r) = before ++ c :: after → ∃ role, fits role before c.
Proof.
  intros Hr (ms & m & ms' & pre & post & Hl & Hc & ->)%parts_split. exists (Message_Role m).
  by apply (proj2 (proj2 (proj2 (vr_messages _ Hr _ _ _ Hl))) _ _ _ Hc).
Qed.

Lemma NoDup_omap {A B C} (f : A → option B) (g : B → C) l :
  (∀ before x after b, l = before ++ x :: after → f x = Some b → g b ∉ g <$> omap f before) →
  NoDup (g <$> omap f l).
Proof.
  induction l as [|x l IH] using rev_ind; intros H; [constructor|].
  rewrite omap_app, fmap_app. cbn [omap list_omap].
  assert (NoDup (g <$> omap f l)) as Hl.
  { apply IH. intros before y after b ->. apply (H before y (after ++ [x])). by rewrite <- app_assoc. }
  destruct (f x) as [b|] eqn:E; cbn; [|by rewrite app_nil_r].
  rewrite list.NoDup_app. split_and!; [done| |apply list.NoDup_singleton].
  intros y Hy ->%list_elem_of_singleton. by apply (H l x [] b).
Qed.

Lemma elem_of_omap_split {A B} (f : A → option B) l b :
  b ∈ omap f l → ∃ before x after, l = before ++ x :: after ∧ f x = Some b.
Proof.
  intros (x & Hx & Hf)%list_elem_of_omap. apply list_elem_of_split in Hx as (l1 & l2 & ->). eauto 6.
Qed.

(** Calls have ids of their own, and results answer calls, each call at most
    once. *)
Definition paired (l : list Content) : Prop :=
  NoDup (Call_ID <$> calls l) ∧ NoDup (Result_ToolCallID <$> results l) ∧
  ∀ result, result ∈ results l → ∃ call, call ∈ calls l ∧
    Call_ID call = Result_ToolCallID result ∧
    (Result_Name result = "" ∨ Result_Name result = Call_Name call).

Lemma valid_paired r : valid_request r → paired (parts (Req_Messages r)).
Proof.
  intros Hr. split_and!.
  - apply NoDup_omap. intros before c after call Hl Hc.
    destruct (valid_fits r before c after Hr Hl) as [role Hf]. by apply Hf.
  - apply NoDup_omap. intros before c after res Hl Hc.
    destruct (valid_fits r before c after Hr Hl) as [role Hf]. by apply Hf.
  - intros res (before & c & after & Hl & Hc)%elem_of_omap_split.
    destruct (valid_fits r before c after Hr Hl) as [role Hf].
    destruct (proj2 (proj2 (proj2 Hf)) res Hc) as [(call & Hin & Hid) _].
    exists call. split; [|done]. rewrite Hl, calls_app. apply elem_of_app. by left.
Qed.

(** ** Responses *)

Record valid_response (r : Response) : Prop := {
  vp_version : Resp_Version r = Version;
  vp_id : Resp_ID r ≠ "";
  vp_model : Resp_Model r ≠ "";
  vp_finish : finish_reason (Resp_FinishReason r) = true;
  vp_content : Forall (λ c, content_ok c ∧ response_type (Content_Type c) = true) (Resp_Content r);
  vp_usage : (0 <= InputTokens (Resp_Usage r) ∧ 0 <= OutputTokens (Resp_Usage r) ∧
    0 <= CacheCreationInputTokens (Resp_Usage r) ∧ 0 <= CachedInputTokens (Resp_Usage r))%Z
}.

Lemma Response_Validate_ok r : Response_Validate r = inr tt ↔ valid_response r.
Proof.
  unfold Response_Validate.
  rewrite !check_then, eqs_true, negb_orb, andb_true_iff, !eqs_false, bind_ok.
  setoid_rewrite require_ok. setoid_rewrite negb_true_iff. unfold negative_usage.
  assert (range check_output 0 (Resp_Content r) tt = inr tt ↔
    Forall (λ c, content_ok c ∧ response_type (Content_Type c) = true) (Resp_Content r)) as Hc.
  { rewrite range_check, list.Forall_lookup. unfold check_output. setoid_rewrite check_then.
    setoid_rewrite on_error_ok. setoid_rewrite Content_Validate_ok. naive_solver. }
  split.
  - intros (Hv & [Hi Hm] & Hf & [] & Hout%Hc & Hu). repeat apply orb_false_iff in Hu as [Hu ?].
    constructor; try done. lia.
  - intros []. split_and!; try done. exists tt. split; [by apply Hc|].
    repeat (apply orb_false_iff; split); apply Z.ltb_ge; lia.
Qed.

Lemma valid_answer {A} f r (k : error + A) a :
  (_ ← on_error f (Response_Validate r); k) = inr a ↔ valid_response r ∧ k = inr a.
Proof.
  rewrite bind_ok, <- Response_Validate_ok. setoid_rewrite on_error_ok.
  split; [by intros ([] & ? & ?)|eauto].
Qed.

(** C16.  What a gateway may send to an adapter.  [Request.Validate] accepts
    exactly the well-formed requests: the current version, an id and a route,
    limits in range, stop sequences that are not empty, system messages first
    and then at least one other, parts of the types their role allows with
    their payloads and only those, tool calls with new ids, tool results that
    answer an earlier unanswered call, tools with distinct names and object
    schemas, and a choice among them.  In an accepted request ids of calls are
    unique and every result answers exactly one call. *)
Theorem Request_Validate_reference r :
  (Request_Validate r = inr tt ↔ valid_request r) ∧
  (Request_Validate r = inr tt → paired (parts (Req_Messages r))).
Proof.
  split; [apply Request_Validate_ok|]. intros Hv%Request_Validate_ok. by apply valid_paired.
Qed.

(** What an adapter may answer.  [Response.Validate] accepts exactly the
    responses of the current version with an id and a model, one of the four
    finish reasons, well-formed text, image and tool-call parts, and token
    counts that are not negative. *)
Theorem Response_Validate_reference r : Response_Validate r = inr tt ↔ valid_response r.
Proof. apply Response_Validate_ok. Qed.

(** ** A conversation with a tool *)

Module IrSample.
Definition call : ToolCall := {|
  Call_ID := "c1"; Call_Name := "now"; Call_Arguments := "{}"; Call_Signature := ""
|}.
Definition result (id name : string) : Content := result_content (MkToolResult id name
  [text_content "noon"] "" false).
Definition request (result : Content) : Request := {|
  Req_Version := Version; Req_ID := "r1";
  Req_Route := {| IR_ProviderID := "p1"; IR_UpstreamModel := "m" |};
  Req_Messages := [{| Message_Role := RoleUser; Message_Content := [text_content "time?"] |};
    {| Message_Role := RoleAssistant; Message_Content := [call_content call] |};
    {| Message_Role := RoleTool; Message_Content := [result] |}];
  Req_MaxOutputTokens := Some 5%Z; Req_Temperature := Some float_one; Req_TopP := None;
  Req_Stop := []; Req_Tools := [{| Tool_Name := "now"; Tool_Description := "";
    Tool_InputSchema := "{}"; Tool_Strict := None |}];
  Req_ToolChoice := Some {| Choice_Mode := "auto"; Choice_Name := ""; Choice_DisableParallel := false |};
  Req_Metadata := []; Req_Stream := false
|}.
End IrSample.

Example validate_sample : map Request_Validate
  [IrSample.request (IrSample.result "c1" "now"); IrSample.request (IrSample.result "c2" "now");
   IrSample.request (IrSample.result "c1" "day")] =
  [inr tt;
   inl (Errorf "messages[%d].content[%d]: tool_result references unknown prior tool_call %q"
     [AInt 2; AInt 0; AStr "c2"]);
   inl (Errorf "messages[%d].content[%d]: tool_result name %q does not match tool_call name %q"
     [AInt 2; AInt 0; AStr "day"; AStr "now"])].
Proof. reflexivity. Qed.

Lemma Request_Validate_reference_witness :
  paired (parts (Req_Messages (IrSample.request (IrSample.result "c1" "now")))).
Proof.
  refine (proj2 (Request_Validate_reference (IrSample.request (IrSample.result "c1" "now"))) _).
  vm_compute. reflexivity.
Defined.
