(* ===== verification/Decode.v ===== *)
(** * Decoding raw fields

    The uses of [encoding/json] the protocol translators share: decoding a
    value into a struct with unknown fields refused, into a pointer, a slice
    or a string, and the tests on the text of a raw field.  The errors of
    [encoding/json] are one constant.  Printed values are read back by the tests
    and decoders, and what a decoder takes from a text is valid UTF-8. *)

From Stdlib Require Import Ascii.
From S2P Require Import Prelude GoStd Json GoText Utf8 GoNet Errors Results Model Repository Ir.
From S2P Require Import IrFacts.

(** A pointer field: [null] makes it nil, another value is decoded into the
    target, which a repeated key finds as it was left. *)
Fixpoint decode_pointer {A} (dec : A → json → option A) (zero : A) (current : option A)
    (vs : list json) : option (option A) :=
  match vs with
  | [] => Some current
  | JNull :: vs' => decode_pointer dec zero None vs'
  | v :: vs' => x ← dec (default zero current) v; decode_pointer dec zero (Some x) vs'
  end.

Definition string_into (name : string) (current : string) (m : list (string * json)) : option string :=
  last_value dec_string current (field_values name m).

(** Decoding into a struct, unknown fields refused; [null] changes nothing. *)
Definition struct_members (fields : list string) (j : json) : option (list (string * json)) :=
  match j with
  | JNull => Some []
  | JObj m => if known_fields fields m then Some m else None
  | _ => None
  end.

Fixpoint dec_list {A} (dec : json → option A) (l : list json) : option (list A) :=
  match l with
  | [] => Some []
  | j :: l' => x ← dec j; xs ← dec_list dec l'; Some (x :: xs)
  end.
Definition dec_array {A} (dec : json → option A) (j : json) : option (list A) :=
  match j with JNull => Some [] | JArr l => dec_list dec l | _ => None end.

(** [len(trimmed) == 0 || bytes.Equal(trimmed, "null")]. *)
Definition raw_unset (trimmed : RawMessage) : bool := eqs trimmed "" || eqs trimmed "null".
Definition starts_quote (trimmed : RawMessage) : bool :=
  match trimmed with String c _ => Ascii.eqb c dquote | EmptyString => false end.
Definition unmarshal_string (trimmed : RawMessage) : error + string :=
  result_of (parse trimmed ≫= dec_string) json_error.

(** * Decoded fields and printed values

    Printed values are read back by the tests and decoders of raw fields, and
    what a decoder takes from a text is valid UTF-8. *)

#[local] Arguments bool_decide : simpl never.

Definition bracketed (j : json) : Prop :=
  match j with JStr _ | JArr _ | JObj _ => True | _ => False end.

Lemma print_trim j : bracketed j → TrimSpace (print j) = print j.
Proof.
  destruct j as [|b|lit|s|l|m]; try done; intros _; cbn [print].
  - unfold quote. eapply (TrimSpace_graph _ dquote dquote); [reflexivity|done| |done].
    by exists (String dquote (quote_go (String.length s) s)).
  - eapply (TrimSpace_graph _ "["%char "]"%char); [reflexivity|done| |done].
    by exists ("[" +:+ join "," (map print l)).
  - eapply (TrimSpace_graph _ "{"%char "}"%char); [reflexivity|done| |done].
    by eexists ("{" +:+ join "," _).
Qed.

Lemma print_set j : bracketed j → raw_unset (print j) = false.
Proof.
  destruct j; try done; intros _; unfold raw_unset, eqs; cbn [print quote];
    by rewrite !bool_decide_eq_false_2.
Qed.

Lemma unmarshal_printed s : valid_utf8 s = true → unmarshal_string (print (JStr s)) = inr s.
Proof. intros Hs. unfold unmarshal_string. rewrite parse_print by by constructor. done. Qed.

Lemma struct_field_ok name m : Forall kv_ok m → Forall wf_json (field_values name m).
Proof.
  unfold field_values. induction 1 as [|[k v] m [_ Hkv] Hm IH]; [constructor|].
  cbn. destruct (EqualFold k name); cbn; [by constructor|done].
Qed.

Lemma string_into_valid name current m s :
  valid_utf8 current = true → Forall kv_ok m → string_into name current m = Some s →
  valid_utf8 s = true.
Proof.
  unfold string_into. intros Hc Hm. assert (Forall wf_json (field_values name m)) as Hv.
  { unfold field_values. induction Hm as [|[k v] m [_ Hkv] Hm IH]; [constructor|]. cbn.
    destruct (EqualFold k name); cbn; [by constructor|done]. }
  clear Hm. revert current Hc. induction Hv as [|j vs Hj Hvs IH]; intros current Hc; cbn.
  - by intros [= <-].
  - destruct Hj as [| | |t Ht| |]; cbn; try done; by apply IH.
Qed.

Lemma struct_members_ok fields j m : wf_json j → struct_members fields j = Some m → Forall kv_ok m.
Proof.
  destruct 1 as [| | | | |m' Hm]; cbn; try done; [intros [= <-]; constructor|].
  destruct (known_fields fields m'); [|done]. by intros [= <-].
Qed.

Lemma bind_some {A B} (o : option A) (f : A → option B) b :
  o ≫= f = Some b ↔ ∃ a, o = Some a ∧ f a = Some b.
Proof. apply bind_Some. Qed.

Lemma unmarshal_valid raw s : unmarshal_string raw = inr s → valid_utf8 s = true.
Proof.
  unfold unmarshal_string. intros (j & Hj & Hd)%result_of_ok%bind_some.
  apply parse_wf in Hj. destruct Hj; try done. by injection Hd as <-.
Qed.

Lemma Cut_split sep s l r : Cut sep s = Some (l, r) → s = l +:+ String sep r.
Proof.
  revert l r. induction s as [|c s IH]; intros l r; cbn; [done|].
  destruct (Ascii.eqb_spec c sep) as [->|]; [by intros [= <- <-]|].
  destruct (Cut sep s) as [[l' r']|]; [|done]. intros [= <- <-].
  rewrite string_app_cons. f_equal. by apply IH.
Qed.

Lemma TrimSuffix_split s p : HasSuffix s p = true → s = TrimSuffix s p +:+ p.
Proof.
  unfold HasSuffix, HasPrefix, TrimSuffix.
  destruct (CutPrefix (string_rev p) (string_rev s)) as [r|] eqn:E; [|done]. intros _.
  apply CutPrefix_app in E. apply (f_equal string_rev) in E.
  by rewrite string_rev_app, !string_rev_involutive in E.
Qed.

(** * Raw JSON fields

    An object survives the trimming of its raw text: it is neither empty nor
    [null], so a present object is never taken for a missing field. *)

Lemma contains_app c s t : contains_byte c (s +:+ t) = contains_byte c s || contains_byte c t.
Proof. unfold contains_byte. by rewrite bytes_of_app, existsb_app. Qed.

Lemma contains_rev c s : contains_byte c (string_rev s) = contains_byte c s.
Proof.
  unfold contains_byte, string_rev. rewrite bytes_of_string_of.
  induction (bytes_of s) as [|d l IH]; [done|]. cbn. rewrite existsb_app, IH. cbn.
  by rewrite orb_false_r, orb_comm.
Qed.

Lemma contains_skip_ws c s : contains_byte c (skip_ws s) = true → contains_byte c s = true.
Proof.
  induction s as [|d s IH]; [done|]. cbn [skip_ws]. destruct (is_ws d); [|done].
  intros Hs. change (contains_byte c (String d s)) with (Ascii.eqb c d || contains_byte c s).
  apply orb_true_iff. right. by apply IH.
Qed.

(** A byte no piece has is not in what is made of pieces. *)
Lemma contains_pieces c ps q :
  forallb (λ p, negb (contains_byte c p)) ps = true → pieces ps q → contains_byte c q = false.
Proof.
  intros Hps. induction 1 as [|p q Hp Hq IH]; [done|]. rewrite contains_app, IH, orb_false_r.
  rewrite forallb_elem in Hps. by apply negb_true_iff, Hps.
Qed.

Lemma contains_trim c s :
  forallb (λ p, negb (contains_byte c p)) unicode_spaces = true →
  contains_byte c (TrimSpace s) = contains_byte c s.
Proof.
  intros Hc. assert (forallb (λ p, negb (contains_byte c p)) (map string_rev unicode_spaces) = true) as Hr.
  { rewrite forallb_elem in Hc |- *. intros p Hp. apply list_elem_of_fmap in Hp as (p' & -> & Hp).
    rewrite contains_rev. by apply Hc. }
  unfold TrimSpace, TrimRightSpace, TrimLeftSpace.
  destruct (trim_prefixes_split (String.length s) unicode_spaces s) as (q & Hq & E).
  set (l := trim_prefixes _ unicode_spaces s) in *.
  destruct (trim_prefixes_split (String.length l) (map string_rev unicode_spaces) (string_rev l))
    as (q' & Hq' & E'). set (l' := trim_prefixes _ (map string_rev _) _) in *.
  rewrite contains_rev, E, contains_app, (contains_pieces c _ q Hc Hq). cbn [orb].
  rewrite <- (contains_rev c l), E', contains_app.
  by rewrite (contains_pieces c _ q' Hr Hq').
Qed.

Lemma parse_keyword_not_object s m r : parse_keyword s ≠ Some (JObj m, r).
Proof. unfold parse_keyword. by repeat destruct (CutPrefix _ _). Qed.
Lemma parse_number_not_object s m r : parse_number s ≠ Some (JObj m, r).
Proof. unfold parse_number. destruct (span _ s) as [lit r']. by destruct (valid_number lit). Qed.

Lemma object_brace raw : isJSONObject raw = true → contains_byte "{" raw = true.
Proof.
  unfold isJSONObject, parse. destruct (parse_value _ raw) as [[j r]|] eqn:E; [|done].
  destruct (bool_decide _); [|done]. destruct j as [| | | | |m]; try done. intros _.
  apply contains_skip_ws. revert E. generalize (2 * String.length raw + 2)%nat. intros [|f] E; [done|].
  cbn [parse_value] in E. destruct (skip_ws raw) as [|c s]; [done|].
  destruct (Ascii.eqb c dquote); [by destruct (parse_lit _ _) as [[? ?]|]|].
  destruct (Ascii.eqb c "[").
  { destruct (skip_ws s) as [|d s']; [by destruct (parse_elements _ _) as [[? ?]|]|].
    by destruct d as [[] [] [] [] [] [] [] []]; try done; destruct (parse_elements _ _) as [[? ?]|]. }
  destruct (Ascii.eqb_spec c "{") as [-> |].
  { by cbn. }
  destruct (_ || _); [by apply parse_number_not_object in E|by apply parse_keyword_not_object in E].
Qed.

(** [rawPresent] of the protocols. *)
Lemma object_present raw :
  isJSONObject raw = true →
  negb (eqs (TrimSpace raw) "") && negb (eqs (TrimSpace raw) "null") = true.
Proof.
  intros Hb%object_brace. rewrite <- (contains_trim "{" raw) in Hb by by vm_compute.
  unfold eqs. apply andb_true_iff.
  split; apply negb_true_iff, bool_decide_eq_false; intros E; by rewrite E in Hb.
Qed.
