(* ===== verification/DaprState.v ===== *)
(** * State and secrets through Dapr ([daprhttp/state.go], [secrets.go])

    The state store of the deployed services and the secret store of the
    provider adapters: clients of the sidecar.  Whether the body of an answer
    can be read is a parameter. *)

From Stdlib Require Import Ascii.
From S2P Require Import Prelude GoStd Json JsonRaw GoText GoNet GoTime Errors State.
From S2P Require Import Repository Svc Service Platform Wire Registry Dapr.

(** ** Values *)

Definition unless_empty (value : string) {A} (l : list A) : list A :=
  if bool_decide (value = "") then [] else l.

Record stateOptions := { Concurrency : string; Consistency : string }.
Record transactionStateRequest := {
  TS_Key : string; TS_Value : string; TS_ETag : string; TS_Options : option stateOptions
}.
Record transactionOperation := { TO_Operation : string; TO_Request : transactionStateRequest }.
Record transactionRequest := { TR_Operations : list transactionOperation }.

Definition stateOptions_text (o : stateOptions) : string :=
  object_text [("concurrency", quote (Concurrency o)); ("consistency", quote (Consistency o))].

(** An empty raw value is left out, another one is compacted. *)
Definition transactionStateRequest_text (r : transactionStateRequest) : option string :=
  value ← (if bool_decide (TS_Value r = "") then Some []
           else text ← compact (TS_Value r); Some [("value", text)]);
  Some (object_text ([("key", quote (TS_Key r))] ++ value ++
    unless_empty (TS_ETag r) [("etag", quote (TS_ETag r))] ++
    match TS_Options r with Some o => [("options", stateOptions_text o)] | None => [] end)).

Definition transactionOperation_text (o : transactionOperation) : option string :=
  request ← transactionStateRequest_text (TO_Request o);
  Some (object_text [("operation", quote (TO_Operation o)); ("request", request)]).

(** [json.Marshal(requestBody)]. *)
Definition transactionRequest_text (r : transactionRequest) : option string :=
  operations ← all_some transactionOperation_text (TR_Operations r);
  Some (object_text [("operations", "[" +:+ join "," operations +:+ "]")]).

(** ** state.go *)

Record RemoteStore := {
  rs_client : Client; rs_name : string; rs_readable : http_response → bool
}.
Definition NewStateStore (client : Client) (name : string) (readable : http_response → bool)
    : RemoteStore := {| rs_client := client; rs_name := name; rs_readable := readable |}.

(** [io.ReadAll(io.LimitReader(body, n))]. *)
Definition read_limited (n : Z) (body : string) : string :=
  if (Z.of_nat (String.length body) <=? n)%Z then body else str_take (Z.to_nat n) body.
Definition maxStateValue : Z := 16777216.
Definition read_error : error := NewError "unexpected EOF".

Definition state_endpoint (s : RemoteStore) (key : string) : string :=
  "/v1.0/state/" +:+ PathEscape (rs_name s) +:+ "/" +:+ PathEscape key +:+ "?consistency=strong".

(** What [Get] makes of an answer. *)
Definition read_entry (s : RemoteStore) (key : string) (response : http_response) : error + Entry :=
  let status := StatusCode response in
  if ((status =? 204) || (status =? 404))%Z then inr no_entry
  else if negb (succeeded status) then inl (HTTPError status (error_body response))
  else if negb (rs_readable s response) then
    inl (Errorf "read Dapr state %q: %w" [AStr key; AWrap read_error])
  else
    let body := read_limited maxStateValue (RespBody response) in
    if bool_decide (TrimSpace body = "") then inr no_entry
    else if negb (Valid body) then inl (Errorf "Dapr state %q is not valid JSON" [AStr key])
    else inr {| Value := body; ETag := header_get "Etag" (RespHeader response); Exists := true |}.

Definition StateStore_Get (s : RemoteStore) (key : string) : prog Entry :=
  request ← lift match newRequest (rs_client s) "GET" (state_endpoint s key) "" false with
                 | inl err => inl (Errorf "create Dapr state request: %w" [AWrap err])
                 | inr request => inr request
                 end;
  response ← wrap_err (λ e, Errorf "get Dapr state %q: %w" [AStr key; AWrap e])
               (http_do (rs_client s) request);
  lift (read_entry s key response).

(** The loop over the operations. *)
Definition transaction_operation (operation : Operation) : transactionOperation := {|
  TO_Operation := op_Type operation;
  TO_Request := {|
    TS_Key := op_Key operation; TS_Value := op_Value operation; TS_ETag := op_ETag operation;
    TS_Options :=
      if bool_decide (op_ETag operation = "") then None
      else Some {| Concurrency := "first-write"; Consistency := "strong" |} |} |}.
Definition transaction_request (operations : list Operation) : transactionRequest :=
  {| TR_Operations := map transaction_operation operations |}.

Definition transaction_endpoint (s : RemoteStore) : string :=
  "/v1.0/state/" +:+ PathEscape (rs_name s) +:+ "/transaction".

(** What [Transact] makes of an answer. *)
Definition transaction_result (response : http_response) : error + unit :=
  let status := StatusCode response in
  if ((status =? 409) || (status =? 412))%Z then inl ErrStateConflict
  else if negb (succeeded status) then inl (HTTPError status (error_body response))
  else inr tt.

Definition StateStore_Transact (s : RemoteStore) (operations : list Operation) : prog unit :=
  payload ← lift match transactionRequest_text (transaction_request operations) with
                 | Some payload => inr payload
                 | None => inl (Errorf "encode Dapr state transaction: %w" [AWrap json_text_error])
                 end;
  request ← lift match newRequest (rs_client s) "POST" (transaction_endpoint s) payload false with
                 | inl err => inl (Errorf "create Dapr state transaction request: %w" [AWrap err])
                 | inr request => inr request
                 end;
  response ← wrap_err (λ e, Errorf "execute Dapr state transaction: %w" [AWrap e])
               (http_do (rs_client s) {|
                  Out_Method := Out_Method request; Out_URL := Out_URL request;
                  Out_Header := header_set "Content-Type" "application/json" (Out_Header request);
                  Out_Body := Out_Body request; Out_Streamed := Out_Streamed request |});
  lift (transaction_result response).

(** ** secrets.go *)

Record SecretRef := {
  Ref_Store : string; Ref_Name : string; Ref_Key : string; Ref_Namespace : string
}.
Record SecretStore := { sec_client : Client; sec_readable : http_response → bool }.
Definition NewSecretStore (client : Client) (readable : http_response → bool) : SecretStore :=
  {| sec_client := client; sec_readable := readable |}.

(** [url.QueryEscape], and [Encode] of values with at most one key. *)
Definition query_char (c : ascii) : bool := alnum c || one_of "-_.~" c.
Fixpoint QueryEscape (s : string) : string :=
  match s with
  | EmptyString => ""
  | String c s' =>
      (if query_char c then String c "" else if Ascii.eqb c " " then "+" else percent c) +:+
      QueryEscape s'
  end.
Definition namespace_query (namespace : string) : string :=
  if bool_decide (namespace = "") then "" else "?metadata.namespace=" +:+ QueryEscape namespace.

(** A [map[string]string] as its members in order: a later key replaces an
    earlier one, [null] is the empty string. *)
Definition dec_string_map (j : json) : option (list (string * string)) :=
  match j with
  | JNull => Some []
  | JObj m =>
      all_some (λ kv, match kv.2 with JNull => Some (kv.1, "") | v => pair kv.1 <$> dec_string v end) m
  | _ => None
  end.
Definition map_value (key : string) (m : list (string * string)) : string :=
  foldl (λ current kv, if bool_decide (kv.1 = key) then kv.2 else current) "" m.

(** What [Get] makes of an answer: the first value of the body is decoded; a
    missing key and an empty value are refused alike. *)
Definition read_secret (s : SecretStore) (ref : SecretRef) (response : http_response)
    : error + string :=
  if negb (succeeded (StatusCode response)) then
    inl (HTTPError (StatusCode response) (error_body response))
  else
    let body := RespBody response in
    let values :=
      if negb (sec_readable s response) then None
      else match parse_value (2 * String.length body + 2) body with
           | Some (j, _) => dec_string_map j
           | None => None
           end in
    match values with
    | None => inl (Errorf "decode Dapr secret %q: %w" [AStr (Ref_Name ref); AWrap json_text_error])
    | Some values =>
        let key := if bool_decide (Ref_Key ref = "") then Ref_Name ref else Ref_Key ref in
        let value := map_value key values in
        if bool_decide (value = "") then
          inl (Errorf "secret %q does not contain non-empty key %q" [AStr (Ref_Name ref); AStr key])
        else inr value
    end.

Definition SecretStore_Get (s : SecretStore) (ref : SecretRef) : prog string :=
  let endpoint := "/v1.0/secrets/" +:+ PathEscape (Ref_Store ref) +:+ "/" +:+
                  PathEscape (Ref_Name ref) +:+ namespace_query (Ref_Namespace ref) in
  request ← lift match newRequest (sec_client s) "GET" endpoint "" false with
                 | inl err => inl (Errorf "create Dapr secret request: %w" [AWrap err])
                 | inr request => inr request
                 end;
  response ← wrap_err (λ e, Errorf "get Dapr secret %q: %w" [AStr (Ref_Name ref); AWrap e])
               (http_do (sec_client s) request);
  lift (read_secret s ref response).

Example secret_read :
  let s := {| sec_client := New "http://x" "" (λ _, mret (no_body 500)); sec_readable := λ _, true |} in
  let ref := {| Ref_Store := "vault"; Ref_Name := "provider"; Ref_Key := "key"; Ref_Namespace := "" |} in
  read_secret s ref {| StatusCode := 200; RespHeader := []; RespBody := requote "{'key': 'abc'}" |} =
  inr "abc".
Proof. reflexivity. Qed.
