(* ===== verification/DaprStateFacts.v ===== *)
(** * The Dapr state store is a store reached over a network

    What the sidecar is told is what the repositories asked for, and what they
    are told is what the sidecar answered: a program over Dapr state stores
    behaves as one over the stores themselves under the faults of [Faults]. *)

From Stdlib Require Import Ascii.
From S2P Require Import Prelude GoStd Json JsonPrefix JsonRaw GoText Utf8 GoNet GoTime Errors.
From S2P Require Import State Model Repository Collections Directory Svc Service Faults Platform.
From S2P Require Import Wire HttpFacts Registry Dapr DaprFacts DaprState.
From S2P Require Import Decode.

#[local] Arguments bool_decide : simpl never.

(** ** Escaped path segments *)

(** A segment of a URL path that stands for [s]. *)
Definition path_segment (segment s : string) : Prop :=
  unescape encodePath segment = Some s ∧ forallb (λ c, negb (one_of "/?" c)) (bytes_of segment) = true.

Lemma unescape_byte c s : Ascii.eqb c "%" = false →
  unescape encodePath (String c s) = String c <$> unescape encodePath s.
Proof. destruct c as [[] [] [] [] [] [] [] []]; intros H; (discriminate H || reflexivity). Qed.

Lemma PathEscape_segment s : path_segment (PathEscape s) s.
Proof.
  unfold path_segment. induction s as [|c s [IHu IHs]]; [by split|]. cbn [PathEscape].
  rewrite bytes_of_app, forallb_app, IHs, andb_true_r.
  destruct (segment_char c) eqn:E.
  - rewrite string_app_cons, string_app_nil_l. split.
    + rewrite unescape_byte, IHu; [done|].
      destruct c as [[] [] [] [] [] [] [] []]; (discriminate E || reflexivity).
    + destruct c as [[] [] [] [] [] [] [] []]; (discriminate E || reflexivity).
  - clear E. destruct c as [[] [] [] [] [] [] [] []];
      (split; [unfold percent; rewrite !string_app_cons, string_app_nil_l; cbn; by rewrite IHu|reflexivity]).
Qed.

(** ** The transaction document *)

(** The text of a JSON value other than a number. *)
Definition json_text (v : string) : Prop :=
  ∃ j, wf_json j ∧ (∀ lit, j ≠ JNum lit) ∧ v = print j.

(** A value is upserted with its JSON text, a key is deleted without one. *)
Definition json_operation (o : Operation) : Prop :=
  valid_utf8 (op_Key o) = true ∧ valid_utf8 (op_ETag o) = true ∧
  (op_Type o = Upsert ∧ json_text (op_Value o) ∨ op_Type o = Delete ∧ op_Value o = "").

(** The sidecar's reading of a transaction: an entity tag only counts under the
    first-write concurrency. *)
Definition member (name : string) (m : list (string * json)) : option json :=
  snd <$> List.find (λ kv, bool_decide (kv.1 = name)) m.
Definition text_member_of (name : string) (m : list (string * json)) : string :=
  default "" (member name m ≫= dec_string).
Definition operation_of (j : json) : option Operation :=
  m ← members j;
  r ← member "request" m ≫= members;
  key ← member "key" r ≫= dec_string;
  let options := default [] (member "options" r ≫= members) in
  let first_write := bool_decide (text_member_of "concurrency" options = "first-write") in
  Some {| op_Type := text_member_of "operation" m; op_Key := key;
          op_Value := default "" (print <$> member "value" r);
          op_ETag := if first_write then text_member_of "etag" r else "" |}.
Definition transaction_of (j : json) : option (list Operation) :=
  match members j ≫= member "operations" with
  | Some (JArr l) => all_some operation_of l
  | _ => None
  end.

Lemma object_text_print m : object_text (map (λ '(k, v), (k, print v)) m) = print (JObj m).
Proof.
  rewrite print_obj. unfold object_text. rewrite map_map. do 3 f_equal.
  apply List.map_ext. by intros [k v].
Qed.

(** The document as a JSON value. *)
Definition options_json : json :=
  JObj [("concurrency", JStr "first-write"); ("consistency", JStr "strong")].
Definition operation_json (o : Operation) : json :=
  JObj [("operation", JStr (op_Type o));
        ("request", JObj ([("key", JStr (op_Key o))] ++
           unless_empty (op_Value o) [("value", default JNull (parse (op_Value o)))] ++
           unless_empty (op_ETag o) [("etag", JStr (op_ETag o)); ("options", options_json)]))].
Definition transaction_json (ops : list Operation) : json :=
  JObj [("operations", JArr (map operation_json ops))].

Lemma json_text_nonempty v : json_text v → v ≠ "".
Proof. intros (j & Hj & _ & ->). by destruct (print_head j Hj) as (c & u & -> & _). Qed.

Lemma json_value_cases o : json_operation o →
  (op_Value o = "" ∧ op_Type o = Delete) ∨
  ∃ j, op_Type o = Upsert ∧ wf_json j ∧ op_Value o = print j ∧ op_Value o ≠ "".
Proof.
  intros (_ & _ & [[Ht (j & Hj & Hn & Hv)]|[Ht Hv]]); [right|by left].
  exists j. split_and!; [done..|]. rewrite Hv. apply json_text_nonempty. by exists j.
Qed.

Lemma operation_text_print o : json_operation o →
  transactionOperation_text (transaction_operation o) = Some (print (operation_json o)).
Proof.
  intros Ho. unfold transactionOperation_text, transactionStateRequest_text, transaction_operation.
  cbn [TO_Operation TO_Request TS_Key TS_Value TS_ETag TS_Options].
  assert (∀ value_text value_json,
    value_text = map (λ '(k, v), (k, print v)) value_json →
    object_text ([("key", quote (op_Key o))] ++ value_text ++
      unless_empty (op_ETag o) [("etag", quote (op_ETag o))] ++
      match (if bool_decide (op_ETag o = "") then None
             else Some {| Concurrency := "first-write"; Consistency := "strong" |}) with
      | Some o => [("options", stateOptions_text o)] | None => [] end) =
    print (JObj ([("key", JStr (op_Key o))] ++ value_json ++
      unless_empty (op_ETag o) [("etag", JStr (op_ETag o)); ("options", options_json)]))) as Hreq.
  { intros ? value_json ->. rewrite <- object_text_print. f_equal. rewrite !map_app. f_equal. f_equal.
    unfold unless_empty. case_bool_decide; reflexivity. }
  destruct (json_value_cases o Ho) as [[Hv _]|(j & _ & Hj & Hv & Hne)].
  - rewrite Hv, (bool_decide_eq_true_2 ("" = "")) by done. cbn [mbind option_bind]. rewrite (Hreq [] []) by done.
    unfold operation_json. by rewrite Hv.
  - rewrite (bool_decide_eq_false_2 (op_Value o = "")) by done. rewrite Hv, compact_print by done.
    cbn [mbind option_bind]. rewrite (Hreq _ [("value", j)]) by done.
    unfold operation_json. unfold unless_empty at 2. rewrite (bool_decide_eq_false_2 (op_Value o = "")) by done.
    by rewrite Hv, parse_print by done.
Qed.

Lemma all_some_map {A B} (f : A → option B) (g : A → B) l :
  Forall (λ x, f x = Some (g x)) l → all_some f l = Some (map g l).
Proof. induction 1 as [|x l Hx Hl IH]; [done|]. cbn. by rewrite Hx, IH. Qed.
Lemma all_some_inverse {A B} (f : B → option A) (g : A → B) l :
  Forall (λ x, f (g x) = Some x) l → all_some f (map g l) = Some l.
Proof. induction 1 as [|x l Hx Hl IH]; [done|]. cbn. by rewrite Hx, IH. Qed.

Lemma transaction_text_print ops : Forall json_operation ops →
  transactionRequest_text (transaction_request ops) = Some (print (transaction_json ops)).
Proof.
  intros Hops. unfold transactionRequest_text, transaction_request. cbn [TR_Operations].
  rewrite (all_some_map _ (λ o, print (operation_json (Build_Operation
    (TO_Operation o) (TS_Key (TO_Request o)) (TS_Value (TO_Request o)) (TS_ETag (TO_Request o)))))).
  - cbn [mbind option_bind]. rewrite map_map. cbn [transaction_operation TO_Operation TO_Request TS_Key TS_Value TS_ETag].
    f_equal. unfold transaction_json. rewrite <- (object_text_print [("operations", _)]). cbn [map].
    change (print (JArr ?l)) with ("[" +:+ join "," (map print l) +:+ "]"). rewrite map_map.
    rewrite (List.map_ext _ (λ o, print (operation_json o))); [done|]. by intros [].
  - apply List.Forall_map. eapply list.Forall_impl; [exact Hops|]. intros [] Ho.
    by rewrite (operation_text_print _ Ho).
Qed.

Lemma operation_of_json o : json_operation o → operation_of (operation_json o) = Some o.
Proof.
  intros Ho. pose proof (json_value_cases o Ho) as Hcases.
  destruct o as [ty key value etag]. cbn [op_Type op_Key op_Value op_ETag] in *.
  unfold operation_of, operation_json. cbn [op_Type op_Key op_Value op_ETag].
  change (members (JObj ?m)) with (Some m). cbn [mbind option_bind].
  unfold unless_empty. destruct Hcases as [[-> _]|(j & _ & Hj & -> & Hne)].
  - rewrite (bool_decide_eq_true_2 ("" = "")) by done. by case_bool_decide; subst.
  - rewrite (bool_decide_eq_false_2 (print j = "")) by done. rewrite parse_print by done.
    by case_bool_decide; subst.
Qed.

Lemma wf_operation o : json_operation o → wf_json (operation_json o).
Proof.
  intros Ho. pose proof (json_value_cases o Ho) as Hcases. destruct Ho as (Hk & He & Ht).
  assert (valid_utf8 (op_Type o) = true) by by destruct Ht as [[-> _]|[-> _]].
  assert (wf_json (default JNull (parse (op_Value o)))).
  { destruct (parse (op_Value o)) eqn:E; [by eapply parse_wf|constructor]. }
  unfold operation_json, options_json, unless_empty.
  repeat first [case_bool_decide | constructor | progress cbn [fst snd app]]; try done.
Qed.

(** The document the client sends is the one the sidecar expects, and tells it
    every operation, with its entity tag. *)
Lemma transaction_document ops : Forall json_operation ops →
  ∃ payload, transactionRequest_text (transaction_request ops) = Some payload ∧
    parse payload ≫= transaction_of = Some ops.
Proof.
  intros Hops. eexists. split; [by apply transaction_text_print|].
  rewrite parse_print.
  - cbn [mbind option_bind]. unfold transaction_of, transaction_json.
    change (members (JObj ?m)) with (Some m). cbn [mbind option_bind].
    change (member "operations" [("operations", ?j)]) with (Some j).
    apply all_some_inverse. eapply list.Forall_impl; [exact Hops|]. apply operation_of_json.
  - constructor. constructor; [|constructor]. split; [done|]. constructor. apply List.Forall_map.
    eapply list.Forall_impl; [exact Hops|]. apply wf_operation.
Qed.

(** ** URLs *)

(** The base URL of a sidecar: HTTP, a host and no path. *)
Definition sidecar_url (base : string) : Prop :=
  ∃ host, base = "http://" +:+ host ∧ is_Some (parseAuthority host) ∧
    forallb (λ c, negb (ctl_byte c || one_of "/?" c)) (bytes_of host) = true.

Lemma Cut_absent c s t : contains_byte c s = false →
  Cut c (s +:+ t) = match Cut c t with Some (a, b) => Some (s +:+ a, b) | None => None end.
Proof.
  induction s as [|d s IH]; [intros _; rewrite string_app_nil_l; by destruct (Cut c t) as [[a b]|]|].
  unfold contains_byte. cbn [bytes_of existsb]. intros [Hd Hs]%orb_false_iff.
  rewrite string_app_cons. cbn [Cut]. rewrite Ascii.eqb_sym, Hd, IH by done.
  by destruct (Cut c t) as [[a b]|].
Qed.

(** Bytes of a path with its separators. *)
Definition path_bytes (p : string) : Prop :=
  forallb (λ c, negb (ctl_byte c || Ascii.eqb "?" c)) (bytes_of p) = true.
Definition query_text (q : string) : Prop :=
  existsb ctl_byte (bytes_of q) = false ∧ (q = "" ∨ ∃ q', q = String "?" q').

Lemma forallb_split {A} (f g : A → bool) l :
  forallb (λ x, negb (f x || g x)) l = true → existsb f l = false ∧ existsb g l = false.
Proof.
  induction l as [|x l IH]; [done|]. cbn. rewrite !andb_true_iff, negb_true_iff, !orb_false_iff.
  intros [[-> ->] Hl]. apply IH in Hl as [-> ->]. done.
Qed.

Lemma parse_http t :
  ParseRequestURI ("http://" +:+ t) =
    if existsb ctl_byte (bytes_of t) then None else
    let rest := match Cut "?" t with Some (a, _) => a | None => t end in
    let '(authority, path) :=
      match Cut "/" rest with Some (a, p) => (a, String "/" p) | None => (rest, "") end in
    '(user, host) ← parseAuthority authority;
    path_url path {| Scheme := "http"; HasUser := user; Host := host |}.
Proof.
  unfold ParseRequestURI. rewrite bytes_of_app, existsb_app.
  change (existsb ctl_byte (bytes_of "http://")) with false. cbn [orb].
  destruct (existsb ctl_byte (bytes_of t)); [done|].
  rewrite !bool_decide_eq_false_2 by done.
  change (getScheme true ("http://" +:+ t)) with (Some (Some ("http", "//" +:+ t))).
  cbn [mbind option_bind]. change (ToLower "http") with "http".
  rewrite (Cut_absent "?" "//") by done.
  destruct (Cut "?" t) as [[a b]|]; cbv iota beta.
  - reflexivity.
  - reflexivity.
Qed.

Lemma sidecar_request_url base p q :
  sidecar_url base → path_bytes p → is_Some (unescape encodePath (String "/" p)) → query_text q →
  is_Some (ParseRequestURI (base +:+ String "/" p +:+ q)).
Proof.
  intros (host & -> & [[user h] Hauth] & Hhost) Hp [x Hx] [Hq Hq']. unfold path_bytes in Hp.
  assert (existsb ctl_byte (bytes_of host) = false ∧ contains_byte "/" host = false ∧
    contains_byte "?" host = false) as (Hc & Hslash & Hmark).
  { apply forallb_split in Hhost as [? Ho]. split; [done|].
    unfold contains_byte. clear -Ho. induction (bytes_of host) as [|c l IH]; [done|].
    cbn in Ho |- *. apply orb_false_iff in Ho as [Ho Hl]. destruct (IH Hl) as [-> ->].
    rewrite !orb_false_r. destruct c as [[] [] [] [] [] [] [] []]; (discriminate Ho || done). }
  apply forallb_split in Hp as [Hpc Hpm]. rewrite string_app_assoc, parse_http.
  rewrite bytes_of_app, existsb_app, Hc, bytes_of_app. cbn [bytes_of app existsb].
  rewrite existsb_app, Hpc, Hq. change (ctl_byte "/") with false. cbn [orb].
  assert (contains_byte "?" (host +:+ String "/" p) = false) as Hnm.
  { unfold contains_byte in *. rewrite bytes_of_app, existsb_app, Hmark. cbn. exact Hpm. }
  assert (match Cut "?" (host +:+ String "/" p +:+ q) with Some (a, _) => a | None => host +:+ String "/" p +:+ q end =
    host +:+ String "/" p) as ->.
  { rewrite <- (string_app_assoc host), Cut_absent by done.
    destruct Hq' as [->|[q' ->]]; [by rewrite string_app_nil_r|].
    cbn [Cut]. change (Ascii.eqb "?" "?") with true. cbv iota. by rewrite string_app_nil_r. }
  rewrite Cut_absent by done. cbn [Cut]. change (Ascii.eqb "/" "/") with true. cbv iota beta zeta.
  rewrite string_app_nil_r, Hauth. cbn [mbind option_bind]. unfold path_url. rewrite Hx. by eexists.
Qed.

Lemma PathEscape_bytes s : path_bytes (PathEscape s).
Proof.
  unfold path_bytes. induction s as [|c s IH]; [done|]. cbn [PathEscape].
  rewrite bytes_of_app, forallb_app, IH, andb_true_r.
  by destruct c as [[] [] [] [] [] [] [] []].
Qed.
Lemma path_bytes_app s t : path_bytes s → path_bytes t → path_bytes (s +:+ t).
Proof. unfold path_bytes. intros Hs Ht. by rewrite bytes_of_app, forallb_app, Hs, Ht. Qed.
Lemma unescape_app s t x : unescape encodePath s = Some x →
  unescape encodePath (s +:+ t) = (λ y, x +:+ y) <$> unescape encodePath t.
Proof.
  remember (String.length s) as n eqn:Hn. revert s x Hn.
  induction (lt_wf n) as [n _ IH]. intros [|c s] x Hn Hx.
  { injection Hx as <-. rewrite string_app_nil_l. destruct (unescape _ t); [|done].
    cbn. by rewrite string_app_nil_l. }
  rewrite string_app_cons. destruct (Ascii.eqb_spec c "%") as [->|Hc%Ascii.eqb_neq].
  - destruct s as [|a [|b s]]; [done..|]. rewrite !string_app_cons. cbn [unescape] in Hx |- *.
    destruct (hex_val a), (hex_val b); try done. cbv beta zeta iota in Hx |- *.
    destruct (unescape encodePath s) as [x'|] eqn:E; [|done]. injection Hx as <-.
    rewrite (IH (String.length s)) with (x := x'); [|subst; cbn; lia|done..].
    by destruct (unescape _ t).
  - rewrite unescape_byte in Hx |- * by done.
    destruct (unescape encodePath s) as [x'|] eqn:E; [|done]. injection Hx as <-.
    rewrite (IH (String.length s)) with (x := x'); [|subst; cbn; lia|done..].
    by destruct (unescape _ t).
Qed.

Lemma escaped_inside prefix s t x :
  path_bytes prefix → path_bytes t → unescape encodePath prefix = Some x →
  is_Some (unescape encodePath t) →
  path_bytes (prefix +:+ PathEscape s +:+ t) ∧
    is_Some (unescape encodePath (prefix +:+ PathEscape s +:+ t)).
Proof.
  intros Hp Ht Hx [y Hy]. split.
  - apply path_bytes_app; [done|]. apply path_bytes_app; [apply PathEscape_bytes|done].
  - rewrite (unescape_app _ _ _ Hx), (unescape_app _ _ _ (proj1 (PathEscape_segment s))), Hy.
    by eexists.
Qed.

Section client_urls.
Context (rs : RemoteStore) (Hbase : sidecar_url (baseURL (rs_client rs))).

Lemma state_url_ok key :
  is_Some (ParseRequestURI (baseURL (rs_client rs) +:+ state_endpoint rs key)).
Proof.
  destruct (escaped_inside "/" key "" "/") as [Hk1 [k Hk2]]; [done..|by eexists|].
  rewrite string_app_nil_r in Hk1, Hk2.
  destruct (escaped_inside "v1.0/state/" (rs_name rs) ("/" +:+ PathEscape key) "v1.0/state/")
    as [Hp1 [p Hp2]]; [done..|by eexists|].
  replace (state_endpoint rs key)
    with (String "/" ("v1.0/state/" +:+ PathEscape (rs_name rs) +:+ "/" +:+ PathEscape key) +:+
          "?consistency=strong").
  - apply sidecar_request_url; [done|done|rewrite unescape_byte, Hp2 by done; by eexists|].
    split; [done|right]. by eexists.
  - unfold state_endpoint. by rewrite string_app_cons, !string_app_assoc.
Qed.

Lemma transaction_url_ok :
  is_Some (ParseRequestURI (baseURL (rs_client rs) +:+ transaction_endpoint rs)).
Proof.
  destruct (escaped_inside "v1.0/state/" (rs_name rs) "/transaction" "v1.0/state/")
    as [Hp1 [p Hp2]]; [done..|by eexists|].
  replace (transaction_endpoint rs)
    with (String "/" ("v1.0/state/" +:+ PathEscape (rs_name rs) +:+ "/transaction") +:+ "").
  - apply sidecar_request_url; [done|done|rewrite unescape_byte, Hp2 by done; by eexists|].
    split; [done|by left].
  - by rewrite string_app_nil_r.
Qed.
End client_urls.

(** ** Reading an entry *)

(** The text starts with a byte that is in no space. *)
Lemma json_text_head v : json_text v →
  ∃ c u, v = String c u ∧ forallb (λ p, negb (contains_byte c p)) unicode_spaces = true.
Proof.
  intros (j & Hj & Hn & ->).
  destruct j as [|[]|lit|t|l|m]; [..|by destruct (Hn lit)| | |]; eexists _, _; (split; [reflexivity|done]).
Qed.

Lemma trimmed_head c u :
  forallb (λ p, negb (contains_byte c p)) unicode_spaces = true → TrimSpace (String c u) ≠ "".
Proof.
  intros Hs E. pose proof (contains_trim c (String c u) Hs) as Hc. rewrite E in Hc.
  unfold contains_byte in Hc at 2. cbn in Hc. by rewrite Ascii.eqb_refl in Hc.
Qed.

Lemma read_limited_text v : json_text v →
  TrimSpace (read_limited maxStateValue v) ≠ "" ∧
  ((Z.of_nat (String.length v) <= maxStateValue)%Z ∧ read_limited maxStateValue v = v ∨
   (maxStateValue < Z.of_nat (String.length v))%Z ∧ Valid (read_limited maxStateValue v) = false).
Proof.
  intros Hv. destruct (json_text_head v Hv) as (c & u & Hc & Hs). unfold read_limited.
  destruct (Z.leb_spec (Z.of_nat (String.length v)) maxStateValue) as [Hl|Hl].
  - split; [|by left]. rewrite Hc. by apply trimmed_head.
  - assert (Z.to_nat maxStateValue < String.length v)%nat as Hlt.
    { apply Nat2Z.inj_lt. by rewrite Z2Nat.id by done. }
    split.
    + assert (∃ k, Z.to_nat maxStateValue = S k) as [k ->].
      { apply Nat.neq_0_r. intros E. apply (f_equal Z.of_nat) in E. by rewrite Z2Nat.id in E by done. }
      rewrite Hc. by apply trimmed_head.
    + right. split; [done|]. destruct Hv as (j & Hj & Hn & ->). unfold Valid.
      by rewrite proper_prefix_invalid.
Qed.

Lemma json_text_valid v : json_text v → Valid v = true.
Proof. intros (j & Hj & _ & ->). unfold Valid. by rewrite parse_print. Qed.

Section refinement.
Context {S : Type} `{StateStoreLaws S}.
Implicit Types (s : S) (w : world S).

Definition stored_json s : Prop := ∀ k v, view s !! k = Some v → json_text v.

(** The answer of a sidecar that found what it was asked for. *)
Definition entry_answer s (key : string) (r : error + http_response) : Prop :=
  match view s !! key with
  | Some v => ∃ h, r = inr {| StatusCode := 200; RespHeader := h; RespBody := v |} ∧
      header_get "Etag" h = tag s key
  | None => ∃ h body, r = inr {| StatusCode := 204; RespHeader := h; RespBody := body |}
  end.
Definition commit_answer (e : option error) (r : error + http_response) : Prop :=
  ∃ response, r = inr response ∧
    match e with
    | None => succeeded (StatusCode response) = true
    | Some _ => StatusCode response = 409%Z ∨ StatusCode response = 412%Z
    end.

(** Failures: no answer, or an error status; [statuses] tells which. *)
Definition failure (statuses : Z → Prop) (r : error + http_response) : Prop :=
  match r with
  | inl e => True
  | inr response => (400 <= StatusCode response)%Z ∧ statuses (StatusCode response)
  end.

(** The state API as Dapr documents it, over the store of domain [d].  A
    strongly consistent [GET] answers 200 with the value and its entity tag, or
    204 when there is none; a transaction commits all of its operations and is
    answered with a success, or changes nothing and is answered with a
    conflict.  When the sidecar fails, a read is answered with another error than
    404, and a transaction is lost, or committed without its answer. *)
Definition serves_state (do : transport) (base name : string) (d : domain) : Prop :=
  (∀ o n seg key w r w',
    Out_Method o = "GET" →
    Out_URL o = base +:+ "/v1.0/state/" +:+ n +:+ "/" +:+ seg +:+ "?consistency=strong" →
    path_segment n name → path_segment seg key →
    exec (do o) w r w' →
    w' = w ∧ (entry_answer (store_of w d) key r ∨ failure (λ status, status ≠ 404%Z) r)) ∧
  (∀ o n ops w r w',
    Out_Method o = "POST" → Out_URL o = base +:+ "/v1.0/state/" +:+ n +:+ "/transaction" →
    path_segment n name → header_get "Content-Type" (Out_Header o) = "application/json" →
    parse (Out_Body o) ≫= transaction_of = Some ops →
    exec (do o) w r w' →
    let '(e, s) := Transact (store_of w d) ops in
    (w' = set_store w d s ∧ commit_answer e r) ∨
    ((w' = w ∨ w' = set_store w d s) ∧ failure (λ _, True) r)).

(** A sidecar that does not fail, in an environment without faults. *)
Record answers_state (env : environment) (do : transport) (base name : string) (d : domain) : Prop := {
  answers_get o n seg key w :
    Out_Method o = "GET" →
    Out_URL o = base +:+ "/v1.0/state/" +:+ n +:+ "/" +:+ seg +:+ "?consistency=strong" →
    path_segment n name → path_segment seg key →
    ∃ r, run env (do o) w = (r, w) ∧ entry_answer (store_of w d) key r;
  answers_transact o n ops w :
    Forall known_type ops → Out_Method o = "POST" → Out_URL o = base +:+ "/v1.0/state/" +:+ n +:+ "/transaction" →
    path_segment n name → header_get "Content-Type" (Out_Header o) = "application/json" →
    parse (Out_Body o) ≫= transaction_of = Some ops →
    ∃ r, run env (do o) w = (r, set_store w d (Transact (store_of w d) ops).2) ∧
      commit_answer (Transact (store_of w d) ops).1 r
}.

Lemma header_get_set name v h : header_get name (header_set name v h) = v.
Proof. unfold header_get, header_set, header_values. cbn. by rewrite bool_decide_eq_true_2. Qed.

Lemma json_known ops : Forall json_operation ops → Forall known_type ops.
Proof.
  intros Hops. eapply list.Forall_impl; [exact Hops|]. intros o (_ & _ & [[Ht _]|[Ht _]]); [by left|by right].
Qed.

(** A transaction commits all of its operations, or is refused with a conflict
    and changes nothing. *)
Lemma Transact_cases s ops : Forall known_type ops →
  (∃ s', Transact s ops = (None, s') ∧ view s' = apply_values ops (view s)) ∨
  ∃ e, Transact s ops = (Some e, s) ∧ errors_Is e StateConflict = true.
Proof.
  intros Hk. set (P := λ o, op_ETag o = "" ∨ is_Some (view s !! op_Key o) ∧ op_ETag o = tag s (op_Key o)).
  assert (∀ o, Decision (P o)) as Hd by (intros o; unfold P; apply _).
  destruct (decide (Forall P ops)) as [Hc|Hc%(not_Forall_Exists P)].
  - left. by apply Transact_commit.
  - right. apply Transact_conflict; [done|]. apply list.Exists_exists in Hc as (o & Ho & Hn). exists o.
    unfold P in Hn. split_and!; [done|intros ?; apply Hn; by left|].
    destruct (view s !! op_Key o) eqn:E; [right|by left]. intros Ht. apply Hn. right. by eauto.
Qed.

(** What the client makes of the answers. *)
Definition got (rs : RemoteStore) (key : string) (r : error + http_response) : error + Entry :=
  match r with
  | inl e => inl (Errorf "get Dapr state %q: %w" [AStr key; AWrap e])
  | inr response => read_entry rs key response
  end.
Definition committed (r : error + http_response) : error + unit :=
  match r with
  | inl e => inl (Errorf "execute Dapr state transaction: %w" [AWrap e])
  | inr response => transaction_result response
  end.

Lemma failed_status status : (400 <= status)%Z → succeeded status = false.
Proof. intros Hs. unfold succeeded. apply andb_false_iff. right. apply Z.ltb_ge. lia. Qed.
Lemma either_status status a b : status ≠ a → status ≠ b → (status =? a)%Z || (status =? b)%Z = false.
Proof. intros Ha Hb. by rewrite (proj2 (Z.eqb_neq _ _) Ha), (proj2 (Z.eqb_neq _ _) Hb). Qed.

(** The entry is taken from the answer, unless its value could not be read or
    is too long. *)
Lemma got_answer rs s key r : stored_json s → entry_answer s key r →
  got rs key r = Get s key ∨ ∃ e, got rs key r = inl e ∧
    ((∃ response, rs_readable rs response = false) ∨
     ∃ v, view s !! key = Some v ∧ (maxStateValue < Z.of_nat (String.length v))%Z).
Proof.
  intros Hst Ha. rewrite Get_view. unfold entry_answer in Ha.
  destruct (view s !! key) as [v|] eqn:Hv; [|destruct Ha as (h & body & ->); by left].
  destruct Ha as (h & -> & Htag). unfold got, read_entry. cbn [StatusCode RespBody RespHeader].
  change (succeeded 200) with true. cbn [negb Z.eqb orb].
  destruct (rs_readable rs _) eqn:Hrd; cbn [negb]; [|right; eauto].
  destruct (read_limited_text v (Hst _ _ Hv)) as [Ht [[Hl E]|[Hl E]]];
    rewrite bool_decide_eq_false_2 by done; rewrite E.
  - left. rewrite json_text_valid by by apply (Hst key). cbn [negb]. by rewrite Htag.
  - cbn [negb]. right. eauto 6.
Qed.

Lemma got_failure rs key r : failure (λ status, status ≠ 404%Z) r → ∃ e, got rs key r = inl e.
Proof.
  destruct r as [e|response]; [by eexists|]. intros [H4 Hn]. cbn. unfold read_entry.
  rewrite either_status by (done || lia). rewrite failed_status by done. by eexists.
Qed.

Lemma committed_answer e r : commit_answer e r →
  committed r = match e with None => inr tt | Some _ => inl ErrStateConflict end.
Proof.
  intros (response & -> & Ha). cbn. unfold transaction_result. destruct e as [e|].
  - assert ((StatusCode response =? 409) || (StatusCode response =? 412) = true)%Z as ->; [|done].
    apply orb_true_iff. by rewrite !Z.eqb_eq.
  - rewrite Ha. unfold succeeded in Ha. apply andb_true_iff in Ha as [_ H2%Z.ltb_lt].
    by rewrite either_status by lia.
Qed.

Lemma committed_failure P r : failure P r → ∃ err, committed r = inl err.
Proof.
  destruct r as [e|response]; [by eexists|]. intros [H4 _]. cbn. unfold transaction_result.
  destruct ((StatusCode response =? 409) || (StatusCode response =? 412))%Z; [by eexists|].
  rewrite failed_status by done. by eexists.
Qed.

Section store.
Context (rs : RemoteStore) (d : domain) (Hbase : sidecar_url (baseURL (rs_client rs))).

(** The requests of the client. *)
Definition get_sent (key : string) : outgoing := {|
  Out_Method := "GET"; Out_URL := baseURL (rs_client rs) +:+ state_endpoint rs key;
  Out_Header := with_token (rs_client rs) []; Out_Body := ""; Out_Streamed := false |}.
Definition transact_sent (payload : string) : outgoing := {|
  Out_Method := "POST"; Out_URL := baseURL (rs_client rs) +:+ transaction_endpoint rs;
  Out_Header := header_set "Content-Type" "application/json" (with_token (rs_client rs) []);
  Out_Body := payload; Out_Streamed := false |}.

Lemma Get_exec key w r w' : exec (StateStore_Get rs key) w r w' →
  ∃ r0, exec (http_do (rs_client rs) (get_sent key)) w r0 w' ∧ r = got rs key r0.
Proof.
  unfold StateStore_Get, newRequest. destruct (state_url_ok rs Hbase key) as [u Hu]. rewrite Hu.
  intros [(e & _ & [? _]%exec_Done)|(o & w1 & [[= ->] ->]%exec_Done & He)]%exec_bind; [done|].
  apply exec_bind in He as [(e & -> & He)|(response & w1 & He & [-> ->]%exec_Done)];
    apply exec_bind_result in He as (r0 & w0 & Hr0 & He);
    destruct r0; apply exec_Done in He as [[= ->] ->]; eauto.
Qed.

Lemma Get_run env key w : run env (StateStore_Get rs key) w =
  let '(r, w') := run env (http_do (rs_client rs) (get_sent key)) w in (got rs key r, w').
Proof.
  unfold StateStore_Get, newRequest. destruct (state_url_ok rs Hbase key) as [u Hu]. rewrite Hu.
  rewrite run_bind. cbn [lift run]. rewrite run_bind. unfold wrap_err. rewrite run_bind_result.
  unfold get_sent. by destruct (run env _ w) as [[e|response] w'].
Qed.

Section transaction.
Context (ops : list Operation) (payload : string).
Context (Hpayload : transactionRequest_text (transaction_request ops) = Some payload).

Lemma Transact_exec w r w' : exec (StateStore_Transact rs ops) w r w' →
  ∃ r0, exec (http_do (rs_client rs) (transact_sent payload)) w r0 w' ∧ r = committed r0.
Proof.
  unfold StateStore_Transact. rewrite Hpayload.
  intros [(e & _ & [? _]%exec_Done)|(? & ? & [[= ->] ->]%exec_Done & He)]%exec_bind; [done|].
  revert He. unfold newRequest. destruct (transaction_url_ok rs Hbase) as [u Hu]. rewrite Hu.
  intros [(e & _ & [? _]%exec_Done)|(o & w1 & [[= ->] ->]%exec_Done & He)]%exec_bind; [done|].
  apply exec_bind in He as [(e & -> & He)|(response & w1 & He & [-> ->]%exec_Done)];
    apply exec_bind_result in He as (r0 & w0 & Hr0 & He);
    destruct r0; apply exec_Done in He as [[= ->] ->]; eauto.
Qed.

Lemma Transact_run env w : run env (StateStore_Transact rs ops) w =
  let '(r, w') := run env (http_do (rs_client rs) (transact_sent payload)) w in (committed r, w').
Proof.
  unfold StateStore_Transact, newRequest. destruct (transaction_url_ok rs Hbase) as [u Hu].
  rewrite Hpayload, Hu. rewrite run_bind. cbn [lift run]. rewrite run_bind. cbn [lift run].
  rewrite run_bind. unfold wrap_err. rewrite run_bind_result.
  unfold transact_sent. cbn [Out_Method Out_URL Out_Header Out_Body Out_Streamed].
  by destruct (run env _ w) as [[e|response] w'].
Qed.
End transaction.

(** Under faults, a read returns the entry or fails and changes nothing; a
    transaction commits and succeeds, or is refused as a conflict and changes
    nothing, or fails and did one or the other. *)
Section faults.
Context (Hserves : serves_state (http_do (rs_client rs)) (baseURL (rs_client rs)) (rs_name rs) d).

Lemma StateStore_Get_exec key w r w' :
  stored_json (store_of w d) → exec (StateStore_Get rs key) w r w' →
  w' = w ∧ (r = Get (store_of w d) key ∨ ∃ e, r = inl e).
Proof.
  intros Hst (r0 & He & ->)%Get_exec.
  apply (proj1 Hserves) with (n := PathEscape (rs_name rs)) (seg := PathEscape key) (key := key) in He
    as [-> [Ha|Hf]]; [..|done|done|apply PathEscape_segment|apply PathEscape_segment];
    (split; [done|]).
  - apply (got_answer rs _ key r0 Hst) in Ha as [?|(e & ? & _)]; eauto.
  - right. by eapply got_failure.
Qed.

Lemma StateStore_Transact_exec ops w r w' :
  Forall json_operation ops → exec (StateStore_Transact rs ops) w r w' →
  let '(e, s) := Transact (store_of w d) ops in
  (w' = set_store w d s ∧ r = match e with None => inr tt | Some _ => inl ErrStateConflict end) ∨
  ∃ err, r = inl err ∧ (w' = w ∨ w' = set_store w d s).
Proof.
  intros Hops He. destruct (transaction_document ops Hops) as (payload & Hpayload & Hdoc).
  destruct (Transact_exec ops payload Hpayload _ _ _ He) as (r0 & He0 & ->). clear He. rename He0 into He.
  apply (proj2 Hserves) with (n := PathEscape (rs_name rs)) (ops := ops) in He;
    [|done|done|apply PathEscape_segment|apply header_get_set|done].
  destruct (Transact (store_of w d) ops) as [e s].
  destruct He as [[-> Ha]|[Hw Hf]].
  - left. split; [done|]. by apply committed_answer.
  - right. apply committed_failure in Hf as (err & ->). by exists err.
Qed.
End faults.

(** Without faults, a read returns the entry, if it fits, and a transaction
    returns what the store did. *)
Section healthy.
Context (env : environment).
Context (Hread : ∀ response, rs_readable rs response = true).
Context (Hanswers : answers_state env (http_do (rs_client rs)) (baseURL (rs_client rs)) (rs_name rs) d).

Lemma StateStore_Get_run key w :
  stored_json (store_of w d) →
  (∀ v, view (store_of w d) !! key = Some v → (Z.of_nat (String.length v) <= maxStateValue)%Z) →
  run env (StateStore_Get rs key) w = (Get (store_of w d) key, w).
Proof.
  intros Hst Hfit. rewrite Get_run.
  destruct (answers_get _ _ _ _ _ Hanswers (get_sent key) (PathEscape (rs_name rs)) (PathEscape key) key w)
    as (r & -> & Ha); [done|done|apply PathEscape_segment..|].
  apply (got_answer rs _ key r Hst) in Ha as [->|(e & _ & [[? Hr]|(v & Hv & Hl)])]; [done|..].
  - by rewrite Hread in Hr.
  - apply Hfit in Hv. lia.
Qed.

Lemma StateStore_Transact_run ops w : Forall json_operation ops →
  run env (StateStore_Transact rs ops) w =
    let '(e, s) := Transact (store_of w d) ops in
    (match e with None => inr tt | Some _ => inl ErrStateConflict end, set_store w d s).
Proof.
  intros Hops. destruct (transaction_document ops Hops) as (payload & Hpayload & Hdoc).
  rewrite (Transact_run ops payload Hpayload).
  destruct (answers_transact _ _ _ _ _ Hanswers (transact_sent payload) (PathEscape (rs_name rs)) ops w)
    as (r & -> & Ha); [by apply json_known|done|done|apply PathEscape_segment|apply header_get_set|done|].
  destruct (Transact (store_of w d) ops) as [e s]. by rewrite (committed_answer e r Ha).
Qed.
End healthy.
End store.

(** ** Programs over Dapr state stores *)

(** A program whose stores are these clients. *)
Fixpoint over {A} (stores : domain → RemoteStore) (p : prog A) : prog A :=
  match p with
  | Done r => Done r
  | DoGet d key k => bind_result (StateStore_Get (stores d) key) (λ r, over stores (k r))
  | DoTransact d ops k =>
      bind_result (StateStore_Transact (stores d) ops)
        (λ r, over stores (k match r with inl e => Some e | inr _ => None end))
  | DoNow k => DoNow (λ t, over stores (k t))
  | DoRead n k => DoRead n (λ r, over stores (k r))
  end.

(** Every transaction of the program stores JSON texts, as long as it reads
    JSON texts. *)
Definition json_entry (r : error + Entry) : Prop :=
  match r with
  | inr entry => Exists entry = true → json_text (Value entry) ∧ valid_utf8 (ETag entry) = true
  | inl _ => True
  end.
Fixpoint json_program {A} (p : prog A) : Prop :=
  match p with
  | Done _ => True
  | DoGet d key k => ∀ r, json_entry r → json_program (k r)
  | DoTransact d ops k => Forall json_operation ops ∧ ∀ e, json_program (k e)
  | DoNow k => ∀ t, json_program (k t)
  | DoRead n k => ∀ r, json_program (k r)
  end.

Section programs.
Context (stores : domain → RemoteStore).
Context (Htag : ∀ s k, valid_utf8 (tag s k) = true).
Context (Hbase : ∀ d, sidecar_url (baseURL (rs_client (stores d)))).
Context (Hserves : ∀ d, serves_state (http_do (rs_client (stores d)))
  (baseURL (rs_client (stores d))) (rs_name (stores d)) d).

Definition stored_world w : Prop := ∀ d, stored_json (store_of w d).

Lemma stored_apply ops s s' :
  Forall json_operation ops → stored_json s → view s' = apply_values ops (view s) → stored_json s'.
Proof.
  intros Hops Hs Hv. unfold stored_json. rewrite Hv. unfold stored_json in Hs. revert Hs.
  generalize (view s) as m. clear Hv. induction Hops as [|o ops Ho Hops IH]; intros m Hm; [done|].
  cbn [apply_values foldl]. apply IH. intros k v. unfold apply_value.
  destruct Ho as (_ & _ & [[-> Ht]|[-> Ht]]).
  - rewrite bool_decide_eq_true_2 by done. intros [[<- <-]|[_ Hk]]%lookup_insert_Some; [done|by eapply Hm].
  - rewrite bool_decide_eq_false_2 by done. intros [_ Hk]%lookup_delete_Some. by eapply Hm.
Qed.

Lemma stored_transact ops w d : Forall json_operation ops → stored_world w →
  stored_world (set_store w d (Transact (store_of w d) ops).2).
Proof.
  intros Hops Hw d'. destruct (Transact_cases (store_of w d) ops) as [(s' & E & Hv)|(e & E & _)];
    [by apply json_known|..]; rewrite E; cbn [snd].
  - rewrite store_of_set. destruct (decide (d' = d)); [by eapply stored_apply|apply Hw].
  - rewrite store_of_set. destruct (decide (d' = d)); apply Hw.
Qed.

(** A program over the clients does nothing a program over the stores
    themselves cannot do under the faults of a network, and keeps the stores
    JSON. *)
Lemma over_exec {A} (p : prog A) w r w' :
  json_program p → stored_world w → exec (over stores p) w r w' →
  exec p w r w' ∧ stored_world w'.
Proof.
  revert w. induction p as [r0|d key k IH|d ops k IH|k IH|n k IH]; intros w Hp Hw He; cbn [over] in He.
  - apply exec_Done in He as [-> ->]. split; [constructor|done].
  - apply exec_bind_result in He as (r1 & w1 & Hg & He).
    apply (StateStore_Get_exec (stores d) d (Hbase d) (Hserves d)) in Hg as [-> Hr];
      [|apply Hw].
    assert (json_entry r1) as Hj.
    { destruct Hr as [->|(e & ->)]; [|done]. rewrite Get_view.
      destruct (view (store_of w d) !! key) as [v|] eqn:Hv; [|done]. cbn. intros _. split; [|apply Htag].
      by apply (Hw d key). }
    apply IH in He as [He Hw']; [|by apply Hp|done]. split; [|done].
    destruct Hr as [->|(e & ->)]; [by apply exec_get|by eapply exec_get_failed].
  - destruct Hp as [Hops Hk]. apply exec_bind_result in He as (r1 & w1 & Ht & He).
    pose proof (stored_transact ops w d Hops Hw) as Hst.
    apply (StateStore_Transact_exec (stores d) d (Hbase d) (Hserves d)) in Ht; [|done].
    destruct (Transact (store_of w d) ops) as [e s] eqn:Et. cbn [snd] in Hst.
    destruct Ht as [[-> ->]|(err & -> & [->| ->])].
    + apply IH in He as [He Hw']; [|by apply Hk|done]. split; [|done].
      destruct e as [e|]; [by eapply exec_transact_ambiguous|by eapply exec_transact].
    + apply IH in He as [He Hw']; [|by apply Hk|done]. split; [|done]. by eapply exec_transact_lost.
    + apply IH in He as [He Hw']; [|by apply Hk|done]. split; [|done]. by eapply exec_transact_ambiguous.
  - apply exec_now_inv in He as (t & Ht & He). apply IH in He as [He Hw']; [|by apply Hp|done].
    split; [|done]. by eapply exec_now.
  - apply exec_random_inv in He as [(b & Hb & Hr & He)|[e He]]; (apply IH in He as [He Hw']; [|by apply Hp|done]);
      (split; [|done]); [by eapply exec_random|by eapply exec_random_failed].
Qed.
End programs.
End refinement.
