(* ===== verification/DaprStores.v ===== *)
(** * Repositories over Dapr state stores

    The write operations of the user and provider repositories only store JSON
    texts, so they run over Dapr state stores as they do over the stores
    themselves; and a sidecar next to the store, with which calls do exactly
    what they are asked. *)

From Stdlib Require Import Ascii.
From S2P Require Import Prelude GoStd Json JsonRaw GoText Utf8 GoNet GoTime Errors State Model Repository.
From S2P Require Import Collections Directory Faults Platform Dapr DaprFacts DaprState.
From S2P Require Import DaprStateFacts.

#[local] Arguments bool_decide : simpl never.

(** ** What a program returns while it stores JSON texts *)

Fixpoint json_post {A} (Q : A → Prop) (p : prog A) : Prop :=
  match p with
  | Done r => match r with inr a => Q a | inl _ => True end
  | DoGet d key k => ∀ r, json_entry r → json_post Q (k r)
  | DoTransact d ops k => Forall json_operation ops ∧ ∀ e, json_post Q (k e)
  | DoNow k => ∀ t, json_post Q (k t)
  | DoRead n k => ∀ r, json_post Q (k r)
  end.

Lemma json_post_program {A} (Q : A → Prop) p : json_post Q p → json_program p.
Proof. induction p; cbn; naive_solver. Qed.

Lemma post_bind_result {A B} (R : A → Prop) (Q : B → Prop) p f :
  json_post R p → (∀ e, json_post Q (f (inl e))) → (∀ a, R a → json_post Q (f (inr a))) →
  json_post Q (bind_result p f).
Proof. intros Hp He Hf. induction p as [[e|a]| | | |]; cbn in *; naive_solver. Qed.
Lemma post_bind {A B} (R : A → Prop) (Q : B → Prop) p (f : A → prog B) :
  json_post R p → (∀ a, R a → json_post Q (f a)) → json_post Q (p ≫= f).
Proof. intros Hp Hf. by apply (post_bind_result R). Qed.
Lemma post_wrap {A} (Q : A → Prop) g p : json_post Q p → json_post Q (wrap_err g p).
Proof. intros Hp. by apply (post_bind_result Q). Qed.

(** ** Encoded values *)

(** A type whose values are not marshalled as numbers. *)
Class NotNumber (T : Type) `{Codec T} := not_number : ∀ (x : T) lit, to_json x ≠ Some (JNum lit).

#[export] Instance string_NotNumber : NotNumber string.
Proof. by intros x lit. Qed.
#[export] Instance resourceIndex_NotNumber : NotNumber resourceIndex.
Proof. by intros x lit. Qed.
#[export] Instance User_NotNumber : NotNumber User.
Proof.
  intros x lit. cbn [to_json User_Codec].
  by destruct (time_json (User_CreatedAt x)), (time_json (User_UpdatedAt x)).
Qed.
#[export] Instance Provider_NotNumber : NotNumber Provider.
Proof.
  intros x lit. cbn [to_json Provider_Codec].
  by destruct (time_json (Provider_CreatedAt x)), (time_json (Provider_UpdatedAt x)).
Qed.

Lemma post_encode {T} `{NotNumber T} `{!CodecLaws T} (x : T) : storable x → json_post json_text (encode x).
Proof.
  intros Hx. unfold encode, Marshal. destruct (to_json_storable x Hx) as (j & Hj & Hwf & _).
  rewrite Hj. cbn. exists j. split_and!; [done| |done]. intros lit ->. by eapply not_number.
Qed.

Lemma decoded_strings_valid l ids : Forall wf_json l → json_strings l = Some ids → Forall text_ok ids.
Proof.
  revert ids. induction l as [|j l IH]; intros ids; [intros _ [= <-]; constructor|].
  intros [Hj Hl]%list.Forall_cons. cbn. destruct j as [| | |s| |]; try done.
  - destruct (json_strings l) as [ids'|] eqn:E; [|done]. intros [= <-]. constructor; [done|by apply IH].
  - destruct (json_strings l) as [ids'|] eqn:E; [|done]. intros [= <-].
    inversion Hj. constructor; [done|by apply IH].
Qed.

Lemma last_pointer_last {A} (dec : json → option A) (P : A → Prop) current vs r :
  (∀ a, current = Some a → P a) → Forall (λ v, ∀ a, dec v = Some a → P a) vs →
  last_pointer dec current vs = Some (Some r) → P r.
Proof.
  intros Hc Hvs. revert current Hc. induction Hvs as [|v vs Hv Hvs IH]; intros current Hc; cbn.
  - intros [= ->]. by apply Hc.
  - destruct v; try (apply IH; naive_solver);
      (destruct (dec _) eqn:E; [|done]; apply IH; intros ? [= <-]; by apply Hv).
Qed.

(** A decoded index is one that can be stored. *)
Lemma index_decoded v ix : Unmarshal v = Some ix → storable (ix : resourceIndex).
Proof.
  unfold Unmarshal. destruct (parse v) as [j|] eqn:E; [|done]. apply parse_wf in E. cbn.
  destruct (members j) as [m|] eqn:Hm; [|done]. cbn. unfold strings_field.
  destruct (last_pointer dec_strings None (field_values "ids" m)) as [[ids|]|] eqn:El; [| |done];
    cbn; intros [= <-]; cbn; [|constructor].
  refine (last_pointer_last dec_strings (Forall text_ok) None _ ids _ _ El); [done|].
  assert (Forall (λ kv, wf_json kv.2) m) as Hwf.
  { destruct j; try done; injection Hm as <-; [constructor|]. inversion E as [| | | | |? Hf].
    eapply list.Forall_impl; [exact Hf|]. by intros ? []. }
  pose proof (proj1 (list.Forall_forall _ _) Hwf) as Hwf'. apply list.Forall_forall. intros v' Hv a Ha.
  apply list_elem_of_omap in Hv as ([k j'] & Hin & Hk). destruct (EqualFold _ _); [|done].
  injection Hk as <-. apply Hwf' in Hin. destruct j' as [| | | |l|]; try done.
  inversion Hin as [| | | |? Hl|]. exact (decoded_strings_valid _ _ Hl Ha).
Qed.

(** ** Reads *)

Lemma post_get d key : json_post (λ en, json_entry (inr en)) (store_get d key).
Proof. intros [e|en] Hr; [done|exact Hr]. Qed.

Lemma post_readIndex d key :
  json_post (λ '(ix, etag), storable (ix : resourceIndex) ∧ valid_utf8 etag = true) (readIndex d key).
Proof.
  apply (post_bind (λ en, json_entry (inr en))); [apply post_get|]. intros en Hen. cbn in Hen.
  destruct (Exists en) eqn:E; [|split; [constructor|done]].
  apply (post_bind storable).
  - unfold decode_or. destruct (Unmarshal (Value en)) as [ix|] eqn:Eu; [|done]. by eapply index_decoded.
  - intros ix Hix. split; [done|]. by apply Hen.
Qed.

Lemma post_decode_or {T} `{Codec T} f v : json_post (λ _ : T, True) (decode_or f v).
Proof. unfold decode_or. by destruct (Unmarshal v). Qed.

Lemma post_check_absent d keys : json_post (λ _, True) (check_absent d keys).
Proof.
  induction keys as [|k keys IH]; [done|]. cbn [check_absent].
  apply (post_bind (λ en, json_entry (inr en))); [apply post_get|]. intros en _. by destruct (Exists en).
Qed.
Lemma post_check_owned d id keys : json_post (λ _, True) (check_owned d id keys).
Proof.
  induction keys as [|k keys IH]; [done|]. cbn [check_owned].
  apply (post_bind (λ en, json_entry (inr en))); [apply post_get|]. intros en _.
  destruct (Exists en); [|done]. by destruct (bool_decide _).
Qed.

(** ** Writes *)

Definition lookups_ok (lookups : list (string * string)) : Prop :=
  Forall (λ kv, valid_utf8 kv.1 = true ∧ valid_utf8 kv.2 = true) lookups.

Lemma json_upsert key v etag : valid_utf8 key = true → valid_utf8 etag = true → json_text v →
  json_operation (upsert key v etag).
Proof. intros Hk He Hv. split_and!; [done..|left]. by split. Qed.
Lemma json_remove key etag : valid_utf8 key = true → valid_utf8 etag = true →
  json_operation (remove key etag).
Proof. intros Hk He. split_and!; [done..|right]. by split. Qed.

Lemma post_lookup_upserts lookups : lookups_ok lookups →
  json_post (Forall json_operation) (lookup_upserts lookups).
Proof.
  induction 1 as [|[key id] lookups [Hk Hid] Hl IH]; [constructor|]. cbn [lookup_upserts].
  apply (post_bind json_text); [by apply post_encode|]. intros v Hv.
  apply (post_bind (Forall json_operation)); [exact IH|]. intros rest Hrest.
  constructor; [by apply json_upsert|done].
Qed.
Lemma json_lookup_deletes keys : Forall (λ k, valid_utf8 k = true) keys →
  Forall json_operation (lookup_deletes keys).
Proof.
  intros Hk. apply List.Forall_map. eapply list.Forall_impl; [exact Hk|]. intros k Hk'.
  by apply json_remove.
Qed.

Lemma post_transact d ops : Forall json_operation ops → json_post (λ _, True) (transact d ops).
Proof.
  intros Hops. split; [done|]. intros [e|]; [|done]. cbn. by destruct (errors_Is e StateConflict).
Qed.

Create HintDb json_post discriminated.
#[export] Hint Resolve post_get post_readIndex post_decode_or post_check_absent post_check_owned
  post_lookup_upserts post_transact post_wrap : json_post.

Section resources.
Context {T : Type} `{NotNumber T} `{!CodecLaws T} `{EqDecision T}.
Context (d : domain) (collection id : string).
Context (Hcollection : valid_utf8 collection = true) (Hid : valid_utf8 id = true).

Lemma valid_entityKey : valid_utf8 (entityKey collection id) = true.
Proof. unfold entityKey. by repeat apply valid_utf8_app. Qed.
Lemma valid_indexKey : valid_utf8 (indexKey collection) = true.
Proof. unfold indexKey. by apply valid_utf8_app. Qed.
#[local] Hint Resolve valid_entityKey valid_indexKey : core.

Lemma lookups_keys lookups : lookups_ok lookups → Forall (λ k, valid_utf8 k = true) lookups.*1.
Proof. intros Hl. apply List.Forall_map. eapply list.Forall_impl; [exact Hl|]. by intros ? []. Qed.

Lemma create_json (x : T) lookups : storable x → lookups_ok lookups →
  json_program (createResource d collection id x lookups).
Proof.
  intros Hx Hl. apply (json_post_program (λ _, True)). unfold createResource.
  apply (post_bind (λ en, json_entry (inr en))); [apply post_get|]. intros en _.
  destruct (Exists en); [done|].
  apply (post_bind (λ _, True)); [apply post_check_absent|]. intros _ _.
  eapply post_bind; [apply post_readIndex|]. intros [ix etag] [Hix Hetag].
  apply (post_bind json_text); [by apply post_encode|]. intros entity Hentity.
  apply (post_bind json_text).
  { apply post_encode. destruct ix. by apply addIndexID_storable. }
  intros index Hindex. apply (post_bind (Forall json_operation)); [by apply post_lookup_upserts|].
  intros ops Hops. apply post_transact. constructor; [by apply json_upsert|]. constructor; [by apply json_upsert|done].
Qed.

(** Reading the entry that must be the expected one. *)
Lemma post_current (expected : T) (k : Entry → prog unit) :
  (∀ en, valid_utf8 (ETag en) = true → json_post (λ _, True) (k en)) →
  json_post (λ _, True)
    (entry ← store_get d (entityKey collection id);
     if negb (Exists entry) then fail ErrNotFound else
     current ← decode_or (decode_err collection id) (Value entry);
     if negb (bool_decide (current = expected)) then fail ErrConflict else k entry).
Proof.
  intros Hk. apply (post_bind (λ en, json_entry (inr en))); [apply post_get|]. intros en Hen. cbn in Hen.
  destruct (Exists en); [|done]. apply (post_bind (λ _, True)); [apply post_decode_or|].
  intros current _. destruct (negb _); [done|]. by apply Hk, Hen.
Qed.

Lemma replace_json (expected x : T) old new : storable x → lookups_ok old → lookups_ok new →
  json_program (replaceResource d collection id expected x old new).
Proof.
  intros Hx Hold Hnew. apply (json_post_program (λ _, True)). unfold replaceResource.
  apply (post_current expected (λ entry, _)). intros en Hetag.
  apply (post_bind (λ _, True)); [apply post_check_owned|]. intros _ _.
  apply (post_bind json_text); [by apply post_encode|]. intros entity Hentity.
  apply (post_bind (Forall json_operation)); [by apply post_lookup_upserts|]. intros ops Hops.
  apply post_transact. constructor; [by apply json_upsert|]. apply list.Forall_app. split; [|done].
  apply json_lookup_deletes. apply list.Forall_forall. intros k [_ Hk]%list_elem_of_filter.
  by apply (proj1 (list.Forall_forall _ _) (lookups_keys old Hold)).
Qed.

Lemma delete_json (expected : T) lookups : lookups_ok lookups →
  json_program (deleteResource d collection id expected lookups).
Proof.
  intros Hl. apply (json_post_program (λ _, True)). unfold deleteResource.
  apply (post_current expected (λ entry, _)). intros en Hetag.
  eapply post_bind; [apply post_readIndex|]. intros [ix etag] [Hix Hetag'].
  apply (post_bind json_text).
  { apply post_encode. destruct ix. by apply removeIndexID_storable. }
  intros index Hindex. apply post_transact. constructor; [by apply json_remove|].
  constructor; [by apply json_upsert|]. by apply json_lookup_deletes, lookups_keys.
Qed.
End resources.

(** ** Users and providers *)

Lemma valid_lookupKey kind value : valid_utf8 kind = true → valid_utf8 (lookupKey kind value) = true.
Proof.
  intros Hk. unfold lookupKey. repeat apply valid_utf8_app; [done|done|done|].
  unfold sha256_hex. apply hex_valid. apply sha256_bytes.
Qed.

Lemma user_lookups_ok u : storable u → lookups_ok (userLookups u).
Proof. intros (Hid & _). repeat constructor; [by apply valid_lookupKey|exact Hid]. Qed.
Lemma provider_lookups_ok p : storable p → lookups_ok (providerLookups p).
Proof. intros (Hid & _). repeat constructor; [by apply valid_lookupKey|exact Hid|by apply valid_lookupKey|exact Hid]. Qed.

Lemma user_writes_json d u old : storable u → storable old →
  json_program (CreateUser d u) ∧ json_program (ReplaceUser d old u) ∧ json_program (DeleteUser d u).
Proof.
  intros Hu Hold. pose proof (user_lookups_ok u Hu). pose proof (user_lookups_ok old Hold).
  assert (valid_utf8 (User_ID u) = true) by by destruct Hu.
  split_and!; [by apply create_json|by apply replace_json|by apply delete_json].
Qed.
Lemma provider_writes_json d p old : storable p → storable old →
  json_program (CreateProvider d p) ∧ json_program (ReplaceProvider d old p) ∧
  json_program (DeleteProvider d p).
Proof.
  intros Hp Hold. pose proof (provider_lookups_ok p Hp). pose proof (provider_lookups_ok old Hold).
  assert (valid_utf8 (Provider_ID p) = true) by by destruct Hp.
  split_and!; [by apply create_json|by apply replace_json|by apply delete_json].
Qed.

(** ** A sidecar in the caller's process *)

Definition local_get (d : domain) (key : string) : prog http_response :=
  DoGet d key (λ r,
    match r with
    | inr en => Done (inr (if Exists en then {| StatusCode := 200; RespHeader := [("Etag", ETag en)];
                                                RespBody := Value en |} else no_body 204))
    | inl _ => Done (inr (no_body 500))
    end).
Definition local_transact (d : domain) (ops : list Operation) : prog http_response :=
  DoTransact d ops (λ e,
    Done (inr (no_body match e with
                       | None => 204
                       | Some e => if errors_Is e StateConflict then 409 else 500
                       end))).

Definition local_state (base : string) (d : domain) : transport := λ o,
  let bad := Done (inr (no_body 400)) in
  match CutPrefix (base +:+ "/v1.0/state/") (Out_URL o) with
  | None => bad
  | Some rest =>
      match Cut "/" rest with
      | None => bad
      | Some (_, target) =>
          if bool_decide (Out_Method o = "GET") then
            match Cut "?" target with
            | Some (segment, query) =>
                if bool_decide (query = "consistency=strong") then
                  match unescape encodePath segment with
                  | Some key => local_get d key
                  | None => bad
                  end
                else bad
            | None => bad
            end
          else if bool_decide (target = "transaction") &&
                  bool_decide (header_get "Content-Type" (Out_Header o) = "application/json") then
            match parse (Out_Body o) ≫= transaction_of with
            | Some ops => local_transact d ops
            | None => bad
            end
          else bad
      end
  end.

Lemma segment_bytes seg s : path_segment seg s →
  contains_byte "/" seg = false ∧ contains_byte "?" seg = false.
Proof.
  intros [_ Hb]. unfold contains_byte. induction (bytes_of seg) as [|c l IH]; [done|].
  cbn in Hb |- *. apply andb_true_iff in Hb as [Hc Hl]. destruct (IH Hl) as [-> ->].
  rewrite !orb_false_r. destruct c as [[] [] [] [] [] [] [] []]; (discriminate Hc || done).
Qed.

Lemma local_state_get base d o n seg name key :
  Out_Method o = "GET" →
  Out_URL o = base +:+ "/v1.0/state/" +:+ n +:+ "/" +:+ seg +:+ "?consistency=strong" →
  path_segment n name → path_segment seg key →
  local_state base d o = local_get d key.
Proof.
  intros Hm Hu [Hn _]%segment_bytes Hseg. destruct (segment_bytes _ _ Hseg) as [_ Hq].
  unfold local_state. rewrite Hu, <- string_app_assoc, CutPrefix_own, Cut_absent by done.
  cbn [Cut]. change ("/" +:+ ?t) with (String "/" t). cbn [Cut].
  change (Ascii.eqb "/" "/") with true. cbv iota. rewrite Hm, bool_decide_eq_true_2 by done.
  rewrite Cut_absent by done. change ("?consistency=strong") with (String "?" "consistency=strong").
  cbn [Cut]. change (Ascii.eqb "?" "?") with true. cbv iota.
  rewrite bool_decide_eq_true_2 by done. by rewrite string_app_nil_r, (proj1 Hseg).
Qed.

Lemma local_state_transact base d o n name ops :
  Out_Method o = "POST" → Out_URL o = base +:+ "/v1.0/state/" +:+ n +:+ "/transaction" →
  path_segment n name → header_get "Content-Type" (Out_Header o) = "application/json" →
  parse (Out_Body o) ≫= transaction_of = Some ops →
  local_state base d o = local_transact d ops.
Proof.
  intros Hm Hu [Hn _]%segment_bytes Hc Hops.
  unfold local_state. rewrite Hu, <- string_app_assoc, CutPrefix_own, Cut_absent by done.
  change "/transaction" with (String "/" "transaction"). cbn [Cut].
  change (Ascii.eqb "/" "/") with true. cbv iota. rewrite Hm, bool_decide_eq_false_2 by done.
  rewrite Hc, !bool_decide_eq_true_2 by done. cbn [andb]. by rewrite Hops.
Qed.

Section local.
Context {S : Type} `{StateStoreLaws S}.

Lemma local_serves base name d : serves_state (S := S) (local_state base d) base name d.
Proof.
  split.
  - intros o n seg key w r w' Hm Hu Hn Hseg He. rewrite (local_state_get base d o n seg name key) in He by done.
    apply exec_get_inv in He as [He|[e He]].
    + rewrite Get_view in He. split; [destruct (view _ !! key); by apply exec_Done in He as [_ ->]|].
      left. unfold entry_answer. destruct (view (store_of w d) !! key); apply exec_Done in He as [-> _]; eauto.
    + apply exec_Done in He as [-> ->]. split; [done|]. right. by cbn.
  - intros o n ops w r w' Hm Hu Hn Hc Hops He. rewrite (local_state_transact base d o n name ops) in He by done.
    assert (∀ e w0, exec (Done (inr (no_body match e with None => 204
        | Some e => if errors_Is e StateConflict then 409 else 500 end))) w0 r w' →
      w' = w0 ∧ match e with None => commit_answer None r | Some _ => failure (λ _, True) r end) as Hend.
    { intros [e|] w0 [-> ->]%exec_Done; (split; [done|]); [|by eexists]. cbn. by destruct (errors_Is e _). }
    apply exec_transact_inv in He. destruct (Transact (store_of w d) ops) as [e s] eqn:Et.
    cbn [fst snd] in He. destruct He as [He|[[e' He]|[e' He]]].
    + destruct e as [e|]; [|apply (Hend None) in He as [-> ?]; by left].
      destruct (errors_Is e StateConflict) eqn:Ee.
      * left. apply exec_Done in He as [-> ->]. split; [done|].
        eexists. split; [done|by left].
      * right. apply exec_Done in He as [-> ->]. split; [by right|by split].
    + right. apply (Hend (Some e')) in He as [-> ?]. split; [by left|done].
    + right. apply (Hend (Some e')) in He as [-> ?]. split; [by right|done].
Qed.

Lemma local_answers env base name d :
  answers_state (S := S) env (local_state base d) base name d.
Proof.
  split.
  - intros o n seg key w Hm Hu Hn Hseg. rewrite (local_state_get base d o n seg name key) by done.
    cbn [local_get run]. rewrite Get_view. unfold entry_answer.
    destruct (view (store_of w d) !! key); cbn; eauto.
  - intros o n ops w Hk Hm Hu Hn Hc Hops. rewrite (local_state_transact base d o n name ops) by done.
    cbn [local_transact run].
    destruct (Transact_cases (store_of w d) ops Hk) as [(s & -> & _)|(e & -> & He)]; cbn [run fst snd].
    + eexists. split; [done|]. by eexists.
    + rewrite He. eexists. split; [done|]. eexists. split; [done|by left].
Qed.
End local.

(** ** The refinement *)

Section stores.
Context {S : Type} `{StateStoreLaws S}.
Context (stores : domain → RemoteStore).
Context (Htag : ∀ (s : S) k, valid_utf8 (tag s k) = true).
Context (Hbase : ∀ d, sidecar_url (baseURL (rs_client (stores d)))).
Context (Hserves : ∀ d, serves_state (S := S) (http_do (rs_client (stores d)))
  (baseURL (rs_client (stores d))) (rs_name (stores d)) d).

(** C28.  The Dapr state store implements the contract of [state.Store] over a
    network.  Whatever the keys, values and entity tags, a program that stores
    JSON texts, run with [daprhttp.StateStore] clients of sidecars that serve
    the documented state API and may fail at any call, does only what it could
    do on the stores themselves when reads fail and transactions are lost or
    committed without an answer; and when the sidecars do not fail, [Get]
    returns the entry with its entity tag, as long as it fits the limit on a
    body, and [Transact] commits all the operations, or changes nothing and
    returns [state.ErrConflict] for a stale entity tag. *)
Theorem dapr_store_refines :
  (∀ A (p : prog A) (w : world S) r w',
     json_program p → stored_world w → exec (over stores p) w r w' →
     exec p w r w' ∧ stored_world w') ∧
  (∀ env d, answers_state (S := S) env (http_do (rs_client (stores d)))
       (baseURL (rs_client (stores d))) (rs_name (stores d)) d →
     (∀ response, rs_readable (stores d) response = true) →
     ∀ (w : world S), stored_world w →
     (∀ key, (∀ v, view (store_of w d) !! key = Some v →
                (Z.of_nat (String.length v) <= maxStateValue)%Z) →
        run env (StateStore_Get (stores d) key) w = (Get (store_of w d) key, w)) ∧
     (∀ ops, Forall json_operation ops →
        run env (StateStore_Transact (stores d) ops) w =
          let '(e, s) := Transact (store_of w d) ops in
          (match e with None => inr tt | Some _ => inl ErrStateConflict end, set_store w d s))).
Proof.
  split.
  - intros A p w r w'. by apply over_exec.
  - intros env d Ha Hread w Hw. split.
    + intros key Hfit. by apply (StateStore_Get_run (stores d) d).
    + intros ops Hops. by apply (StateStore_Transact_run (stores d) d).
Qed.
End stores.

(** ** Three stores behind one sidecar *)

Module StoresSample.
Definition base : string := "http://127.0.0.1:3500".
Definition component (d : domain) : string :=
  match d with ControlState => "control" | ProviderState => "catalog" | KeyState => "keys" end.
Definition stores (d : domain) : RemoteStore :=
  NewStateStore (New (base +:+ "/") "token" (local_state base d)) (component d) (λ _, true).
Definition user : User := {| User_ID := "u 1/ü"; User_Name := "Ada & <Bob>"; User_Email := "a@b.c";
  User_Status := "active"; User_Revision := 1; User_CreatedAt := Sample.time;
  User_UpdatedAt := Sample.time |}.
End StoresSample.

(** The whole path of a creation and a read: escaped keys, compacted values and
    entity tags through the client, the sidecar and the store. *)
Example stored_over_dapr :
  (run Sample.env (over StoresSample.stores
     (_ ← CreateUser ControlState StoresSample.user; GetUser ControlState "u 1/ü"))
     Sample.world0).1 = inr StoresSample.user.
Proof. by_vm. Qed.

Lemma FormatUint_valid n : valid_utf8 (FormatUint n) = true.
Proof.
  apply ascii_runes, List.forallb_forall. intros c Hc.
  assert (forallb number_char (bytes_of (FormatUint n)) = true) as Hn.
  { pose proof (wf_FormatUint n) as Hwf. inversion Hwf as [| |c' lit Hv Hd Hl E| | |]. cbn [bytes_of forallb].
    rewrite Hl, andb_true_r. unfold number_char. apply orb_true_iff in Hd as [->| ->]; [done|].
    by rewrite !orb_true_r. }
  rewrite List.forallb_forall in Hn. apply Hn in Hc.
  destruct c as [[] [] [] [] [] [] [] []]; (discriminate Hc || reflexivity).
Qed.

Lemma memory_tags (s : Memory.MemoryStore) k : valid_utf8 (tag s k) = true.
Proof. cbn. destruct (s !! k); [apply FormatUint_valid|done]. Qed.

Lemma sample_url d : sidecar_url (baseURL (rs_client (StoresSample.stores d))).
Proof. exists "127.0.0.1:3500". split_and!; [reflexivity|by eexists|reflexivity]. Qed.

Lemma dapr_store_refines_witness :
  let w := Sample.world0 in let stores := StoresSample.stores in
  let ops := [upsert "k" "{}" ""] in
  (∀ r w', exec (over stores (CreateUser ControlState StoresSample.user)) w r w' →
     exec (CreateUser ControlState StoresSample.user) w r w' ∧ stored_world w') ∧
  run Sample.env (StateStore_Get (stores ControlState) "k") w = (inr no_entry, w) ∧
  run Sample.env (StateStore_Transact (stores ControlState) ops) w =
    (inr tt, set_store w ControlState (Memory.transact (control_state w) ops).2).
Proof.
  intros w stores ops.
  assert (stored_world w) as Hw by (intros d k v; by destruct d).
  destruct (dapr_store_refines stores memory_tags sample_url (λ d, local_serves _ _ d)) as [Hp Hc].
  split; [|split].
  - intros r w'. apply Hp; [|done]. apply (user_writes_json _ _ StoresSample.user); storable_sample.
  - destruct (Hc Sample.env ControlState (local_answers _ _ _ _) (λ _, eq_refl) w Hw) as [Hg _].
    apply Hg. by intros v.
  - destruct (Hc Sample.env ControlState (local_answers _ _ _ _) (λ _, eq_refl) w Hw) as [_ Ht].
    apply Ht. constructor; [|constructor]. split_and!; [by vm_compute..|left]. split; [reflexivity|].
    exists (JObj []). split_and!; [by constructor|done|reflexivity].
Defined.
