(* ===== verification/Dataplane.v ===== *)
(** * Request execution ([internal/dataplane/gateway.go])

    [Dispatcher.Generate]: authorize, resolve the route, translate, validate,
    invoke the adapter of the route, validate its answer.  The runtime and the
    invoker are the interfaces of the source.  The timeout of the context is
    not modelled: an effect that runs out of time is an effect that fails. *)

From S2P Require Import Prelude GoStd Json GoTime Errors Results State Model Repository Runtime.
From S2P Require Import Ir IrFacts.

#[local] Arguments bool_decide : simpl never.

(** [dataplane.Runtime]. *)
Class Runtime := {
  rt_Authorize : string → string → prog Authorization;
  rt_ResolveRoute : string → prog Model.Route
}.

(** [GatewayRuntime] is one. *)
Definition gateway (r : GatewayRuntime) : Runtime :=
  {| rt_Authorize := Authorize r; rt_ResolveRoute := ResolveRoute r |}.

(** [InvokeJSON(ctx, appID, method, request, &response)]. *)
Definition Invoker : Type := string → string → Request → prog Response.
Definition Translator : Type := Model.Route → string → error + Request.

Record Dispatcher := { runtime : Runtime; invoker : Invoker }.

Definition Generate (d : Dispatcher) (token model requestID : string) (translate : Translator)
    : prog Response :=
  _ ← rt_Authorize (Runtime := runtime d) token model;
  route ← rt_ResolveRoute (Runtime := runtime d) model;
  request ← lift (translate route requestID);
  _ ← lift (on_error (λ e, Errorf "validate translated IR request: %w" [AWrap e])
              (Request_Validate request));
  response ← invoker d (Route_AdapterAppID route) "/v1/generate" request;
  _ ← lift (on_error (λ e, Errorf "validate adapter IR response: %w" [AWrap e])
              (Response_Validate response));
  mret response.

(** ** What is sent, and what is answered *)

Section facts.
Context {S : Type} `{StateStore S} (env : environment).
Implicit Types w : world S.

(** What becomes of the adapter's answer. *)
Definition answered (r : error + Response) : error + Response :=
  response ← r;
  _ ← on_error (λ e, Errorf "validate adapter IR response: %w" [AWrap e]) (Response_Validate response);
  mret response.

Lemma run_lift_then {A B} (r : error + A) (f : A → prog B) w :
  run env (lift r ≫= f) w = match r with inl e => (inl e, w) | inr a => run env (f a) w end.
Proof. by destruct r. Qed.

(** Either the request is refused whatever the adapters are, or exactly one
    invocation is made, after the four checks, and its answer decides. *)
Lemma Generate_outcome rt token model id translate w :
  (∃ e w', ∀ f, run env (Generate {| runtime := rt; invoker := f |} token model id translate) w =
     (inl e, w')) ∨
  (∃ auth w1 route w2 request,
     run env (rt_Authorize token model) w = (inr auth, w1) ∧
     run env (rt_ResolveRoute model) w1 = (inr route, w2) ∧
     translate route id = inr request ∧ valid_request request ∧
     ∀ f, run env (Generate {| runtime := rt; invoker := f |} token model id translate) w =
       let '(r, w3) := run env (f (Route_AdapterAppID route) "/v1/generate" request) w2 in
       (answered r, w3)).
Proof.
  unfold Generate. cbn [runtime invoker].
  destruct (run env (rt_Authorize token model) w) as [[e|auth] w1] eqn:Ha.
  { left. exists e, w1. intros f. by rewrite run_bind, Ha. }
  destruct (run env (rt_ResolveRoute model) w1) as [[e|route] w2] eqn:Hr.
  { left. exists e, w2. intros f. by rewrite run_bind, Ha, run_bind, Hr. }
  destruct (translate route id) as [e|request] eqn:Ht.
  { left. exists e, w2. intros f. by rewrite run_bind, Ha, run_bind, Hr, run_lift_then, Ht. }
  destruct (Request_Validate request) as [e|[]] eqn:Hv.
  { left. eexists _, w2. intros f.
    rewrite run_bind, Ha, run_bind, Hr, run_lift_then, Ht, run_lift_then, Hv. cbn. done. }
  right. exists auth, w1, route, w2, request. split_and!; [done|done|done|by apply Request_Validate_ok|].
  intros f. rewrite run_bind, Ha, run_bind, Hr, run_lift_then, Ht, run_lift_then, Hv. cbn [on_error].
  rewrite run_bind. destruct (run env (f _ _ request) w2) as [[e|response] w3]; [done|].
  rewrite run_lift_then. unfold answered. cbn. by destruct (Response_Validate response) as [e|[]].
Qed.
End facts.
