(* ===== verification/IrWire.v ===== *)
(** * The protocol on the wire ([internal/ir/types.go], [daprhttp/client.go])

    How the provider-neutral request and response are written and read, as the
    tags of their structs say, and the JSON call of the gateway: [InvokeJSON]
    with an answer.  [strict] tells whether unknown fields are refused. *)

From Stdlib Require Import SpecFloat.
From S2P Require Import Prelude GoStd Json JsonRaw GoText GoFloat GoTime Errors Results State Model.
From S2P Require Import Repository Svc Service Platform Wire Registry Dapr Ir Runtime Dataplane.

(** ** Writing *)

Definition Route_text (r : Ir.Route) : option string := struct_text
  [must "provider_id" (string_text (IR_ProviderID r));
   must "upstream_model" (string_text (IR_UpstreamModel r))].

Definition Image_text (i : Image) : option string := struct_text
  [omit_string "url" (Image_URL i); omit_string "media_type" (Image_MediaType i);
   omit_string "data" (Image_Data i)].

Definition ToolCall_text (c : ToolCall) : option string := struct_text
  [must "id" (string_text (Call_ID c)); must "name" (string_text (Call_Name c));
   must "arguments" (raw_text (Call_Arguments c)); omit_string "signature" (Call_Signature c)].

Definition ToolResult_text (content : Content → option string) (r : ToolResult) : option string :=
  struct_text
    [must "tool_call_id" (string_text (Result_ToolCallID r)); omit_string "name" (Result_Name r);
     omit_slice "content" content (Result_Content r); omit_raw "result" (Result_Result r);
     omit_bool "is_error" (Result_IsError r)].

Fixpoint Content_text (c : Content) : option string :=
  match c with
  | MkContent type text image call result => struct_text
      [must "type" (string_text type); omit_string "text" text;
       omit_pointer "image" Image_text image; omit_pointer "tool_call" ToolCall_text call;
       omit_pointer "tool_result" (ToolResult_text Content_text) result]
  end.

Definition Message_text (m : Message) : option string := struct_text
  [must "role" (string_text (Message_Role m));
   must "content" (slice_text Content_text (Message_Content m))].

Definition Tool_text (t : Tool) : option string := struct_text
  [must "name" (string_text (Tool_Name t)); omit_string "description" (Tool_Description t);
   must "input_schema" (raw_text (Tool_InputSchema t));
   omit_pointer "strict" bool_text (Tool_Strict t)].

Definition ToolChoice_text (c : ToolChoice) : option string := struct_text
  [must "mode" (string_text (Choice_Mode c)); omit_string "name" (Choice_Name c);
   omit_bool "disable_parallel" (Choice_DisableParallel c)].

(** A map that is left out when it is empty. *)
Definition omit_map {A} (name : string) (text : A → option string) (m : list (string * A)) : written :=
  omit (if m is [] then true else false) name (map_text text m).

Definition Request_text (r : Request) : option string := struct_text
  [must "version" (string_text (Req_Version r)); must "id" (string_text (Req_ID r));
   must "route" (Route_text (Req_Route r));
   must "messages" (slice_text Message_text (Req_Messages r));
   omit_pointer "max_output_tokens" int_text (Req_MaxOutputTokens r);
   omit_pointer "temperature" FormatFloat (Req_Temperature r);
   omit_pointer "top_p" FormatFloat (Req_TopP r);
   omit_slice "stop" string_text (Req_Stop r); omit_slice "tools" Tool_text (Req_Tools r);
   omit_pointer "tool_choice" ToolChoice_text (Req_ToolChoice r);
   omit_map "metadata" any_text (Req_Metadata r); omit_bool "stream" (Req_Stream r)].

Definition Usage_text (u : Usage) : option string := struct_text
  [must "input_tokens" (int_text (InputTokens u)); must "output_tokens" (int_text (OutputTokens u));
   omit_int "cache_creation_input_tokens" (CacheCreationInputTokens u);
   omit_int "cached_input_tokens" (CachedInputTokens u)].

(** The adapters build the content by appending to a nil slice. *)
Definition Response_text (r : Response) : option string := struct_text
  [must "version" (string_text (Resp_Version r)); must "id" (string_text (Resp_ID r));
   must "model" (string_text (Resp_Model r));
   must "content" (nil_slice_text Content_text (Resp_Content r));
   must "finish_reason" (string_text (Resp_FinishReason r));
   omit_string "stop_sequence" (Resp_StopSequence r); must "usage" (Usage_text (Resp_Usage r));
   omit_string "provider_response_id" (Resp_ProviderResponseID r)].

(** ** Reading *)

Definition zero_route : Ir.Route := {| IR_ProviderID := ""; IR_UpstreamModel := "" |}.
Definition zero_image : Image := {| Image_URL := ""; Image_MediaType := ""; Image_Data := "" |}.
Definition zero_call : ToolCall :=
  {| Call_ID := ""; Call_Name := ""; Call_Arguments := ""; Call_Signature := "" |}.
Definition zero_result : ToolResult := MkToolResult "" "" [] "" false.
Definition zero_content : Content := MkContent "" "" None None None.
Definition zero_message : Message := {| Message_Role := ""; Message_Content := [] |}.
Definition zero_tool : Tool :=
  {| Tool_Name := ""; Tool_Description := ""; Tool_InputSchema := ""; Tool_Strict := None |}.
Definition zero_choice : ToolChoice :=
  {| Choice_Mode := ""; Choice_Name := ""; Choice_DisableParallel := false |}.
Definition zero_request : Request := {|
  Req_Version := ""; Req_ID := ""; Req_Route := zero_route; Req_Messages := [];
  Req_MaxOutputTokens := None; Req_Temperature := None; Req_TopP := None; Req_Stop := [];
  Req_Tools := []; Req_ToolChoice := None; Req_Metadata := []; Req_Stream := false |}.
Definition zero_usage : Usage := {|
  InputTokens := 0; OutputTokens := 0; CacheCreationInputTokens := 0; CachedInputTokens := 0 |}.
Definition zero_response : Response := {|
  Resp_Version := ""; Resp_ID := ""; Resp_Model := ""; Resp_Content := []; Resp_FinishReason := "";
  Resp_StopSequence := ""; Resp_Usage := zero_usage; Resp_ProviderResponseID := "" |}.

Section reading.
Context (strict : bool).

Definition read_Route : reader Ir.Route :=
  read_struct strict ["provider_id"; "upstream_model"] (λ x m,
    provider ← read_field read_string "provider_id" (IR_ProviderID x) m;
    upstream ← read_field read_string "upstream_model" (IR_UpstreamModel x) m;
    Some {| IR_ProviderID := provider; IR_UpstreamModel := upstream |}).

Definition read_Image : reader Image :=
  read_struct strict ["url"; "media_type"; "data"] (λ x m,
    url ← read_field read_string "url" (Image_URL x) m;
    media ← read_field read_string "media_type" (Image_MediaType x) m;
    data ← read_field read_string "data" (Image_Data x) m;
    Some {| Image_URL := url; Image_MediaType := media; Image_Data := data |}).

Definition read_ToolCall : reader ToolCall :=
  read_struct strict ["id"; "name"; "arguments"; "signature"] (λ x m,
    id ← read_field read_string "id" (Call_ID x) m;
    name ← read_field read_string "name" (Call_Name x) m;
    arguments ← read_field read_raw "arguments" (Call_Arguments x) m;
    signature ← read_field read_string "signature" (Call_Signature x) m;
    Some {| Call_ID := id; Call_Name := name; Call_Arguments := arguments;
            Call_Signature := signature |}).

Definition read_ToolResult (content : reader Content) : reader ToolResult :=
  read_struct strict ["tool_call_id"; "name"; "content"; "result"; "is_error"] (λ x m,
    id ← read_field read_string "tool_call_id" (Result_ToolCallID x) m;
    name ← read_field read_string "name" (Result_Name x) m;
    nested ← read_field (read_slice zero_content content) "content" (Result_Content x) m;
    result ← read_field read_raw "result" (Result_Result x) m;
    isError ← read_field read_bool "is_error" (Result_IsError x) m;
    Some (MkToolResult id name nested result isError)).

(** Every level of nesting takes at least one byte of the text. *)
Fixpoint read_content (fuel : nat) : reader Content := λ x raw,
  match fuel with
  | O => None
  | S fuel' =>
      read_struct strict ["type"; "text"; "image"; "tool_call"; "tool_result"] (λ x m,
        type ← read_field read_string "type" (Content_Type x) m;
        text ← read_field read_string "text" (Content_Text x) m;
        image ← read_field (read_pointer zero_image read_Image) "image" (Content_Image x) m;
        call ← read_field (read_pointer zero_call read_ToolCall) "tool_call" (Content_ToolCall x) m;
        result ← read_field (read_pointer zero_result (read_ToolResult (read_content fuel')))
                   "tool_result" (Content_ToolResult x) m;
        Some (MkContent type text image call result)) x raw
  end.
Definition read_Content : reader Content := λ x raw, read_content (S (String.length raw)) x raw.

Definition read_Message : reader Message :=
  read_struct strict ["role"; "content"] (λ x m,
    role ← read_field read_string "role" (Message_Role x) m;
    content ← read_field (read_slice zero_content read_Content) "content" (Message_Content x) m;
    Some {| Message_Role := role; Message_Content := content |}).

Definition read_Tool : reader Tool :=
  read_struct strict ["name"; "description"; "input_schema"; "strict"] (λ x m,
    name ← read_field read_string "name" (Tool_Name x) m;
    description ← read_field read_string "description" (Tool_Description x) m;
    schema ← read_field read_raw "input_schema" (Tool_InputSchema x) m;
    strict ← read_field (read_pointer false read_bool) "strict" (Tool_Strict x) m;
    Some {| Tool_Name := name; Tool_Description := description; Tool_InputSchema := schema;
            Tool_Strict := strict |}).

Definition read_ToolChoice : reader ToolChoice :=
  read_struct strict ["mode"; "name"; "disable_parallel"] (λ x m,
    mode ← read_field read_string "mode" (Choice_Mode x) m;
    name ← read_field read_string "name" (Choice_Name x) m;
    disable ← read_field read_bool "disable_parallel" (Choice_DisableParallel x) m;
    Some {| Choice_Mode := mode; Choice_Name := name; Choice_DisableParallel := disable |}).

Definition read_Request : reader Request :=
  read_struct strict
    ["version"; "id"; "route"; "messages"; "max_output_tokens"; "temperature"; "top_p"; "stop";
     "tools"; "tool_choice"; "metadata"; "stream"] (λ x m,
    version ← read_field read_string "version" (Req_Version x) m;
    id ← read_field read_string "id" (Req_ID x) m;
    route ← read_field read_Route "route" (Req_Route x) m;
    messages ← read_field (read_slice zero_message read_Message) "messages" (Req_Messages x) m;
    tokens ← read_field (read_pointer 0%Z read_int) "max_output_tokens" (Req_MaxOutputTokens x) m;
    temperature ← read_field (read_pointer float_zero read_float) "temperature" (Req_Temperature x) m;
    top ← read_field (read_pointer float_zero read_float) "top_p" (Req_TopP x) m;
    stop ← read_field (read_slice "" read_string) "stop" (Req_Stop x) m;
    tools ← read_field (read_slice zero_tool read_Tool) "tools" (Req_Tools x) m;
    choice ← read_field (read_pointer zero_choice read_ToolChoice) "tool_choice" (Req_ToolChoice x) m;
    metadata ← read_field (read_map dec_any) "metadata" (Req_Metadata x) m;
    stream ← read_field read_bool "stream" (Req_Stream x) m;
    Some {| Req_Version := version; Req_ID := id; Req_Route := route; Req_Messages := messages;
            Req_MaxOutputTokens := tokens; Req_Temperature := temperature; Req_TopP := top;
            Req_Stop := stop; Req_Tools := tools; Req_ToolChoice := choice;
            Req_Metadata := metadata; Req_Stream := stream |}).

Definition read_Usage : reader Usage :=
  read_struct strict
    ["input_tokens"; "output_tokens"; "cache_creation_input_tokens"; "cached_input_tokens"] (λ x m,
    input ← read_field read_int "input_tokens" (InputTokens x) m;
    output ← read_field read_int "output_tokens" (OutputTokens x) m;
    creation ← read_field read_int "cache_creation_input_tokens" (CacheCreationInputTokens x) m;
    cached ← read_field read_int "cached_input_tokens" (CachedInputTokens x) m;
    Some {| InputTokens := input; OutputTokens := output; CacheCreationInputTokens := creation;
            CachedInputTokens := cached |}).

Definition read_Response : reader Response :=
  read_struct strict
    ["version"; "id"; "model"; "content"; "finish_reason"; "stop_sequence"; "usage";
     "provider_response_id"] (λ x m,
    version ← read_field read_string "version" (Resp_Version x) m;
    id ← read_field read_string "id" (Resp_ID x) m;
    model ← read_field read_string "model" (Resp_Model x) m;
    content ← read_field (read_slice zero_content read_Content) "content" (Resp_Content x) m;
    reason ← read_field read_string "finish_reason" (Resp_FinishReason x) m;
    stop ← read_field read_string "stop_sequence" (Resp_StopSequence x) m;
    usage ← read_field read_Usage "usage" (Resp_Usage x) m;
    provider ← read_field read_string "provider_response_id" (Resp_ProviderResponseID x) m;
    Some {| Resp_Version := version; Resp_ID := id; Resp_Model := model; Resp_Content := content;
            Resp_FinishReason := reason; Resp_StopSequence := stop; Resp_Usage := usage;
            Resp_ProviderResponseID := provider |}).
End reading.

(** ** The call of an adapter *)

(** [InvokeJSON(ctx, appID, method, input, &output)], the marshalled input
    given: the first value of the answer is decoded, an answer without content
    leaves the output as it is. *)
Definition InvokeJSON_into {A} (c : Client) (appID method : string) (input : option string)
    (zero : A) (read : reader A) : prog A :=
  payload ← lift match input with
                 | Some payload => inr payload
                 | None => inl (Errorf "encode Dapr invocation request: %w" [AWrap json_text_error])
                 end;
  response ← wrap_err (λ e, Errorf "invoke Dapr app %q: %w" [AStr appID; AWrap e])
               (Invoke c appID method payload "application/json");
  if negb (succeeded (StatusCode response)) then
    fail (HTTPError (StatusCode response) (error_body response))
  else if (StatusCode response =? 204)%Z then mret zero
  else match DecodeText zero read (RespBody response) with
       | Some (output, _) => mret output
       | None =>
           fail (Errorf "decode response from Dapr app %q: %w" [AStr appID; AWrap json_text_error])
       end.

(** The client as the invoker of a dispatcher. *)
Definition dapr_invoker (c : Client) : Invoker := λ appID method request,
  InvokeJSON_into c appID method (Request_text request) zero_response (read_Response false).
