(* ===== verification/IrWireFacts.v ===== *)
(** * The protocol crosses the wire

    A request that a gateway writes is the request its adapter reads, and a
    response that an adapter writes is the one its gateway reads: when their
    texts are valid UTF-8, their raw messages compact, their integers within 64
    bits and their doubles written exactly.  Raw messages are compacted when they are
    written, so both sides read each other up to the blanks of those. *)

From Stdlib Require Import SpecFloat.
From S2P Require Import Prelude GoStd Json JsonRaw GoText Utf8 JsonPrefix GoFloat GoWeb Errors GoFmt.
From S2P Require Import Results State Model Directory Svc Service Platform Wire WireFacts Dapr.
From S2P Require Import HttpFacts Runtime Ir IrFacts Dataplane IrWire.

#[local] Arguments bool_decide : simpl never.

(** ** What can be written exactly *)

Abbreviation utf8 s := (valid_utf8 s = true) (only parsing).
Definition optional {A} (P : A → Prop) (o : option A) : Prop := match o with Some x => P x | None => True end.
Definition kept_raw (raw : string) : Prop := raw = "" ∨ compacted raw.

Definition wire_Route (r : Ir.Route) : Prop := utf8 (IR_ProviderID r) ∧ utf8 (IR_UpstreamModel r).
Definition wire_Image (i : Image) : Prop :=
  utf8 (Image_URL i) ∧ utf8 (Image_MediaType i) ∧ utf8 (Image_Data i).
Definition wire_ToolCall (c : ToolCall) : Prop :=
  utf8 (Call_ID c) ∧ utf8 (Call_Name c) ∧ compacted (Call_Arguments c) ∧ utf8 (Call_Signature c).
Fixpoint wire_Content (c : Content) : Prop :=
  let '(MkContent type text image call result) := c in
  utf8 type ∧ utf8 text ∧ optional wire_Image image ∧ optional wire_ToolCall call ∧
  match result with
  | None => True
  | Some (MkToolResult id name nested result _) =>
      utf8 id ∧ utf8 name ∧ kept_raw result ∧
      (fix all (l : list Content) : Prop := match l with [] => True | x :: l' => wire_Content x ∧ all l' end) nested
  end.
Definition wire_Message (m : Message) : Prop :=
  utf8 (Message_Role m) ∧ Forall wire_Content (Message_Content m).
Definition wire_Tool (t : Tool) : Prop :=
  utf8 (Tool_Name t) ∧ utf8 (Tool_Description t) ∧ compacted (Tool_InputSchema t).
Definition wire_ToolChoice (c : ToolChoice) : Prop := utf8 (Choice_Mode c) ∧ utf8 (Choice_Name c).
(** Metadata as a decoder leaves it. *)
Definition wire_Metadata (m : list (string * json)) : Prop :=
  as_map m = m ∧ Forall (λ kv, utf8 kv.1 ∧ wf_json kv.2 ∧ dec_any kv.2 = Some kv.2) m.
Definition wire_Request (r : Request) : Prop :=
  utf8 (Req_Version r) ∧ utf8 (Req_ID r) ∧ wire_Route (Req_Route r) ∧
  Forall wire_Message (Req_Messages r) ∧ optional int_range (Req_MaxOutputTokens r) ∧
  optional float_kept (Req_Temperature r) ∧ optional float_kept (Req_TopP r) ∧
  Forall (λ s, utf8 s) (Req_Stop r) ∧ Forall wire_Tool (Req_Tools r) ∧
  optional wire_ToolChoice (Req_ToolChoice r) ∧ wire_Metadata (Req_Metadata r).
Definition wire_Usage (u : Usage) : Prop :=
  int_range (InputTokens u) ∧ int_range (OutputTokens u) ∧
  int_range (CacheCreationInputTokens u) ∧ int_range (CachedInputTokens u).
Definition wire_Response (r : Response) : Prop :=
  utf8 (Resp_Version r) ∧ utf8 (Resp_ID r) ∧ utf8 (Resp_Model r) ∧
  Forall wire_Content (Resp_Content r) ∧ utf8 (Resp_FinishReason r) ∧
  utf8 (Resp_StopSequence r) ∧ wire_Usage (Resp_Usage r) ∧ utf8 (Resp_ProviderResponseID r).

Lemma optional_codec {A} (P : A → Prop) text (read : reader A) zero o :
  (∀ x, P x → codec text read zero x) → optional P o → ∀ x, o = Some x → codec text read zero x.
Proof. intros H Ho x ->. by apply H. Qed.
Lemma Forall_codec {A} (P : A → Prop) text (read : reader A) zero l :
  (∀ x, P x → codec text read zero x) → Forall P l → Forall (codec text read zero) l.
Proof. intros H Hl. by eapply list.Forall_impl. Qed.

(** ** The structs *)

Section codecs.
Context (strict : bool).

Lemma Route_codec r : wire_Route r → codec Route_text (read_Route strict) zero_route r.
Proof. destruct r. intros [H1 H2]. by_fields. Qed.

Lemma Image_codec i : wire_Image i → codec Image_text (read_Image strict) zero_image i.
Proof. destruct i. intros (H1 & H2 & H3). by_fields. Qed.

Lemma ToolCall_codec c : wire_ToolCall c → codec ToolCall_text (read_ToolCall strict) zero_call c.
Proof. destruct c. intros (H1 & H2 & H3 & H4). by_fields. Qed.

Lemma ToolResult_codec content id name nested result err :
  utf8 id → utf8 name → kept_raw result → Forall (codec Content_text content zero_content) nested →
  codec (ToolResult_text Content_text) (read_ToolResult strict content) zero_result
    (MkToolResult id name nested result err).
Proof. intros H1 H2 H3 H4. unfold kept_raw in *. by_fields. Qed.

Lemma ToolChoice_codec c : wire_ToolChoice c →
  codec ToolChoice_text (read_ToolChoice strict) zero_choice c.
Proof. destruct c. intros [H1 H2]. by_fields. Qed.

Lemma Tool_codec c : wire_Tool c → codec Tool_text (read_Tool strict) zero_tool c.
Proof.
  destruct c as [name description schema strict']. intros (H1 & H2 & H3).
  assert (∀ b, strict' = Some b → codec bool_text read_bool false b) by (intros; apply bool_codec).
  by_fields.
Qed.

Lemma Usage_codec u : wire_Usage u → codec Usage_text (read_Usage strict) zero_usage u.
Proof. destruct u. intros (H1 & H2 & H3 & H4). by_fields. Qed.

(** *** Contents, by their depth *)

Fixpoint depth (c : Content) : nat :=
  let '(MkContent _ _ _ _ result) := c in
  match result with
  | None => 1
  | Some (MkToolResult _ _ nested _ _) =>
      S ((fix deepest (l : list Content) : nat :=
            match l with [] => 0 | x :: l' => depth x `max` deepest l' end) nested)
  end%nat.
Definition deepest (l : list Content) : nat := foldr (λ x n, depth x `max` n)%nat 0%nat l.

Lemma wire_Content_eq type text image call result : 
  wire_Content (MkContent type text image call result) ↔
  utf8 type ∧ utf8 text ∧ optional wire_Image image ∧ optional wire_ToolCall call ∧
  match result with
  | None => True
  | Some (MkToolResult id name nested res _) =>
      utf8 id ∧ utf8 name ∧ kept_raw res ∧ Forall wire_Content nested
  end.
Proof.
  cbn [wire_Content]. destruct result as [[id name nested res err]|]; [|done].
  assert (∀ l, (fix all (l : list Content) : Prop :=
     match l with [] => True | x :: l' => wire_Content x ∧ all l' end) l ↔ Forall wire_Content l) as E.
  { induction l as [|x l IH]; [done|]. by rewrite IH, list.Forall_cons. }
  by rewrite E.
Qed.
Lemma depth_eq type text image call result :
  depth (MkContent type text image call result) =
  match result with None => 1 | Some r => S (deepest (Result_Content r)) end%nat.
Proof. by destruct result as [[]|]. Qed.
Lemma depth_nested x l n : (deepest l <= n)%nat → x ∈ l → (depth x <= n)%nat.
Proof.
  unfold deepest. induction l as [|y l IH]; intros Hn Hx; [by inversion Hx|]. cbn in Hn.
  inversion Hx as [|? ? ? Hx']; subst; [lia|]. apply IH; [lia|done].
Qed.

Lemma content_codec n c : wire_Content c → (depth c <= n)%nat →
  codec Content_text (read_content strict n) zero_content c.
Proof.
  revert c. induction n as [|n IH]; intros [type text image call result] Hw Hd.
  { rewrite depth_eq in Hd. destruct result; lia. }
  apply wire_Content_eq in Hw as (H1 & H2 & H3 & H4 & H5). rewrite depth_eq in Hd.
  pose proof (optional_codec _ _ _ _ _ Image_codec H3) as Hi.
  pose proof (optional_codec _ _ _ _ _ ToolCall_codec H4) as Hc.
  assert (∀ r, result = Some r →
    codec (ToolResult_text Content_text) (read_ToolResult strict (read_content strict n)) zero_result r) as Hr.
  { intros [id name nested res err] ->. destruct H5 as (H5 & H6 & H7 & H8). cbn [Result_Content] in Hd.
    apply ToolResult_codec; [done..|]. rewrite list.Forall_forall in H8 |- *. intros x Hx.
    apply IH; [by apply H8|]. eapply depth_nested; [|exact Hx]. lia. }
  by_fields.
Qed.
End codecs.

Lemma deepest_below l n : (∀ x, x ∈ l → (depth x <= n)%nat) → (deepest l <= n)%nat.
Proof.
  induction l as [|x l IH]; intros H; [cbn; lia|]. cbn. pose proof (H x (list_elem_of_here _ _)).
  assert (deepest l <= n)%nat; [|unfold deepest in *; lia].
  apply IH. intros y Hy. apply H. by apply list_elem_of_further.
Qed.

(** The nesting is not more than the length of the text. *)
Lemma depth_length c t : wire_Content c → Content_text c = Some t → (depth c <= String.length t)%nat.
Proof.
  remember (depth c) as n eqn:Hn. assert (depth c <= n)%nat as Hd by lia. rewrite Hn. clear Hn.
  revert c t Hd. induction n as [|n IH]; intros [type text image call result] t Hd Hw Ht.
  { rewrite depth_eq in Hd. destruct result; lia. }
  rewrite depth_eq in Hd |- *. apply wire_Content_eq in Hw as (_ & _ & _ & _ & Hw).
  destruct result as [[id name nested res err]|].
  - destruct Hw as (H1 & H2 & H3 & H4). cbn [Result_Content] in *.
    assert (Forall (codec Content_text (read_content false n) zero_content) nested) as Hc.
    { rewrite list.Forall_forall in H4 |- *. intros x Hx. apply content_codec; [by apply H4|].
      eapply depth_nested; [|exact Hx]. lia. }
    destruct (ToolResult_codec false _ id name nested res err H1 H2 H3 Hc) as (u & _ & Hu & _).
    cbn [Content_text] in Ht.
    eapply struct_length in Ht as Hlen; [|do 4 apply list_elem_of_further; apply list_elem_of_here|];
      [|unfold omit_pointer, omit; cbn [snd pointer_text]; by rewrite Hu].
    assert (deepest nested <= String.length u)%nat; [|lia]. apply deepest_below. intros x Hx.
    destruct (slice_codec _ _ _ _ Hc) as (v & _ & Hv & _).
    destruct (slice_length _ _ _ _ Hv Hx) as (tx & Htx & Hl).
    rewrite list.Forall_forall in H4.
    apply IH in Htx; [|eapply depth_nested; [|exact Hx]; lia|by apply H4].
    eapply struct_length in Hu as Hlu; [|do 2 apply list_elem_of_further; apply list_elem_of_here|];
      [|unfold omit_slice, omit; cbn [snd Result_Content]; rewrite Hv; destruct nested; [by inversion Hx|done]]. lia.
  - eapply struct_length in Ht; [|apply list_elem_of_here|done]. lia.
Qed.

Section requests.
Context (strict : bool).

Lemma Content_codec c : wire_Content c → codec Content_text (read_Content strict) zero_content c.
Proof.
  intros Hc. destruct (content_codec strict (depth c) c Hc (le_n _)) as (t & j & Ht & Hv & Hn & _).
  exists t, j. split_and!; [done..|]. pose proof (depth_length _ _ Hc Ht).
  destruct (content_codec strict (S (String.length t)) c Hc) as (t' & _ & Ht' & _ & _ & Hr); [lia|].
  unfold read_Content. by simplify_eq.
Qed.

Lemma Message_codec m : wire_Message m → codec Message_text (read_Message strict) zero_message m.
Proof.
  destruct m as [role content]. intros [H1 H2]. apply (Forall_codec _ _ _ _ _ Content_codec) in H2.
  by_fields.
Qed.

Lemma Response_codec r : wire_Response r → codec Response_text (read_Response strict) zero_response r.
Proof.
  destruct r. intros (H1 & H2 & H3 & H4 & H5 & H6 & H7 & H8).
  apply (Forall_codec _ _ _ _ _ Content_codec) in H4. apply (Usage_codec strict) in H7.
  by_fields.
Qed.

Lemma Metadata_law name m : wire_Metadata m →
  field_law (omit_map name any_text m).2 (read_map dec_any) [] m.
Proof.
  intros [Hm Hl]. apply (map_law any_text dec_any id name m Hm). eapply list.Forall_impl; [exact Hl|].
  by intros kv (? & ? & ?).
Qed.
Hint Resolve Metadata_law : wire.

Lemma Request_codec r : wire_Request r → codec Request_text (read_Request strict) zero_request r.
Proof.
  destruct r as [version id route messages tokens temperature top stop tools choice metadata stream].
  intros (H1 & H2 & H3 & H4 & H5 & H6 & H7 & H8 & H9 & H10 & H11).
  apply (Route_codec strict) in H3. apply (Forall_codec _ _ _ _ _ Message_codec) in H4.
  pose proof (optional_codec _ _ _ _ _ (int_codec 0) H5) as Ht.
  pose proof (optional_codec _ _ _ _ _ (float_codec float_zero) H6) as He.
  pose proof (optional_codec _ _ _ _ _ (float_codec float_zero) H7) as Hp.
  apply (Forall_codec _ _ _ _ _ (string_codec "")) in H8.
  apply (Forall_codec _ _ _ _ _ (Tool_codec strict)) in H9.
  pose proof (optional_codec _ _ _ _ _ (ToolChoice_codec strict) H10) as Hc.
  by_fields.
Qed.
End requests.

(** * What the other side reads

    Raw messages are compacted when they are written, so a gateway and an
    adapter read each other's requests and responses up to the blanks of their
    raw messages.  [compact_Request] and [compact_Response] are what is left. *)

(** ** Reading a whole text *)

Section bodies.
Context {A : Type} (text : A → option string) (read : reader A) (zero x : A) (t : string).
Context (Hx : codec text read zero x) (Ht : text x = Some t).

Lemma DecodeText_codec s : delimited s → DecodeText zero read (t +:+ s) = Some (x, s).
Proof.
  intros Hs. destruct Hx as (t' & j & Ht' & Hj & _ & Hr). simplify_eq.
  unfold DecodeText. rewrite (vt_parse _ _ Hj) by (rewrite ?string_length_app; lia || done).
  rewrite (value_text_skip _ _ _ Hj), raw_of_app, Hr. done.
Qed.

Lemma DecodeBody_codec maxBytes :
  (maxBytes ≤ 0 ∨ Z.of_nat (String.length t) ≤ maxBytes)%Z → DecodeBody zero read t maxBytes = inr x.
Proof.
  intros Hm. unfold DecodeBody.
  assert ((if (0 <? maxBytes)%Z then str_take (S (Z.to_nat maxBytes)) t else t) = t) as ->.
  { destruct (Z.ltb_spec 0 maxBytes); [|done]. apply str_take_all. lia. }
  rewrite <- (string_app_nil_r t) at 1. rewrite DecodeText_codec by done.
  replace ((0 <? maxBytes) && (maxBytes <? Z.of_nat (String.length t - String.length "")))%Z with false
    by (cbn [String.length]; destruct (Z.ltb_spec 0 maxBytes), (Z.ltb_spec maxBytes (Z.of_nat (String.length t - 0))); lia || done).
  by rewrite bool_decide_eq_true_2.
Qed.
End bodies.

(** ** Without the blanks of the raw messages *)

Definition compact_raw (raw : string) : string := default raw (compact raw).
Definition compact_ToolCall (c : ToolCall) : ToolCall := {|
  Call_ID := Call_ID c; Call_Name := Call_Name c; Call_Arguments := compact_raw (Call_Arguments c);
  Call_Signature := Call_Signature c |}.
Fixpoint compact_Content (c : Content) : Content :=
  let '(MkContent type text image call result) := c in
  MkContent type text image (compact_ToolCall <$> call)
    match result with
    | None => None
    | Some (MkToolResult id name nested raw err) =>
        Some (MkToolResult id name (map compact_Content nested) (compact_raw raw) err)
    end.
Definition compact_Message (m : Message) : Message := {|
  Message_Role := Message_Role m; Message_Content := map compact_Content (Message_Content m) |}.
Definition compact_Tool (t : Tool) : Tool := {|
  Tool_Name := Tool_Name t; Tool_Description := Tool_Description t;
  Tool_InputSchema := compact_raw (Tool_InputSchema t); Tool_Strict := Tool_Strict t |}.
Definition compact_Request (r : Request) : Request := {|
  Req_Version := Req_Version r; Req_ID := Req_ID r; Req_Route := Req_Route r;
  Req_Messages := map compact_Message (Req_Messages r);
  Req_MaxOutputTokens := Req_MaxOutputTokens r; Req_Temperature := Req_Temperature r;
  Req_TopP := Req_TopP r; Req_Stop := Req_Stop r; Req_Tools := map compact_Tool (Req_Tools r);
  Req_ToolChoice := Req_ToolChoice r; Req_Metadata := Req_Metadata r; Req_Stream := Req_Stream r |}.
Definition compact_Response (r : Response) : Response := {|
  Resp_Version := Resp_Version r; Resp_ID := Resp_ID r; Resp_Model := Resp_Model r;
  Resp_Content := map compact_Content (Resp_Content r); Resp_FinishReason := Resp_FinishReason r;
  Resp_StopSequence := Resp_StopSequence r; Resp_Usage := Resp_Usage r;
  Resp_ProviderResponseID := Resp_ProviderResponseID r |}.

(** They have the same texts. *)
Lemma compact_go_nil s : compact_go false s = "" → skip_ws s = "".
Proof. induction s as [|c s IH]; [done|]. cbn. destruct (is_ws c); [done|by intros [=]]. Qed.
Lemma compact_filled raw : compact raw ≠ Some "".
Proof.
  unfold compact. destruct (Valid raw) eqn:Hv; [|done]. intros [= E]. apply compact_go_nil in E.
  unfold Valid, parse in Hv. by rewrite (proj1 (parse_nothing _ _ E)) in Hv.
Qed.

Lemma compact_raw_text raw : kept_raw (compact_raw raw) →
  raw_text (compact_raw raw) = raw_text raw ∧ bool_decide (compact_raw raw = "") = bool_decide (raw = "").
Proof.
  unfold compact_raw. destruct (compact raw) as [c|] eqn:E; [|done].
  change (default raw (Some c)) with c.
  assert (raw ≠ "") as Hraw by (by intros ->).
  assert (c ≠ "") as Hne by (intros ->; by apply compact_filled in E).
  intros [?|(Hc & _)]; [done|].
  unfold raw_text. by rewrite !bool_decide_eq_false_2, Hc, E by done.
Qed.

Lemma slice_text_map {A} (text : A → option string) (f : A → A) l :
  Forall (λ x, text (f x) = text x) l → slice_text text (map f l) = slice_text text l.
Proof.
  intros Hl. unfold slice_text. f_equal. induction Hl as [|x l Hx _ IH]; [done|]. cbn. by rewrite Hx, IH.
Qed.
Lemma omit_slice_map {A} name (text : A → option string) (f : A → A) l :
  Forall (λ x, text (f x) = text x) l → omit_slice name text (map f l) = omit_slice name text l.
Proof. intros Hl. unfold omit_slice. rewrite slice_text_map by done. by destruct l. Qed.

Lemma compact_ToolCall_text c : wire_ToolCall (compact_ToolCall c) →
  ToolCall_text (compact_ToolCall c) = ToolCall_text c.
Proof.
  intros (_ & _ & H & _). unfold ToolCall_text. cbn [compact_ToolCall Call_ID Call_Name Call_Arguments Call_Signature].
  by rewrite (proj1 (compact_raw_text _ (or_intror H))).
Qed.

Lemma compact_Content_text c : wire_Content (compact_Content c) →
  Content_text (compact_Content c) = Content_text c.
Proof.
  remember (depth c) as n eqn:Hn. assert (depth c <= n)%nat as Hd by lia. clear Hn. revert c Hd.
  induction n as [|n IH]; intros [type text image call result] Hd Hw.
  { rewrite depth_eq in Hd. destruct result; lia. }
  rewrite depth_eq in Hd. cbn [compact_Content] in *. apply wire_Content_eq in Hw as (_ & _ & _ & Hc & Hr).
  cbn [Content_text].
  assert (omit_pointer "tool_call" ToolCall_text (compact_ToolCall <$> call) =
    omit_pointer "tool_call" ToolCall_text call) as ->.
  { destruct call as [call|]; [|done]. unfold omit_pointer. cbn [fmap option_fmap option_map pointer_text].
    by rewrite compact_ToolCall_text. }
  destruct result as [[id name nested raw err]|]; [|done]. destruct Hr as (_ & _ & Hraw & Hnested).
  destruct (compact_raw_text raw Hraw) as [Ht Hb].
  do 5 f_equal. unfold omit_pointer. do 2 f_equal. cbn [pointer_text ToolResult_text Result_ToolCallID
    Result_Name Result_Content Result_Result Result_IsError]. unfold ToolResult_text.
  cbn [Result_ToolCallID Result_Name Result_Content Result_Result Result_IsError].
  unfold omit_raw. rewrite Ht, Hb, omit_slice_map; [done|].
  rewrite List.Forall_map in Hnested. rewrite list.Forall_forall in Hnested |- *. intros x Hx.
  apply IH; [|by apply Hnested]. eapply depth_nested; [|exact Hx]. cbn [Result_Content] in Hd. lia.
Qed.

Lemma compact_contents_text l : Forall wire_Content (map compact_Content l) →
  Forall (λ c, Content_text (compact_Content c) = Content_text c) l.
Proof.
  rewrite List.Forall_map. intros H. eapply list.Forall_impl; [exact H|]. intros c. apply compact_Content_text.
Qed.

Lemma compact_Response_text r : wire_Response (compact_Response r) →
  Response_text (compact_Response r) = Response_text r.
Proof.
  intros (_ & _ & _ & Hc & _). apply compact_contents_text in Hc. unfold Response_text.
  cbn [compact_Response Resp_Version Resp_ID Resp_Model Resp_Content Resp_FinishReason
    Resp_StopSequence Resp_Usage Resp_ProviderResponseID].
  assert (nil_slice_text Content_text (map compact_Content (Resp_Content r)) =
    nil_slice_text Content_text (Resp_Content r)) as ->; [|done].
  unfold nil_slice_text. rewrite slice_text_map by done. by destruct (Resp_Content r).
Qed.

Lemma compact_Message_text m : wire_Message (compact_Message m) →
  Message_text (compact_Message m) = Message_text m.
Proof.
  intros [_ Hc]. unfold Message_text. cbn [compact_Message Message_Role Message_Content] in *.
  by rewrite slice_text_map by by apply compact_contents_text.
Qed.
Lemma compact_Tool_text t : wire_Tool (compact_Tool t) → Tool_text (compact_Tool t) = Tool_text t.
Proof.
  intros (_ & _ & H). unfold Tool_text. cbn [compact_Tool Tool_Name Tool_Description Tool_InputSchema Tool_Strict].
  by rewrite (proj1 (compact_raw_text _ (or_intror H))).
Qed.

Lemma compact_Request_text r : wire_Request (compact_Request r) →
  Request_text (compact_Request r) = Request_text r.
Proof.
  intros (_ & _ & _ & Hm & _ & _ & _ & _ & Ht & _). unfold Request_text.
  cbn [compact_Request Req_Version Req_ID Req_Route Req_Messages Req_MaxOutputTokens Req_Temperature
    Req_TopP Req_Stop Req_Tools Req_ToolChoice Req_Metadata Req_Stream] in *.
  rewrite List.Forall_map in Hm, Ht. rewrite slice_text_map, omit_slice_map; [done|..];
    eapply list.Forall_impl; [exact Ht|apply compact_Tool_text|exact Hm|apply compact_Message_text].
Qed.

(** ** Both ways *)

Lemma request_written strict r : wire_Request (compact_Request r) →
  ∃ t, Request_text r = Some t ∧ codec Request_text (read_Request strict) zero_request (compact_Request r) ∧
    Request_text (compact_Request r) = Some t.
Proof.
  intros Hw. pose proof (Request_codec strict _ Hw) as Hc. destruct Hc as (t & ? & Ht & Hc').
  exists t. rewrite <- compact_Request_text by done. split_and!; [done| |done]. by eexists _, _.
Qed.
Lemma response_written strict r : wire_Response (compact_Response r) →
  ∃ t, Response_text r = Some t ∧
    codec Response_text (read_Response strict) zero_response (compact_Response r) ∧
    Response_text (compact_Response r) = Some t.
Proof.
  intros Hw. pose proof (Response_codec strict _ Hw) as Hc. destruct Hc as (t & ? & Ht & Hc').
  exists t. rewrite <- compact_Response_text by done. split_and!; [done| |done]. by eexists _, _.
Qed.

Lemma response_read r : wire_Response (compact_Response r) →
  DecodeText zero_response (read_Response false) (RespBody (JSON_text 200 (Response_text r))) =
  Some (compact_Response r, newline).
Proof.
  intros (t & Ht & Hc & Hct)%(response_written false). rewrite Ht. cbn [JSON_text RespBody].
  by apply (DecodeText_codec Response_text (read_Response false) zero_response).
Qed.

(** C32.  The protocol crosses the wire.  A request that a gateway has is
    written, unless it has something JSON cannot keep (text that is not UTF-8,
    an integer beyond 64 bits, a double without an exact text), and what the
    adapter decodes from a body within its limit is that very request, its raw
    messages without their blanks; a response that an adapter answers with is
    decoded by the gateway as that very response, its raw messages without
    their blanks. *)
Theorem protocol_crosses_wire :
  (∀ r, wire_Request (compact_Request r) → ∃ t, Request_text r = Some t ∧
     ∀ maxBytes, (maxBytes ≤ 0 ∨ Z.of_nat (String.length t) ≤ maxBytes)%Z →
       DecodeBody zero_request (read_Request true) t maxBytes = inr (compact_Request r)) ∧
  ∀ r, wire_Response (compact_Response r) →
    DecodeText zero_response (read_Response false) (RespBody (JSON_text 200 (Response_text r))) =
    Some (compact_Response r, newline).
Proof.
  split; [|apply response_read].
  intros r (t & Ht & Hc & Hct)%(request_written true). exists t. split; [done|]. intros maxBytes Hm.
  by apply (DecodeBody_codec Request_text (read_Request true) zero_request).
Qed.

(** ** A request and a response with blanks *)

Module CrossingSample.
Definition sent (arguments schema : string) : Request := {|
  Req_Version := Version; Req_ID := "r1";
  Req_Route := {| IR_ProviderID := "p1"; IR_UpstreamModel := "m" |};
  Req_Messages := [{| Message_Role := RoleUser; Message_Content := [text_content "time?"] |};
    {| Message_Role := RoleAssistant; Message_Content := [call_content
         {| Call_ID := "c1"; Call_Name := "now"; Call_Arguments := arguments; Call_Signature := "" |}] |};
    {| Message_Role := RoleTool; Message_Content := [IrSample.result "c1" "now"] |}];
  Req_MaxOutputTokens := Some 5%Z; Req_Temperature := Some float_one; Req_TopP := None;
  Req_Stop := ["."]; Req_Tools := [{| Tool_Name := "now"; Tool_Description := "";
    Tool_InputSchema := schema; Tool_Strict := None |}];
  Req_ToolChoice := Some {| Choice_Mode := "auto"; Choice_Name := ""; Choice_DisableParallel := false |};
  Req_Metadata := []; Req_Stream := false
|}.
Definition request : Request := sent " {}" (requote "{ 'type' : 'object' }").
Definition received : Request := sent "{}" (requote "{'type':'object'}").
Definition response : Response := {|
  Resp_Version := Version; Resp_ID := "r1"; Resp_Model := "m"; Resp_Content := [text_content "noon"];
  Resp_FinishReason := FinishStop; Resp_StopSequence := "";
  Resp_Usage := {| InputTokens := 3; OutputTokens := 1; CacheCreationInputTokens := 0;
    CachedInputTokens := 0 |};
  Resp_ProviderResponseID := "c9" |}.
End CrossingSample.

Ltac wire_sample := repeat first
  [ lazymatch goal with
    | |- True => exact I
    | |- Forall _ [] => apply list.Forall_nil_2
    | |- Forall _ (_ :: _) => apply list.Forall_cons_2
    | |- _ = _ => vm_compute; reflexivity
    | |- compacted _ => apply (bool_decide_unpack _); vm_compute; exact I
    | |- float_kept _ => vm_compute; split; reflexivity
    | |- int_range _ => split; [vm_compute; congruence|reflexivity]
    | |- kept_raw "" => by left
    | |- _ ∧ _ => split
    | |- optional _ _ => unfold optional
    | |- wire_Content _ => apply wire_Content_eq; cbn [Content_Text]
    | |- wire_Metadata _ => split
    end
  | progress unfold wire_Route, wire_Message, wire_Tool, wire_ToolChoice, wire_ToolCall, wire_Usage,
      CrossingSample.sent, text_content, call_content, result_content, IrSample.result
  | progress cbn [Req_Messages Req_MaxOutputTokens Req_Temperature Req_TopP Req_Stop Req_Tools
      Req_ToolChoice Req_Metadata Message_Content Resp_Content Resp_Usage InputTokens OutputTokens
      CacheCreationInputTokens CachedInputTokens Tool_InputSchema Call_Arguments] ].
Lemma sample_received : compact_Request CrossingSample.request = CrossingSample.received.
Proof. vm_compute. reflexivity. Qed.

Lemma sample_answered : compact_Response CrossingSample.response = CrossingSample.response.
Proof. reflexivity. Qed.

Lemma wire_sample_request : wire_Request (compact_Request CrossingSample.request).
Proof.
  rewrite sample_received. unfold wire_Request, CrossingSample.received. wire_sample.
Qed.
Lemma wire_sample_response : wire_Response (compact_Response CrossingSample.response).
Proof.
  rewrite sample_answered. unfold wire_Response, CrossingSample.response. wire_sample.
Qed.

Lemma protocol_crosses_wire_witness :
  (∃ t, Request_text CrossingSample.request = Some t ∧
    DecodeBody zero_request (read_Request true) t 4096 = inr CrossingSample.received) ∧
  CrossingSample.received ≠ CrossingSample.request.
Proof.
  split; [|by intros [=]]. rewrite <- sample_received.
  destruct (proj1 protocol_crosses_wire _ wire_sample_request) as (t & Ht & Hd).
  exists t. split; [exact Ht|]. apply Hd. right.
  assert (E : (if Request_text CrossingSample.request is Some t
    then Z.of_nat (String.length t) <=? 4096 else false)%Z = true) by by_vm.
  rewrite Ht in E. by apply Z.leb_le.
Defined.

(** A response without content is written with [null], and read without content. *)
Example empty_content_crosses :
  let r := {| Resp_Version := Version; Resp_ID := "r1"; Resp_Model := "m"; Resp_Content := [];
              Resp_FinishReason := FinishStop; Resp_StopSequence := ""; Resp_Usage := zero_usage;
              Resp_ProviderResponseID := "" |} in
  Response_Validate r = inr tt ∧
  Response_text r = Some (requote "{'version':'2026-07-12','id':'r1','model':'m','content':null,'finish_reason':'stop','usage':{'input_tokens':0,'output_tokens':0}}") ∧
  (Response_text r ≫= read_Response false zero_response) = Some r.
Proof. cbv zeta. split_and!; by_vm. Qed.
