(* ===== verification/Adapter.v ===== *)
(** * Provider adapters over HTTP

    The handler the four provider adapters share line by line:
    [openai/adapter.go], [anthropic/http.go], [gemini/adapter.go] and
    [openairesponses/adapter_http.go].  What differs between them is in
    [provider_api], which the file of each protocol has one of.  The stores of providers and
    secrets and the HTTP client of the provider are parameters; what is logged
    is not modelled. *)

From Stdlib Require Import Ascii.
From S2P Require Import Prelude GoStd Json GoText GoNet GoTime GoFmt Errors Results State Model Repository.
From S2P Require Import Svc Service Platform Wire Http Registry Dapr Ir DaprState AdapterConfig Runtime.
From S2P Require Import Dataplane IrWire.

(** [url.Parse] of an absolute URL: the fragment is split off first. *)
Definition url_parses (raw : string) : bool :=
  let '(u, fragment) := match Cut "#" raw with Some (a, b) => (a, b) | None => (raw, "") end in
  negb (none (ParseRequestURI u)) && negb (none (unescape encodePath fragment)).

(** The configuration of an adapter. *)
Record AdapterConfig := {
  Runtime_Config : Config; MaxBody : Z; AppToken : string; DefaultMaxOutputTokens : Z;
  MaxOutputTokens : Z
}.

(** [P] and [R] are the request and the response of the provider. *)
Record provider_api (P R : Type) := {
  api_kind : string;
  api_accepts : string;
  api_name : string;
  (** What is refused before the provider is resolved. *)
  api_limit : AdapterConfig → Request → option string;
  api_request : AdapterConfig → Request → error + P;
  api_text : P → option string;
  api_endpoint : Config → Request → error + string;
  (** The headers but those of the content, for a key and a request id. *)
  api_header : Config → string → string → list (string * string);
  api_zero : R;
  api_read : reader R;
  api_response : R → Request → error + Response
}.
Arguments api_kind {P R}. Arguments api_accepts {P R}. Arguments api_name {P R}.
Arguments api_limit {P R}. Arguments api_request {P R}.
Arguments api_text {P R}. Arguments api_endpoint {P R}. Arguments api_header {P R}.
Arguments api_zero {P R}. Arguments api_read {P R}. Arguments api_response {P R}.

Record AdapterHTTPHandler := {
  ad_providers : string → prog Provider;
  ad_secrets : SecretRef → prog string;
  ad_upstream : transport;
  ad_config : AdapterConfig;
  ad_readable : http_response → bool
}.

Section adapter.
Context {P R : Type} (api : provider_api P R) (h : AdapterHTTPHandler).

Definition AppID : string := Cfg_AppID (Runtime_Config (ad_config h)).

Definition internal (next : handler) : handler := λ requestID r,
  let token := AppToken (ad_config h) in
  if negb (eqs token "") && negb (SecureEqual (header_get "Dapr-Api-Token" (Header r)) token) then
    mret (WriteProblem requestID 401 "Unauthorized"
            "the endpoint is only available through the authenticated Dapr sidecar")
  else next requestID r.

Definition maxProviderBody : Z := 20971520.

(** What becomes of the provider's answer. *)
Definition provider_answer (requestID : string) (request : Request) (response : http_response)
    : http_response :=
  let fail := WriteProblem requestID in
  if negb (ad_readable h response) then
    fail 502%Z "Provider response failed" ("the " +:+ api_name api +:+ " response could not be read")
  else
    let body := read_limited maxProviderBody (RespBody response) in
    if negb (succeeded (StatusCode response)) then
      fail (if StatusCode response =? 429 then 429 else 502)%Z "Provider rejected request"
        (api_name api +:+ " returned HTTP " +:+ FormatInt (StatusCode response))
    else
      match UnmarshalText (api_zero api) (api_read api) body with
      | None => fail 502%Z "Invalid provider response" (api_name api +:+ " returned malformed JSON")
      | Some providerResponse =>
          match api_response api providerResponse request with
          | inl _ =>
              fail 502%Z "Unsupported provider response"
                (api_name api +:+ " returned a response that cannot be represented")
          | inr response => JSON_text 200 (Response_text response)
          end
      end.

(** From the credential on. *)
Definition send_upstream (requestID apiKey : string) (request : Request) : svc http_response :=
  let fail status title detail := mret (WriteProblem requestID status title detail) in
  let config := Runtime_Config (ad_config h) in
  if eqs (TrimSpace apiKey) "" then
    fail 502%Z "Provider credential unavailable" "the provider credential is empty"
  else
    match api_request api (ad_config h) request with
    | inl err => fail 400%Z "Unsupported IR request" (Error err)
    | inr providerRequest =>
        match api_text api providerRequest with
        | None => fail 500%Z "Encoding failed" "the provider request could not be encoded"
        | Some payload =>
            match api_endpoint api config request with
            | inl err => fail 422%Z "Invalid provider" (Error err)
            | inr endpoint =>
                if negb (url_parses endpoint) then
                  fail 500%Z "Request construction failed" "the provider request could not be created"
                else
                  svc_bind_result
                    (call (ad_upstream h {|
                       Out_Method := "POST"; Out_URL := endpoint;
                       Out_Header := [("Content-Type", "application/json"); ("Accept", "application/json")] ++
                                     api_header api config apiKey requestID;
                       Out_Body := payload; Out_Streamed := false |}))
                    (λ r, mret match r with
                     | inl _ => WriteProblem requestID 502 "Provider request failed"
                                  ("the " +:+ api_name api +:+ " API could not be reached")
                     | inr response => provider_answer requestID request response
                     end)
            end
        end
    end.

(** The provider must be the one the request is for, of this adapter's kind. *)
Definition addressed (provider : Provider) (request : Request) : bool :=
  eqs (Provider_ID provider) (IR_ProviderID (Req_Route request)) &&
  eqs (Provider_AdapterAppID provider) AppID.

Definition generate : handler := λ requestID r,
  let fail status title detail := mret (WriteProblem requestID status title detail) in
  match DecodeBody zero_request (read_Request true) (Body r) (MaxBody (ad_config h)) with
  | inl err => fail 400%Z "Invalid IR request" (Error err)
  | inr request =>
      match Request_Validate request with
      | inl err => fail 400%Z "Invalid IR request" (Error err)
      | inr _ =>
          match api_limit api (ad_config h) request with
          | Some detail => fail 400%Z "Unsupported IR request" detail
          | None =>
              svc_bind_result (call (ad_providers h AppID)) (λ r,
                match r with
                | inl err =>
                    fail (if errors_Is err NotFound || errors_Is err Forbidden then 422 else 502)%Z
                      "Provider resolution failed" "the configured provider is unavailable"
                | inr provider =>
                    if negb (eqs (Provider_Kind provider) (api_kind api)) then
                      fail 422%Z "Invalid provider"
                        ("this adapter only accepts " +:+ api_accepts api +:+ " providers")
                    else if negb (addressed provider request) then
                      fail 422%Z "Invalid route" "the request is not addressed to this provider adapter"
                    else
                      svc_bind_result (call (ad_secrets h (Cfg_SecretRef (Runtime_Config (ad_config h)))))
                        (λ r,
                           match r with
                           | inl _ =>
                               fail 502%Z "Provider credential unavailable"
                                 "the provider credential could not be loaded"
                           | inr apiKey => send_upstream requestID apiKey request
                           end)
                end)
          end
      end
  end.

Definition adapter_routes : list route := health_routes ++
  [{| rt_method := "POST"; rt_pattern := path ["v1"; "generate"];
      rt_handler := λ _, internal generate |}].

Definition NewAdapterHTTPHandler : http_request → svc http_response :=
  HTTPMiddleware (ServeMux adapter_routes).
End adapter.
