(* ===== verification/Gateway.v ===== *)
(** * Generation through a gateway of the deployed system

    [Dispatcher.Generate] over [GatewayRuntime], reading the stores the
    control planes write: what must hold for an adapter to be invoked. *)

From S2P Require Import Prelude GoStd Json GoText GoTime Errors Results State Model Repository Collections.
From S2P Require Import Directory ModelRepository KeyRepository Svc Faults Protocol.
From S2P Require Import Service KeyService Registry KeyFacts System ServiceSafety Concurrency.
From S2P Require Import Runtime RuntimeFacts EndToEnd Ir IrFacts Dataplane.

#[local] Arguments bool_decide : simpl never.

Section gateway.
Context {S : Type} `{StateStoreLaws S}.
Context (subj : SubjectRegistry) (Hsubj : SubjectRegistryLaws (S := S) subj).
Context (mods : option ModelRegistry) (Hmods : ∀ m, mods = Some m → ModelRegistryLaws (S := S) m).
Context (env : environment).
Implicit Types (c : config (S := S)).

(** The records that allow a key to use a model, as the stores hold them. *)
Record granted (w : world S) (requested : string) (k : VirtualKey) (u : User) (x : Model)
    (p : Provider) : Prop := {
  gr_key : run env (KeyRepository.GetVirtualKey KeyState (Key_ID k)) w = (inr k, w);
  gr_key_active : Key_Status k = StatusActive;
  gr_user : run env (Repository.GetUser ControlState (Key_UserID k)) w = (inr u, w);
  gr_user_active : User_Status u = StatusActive;
  gr_model : run env (ModelRepository.GetModel ProviderState (Model_ID x)) w = (inr x, w);
  gr_alias : sha256_hex (Model_Alias x) = sha256_hex requested;
  gr_model_active : Model_Status x = StatusActive;
  gr_names : Model_ID x ∈ Key_ModelIDs k;
  gr_provider : run env (Repository.GetProvider ProviderState (Model_ProviderID x)) w = (inr p, w);
  gr_provider_active : Provider_Status p = StatusActive
}.

End gateway.

(** ** A generation on the sample system *)

Module GatewaySample.
Definition response : Response := {|
  Resp_Version := Version; Resp_ID := "r1"; Resp_Model := "m";
  Resp_Content := [text_content "noon"]; Resp_FinishReason := FinishStop;
  Resp_StopSequence := "";
  Resp_Usage := {| InputTokens := 3; OutputTokens := 1; CacheCreationInputTokens := 0;
    CachedInputTokens := 0 |};
  Resp_ProviderResponseID := "" |}.
Definition adapter : Invoker := λ _ _ _, mret response.
Definition translate : Translator := λ _ _, inr (IrSample.request (IrSample.result "c1" "now")).
Definition generate (f : Invoker) : prog Response :=
  Generate {| runtime := gateway gateway_runtime; invoker := f |} SystemSample.token "fast" "r1" translate.
End GatewaySample.

