(* ===== verification/OpenAI.v ===== *)
(** * The OpenAI Chat protocol ([internal/openai])

    The wire types, the ingress translation between chat completions and the
    provider-neutral protocol ([translate.go]) and the provider adapter's
    translation in the other direction ([adapter_translate.go]).

    A request is the struct that [encoding/json] decoded; its raw fields are
    texts.  The errors of [encoding/json] are one constant. *)

From Stdlib Require Import SpecFloat Ascii.
From S2P Require Import Prelude GoStd Json GoText GoNet GoTime Errors Results Model Repository Ir Decode.

(** ** types.go *)

Record ImageURL := { IU_URL : string; IU_Detail : string }.
Record ContentPart := { Part_Type : string; Part_Text : string; Part_ImageURL : option ImageURL }.

Record ToolCallFunction := { TCF_Name : string; TCF_Arguments : string }.
Record ToolCall := { TC_ID : string; TC_Type : string; TC_Function : ToolCallFunction }.

Record FunctionTool := {
  FT_Name : string; FT_Description : string; FT_Parameters : RawMessage; FT_Strict : option bool
}.
Record Tool := { OT_Type : string; OT_Function : FunctionTool }.

Record ChatMessage := {
  CM_Role : string; CM_Content : RawMessage; CM_Name : string; CM_ToolCalls : list ToolCall;
  CM_ToolCallID : string
}.

Record ChatCompletionRequest := {
  CR_Model : string; CR_Messages : list ChatMessage;
  CR_MaxCompletionTokens : option Z; CR_MaxTokens : option Z;
  CR_Temperature : option float64; CR_TopP : option float64;
  CR_Stop : RawMessage; CR_Tools : list Tool; CR_ToolChoice : RawMessage;
  CR_N : option Z; CR_Stream : bool; CR_StreamOptions : RawMessage;
  CR_FrequencyPenalty : option float64; CR_PresencePenalty : option float64;
  CR_Logprobs : option bool; CR_TopLogprobs : option Z;
  CR_LogitBias : RawMessage; CR_ResponseFormat : RawMessage;
  CR_Seed : option Z; CR_User : string; CR_Metadata : list (string * json);
  CR_ParallelToolCalls : option bool
}.

Record AssistantOutput := {
  AO_Role : string; AO_Content : option string; AO_Refusal : option string;
  AO_ToolCalls : list ToolCall
}.
Record Choice := { Ch_Index : Z; Ch_Message : AssistantOutput; Ch_FinishReason : string }.
Record Usage := {
  PromptTokens : Z; CompletionTokens : Z; TotalTokens : Z; CachedTokens : option Z
}.
Record ChatCompletionResponse := {
  CC_ID : string; CC_Object : string; CC_Created : Z; CC_Model : string;
  CC_Choices : list Choice; CC_Usage : Usage; CC_SystemFingerprint : option string
}.

(** ** Decoding raw fields *)

Definition invalid (param code format : string) (values : list farg) : error :=
  TranslationError param code format values.

Definition dec_image_url (current : ImageURL) (j : json) : option ImageURL :=
  m ← struct_members ["url"; "detail"] j;
  url ← string_into "url" (IU_URL current) m;
  detail ← string_into "detail" (IU_Detail current) m;
  Some {| IU_URL := url; IU_Detail := detail |}.

Definition dec_part (j : json) : option ContentPart :=
  m ← struct_members ["type"; "text"; "image_url"] j;
  type ← string_into "type" "" m;
  text ← string_into "text" "" m;
  image ← decode_pointer dec_image_url {| IU_URL := ""; IU_Detail := "" |} None
            (field_values "image_url" m);
  Some {| Part_Type := type; Part_Text := text; Part_ImageURL := image |}.

(** [decodeStrictJSON]: one value, nothing after it but blanks. *)
Definition decodeStrictJSON {A} (dec : json → option A) (raw : RawMessage) : error + A :=
  result_of (parse raw ≫= dec) json_error.

(** ** translate.go *)

Definition data_media_type (s : string) : bool := image_media_type s.

Definition parseImage (raw : string) : error + Image :=
  match CutPrefix "data:" raw with
  | Some rest =>
      let malformed := Errorf "data URL must contain base64-encoded image data" [] in
      '(metadata, data) ← result_of (Cut ","%char rest) malformed;
      _ ← require (HasSuffix metadata ";base64") malformed;
      let mediaType := TrimSuffix metadata ";base64" in
      _ ← require (data_media_type mediaType)
            (Errorf "unsupported image media type %q" [AStr mediaType]);
      _ ← require (negb (none (StdDecode data)))
            (Errorf "invalid base64 data: %w" [AWrap (NewError "illegal base64 data")]);
      mret {| Image_URL := ""; Image_MediaType := mediaType; Image_Data := data |}
  | None =>
      let malformed := Errorf "must be an HTTP(S) URL or a base64 data URL" [] in
      parsed ← result_of (ParseRequestURI raw) malformed;
      _ ← require ((eqs (Scheme parsed) "http" || eqs (Scheme parsed) "https") &&
                   negb (eqs (Host parsed) "")) malformed;
      mret {| Image_URL := raw; Image_MediaType := ""; Image_Data := "" |}
  end.

Definition parsePart (role : string) (index : nat) (part : ContentPart) : error + Content :=
  if eqs (Part_Type part) "text" then
    _ ← require (none (Part_ImageURL part))
          (Errorf "content[%d]: text content cannot contain image_url" [AIdx index]);
    mret (text_content (Part_Text part))
  else if eqs (Part_Type part) "image_url" then
    _ ← require (eqs role "user")
          (Errorf "content[%d]: image_url is only supported for user messages" [AIdx index]);
    _ ← require (eqs (Part_Text part) "")
          (Errorf "content[%d]: image_url content cannot contain text" [AIdx index]);
    let missing := Errorf "content[%d].image_url.url is required" [AIdx index] in
    url ← result_of (Part_ImageURL part) missing;
    _ ← require (negb (eqs (IU_URL url) "")) missing;
    _ ← require (eqs (IU_Detail url) "" || eqs (IU_Detail url) "auto")
          (Errorf "content[%d].image_url.detail cannot be preserved by the selected provider"
             [AIdx index]);
    image ← on_error (λ e, Errorf "content[%d].image_url.url: %w" [AIdx index; AWrap e])
              (parseImage (IU_URL url));
    mret (image_content image)
  else
    inl (Errorf "content[%d] has unsupported type %q" [AIdx index; AStr (Part_Type part)]).

Definition parseContent (raw : RawMessage) (role : string) : error + list Content :=
  let trimmed := TrimSpace raw in
  if raw_unset trimmed then inr []
  else if starts_quote trimmed then
    text ← unmarshal_string trimmed; mret [text_content text]
  else
    parts ← on_error
      (λ e, Errorf "content must be a string or an array of content parts: %w" [AWrap e])
      (decodeStrictJSON (dec_array dec_part) trimmed);
    range_map (parsePart role) 0 parts.

Definition parseStop (raw : RawMessage) : error + list string :=
  let trimmed := TrimSpace raw in
  if raw_unset trimmed then inr []
  else if starts_quote trimmed then stop ← unmarshal_string trimmed; mret [stop]
  else
    result_of (parse trimmed ≫= λ j, match j with JNull => Some [] | _ => dec_strings j end)
      (Errorf "must be a string or array of strings" []).

(** The anonymous struct of [parseToolChoice]: the type and the function's name. *)
Definition dec_tool_choice (j : json) : option (string * string) :=
  m ← struct_members ["type"; "function"] j;
  type ← string_into "type" "" m;
  name ← foldl (λ current v,
           name ← current; f ← struct_members ["name"] v; string_into "name" name f)
         (Some "") (field_values "function" m);
  Some (type, name).

Definition mode_choice (mode name : string) : ToolChoice :=
  {| Choice_Mode := mode; Choice_Name := name; Choice_DisableParallel := false |}.

Definition parseToolChoice (raw : RawMessage) (hasTools : bool) : error + option ToolChoice :=
  let trimmed := TrimSpace raw in
  if raw_unset trimmed then inr None
  else if starts_quote trimmed then
    mode ← unmarshal_string trimmed;
    if eqs mode "none" then
      if hasTools then inr (Some (mode_choice mode "")) else inr None
    else if eqs mode "auto" || eqs mode "required" then
      _ ← require hasTools (Errorf "cannot use tool_choice %q without tools" [AStr mode]);
      mret (Some (mode_choice mode ""))
    else inl (Errorf "unsupported value %q" [AStr mode])
  else
    '(type, name) ← decodeStrictJSON dec_tool_choice trimmed;
    _ ← require (eqs type "function" && negb (eqs name ""))
          (Errorf "named tool_choice must select a function" []);
    _ ← require hasTools (Errorf "cannot select a function without tools" []);
    mret (Some (mode_choice "named" name)).

(** *** [ToIR] *)

Definition named_at (parts : list string) : string := join "." parts.
Definition message_param (i : nat) (field : string) : string :=
  named_at ["messages"; FormatUint (Z.of_nat i); field].
Definition tool_param (i : nat) : string := named_at ["tools"; FormatUint (Z.of_nat i)].

(** The messages translated so far, and the names of the tool calls by id. *)
Record translation := { tl_messages : list Message; toolCallNames : gmap string string }.
Definition translation0 : translation := {| tl_messages := []; toolCallNames := ∅ |}.

Definition translate_call (mi ti : nat) (toolCall : ToolCall) : error + Ir.ToolCall :=
  let at_call := message_param mi "tool_calls" +:+ "." +:+ FormatUint (Z.of_nat ti) in
  let name := TCF_Name (TC_Function toolCall) in
  let arguments := TCF_Arguments (TC_Function toolCall) in
  _ ← require (eqs (TC_Type toolCall) "function" && negb (eqs (TC_ID toolCall) "") &&
               negb (eqs name ""))
        (invalid at_call "invalid_tool_call"
           "tool call requires type=function, id, and function.name" []);
  _ ← require (isJSONObject arguments)
        (invalid (at_call +:+ ".function.arguments") "invalid_tool_arguments"
           "tool arguments must contain a JSON object" []);
  mret {| Call_ID := TC_ID toolCall; Call_Name := name; Call_Arguments := arguments;
          Call_Signature := "" |}.

Definition set_call_names (calls : list Ir.ToolCall) (names : gmap string string) : gmap string string :=
  foldl (λ names call, <[Call_ID call := Call_Name call]> names) names calls.

Definition known_ir_role (role : string) : bool := known_role role.

(** The contents of one message, and the names of its calls. *)
Definition message_contents (mi : nat) (role : string) (message : ChatMessage)
    (names : gmap string string) : error + (list Content * gmap string string) :=
  contents ← on_error
    (λ e, invalid (message_param mi "content") "invalid_content" "%v" [AErr e])
    (parseContent (CM_Content message) role);
  if eqs role RoleAssistant then
    calls ← range_map (translate_call mi) 0 (CM_ToolCalls message);
    mret (contents ++ (call_content <$> calls), set_call_names calls names)
  else if eqs role RoleTool then
    let at_id := message_param mi "tool_call_id" in
    _ ← require (negb (eqs (CM_ToolCallID message) ""))
          (invalid at_id "invalid_tool_result" "tool_call_id is required for tool messages" []);
    toolName ← result_of (names !! CM_ToolCallID message)
      (invalid at_id "invalid_tool_result"
         "tool_call_id does not reference an earlier assistant tool call" []);
    mret ([result_content (MkToolResult (CM_ToolCallID message) toolName contents "" false)], names)
  else mret (contents, names).

Definition ir_role (role : string) : string := if eqs role "developer" then RoleSystem else role.

Definition translate_message (mi : nat) (message : ChatMessage) (st : translation)
    : error + translation :=
  _ ← require (eqs (CM_Name message) "")
        (invalid (message_param mi "name") "unsupported_parameter"
           "named messages are not supported by the selected provider" []);
  let role := ir_role (CM_Role message) in
  _ ← require (known_ir_role role)
        (invalid (message_param mi "role") "invalid_role" "unsupported message role %q"
           [AStr (CM_Role message)]);
  _ ← require (eqs role RoleAssistant || bool_decide (CM_ToolCalls message = []))
        (invalid (message_param mi "tool_calls") "invalid_tool_call"
           "tool_calls are only allowed on assistant messages" []);
  _ ← require (eqs role RoleTool || eqs (CM_ToolCallID message) "")
        (invalid (message_param mi "tool_call_id") "invalid_tool_result"
           "tool_call_id is only allowed on tool messages" []);
  '(contents, names) ← message_contents mi role message (toolCallNames st);
  _ ← require (negb (bool_decide (contents = [])))
        (invalid (message_param mi "content") "invalid_content"
           "message content cannot be empty unless assistant tool_calls are present" []);
  mret {| tl_messages := tl_messages st ++ [{| Message_Role := role; Message_Content := contents |}];
          toolCallNames := names |}.

Definition empty_schema : RawMessage :=
  print (JObj [("type", JStr "object"); ("properties", JObj [])]).

Definition schema_of (parameters : RawMessage) : RawMessage :=
  if raw_unset (TrimSpace parameters) then empty_schema else parameters.

Definition translate_tool (index : nat) (tool : Tool) (st : list Ir.Tool * gset string)
    : error + (list Ir.Tool * gset string) :=
  let f := OT_Function tool in
  _ ← require (eqs (OT_Type tool) "function" && negb (eqs (TrimSpace (FT_Name f)) ""))
        (invalid (tool_param index) "invalid_tool" "only named function tools are supported" []);
  let parameters := schema_of (FT_Parameters f) in
  _ ← require (isJSONObject parameters)
        (invalid (tool_param index +:+ ".function.parameters") "invalid_tool_schema"
           "parameters must contain a JSON Schema object" []);
  _ ← require (negb (bool_decide (FT_Name f ∈ st.2)))
        (invalid (tool_param index +:+ ".function.name") "invalid_tool"
           "tool names must be unique" []);
  mret (st.1 ++ [{| Tool_Name := FT_Name f; Tool_Description := FT_Description f;
                    Tool_InputSchema := parameters; Tool_Strict := FT_Strict f |}],
        {[ FT_Name f ]} ∪ st.2).

Definition is_zero (x : float64) : bool := SFeqb x float_zero.

(** The parameters the route does not support. *)
Definition unsupported_parameters (request : ChatCompletionRequest) : error + unit :=
  let unsupported param text := invalid param "unsupported_parameter" text [] in
  _ ← require (unset_or (λ n, n =? 1)%Z (CR_N request)) (unsupported "n" "only n=1 is supported");
  _ ← require (negb (CR_Stream request))
        (unsupported "stream" "streaming is not yet supported by this route");
  _ ← require (raw_unset (TrimSpace (CR_StreamOptions request)))
        (unsupported "stream_options"
           "stream_options requires streaming, which is not supported by this route");
  _ ← require (bool_decide (CR_Metadata request = []))
        (unsupported "metadata" "metadata cannot be preserved by the selected provider");
  _ ← require (unset_or is_zero (CR_FrequencyPenalty request))
        (unsupported "frequency_penalty"
           "frequency_penalty is not supported by the selected provider");
  _ ← require (unset_or is_zero (CR_PresencePenalty request))
        (unsupported "presence_penalty"
           "presence_penalty is not supported by the selected provider");
  _ ← require (unset_or negb (CR_Logprobs request))
        (unsupported "logprobs" "logprobs is not supported by the selected provider");
  _ ← require (none (CR_TopLogprobs request))
        (unsupported "top_logprobs" "top_logprobs is not supported by the selected provider");
  _ ← require (none (CR_Seed request))
        (unsupported "seed" "seed is not supported by the selected provider");
  _ ← require (eqs (CR_User request) "")
        (unsupported "user" "user is not forwarded by the selected provider");
  _ ← require (raw_unset (TrimSpace (CR_LogitBias request)))
        (unsupported "logit_bias" "logit_bias is not supported by the selected provider");
  require (raw_unset (TrimSpace (CR_ResponseFormat request)))
    (unsupported "response_format" "response_format is not supported by the selected provider").

Definition max_tokens (request : ChatCompletionRequest) : error + option Z :=
  _ ← require (none (CR_MaxTokens request) || none (CR_MaxCompletionTokens request))
        (invalid "max_tokens" "invalid_request"
           "max_tokens and max_completion_tokens cannot both be set" []);
  let maxTokens :=
    match CR_MaxCompletionTokens request with Some n => Some n | None => CR_MaxTokens request end in
  _ ← require (unset_or (λ n, 0 <? n)%Z maxTokens)
        (invalid "max_completion_tokens" "invalid_value"
           "max completion tokens must be positive" []);
  mret maxTokens.

(** [parallel_tool_calls: false] with tools. *)
Definition disable_parallel (request : ChatCompletionRequest) (hasTools : bool)
    (choice : option ToolChoice) : option ToolChoice :=
  match CR_ParallelToolCalls request with
  | Some false =>
      if hasTools then
        let c := default (mode_choice "auto" "") choice in
        Some {| Choice_Mode := Choice_Mode c; Choice_Name := Choice_Name c;
                Choice_DisableParallel := true |}
      else choice
  | _ => choice
  end.

Definition ToIR (request : ChatCompletionRequest) (route : Model.Route) (requestID : string)
    : error + Request :=
  _ ← require (negb (eqs (TrimSpace (CR_Model request)) ""))
        (invalid "model" "invalid_model" "model is required" []);
  _ ← require (negb (bool_decide (CR_Messages request = [])))
        (invalid "messages" "invalid_messages" "messages must contain at least one item" []);
  _ ← unsupported_parameters request;
  maxTokens ← max_tokens request;
  _ ← require (unset_or (λ x, negb (outside_unit x)) (CR_Temperature request))
        (invalid "temperature" "invalid_value"
           "temperature must be between 0 and 1 for the selected provider" []);
  _ ← require (unset_or (λ x, negb (outside_unit x)) (CR_TopP request))
        (invalid "top_p" "invalid_value" "top_p must be between 0 and 1" []);
  stops ← on_error (λ e, invalid "stop" "invalid_value" "invalid stop: %v" [AErr e])
            (parseStop (CR_Stop request));
  st ← range translate_message 0 (CR_Messages request) translation0;
  '(tools, toolNames) ← range translate_tool 0 (CR_Tools request) ([], ∅);
  let hasTools := negb (bool_decide (tools = [])) in
  toolChoice ← on_error (λ e, invalid "tool_choice" "invalid_tool_choice" "%v" [AErr e])
                 (parseToolChoice (CR_ToolChoice request) hasTools);
  _ ← require (unset_or (λ c, negb (eqs (Choice_Mode c) "named") ||
                              bool_decide (Choice_Name c ∈ toolNames)) toolChoice)
        (invalid "tool_choice" "invalid_tool_choice"
           "selected function %q is not present in tools"
           [AStr (default "" (Choice_Name <$> toolChoice))]);
  let result := {|
    Req_Version := Version; Req_ID := requestID;
    Req_Route := {| IR_ProviderID := Route_ProviderID route;
                    IR_UpstreamModel := Route_UpstreamModel route |};
    Req_Messages := tl_messages st; Req_MaxOutputTokens := maxTokens;
    Req_Temperature := CR_Temperature request; Req_TopP := CR_TopP request;
    Req_Stop := stops; Req_Tools := tools;
    Req_ToolChoice := disable_parallel request hasTools toolChoice;
    Req_Metadata := []; Req_Stream := false |} in
  _ ← on_error (λ e, invalid "messages" "invalid_request" "%v" [AErr e]) (Request_Validate result);
  mret result.

(** *** [FromIR] *)

Definition function_call (call : Ir.ToolCall) : ToolCall := {|
  TC_ID := Call_ID call; TC_Type := "function";
  TC_Function := {| TCF_Name := Call_Name call; TCF_Arguments := Call_Arguments call |} |}.

(** One round of the loop over the content: the text and the calls so far. *)
Definition output_part (index : nat) (content : Content) (st : string * list ToolCall)
    : error + (string * list ToolCall) :=
  if eqs (Content_Type content) ContentText then
    mret (st.1 +:+ Content_Text content, st.2)
  else if eqs (Content_Type content) ContentToolCall then
    call ← result_of (Content_ToolCall content)
             (Errorf "response content[%d] has no tool_call payload" [AIdx index]);
    mret (st.1, st.2 ++ [function_call call])
  else
    inl (Errorf "response content[%d] has unsupported type %q"
           [AIdx index; AStr (Content_Type content)]).

(** The assistant's message: its text is the content, or the refusal when the
    answer was filtered; an empty text is left out when there are calls. *)
Definition output_message (text finish : string) (toolCalls : list ToolCall) : AssistantOutput :=
  let spoken := negb (eqs text "") || bool_decide (toolCalls = []) in
  let refused := eqs finish FinishContent && negb (eqs text "") in
  {| AO_Role := "assistant";
     AO_Content := if spoken && negb refused then Some text else None;
     AO_Refusal := if spoken && refused then Some text else None;
     AO_ToolCalls := toolCalls |}.

Definition FromIR (response : Response) (requestedModel completionID : string) (created : Time)
    : error + ChatCompletionResponse :=
  _ ← require (eqs (Resp_Version response) Version)
        (Errorf "adapter returned unsupported IR version %q" [AStr (Resp_Version response)]);
  '(text, toolCalls) ← range output_part 0 (Resp_Content response) ("", []);
  let usage := Resp_Usage response in
  mret {|
    CC_ID := completionID; CC_Object := "chat.completion"; CC_Created := Unix created;
    CC_Model := requestedModel;
    CC_Choices := [{|
      Ch_Index := 0;
      Ch_Message := output_message text (Resp_FinishReason response) toolCalls;
      Ch_FinishReason :=
        if finish_reason (Resp_FinishReason response) then Resp_FinishReason response
        else FinishStop |}];
    CC_Usage := {|
      PromptTokens := InputTokens usage; CompletionTokens := OutputTokens usage;
      TotalTokens := int64 (InputTokens usage + OutputTokens usage);
      CachedTokens := if (0 <? CachedInputTokens usage)%Z then Some (CachedInputTokens usage) else None |};
    CC_SystemFingerprint := None |}.

(** ** adapter_translate.go *)

(** [marshalRaw]: the values the adapter marshals are always encoded. *)
Definition marshalRaw (value : json) : RawMessage := print value.

Definition omitempty (name value : string) : list (string * json) :=
  if eqs value "" then [] else [(name, JStr value)].

Definition part_json (part : ContentPart) : json :=
  JObj (("type", JStr (Part_Type part)) :: omitempty "text" (Part_Text part) ++
    match Part_ImageURL part with
    | Some url => [("image_url", JObj (("url", JStr (IU_URL url)) :: omitempty "detail" (IU_Detail url)))]
    | None => []
    end).

Definition imageURL (image : option Image) : error + string :=
  image ← result_of image (Errorf "image content has no payload" []);
  if negb (eqs (Image_URL image) "") then mret (Image_URL image)
  else
    _ ← require (negb (eqs (Image_MediaType image) "") && negb (eqs (Image_Data image) ""))
          (Errorf "inline image requires media_type and data" []);
    _ ← require (negb (none (StdDecode (Image_Data image))))
          (Errorf "inline image contains invalid base64 data: %w"
             [AWrap (NewError "illegal base64 data")]);
    mret ("data:" +:+ Image_MediaType image +:+ ";base64," +:+ Image_Data image).

(** What the loop of [ordinaryMessage] has built. *)
Record chat_parts := {
  cp_text : string; cp_hasImage : bool; cp_parts : list ContentPart; cp_calls : list ToolCall
}.
Definition chat_parts0 : chat_parts :=
  {| cp_text := ""; cp_hasImage := false; cp_parts := []; cp_calls := [] |}.

Definition text_part (text : string) : ContentPart :=
  {| Part_Type := "text"; Part_Text := text; Part_ImageURL := None |}.
Definition image_part (url : string) : ContentPart :=
  {| Part_Type := "image_url"; Part_Text := "";
     Part_ImageURL := Some {| IU_URL := url; IU_Detail := "" |} |}.

Definition chat_part (role : string) (index : nat) (content : Content) (st : chat_parts)
    : error + chat_parts :=
  if eqs (Content_Type content) ContentText then
    mret {| cp_text := cp_text st +:+ Content_Text content; cp_hasImage := cp_hasImage st;
            cp_parts := cp_parts st ++ [text_part (Content_Text content)]; cp_calls := cp_calls st |}
  else if eqs (Content_Type content) ContentImage then
    _ ← require (eqs role RoleUser)
          (Errorf "content[%d]: images are only supported in user messages by OpenAI Chat"
             [AIdx index]);
    url ← on_error (λ e, Errorf "content[%d]: %w" [AIdx index; AWrap e])
            (imageURL (Content_Image content));
    mret {| cp_text := cp_text st; cp_hasImage := true;
            cp_parts := cp_parts st ++ [image_part url]; cp_calls := cp_calls st |}
  else if eqs (Content_Type content) ContentToolCall then
    let wrong := Errorf "content[%d]: invalid assistant tool call" [AIdx index] in
    _ ← require (eqs role RoleAssistant) wrong;
    call ← result_of (Content_ToolCall content) wrong;
    mret {| cp_text := cp_text st; cp_hasImage := cp_hasImage st; cp_parts := cp_parts st;
            cp_calls := cp_calls st ++ [function_call call] |}
  else
    inl (Errorf "content[%d]: unsupported %s content in %s message"
           [AIdx index; AStr (Content_Type content); AStr role]).

Definition ordinaryMessage (message : Message) : error + ChatMessage :=
  st ← range (chat_part (Message_Role message)) 0 (Message_Content message) chat_parts0;
  mret {| CM_Role := Message_Role message;
          CM_Content :=
            if cp_hasImage st then marshalRaw (JArr (part_json <$> cp_parts st))
            else if negb (eqs (cp_text st) "") || bool_decide (cp_calls st = [])
            then marshalRaw (JStr (cp_text st))
            else "null";
          CM_Name := ""; CM_ToolCalls := cp_calls st; CM_ToolCallID := "" |}.

Definition result_text (index nested : nat) (content : Content) (text : string) : error + string :=
  _ ← require (eqs (Content_Type content) ContentText)
        (Errorf "content[%d].tool_result.content[%d]: OpenAI Chat tool results only support text"
           [AIdx index; AIdx nested]);
  mret (text +:+ Content_Text content).

Definition toolMessage (index : nat) (content : Content) : error + ChatMessage :=
  let wrong := Errorf "content[%d]: tool messages may only contain tool results" [AIdx index] in
  _ ← require (eqs (Content_Type content) ContentToolResult) wrong;
  toolResult ← result_of (Content_ToolResult content) wrong;
  text ← range (result_text index) 0 (Result_Content toolResult) (Result_Result toolResult);
  mret {| CM_Role := RoleTool; CM_Content := marshalRaw (JStr text);
          CM_Name := Result_Name toolResult; CM_ToolCalls := [];
          CM_ToolCallID := Result_ToolCallID toolResult |}.

Definition toolMessages (message : Message) : error + list ChatMessage :=
  range_map toolMessage 0 (Message_Content message).

Definition chat_messages (index : nat) (message : Message) (acc : list ChatMessage)
    : error + list ChatMessage :=
  messages ← on_error (λ e, Errorf "messages[%d]: %w" [AIdx index; AWrap e])
    (if eqs (Message_Role message) RoleTool then toolMessages message
     else translated ← ordinaryMessage message; mret [translated]);
  mret (acc ++ messages).

Definition chat_tool (tool : Ir.Tool) : Tool := {|
  OT_Type := "function";
  OT_Function := {| FT_Name := Tool_Name tool; FT_Description := Tool_Description tool;
    FT_Parameters := Tool_InputSchema tool; FT_Strict := Tool_Strict tool |} |}.

(** A Go map is marshalled with its keys in order. *)
Definition choice_json (choice : ToolChoice) : error + json :=
  if plain_mode (Choice_Mode choice) then inr (JStr (Choice_Mode choice))
  else if eqs (Choice_Mode choice) "named" then
    inr (JObj [("function", JObj [("name", JStr (Choice_Name choice))]); ("type", JStr "function")])
  else inl (Errorf "unsupported tool choice mode %q" [AStr (Choice_Mode choice)]).

Definition chat_stop (stop : list string) : RawMessage :=
  match stop with
  | [] => ""
  | [s] => marshalRaw (JStr s)
  | _ => marshalRaw (JArr (JStr <$> stop))
  end.

Definition ToChatRequest (request : Request) : error + ChatCompletionRequest :=
  _ ← Request_Validate request;
  _ ← require (negb (Req_Stream request))
        (Errorf "streaming IR requests are not supported" []);
  _ ← require (bool_decide (Req_Metadata request = []))
        (Errorf "IR metadata cannot be preserved by OpenAI Chat" []);
  messages ← range chat_messages 0 (Req_Messages request) [];
  '(toolChoice, parallel) ←
    match Req_ToolChoice request with
    | None => inr ("", None)
    | Some choice =>
        value ← choice_json choice;
        mret (marshalRaw value, if Choice_DisableParallel choice then Some false else None)
    end;
  mret {|
    CR_Model := IR_UpstreamModel (Req_Route request); CR_Messages := messages;
    CR_MaxCompletionTokens := Req_MaxOutputTokens request; CR_MaxTokens := None;
    CR_Temperature := Req_Temperature request; CR_TopP := Req_TopP request;
    CR_Stop := chat_stop (Req_Stop request); CR_Tools := chat_tool <$> Req_Tools request;
    CR_ToolChoice := toolChoice; CR_N := None; CR_Stream := false; CR_StreamOptions := "";
    CR_FrequencyPenalty := None; CR_PresencePenalty := None; CR_Logprobs := None;
    CR_TopLogprobs := None; CR_LogitBias := ""; CR_ResponseFormat := ""; CR_Seed := None;
    CR_User := ""; CR_Metadata := []; CR_ParallelToolCalls := parallel |}.

(** *** [FromChatResponse] *)

Definition chat_finish (reason : string) : option string :=
  if eqs reason "stop" || eqs reason "" then Some FinishStop
  else if eqs reason "length" then Some FinishLength
  else if eqs reason "tool_calls" || eqs reason "function_call" then Some FinishToolCalls
  else if eqs reason "content_filter" then Some FinishContent
  else None.

Definition response_call (index : nat) (call : ToolCall) : error + Content :=
  let arguments := TCF_Arguments (TC_Function call) in
  _ ← require (eqs (TC_Type call) "function" && negb (eqs (TC_ID call) "") &&
               negb (eqs (TCF_Name (TC_Function call)) "") && isJSONObject arguments)
        (Errorf "OpenAI Chat tool_calls[%d] is invalid" [AIdx index]);
  mret (call_content {| Call_ID := TC_ID call; Call_Name := TCF_Name (TC_Function call);
                        Call_Arguments := arguments; Call_Signature := "" |}).

Definition optional_text (text : option string) : list Content :=
  match text with Some t => [text_content t] | None => [] end.

Definition FromChatResponse (response : ChatCompletionResponse) (request : Request)
    : error + Response :=
  let n := length (CC_Choices response) in
  match CC_Choices response with
  | [choice] =>
      let message := Ch_Message choice in
      _ ← require (Ch_Index choice =? 0)%Z
            (Errorf "OpenAI Chat returned unexpected choice index %d" [AInt (Ch_Index choice)]);
      _ ← require (eqs (AO_Role message) "" || eqs (AO_Role message) RoleAssistant)
            (Errorf "OpenAI Chat returned message role %q" [AStr (AO_Role message)]);
      finish ← result_of (chat_finish (Ch_FinishReason choice))
        (Errorf "OpenAI Chat returned unsupported finish_reason %q" [AStr (Ch_FinishReason choice)]);
      _ ← require (none (AO_Refusal message) || unset_or (λ t, eqs t "") (AO_Content message))
            (Errorf "OpenAI Chat returned both content and refusal" []);
      calls ← range_map response_call 0 (AO_ToolCalls message);
      let result := {|
        Resp_Version := Version; Resp_ID := Req_ID request;
        Resp_Model := IR_UpstreamModel (Req_Route request);
        Resp_Content := optional_text (AO_Content message) ++ optional_text (AO_Refusal message) ++ calls;
        Resp_FinishReason := if none (AO_Refusal message) then finish else FinishContent;
        Resp_StopSequence := "";
        Resp_Usage := {|
          InputTokens := PromptTokens (CC_Usage response);
          OutputTokens := CompletionTokens (CC_Usage response);
          CacheCreationInputTokens := 0;
          CachedInputTokens := default 0%Z (CachedTokens (CC_Usage response)) |};
        Resp_ProviderResponseID := CC_ID response |} in
      _ ← on_error (λ e, Errorf "invalid translated OpenAI Chat response: %w" [AWrap e])
            (Response_Validate result);
      mret result
  | _ =>
      inl (Errorf "OpenAI Chat returned %d choices; exactly one is required" [AIdx n])
  end.
