(* ===== verification/OpenAIFacts.v ===== *)
(** * The OpenAI Chat translations preserve meaning

    What a client asked for is what the upstream provider is asked for, and
    what the provider answered is what the client gets. *)

From Stdlib Require Import SpecFloat Ascii.
From S2P Require Import Prelude GoStd Json GoText Utf8 GoNet GoTime Errors Results Model Repository.
From S2P Require Import Ir IrFacts Decode OpenAI.

#[local] Arguments bool_decide : simpl never.

(** ** Printed values are read back *)

Lemma parseContent_text s role :
  valid_utf8 s = true → parseContent (marshalRaw (JStr s)) role = inr [text_content s].
Proof.
  intros Hs. unfold parseContent, marshalRaw. rewrite print_trim, print_set by done.
  change (starts_quote (print (JStr s))) with true. cbv iota zeta.
  by rewrite unmarshal_printed.
Qed.

(** ** Content parts *)

Definition url_text (url : option ImageURL) : Prop :=
  match url with
  | Some u => valid_utf8 (IU_URL u) = true ∧ valid_utf8 (IU_Detail u) = true
  | None => True
  end.
Definition part_text_ok (part : ContentPart) : Prop :=
  valid_utf8 (Part_Type part) = true ∧ valid_utf8 (Part_Text part) = true ∧
  url_text (Part_ImageURL part).

Lemma omitempty_wf name s : valid_utf8 name = true → valid_utf8 s = true →
  Forall (λ kv, valid_utf8 kv.1 = true ∧ wf_json kv.2) (omitempty name s).
Proof. intros Hn Hs. unfold omitempty. destruct (eqs s ""); by repeat constructor. Qed.

Lemma part_json_wf part : part_text_ok part → wf_json (part_json part).
Proof.
  intros (Ht & Hx & Hu). unfold part_json. constructor. constructor; [by repeat constructor|].
  apply list.Forall_app. split; [by apply omitempty_wf|].
  destruct (Part_ImageURL part) as [u|]; [|constructor]. destruct Hu as [Hu Hd].
  constructor; [|constructor]. split; [done|]. cbn. constructor.
  constructor; [by repeat constructor|by apply omitempty_wf].
Qed.

Lemma dec_part_json part : dec_part (part_json part) = Some part.
Proof.
  destruct part as [type text [[url detail]|]]; unfold part_json, omitempty;
    cbn [Part_Type Part_Text Part_ImageURL IU_URL IU_Detail].
  - unfold eqs. destruct (bool_decide (text = "")) eqn:E1, (bool_decide (detail = "")) eqn:E2;
      rewrite ?bool_decide_eq_true in E1; rewrite ?bool_decide_eq_true in E2; subst; reflexivity.
  - unfold eqs. destruct (bool_decide (text = "")) eqn:E1; rewrite ?bool_decide_eq_true in E1;
      subst; reflexivity.
Qed.

Lemma dec_image_url_ok current j u :
  url_text (Some current) → wf_json j → dec_image_url current j = Some u → url_text (Some u).
Proof.
  intros [Hu Hd] Hj H. unfold dec_image_url in H.
  apply bind_some in H as (m & Hm & H). apply struct_members_ok in Hm; [|done].
  apply bind_some in H as (url & Hurl & H). apply bind_some in H as (detail & Hdet & [= <-]).
  split; cbn [IU_URL IU_Detail];
    [by eapply string_into_valid, Hurl|by eapply string_into_valid, Hdet].
Qed.

Lemma dec_part_ok j part : wf_json j → dec_part j = Some part → part_text_ok part.
Proof.
  intros Hj H. unfold dec_part in H.
  apply bind_some in H as (m & Hm & H). apply struct_members_ok in Hm; [|done].
  apply bind_some in H as (type & Htype & H). apply bind_some in H as (text & Htext & H).
  apply bind_some in H as (image & Himage & [= <-]).
  split_and!; [by eapply string_into_valid, Htype|by eapply string_into_valid, Htext|].
  cbn [Part_ImageURL].
  assert (Forall wf_json (field_values "image_url" m)) as Hv.
  { clear -Hm. unfold field_values. induction Hm as [|[k v] m [_ Hkv] Hm IH]; [constructor|].
    cbn. destruct (EqualFold k "image_url"); cbn; [by constructor|done]. }
  assert (url_text None) as Hnone by done. revert Himage Hnone. generalize (@None ImageURL).
  induction Hv as [|v vs Hv Hvs IH]; intros current Hdec Hcur; cbn in Hdec; [by injection Hdec as <-|].
  assert ((x ← dec_image_url (default {| IU_URL := ""; IU_Detail := "" |} current) v;
    decode_pointer dec_image_url {| IU_URL := ""; IU_Detail := "" |} (Some x) vs) = Some image →
    url_text image) as Hstep.
  { intros H. apply bind_some in H as (x & Hx & H). eapply IH; [exact H|].
    eapply dec_image_url_ok; [|exact Hv|exact Hx]. by destruct current. }
  destruct Hv; try exact (Hstep Hdec). by eapply IH.
Qed.

Lemma dec_parts_ok j parts : wf_json j → dec_array dec_part j = Some parts → Forall part_text_ok parts.
Proof.
  destruct 1 as [| | | |l Hl|]; cbn; try done; [intros [= <-]; constructor|].
  revert parts. induction Hl as [|v l Hv Hl IH]; intros parts; cbn; [intros [= <-]; constructor|].
  intros (part & Hp & (parts' & Hps & [= <-])%bind_some)%bind_some.
  constructor; [by eapply dec_part_ok|by apply IH].
Qed.

Lemma dec_parts_json parts : dec_array dec_part (JArr (part_json <$> parts)) = Some parts.
Proof.
  cbn [dec_array]. induction parts as [|p parts IH]; [done|]. cbn [fmap list_fmap dec_list].
  by rewrite dec_part_json, IH.
Qed.

(** A printed list of parts. *)
Lemma parseContent_parts parts role :
  Forall part_text_ok parts →
  parseContent (marshalRaw (JArr (part_json <$> parts))) role = range_map (parsePart role) 0 parts.
Proof.
  intros Hp. unfold parseContent, marshalRaw. rewrite print_trim, print_set by done.
  change (starts_quote (print (JArr (part_json <$> parts)))) with false. cbv iota zeta.
  unfold decodeStrictJSON. rewrite parse_print.
  - cbn [mbind option_bind]. by rewrite dec_parts_json.
  - constructor. apply list.Forall_fmap. eapply list.Forall_impl; [exact Hp|]. apply part_json_wf.
Qed.

(** ** What the ingress translation produces *)

(** An image and the text it was parsed from. *)
Record image_from (image : Image) (raw : string) : Prop := {
  if_parse : parseImage raw = inr image;
  if_valid : valid_utf8 raw = true;
  if_set : raw ≠ ""
}.

Lemma imageURL_from image raw :
  image_from image raw → image_ok image → imageURL (Some image) = inr raw.
Proof.
  intros [Hp _ Hne] Hok. unfold parseImage in Hp.
  destruct (CutPrefix "data:" raw) as [rest|] eqn:Hc.
  - apply CutPrefix_app in Hc as ->. apply bind_ok in Hp as ([meta data] & Hcut & Hp).
    apply result_of_ok, Cut_split in Hcut as ->.
    apply check_then in Hp as [Hs%TrimSuffix_split Hp]. apply check_then in Hp as [_ Hp].
    apply check_then in Hp as [Hd [= <-]].
    destruct Hok as [(? & _)|(_ & Hm & Hdata & _)]; [done|]. cbn in Hm, Hdata.
    cbn. unfold eqs at 1. rewrite bool_decide_eq_true_2 by done. cbn [negb].
    apply check_then. split.
    + apply andb_true_iff. split; apply eqs_false; [by intros E; rewrite E in Hm|done].
    + apply check_then. split; [done|]. f_equal. rewrite Hs at 2.
      by rewrite !string_app_assoc.
  - apply bind_ok in Hp as (u & _ & [_ [= <-]]%check_then). cbn.
    unfold eqs. by rewrite bool_decide_eq_false_2.
Qed.

(** A part that [parseContent] gives. *)
Inductive parsed (role : string) : Content → Prop :=
| parsed_text text : valid_utf8 text = true → parsed role (text_content text)
| parsed_image image raw :
    role = RoleUser → image_from image raw → parsed role (image_content image).

Lemma parsePart_parsed role i part content :
  part_text_ok part → parsePart role i part = inr content → parsed role content.
Proof.
  intros (_ & Ht & Hu). unfold parsePart. case_eqs; [|case_eqs]; [| |done].
  - intros [_ [= <-]]%check_then. by constructor.
  - intros [Hr [_ H]%check_then]%check_then. apply eqs_true in Hr.
    apply bind_ok in H as (u & Hu' & [Hne%eqs_false [_ H]%check_then]%check_then).
    apply result_of_ok in Hu'. rewrite Hu' in Hu. destruct Hu as [Hv _].
    apply bind_ok in H as (image & Hi%on_error_ok & [= <-]).
    by eapply parsed_image.
Qed.

Lemma parseContent_parsed raw role contents :
  parseContent raw role = inr contents → Forall (parsed role) contents.
Proof.
  unfold parseContent. destruct (raw_unset _); [intros [= <-]; constructor|].
  destruct (starts_quote _).
  - intros (text & Ht & [= <-])%bind_ok. constructor; [|constructor]. constructor.
    unfold unmarshal_string in Ht. apply result_of_ok, bind_some in Ht as (j & Hj & Hd).
    apply parse_wf in Hj. destruct Hj; try done. by injection Hd as <-.
  - intros (parts & Hp%on_error_ok & Hr)%bind_ok.
    unfold decodeStrictJSON in Hp. apply result_of_ok, bind_some in Hp as (j & Hj & Hd).
    apply parse_wf in Hj. pose proof (dec_parts_ok _ _ Hj Hd) as Hok.
    apply range_map_ok in Hr as [Hl Hr]. apply list.Forall_lookup. intros k c Hc.
    destruct (lookup_lt_is_Some_2 parts k) as [p Hpk].
    { rewrite <- Hl. by apply lookup_lt_Some in Hc. }
    eapply parsePart_parsed; [|by eapply Hr]. by eapply list.Forall_lookup_1.
Qed.

(** ** What the adapter sends for such parts *)

Definition is_image (c : Content) : bool := eqs (Content_Type c) ContentImage.
Definition has_image (l : list Content) : bool := existsb is_image l.
(** The text of a sequence of parts. *)
Fixpoint spoken (l : list Content) : string :=
  match l with [] => "" | c :: l' => Content_Text c +:+ spoken l' end.
(** Adjacent texts say what their concatenation says. *)
Definition view (l : list Content) : list Content :=
  if has_image l then l else [text_content (spoken l)].

(** The wire part of a content part. *)
Inductive sent (role : string) : Content → ContentPart → Prop :=
| sent_text text : valid_utf8 text = true → sent role (text_content text) (text_part text)
| sent_image image raw :
    role = RoleUser → image_from image raw → sent role (image_content image) (image_part raw).

Lemma sent_ok role c p : sent role c p → part_text_ok p ∧ ∀ i, parsePart role i p = inr c.
Proof.
  destruct 1 as [text Ht|image raw -> [Hp Hv Hne]].
  - split; [by split_and!|done].
  - split; [by split_and!|]. intros i. unfold parsePart. cbn -[eqs].
    change (eqs "image_url" "text") with false. change (eqs "image_url" "image_url") with true.
    cbn -[eqs]. change (eqs "" "") with true. cbn -[eqs].
    unfold eqs. rewrite bool_decide_eq_false_2 by done. cbn. by rewrite Hp.
Qed.

Lemma sent_content role l parts :
  Forall2 (sent role) l parts →
  parseContent (marshalRaw (JArr (part_json <$> parts))) role = inr l.
Proof.
  intros Hs. rewrite parseContent_parts.
  - apply range_map_ok. split; [by eapply list.Forall2_length|]. intros k p c Hp Hc.
    by apply (sent_ok role), (list.Forall2_lookup_lr _ _ _ _ _ _ Hs Hc Hp).
  - clear -Hs. induction Hs; [constructor|]. constructor; [|done]. by eapply sent_ok.
Qed.

Definition add_part (st : chat_parts) (text : string) (image : bool) (part : ContentPart) : chat_parts :=
  {| cp_text := cp_text st +:+ text; cp_hasImage := cp_hasImage st || image;
     cp_parts := cp_parts st ++ [part]; cp_calls := cp_calls st |}.

Lemma chat_part_sent role c : parsed role c → content_ok c →
  ∃ p, sent role c p ∧
    ∀ i st, chat_part role i c st = inr (add_part st (Content_Text c) (is_image c) p).
Proof.
  destruct 1 as [text Ht|image raw -> Hi]; intros Hok.
  - exists (text_part text). split; [by constructor|]. intros i [x im ps cs].
    unfold add_part. cbn [cp_hasImage is_image]. by rewrite orb_false_r.
  - inversion Hok as [? Hpl| |]; subst. inversion Hpl as [|? Hiok]; subst.
    exists (image_part raw). split; [by econstructor|]. intros i [x im ps cs].
    unfold chat_part, add_part. cbn [Content_Type Content_Image image_content Content_Text].
    rewrite (imageURL_from _ _ Hi Hiok). cbn [cp_hasImage cp_text is_image].
    by rewrite orb_true_r, string_app_nil_r.
Qed.

Lemma range_chat_parts role l :
  Forall (parsed role) l → Forall content_ok l →
  ∃ parts, Forall2 (sent role) l parts ∧ ∀ i st,
    range (chat_part role) i l st = inr {|
      cp_text := cp_text st +:+ spoken l; cp_hasImage := cp_hasImage st || has_image l;
      cp_parts := cp_parts st ++ parts; cp_calls := cp_calls st |}.
Proof.
  intros Hp. induction Hp as [|c l Hc Hl IH]; intros Hok.
  - exists []. split; [constructor|]. intros i st. cbn [range spoken has_image existsb].
    rewrite string_app_nil_r, orb_false_r, app_nil_r. by destruct st.
  - inversion Hok as [|?? Hcok Hlok]; subst. destruct (IH Hlok) as (parts & Hs & Hr).
    destruct (chat_part_sent role c Hc Hcok) as (p & Hcp & Hstep).
    exists (p :: parts). split; [by constructor|]. intros i st. cbn [range]. rewrite Hstep.
    cbn [mbind result_bind]. rewrite Hr. unfold add_part. cbn [cp_text cp_hasImage cp_parts cp_calls].
    cbn [spoken has_image existsb]. by rewrite string_app_assoc, orb_assoc, <- app_assoc.
Qed.

Lemma range_chat_calls role calls i st :
  role = RoleAssistant →
  range (chat_part role) i (call_content <$> calls) st = inr {|
    cp_text := cp_text st; cp_hasImage := cp_hasImage st; cp_parts := cp_parts st;
    cp_calls := cp_calls st ++ (function_call <$> calls) |}.
Proof.
  intros ->. revert i st. induction calls as [|call calls IH]; intros i st.
  - cbn. rewrite app_nil_r. by destruct st.
  - cbn [fmap list_fmap range].
    assert (chat_part RoleAssistant i (call_content call) st = inr {|
      cp_text := cp_text st; cp_hasImage := cp_hasImage st; cp_parts := cp_parts st;
      cp_calls := cp_calls st ++ [function_call call] |}) as -> by reflexivity.
    cbn [mbind result_bind]. rewrite IH. cbn [cp_text cp_hasImage cp_parts cp_calls].
    by rewrite <- app_assoc.
Qed.

Lemma spoken_valid role l : Forall (parsed role) l → valid_utf8 (spoken l) = true.
Proof.
  induction 1 as [|c l Hc Hl IH]; [done|]. cbn [spoken]. apply valid_utf8_app; [|done].
  by destruct Hc.
Qed.

(** The content of the wire message says what the parts say. *)
Lemma ordinaryMessage_ok role cs calls :
  Forall (parsed role) cs → Forall content_ok cs → (calls = [] ∨ role = RoleAssistant) →
  ∃ u, ordinaryMessage {| Message_Role := role; Message_Content := cs ++ (call_content <$> calls) |}
      = inr u ∧
    CM_Role u = role ∧ CM_Name u = "" ∧ CM_ToolCallID u = "" ∧ CM_ToolCalls u = function_call <$> calls ∧
    ∃ cu, parseContent (CM_Content u) role = inr cu ∧ view cu = view cs.
Proof.
  intros Hp Hok Hcalls. destruct (range_chat_parts role cs Hp Hok) as (parts & Hs & Hr).
  unfold ordinaryMessage. cbn [Message_Role Message_Content]. rewrite range_app, Hr.
  cbn [mbind result_bind].
  assert (∀ i st, range (chat_part role) i (call_content <$> calls) st = inr {|
    cp_text := cp_text st; cp_hasImage := cp_hasImage st; cp_parts := cp_parts st;
    cp_calls := cp_calls st ++ (function_call <$> calls) |}) as Hc.
  { intros i st. destruct Hcalls as [->|Ha]; [|by apply range_chat_calls].
    cbn. rewrite app_nil_r. by destruct st. }
  rewrite Hc. eexists. split; [reflexivity|].
  cbn [cp_text cp_hasImage cp_parts cp_calls chat_parts0 CM_Role CM_Name CM_ToolCallID CM_ToolCalls
    CM_Content orb app].
  rewrite string_app_nil_l. split_and!; try done.
  destruct (has_image cs) eqn:Hi; [exists cs; split; [by apply sent_content|done]|].
  destruct (negb (eqs (spoken cs) "") || bool_decide (function_call <$> calls = [])) eqn:Et.
  - exists [text_content (spoken cs)]. split; [by eapply parseContent_text, spoken_valid|].
    unfold view. rewrite Hi. cbn. by rewrite string_app_nil_r.
  - apply orb_false_iff in Et as [Et _]. apply negb_false_iff, eqs_true in Et.
    exists []. split; [reflexivity|]. unfold view. by rewrite Hi, Et.
Qed.

Lemma range_result_text index role l i text :
  role ≠ RoleUser → Forall (parsed role) l →
  range (result_text index) i l text = inr (text +:+ spoken l).
Proof.
  intros Hr Hp. revert i text. induction Hp as [|c l Hc Hl IH]; intros i text.
  - cbn. by rewrite string_app_nil_r.
  - destruct Hc as [t Ht|]; [|done]. cbn [range].
    assert (result_text index i (text_content t) text = inr (text +:+ t)) as -> by reflexivity.
    cbn [mbind result_bind]. rewrite IH. cbn [spoken Content_Text text_content].
    by rewrite string_app_assoc.
Qed.

Lemma has_image_plain role l : role ≠ RoleUser → Forall (parsed role) l → has_image l = false.
Proof. intros Hr. induction 1 as [|c l [] Hl IH]; by rewrite ?IH. Qed.

Lemma toolMessage_ok id name cs index :
  Forall (parsed RoleTool) cs →
  ∃ u, toolMessage index (result_content (MkToolResult id name cs "" false)) = inr u ∧
    CM_Role u = RoleTool ∧ CM_Name u = name ∧ CM_ToolCallID u = id ∧ CM_ToolCalls u = [] ∧
    ∃ cu, parseContent (CM_Content u) RoleTool = inr cu ∧ view cu = view cs.
Proof.
  intros Hp. unfold toolMessage. cbn [Content_Type Content_ToolResult result_content]. rewrite eqs_refl.
  cbn [require result_of mbind result_bind Result_Content Result_Result Result_Name Result_ToolCallID].
  rewrite (range_result_text index RoleTool) by done. cbn [mbind result_bind].
  eexists. split; [reflexivity|]. cbn. split_and!; try done. exists [text_content (spoken cs)].
  split; [by eapply parseContent_text, spoken_valid|].
  unfold view. rewrite (has_image_plain RoleTool cs) by done. cbn. by rewrite string_app_nil_r.
Qed.

(** ** Messages *)

(** The upstream message carries the role, the content, the calls and the
    answered call of the client's. *)
Record same_message (client upstream : ChatMessage) : Prop := {
  sm_role : CM_Role upstream = ir_role (CM_Role client);
  sm_calls : CM_ToolCalls upstream = CM_ToolCalls client;
  sm_answers : CM_ToolCallID upstream = CM_ToolCallID client;
  sm_content : ∃ cc cu, parseContent (CM_Content client) (ir_role (CM_Role client)) = inr cc ∧
    parseContent (CM_Content upstream) (CM_Role upstream) = inr cu ∧ view cu = view cc
}.

(** The message of the protocol that a client's message becomes. *)
Definition translated (m : ChatMessage) (im : Message) : Prop :=
  let role := ir_role (CM_Role m) in
  CM_Name m = "" ∧ Message_Role im = role ∧ known_role role = true ∧
  (role = RoleAssistant ∨ CM_ToolCalls m = []) ∧ (role = RoleTool ∨ CM_ToolCallID m = "") ∧
  ∃ cs, parseContent (CM_Content m) role = inr cs ∧
    ((role = RoleTool ∧ ∃ name, Message_Content im =
        [result_content (MkToolResult (CM_ToolCallID m) name cs "" false)]) ∨
     (role ≠ RoleTool ∧ ∃ calls, Message_Content im = cs ++ (call_content <$> calls) ∧
        function_call <$> calls = CM_ToolCalls m)).

Lemma translate_call_ok mi ti call ic :
  translate_call mi ti call = inr ic → function_call ic = call.
Proof.
  unfold translate_call. intros [Hc [_ [= <-]]%check_then]%check_then.
  apply andb_true_iff in Hc as [[Ht _]%andb_true_iff _]. apply eqs_true in Ht.
  destruct call as [id type [name args]]. cbn in *. by subst.
Qed.

Lemma message_contents_ok mi m names contents names' :
  CM_Name m = "" → known_role (ir_role (CM_Role m)) = true →
  (ir_role (CM_Role m) = RoleAssistant ∨ CM_ToolCalls m = []) →
  (ir_role (CM_Role m) = RoleTool ∨ CM_ToolCallID m = "") →
  message_contents mi (ir_role (CM_Role m)) m names = inr (contents, names') →
  translated m {| Message_Role := ir_role (CM_Role m); Message_Content := contents |}.
Proof.
  intros Hn Hk Ha Ht H. unfold message_contents in H.
  apply bind_ok in H as (cs & Hcs%on_error_ok & H). unfold translated.
  split_and!; try done. exists cs. split; [done|]. cbn [Message_Content].
  destruct (eqs (ir_role (CM_Role m)) RoleAssistant) eqn:E1.
  - apply bind_ok in H as (calls & Hcalls & [= <- <-]). right. apply eqs_true in E1.
    split; [by rewrite E1|]. exists calls. split; [done|].
    apply range_map_ok in Hcalls as [Hl Hc]. apply list_eq_same_length with (length calls);
      [done|by rewrite length_fmap|]. intros k x y Hlt Hx Hy.
    rewrite list_lookup_fmap in Hx. destruct (calls !! k) as [c|] eqn:Ec; [|done].
    injection Hx as <-. by eapply translate_call_ok, Hc.
  - destruct (eqs (ir_role (CM_Role m)) RoleTool) eqn:E2.
    + apply check_then in H as [_ H]. apply bind_ok in H as (name & _ & [= <- <-]).
      apply eqs_true in E2. left. split; [done|]. by exists name.
    + injection H as <- <-. apply bool_decide_eq_false in E1, E2. right. split; [done|].
      exists []. cbn. rewrite app_nil_r. split; [done|]. by destruct Ha as [?| ->].
Qed.

Lemma range_translated ms st :
  range translate_message 0 ms translation0 = inr st → Forall2 translated ms (tl_messages st).
Proof.
  revert st. apply (range_ok _ (λ done st, Forall2 translated done (tl_messages st))); [constructor|].
  intros ds m st st' Hst H. unfold translate_message in H.
  apply check_then in H as [Hn%eqs_true H]. apply check_then in H as [Hk H].
  apply check_then in H as [Ha%orb_true_iff H]. apply check_then in H as [Ht%orb_true_iff H].
  apply bind_ok in H as ([contents names] & Hc & [_ [= <-]]%check_then). cbn [tl_messages].
  apply Forall2_app; [done|]. constructor; [|constructor].
  eapply message_contents_ok; try done.
  - destruct Ha as [?%eqs_true|?%bool_decide_eq_true]; auto.
  - destruct Ht as [?%eqs_true|?%eqs_true]; auto.
Qed.

Lemma chat_messages_ok i m im acc :
  translated m im → Forall content_ok (Message_Content im) →
  ∃ u, chat_messages i im acc = inr (acc ++ [u]) ∧ same_message m u.
Proof.
  intros (Hn & Hr & Hk & Ha & Ht & cs & Hcs & Hc) Hok. unfold chat_messages.
  pose proof (parseContent_parsed _ _ _ Hcs) as Hp. destruct im as [role content]. cbn in Hr, Hc, Hok.
  subst role. cbn [Message_Role Message_Content].
  destruct Hc as [[Htool (name & ->)]|[Hnt (calls & -> & Hcalls)]].
  - rewrite Htool, eqs_refl. destruct (toolMessage_ok (CM_ToolCallID m) name cs 0) as
      (u & Hu & Hur & Hun & Hui & Huc & cu & Hcu & Hv); [by rewrite <- Htool|].
    unfold toolMessages. cbn [Message_Content range_map]. rewrite Hu. exists u. split; [done|].
    constructor; [by rewrite Htool| |done|].
    + rewrite Huc. destruct Ha as [Ha| ->]; [by rewrite Htool in Ha|done].
    + exists cs, cu. by rewrite Hur.
  - assert (eqs (ir_role (CM_Role m)) RoleTool = false) as -> by by apply bool_decide_eq_false.
    apply list.Forall_app in Hok as [Hok _].
    destruct (ordinaryMessage_ok (ir_role (CM_Role m)) cs calls Hp Hok) as
      (u & Hu & Hur & Hun & Hui & Huc & cu & Hcu & Hv).
    { destruct Ha as [Ha|Ha]; [auto|]. left. rewrite Ha in Hcalls. by destruct calls. }
    rewrite Hu. exists u. split; [done|]. constructor; [done|by rewrite Huc| |].
    + rewrite Hui. by destruct Ht.
    + exists cs, cu. by rewrite Hur.
Qed.

Lemma range_chat_messages ms ims i acc :
  Forall2 translated ms ims → Forall (λ im, Forall content_ok (Message_Content im)) ims →
  ∃ us, range chat_messages i ims acc = inr (acc ++ us) ∧ Forall2 same_message ms us.
Proof.
  intros H. revert i acc. induction H as [|m im ms ims Hm Hms IH]; intros i acc Hok.
  - exists []. rewrite app_nil_r. split; [done|constructor].
  - inversion Hok as [|?? H1 H2]; subst. destruct (chat_messages_ok i m im acc Hm H1) as (u & Hu & Hs).
    destruct (IH (S i) (acc ++ [u]) H2) as (us & Hus & Hss). exists (u :: us).
    cbn [range]. rewrite Hu. cbn [mbind result_bind]. rewrite Hus, <- app_assoc.
    split; [done|by constructor].
Qed.

(** ** Stop sequences, tools and the tool choice *)

Lemma json_strings_valid l ss :
  Forall wf_json l → json_strings l = Some ss → Forall (λ s, valid_utf8 s = true) ss.
Proof.
  intros Hl. revert ss. induction Hl as [|j l Hj Hl IH]; intros ss; cbn; [intros [= <-]; constructor|].
  destruct Hj; try done; destruct (json_strings l) as [ss'|]; try done; intros [= <-];
    by constructor; [|apply IH].
Qed.

Lemma parseStop_valid raw ss :
  parseStop raw = inr ss → Forall (λ s, valid_utf8 s = true) ss.
Proof.
  unfold parseStop. destruct (raw_unset _); [intros [= <-]; constructor|].
  destruct (starts_quote _).
  - intros (s & Hs%unmarshal_valid & [= <-])%bind_ok. by constructor; [|constructor].
  - intros (j & Hj & Hd)%result_of_ok%bind_some. apply parse_wf in Hj.
    destruct Hj; try done; [injection Hd as <-; constructor|]. by eapply json_strings_valid.
Qed.

Lemma parseStop_chat_stop ss :
  Forall (λ s, valid_utf8 s = true) ss → parseStop (chat_stop ss) = inr ss.
Proof.
  intros Hss. destruct Hss as [|s ss Hs [|s' ss' Hs' Hss]]; [reflexivity| |];
    unfold parseStop, chat_stop, marshalRaw; rewrite print_trim, print_set by done.
  - change (starts_quote (print (JStr s))) with true. cbv iota zeta. by rewrite unmarshal_printed.
  - change (starts_quote (print (JArr (JStr <$> s :: s' :: ss')))) with false. cbv iota zeta.
    rewrite parse_print.
    + cbn [mbind option_bind dec_strings].
      change (JStr <$> s :: s' :: ss') with (map JStr (s :: s' :: ss')). by rewrite json_strings_map.
    + constructor. apply list.Forall_fmap. repeat (constructor; [by constructor|]).
      eapply list.Forall_impl; [exact Hss|]. intros x Hx. by constructor.
Qed.

(** The tool the provider is given: the client's, with the empty schema for a
    missing one. *)
Definition sent_tool (t : Tool) : Tool := {|
  OT_Type := OT_Type t;
  OT_Function := {| FT_Name := FT_Name (OT_Function t);
    FT_Description := FT_Description (OT_Function t);
    FT_Parameters := schema_of (FT_Parameters (OT_Function t));
    FT_Strict := FT_Strict (OT_Function t) |} |}.

Lemma range_tools ts tools names :
  range translate_tool 0 ts ([], ∅) = inr (tools, names) → chat_tool <$> tools = sent_tool <$> ts.
Proof.
  intros H. apply (range_ok translate_tool (λ done st, chat_tool <$> st.1 = sent_tool <$> done))
    in H; [done|done|]. clear. intros ds t [tools names] st' IH H. cbn [fst] in IH. unfold translate_tool in H.
  apply check_then in H as [[Ht _]%andb_true_iff H]. apply check_then in H as [_ [_ [= <-]]%check_then].
  cbn [fst]. rewrite !fmap_app, IH. f_equal. apply eqs_true in Ht. unfold sent_tool.
  by destruct t as [type []]; cbn in *; subst.
Qed.

Definition has_tools (request : ChatCompletionRequest) : bool :=
  negb (bool_decide (CR_Tools request = [])).

(** The choice among tools a chat request makes. *)
Definition chat_choice (request : ChatCompletionRequest) : error + option ToolChoice :=
  choice ← parseToolChoice (CR_ToolChoice request) (has_tools request);
  mret (disable_parallel request (has_tools request) choice).

(** Choices the adapter can send. *)
Definition sendable (hasTools : bool) (c : ToolChoice) : Prop :=
  hasTools = true ∧
  ((plain_mode (Choice_Mode c) = true ∧ Choice_Name c = "") ∨
   (Choice_Mode c = "named" ∧ Choice_Name c ≠ "" ∧ valid_utf8 (Choice_Name c) = true)).

Lemma dec_tool_choice_valid j type name :
  wf_json j → dec_tool_choice j = Some (type, name) → valid_utf8 name = true.
Proof.
  intros Hj H. unfold dec_tool_choice in H. apply bind_some in H as (m & Hm & H).
  apply struct_members_ok in Hm; [|done]. apply bind_some in H as (ty & _ & H).
  apply bind_some in H as (nm & Hn & [= <- <-]). apply (struct_field_ok "function") in Hm.
  assert (Hc : ∀ n, Some "" = Some n → valid_utf8 n = true) by by intros n [= <-].
  revert Hn Hc. generalize (Some ""). induction Hm as [|v vs Hv Hvs IH]; intros o; cbn [foldl].
  - intros Hn Hc. by apply Hc.
  - intros Hn Hc. eapply IH; [exact Hn|]. intros n Hn'.
    apply bind_some in Hn' as (n0 & Hn0 & Hn'). apply bind_some in Hn' as (f & Hf & Hn').
    apply struct_members_ok in Hf; [|done]. eapply string_into_valid, Hn'; [by apply Hc|done].
Qed.

Lemma parseToolChoice_sendable raw hasTools c :
  parseToolChoice raw hasTools = inr (Some c) →
  sendable hasTools c ∧ c = mode_choice (Choice_Mode c) (Choice_Name c).
Proof.
  unfold parseToolChoice, sendable. destruct (raw_unset _); [done|]. destruct (starts_quote _).
  - intros (mode & _ & H)%bind_ok. destruct (eqs mode "none") eqn:En.
    + apply eqs_true in En as ->. destruct hasTools; [|done]. injection H as <-. by auto.
    + destruct (eqs mode "auto" || eqs mode "required") eqn:Ea; [|done].
      apply check_then in H as [-> [= <-]]. split; [|done]. split; [done|]. left. split; [|done].
      by apply orb_true_iff in Ea as [->%eqs_true| ->%eqs_true].
  - intros ([type name] & Hd & H)%bind_ok. apply check_then in H as [[_ Hn]%andb_true_iff H].
    apply check_then in H as [-> [= <-]]. split; [|done]. split; [done|]. right. split; [done|].
    split; [by apply eqs_false|]. unfold decodeStrictJSON in Hd.
    apply result_of_ok, bind_some in Hd as (j & Hj & Hd).
    eapply dec_tool_choice_valid; [by eapply parse_wf|exact Hd].
Qed.

Lemma choice_read_back c :
  sendable true c → ∃ v, choice_json c = inr v ∧
    parseToolChoice (marshalRaw v) true = inr (Some (mode_choice (Choice_Mode c) (Choice_Name c))).
Proof.
  destruct c as [mode name dis]. unfold sendable, choice_json. cbn [Choice_Mode Choice_Name].
  intros [_ [[Hp ->]|(-> & Hn & Hv)]].
  - rewrite Hp. exists (JStr mode). split; [done|]. unfold plain_mode in Hp.
    apply bool_decide_eq_true in Hp.
    repeat (apply elem_of_cons in Hp as [->|Hp]; [reflexivity|]). by apply elem_of_nil in Hp.
  - eexists. split; [reflexivity|]. unfold parseToolChoice, marshalRaw.
    rewrite print_trim, print_set by done.
    match goal with |- context [starts_quote ?t] => change (starts_quote t) with false end.
    cbv iota zeta. unfold decodeStrictJSON. rewrite parse_print.
    + assert (dec_tool_choice (JObj [("function", JObj [("name", JStr name)]); ("type", JStr "function")])
        = Some ("function", name)) as E by reflexivity.
      cbn [mbind option_bind]. rewrite E. cbn -[eqs].
      assert (eqs name "" = false) as -> by by apply bool_decide_eq_false.
      by change (eqs "function" "function") with true.
    + repeat constructor; done.
Qed.

(** ** The theorems *)

Lemma ToIR_ok req route id r :
  ToIR req route id = inr r →
  valid_request r ∧ Req_Metadata r = [] ∧ IR_UpstreamModel (Req_Route r) = Route_UpstreamModel route ∧
  IR_ProviderID (Req_Route r) = Route_ProviderID route ∧ Req_ID r = id ∧
  max_tokens req = inr (Req_MaxOutputTokens r) ∧
  Req_Temperature r = CR_Temperature req ∧ Req_TopP r = CR_TopP req ∧
  parseStop (CR_Stop req) = inr (Req_Stop r) ∧
  Forall2 translated (CR_Messages req) (Req_Messages r) ∧
  chat_tool <$> Req_Tools r = sent_tool <$> CR_Tools req ∧
  chat_choice req = inr (Req_ToolChoice r).
Proof.
  unfold ToIR. intros H. apply check_then in H as [_ H]. apply check_then in H as [_ H].
  apply bind_ok in H as (_ & _ & H). apply bind_ok in H as (mt & Hmt & H).
  apply check_then in H as [_ H]. apply check_then in H as [_ H].
  apply bind_ok in H as (stops & Hstops%on_error_ok & H).
  apply bind_ok in H as (st & Hst%range_translated & H).
  apply bind_ok in H as ([tools names] & Htools%range_tools & H).
  apply bind_ok in H as (choice & Hchoice%on_error_ok & H). apply check_then in H as [_ H].
  apply bind_ok in H as ([] & Hv%on_error_ok%Request_Validate_ok & [= <-]).
  cbn [Req_Metadata Req_Route Req_ID Req_MaxOutputTokens Req_Temperature Req_TopP Req_Stop Req_Messages
    Req_Tools Req_ToolChoice IR_UpstreamModel IR_ProviderID].
  split_and!; try done. unfold chat_choice.
  assert (has_tools req = negb (bool_decide (tools = []))) as E.
  { unfold has_tools. f_equal. apply bool_decide_ext. apply (f_equal length) in Htools.
    rewrite !length_fmap in Htools. by destruct tools, (CR_Tools req). }
  by rewrite E, Hchoice.
Qed.

(** The choice of an accepted request, from the one its text made. *)
Definition parallel_off (c : option ToolChoice) : ToolChoice :=
  {| Choice_Mode := Choice_Mode (default (mode_choice "auto" "") c);
     Choice_Name := Choice_Name (default (mode_choice "auto" "") c); Choice_DisableParallel := true |}.
Definition chosen (hasTools : bool) (c0 c : option ToolChoice) : Prop :=
  (∀ c', c0 = Some c' → sendable hasTools c' ∧ c' = mode_choice (Choice_Mode c') (Choice_Name c')) ∧
  (c = c0 ∨ hasTools = true ∧ c = Some (parallel_off c0)).

Lemma chat_choice_chosen req c :
  chat_choice req = inr c → ∃ c0, chosen (has_tools req) c0 c.
Proof.
  unfold chat_choice. intros (c0 & Hc0 & [= <-])%bind_ok. exists c0. split.
  - intros c' ->. by eapply parseToolChoice_sendable.
  - unfold disable_parallel. destruct (CR_ParallelToolCalls req) as [[]|], (has_tools req); auto.
Qed.

Lemma parallel_off_sendable c0 c :
  chosen true c0 c → sendable true (parallel_off c0).
Proof.
  intros [Hs _]. destruct c0 as [c'|]; [by destruct (Hs c' eq_refl) as [[_ H] _]|].
  split; [done|by left].
Qed.

Lemma chosen_sendable hasTools c0 c : chosen hasTools c0 (Some c) → sendable hasTools c.
Proof.
  intros Hc. pose proof Hc as [Hs [E|[-> [= ->]]]]; [by apply Hs|by eapply parallel_off_sendable].
Qed.

(** The fields of the wire request that carry a choice. *)
Definition choice_fields (c : option ToolChoice) (raw : RawMessage) (parallel : option bool) : Prop :=
  match c with
  | None => raw = "" ∧ parallel = None
  | Some c => ∃ v, choice_json c = inr v ∧ raw = marshalRaw v ∧
      parallel = if Choice_DisableParallel c then Some false else None
  end.

Lemma choice_sent hasTools c0 c :
  chosen hasTools c0 c →
  ∃ raw parallel, choice_fields c raw parallel ∧
    match c with
    | None => inr ("", None)
    | Some choice => value ← choice_json choice;
        mret (marshalRaw value, if Choice_DisableParallel choice then Some false else None)
    end = inr (raw, parallel) :> error + (RawMessage * option bool).
Proof.
  intros Hc. destruct c as [c|]; [|by eexists _, _].
  pose proof (chosen_sendable _ _ _ Hc) as [Hh Hs].
  destruct (choice_read_back c) as (v & Hv & _); [by split|]. rewrite Hv.
  eexists _, _. split; [by exists v|done].
Qed.

Lemma chat_choice_back up c0 c :
  chosen (has_tools up) c0 c → choice_fields c (CR_ToolChoice up) (CR_ParallelToolCalls up) →
  chat_choice up = inr c.
Proof.
  intros Hc Hup. unfold chat_choice.
  destruct c as [c|]; [|by destruct Hup as [-> Hpar]; cbn; unfold disable_parallel; rewrite Hpar].
  pose proof (chosen_sendable _ _ _ Hc) as Hs. destruct Hup as (v & Hv & -> & Hpar).
  destruct (choice_read_back c) as (v' & Hv' & Hback); [by destruct Hs|].
  assert (v' = v) as -> by congruence. destruct Hs as [Hh _]. rewrite Hh, Hback.
  cbn [mbind result_bind]. unfold disable_parallel. rewrite Hpar. destruct c as [mode name []]; [done|].
  destruct Hc as [_ [<-|[_ [= ?]]]]; done.
Qed.


(** ** Responses *)

Lemma range_output_texts l i text calls :
  Forall (λ c, ∃ t, c = text_content t) l →
  range output_part i l (text, calls) = inr (text +:+ spoken l, calls).
Proof.
  intros Hl. revert i text. induction Hl as [|c l [t ->] Hl IH]; intros i text.
  - cbn. by rewrite string_app_nil_r.
  - cbn [range]. assert (output_part i (text_content t) (text, calls) = inr (text +:+ t, calls))
      as -> by reflexivity.
    cbn [mbind result_bind]. rewrite IH. cbn [spoken Content_Text text_content].
    by rewrite string_app_assoc.
Qed.

Lemma range_output_calls cs i text calls :
  range output_part i (call_content <$> cs) (text, calls) = inr (text, calls ++ (function_call <$> cs)).
Proof.
  revert i calls. induction cs as [|c cs IH]; intros i calls.
  - cbn. by rewrite app_nil_r.
  - cbn [range fmap list_fmap]. assert (output_part i (call_content c) (text, calls) =
      inr (text, calls ++ [function_call c])) as -> by reflexivity.
    cbn [mbind result_bind]. by rewrite IH, <- app_assoc.
Qed.

Lemma response_calls_ok calls cs :
  range_map response_call 0 calls = inr cs →
  ∃ ics, cs = call_content <$> ics ∧ function_call <$> ics = calls.
Proof.
  generalize 0%nat. revert cs. induction calls as [|call calls IH]; intros cs i; cbn [range_map].
  - intros [= <-]. by exists [].
  - intros (c & Hc & (cs' & Hcs & [= <-])%bind_ok)%bind_ok.
    destruct (IH cs' (S i) Hcs) as (ics & -> & Hics). unfold response_call in Hc.
    apply check_then in Hc as [Hok [= <-]]. rewrite !andb_true_iff in Hok.
    destruct Hok as [[[Ht%eqs_true _] _] _].
    eexists ({| Call_ID := TC_ID call |} :: ics). split; [reflexivity|]. cbn [fmap list_fmap].
    f_equal; [|exact Hics]. destruct call as [cid ty [nm ar]]. cbn in *. by subst.
Qed.

(** What the assistant says, answer or refusal. *)
Definition said (m : AssistantOutput) : string :=
  default "" (AO_Content m) +:+ default "" (AO_Refusal m).

Lemma said_output text finish calls : said (output_message text finish calls) = text.
Proof.
  unfold said, output_message. cbn [AO_Content AO_Refusal].
  destruct (eqs text "") eqn:Et; cbn [negb orb andb].
  - apply eqs_true in Et as ->. rewrite !andb_false_r. by destruct (bool_decide (calls = [])).
  - rewrite andb_true_r. by destruct (eqs finish FinishContent); cbn; rewrite ?string_app_nil_r.
Qed.
Lemma refusal_output text finish calls :
  AO_Refusal (output_message text finish calls) ≠ None → finish = FinishContent.
Proof.
  unfold output_message. cbn [AO_Refusal]. destruct (eqs finish FinishContent) eqn:E.
  - intros _. by apply eqs_true.
  - by rewrite andb_false_l, andb_false_r.
Qed.
Lemma chat_finish_content reason : chat_finish reason = Some FinishContent → reason = "content_filter".
Proof. unfold chat_finish. repeat case_match; try done. intros _. by apply eqs_true. Qed.


(** ** A chat with a tool, both ways *)

Module ChatSample.
Definition plain (role text : string) : ChatMessage := {|
  CM_Role := role; CM_Content := print (JStr text); CM_Name := ""; CM_ToolCalls := [];
  CM_ToolCallID := "" |}.
Definition call : ToolCall := {| TC_ID := "c1"; TC_Type := "function";
  TC_Function := {| TCF_Name := "now"; TCF_Arguments := "{}" |} |}.
Definition request : ChatCompletionRequest := {|
  CR_Model := "fast";
  CR_Messages := [plain "developer" "Be brief.";
    {| CM_Role := "user"; CM_Content := print (JArr (part_json <$>
         [text_part "What "; image_part "https://example.com/clock.png"; text_part "time?"]));
       CM_Name := ""; CM_ToolCalls := []; CM_ToolCallID := "" |};
    {| CM_Role := "assistant"; CM_Content := "null"; CM_Name := ""; CM_ToolCalls := [call];
       CM_ToolCallID := "" |};
    {| CM_Role := "tool"; CM_Content := print (JStr "noon"); CM_Name := ""; CM_ToolCalls := [];
       CM_ToolCallID := "c1" |}];
  CR_MaxCompletionTokens := None; CR_MaxTokens := Some 100%Z; CR_Temperature := Some float_one;
  CR_TopP := None; CR_Stop := print (JArr [JStr "END"; JStr "STOP"]);
  CR_Tools := [{| OT_Type := "function"; OT_Function := {| FT_Name := "now"; FT_Description := "";
    FT_Parameters := ""; FT_Strict := None |} |}];
  CR_ToolChoice := ""; CR_N := Some 1%Z; CR_Stream := false; CR_StreamOptions := "";
  CR_FrequencyPenalty := None; CR_PresencePenalty := None; CR_Logprobs := None;
  CR_TopLogprobs := None; CR_LogitBias := ""; CR_ResponseFormat := ""; CR_Seed := None;
  CR_User := ""; CR_Metadata := []; CR_ParallelToolCalls := Some false |}.
Definition route : Model.Route := {|
  Route_ModelID := "m1"; Route_Alias := "fast"; Route_ProviderID := "p1";
  Route_UpstreamModel := "gpt"; Route_AdapterAppID := "acme" |}.
Definition ir : Request := match ToIR request route "r1" with
  | inr r => r | inl _ => IrSample.request (IrSample.result "c1" "now") end.
Definition response : ChatCompletionResponse := {|
  CC_ID := "up1"; CC_Object := "chat.completion"; CC_Created := 0; CC_Model := "gpt";
  CC_Choices := [{| Ch_Index := 0; Ch_Message := {| AO_Role := "assistant"; AO_Content := None;
    AO_Refusal := Some "No."; AO_ToolCalls := [] |}; Ch_FinishReason := "stop" |}];
  CC_Usage := {| PromptTokens := 10; CompletionTokens := 2; TotalTokens := 12; CachedTokens := Some 4%Z |};
  CC_SystemFingerprint := None |}.
Definition answer : Response := match FromChatResponse response ir with
  | inr r => r
  | inl _ => {| Resp_Version := ""; Resp_ID := ""; Resp_Model := ""; Resp_Content := [];
      Resp_FinishReason := ""; Resp_StopSequence := ""; Resp_ProviderResponseID := "";
      Resp_Usage := {| InputTokens := 0; OutputTokens := 0; CacheCreationInputTokens := 0;
        CachedInputTokens := 0 |} |} end.
End ChatSample.


