(* ===== verification/OpenAIHttp.v ===== *)
(** * The OpenAI Chat protocol over HTTP ([internal/openai])

    The structs of [types.go] on the wire, the adapter of OpenAI Chat providers
    ([adapter.go]) and the gateway handler ([http.go]). *)

From Stdlib Require Import SpecFloat.
From S2P Require Import Prelude GoStd Json JsonRaw GoText GoFloat GoTime GoFmt Errors Results State Model.
From S2P Require Import Repository Svc Service Platform Wire Http Registry Dapr Ir DaprState AdapterConfig.
From S2P Require Import Runtime Dataplane IrWire Adapter OpenAI.

(** ** types.go *)

Definition ToolCallFunction_text (f : ToolCallFunction) : option string := struct_text
  [must "name" (string_text (TCF_Name f)); must "arguments" (string_text (TCF_Arguments f))].
Definition ToolCall_text (c : ToolCall) : option string := struct_text
  [must "id" (string_text (TC_ID c)); must "type" (string_text (TC_Type c));
   must "function" (ToolCallFunction_text (TC_Function c))].

Definition FunctionTool_text (f : FunctionTool) : option string := struct_text
  [must "name" (string_text (FT_Name f)); omit_string "description" (FT_Description f);
   must "parameters" (raw_text (FT_Parameters f)); omit_pointer "strict" bool_text (FT_Strict f)].
Definition Tool_text (t : Tool) : option string := struct_text
  [must "type" (string_text (OT_Type t)); must "function" (FunctionTool_text (OT_Function t))].

Definition ChatMessage_text (m : ChatMessage) : option string := struct_text
  [must "role" (string_text (CM_Role m)); must "content" (raw_text (CM_Content m));
   omit_string "name" (CM_Name m); omit_slice "tool_calls" ToolCall_text (CM_ToolCalls m);
   omit_string "tool_call_id" (CM_ToolCallID m)].

(** The request always has messages. *)
Definition ChatCompletionRequest_text (r : ChatCompletionRequest) : option string := struct_text
  [must "model" (string_text (CR_Model r)); must "messages" (slice_text ChatMessage_text (CR_Messages r));
   omit_pointer "max_completion_tokens" int_text (CR_MaxCompletionTokens r);
   omit_pointer "max_tokens" int_text (CR_MaxTokens r);
   omit_pointer "temperature" FormatFloat (CR_Temperature r); omit_pointer "top_p" FormatFloat (CR_TopP r);
   omit_raw "stop" (CR_Stop r); omit_slice "tools" Tool_text (CR_Tools r);
   omit_raw "tool_choice" (CR_ToolChoice r); omit_pointer "n" int_text (CR_N r);
   omit_bool "stream" (CR_Stream r); omit_raw "stream_options" (CR_StreamOptions r);
   omit_pointer "frequency_penalty" FormatFloat (CR_FrequencyPenalty r);
   omit_pointer "presence_penalty" FormatFloat (CR_PresencePenalty r);
   omit_pointer "logprobs" bool_text (CR_Logprobs r); omit_pointer "top_logprobs" int_text (CR_TopLogprobs r);
   omit_raw "logit_bias" (CR_LogitBias r); omit_raw "response_format" (CR_ResponseFormat r);
   omit_pointer "seed" int_text (CR_Seed r); omit_string "user" (CR_User r);
   omit_map "metadata" any_text (CR_Metadata r);
   omit_pointer "parallel_tool_calls" bool_text (CR_ParallelToolCalls r)].

Definition AssistantOutput_text (m : AssistantOutput) : option string := struct_text
  [must "role" (string_text (AO_Role m)); must "content" (pointer_text string_text (AO_Content m));
   omit_pointer "refusal" string_text (AO_Refusal m);
   omit_slice "tool_calls" ToolCall_text (AO_ToolCalls m)].
Definition Choice_text (c : Choice) : option string := struct_text
  [must "index" (int_text (Ch_Index c)); must "message" (AssistantOutput_text (Ch_Message c));
   must "finish_reason" (string_text (Ch_FinishReason c))].
Definition PromptTokensDetails_text (cached : Z) : option string :=
  struct_text [must "cached_tokens" (int_text cached)].
Definition Usage_text (u : Usage) : option string := struct_text
  [must "prompt_tokens" (int_text (PromptTokens u));
   must "completion_tokens" (int_text (CompletionTokens u));
   must "total_tokens" (int_text (TotalTokens u));
   omit_pointer "prompt_tokens_details" PromptTokensDetails_text (CachedTokens u)].
Definition ChatCompletionResponse_text (r : ChatCompletionResponse) : option string := struct_text
  [must "id" (string_text (CC_ID r)); must "object" (string_text (CC_Object r));
   must "created" (int_text (CC_Created r)); must "model" (string_text (CC_Model r));
   must "choices" (slice_text Choice_text (CC_Choices r)); must "usage" (Usage_text (CC_Usage r));
   must "system_fingerprint" (pointer_text string_text (CC_SystemFingerprint r))].

Record APIError := {
  AE_Message : string; AE_Type : string; AE_Param : option string; AE_Code : string
}.
Definition APIError_text (e : APIError) : option string := struct_text
  [must "message" (string_text (AE_Message e)); must "type" (string_text (AE_Type e));
   must "param" (pointer_text string_text (AE_Param e)); must "code" (string_text (AE_Code e))].
Definition ErrorResponse_text (e : APIError) : option string :=
  struct_text [must "error" (APIError_text e)].

Definition zero_function : ToolCallFunction := {| TCF_Name := ""; TCF_Arguments := "" |}.
Definition zero_call : ToolCall := {| TC_ID := ""; TC_Type := ""; TC_Function := zero_function |}.
Definition zero_message : ChatMessage := {|
  CM_Role := ""; CM_Content := ""; CM_Name := ""; CM_ToolCalls := []; CM_ToolCallID := "" |}.
Definition zero_function_tool : FunctionTool :=
  {| FT_Name := ""; FT_Description := ""; FT_Parameters := ""; FT_Strict := None |}.
Definition zero_tool : Tool := {| OT_Type := ""; OT_Function := zero_function_tool |}.
Definition zero_chat_request : ChatCompletionRequest := {|
  CR_Model := ""; CR_Messages := []; CR_MaxCompletionTokens := None; CR_MaxTokens := None;
  CR_Temperature := None; CR_TopP := None; CR_Stop := ""; CR_Tools := []; CR_ToolChoice := "";
  CR_N := None; CR_Stream := false; CR_StreamOptions := ""; CR_FrequencyPenalty := None;
  CR_PresencePenalty := None; CR_Logprobs := None; CR_TopLogprobs := None; CR_LogitBias := "";
  CR_ResponseFormat := ""; CR_Seed := None; CR_User := ""; CR_Metadata := [];
  CR_ParallelToolCalls := None |}.
Definition zero_output : AssistantOutput :=
  {| AO_Role := ""; AO_Content := None; AO_Refusal := None; AO_ToolCalls := [] |}.
Definition zero_chat_choice : Choice :=
  {| Ch_Index := 0; Ch_Message := zero_output; Ch_FinishReason := "" |}.
Definition zero_chat_usage : Usage :=
  {| PromptTokens := 0; CompletionTokens := 0; TotalTokens := 0; CachedTokens := None |}.
Definition zero_chat_response : ChatCompletionResponse := {|
  CC_ID := ""; CC_Object := ""; CC_Created := 0; CC_Model := ""; CC_Choices := [];
  CC_Usage := zero_chat_usage; CC_SystemFingerprint := None |}.

Section reading.
Context (strict : bool).

Definition read_ToolCallFunction : reader ToolCallFunction :=
  read_struct strict ["name"; "arguments"] (λ x m,
    name ← read_field read_string "name" (TCF_Name x) m;
    arguments ← read_field read_string "arguments" (TCF_Arguments x) m;
    Some {| TCF_Name := name; TCF_Arguments := arguments |}).
Definition read_ToolCall : reader ToolCall :=
  read_struct strict ["id"; "type"; "function"] (λ x m,
    id ← read_field read_string "id" (TC_ID x) m;
    type ← read_field read_string "type" (TC_Type x) m;
    function ← read_field read_ToolCallFunction "function" (TC_Function x) m;
    Some {| TC_ID := id; TC_Type := type; TC_Function := function |}).

Definition read_FunctionTool : reader FunctionTool :=
  read_struct strict ["name"; "description"; "parameters"; "strict"] (λ x m,
    name ← read_field read_string "name" (FT_Name x) m;
    description ← read_field read_string "description" (FT_Description x) m;
    parameters ← read_field read_raw "parameters" (FT_Parameters x) m;
    strict ← read_field (read_pointer false read_bool) "strict" (FT_Strict x) m;
    Some {| FT_Name := name; FT_Description := description; FT_Parameters := parameters;
            FT_Strict := strict |}).
Definition read_Tool : reader Tool :=
  read_struct strict ["type"; "function"] (λ x m,
    type ← read_field read_string "type" (OT_Type x) m;
    function ← read_field read_FunctionTool "function" (OT_Function x) m;
    Some {| OT_Type := type; OT_Function := function |}).

Definition read_ChatMessage : reader ChatMessage :=
  read_struct strict ["role"; "content"; "name"; "tool_calls"; "tool_call_id"] (λ x m,
    role ← read_field read_string "role" (CM_Role x) m;
    content ← read_field read_raw "content" (CM_Content x) m;
    name ← read_field read_string "name" (CM_Name x) m;
    calls ← read_field (read_slice zero_call read_ToolCall) "tool_calls" (CM_ToolCalls x) m;
    id ← read_field read_string "tool_call_id" (CM_ToolCallID x) m;
    Some {| CM_Role := role; CM_Content := content; CM_Name := name; CM_ToolCalls := calls;
            CM_ToolCallID := id |}).

Definition read_float_pointer : reader (option float64) := read_pointer float_zero read_float.
Definition read_int_pointer : reader (option Z) := read_pointer 0%Z read_int.
Definition read_bool_pointer : reader (option bool) := read_pointer false read_bool.

Definition read_ChatCompletionRequest : reader ChatCompletionRequest :=
  read_struct strict
    ["model"; "messages"; "max_completion_tokens"; "max_tokens"; "temperature"; "top_p"; "stop";
     "tools"; "tool_choice"; "n"; "stream"; "stream_options"; "frequency_penalty";
     "presence_penalty"; "logprobs"; "top_logprobs"; "logit_bias"; "response_format"; "seed"; "user";
     "metadata"; "parallel_tool_calls"] (λ x m,
    model ← read_field read_string "model" (CR_Model x) m;
    messages ← read_field (read_slice zero_message read_ChatMessage) "messages" (CR_Messages x) m;
    completion ← read_field read_int_pointer "max_completion_tokens" (CR_MaxCompletionTokens x) m;
    tokens ← read_field read_int_pointer "max_tokens" (CR_MaxTokens x) m;
    temperature ← read_field read_float_pointer "temperature" (CR_Temperature x) m;
    top ← read_field read_float_pointer "top_p" (CR_TopP x) m;
    stop ← read_field read_raw "stop" (CR_Stop x) m;
    tools ← read_field (read_slice zero_tool read_Tool) "tools" (CR_Tools x) m;
    choice ← read_field read_raw "tool_choice" (CR_ToolChoice x) m;
    n ← read_field read_int_pointer "n" (CR_N x) m;
    stream ← read_field read_bool "stream" (CR_Stream x) m;
    options ← read_field read_raw "stream_options" (CR_StreamOptions x) m;
    frequency ← read_field read_float_pointer "frequency_penalty" (CR_FrequencyPenalty x) m;
    presence ← read_field read_float_pointer "presence_penalty" (CR_PresencePenalty x) m;
    logprobs ← read_field read_bool_pointer "logprobs" (CR_Logprobs x) m;
    topLogprobs ← read_field read_int_pointer "top_logprobs" (CR_TopLogprobs x) m;
    bias ← read_field read_raw "logit_bias" (CR_LogitBias x) m;
    format ← read_field read_raw "response_format" (CR_ResponseFormat x) m;
    seed ← read_field read_int_pointer "seed" (CR_Seed x) m;
    user ← read_field read_string "user" (CR_User x) m;
    metadata ← read_field (read_map dec_any) "metadata" (CR_Metadata x) m;
    parallel ← read_field read_bool_pointer "parallel_tool_calls" (CR_ParallelToolCalls x) m;
    Some {| CR_Model := model; CR_Messages := messages; CR_MaxCompletionTokens := completion;
            CR_MaxTokens := tokens; CR_Temperature := temperature; CR_TopP := top; CR_Stop := stop;
            CR_Tools := tools; CR_ToolChoice := choice; CR_N := n; CR_Stream := stream;
            CR_StreamOptions := options; CR_FrequencyPenalty := frequency;
            CR_PresencePenalty := presence; CR_Logprobs := logprobs; CR_TopLogprobs := topLogprobs;
            CR_LogitBias := bias; CR_ResponseFormat := format; CR_Seed := seed; CR_User := user;
            CR_Metadata := metadata; CR_ParallelToolCalls := parallel |}).

Definition read_AssistantOutput : reader AssistantOutput :=
  read_struct strict ["role"; "content"; "refusal"; "tool_calls"] (λ x m,
    role ← read_field read_string "role" (AO_Role x) m;
    content ← read_field (read_pointer "" read_string) "content" (AO_Content x) m;
    refusal ← read_field (read_pointer "" read_string) "refusal" (AO_Refusal x) m;
    calls ← read_field (read_slice zero_call read_ToolCall) "tool_calls" (AO_ToolCalls x) m;
    Some {| AO_Role := role; AO_Content := content; AO_Refusal := refusal; AO_ToolCalls := calls |}).
Definition read_Choice : reader Choice :=
  read_struct strict ["index"; "message"; "finish_reason"] (λ x m,
    index ← read_field read_int "index" (Ch_Index x) m;
    message ← read_field read_AssistantOutput "message" (Ch_Message x) m;
    reason ← read_field read_string "finish_reason" (Ch_FinishReason x) m;
    Some {| Ch_Index := index; Ch_Message := message; Ch_FinishReason := reason |}).
Definition read_PromptTokensDetails : reader Z :=
  read_struct strict ["cached_tokens"] (λ x m, read_field read_int "cached_tokens" x m).
Definition read_Usage : reader Usage :=
  read_struct strict ["prompt_tokens"; "completion_tokens"; "total_tokens"; "prompt_tokens_details"]
    (λ x m,
    prompt ← read_field read_int "prompt_tokens" (PromptTokens x) m;
    completion ← read_field read_int "completion_tokens" (CompletionTokens x) m;
    total ← read_field read_int "total_tokens" (TotalTokens x) m;
    cached ← read_field (read_pointer 0%Z read_PromptTokensDetails) "prompt_tokens_details"
               (CachedTokens x) m;
    Some {| PromptTokens := prompt; CompletionTokens := completion; TotalTokens := total;
            CachedTokens := cached |}).
Definition read_ChatCompletionResponse : reader ChatCompletionResponse :=
  read_struct strict
    ["id"; "object"; "created"; "model"; "choices"; "usage"; "system_fingerprint"] (λ x m,
    id ← read_field read_string "id" (CC_ID x) m;
    object ← read_field read_string "object" (CC_Object x) m;
    created ← read_field read_int "created" (CC_Created x) m;
    model ← read_field read_string "model" (CC_Model x) m;
    choices ← read_field (read_slice zero_chat_choice read_Choice) "choices" (CC_Choices x) m;
    usage ← read_field read_Usage "usage" (CC_Usage x) m;
    fingerprint ← read_field (read_pointer "" read_string) "system_fingerprint"
                    (CC_SystemFingerprint x) m;
    Some {| CC_ID := id; CC_Object := object; CC_Created := created; CC_Model := model;
            CC_Choices := choices; CC_Usage := usage; CC_SystemFingerprint := fingerprint |}).
End reading.

(** ** adapter.go *)

Definition openai_api : provider_api ChatCompletionRequest ChatCompletionResponse := {|
  api_kind := ProviderKindOpenAIChat;
  api_accepts := "OpenAI Chat";
  api_name := "OpenAI Chat";
  api_limit _ _ := None;
  api_request _ := ToChatRequest;
  api_text := ChatCompletionRequest_text;
  api_endpoint config _ :=
    inr (Cfg_BaseURL config +:+ "/" +:+ Cfg_APIVersion config +:+ "/chat/completions");
  api_header _ apiKey requestID :=
    [("Authorization", "Bearer " +:+ apiKey); ("User-Agent", "gwai-openai-chat-adapter/0.3")] ++
    unless_empty requestID [("X-Client-Request-Id", requestID)];
  api_zero := zero_chat_response;
  api_read := read_ChatCompletionResponse false;
  api_response := FromChatResponse |}.

Definition openai_generate : AdapterHTTPHandler → handler := Adapter.generate openai_api.
Definition NewOpenAIAdapter : AdapterHTTPHandler → http_request → svc http_response :=
  NewAdapterHTTPHandler openai_api.

(** ** http.go *)

Record HTTPHandler := { h_dispatcher : Dispatcher; h_maxBody : Z }.

Definition bearer_challenge : string := "Bearer realm=" +:+ String dquote "gwai" +:+ String dquote "".

Definition writeAPIError (status : Z) (errorType code message param : string) : http_response :=
  JSON_text status (ErrorResponse_text {|
    AE_Message := message; AE_Type := errorType;
    AE_Param := if bool_decide (param = "") then None else Some param; AE_Code := code |}).

Definition writeRuntimeError (err : error) : http_response :=
  match errors_As as_translation err with
  | Some (param, code, format, args) =>
      writeAPIError 400 "invalid_request_error" code (Error (TranslationError param code format args)) param
  | None =>
      match errors_As as_validation err with
      | Some (field, message, args) =>
          writeAPIError 400 "invalid_request_error" "invalid_model"
            (Error (ValidationError field message args)) field
      | None =>
          if errors_Is err Unauthorized then
            with_header "Www-Authenticate" bearer_challenge
              (writeAPIError 401 "authentication_error" "invalid_api_key" "Incorrect API key provided" "")
          else if errors_Is err Forbidden then
            writeAPIError 403 "permission_error" "model_not_allowed"
              "The API key is not allowed to use the requested model" "model"
          else if errors_Is err NotFound then
            writeAPIError 404 "invalid_request_error" "model_not_found"
              "The requested model does not exist" "model"
          else if (if errors_As as_http err is Some status then status =? 429 else false)%Z then
            writeAPIError 429 "rate_limit_error" "rate_limit_exceeded"
              "The upstream provider rate limit was exceeded" ""
          else
            writeAPIError 502 "api_error" "upstream_error"
              "The gateway could not complete the upstream request" ""
      end
  end%Z.

(** [if err != nil { h.writeRuntimeError; return }]. *)
Definition or_error {A} (p : prog A) (next : A → svc http_response) : svc http_response :=
  svc_bind_result (call p) (λ r, match r with inl err => mret (writeRuntimeError err) | inr a => next a end).

Definition createChatCompletion (h : HTTPHandler) : handler := λ requestID r,
  match BearerToken (header_get "Authorization" (Header r)) with
  | None =>
      mret (with_header "Www-Authenticate" bearer_challenge
        (writeAPIError 401 "authentication_error" "invalid_api_key"
           "An API key must be supplied as a Bearer token" ""))
  | Some token =>
      match DecodeBody zero_chat_request (read_ChatCompletionRequest true) (Body r) (h_maxBody h) with
      | inl err => mret (writeAPIError 400 "invalid_request_error" "invalid_json" (Error err) "")
      | inr request =>
          or_error (Generate (h_dispatcher h) token (CR_Model request) requestID (ToIR request))
            (λ internalResponse,
          or_error (NewID "chatcmpl") (λ completionID,
          or_error now (λ created,
            mret match FromIR internalResponse (CR_Model request) completionID created with
                 | inl err => writeRuntimeError err
                 | inr response => JSON_text 200 (ChatCompletionResponse_text response)
                 end)))
      end
  end%Z.

Definition NewHTTPHandler (h : HTTPHandler) : http_request → svc http_response :=
  HTTPMiddleware (ServeMux (health_routes ++
    [{| rt_method := "POST"; rt_pattern := path ["v1"; "chat"; "completions"];
        rt_handler := λ _, createChatCompletion h |}])).
