(* ===== verification/Anthropic.v ===== *)
(** * The Anthropic Messages protocol ([internal/anthropic])

    The wire types, the client-facing translation ([gateway_translate.go]) and
    the provider adapter's ([translate.go]).  A request is the struct that
    [encoding/json] decoded; its raw fields are texts. *)

From Stdlib Require Import SpecFloat Ascii.
From S2P Require Import Prelude GoStd Json JsonRaw GoText GoNet Errors Results Model Ir.

(** ** types.go *)

Record ImageSource := {
  Src_Type : string; Src_URL : string; Src_MediaType : string; Src_Data : string
}.

Record ClientContentBlock := {
  CB_Type : string; CB_Text : string; CB_Source : option ImageSource; CB_ID : string;
  CB_Name : string; CB_Input : RawMessage; CB_ToolUseID : string; CB_Content : RawMessage;
  CB_IsError : bool
}.

#[warnings="-register-all"]
Inductive ContentBlock : Type := MkContentBlock {
  Block_Type : string; Block_Text : string; Block_Source : option ImageSource;
  Block_ID : string; Block_Name : string; Block_Input : RawMessage; Block_ToolUseID : string;
  Block_Content : list ContentBlock; Block_IsError : bool
}.

Record Tool := {
  AT_Name : string; AT_Description : string; AT_InputSchema : RawMessage; AT_Strict : option bool
}.
Record ToolChoice := { AC_Type : string; AC_Name : string; AC_DisableParallelToolUse : bool }.

Record ClientMessage := { ClM_Role : string; ClM_Content : RawMessage }.
Record ClientMessageRequest := {
  CMR_Model : string; CMR_MaxTokens : Z; CMR_Messages : list ClientMessage;
  CMR_System : RawMessage; CMR_Temperature : option float64; CMR_TopP : option float64;
  CMR_StopSequences : list string; CMR_Tools : list Tool; CMR_ToolChoice : option ToolChoice;
  CMR_Stream : bool; CMR_TopK : option Z; CMR_Metadata : RawMessage; CMR_ServiceTier : string;
  CMR_Thinking : RawMessage; CMR_OutputConfig : RawMessage
}.

Record Message := { AM_Role : string; AM_Content : list ContentBlock }.
Record MessageRequest := {
  MR_Model : string; MR_MaxTokens : Z; MR_Messages : list Message; MR_System : list ContentBlock;
  MR_Temperature : option float64; MR_TopP : option float64; MR_StopSequences : list string;
  MR_Tools : list Tool; MR_ToolChoice : option ToolChoice; MR_Stream : bool
}.

Record Usage := {
  AU_InputTokens : Z; AU_OutputTokens : Z; AU_CacheCreationInputTokens : Z;
  AU_CacheReadInputTokens : Z
}.
Record MessageResponse := {
  MP_ID : string; MP_Type : string; MP_Role : string; MP_Content : list ContentBlock;
  MP_Model : string; MP_StopReason : string; MP_StopSequence : option string; MP_Usage : Usage
}.

(** The block literals of the translators. *)
Definition text_block (text : string) : ContentBlock :=
  MkContentBlock "text" text None "" "" "" "" [] false.
Definition image_block (source : ImageSource) : ContentBlock :=
  MkContentBlock "image" "" (Some source) "" "" "" "" [] false.
Definition use_block (call : ToolCall) : ContentBlock :=
  MkContentBlock "tool_use" "" None (Call_ID call) (Call_Name call) (Call_Arguments call) "" [] false.
Definition result_block (id : string) (nested : list ContentBlock) (isError : bool) : ContentBlock :=
  MkContentBlock "tool_result" "" None "" "" "" id nested isError.

(** ** gateway_translate.go: the client's blocks *)

Definition json_err : error := NewError "json: cannot unmarshal value".

Definition clientInvalid (field format : string) (values : list farg) : error :=
  TranslationError field "" format values.

Definition rawPresent (raw : RawMessage) : bool :=
  let trimmed := TrimSpace raw in negb (eqs trimmed "") && negb (eqs trimmed "null").

Definition dec_source (current : ImageSource) (j : json) : option ImageSource :=
  m ← match j with
      | JNull => Some []
      | JObj m => if known_fields ["type"; "url"; "media_type"; "data"] m then Some m else None
      | _ => None
      end;
  type ← last_value dec_string (Src_Type current) (field_values "type" m);
  url ← last_value dec_string (Src_URL current) (field_values "url" m);
  media ← last_value dec_string (Src_MediaType current) (field_values "media_type" m);
  data ← last_value dec_string (Src_Data current) (field_values "data" m);
  Some {| Src_Type := type; Src_URL := url; Src_MediaType := media; Src_Data := data |}.

Definition zero_source : ImageSource :=
  {| Src_Type := ""; Src_URL := ""; Src_MediaType := ""; Src_Data := "" |}.

(** A pointer field, decoded into the target a repeated key finds. *)
Fixpoint dec_source_pointer (current : option ImageSource) (vs : list json)
    : option (option ImageSource) :=
  match vs with
  | [] => Some current
  | JNull :: vs' => dec_source_pointer None vs'
  | v :: vs' => s ← dec_source (default zero_source current) v; dec_source_pointer (Some s) vs'
  end.

Definition dec_block (raw : RawMessage) : option ClientContentBlock :=
  m ← raw_struct ["type"; "text"; "source"; "id"; "name"; "input"; "tool_use_id"; "content";
                  "is_error"] raw;
  type ← raw_string_field "type" m;
  text ← raw_string_field "text" m;
  source ← dec_source_pointer None (field_values "source" (typed_members m));
  id ← raw_string_field "id" m;
  name ← raw_string_field "name" m;
  tool ← raw_string_field "tool_use_id" m;
  isError ← raw_bool_field "is_error" m;
  Some {| CB_Type := type; CB_Text := text; CB_Source := source; CB_ID := id; CB_Name := name;
          CB_Input := raw_field "input" m; CB_ToolUseID := tool;
          CB_Content := raw_field "content" m; CB_IsError := isError |}.

(** [decodeStrict] into a slice of blocks. *)
Definition decode_blocks (raw : RawMessage) : error + list ClientContentBlock :=
  result_of (l ← raw_array raw; all_some dec_block l) json_err.

Definition parseClientImage (source : option ImageSource) : error + Image :=
  source ← result_of source (Errorf "source is required" []);
  if eqs (Src_Type source) "base64" then
    _ ← require (eqs (Src_URL source) "") (Errorf "base64 source cannot contain url" []);
    _ ← require (image_media_type (Src_MediaType source))
          (Errorf "unsupported base64 media_type %q" [AStr (Src_MediaType source)]);
    _ ← require (negb (eqs (Src_Data source) "")) (Errorf "base64 data is required" []);
    _ ← require (negb (none (StdDecode (Src_Data source))))
          (Errorf "invalid base64 data: %w" [AWrap (NewError "illegal base64 data")]);
    mret {| Image_URL := ""; Image_MediaType := Src_MediaType source; Image_Data := Src_Data source |}
  else if eqs (Src_Type source) "url" then
    _ ← require (eqs (Src_MediaType source) "" && eqs (Src_Data source) "")
          (Errorf "URL source cannot contain media_type or data" []);
    let malformed := Errorf "url must be an absolute HTTP(S) URL" [] in
    parsed ← result_of (ParseRequestURI (Src_URL source)) malformed;
    _ ← require ((eqs (Scheme parsed) "http" || eqs (Scheme parsed) "https") &&
                 negb (eqs (Host parsed) "")) malformed;
    mret {| Image_URL := Src_URL source; Image_MediaType := ""; Image_Data := "" |}
  else inl (Errorf "unsupported image source type %q" [AStr (Src_Type source)]).

(** The fields a block must leave unset. *)
Definition no_input (b : ClientContentBlock) : bool := negb (rawPresent (CB_Input b)).
Definition no_content (b : ClientContentBlock) : bool := negb (rawPresent (CB_Content b)).

Section blocks.
Context (role : string) (nested : bool) (parse_nested : RawMessage → error + list Content).

Definition foreign (index : nat) (kind : string) : error :=
  Errorf "content[%d]: %s block contains fields for another block type" [AIdx index; AStr kind].

Definition parse_tool_use (index : nat) (b : ClientContentBlock) : error + Content :=
  _ ← require (negb nested)
        (Errorf "content[%d]: nested tool_use blocks are not supported" [AIdx index]);
  _ ← require (eqs role "assistant")
        (Errorf "content[%d]: tool_use blocks require an assistant message" [AIdx index]);
  _ ← require (eqs (CB_Text b) "" && none (CB_Source b) && eqs (CB_ToolUseID b) "" &&
               no_content b && negb (CB_IsError b)) (foreign index "tool_use");
  _ ← require (negb (eqs (CB_ID b) "") && negb (eqs (TrimSpace (CB_Name b)) "") &&
               isJSONObject (CB_Input b))
        (Errorf "content[%d]: tool_use requires id, name, and an object input" [AIdx index]);
  mret (call_content {| Call_ID := CB_ID b; Call_Name := TrimSpace (CB_Name b);
                        Call_Arguments := CB_Input b; Call_Signature := "" |}).

Definition parse_tool_result (index : nat) (b : ClientContentBlock) : error + Content :=
  _ ← require (negb nested)
        (Errorf "content[%d]: nested tool_result blocks are not supported" [AIdx index]);
  _ ← require (eqs role "user")
        (Errorf "content[%d]: tool_result blocks require a user message" [AIdx index]);
  _ ← require (eqs (CB_Text b) "" && none (CB_Source b) && eqs (CB_ID b) "" &&
               eqs (CB_Name b) "" && no_input b) (foreign index "tool_result");
  _ ← require (negb (eqs (CB_ToolUseID b) ""))
        (Errorf "content[%d].tool_use_id is required" [AIdx index]);
  contents ← on_error (λ e, Errorf "content[%d].content: %w" [AIdx index; AWrap e])
               (parse_nested (CB_Content b));
  mret (result_content (MkToolResult (CB_ToolUseID b) "" contents "" (CB_IsError b))).

Definition parse_block (index : nat) (b : ClientContentBlock) : error + Content :=
  if eqs (CB_Type b) "text" then
    _ ← require (none (CB_Source b) && eqs (CB_ID b) "" && eqs (CB_Name b) "" && no_input b &&
                 eqs (CB_ToolUseID b) "" && no_content b && negb (CB_IsError b))
          (foreign index "text");
    mret (text_content (CB_Text b))
  else if eqs (CB_Type b) "image" then
    _ ← require (eqs role "user")
          (Errorf "content[%d]: image blocks require a user message" [AIdx index]);
    _ ← require (eqs (CB_Text b) "" && eqs (CB_ID b) "" && eqs (CB_Name b) "" && no_input b &&
                 eqs (CB_ToolUseID b) "" && no_content b && negb (CB_IsError b))
          (foreign index "image");
    image ← on_error (λ e, Errorf "content[%d].source: %w" [AIdx index; AWrap e])
              (parseClientImage (CB_Source b));
    mret (image_content image)
  else if eqs (CB_Type b) "tool_use" then parse_tool_use index b
  else if eqs (CB_Type b) "tool_result" then parse_tool_result index b
  else if eqs (CB_Type b) "thinking" || eqs (CB_Type b) "redacted_thinking" then
    inl (Errorf "content[%d]: thinking blocks are not supported" [AIdx index])
  else inl (Errorf "content[%d] has unsupported type %q" [AIdx index; AStr (CB_Type b)]).

Definition parse_blocks (raw : RawMessage) : error + list Content :=
  let trimmed := TrimSpace raw in
  _ ← require (rawPresent raw) (Errorf "content is required" []);
  match trimmed with
  | String c _ =>
      if Ascii.eqb c dquote then
        text ← on_error (λ e, Errorf "content must be a valid string: %w" [AWrap e])
                 (result_of (parse trimmed ≫= dec_string) json_err);
        mret [text_content text]
      else
        blocks ← on_error
          (λ e, Errorf "content must be a string or an array of content blocks: %w" [AWrap e])
          (decode_blocks trimmed);
        _ ← require (negb (bool_decide (blocks = [])))
              (Errorf "content blocks must not be empty" []);
        range_map parse_block 0 blocks
  | EmptyString => inl (Errorf "content is required" [])
  end.
End blocks.

(** The content of a tool result: its own tool results are refused before
    their content is looked at. *)
Definition parse_nested (raw : RawMessage) : error + list Content :=
  parse_blocks "user" true (λ _, inl json_err) raw.

Definition parseClientBlocks (raw : RawMessage) (role : string) (nested : bool)
    : error + list Content := parse_blocks role nested parse_nested raw.

(** The flag the source returns with the contents. *)
Definition hasToolResult (contents : list Content) : bool :=
  existsb (λ c, eqs (Content_Type c) ContentToolResult) contents.

Definition system_part (index : nat) (content : Content) (_ : unit) : error + unit :=
  require (eqs (Content_Type content) ContentText)
    (Errorf "system content[%d] must be text" [AIdx index]).

Definition parseSystem (raw : RawMessage) : error + list Content :=
  if negb (rawPresent raw) then inr []
  else
    contents ← parseClientBlocks raw "system" false;
    _ ← require (negb (hasToolResult contents))
          (Errorf "system cannot contain tool results" []);
    _ ← range system_part 0 contents tt;
    mret contents.

(** ** gateway_translate.go: [ToIRRequest] *)

Definition path (parts : list string) : string := join "." parts.
Definition index_text (i : nat) : string := FormatUint (Z.of_nat i).
Definition block_path (mi ci : nat) (field : string) : string :=
  path ["messages"; index_text mi; "content"; index_text ci; field].

(** The parameters the portable contract has no place for. *)
Definition client_unsupported (request : ClientMessageRequest) : error + unit :=
  let unsupported field :=
    clientInvalid field (field +:+ " is not supported by the portable gateway contract") [] in
  _ ← require (none (CMR_TopK request)) (unsupported "top_k");
  _ ← require (negb (rawPresent (CMR_Metadata request))) (unsupported "metadata");
  _ ← require (eqs (CMR_ServiceTier request) "") (unsupported "service_tier");
  _ ← require (negb (rawPresent (CMR_Thinking request))) (unsupported "thinking");
  require (negb (rawPresent (CMR_OutputConfig request))) (unsupported "output_config").

Definition client_stop (index : nat) (stop : string) (_ : unit) : error + unit :=
  require (negb (eqs stop ""))
    (clientInvalid (path ["stop_sequences"; index_text index])
       "stop sequences must not be empty" []).

(** The messages so far and the names of the tool calls by id. *)
Record client_state := { cs_messages : list Ir.Message; toolUseNames : gmap string string }.

(** One round of the inner loop: the id of a tool call gets its name, a tool
    result the name of its call.  The payload is there by the type. *)
Definition link_part (mi ci : nat) (item : Content) (st : list Content * gmap string string)
    : error + (list Content * gmap string string) :=
  let '(MkContent type text image call result) := item in
  if eqs type ContentToolCall then
    match call with
    | Some call =>
        _ ← require (none (st.2 !! Call_ID call))
              (clientInvalid (block_path mi ci "id") "tool_use ids must be unique" []);
        mret (st.1 ++ [item], <[Call_ID call := Call_Name call]> st.2)
    | None => mret (st.1 ++ [item], st.2)
    end
  else if eqs type ContentToolResult then
    match result with
    | Some (MkToolResult callID _ contents res isError) =>
        name ← result_of (st.2 !! callID)
          (clientInvalid (block_path mi ci "tool_use_id")
             "tool_result references unknown prior tool_use id %q" [AStr callID]);
        mret (st.1 ++ [MkContent type text image call
                         (Some (MkToolResult callID name contents res isError))], st.2)
    | None => mret (st.1 ++ [item], st.2)
    end
  else mret (st.1 ++ [item], st.2).

Definition client_message (mi : nat) (message : ClientMessage) (st : client_state)
    : error + client_state :=
  _ ← require (eqs (ClM_Role message) "user" || eqs (ClM_Role message) "assistant")
        (clientInvalid (path ["messages"; index_text mi; "role"])
           "message role must be user or assistant" []);
  content ← on_error
    (λ e, clientInvalid (path ["messages"; index_text mi; "content"]) "%v" [AErr e])
    (parseClientBlocks (ClM_Content message) (ClM_Role message) false);
  let role := if hasToolResult content then RoleTool else ClM_Role message in
  '(linked, names) ← range (link_part mi) 0 content ([], toolUseNames st);
  mret {| cs_messages := cs_messages st ++ [{| Message_Role := role; Message_Content := linked |}];
          toolUseNames := names |}.

Definition client_tool (index : nat) (tool : Tool) (st : list Ir.Tool * gset string)
    : error + (list Ir.Tool * gset string) :=
  let name := TrimSpace (AT_Name tool) in
  _ ← require (negb (eqs name "") && isJSONObject (AT_InputSchema tool))
        (clientInvalid (path ["tools"; index_text index])
           "tools require a name and object input_schema" []);
  _ ← require (negb (bool_decide (name ∈ st.2)))
        (clientInvalid (path ["tools"; index_text index; "name"]) "tool names must be unique" []);
  mret (st.1 ++ [{| Tool_Name := name; Tool_Description := AT_Description tool;
                    Tool_InputSchema := AT_InputSchema tool; Tool_Strict := AT_Strict tool |}],
        {[ name ]} ∪ st.2).

Definition client_mode (choice : ToolChoice) (hasTools : bool)
    : error + option (string * string) :=
  if eqs (AC_Type choice) "none" then
    _ ← require (negb (AC_DisableParallelToolUse choice))
          (clientInvalid "tool_choice.disable_parallel_tool_use"
             "disable_parallel_tool_use cannot be used with tool_choice none" []);
    mret (if hasTools then Some ("none", "") else None)
  else if eqs (AC_Type choice) "auto" then mret (Some ("auto", ""))
  else if eqs (AC_Type choice) "any" then mret (Some ("required", ""))
  else if eqs (AC_Type choice) "tool" then
    _ ← require (negb (eqs (AC_Name choice) ""))
          (clientInvalid "tool_choice.name" "named tool_choice requires a name" []);
    mret (Some ("named", AC_Name choice))
  else inl (clientInvalid "tool_choice.type" "unsupported tool_choice type %q"
              [AStr (AC_Type choice)]).

Definition client_choice (choice : ToolChoice) (hasTools : bool) : error + option Ir.ToolChoice :=
  toolChoice ← client_mode choice hasTools;
  _ ← require (eqs (AC_Type choice) "none" || hasTools)
        (clientInvalid "tool_choice" "tool_choice requires at least one tool" []);
  mret match toolChoice with
       | Some (mode, name) =>
           Some {| Choice_Mode := mode; Choice_Name := name;
                   Choice_DisableParallel := AC_DisableParallelToolUse choice |}
       | None => None
       end.

Definition ToIRRequest (request : ClientMessageRequest) (route : Model.Route) (requestID : string)
    : error + Request :=
  _ ← require (negb (eqs (TrimSpace (CMR_Model request)) ""))
        (clientInvalid "model" "model is required" []);
  _ ← require (0 <? CMR_MaxTokens request)%Z
        (clientInvalid "max_tokens" "max_tokens must be positive" []);
  _ ← require (negb (bool_decide (CMR_Messages request = [])))
        (clientInvalid "messages" "messages must contain at least one item" []);
  _ ← require (negb (CMR_Stream request))
        (clientInvalid "stream" "streaming is not supported" []);
  _ ← client_unsupported request;
  _ ← require (unset_or (λ x, negb (outside_unit x)) (CMR_Temperature request))
        (clientInvalid "temperature" "temperature must be between 0 and 1" []);
  _ ← require (unset_or (λ x, negb (outside_unit x)) (CMR_TopP request))
        (clientInvalid "top_p" "top_p must be between 0 and 1" []);
  _ ← range client_stop 0 (CMR_StopSequences request) tt;
  system ← on_error (λ e, clientInvalid "system" "invalid system prompt: %v" [AErr e])
             (parseSystem (CMR_System request));
  let first :=
    if bool_decide (system = []) then []
    else [{| Message_Role := RoleSystem; Message_Content := system |}] in
  st ← range client_message 0 (CMR_Messages request)
         {| cs_messages := first; toolUseNames := ∅ |};
  '(tools, toolNames) ← range client_tool 0 (CMR_Tools request) ([], ∅);
  toolChoice ←
    match CMR_ToolChoice request with
    | Some choice => client_choice choice (negb (bool_decide (tools = [])))
    | None => mret None
    end;
  _ ← require (unset_or (λ c, negb (eqs (Choice_Mode c) "named") ||
                              bool_decide (Choice_Name c ∈ toolNames)) toolChoice)
        (clientInvalid "tool_choice.name" "selected tool %q is not present in tools"
           [AStr (default "" (Choice_Name <$> toolChoice))]);
  let result := {|
    Req_Version := Version; Req_ID := requestID;
    Req_Route := {| IR_ProviderID := Route_ProviderID route;
                    IR_UpstreamModel := Route_UpstreamModel route |};
    Req_Messages := cs_messages st; Req_MaxOutputTokens := Some (CMR_MaxTokens request);
    Req_Temperature := CMR_Temperature request; Req_TopP := CMR_TopP request;
    Req_Stop := CMR_StopSequences request; Req_Tools := tools; Req_ToolChoice := toolChoice;
    Req_Metadata := []; Req_Stream := false |} in
  _ ← on_error (λ e, clientInvalid "messages" "invalid request: %v" [AErr e])
        (Request_Validate result);
  mret result.

(** ** gateway_translate.go: [FromIRResponse] *)

Definition response_block (index : nat) (content : Content) : error + ContentBlock :=
  if eqs (Content_Type content) ContentText then mret (text_block (Content_Text content))
  else if eqs (Content_Type content) ContentToolCall then
    call ← result_of (Content_ToolCall content)
             (Errorf "response content[%d] has no tool_call payload" [AIdx index]);
    mret (use_block call)
  else if eqs (Content_Type content) ContentImage then
    inl (Errorf "response content[%d]: Anthropic Messages cannot represent model image output"
           [AIdx index])
  else inl (Errorf "response content[%d] has unsupported type %q"
              [AIdx index; AStr (Content_Type content)]).

(** The stop reason and the stop sequence. *)
Definition stop_of (response : Response) : error + (string * option string) :=
  let reason := Resp_FinishReason response in
  if eqs reason FinishStop then
    mret (if negb (eqs (Resp_StopSequence response) "")
          then ("stop_sequence", Some (Resp_StopSequence response)) else ("end_turn", None))
  else if eqs reason FinishLength then mret ("max_tokens", None)
  else if eqs reason FinishToolCalls then mret ("tool_use", None)
  else if eqs reason FinishContent then mret ("refusal", None)
  else inl (Errorf "unsupported IR finish reason %q" [AStr reason]).

Definition uncached_input (usage : Ir.Usage) : Z :=
  int64 (int64 (InputTokens usage - CacheCreationInputTokens usage) - CachedInputTokens usage).

Definition FromIRResponse (response : Response) (requestedModel messageID : string)
    : error + MessageResponse :=
  _ ← on_error (λ e, Errorf "invalid IR response: %w" [AWrap e]) (Response_Validate response);
  _ ← require (negb (eqs (TrimSpace requestedModel) "" || eqs messageID ""))
        (Errorf "requested model and message ID are required" []);
  let usage := Resp_Usage response in
  _ ← require (negb (uncached_input usage <? 0)%Z)
        (Errorf "IR input token total is smaller than its cache token details" []);
  content ← range_map response_block 0 (Resp_Content response);
  '(reason, sequence) ← stop_of response;
  mret {| MP_ID := messageID; MP_Type := "message"; MP_Role := "assistant"; MP_Content := content;
          MP_Model := requestedModel; MP_StopReason := reason; MP_StopSequence := sequence;
          MP_Usage := {|
            AU_InputTokens := uncached_input usage; AU_OutputTokens := OutputTokens usage;
            AU_CacheCreationInputTokens := CacheCreationInputTokens usage;
            AU_CacheReadInputTokens := CachedInputTokens usage |} |}.

(** ** translate.go *)

Definition image_source (image : Image) : error + ImageSource :=
  if negb (eqs (Image_URL image) "") then
    let malformed := Errorf "image URL must be an absolute HTTP(S) URL" [] in
    parsed ← result_of (ParseRequestURI (Image_URL image)) malformed;
    _ ← require ((eqs (Scheme parsed) "http" || eqs (Scheme parsed) "https") &&
                 negb (eqs (Host parsed) "")) malformed;
    _ ← require (eqs (Image_MediaType image) "" && eqs (Image_Data image) "")
          (Errorf "image cannot contain both URL and base64 fields" []);
    mret {| Src_Type := "url"; Src_URL := Image_URL image; Src_MediaType := ""; Src_Data := "" |}
  else
    _ ← require (image_media_type (Image_MediaType image))
          (Errorf "unsupported image media type %q" [AStr (Image_MediaType image)]);
    _ ← require (negb (none (StdDecode (Image_Data image))))
          (Errorf "invalid image base64 data: %w" [AWrap (NewError "illegal base64 data")]);
    mret {| Src_Type := "base64"; Src_URL := ""; Src_MediaType := Image_MediaType image;
            Src_Data := Image_Data image |}.

Fixpoint contentToAnthropic (content : Content) : error + ContentBlock :=
  let '(MkContent type text image call result) := content in
  if eqs type ContentText then mret (text_block text)
  else if eqs type ContentImage then
    image ← result_of image (Errorf "image content has no payload" []);
    source ← image_source image;
    mret (image_block source)
  else if eqs type ContentToolCall then
    call ← result_of call (Errorf "tool_call content has no payload" []);
    mret (use_block call)
  else if eqs type ContentToolResult then
    match result with
    | None => inl (Errorf "tool_result content has no payload" [])
    | Some (MkToolResult callID _ contents res isError) =>
        nested ← (fix each (l : list Content) : error + list ContentBlock :=
                    match l with
                    | [] => mret []
                    | item :: l' =>
                        block ← contentToAnthropic item; blocks ← each l'; mret (block :: blocks)
                    end) contents;
        mret (result_block callID (nested ++ if eqs res "" then [] else [text_block res]) isError)
    end
  else inl (Errorf "unsupported IR content type %q" [AStr type]).

(** The system prompt and the messages so far. *)
Record upstream_state := { us_system : list ContentBlock; us_messages : list Message }.

Definition upstream_message (index : nat) (message : Ir.Message) (st : upstream_state)
    : error + upstream_state :=
  blocks ← on_error (λ e, Errorf "messages[%d]: %w" [AIdx index; AWrap e])
    (range_map (λ _, contentToAnthropic) 0 (Message_Content message));
  let role := Message_Role message in
  let say speaker :=
    mret {| us_system := us_system st;
            us_messages := us_messages st ++ [{| AM_Role := speaker; AM_Content := blocks |}] |} in
  if eqs role RoleSystem then
    _ ← require (forallb (λ b, eqs (Block_Type b) "text") blocks)
          (Errorf "system messages may only contain text" []);
    mret {| us_system := us_system st ++ blocks; us_messages := us_messages st |}
  else if eqs role RoleUser then say "user"
  else if eqs role RoleAssistant then say "assistant"
  else if eqs role RoleTool then say "user"
  else inl (Errorf "unsupported IR message role %q" [AStr role]).

Definition upstream_tool (_ : nat) (tool : Ir.Tool) : error + Tool :=
  _ ← require (negb (eqs (TrimSpace (Tool_Name tool)) "") && isJSONObject (Tool_InputSchema tool))
        (Errorf "tools require a name and object input_schema" []);
  mret {| AT_Name := Tool_Name tool; AT_Description := Tool_Description tool;
          AT_InputSchema := Tool_InputSchema tool; AT_Strict := Tool_Strict tool |}.

Definition upstream_choice (choice : Ir.ToolChoice) : error + ToolChoice :=
  let mode := Choice_Mode choice in
  '(type, name) ←
    (if eqs mode "auto" then mret ("auto", "")
     else if eqs mode "none" then mret ("none", "")
     else if eqs mode "required" then mret ("any", "")
     else if eqs mode "named" then mret ("tool", Choice_Name choice)
     else inl (Errorf "unsupported tool choice mode %q" [AStr mode]));
  mret {| AC_Type := type; AC_Name := name;
          AC_DisableParallelToolUse := negb (eqs type "none") && Choice_DisableParallel choice |}.

Definition resolved_tokens (request : Request) (defaultMaxOutputTokens : Z) : Z :=
  default defaultMaxOutputTokens (Req_MaxOutputTokens request).

Definition ToMessageRequest (request : Request) (defaultMaxOutputTokens maxOutputTokens : Z)
    : error + MessageRequest :=
  _ ← Request_Validate request;
  _ ← require (negb (Req_Stream request)) (Errorf "streaming IR requests are not supported" []);
  _ ← require (bool_decide (Req_Metadata request = []))
        (Errorf "metadata is not supported by the Anthropic adapter" []);
  let resolved := resolved_tokens request defaultMaxOutputTokens in
  _ ← require (0 <? resolved)%Z
        (Errorf "max_output_tokens is required when the adapter has no positive default" []);
  _ ← require (negb ((0 <? maxOutputTokens) && (maxOutputTokens <? resolved))%Z)
        (Errorf "max_output_tokens must not exceed %d" [AInt maxOutputTokens]);
  st ← range upstream_message 0 (Req_Messages request) {| us_system := []; us_messages := [] |};
  _ ← require (negb (bool_decide (us_messages st = [])))
        (Errorf "at least one non-system message is required" []);
  tools ← range_map upstream_tool 0 (Req_Tools request);
  toolChoice ←
    match Req_ToolChoice request with
    | Some choice => sent ← upstream_choice choice; mret (Some sent)
    | None => mret None
    end;
  mret {| MR_Model := IR_UpstreamModel (Req_Route request); MR_MaxTokens := resolved;
          MR_Messages := us_messages st; MR_System := us_system st;
          MR_Temperature := Req_Temperature request; MR_TopP := Req_TopP request;
          MR_StopSequences := Req_Stop request; MR_Tools := tools; MR_ToolChoice := toolChoice;
          MR_Stream := false |}.

Definition finish_of (reason : string) : error + string :=
  if bool_decide (reason ∈ ["end_turn"; "stop_sequence"; "pause_turn"]) then mret FinishStop
  else if bool_decide (reason ∈ ["max_tokens"; "model_context_window_exceeded"]) then mret FinishLength
  else if eqs reason "tool_use" then mret FinishToolCalls
  else if eqs reason "refusal" then mret FinishContent
  else inl (Errorf "unsupported Anthropic stop_reason %q" [AStr reason]).

Definition output_content (index : nat) (block : ContentBlock) : error + Content :=
  let type := Block_Type block in
  if eqs type "text" then mret (text_content (Block_Text block))
  else if eqs type "tool_use" then
    _ ← require (negb (eqs (Block_ID block) "" || eqs (Block_Name block) "" ||
                       negb (isJSONObject (Block_Input block))))
          (Errorf "response content[%d] contains an invalid tool_use block" [AIdx index]);
    mret (call_content {| Call_ID := Block_ID block; Call_Name := Block_Name block;
                          Call_Arguments := Block_Input block; Call_Signature := "" |})
  else if eqs type "thinking" || eqs type "redacted_thinking" then
    inl (Errorf "response content[%d] contains unsupported thinking output" [AIdx index])
  else inl (Errorf "response content[%d] has unsupported Anthropic type %q"
              [AIdx index; AStr type]).

Definition negative_counts (usage : Usage) : bool :=
  ((AU_InputTokens usage <? 0) || (AU_OutputTokens usage <? 0) ||
   (AU_CacheCreationInputTokens usage <? 0) || (AU_CacheReadInputTokens usage <? 0))%Z.

Definition total_input (usage : Usage) : Z :=
  int64 (int64 (AU_InputTokens usage + AU_CacheCreationInputTokens usage) +
         AU_CacheReadInputTokens usage).

Definition blank_stop (sequence : option string) : bool :=
  match sequence with Some s => eqs (TrimSpace s) "" | None => true end.

Definition ToIRResponse (response : MessageResponse) (request : Request) : error + Response :=
  let upstream := IR_UpstreamModel (Req_Route request) in
  let usage := MP_Usage response in
  let stopped := eqs (MP_StopReason response) "stop_sequence" in
  _ ← require (negb (eqs (MP_ID response) "")) (Errorf "response id is required" []);
  _ ← require (eqs (MP_Type response) "message" && eqs (MP_Role response) "assistant")
        (Errorf "response must be an assistant message" []);
  _ ← require (eqs (MP_Model response) "" || eqs (MP_Model response) upstream)
        (Errorf "response model %q does not match requested model %q"
           [AStr (MP_Model response); AStr upstream]);
  _ ← require (negb (negative_counts usage))
        (Errorf "response usage token counts must not be negative" []);
  finish ← finish_of (MP_StopReason response);
  content ← range_map output_content 0 (MP_Content response);
  _ ← require (negb (stopped && blank_stop (MP_StopSequence response)))
        (Errorf "stop_sequence stop reason requires a stop sequence" []);
  _ ← require (stopped || none (MP_StopSequence response))
        (Errorf "stop_sequence must be null unless stop_reason is stop_sequence" []);
  let result := {|
    Resp_Version := Version; Resp_ID := Req_ID request; Resp_Model := upstream;
    Resp_Content := content; Resp_FinishReason := finish;
    Resp_StopSequence := default "" (MP_StopSequence response);
    Resp_Usage := {|
      InputTokens := total_input usage; OutputTokens := AU_OutputTokens usage;
      CacheCreationInputTokens := AU_CacheCreationInputTokens usage;
      CachedInputTokens := AU_CacheReadInputTokens usage |};
    Resp_ProviderResponseID := MP_ID response |} in
  _ ← on_error (λ e, Errorf "invalid translated IR response: %w" [AWrap e])
        (Response_Validate result);
  mret result.
