(* ===== verification/AnthropicFacts.v ===== *)
(** * The Anthropic translations preserve meaning

    Which requests the adapter sends, that they ask for what the client asked
    for, and that the provider's answer reaches the client. *)

From Stdlib Require Import SpecFloat Ascii.
From S2P Require Import Prelude GoStd Json JsonRaw GoText GoNet Errors Results Model.
From S2P Require Import Ir IrFacts Anthropic.

#[local] Arguments bool_decide : simpl never.

(** ** What the adapter sends *)

Definition sent_source (image : Image) : ImageSource :=
  if negb (eqs (Image_URL image) "") then
    {| Src_Type := "url"; Src_URL := Image_URL image; Src_MediaType := ""; Src_Data := "" |}
  else {| Src_Type := "base64"; Src_URL := ""; Src_MediaType := Image_MediaType image;
          Src_Data := Image_Data image |}.

Definition sent_plain (c : Content) : ContentBlock :=
  match Content_Image c with
  | Some image => image_block (sent_source image)
  | None => text_block (Content_Text c)
  end.

Definition sent_block (c : Content) : ContentBlock :=
  match Content_ToolCall c, Content_ToolResult c with
  | Some call, _ => use_block call
  | None, Some (MkToolResult callID _ contents res isError) =>
      result_block callID
        ((sent_plain <$> contents) ++ if eqs res "" then [] else [text_block res]) isError
  | None, None => sent_plain c
  end.

Definition speaker (role : string) : string :=
  if eqs role RoleAssistant then "assistant" else "user".
Definition sent_message (m : Ir.Message) : Message :=
  {| AM_Role := speaker (Message_Role m); AM_Content := sent_block <$> Message_Content m |}.

Definition sent_tool (t : Ir.Tool) : Tool :=
  {| AT_Name := Tool_Name t; AT_Description := Tool_Description t;
     AT_InputSchema := Tool_InputSchema t; AT_Strict := Tool_Strict t |}.

(** The choice types of the provider, by mode. *)
Definition choice_type (mode : string) : string :=
  if eqs mode "required" then "any" else if eqs mode "named" then "tool" else mode.
Definition sent_choice (c : Ir.ToolChoice) : ToolChoice :=
  {| AC_Type := choice_type (Choice_Mode c);
     AC_Name := if eqs (Choice_Mode c) "named" then Choice_Name c else "";
     AC_DisableParallelToolUse := negb (eqs (Choice_Mode c) "none") && Choice_DisableParallel c |}.

Definition systems (ms : list Ir.Message) : list Ir.Message :=
  filter (λ m, Message_Role m = RoleSystem) ms.
Definition conversation (ms : list Ir.Message) : list Ir.Message :=
  filter (λ m, Message_Role m ≠ RoleSystem) ms.

Definition sent_request (r : Request) (defaultMaxOutputTokens : Z) : MessageRequest := {|
  MR_Model := IR_UpstreamModel (Req_Route r);
  MR_MaxTokens := resolved_tokens r defaultMaxOutputTokens;
  MR_Messages := sent_message <$> conversation (Req_Messages r);
  MR_System := sent_block <$> parts (systems (Req_Messages r));
  MR_Temperature := Req_Temperature r; MR_TopP := Req_TopP r; MR_StopSequences := Req_Stop r;
  MR_Tools := sent_tool <$> Req_Tools r; MR_ToolChoice := sent_choice <$> Req_ToolChoice r;
  MR_Stream := false
|}.

Lemma image_source_ok image : image_ok image → image_source image = inr (sent_source image).
Proof.
  unfold image_source, sent_source, image_url_ok. intros [(Hu & -> & -> & Hok)|(-> & Hm & Hd & bytes & Hb)].
  - rewrite (proj2 (eqs_false _ _) Hu). unfold image_url_ok in Hok.
    destruct (ParseRequestURI (Image_URL image)) as [u|]; [|done].
    apply andb_true_iff in Hok as [Hok _]. cbn -[eqs]. by rewrite Hok.
  - rewrite eqs_refl. cbn -[eqs image_media_type]. by rewrite Hm, Hb.
Qed.

Lemma plain_sent c : plain_ok c → contentToAnthropic c = inr (sent_plain c) ∧ sent_block c = sent_plain c.
Proof.
  destruct 1 as [text|image Hi%image_source_ok]; [done|]. split; [|done].
  cbn. by rewrite Hi.
Qed.

Lemma contentToAnthropic_ok c : content_ok c → contentToAnthropic c = inr (sent_block c).
Proof.
  destruct 1 as [c Hc%plain_sent|call _|[id name nested res err] (_ & _ & _ & Hn)].
  - by destruct Hc as [-> ->].
  - done.
  - cbn in Hn. cbn.
    match goal with |- context [?each nested] =>
      assert (each nested = inr (sent_plain <$> nested)) as -> end; [|done].
    induction Hn as [|c nested Hc Hn IH]; [done|]. destruct (plain_sent c Hc) as [-> _].
    cbn [mbind result_bind]. by rewrite IH.
Qed.

Lemma range_map_fmap {A B} (f : nat → A → error + B) (g : A → B) i l :
  (∀ k x, x ∈ l → f k x = inr (g x)) → range_map f i l = inr (g <$> l).
Proof.
  revert i. induction l as [|x l IH]; intros i Hf; [done|]. cbn. rewrite Hf by by left.
  cbn. rewrite IH; [done|]. intros k y Hy. apply Hf. by right.
Qed.

(** A message whose parts are well formed. *)
Definition parts_ok (m : Ir.Message) : Prop :=
  known_role (Message_Role m) = true ∧
  Forall (λ c, content_ok c ∧ allowed (Message_Role m) (Content_Type c) = true) (Message_Content m).

Lemma valid_parts_ok r : valid_request r → Forall parts_ok (Req_Messages r).
Proof.
  intros Hr. apply list.Forall_forall. intros m (ms1 & ms2 & Hm)%list_elem_of_split.
  destruct (vr_messages _ Hr _ _ _ Hm) as (Hk & _ & _ & Hf). split; [done|].
  apply list.Forall_forall. intros c (pre & post & Hc)%list_elem_of_split.
  by destruct (Hf _ _ _ Hc) as (? & ? & _).
Qed.

Lemma known_role_cases role : known_role role = true →
  role = RoleSystem ∨ role = RoleUser ∨ role = RoleAssistant ∨ role = RoleTool.
Proof.
  intros Hr%bool_decide_eq_true. rewrite !elem_of_cons, elem_of_nil in Hr. naive_solver.
Qed.

Lemma system_text c : content_ok c → allowed RoleSystem (Content_Type c) = true →
  Block_Type (sent_block c) = "text".
Proof. by intros [c' []| |] Ha. Qed.

Lemma upstream_message_ok i m st : parts_ok m →
  upstream_message i m st = inr
    (if eqs (Message_Role m) RoleSystem then
       {| us_system := us_system st ++ (sent_block <$> Message_Content m); us_messages := us_messages st |}
     else {| us_system := us_system st; us_messages := us_messages st ++ [sent_message m] |}).
Proof.
  intros [Hk Hp]. unfold upstream_message, sent_message.
  rewrite (range_map_fmap _ sent_block).
  2: { intros _ c Hc. apply contentToAnthropic_ok. by eapply list.Forall_forall in Hp as [? _]. }
  destruct m as [role content]. cbn [Message_Role Message_Content on_error mbind result_bind] in *.
  destruct (known_role_cases _ Hk) as [->|[->|[->| ->]]]; [|done..].
  assert (forallb (λ b, eqs (Block_Type b) "text") (sent_block <$> content) = true) as Ht.
  { apply forallb_forall. intros b (c & <- & Hc)%in_map_iff.
    apply list_elem_of_In in Hc. eapply list.Forall_forall in Hp as [Hok Ha]; [|exact Hc].
    by rewrite system_text. }
  cbn -[forallb fmap]. by rewrite Ht.
Qed.

Lemma range_upstream ms i st : Forall parts_ok ms →
  range upstream_message i ms st = inr {|
    us_system := us_system st ++ (sent_block <$> parts (systems ms));
    us_messages := us_messages st ++ (sent_message <$> conversation ms) |}.
Proof.
  intros Hms. revert i st. unfold systems, conversation.
  induction Hms as [|m ms Hm Hms IH]; intros i st; cbn [range].
  - cbn. rewrite !app_nil_r. by destruct st.
  - rewrite upstream_message_ok by done. cbn [mbind result_bind]. case_eqs.
    + rewrite list.filter_cons_True, list.filter_cons_False by (try done; auto).
      rewrite IH. cbn [us_system us_messages]. unfold parts. cbn [mbind list_bind].
      by rewrite fmap_app, app_assoc.
    + rewrite list.filter_cons_False, list.filter_cons_True by done.
      rewrite IH. cbn [us_system us_messages fmap list_fmap]. by rewrite <- app_assoc.
Qed.

Lemma conversation_nil ms : conversation ms = [] ↔ system_only ms.
Proof.
  unfold conversation, system_only. split.
  - intros H. apply list.Forall_forall. intros m Hm.
    destruct (decide (Message_Role m = RoleSystem)) as [|Hne]; [done|].
    assert (m ∈ filter (λ m, Message_Role m ≠ RoleSystem) ms) as Hin by by apply list_elem_of_filter.
    rewrite H in Hin. by apply elem_of_nil in Hin.
  - induction 1 as [|m ms Hm Hms IH]; [done|]. by rewrite list.filter_cons_False by naive_solver.
Qed.

Lemma upstream_tools_ok r i : valid_request r →
  range_map upstream_tool i (Req_Tools r) = inr (sent_tool <$> Req_Tools r).
Proof.
  intros Hr. apply range_map_fmap. intros k t (l1 & l2 & Ht)%list_elem_of_split.
  destruct (vr_tools _ Hr _ _ _ Ht) as (Hn & Hs & _). unfold upstream_tool.
  by rewrite (proj2 (eqs_false _ _) Hn), Hs.
Qed.

Lemma upstream_choice_ok tools c : choice_ok tools c → upstream_choice c = inr (sent_choice c).
Proof.
  destruct c as [mode name dis]. intros [_ Hm]. cbn [Choice_Mode Choice_Name] in Hm.
  rewrite !elem_of_cons, elem_of_nil in Hm. destruct Hm as [[->|[->|[->|[]]]]|[-> _]]; reflexivity.
Qed.

(** The output limit a request asks for, or gets, and the adapter's own. *)
Definition within (tokens maxOutputTokens : Z) : Prop :=
  (0 < tokens ∧ (maxOutputTokens ≤ 0 ∨ tokens ≤ maxOutputTokens))%Z.

Lemma ToMessageRequest_ok r d m up :
  ToMessageRequest r d m = inr up ↔
  valid_request r ∧ Req_Metadata r = [] ∧ within (resolved_tokens r d) m ∧ up = sent_request r d.
Proof.
  unfold ToMessageRequest, within.
  rewrite valid_first, !check_then, bool_decide_eq_true.
  assert (∀ P, valid_request r → range upstream_message 0 (Req_Messages r)
    {| us_system := []; us_messages := [] |} ≫= P = P {|
      us_system := sent_block <$> parts (systems (Req_Messages r));
      us_messages := sent_message <$> conversation (Req_Messages r) |} :> error + MessageRequest) as Hrange.
  { intros P Hr. by rewrite (range_upstream _ _ _ (valid_parts_ok r Hr)). }
  assert (valid_request r → match Req_ToolChoice r with
    | Some choice => sent ← upstream_choice choice; mret (Some sent)
    | None => mret None
    end = inr (sent_choice <$> Req_ToolChoice r) :> error + option ToolChoice) as Hchoice.
  { intros Hr. destruct (Req_ToolChoice r) as [c|] eqn:E; [|done].
    by rewrite (upstream_choice_ok (Req_Tools r) c) by by apply (vr_choice _ Hr). }
  assert (valid_request r →
    bool_decide (sent_message <$> conversation (Req_Messages r) = []) = false) as Hne.
  { intros Hr. apply bool_decide_eq_false. intros H%fmap_nil_inv%conversation_nil.
    by apply (vr_non_system _ Hr). }
  assert ((negb ((0 <? m) && (m <? resolved_tokens r d)) = true ↔
    m ≤ 0 ∨ resolved_tokens r d ≤ m)%Z) as Hmax.
  { by rewrite negb_true_iff, andb_false_iff, !Z.ltb_ge. }
  rewrite Hmax, Z.ltb_lt. split.
  - intros (Hr & _ & Hm & Hpos & Hlim & H).
    rewrite Hrange, upstream_tools_ok, Hchoice in H by done. cbn [us_messages] in H.
    rewrite Hne in H by done. injection H as <-. split_and!; done.
  - intros (Hr & Hm & [Hpos Hlim] & ->). 
    rewrite Hrange, upstream_tools_ok, Hchoice by done. cbn [us_messages]. rewrite Hne by done.
    split_and!; try done. by rewrite (vr_stream _ Hr).
Qed.

(** ** What the client asked for *)

Definition client_text (text : string) : ClientContentBlock := {|
  CB_Type := "text"; CB_Text := text; CB_Source := None; CB_ID := ""; CB_Name := ""; CB_Input := "";
  CB_ToolUseID := ""; CB_Content := ""; CB_IsError := false
|}.

(** The blocks of a content field: a string is one text block. *)
Definition client_view (raw : RawMessage) : option (list ClientContentBlock) :=
  match TrimSpace raw with
  | String c s =>
      if Ascii.eqb c dquote then
        text ← parse (String c s) ≫= dec_string; Some [client_text text]
      else l ← raw_array (String c s); all_some dec_block l
  | EmptyString => None
  end.

Definition nested_view (raw : RawMessage) : option (list ClientContentBlock) :=
  if rawPresent raw then client_view raw else Some [].

(** The provider's block has every field of the client's: the name without
    blanks around it, and a [null] input or content left out. *)
#[warnings="-register-all"]
Inductive same_block (b : ClientContentBlock) (u : ContentBlock) : Prop :=
| Same nested :
    Block_Type u = CB_Type b → Block_Text u = CB_Text b → Block_Source u = CB_Source b →
    Block_ID u = CB_ID b → Block_Name u = TrimSpace (CB_Name b) →
    (Block_Input u = CB_Input b ∨ Block_Input u = "" ∧ rawPresent (CB_Input b) = false) →
    Block_ToolUseID u = CB_ToolUseID b → Block_IsError u = CB_IsError b →
    nested_view (CB_Content b) = Some nested → Forall2 same_block nested (Block_Content u) →
    same_block b u.

(** A field that says what the blocks say. *)
Definition same_content (raw : RawMessage) (us : list ContentBlock) : Prop :=
  ∃ bs, client_view raw = Some bs ∧ Forall2 same_block bs us.

Lemma parseClientImage_ok source image :
  parseClientImage source = inr image → image_ok image → source = Some (sent_source image).
Proof.
  unfold parseClientImage. intros (s & Hs%result_of_ok & H)%bind_ok Hok. subst source. f_equal.
  destruct s as [type url media data]. cbn [Src_Type Src_URL Src_MediaType Src_Data] in H.
  destruct (eqs type "base64") eqn:E1; [|destruct (eqs type "url") eqn:E2; [|done]].
  - apply eqs_true in E1 as ->. apply check_then in H as [Hu%eqs_true H].
    repeat apply check_then in H as [_ H]. by injection H as <-; subst.
  - apply eqs_true in E2 as ->. apply check_then in H as [[->%eqs_true ->%eqs_true]%andb_true_iff H].
    apply bind_ok in H as (p & _ & [_ [= <-]]%check_then).
    destruct Hok as [(Hu & _)|(_ & Hm & _)]; [|done]. unfold sent_source. cbn in *.
    by rewrite (proj2 (eqs_false _ _) Hu).
Qed.

(** Split a conjunction of boolean tests into equations. *)
Ltac split_tests :=
  repeat match goal with
  | H : _ && _ = true |- _ => apply andb_true_iff in H as [? ?]
  | H : eqs _ _ = true |- _ => apply eqs_true in H
  | H : none _ = true |- _ => apply none_true in H
  | H : negb (eqs _ _) = true |- _ => apply eqs_false in H
  | H : negb _ = true |- _ => apply negb_true_iff in H
  end.

Lemma nested_none raw : rawPresent raw = false → nested_view raw = Some [].
Proof. unfold nested_view. by intros ->. Qed.

Section blocks.
Context (role : string) (nested : bool) (parse : RawMessage → error + list Content).
Context (Hparse : ∀ raw cs, parse raw = inr cs → Forall plain_ok cs →
  rawPresent raw = true ∧ same_content raw (sent_plain <$> cs)).

Lemma parse_block_same i b c :
  parse_block role nested parse i b = inr c → content_ok c → same_block b (sent_block c).
Proof.
  unfold parse_block, no_input, no_content. case_eqs; [|case_eqs; [|case_eqs; [|case_eqs]]];
    intros H Hok.
  - apply check_then in H as [Ht [= <-]]. split_tests. destruct b; cbn in *; subst.
    apply (Same _ _ []); cbn; rewrite ?nested_none by done; auto.
  - apply check_then in H as [_ H]. apply check_then in H as [Ht H].
    apply bind_ok in H as (image & Hi%on_error_ok & [= <-]). split_tests.
    inversion Hok as [? Hpl| |]; subst. inversion Hpl as [|? Him]; subst.
    apply parseClientImage_ok in Hi; [|done]. destruct b; cbn in *; subst.
    apply (Same _ _ []); cbn; rewrite ?nested_none by done; auto.
  - unfold parse_tool_use, no_content in H. apply check_then in H as [_ H].
    apply check_then in H as [_ H]. apply check_then in H as [Ht H].
    apply check_then in H as [Hu [= <-]]. split_tests. destruct b; cbn in *; subst.
    apply (Same _ _ []); cbn; rewrite ?nested_none by done; auto.
  - unfold parse_tool_result, no_input in H. apply check_then in H as [_ H].
    apply check_then in H as [_ H]. apply check_then in H as [Ht H].
    apply check_then in H as [Hu H]. apply bind_ok in H as (cs & Hcs%on_error_ok & [= <-]).
    split_tests. inversion Hok as [? Hpl| |? (_ & _ & _ & Hn)]; [by inversion Hpl|]. subst.
    cbn in Hn. destruct (Hparse _ _ Hcs Hn) as (Hp & bs & Hv & Hs). destruct b; cbn in *; subst.
    apply (Same _ _ bs); cbn; rewrite ?app_nil_r; unfold nested_view; rewrite ?Hp; auto.
  - by destruct (_ || _).
Qed.

Lemma parse_blocks_same raw cs :
  parse_blocks role nested parse raw = inr cs → Forall content_ok cs →
  rawPresent raw = true ∧ same_content raw (sent_block <$> cs).
Proof.
  unfold parse_blocks, same_content, client_view. intros [Hp H]%check_then Hok. split; [done|].
  destruct (TrimSpace raw) as [|c s]; [done|]. destruct (Ascii.eqb c dquote).
  - apply bind_ok in H as (text & Ht%on_error_ok%result_of_ok & [= <-]). rewrite Ht.
    eexists. split; [done|]. constructor; [|constructor].
    by apply (Same _ _ []); cbn; auto.
  - apply bind_ok in H as (bs & Hbs%on_error_ok%result_of_ok & H).
    apply check_then in H as [_ H]. exists bs. split; [done|].
    apply range_map_ok in H as [Hl Hb]. apply list.Forall2_fmap_r, list.Forall2_same_length_lookup.
    split; [done|]. intros k b c' Hbk Hck. eapply parse_block_same; [by eapply Hb|].
    by eapply list.Forall_lookup_1.
Qed.
End blocks.

Lemma plain_sent_blocks cs : Forall plain_ok cs → sent_block <$> cs = sent_plain <$> cs.
Proof.
  intros H. apply list_fmap_ext. intros k c Hc. apply plain_sent. by eapply list.Forall_lookup_1.
Qed.

Lemma parseClientBlocks_same raw role nested cs :
  parseClientBlocks raw role nested = inr cs → Forall content_ok cs →
  same_content raw (sent_block <$> cs).
Proof.
  intros H Hok. eapply parse_blocks_same; [|exact H|done].
  intros raw' cs' H' Hpl. unfold parse_nested in H'. rewrite <- plain_sent_blocks by done.
  eapply parse_blocks_same; [|exact H'|]; [done|].
  eapply list.Forall_impl; [exact Hpl|]. by constructor.
Qed.

(** *** Messages *)

(** Linking changes the name of a tool result, which is not sent. *)
Definition relinked (c c' : Content) : Prop :=
  sent_block c' = sent_block c ∧ (content_ok c' → content_ok c).

Lemma link_part_relinked mi ci c st st' :
  link_part mi ci c st = inr st' → ∃ c', st'.1 = st.1 ++ [c'] ∧ relinked c c'.
Proof.
  destruct c as [type text image call result]. unfold link_part. intros H.
  case_eq (eqs type ContentToolCall); intros E1; rewrite E1 in H; cbv iota in H;
    [|case_eq (eqs type ContentToolResult); intros E2; rewrite E2 in H; cbv iota in H].
  - destruct call as [call|].
    + apply check_then in H as [_ [= <-]]. by eexists.
    + injection H as <-. by eexists.
  - destruct result as [[callID n contents res isError]|].
    + apply bind_ok in H as (name & _ & [= <-]). eexists. split; [done|]. split; [done|].
      inversion 1 as [c Hc| |r Hr]; subst; [by inversion Hc|].
      by apply (ok_result (MkToolResult callID n contents res isError)).
    + injection H as <-. by eexists.
  - injection H as <-. by eexists.
Qed.

Lemma range_link mi i cs st st' :
  range (link_part mi) i cs st = inr st' → ∃ cs', st'.1 = st.1 ++ cs' ∧ Forall2 relinked cs cs'.
Proof.
  revert i st. induction cs as [|c cs IH]; intros i st; cbn [range].
  - intros [= <-]. exists []. by rewrite app_nil_r.
  - intros (st1 & (c' & Hc' & Hr)%link_part_relinked & (cs' & Hcs' & Hrs)%IH)%bind_ok.
    exists (c' :: cs'). split; [by rewrite Hcs', Hc', <- app_assoc|by constructor].
Qed.

Lemma relinked_all cs cs' : Forall2 relinked cs cs' →
  sent_block <$> cs' = sent_block <$> cs ∧ (Forall content_ok cs' → Forall content_ok cs).
Proof.
  induction 1 as [|c c' cs cs' [Hs Hok] _ [IHs IHok]]; [done|]. cbn. rewrite Hs, IHs.
  split; [done|]. rewrite !list.Forall_cons. tauto.
Qed.

(** Tool results are the user's. *)
Lemma parse_blocks_result role nested parse raw cs :
  parse_blocks role nested parse raw = inr cs → hasToolResult cs = true → role = "user".
Proof.
  unfold parse_blocks. intros [_ H]%check_then. destruct (TrimSpace raw) as [|c s]; [done|].
  destruct (Ascii.eqb c dquote).
  - apply bind_ok in H as (text & _ & [= <-]). done.
  - apply bind_ok in H as (bs & _ & H). apply check_then in H as [_ [Hl H]%range_map_ok].
    intros (x & Hx & Ht%eqs_true)%existsb_exists. apply list_elem_of_In, list_elem_of_lookup in Hx as [k Hk].
    destruct (lookup_lt_is_Some_2 bs k) as [b Hb]; [rewrite <- Hl; by eapply lookup_lt_Some|].
    specialize (H _ _ _ Hb Hk). revert H. unfold parse_block.
    case_eqs; [|case_eqs; [|case_eqs; [|case_eqs]]].
    + by intros [_ [= <-]]%check_then.
    + intros [_ [_ (im & _ & [= <-])%bind_ok]%check_then]%check_then. done.
    + unfold parse_tool_use. by intros [_ [_ [_ [_ [= <-]]%check_then]%check_then]%check_then]%check_then.
    + unfold parse_tool_result. by intros [_ [Hu%eqs_true _]%check_then]%check_then.
    + by destruct (_ || _).
Qed.

Definition same_message (m : ClientMessage) (u : Message) : Prop :=
  AM_Role u = ClM_Role m ∧ same_content (ClM_Content m) (AM_Content u).

(** A client's message and its translation. *)
Definition accepted (m : ClientMessage) (im : Ir.Message) : Prop :=
  Message_Role im ≠ RoleSystem ∧
  (Forall content_ok (Message_Content im) → same_message m (sent_message im)).

Lemma client_message_accepted mi m st st' :
  client_message mi m st = inr st' →
  ∃ im, cs_messages st' = cs_messages st ++ [im] ∧ accepted m im.
Proof.
  unfold client_message. intros [Hr H]%check_then.
  apply bind_ok in H as (content & Hc%on_error_ok & H). apply bind_ok in H as ([linked names] & Hl & [= <-]).
  apply range_link in Hl as (cs' & Hcs' & [Hs Hok]%relinked_all). cbn in Hcs'. subst cs'.
  eexists. split; [done|]. unfold accepted, same_message, sent_message. cbn [Message_Role Message_Content AM_Role AM_Content].
  pose proof (parse_blocks_result _ _ _ _ _ Hc) as Hrole.
  apply orb_true_iff in Hr as [Hr%eqs_true|Hr%eqs_true]; rewrite Hr in *.
  - split; [by destruct (hasToolResult content)|]. intros Hl. split; [by destruct (hasToolResult content)|].
    rewrite Hs. eapply parseClientBlocks_same; [exact Hc|by apply Hok].
  - destruct (hasToolResult content); [by specialize (Hrole eq_refl)|]. split; [done|].
    intros Hl. split; [done|]. rewrite Hs. eapply parseClientBlocks_same; [exact Hc|by apply Hok].
Qed.

Lemma range_accepted ms first names st :
  range client_message 0 ms {| cs_messages := first; toolUseNames := names |} = inr st →
  ∃ ims, cs_messages st = first ++ ims ∧ Forall2 accepted ms ims.
Proof.
  apply (range_ok client_message (λ ds st, ∃ ims, cs_messages st = first ++ ims ∧ Forall2 accepted ds ims)).
  - exists []. cbn. by rewrite app_nil_r.
  - intros ds m st1 st2 (ims & Hims & Hds) (im & -> & Him)%client_message_accepted.
    exists (ims ++ [im]). rewrite Hims, <- app_assoc. split; [done|].
    apply Forall2_app; [done|]. by constructor.
Qed.

Lemma accepted_conversation ms ims : Forall2 accepted ms ims →
  conversation ims = ims ∧ systems ims = [].
Proof.
  unfold conversation, systems. induction 1 as [|m im ms ims [Hr _] _ [IH1 IH2]]; [done|].
  by rewrite list.filter_cons_True, list.filter_cons_False, IH1, IH2.
Qed.

Lemma conversation_app l1 l2 : conversation (l1 ++ l2) = conversation l1 ++ conversation l2.
Proof. apply list.filter_app. Qed.
Lemma systems_app l1 l2 : systems (l1 ++ l2) = systems l1 ++ systems l2.
Proof. apply list.filter_app. Qed.

(** *** Tools *)

(** The tool a client defines, its name without blanks around it. *)
Definition trimmed_tool (t : Tool) : Tool :=
  {| AT_Name := TrimSpace (AT_Name t); AT_Description := AT_Description t;
     AT_InputSchema := AT_InputSchema t; AT_Strict := AT_Strict t |}.

Lemma range_client_tools ts tools names :
  range client_tool 0 ts ([], ∅) = inr (tools, names) → sent_tool <$> tools = trimmed_tool <$> ts.
Proof.
  intros H. apply (range_ok client_tool (λ ds st, sent_tool <$> st.1 = trimmed_tool <$> ds))
    in H; [done|done|]. clear. intros ds t [tools names] st' IH H.
  cbn [fst] in *. unfold client_tool in H. apply check_then in H as [_ [_ [= <-]]%check_then].
  cbn [fst]. by rewrite !fmap_app, IH.
Qed.

(** The choice a client makes: none among no tools is no choice, and only a
    choice of one tool names it. *)
Definition effective_choice (request : ClientMessageRequest) : option ToolChoice :=
  c ← CMR_ToolChoice request;
  if eqs (AC_Type c) "none" && bool_decide (CMR_Tools request = []) then None
  else Some {| AC_Type := AC_Type c; AC_Name := if eqs (AC_Type c) "tool" then AC_Name c else "";
               AC_DisableParallelToolUse := AC_DisableParallelToolUse c |}.

Lemma client_choice_ok c hasTools choice :
  client_choice c hasTools = inr choice →
  sent_choice <$> choice =
    if eqs (AC_Type c) "none" && negb hasTools then None
    else Some {| AC_Type := AC_Type c; AC_Name := if eqs (AC_Type c) "tool" then AC_Name c else "";
                 AC_DisableParallelToolUse := AC_DisableParallelToolUse c |}.
Proof.
  unfold client_choice, client_mode. intros (mode & Hm & [_ [= <-]]%check_then)%bind_ok. revert Hm.
  destruct c as [type name dis]. cbn [AC_Type AC_Name AC_DisableParallelToolUse].
  case_eqs; [|case_eqs; [|case_eqs; [|case_eqs; [|done]]]].
  - intros [->%negb_true_iff [= <-]]%check_then. by destruct hasTools.
  - by intros [= <-].
  - by intros [= <-].
  - by intros [_ [= <-]]%check_then.
Qed.

(** ** The theorems *)

Definition upstream_system (request : ClientMessageRequest) (us : list ContentBlock) : Prop :=
  if rawPresent (CMR_System request) then same_content (CMR_System request) us else us = [].

Lemma parseSystem_ok request system :
  parseSystem (CMR_System request) = inr system →
  Forall content_ok system → upstream_system request (sent_block <$> system).
Proof.
  unfold parseSystem, upstream_system. destruct (rawPresent _); cbn [negb]; [|by intros [= <-]].
  intros (cs & Hcs & H)%bind_ok Hok. apply check_then in H as [_ (_ & _ & [= ->])%bind_ok].
  by eapply parseClientBlocks_same.
Qed.

Lemma ToIRRequest_ok req route id r :
  ToIRRequest req route id = inr r →
  valid_request r ∧ Req_Metadata r = [] ∧
  IR_UpstreamModel (Req_Route r) = Route_UpstreamModel route ∧
  Req_MaxOutputTokens r = Some (CMR_MaxTokens req) ∧
  Req_Temperature r = CMR_Temperature req ∧ Req_TopP r = CMR_TopP req ∧
  Req_Stop r = CMR_StopSequences req ∧
  upstream_system req (sent_block <$> parts (systems (Req_Messages r))) ∧
  Forall2 same_message (CMR_Messages req) (sent_message <$> conversation (Req_Messages r)) ∧
  sent_tool <$> Req_Tools r = trimmed_tool <$> CMR_Tools req ∧
  sent_choice <$> Req_ToolChoice r = effective_choice req.
Proof.
  unfold ToIRRequest. intros H. do 4 apply check_then in H as [_ H].
  apply bind_ok in H as (_ & _ & H). do 2 apply check_then in H as [_ H].
  apply bind_ok in H as (_ & _ & H). apply bind_ok in H as (system & Hsys%on_error_ok & H).
  apply bind_ok in H as (st & (ims & Hst & Hims)%range_accepted & H).
  apply bind_ok in H as ([tools names] & Htools%range_client_tools & H).
  apply bind_ok in H as (choice & Hchoice & H). apply check_then in H as [_ H].
  apply valid_then in H as [Hv [= <-]].
  pose proof (valid_parts_ok _ Hv) as Hparts. split; [exact Hv|]. clear Hv.
  destruct (accepted_conversation _ _ Hims) as [Hc1 Hc2].
  cbn [Req_Metadata Req_Route Req_MaxOutputTokens Req_Temperature Req_TopP Req_Stop Req_Messages
    Req_Tools Req_ToolChoice IR_UpstreamModel] in *.
  rewrite Hst in Hparts |- *. apply list.Forall_app in Hparts as [Hp1 Hp2].
  split_and!; try done.
  - rewrite systems_app, Hc2, app_nil_r.
    assert (Forall content_ok system ∧ parts (systems (if bool_decide (system = []) then []
      else [{| Message_Role := RoleSystem; Message_Content := system |}])) = system) as [Hok ->].
    { destruct (bool_decide (system = [])) eqn:E.
      - apply bool_decide_eq_true in E as ->. by split; [constructor|].
      - inversion Hp1 as [|? ? [_ Hok] _]; subst. cbn in Hok. split;
          [|by unfold systems; rewrite list.filter_cons_True by done; unfold parts; cbn; rewrite app_nil_r].
        eapply list.Forall_impl; [exact Hok|]. by intros ? [? _]. }
    by apply parseSystem_ok.
  - rewrite conversation_app, Hc1.
    assert (conversation (if bool_decide (system = []) then []
      else [{| Message_Role := RoleSystem; Message_Content := system |}]) = []) as ->
      by by destruct (bool_decide _).
    clear -Hims Hp2. cbn [app]. induction Hims as [|m im ms ims [_ Hm] Hims IH]; [constructor|].
    inversion Hp2 as [|? ? [_ Hok] Hp]; subst. constructor; [|by apply IH]. apply Hm.
    eapply list.Forall_impl; [exact Hok|]. by intros ? [? _].
  - unfold effective_choice. destruct (CMR_ToolChoice req) as [c|]; [|by injection Hchoice as <-].
    apply client_choice_ok in Hchoice as ->. cbn [mbind option_bind]. rewrite negb_involutive.
    assert (bool_decide (tools = []) = bool_decide (CMR_Tools req = [])) as ->; [|done].
    apply bool_decide_ext. apply (f_equal length) in Htools. rewrite !length_fmap in Htools.
    by destruct tools, (CMR_Tools req).
Qed.

(** C21.  What the Anthropic adapter sends.  It translates exactly the
    requests that [Request.Validate] accepts, that have no metadata, and whose
    output limit, its own default when they name none, is positive and not
    above the adapter's; what it sends is [sent_request]: every message, part,
    tool and parameter of the request. *)
Theorem adapter_translates r d m up :
  ToMessageRequest r d m = inr up ↔
  valid_request r ∧ Req_Metadata r = [] ∧ within (resolved_tokens r d) m ∧ up = sent_request r d.
Proof. apply ToMessageRequest_ok. Qed.

(** C22.  What an Anthropic client asks for is what an Anthropic provider is
    asked for.  A request the gateway accepts is sent, unless it asks for more
    output than the adapter allows, for the model of the route, with the same
    limit, sampling parameters and stop sequences, the same tools and choice
    among them, the same system prompt, and message by message the same role
    and the same blocks with all their fields, those of tool results
    included. *)
Theorem messages_request_preserved req route id r d m :
  ToIRRequest req route id = inr r →
  (is_ok (ToMessageRequest r d m) = true ↔ (m ≤ 0 ∨ CMR_MaxTokens req ≤ m)%Z) ∧
  ∀ up, ToMessageRequest r d m = inr up →
    MR_Model up = Route_UpstreamModel route ∧ MR_MaxTokens up = CMR_MaxTokens req ∧
    MR_Temperature up = CMR_Temperature req ∧ MR_TopP up = CMR_TopP req ∧
    MR_StopSequences up = CMR_StopSequences req ∧ MR_Tools up = trimmed_tool <$> CMR_Tools req ∧
    MR_ToolChoice up = effective_choice req ∧ upstream_system req (MR_System up) ∧
    Forall2 same_message (CMR_Messages req) (MR_Messages up) ∧ MR_Stream up = false.
Proof.
  intros (Hv & Hmeta & Hmodel & Htok & Htemp & Htop & Hstop & Hsys & Hmsg & Htools & Hch)%ToIRRequest_ok.
  assert (resolved_tokens r d = CMR_MaxTokens req) as Hres by (unfold resolved_tokens; by rewrite Htok).
  split.
  - rewrite is_ok_inr. setoid_rewrite ToMessageRequest_ok. rewrite Hres. unfold within.
    split; [naive_solver|]. intros Hm. eexists. split_and!; try done. by eapply vr_tokens.
  - intros up (_ & _ & _ & ->)%ToMessageRequest_ok. unfold sent_request. by rewrite Hres.
Qed.

(** ** Responses *)

(** The block of an answer without the fields its type does not have. *)
Definition output_view (b : ContentBlock) : ContentBlock :=
  if eqs (Block_Type b) "text" then text_block (Block_Text b)
  else use_block {| Call_ID := Block_ID b; Call_Name := Block_Name b;
                    Call_Arguments := Block_Input b; Call_Signature := "" |}.

(** Stop reasons the protocol does not tell apart. *)
Definition portable_reason (reason : string) : string :=
  if eqs reason "pause_turn" then "end_turn"
  else if eqs reason "model_context_window_exceeded" then "max_tokens" else reason.

Definition counts_fit (u : Usage) : Prop :=
  fits64 (AU_InputTokens u) ∧ fits64 (AU_OutputTokens u) ∧
  fits64 (AU_CacheCreationInputTokens u) ∧ fits64 (AU_CacheReadInputTokens u).

Definition input_sum (u : Usage) : Z :=
  (AU_InputTokens u + AU_CacheCreationInputTokens u + AU_CacheReadInputTokens u)%Z.

Lemma total_input_sum u : total_input u = int64 (input_sum u).
Proof. apply int64_add. Qed.

Lemma uncached_total u out : counts_fit u →
  uncached_input {| InputTokens := total_input u; OutputTokens := out;
    CacheCreationInputTokens := AU_CacheCreationInputTokens u;
    CachedInputTokens := AU_CacheReadInputTokens u |} = AU_InputTokens u.
Proof.
  intros (Hi & _). unfold uncached_input. cbn. rewrite int64_sub, total_input_sum.
  replace (int64 (input_sum u) - _ - _)%Z with (int64 (input_sum u) -
    (AU_CacheCreationInputTokens u + AU_CacheReadInputTokens u))%Z by lia.
  rewrite int64_sub. unfold input_sum. rewrite <- (int64_id (AU_InputTokens u)) at 2 by done.
  f_equal. lia.
Qed.

Lemma response_blocks bs cs i j :
  range_map output_content i bs = inr cs →
  range_map response_block j cs = inr (output_view <$> bs).
Proof.
  revert i j cs. induction bs as [|b bs IH]; intros i j cs; cbn [range_map].
  - by intros [= <-].
  - intros (c & Hc & (cs' & Hcs & [= <-])%bind_ok)%bind_ok. cbn [range_map].
    rewrite (IH _ (S j) _ Hcs). clear -Hc. unfold output_content in Hc. unfold output_view. cbn [fmap list_fmap].
    destruct (eqs (Block_Type b) "text"); [by injection Hc as <-|].
    destruct (eqs (Block_Type b) "tool_use").
    + by apply check_then in Hc as [_ [= <-]].
    + by destruct (_ || _).
Qed.

Lemma ToIRResponse_ok resp req r :
  ToIRResponse resp req = inr r →
  valid_response r ∧
  negative_counts (MP_Usage resp) = false ∧
  range_map output_content 0 (MP_Content resp) = inr (Resp_Content r) ∧
  finish_of (MP_StopReason resp) = inr (Resp_FinishReason r) ∧
  (if eqs (MP_StopReason resp) "stop_sequence"
   then ∃ s, MP_StopSequence resp = Some s ∧ s ≠ "" ∧ Resp_StopSequence r = s
   else MP_StopSequence resp = None ∧ Resp_StopSequence r = "") ∧
  Resp_Usage r = {| InputTokens := total_input (MP_Usage resp);
    OutputTokens := AU_OutputTokens (MP_Usage resp);
    CacheCreationInputTokens := AU_CacheCreationInputTokens (MP_Usage resp);
    CachedInputTokens := AU_CacheReadInputTokens (MP_Usage resp) |}.
Proof.
  unfold ToIRResponse. intros [_ [_ [_ [Hneg H]%check_then]%check_then]%check_then]%check_then.
  apply bind_ok in H as (fin & Hfin & H). apply bind_ok in H as (cs & Hcs & H).
  apply check_then in H as [Hstop H]. apply check_then in H as [Hnone H].
  apply valid_answer in H as [Hv [= <-]]. split; [exact Hv|]. clear Hv.
  cbn [Resp_Content Resp_FinishReason Resp_StopSequence Resp_Usage].
  split; [by apply negb_true_iff|]. split; [done|]. split; [done|]. split; [|done].
  destruct (eqs (MP_StopReason resp) "stop_sequence"); cbn in Hstop, Hnone.
  - destruct (MP_StopSequence resp) as [s|]; [|done]. exists s. split_and!; try done.
    intros ->. by cbn in Hstop.
  - by apply none_true in Hnone as ->.
Qed.

Lemma stop_answered resp req r :
  ToIRResponse resp req = inr r →
  stop_of r = inr (portable_reason (MP_StopReason resp), MP_StopSequence resp).
Proof.
  intros (_ & _ & _ & Hf & Hs & _)%ToIRResponse_ok. unfold stop_of.
  unfold finish_of in Hf. destruct (eqs (MP_StopReason resp) "stop_sequence") eqn:E.
  - apply eqs_true in E. rewrite E in Hf |- *. injection Hf as <-. destruct Hs as (s & -> & Hne & ->).
    cbn -[eqs]. rewrite (proj2 (eqs_false _ _) Hne). done.
  - destruct Hs as [-> ->]. apply bool_decide_eq_false in E. destruct (bool_decide (_ ∈ ["end_turn"; _; _])) eqn:E1.
    + injection Hf as <-. apply bool_decide_eq_true in E1. rewrite !elem_of_cons, elem_of_nil in E1.
      destruct E1 as [-> |[?|[-> |[]]]]; done.
    + destruct (bool_decide (_ ∈ ["max_tokens"; _])) eqn:E2.
      * injection Hf as <-. apply bool_decide_eq_true in E2. rewrite !elem_of_cons, elem_of_nil in E2.
        destruct E2 as [-> |[-> |[]]]; done.
      * revert Hf. case_eqs; [by intros [= <-]; rewrite E0|]. case_eqs; [|done].
        intros [= <-]. by rewrite E3.
Qed.

(** C23.  What an Anthropic provider answers is what an Anthropic client gets:
    every block, the stop reason and stop sequence, and each token count,
    even where the sum of the counts does not fit in an [int].  The client
    cannot tell a paused turn from an ended one, nor a full context window
    from the output limit. *)
Theorem messages_response_preserved resp req r model messageID :
  ToIRResponse resp req = inr r → counts_fit (MP_Usage resp) →
  TrimSpace model ≠ "" → messageID ≠ "" →
  FromIRResponse r model messageID = inr {|
    MP_ID := messageID; MP_Type := "message"; MP_Role := "assistant";
    MP_Content := output_view <$> MP_Content resp; MP_Model := model;
    MP_StopReason := portable_reason (MP_StopReason resp); MP_StopSequence := MP_StopSequence resp;
    MP_Usage := MP_Usage resp |}.
Proof.
  intros Hr Hfit Hm Hid. pose proof (stop_answered _ _ _ Hr) as Hstop.
  destruct (ToIRResponse_ok _ _ _ Hr) as (Hv & Hneg & Hc & _ & _ & Hu).
  unfold FromIRResponse. rewrite Hu, uncached_total by done.
  apply valid_answer. split; [done|]. apply check_then. split.
  { rewrite negb_orb. apply andb_true_iff. by rewrite !eqs_false. }
  apply check_then. split.
  { apply negb_true_iff. unfold negative_counts in Hneg. by repeat apply orb_false_iff in Hneg as [Hneg _]. }
  rewrite (response_blocks _ _ _ _ Hc). cbn [mbind result_bind]. rewrite Hstop. cbn [mbind result_bind].
  by destruct (MP_Usage resp).
Qed.

(** C24.  The input count of an accepted answer is the sum of the provider's
    three counts, unless that sum reaches 2^64, when 2^64 is lost; a sum from
    2^63 on that stays below 2^64 is refused. *)
Theorem total_input_bounds resp req r :
  ToIRResponse resp req = inr r → counts_fit (MP_Usage resp) →
  (InputTokens (Resp_Usage r) = input_sum (MP_Usage resp) ∧ input_sum (MP_Usage resp) < two63 ∨
   InputTokens (Resp_Usage r) = input_sum (MP_Usage resp) - two64 ∧
   two64 <= input_sum (MP_Usage resp))%Z.
Proof.
  intros (Hv & Hneg & _ & _ & _ & Hu)%ToIRResponse_ok (Hi & _ & Hcc & Hcr).
  pose proof (vp_usage _ Hv) as (Hpos & _). rewrite Hu in *. cbn [InputTokens] in *.
  rewrite total_input_sum in *. unfold negative_counts in Hneg.
  repeat apply orb_false_iff in Hneg as [Hneg ?].
  destruct (int64_congr (input_sum (MP_Usage resp))) as [k Hk].
  pose proof (int64_fits (input_sum (MP_Usage resp))) as Hf.
  unfold fits64, input_sum in *.
  unfold two63, two64 in *. lia.
Qed.

(** ** A message with a tool, both ways *)

Module MessagesSample.
Definition source : ImageSource := {|
  Src_Type := "url"; Src_URL := "https://example.com/clock.png"; Src_MediaType := ""; Src_Data := "" |}.
Definition request : ClientMessageRequest := {|
  CMR_Model := "fast"; CMR_MaxTokens := 100;
  CMR_Messages := [
    {| ClM_Role := "user"; ClM_Content := requote
         "[{'type':'text','text':'time?'},{'type':'image','source':{'type':'url','url':'https://example.com/clock.png'}}]" |};
    {| ClM_Role := "assistant"; ClM_Content := requote
         "[{'type':'tool_use','id':'c1','name':' now ','input':{'zone': 1}}]" |};
    {| ClM_Role := "user"; ClM_Content := requote
         "[{'type':'tool_result','tool_use_id':'c1','content':'noon','is_error':true}]" |}];
  CMR_System := print (JStr "Be brief."); CMR_Temperature := Some float_one; CMR_TopP := None;
  CMR_StopSequences := ["END"];
  CMR_Tools := [{| AT_Name := "now "; AT_Description := "clock"; AT_InputSchema := "{}"; AT_Strict := None |}];
  CMR_ToolChoice := Some {| AC_Type := "any"; AC_Name := ""; AC_DisableParallelToolUse := true |};
  CMR_Stream := false; CMR_TopK := None; CMR_Metadata := "null"; CMR_ServiceTier := "";
  CMR_Thinking := ""; CMR_OutputConfig := "" |}.
Definition route : Model.Route := {|
  Route_ModelID := "m1"; Route_Alias := "fast"; Route_ProviderID := "p1";
  Route_UpstreamModel := "claude"; Route_AdapterAppID := "acme" |}.
Definition ir : Request := match ToIRRequest request route "r1" with
  | inr r => r | inl _ => IrSample.request (IrSample.result "c1" "now") end.
Definition response (tokens : Z) : MessageResponse := {|
  MP_ID := "up1"; MP_Type := "message"; MP_Role := "assistant";
  MP_Content := [text_block "No"]; MP_Model := "claude"; MP_StopReason := "pause_turn";
  MP_StopSequence := None; MP_Usage := {| AU_InputTokens := tokens; AU_OutputTokens := 2;
    AU_CacheCreationInputTokens := 9223372036854775807;
    AU_CacheReadInputTokens := 9223372036854775807 |} |}.
Definition zero_response : Response := {|
  Resp_Version := ""; Resp_ID := ""; Resp_Model := ""; Resp_Content := [];
  Resp_FinishReason := ""; Resp_StopSequence := ""; Resp_ProviderResponseID := "";
  Resp_Usage := {| InputTokens := 0; OutputTokens := 0; CacheCreationInputTokens := 0;
    CachedInputTokens := 0 |} |}.
Definition answer : Response := match ToIRResponse (response 7) ir with
  | inr r => r | inl _ => zero_response end.
End MessagesSample.

Lemma adapter_translates_witness :
  is_ok (ToMessageRequest MessagesSample.ir 4096 100) = true ∧
  is_ok (ToMessageRequest MessagesSample.ir 4096 99) = false ∧
  within (resolved_tokens MessagesSample.ir 4096) 100.
Proof.
  refine (conj eq_refl (conj eq_refl _)).
  refine (proj1 (proj2 (proj2 (proj1 (adapter_translates MessagesSample.ir 4096 100
    (sent_request MessagesSample.ir 4096)) _)))).
  vm_compute. reflexivity.
Defined.

Lemma messages_request_preserved_witness :
  ∃ up, ToMessageRequest MessagesSample.ir 4096 0 = inr up ∧
    Forall2 same_message (CMR_Messages MessagesSample.request) (MR_Messages up).
Proof.
  destruct (messages_request_preserved MessagesSample.request MessagesSample.route "r1"
    MessagesSample.ir 4096 0) as [_ H]; [vm_compute; reflexivity|].
  destruct (ToMessageRequest MessagesSample.ir 4096 0) as [e|up] eqn:E; [vm_compute in E; discriminate|].
  exists up. split; [reflexivity|]. apply (H up eq_refl).
Defined.

Lemma messages_response_preserved_witness :
  ∃ out, FromIRResponse MessagesSample.answer "fast" "msg" = inr out ∧
    MP_Usage out = MP_Usage (MessagesSample.response 7) ∧ MP_StopReason out = "end_turn".
Proof.
  refine (ex_intro _ _ (conj (messages_response_preserved (MessagesSample.response 7)
    MessagesSample.ir MessagesSample.answer "fast" "msg" _ _ _ _) (conj eq_refl eq_refl)));
    [vm_compute; reflexivity|unfold counts_fit, fits64, two63; cbn; lia|done|done].
Defined.

Lemma total_input_bounds_witness : (InputTokens (Resp_Usage MessagesSample.answer) = 5)%Z.
Proof.
  destruct (total_input_bounds (MessagesSample.response 7) MessagesSample.ir MessagesSample.answer)
    as [[_ H]|[H _]];
    [vm_compute; reflexivity|unfold counts_fit, fits64, two63; cbn; lia|vm_compute in H; discriminate|exact H].
Defined.
