(* ===== verification/AnthropicHttp.v ===== *)
(** * The Anthropic Messages protocol over HTTP ([internal/anthropic])

    The structs of [types.go] on the wire, the adapter of Anthropic providers
    ([http.go]) and the gateway handler ([gateway_http.go]). *)

From Stdlib Require Import SpecFloat.
From S2P Require Import Prelude GoStd Json JsonRaw GoText GoFloat GoTime GoFmt Errors Results State Model.
From S2P Require Import Repository Svc Service Platform Wire Http Registry Dapr Ir DaprState AdapterConfig.
From S2P Require Import Runtime Dataplane IrWire Adapter Anthropic.

(** ** types.go *)

Definition ImageSource_text (s : ImageSource) : option string := struct_text
  [must "type" (string_text (Src_Type s)); omit_string "url" (Src_URL s);
   omit_string "media_type" (Src_MediaType s); omit_string "data" (Src_Data s)].

Fixpoint ContentBlock_text (b : ContentBlock) : option string :=
  match b with
  | MkContentBlock type text source id name input tool content isError => struct_text
      [must "type" (string_text type); omit_string "text" text;
       omit_pointer "source" ImageSource_text source; omit_string "id" id; omit_string "name" name;
       omit_raw "input" input; omit_string "tool_use_id" tool;
       omit_slice "content" ContentBlock_text content; omit_bool "is_error" isError]
  end.

Definition Tool_text (t : Tool) : option string := struct_text
  [must "name" (string_text (AT_Name t)); omit_string "description" (AT_Description t);
   must "input_schema" (raw_text (AT_InputSchema t)); omit_pointer "strict" bool_text (AT_Strict t)].
Definition ToolChoice_text (c : ToolChoice) : option string := struct_text
  [must "type" (string_text (AC_Type c)); omit_string "name" (AC_Name c);
   omit_bool "disable_parallel_tool_use" (AC_DisableParallelToolUse c)].

(** Messages and their blocks are never nil. *)
Definition Message_text (m : Message) : option string := struct_text
  [must "role" (string_text (AM_Role m));
   must "content" (slice_text ContentBlock_text (AM_Content m))].
Definition MessageRequest_text (r : MessageRequest) : option string := struct_text
  [must "model" (string_text (MR_Model r)); must "max_tokens" (int_text (MR_MaxTokens r));
   must "messages" (slice_text Message_text (MR_Messages r));
   omit_slice "system" ContentBlock_text (MR_System r);
   omit_pointer "temperature" FormatFloat (MR_Temperature r); omit_pointer "top_p" FormatFloat (MR_TopP r);
   omit_slice "stop_sequences" string_text (MR_StopSequences r); omit_slice "tools" Tool_text (MR_Tools r);
   omit_pointer "tool_choice" ToolChoice_text (MR_ToolChoice r);
   must "stream" (bool_text (MR_Stream r))].

Definition Usage_text (u : Usage) : option string := struct_text
  [must "input_tokens" (int_text (AU_InputTokens u)); must "output_tokens" (int_text (AU_OutputTokens u));
   omit_int "cache_creation_input_tokens" (AU_CacheCreationInputTokens u);
   omit_int "cache_read_input_tokens" (AU_CacheReadInputTokens u)].
(** The content is built by appending to a nil slice. *)
Definition MessageResponse_text (r : MessageResponse) : option string := struct_text
  [must "id" (string_text (MP_ID r)); must "type" (string_text (MP_Type r));
   must "role" (string_text (MP_Role r));
   must "content" (nil_slice_text ContentBlock_text (MP_Content r));
   must "model" (string_text (MP_Model r)); must "stop_reason" (string_text (MP_StopReason r));
   must "stop_sequence" (pointer_text string_text (MP_StopSequence r));
   must "usage" (Usage_text (MP_Usage r))].

Record ErrorResponse := {
  ER_Type : string; ER_ErrorType : string; ER_Message : string; ER_RequestID : string
}.
Definition ErrorResponse_text (e : ErrorResponse) : option string := struct_text
  [must "type" (string_text (ER_Type e));
   must "error" (struct_text [must "type" (string_text (ER_ErrorType e));
                              must "message" (string_text (ER_Message e))]);
   omit_string "request_id" (ER_RequestID e)].

Definition zero_tool : Tool :=
  {| AT_Name := ""; AT_Description := ""; AT_InputSchema := ""; AT_Strict := None |}.
Definition zero_choice : ToolChoice :=
  {| AC_Type := ""; AC_Name := ""; AC_DisableParallelToolUse := false |}.
Definition zero_client_message : ClientMessage := {| ClM_Role := ""; ClM_Content := "" |}.
Definition zero_client_request : ClientMessageRequest := {|
  CMR_Model := ""; CMR_MaxTokens := 0; CMR_Messages := []; CMR_System := "";
  CMR_Temperature := None; CMR_TopP := None; CMR_StopSequences := []; CMR_Tools := [];
  CMR_ToolChoice := None; CMR_Stream := false; CMR_TopK := None; CMR_Metadata := "";
  CMR_ServiceTier := ""; CMR_Thinking := ""; CMR_OutputConfig := "" |}.
Definition zero_block : ContentBlock := MkContentBlock "" "" None "" "" "" "" [] false.
Definition zero_message_usage : Usage := {|
  AU_InputTokens := 0; AU_OutputTokens := 0; AU_CacheCreationInputTokens := 0;
  AU_CacheReadInputTokens := 0 |}.
Definition zero_message_response : MessageResponse := {|
  MP_ID := ""; MP_Type := ""; MP_Role := ""; MP_Content := []; MP_Model := ""; MP_StopReason := "";
  MP_StopSequence := None; MP_Usage := zero_message_usage |}.

Section reading.
Context (strict : bool).

Definition read_ImageSource : reader ImageSource :=
  read_struct strict ["type"; "url"; "media_type"; "data"] (λ x m,
    type ← read_field read_string "type" (Src_Type x) m;
    url ← read_field read_string "url" (Src_URL x) m;
    media ← read_field read_string "media_type" (Src_MediaType x) m;
    data ← read_field read_string "data" (Src_Data x) m;
    Some {| Src_Type := type; Src_URL := url; Src_MediaType := media; Src_Data := data |}).

(** Every level of nesting takes at least one byte of the text. *)
Fixpoint read_block (fuel : nat) : reader ContentBlock := λ x raw,
  match fuel with
  | O => None
  | S fuel' =>
      read_struct strict
        ["type"; "text"; "source"; "id"; "name"; "input"; "tool_use_id"; "content"; "is_error"] (λ x m,
        type ← read_field read_string "type" (Block_Type x) m;
        text ← read_field read_string "text" (Block_Text x) m;
        source ← read_field (read_pointer zero_source read_ImageSource) "source" (Block_Source x) m;
        id ← read_field read_string "id" (Block_ID x) m;
        name ← read_field read_string "name" (Block_Name x) m;
        input ← read_field read_raw "input" (Block_Input x) m;
        tool ← read_field read_string "tool_use_id" (Block_ToolUseID x) m;
        content ← read_field (read_slice zero_block (read_block fuel')) "content" (Block_Content x) m;
        isError ← read_field read_bool "is_error" (Block_IsError x) m;
        Some (MkContentBlock type text source id name input tool content isError)) x raw
  end.
Definition read_ContentBlock : reader ContentBlock := λ x raw, read_block (S (String.length raw)) x raw.

Definition read_Tool : reader Tool :=
  read_struct strict ["name"; "description"; "input_schema"; "strict"] (λ x m,
    name ← read_field read_string "name" (AT_Name x) m;
    description ← read_field read_string "description" (AT_Description x) m;
    schema ← read_field read_raw "input_schema" (AT_InputSchema x) m;
    strict ← read_field (read_pointer false read_bool) "strict" (AT_Strict x) m;
    Some {| AT_Name := name; AT_Description := description; AT_InputSchema := schema;
            AT_Strict := strict |}).
Definition read_ToolChoice : reader ToolChoice :=
  read_struct strict ["type"; "name"; "disable_parallel_tool_use"] (λ x m,
    type ← read_field read_string "type" (AC_Type x) m;
    name ← read_field read_string "name" (AC_Name x) m;
    disable ← read_field read_bool "disable_parallel_tool_use" (AC_DisableParallelToolUse x) m;
    Some {| AC_Type := type; AC_Name := name; AC_DisableParallelToolUse := disable |}).
Definition read_ClientMessage : reader ClientMessage :=
  read_struct strict ["role"; "content"] (λ x m,
    role ← read_field read_string "role" (ClM_Role x) m;
    content ← read_field read_raw "content" (ClM_Content x) m;
    Some {| ClM_Role := role; ClM_Content := content |}).

Definition read_ClientMessageRequest : reader ClientMessageRequest :=
  read_struct strict
    ["model"; "max_tokens"; "messages"; "system"; "temperature"; "top_p"; "stop_sequences"; "tools";
     "tool_choice"; "stream"; "top_k"; "metadata"; "service_tier"; "thinking"; "output_config"] (λ x m,
    model ← read_field read_string "model" (CMR_Model x) m;
    tokens ← read_field read_int "max_tokens" (CMR_MaxTokens x) m;
    messages ← read_field (read_slice zero_client_message read_ClientMessage) "messages" (CMR_Messages x) m;
    system ← read_field read_raw "system" (CMR_System x) m;
    temperature ← read_field (read_pointer float_zero read_float) "temperature" (CMR_Temperature x) m;
    top ← read_field (read_pointer float_zero read_float) "top_p" (CMR_TopP x) m;
    stop ← read_field (read_slice "" read_string) "stop_sequences" (CMR_StopSequences x) m;
    tools ← read_field (read_slice zero_tool read_Tool) "tools" (CMR_Tools x) m;
    choice ← read_field (read_pointer zero_choice read_ToolChoice) "tool_choice" (CMR_ToolChoice x) m;
    stream ← read_field read_bool "stream" (CMR_Stream x) m;
    topK ← read_field (read_pointer 0%Z read_int) "top_k" (CMR_TopK x) m;
    metadata ← read_field read_raw "metadata" (CMR_Metadata x) m;
    tier ← read_field read_string "service_tier" (CMR_ServiceTier x) m;
    thinking ← read_field read_raw "thinking" (CMR_Thinking x) m;
    output ← read_field read_raw "output_config" (CMR_OutputConfig x) m;
    Some {| CMR_Model := model; CMR_MaxTokens := tokens; CMR_Messages := messages;
            CMR_System := system; CMR_Temperature := temperature; CMR_TopP := top;
            CMR_StopSequences := stop; CMR_Tools := tools; CMR_ToolChoice := choice;
            CMR_Stream := stream; CMR_TopK := topK; CMR_Metadata := metadata;
            CMR_ServiceTier := tier; CMR_Thinking := thinking; CMR_OutputConfig := output |}).

Definition read_Usage : reader Usage :=
  read_struct strict
    ["input_tokens"; "output_tokens"; "cache_creation_input_tokens"; "cache_read_input_tokens"] (λ x m,
    input ← read_field read_int "input_tokens" (AU_InputTokens x) m;
    output ← read_field read_int "output_tokens" (AU_OutputTokens x) m;
    creation ← read_field read_int "cache_creation_input_tokens" (AU_CacheCreationInputTokens x) m;
    cached ← read_field read_int "cache_read_input_tokens" (AU_CacheReadInputTokens x) m;
    Some {| AU_InputTokens := input; AU_OutputTokens := output;
            AU_CacheCreationInputTokens := creation; AU_CacheReadInputTokens := cached |}).
Definition read_MessageResponse : reader MessageResponse :=
  read_struct strict
    ["id"; "type"; "role"; "content"; "model"; "stop_reason"; "stop_sequence"; "usage"] (λ x m,
    id ← read_field read_string "id" (MP_ID x) m;
    type ← read_field read_string "type" (MP_Type x) m;
    role ← read_field read_string "role" (MP_Role x) m;
    content ← read_field (read_slice zero_block read_ContentBlock) "content" (MP_Content x) m;
    model ← read_field read_string "model" (MP_Model x) m;
    reason ← read_field read_string "stop_reason" (MP_StopReason x) m;
    stop ← read_field (read_pointer "" read_string) "stop_sequence" (MP_StopSequence x) m;
    usage ← read_field read_Usage "usage" (MP_Usage x) m;
    Some {| MP_ID := id; MP_Type := type; MP_Role := role; MP_Content := content; MP_Model := model;
            MP_StopReason := reason; MP_StopSequence := stop; MP_Usage := usage |}).
End reading.

(** ** http.go *)

Definition anthropic_api : provider_api MessageRequest MessageResponse := {|
  api_kind := ProviderKindAnthropic;
  api_accepts := "Anthropic";
  api_name := "Anthropic";
  api_limit _ _ := None;
  api_request config request :=
    ToMessageRequest request (DefaultMaxOutputTokens config) (MaxOutputTokens config);
  api_text := MessageRequest_text;
  api_endpoint config _ := inr (Cfg_BaseURL config +:+ "/v1/messages");
  api_header config apiKey requestID :=
    [("X-Api-Key", apiKey); ("Anthropic-Version", Cfg_APIVersion config);
     ("User-Agent", "gwai-anthropic-adapter/0.2")] ++
    unless_empty requestID [("X-Request-Id", requestID)];
  api_zero := zero_message_response;
  api_read := read_MessageResponse false;
  api_response := ToIRResponse |}.

Definition anthropic_generate : AdapterHTTPHandler → handler := Adapter.generate anthropic_api.
Definition NewAnthropicAdapter : AdapterHTTPHandler → http_request → svc http_response :=
  NewAdapterHTTPHandler anthropic_api.

(** ** gateway_http.go *)

Definition PublicAPIVersion : string := "2023-06-01".

Record GatewayHTTPHandler := { g_dispatcher : Dispatcher; g_maxBody : Z }.

Definition with_request_id (requestID : string) (response : http_response) : http_response :=
  if bool_decide (requestID = "") then response else with_header "Request-Id" requestID response.

Definition writeError (requestID : string) (status : Z) (errorType message : string) : http_response :=
  with_request_id requestID (JSON_text status (ErrorResponse_text {|
    ER_Type := "error"; ER_ErrorType := errorType; ER_Message := message;
    ER_RequestID := requestID |})).

Definition writeRuntimeError (requestID : string) (err : error) : http_response :=
  let write := writeError requestID in
  match errors_As as_translation err with
  | Some (param, code, format, args) =>
      write 400 "invalid_request_error" (Error (TranslationError param code format args))
  | None =>
      match errors_As as_validation err with
      | Some (field, message, args) =>
          write 400 "invalid_request_error" (Error (ValidationError field message args))
      | None =>
          if errors_Is err Unauthorized then write 401 "authentication_error" "invalid x-api-key"
          else if errors_Is err Forbidden then
            write 403 "permission_error" "the API key is not allowed to use the requested model"
          else if errors_Is err NotFound then
            write 404 "not_found_error" "the requested model does not exist"
          else if (if errors_As as_http err is Some status then status =? 429 else false)%Z then
            write 429 "rate_limit_error" "the upstream provider rate limit was exceeded"
          else
            write 502 "api_error" "the gateway could not complete the upstream request"
      end
  end%Z.

Definition or_error {A} (requestID : string) (p : prog A) (next : A → svc http_response)
    : svc http_response :=
  svc_bind_result (call p) (λ r,
    match r with inl err => mret (writeRuntimeError requestID err) | inr a => next a end).

(** [request.Model = strings.TrimSpace(request.Model)]. *)
Definition with_model (request : ClientMessageRequest) (model : string) : ClientMessageRequest := {|
  CMR_Model := model; CMR_MaxTokens := CMR_MaxTokens request; CMR_Messages := CMR_Messages request;
  CMR_System := CMR_System request; CMR_Temperature := CMR_Temperature request;
  CMR_TopP := CMR_TopP request; CMR_StopSequences := CMR_StopSequences request;
  CMR_Tools := CMR_Tools request; CMR_ToolChoice := CMR_ToolChoice request;
  CMR_Stream := CMR_Stream request; CMR_TopK := CMR_TopK request;
  CMR_Metadata := CMR_Metadata request; CMR_ServiceTier := CMR_ServiceTier request;
  CMR_Thinking := CMR_Thinking request; CMR_OutputConfig := CMR_OutputConfig request |}.

Definition createMessage (h : GatewayHTTPHandler) : handler := λ requestID r,
  let refuse message := mret (writeError requestID 400 "invalid_request_error" message) in
  let header name := TrimSpace (header_get name (Header r)) in
  let token := header "X-Api-Key" in
  let version := header "Anthropic-Version" in
  if eqs token "" then
    mret (writeError requestID 401 "authentication_error" "x-api-key header is required")
  else if eqs version "" then refuse "anthropic-version header is required"
  else if negb (eqs version PublicAPIVersion) then
    refuse ("unsupported anthropic-version; use " +:+ PublicAPIVersion)
  else if negb (eqs (header "Anthropic-Beta") "") then
    refuse "anthropic-beta features are not supported"
  else
    match DecodeBody zero_client_request (read_ClientMessageRequest true) (Body r) (g_maxBody h) with
    | inl err => refuse (Error err)
    | inr request =>
        let model := TrimSpace (CMR_Model request) in
        if eqs model "" then refuse "model is required"
        else
          or_error requestID
            (Generate (g_dispatcher h) token model requestID (ToIRRequest (with_model request model)))
            (λ response,
          or_error requestID (NewID "msg") (λ messageID,
            mret match FromIRResponse response model messageID with
                 | inl err => writeRuntimeError requestID err
                 | inr result =>
                     with_request_id requestID (JSON_text 200 (MessageResponse_text result))
                 end))
    end%Z.

Definition NewGatewayHTTPHandler (h : GatewayHTTPHandler) : http_request → svc http_response :=
  HTTPMiddleware (ServeMux (health_routes ++
    [{| rt_method := "POST"; rt_pattern := Http.path ["v1"; "messages"];
        rt_handler := λ _, createMessage h |}])).
