(* ===== verification/Gemini.v ===== *)
(** * The Gemini protocol ([internal/gemini])

    The wire types and the translation in both directions, for the client of
    the gateway ([ToIRRequest], [FromIRResponse]) and for the provider adapter
    ([ToProviderRequest], [ToIRResponse]).  A request is the struct that
    [encoding/json] decoded; its raw fields are texts. *)

From Stdlib Require Import SpecFloat Ascii.
From S2P Require Import Prelude GoStd Json GoText GoNet Errors Results Model Ir.

(** ** types.go *)

Definition SkipThoughtSignatureValidator : string := "skip_thought_signature_validator".

Record Blob := { Blob_MIMEType : string; Blob_Data : string }.
Record FileData := { File_MIMEType : string; File_URI : string }.
Record FunctionCall := { FC_ID : string; FC_Name : string; FC_Args : RawMessage }.
Record FunctionResponse := {
  FR_ID : string; FR_Name : string; FR_Response : RawMessage; FR_WillContinue : option bool;
  FR_Scheduling : string
}.
Record Part := {
  P_Text : option string; P_InlineData : option Blob; P_FileData : option FileData;
  P_FunctionCall : option FunctionCall; P_FunctionResponse : option FunctionResponse;
  P_ThoughtSignature : string; P_ExecutableCode : RawMessage; P_CodeExecution : RawMessage;
  P_VideoMetadata : RawMessage; P_Thought : option bool
}.
Record Content := { GC_Role : string; GC_Parts : list Part }.

Record FunctionDeclaration := {
  FD_Name : string; FD_Description : string; FD_Parameters : RawMessage;
  FD_ParametersJSONSchema : RawMessage; FD_Response : RawMessage;
  FD_ResponseJSONSchema : RawMessage; FD_Behavior : string
}.
Record Tool := {
  GT_FunctionDeclarations : list FunctionDeclaration; GT_GoogleSearch : RawMessage;
  GT_CodeExecution : RawMessage; GT_URLContext : RawMessage; GT_EnterpriseWebSearch : RawMessage
}.
Record FunctionCallingConfig := { FCC_Mode : string; FCC_AllowedFunctionNames : list string }.
Record ToolConfig := {
  TCfg_FunctionCallingConfig : option FunctionCallingConfig; TCfg_RetrievalConfig : RawMessage
}.
(** [ResponseModalities] and [SafetySettings] are slices that may be nil. *)
Record GenerationConfig := {
  Gen_StopSequences : list string; Gen_MaxOutputTokens : option Z;
  Gen_Temperature : option float64; Gen_TopP : option float64; Gen_CandidateCount : option Z;
  Gen_ResponseMIMEType : string; Gen_ResponseSchema : RawMessage;
  Gen_ResponseJSONSchema : RawMessage; Gen_ResponseModalities : option (list string);
  Gen_ThinkingConfig : RawMessage; Gen_TopK : option float64; Gen_Seed : option Z;
  Gen_PresencePenalty : option float64; Gen_FrequencyPenalty : option float64;
  Gen_ResponseLogprobs : option bool; Gen_Logprobs : option Z; Gen_MediaResolution : string
}.
Record GenerateContentRequest := {
  GR_Contents : list Content; GR_SystemInstruction : option Content; GR_Tools : list Tool;
  GR_ToolConfig : option ToolConfig; GR_GenerationConfig : option GenerationConfig;
  GR_SafetySettings : option (list RawMessage); GR_CachedContent : string;
  GR_Labels : option (list (string * string))
}.

Record Candidate := { Cand_Content : Content; Cand_FinishReason : string; Cand_Index : Z }.
Record PromptFeedback := { PF_BlockReason : string }.
Record UsageMetadata := {
  PromptTokenCount : Z; CandidatesTokenCount : Z; TotalTokenCount : Z;
  CachedContentTokenCount : Z; ThoughtsTokenCount : Z
}.
Record GenerateContentResponse := {
  GP_Candidates : list Candidate; GP_PromptFeedback : option PromptFeedback;
  GP_UsageMetadata : UsageMetadata; GP_ModelVersion : string; GP_ResponseID : string
}.

(** The literals [Part{...}] of the translators. *)
Definition empty_part : Part := {|
  P_Text := None; P_InlineData := None; P_FileData := None; P_FunctionCall := None;
  P_FunctionResponse := None; P_ThoughtSignature := ""; P_ExecutableCode := "";
  P_CodeExecution := ""; P_VideoMetadata := ""; P_Thought := None |}.
Definition text_part (text : string) : Part := {|
  P_Text := Some text; P_InlineData := None; P_FileData := None; P_FunctionCall := None;
  P_FunctionResponse := None; P_ThoughtSignature := ""; P_ExecutableCode := "";
  P_CodeExecution := ""; P_VideoMetadata := ""; P_Thought := None |}.
Definition inline_part (blob : Blob) : Part := {|
  P_Text := None; P_InlineData := Some blob; P_FileData := None; P_FunctionCall := None;
  P_FunctionResponse := None; P_ThoughtSignature := ""; P_ExecutableCode := "";
  P_CodeExecution := ""; P_VideoMetadata := ""; P_Thought := None |}.
Definition call_part (call : FunctionCall) (signature : string) : Part := {|
  P_Text := None; P_InlineData := None; P_FileData := None; P_FunctionCall := Some call;
  P_FunctionResponse := None; P_ThoughtSignature := signature; P_ExecutableCode := "";
  P_CodeExecution := ""; P_VideoMetadata := ""; P_Thought := None |}.
Definition response_part (response : FunctionResponse) : Part := {|
  P_Text := None; P_InlineData := None; P_FileData := None; P_FunctionCall := None;
  P_FunctionResponse := Some response; P_ThoughtSignature := ""; P_ExecutableCode := "";
  P_CodeExecution := ""; P_VideoMetadata := ""; P_Thought := None |}.

(** ** translate.go: helpers *)

Definition invalid (field format : string) (values : list farg) : error :=
  TranslationError field "" format values.

Definition rawPresent (value : RawMessage) : bool :=
  let trimmed := TrimSpace value in negb (eqs trimmed "") && negb (eqs trimmed "null").

(** Decoding into a map succeeds on an object; [null] leaves the map nil. *)
Definition jsonObject (value : RawMessage) : bool := isJSONObject value.

Definition validateInlineData (blob : option Blob) : error + Image :=
  let missing := Errorf "inlineData requires mimeType and data" [] in
  blob ← result_of blob missing;
  _ ← require (negb (eqs (Blob_MIMEType blob) "" || eqs (Blob_Data blob) "")) missing;
  _ ← require (image_media_type (Blob_MIMEType blob))
        (Errorf "unsupported inline image media type %q" [AStr (Blob_MIMEType blob)]);
  _ ← require (negb (none (StdDecode (Blob_Data blob))))
        (Errorf "inlineData contains invalid base64: %w" [AWrap (NewError "illegal base64 data")]);
  mret {| Image_URL := ""; Image_MediaType := Blob_MIMEType blob; Image_Data := Blob_Data blob |}.

Definition partVariantCount (part : Part) : nat :=
  Nat.b2n (negb (none (P_Text part))) + Nat.b2n (negb (none (P_InlineData part))) +
  Nat.b2n (negb (none (P_FileData part))) + Nat.b2n (negb (none (P_FunctionCall part))) +
  Nat.b2n (negb (none (P_FunctionResponse part))) + Nat.b2n (rawPresent (P_ExecutableCode part)) +
  Nat.b2n (rawPresent (P_CodeExecution part)).
Definition one_variant (part : Part) : bool := (partVariantCount part =? 1)%nat.

Definition check_config_stop (index : nat) (stop : string) (_ : unit) : error + unit :=
  require (negb (eqs stop ""))
    (invalid ("generationConfig.stopSequences." +:+ FormatUint (Z.of_nat index))
       "stop sequences must not be empty" []).

Definition validateGenerationConfig (config : option GenerationConfig) : error + unit :=
  match config with
  | None => mret tt
  | Some c =>
      let refuse c field text := require c (invalid field text []) in
      _ ← refuse (unset_or (λ n, 0 <? n)%Z (Gen_MaxOutputTokens c))
            "generationConfig.maxOutputTokens" "maxOutputTokens must be positive";
      _ ← refuse (unset_or (λ x, negb (outside_unit x)) (Gen_Temperature c))
            "generationConfig.temperature"
            "temperature must be between 0 and 1 for the portable gateway contract";
      _ ← refuse (unset_or (λ x, negb (outside_unit x)) (Gen_TopP c))
            "generationConfig.topP" "topP must be between 0 and 1";
      _ ← refuse (unset_or (λ n, n =? 1)%Z (Gen_CandidateCount c))
            "generationConfig.candidateCount" "only candidateCount=1 is supported";
      _ ← refuse (eqs (Gen_ResponseMIMEType c) "" && negb (rawPresent (Gen_ResponseSchema c)) &&
                  negb (rawPresent (Gen_ResponseJSONSchema c)))
            "generationConfig.responseSchema" "structured output is not supported by this route";
      _ ← refuse (none (Gen_ResponseModalities c))
            "generationConfig.responseModalities" "responseModalities is not supported by this route";
      _ ← refuse (negb (rawPresent (Gen_ThinkingConfig c)))
            "generationConfig.thinkingConfig" "thinking configuration is not supported by this route";
      _ ← refuse (none (Gen_TopK c) && none (Gen_Seed c) && none (Gen_PresencePenalty c) &&
                  none (Gen_FrequencyPenalty c) && none (Gen_ResponseLogprobs c) &&
                  none (Gen_Logprobs c) && eqs (Gen_MediaResolution c) "")
            "generationConfig" "the requested generation option is not in the portable subset";
      range check_config_stop 0 (Gen_StopSequences c) tt
  end.

(** [fmt.Sprintf] of a field name with indices. *)
Definition at_index (prefix : string) (i : nat) : string :=
  prefix +:+ "." +:+ FormatUint (Z.of_nat i).
Definition content_field (mi : nat) (name : string) : string :=
  at_index "contents" mi +:+ "." +:+ name.
Definition part_field (mi pi : nat) : string := at_index (content_field mi "parts") pi.

(** ** [ToIRRequest] *)

Definition plain_text_part (part : Part) : bool :=
  one_variant part && negb (none (P_Text part)) && eqs (P_ThoughtSignature part) "" &&
  none (P_Thought part) && negb (rawPresent (P_VideoMetadata part)).

Definition system_part (index : nat) (part : Part) : error + Ir.Content :=
  let bad := invalid (at_index "systemInstruction.parts" index)
    "systemInstruction only supports text parts" [] in
  _ ← require (plain_text_part part) bad;
  text ← result_of (P_Text part) bad;
  mret (text_content text).

Definition system_messages (instruction : option Content) : error + list Message :=
  match instruction with
  | None => mret []
  | Some content =>
      _ ← require (eqs (GC_Role content) "" || eqs (GC_Role content) "system")
            (invalid "systemInstruction.role" "systemInstruction role must be omitted or system" []);
      _ ← require (negb (bool_decide (GC_Parts content = [])))
            (invalid "systemInstruction.parts" "systemInstruction must contain text" []);
      texts ← range_map system_part 0 (GC_Parts content);
      mret [{| Message_Role := RoleSystem; Message_Content := texts |}]
  end.

(** The contents of the message so far, and the calls without a response by
    function name, oldest first. *)
Record part_state := { ps_content : list Ir.Content; ps_pending : gmap string (list string) }.

Definition push_content (c : Ir.Content) (st : part_state) : part_state :=
  {| ps_content := ps_content st ++ [c]; ps_pending := ps_pending st |}.
Definition pending_calls (name : string) (st : part_state) : list string :=
  default [] (ps_pending st !! name).

Definition mixed (field : string) : error :=
  invalid field "functionResponse cannot be mixed with other part types" [].

Definition call_args (args : RawMessage) : RawMessage :=
  if rawPresent args then args else "{}".

Definition generated_id (requestID : string) (mi pi : nat) : string :=
  requestID +:+ "-call-" +:+ FormatUint (Z.of_nat mi) +:+ "-" +:+ FormatUint (Z.of_nat pi).

Section part.
Context (requestID role : string) (containsResponse : bool) (mi pi : nat).

Definition parse_call (signature : string) (call : FunctionCall) (st : part_state)
    : error + part_state :=
  let field := part_field mi pi in
  _ ← require (eqs role "model" && negb containsResponse)
        (invalid (field +:+ ".functionCall") "functionCall requires model role" []);
  _ ← require (negb (eqs (TrimSpace (FC_Name call)) ""))
        (invalid (field +:+ ".functionCall.name") "function call name is required" []);
  let arguments := call_args (FC_Args call) in
  _ ← require (jsonObject arguments)
        (invalid (field +:+ ".functionCall.args") "function call args must be an object" []);
  let callID := if eqs (FC_ID call) "" then generated_id requestID mi pi else FC_ID call in
  mret {| ps_content := ps_content st ++
            [call_content {| Call_ID := callID; Call_Name := FC_Name call;
                             Call_Arguments := arguments; Call_Signature := signature |}];
          ps_pending := <[FC_Name call := pending_calls (FC_Name call) st ++ [callID]]> (ps_pending st) |}.

(** The list without its first [id]. *)
Fixpoint without_first (id : string) (l : list string) : option (list string) :=
  match l with
  | [] => None
  | x :: l' => if eqs x id then Some l' else cons x <$> without_first id l'
  end.

(** The call a response answers, and the calls that remain. *)
Definition answered_call (response : FunctionResponse) (st : part_state)
    : error + (string * list string) :=
  let field := part_field mi pi in
  let name := FR_Name response in
  if eqs (FR_ID response) "" then
    match pending_calls name st with
    | [] => inl (invalid (field +:+ ".functionResponse.name")
                   "functionResponse has no preceding functionCall named %q" [AStr name])
    | callID :: rest => mret (callID, rest)
    end
  else
    rest ← result_of (without_first (FR_ID response) (pending_calls name st))
      (invalid (field +:+ ".functionResponse.id")
         "functionResponse id %q does not match a preceding functionCall named %q"
         [AStr (FR_ID response); AStr name]);
    mret (FR_ID response, rest).

Definition parse_response (response : FunctionResponse) (st : part_state) : error + part_state :=
  let field := part_field mi pi +:+ ".functionResponse" in
  _ ← require (negb (eqs (TrimSpace (FR_Name response)) "" || negb (jsonObject (FR_Response response))))
        (invalid field "functionResponse requires a name and object response" []);
  _ ← require (none (FR_WillContinue response) && eqs (FR_Scheduling response) "")
        (invalid field "streaming function responses are not supported" []);
  '(callID, rest) ← answered_call response st;
  mret {| ps_content := ps_content st ++
            [result_content (MkToolResult callID (FR_Name response) [] (FR_Response response) false)];
          ps_pending := <[FR_Name response := rest]> (ps_pending st) |}.

Definition parse_part (part : Part) (st : part_state) : error + part_state :=
  let field := part_field mi pi in
  _ ← require (one_variant part)
        (invalid field "each part must contain exactly one supported data variant" []);
  _ ← require (none (P_Thought part))
        (invalid (field +:+ ".thought") "thought content is not supported by this route" []);
  _ ← require (negb (rawPresent (P_VideoMetadata part)))
        (invalid (field +:+ ".videoMetadata") "video metadata is not supported by this route" []);
  _ ← require (eqs (P_ThoughtSignature part) "" || negb (none (P_FunctionCall part)))
        (invalid (field +:+ ".thoughtSignature")
           "thoughtSignature is only valid on functionCall parts" []);
  match P_Text part, P_InlineData part, P_FileData part, P_FunctionCall part,
        P_FunctionResponse part with
  | Some text, _, _, _, _ =>
      _ ← require (negb containsResponse) (mixed field);
      mret (push_content (text_content text) st)
  | _, Some blob, _, _, _ =>
      _ ← require (negb containsResponse) (mixed field);
      image ← on_error (λ e, invalid (field +:+ ".inlineData") "%v" [AErr e])
                (validateInlineData (Some blob));
      mret (push_content (image_content image) st)
  | _, _, Some _, _, _ =>
      inl (invalid (field +:+ ".fileData")
        "fileData and arbitrary image URLs are not supported by this route; use inlineData" [])
  | _, _, _, Some call, _ => parse_call (P_ThoughtSignature part) call st
  | _, _, _, _, Some response => parse_response response st
  | _, _, _, _, _ => inl (invalid field "the part type is not in the portable subset" [])
  end.
End part.

Definition contains_response (parts : list Part) : bool :=
  existsb (λ p, negb (none (P_FunctionResponse p))) parts.

(** The role of a content, and the role of its message. *)
Definition content_role (content : Content) : string :=
  if eqs (GC_Role content) "" then "user" else GC_Role content.
Definition message_role (role : string) (containsResponse : bool) : string :=
  if eqs role "model" then RoleAssistant else if containsResponse then RoleTool else RoleUser.

Record client_state := { gs_messages : list Message; gs_pending : gmap string (list string) }.

Definition client_content (requestID : string) (mi : nat) (content : Content) (st : client_state)
    : error + client_state :=
  let role := content_role content in
  _ ← require (eqs role "user" || eqs role "model")
        (invalid (content_field mi "role") "role must be user or model" []);
  _ ← require (negb (bool_decide (GC_Parts content = [])))
        (invalid (content_field mi "parts") "content must contain at least one part" []);
  let containsResponse := contains_response (GC_Parts content) in
  _ ← require (negb containsResponse || eqs role "user")
        (invalid (content_field mi "role") "function responses require user role" []);
  parts ← range (parse_part requestID role containsResponse mi) 0 (GC_Parts content)
            {| ps_content := []; ps_pending := gs_pending st |};
  mret {| gs_messages := gs_messages st ++
            [{| Message_Role := message_role role containsResponse;
                Message_Content := ps_content parts |}];
          gs_pending := ps_pending parts |}.

Definition tool_at (ti : nat) : string := at_index "tools" ti.

Definition empty_schema : RawMessage :=
  print (JObj [("type", JStr "object"); ("properties", JObj [])]).

(** The tools so far and the set of their names. *)
Definition tool_state : Type := list Ir.Tool * gset string.

Definition client_declaration (ti di : nat) (declaration : FunctionDeclaration) (st : tool_state)
    : error + tool_state :=
  let field := at_index (tool_at ti +:+ ".functionDeclarations") di in
  let name := FD_Name declaration in
  _ ← require (negb (eqs name "")) (invalid (field +:+ ".name") "function name is required" []);
  _ ← require (negb (bool_decide (name ∈ st.2)))
        (invalid (field +:+ ".name") "function names must be unique" []);
  _ ← require (negb (rawPresent (FD_ParametersJSONSchema declaration) ||
                     rawPresent (FD_Response declaration) ||
                     rawPresent (FD_ResponseJSONSchema declaration) ||
                     negb (eqs (FD_Behavior declaration) "")))
        (invalid field "the function declaration uses unsupported non-portable fields" []);
  let parameters :=
    if rawPresent (FD_Parameters declaration) then FD_Parameters declaration else empty_schema in
  _ ← require (jsonObject parameters)
        (invalid (field +:+ ".parameters") "parameters must be a JSON object" []);
  mret (st.1 ++ [{| Tool_Name := name; Tool_Description := FD_Description declaration;
                    Tool_InputSchema := parameters; Tool_Strict := None |}],
        {[ name ]} ∪ st.2).

Definition client_tool (ti : nat) (tool : Tool) (st : tool_state) : error + tool_state :=
  _ ← require (negb (rawPresent (GT_GoogleSearch tool) || rawPresent (GT_CodeExecution tool) ||
                     rawPresent (GT_URLContext tool) || rawPresent (GT_EnterpriseWebSearch tool)))
        (invalid (tool_at ti) "hosted provider tools are not supported by this route" []);
  _ ← require (negb (bool_decide (GT_FunctionDeclarations tool = [])))
        (invalid (tool_at ti +:+ ".functionDeclarations") "functionDeclarations must not be empty" []);
  range (client_declaration ti) 0 (GT_FunctionDeclarations tool) st.

Definition calling_mode (mode name : string) : ToolChoice :=
  {| Choice_Mode := mode; Choice_Name := name; Choice_DisableParallel := false |}.

Definition calling_choice (config : FunctionCallingConfig) (toolNames : gset string)
    : error + ToolChoice :=
  let names := FCC_AllowedFunctionNames config in
  let refused text :=
    invalid "toolConfig.functionCallingConfig.allowedFunctionNames" text [] in
  let mode := ToUpper (FCC_Mode config) in
  if eqs mode "" || eqs mode "AUTO" then
    _ ← require (bool_decide (names = []))
          (refused "AUTO with an allow-list cannot be represented by the portable subset");
    mret (calling_mode "auto" "")
  else if eqs mode "NONE" then
    _ ← require (bool_decide (names = [])) (refused "NONE cannot include allowed function names");
    mret (calling_mode "none" "")
  else if eqs mode "ANY" then
    match names with
    | [] => mret (calling_mode "required" "")
    | [name] =>
        _ ← require (bool_decide (name ∈ toolNames)) (refused "selected function is not declared");
        mret (calling_mode "named" name)
    | _ => inl (refused "ANY supports zero or one allowed function in the portable subset")
    end
  else inl (invalid "toolConfig.functionCallingConfig.mode" "unsupported function calling mode %q"
              [AStr (FCC_Mode config)]).

Definition client_choice (config : option ToolConfig) (st : tool_state)
    : error + option ToolChoice :=
  match config with
  | None => mret None
  | Some config =>
      _ ← require (negb (rawPresent (TCfg_RetrievalConfig config)))
            (invalid "toolConfig.retrievalConfig" "retrieval configuration is not supported" []);
      match TCfg_FunctionCallingConfig config with
      | None => mret None
      | Some calling =>
          _ ← require (negb (bool_decide (st.1 = [])))
                (invalid "toolConfig.functionCallingConfig"
                   "function calling configuration requires function declarations" []);
          choice ← calling_choice calling st.2;
          mret (Some choice)
      end
  end.

Definition ToIRRequest (request : GenerateContentRequest) (requestedModel : string)
    (route : Model.Route) (requestID : string) : error + Request :=
  let refuse c field text := require c (invalid field text []) in
  _ ← refuse (negb (eqs (TrimSpace requestedModel) "")) "model" "model is required";
  _ ← refuse (negb (bool_decide (GR_Contents request = [])))
        "contents" "contents must contain at least one item";
  _ ← refuse (none (GR_SafetySettings request))
        "safetySettings" "safety settings are not supported by this route";
  _ ← refuse (eqs (GR_CachedContent request) "")
        "cachedContent" "cached content is not supported by this route";
  _ ← refuse (none (GR_Labels request)) "labels" "labels cannot be preserved by this route";
  _ ← validateGenerationConfig (GR_GenerationConfig request);
  system ← system_messages (GR_SystemInstruction request);
  st ← range (client_content requestID) 0 (GR_Contents request)
         {| gs_messages := system; gs_pending := ∅ |};
  tools ← range client_tool 0 (GR_Tools request) ([], ∅);
  toolChoice ← client_choice (GR_ToolConfig request) tools;
  let config := GR_GenerationConfig request in
  let result := {|
    Req_Version := Version; Req_ID := requestID;
    Req_Route := {| IR_ProviderID := Route_ProviderID route;
                    IR_UpstreamModel := Route_UpstreamModel route |};
    Req_Messages := gs_messages st; Req_MaxOutputTokens := config ≫= Gen_MaxOutputTokens;
    Req_Temperature := config ≫= Gen_Temperature; Req_TopP := config ≫= Gen_TopP;
    Req_Stop := default [] (Gen_StopSequences <$> config); Req_Tools := tools.1;
    Req_ToolChoice := toolChoice; Req_Metadata := []; Req_Stream := false |} in
  _ ← on_error (λ e, invalid "contents" "%v" [AErr e]) (Request_Validate result);
  mret result.

(** ** [ToProviderRequest] *)

(** Parts of the role that spoke last join its content. *)
Fixpoint appendContent (contents : list Content) (role : string) (parts : list Part) : list Content :=
  match contents with
  | [] => [{| GC_Role := role; GC_Parts := parts |}]
  | [last] =>
      if eqs (GC_Role last) role then [{| GC_Role := role; GC_Parts := GC_Parts last ++ parts |}]
      else [last; {| GC_Role := role; GC_Parts := parts |}]
  | c :: contents' => c :: appendContent contents' role parts
  end.

Definition provider_image (image : option Image) : error + Part :=
  image ← result_of image (Errorf "image content has no payload" []);
  _ ← require (eqs (Image_URL image) "")
        (Errorf "arbitrary image URLs cannot be sent to Gemini; use inline base64 image data" []);
  image ← validateInlineData
            (Some {| Blob_MIMEType := Image_MediaType image; Blob_Data := Image_Data image |});
  mret (inline_part {| Blob_MIMEType := Image_MediaType image; Blob_Data := Image_Data image |}).

(** Gemini 3 wants a signature on every call. *)
Definition call_signature (signature upstreamModel : string) : string :=
  let model := TrimPrefix (ToLower upstreamModel) "models/" in
  if eqs signature "" && HasPrefix model "gemini-3" then SkipThoughtSignatureValidator else signature.

(** The texts of a tool result. *)
Fixpoint output_text (l : list Ir.Content) : error + string :=
  match l with
  | [] => mret ""
  | nested :: l' =>
      _ ← require (eqs (Content_Type nested) ContentText)
            (Errorf "Gemini tool results only support an object result or text content" []);
      rest ← output_text l';
      mret (Content_Text nested +:+ rest)
  end.

Definition encoded_output (output : string) (isError : bool) : RawMessage :=
  print (JObj [("is_error", JBool isError); ("output", JStr output)]).

Definition provider_result (result : option ToolResult) (callNames : gmap string string)
    : error + Part :=
  result ← result_of result (Errorf "tool_result content has no payload" []);
  let callID := Result_ToolCallID result in
  let name := if eqs (Result_Name result) "" then default "" (callNames !! callID)
              else Result_Name result in
  _ ← require (negb (eqs name ""))
        (Errorf "tool_result %q has no function name and does not match a prior tool call"
           [AStr callID]);
  response ←
    (if rawPresent (Result_Result result) then mret (Result_Result result)
     else output ← output_text (Result_Content result);
          mret (encoded_output output (Result_IsError result)));
  _ ← require (jsonObject response) (Errorf "tool_result result must be a JSON object" []);
  mret (response_part {| FR_ID := callID; FR_Name := name; FR_Response := response;
                         FR_WillContinue := None; FR_Scheduling := "" |}).

Definition contentToProvider (content : Ir.Content) (callNames : gmap string string)
    (upstreamModel : string) : error + (Part * gmap string string) :=
  let type := Content_Type content in
  if eqs type ContentText then mret (text_part (Content_Text content), callNames)
  else if eqs type ContentImage then
    part ← provider_image (Content_Image content); mret (part, callNames)
  else if eqs type ContentToolCall then
    let malformed := Errorf "tool_call requires an object arguments payload" [] in
    call ← result_of (Content_ToolCall content) malformed;
    _ ← require (jsonObject (Call_Arguments call)) malformed;
    mret (call_part {| FC_ID := Call_ID call; FC_Name := Call_Name call;
                       FC_Args := Call_Arguments call |}
            (call_signature (Call_Signature call) upstreamModel),
          <[Call_ID call := Call_Name call]> callNames)
  else if eqs type ContentToolResult then
    part ← provider_result (Content_ToolResult content) callNames; mret (part, callNames)
  else inl (Errorf "unsupported IR content type %q" [AStr type]).

Record provider_state := {
  gp_system : option Content; gp_contents : list Content; gp_names : gmap string string
}.

Definition provider_part (upstreamModel : string) (_ : nat) (item : Ir.Content)
    (st : list Part * gmap string string) : error + (list Part * gmap string string) :=
  '(part, names) ← contentToProvider item st.2 upstreamModel;
  mret (st.1 ++ [part], names).

Definition provider_message (upstreamModel : string) (mi : nat) (message : Message)
    (st : provider_state) : error + provider_state :=
  '(parts, names) ← on_error (λ e, Errorf "messages[%d]: %w" [AIdx mi; AWrap e])
    (range (provider_part upstreamModel) 0 (Message_Content message) ([], gp_names st));
  let role := Message_Role message in
  let speak speaker :=
    {| gp_system := gp_system st; gp_contents := appendContent (gp_contents st) speaker parts;
       gp_names := names |} in
  if eqs role RoleSystem then
    mret {| gp_system := Some match gp_system st with
              | None => {| GC_Role := ""; GC_Parts := parts |}
              | Some c => {| GC_Role := GC_Role c; GC_Parts := GC_Parts c ++ parts |}
              end;
            gp_contents := gp_contents st; gp_names := names |}
  else if eqs role RoleUser || eqs role RoleTool then mret (speak "user")
  else if eqs role RoleAssistant then mret (speak "model")
  else inl (Errorf "unsupported IR message role %q" [AStr role]).

Definition provider_tool (_ : nat) (tool : Ir.Tool) : error + FunctionDeclaration :=
  _ ← require (negb (default false (Tool_Strict tool)))
        (Errorf "strict function schemas are not supported by Gemini" []);
  mret {| FD_Name := Tool_Name tool; FD_Description := Tool_Description tool;
          FD_Parameters := Tool_InputSchema tool; FD_ParametersJSONSchema := "";
          FD_Response := ""; FD_ResponseJSONSchema := ""; FD_Behavior := "" |}.

Definition provider_choice (choice : ToolChoice) : error + ToolConfig :=
  let mode := Choice_Mode choice in
  config ←
    (if eqs mode "auto" then mret {| FCC_Mode := "AUTO"; FCC_AllowedFunctionNames := [] |}
     else if eqs mode "none" then mret {| FCC_Mode := "NONE"; FCC_AllowedFunctionNames := [] |}
     else if eqs mode "required" then mret {| FCC_Mode := "ANY"; FCC_AllowedFunctionNames := [] |}
     else if eqs mode "named" then
       mret {| FCC_Mode := "ANY"; FCC_AllowedFunctionNames := [Choice_Name choice] |}
     else inl (Errorf "unsupported tool choice mode %q" [AStr mode]));
  _ ← require (negb (Choice_DisableParallel choice))
        (Errorf "disable_parallel cannot be represented by Gemini" []);
  mret {| TCfg_FunctionCallingConfig := Some config; TCfg_RetrievalConfig := "" |}.

(** The limit of the request, or the adapter's own. *)
Definition output_limit (request : Request) (defaultMaxOutputTokens : Z) : option Z :=
  match Req_MaxOutputTokens request with
  | Some value => Some value
  | None => if (0 <? defaultMaxOutputTokens)%Z then Some defaultMaxOutputTokens else None
  end.

Definition provider_config (request : Request) (defaultMaxOutputTokens : Z) : GenerationConfig := {|
  Gen_StopSequences := Req_Stop request;
  Gen_MaxOutputTokens := output_limit request defaultMaxOutputTokens;
  Gen_Temperature := Req_Temperature request; Gen_TopP := Req_TopP request;
  Gen_CandidateCount := None; Gen_ResponseMIMEType := ""; Gen_ResponseSchema := "";
  Gen_ResponseJSONSchema := ""; Gen_ResponseModalities := None; Gen_ThinkingConfig := "";
  Gen_TopK := None; Gen_Seed := None; Gen_PresencePenalty := None; Gen_FrequencyPenalty := None;
  Gen_ResponseLogprobs := None; Gen_Logprobs := None; Gen_MediaResolution := "" |}.

Definition set_config (config : GenerationConfig) : option GenerationConfig :=
  if none (Gen_MaxOutputTokens config) && none (Gen_Temperature config) &&
     none (Gen_TopP config) && bool_decide (Gen_StopSequences config = [])
  then None else Some config.

Definition provider_tools (declarations : list FunctionDeclaration) : list Tool :=
  match declarations with
  | [] => []
  | _ => [{| GT_FunctionDeclarations := declarations; GT_GoogleSearch := ""; GT_CodeExecution := "";
             GT_URLContext := ""; GT_EnterpriseWebSearch := "" |}]
  end.

Definition ToProviderRequest (request : Request) (defaultMaxOutputTokens maxOutputTokens : Z)
    : error + GenerateContentRequest :=
  _ ← Request_Validate request;
  _ ← require (negb (Req_Stream request)) (Errorf "streaming IR requests are not supported" []);
  let config := provider_config request defaultMaxOutputTokens in
  _ ← require (unset_or (λ n, negb ((0 <? maxOutputTokens) && (maxOutputTokens <? n)))%Z
                 (Gen_MaxOutputTokens config))
        (Errorf "max_output_tokens must not exceed %d" [AInt maxOutputTokens]);
  _ ← validateGenerationConfig (Some config);
  st ← range (provider_message (IR_UpstreamModel (Req_Route request))) 0 (Req_Messages request)
         {| gp_system := None; gp_contents := []; gp_names := ∅ |};
  _ ← require (negb (bool_decide (gp_contents st = [])))
        (Errorf "at least one non-system message is required" []);
  declarations ← range_map provider_tool 0 (Req_Tools request);
  toolConfig ←
    match Req_ToolChoice request with
    | Some choice => config ← provider_choice choice; mret (Some config)
    | None => mret None
    end;
  mret {| GR_Contents := gp_contents st; GR_SystemInstruction := gp_system st;
          GR_Tools := provider_tools declarations; GR_ToolConfig := toolConfig;
          GR_GenerationConfig := set_config config; GR_SafetySettings := None;
          GR_CachedContent := ""; GR_Labels := None |}.

(** ** [ToIRResponse] *)

Definition content_reasons : list string :=
  ["SAFETY"; "RECITATION"; "LANGUAGE"; "BLOCKLIST"; "PROHIBITED_CONTENT"; "SPII"; "IMAGE_SAFETY";
   "IMAGE_PROHIBITED_CONTENT"; "IMAGE_RECITATION"].
Definition failed_reasons : list string :=
  ["OTHER"; "MALFORMED_FUNCTION_CALL"; "UNEXPECTED_TOOL_CALL"; "TOO_MANY_TOOL_CALLS"; "NO_IMAGE"].

Definition finishReasonToIR (reason : string) (hasToolCalls : bool) : error + string :=
  if eqs reason "" || eqs reason "STOP" then
    mret (if hasToolCalls then FinishToolCalls else FinishStop)
  else if eqs reason "MAX_TOKENS" then mret FinishLength
  else if bool_decide (reason ∈ content_reasons) then mret FinishContent
  else if bool_decide (reason ∈ failed_reasons) then
    inl (Errorf "Gemini stopped with unsupported finish reason %q" [AStr reason])
  else inl (Errorf "Gemini returned unknown finish reason %q" [AStr reason]).

(** The contents so far, and whether a call is among them. *)
Definition candidate_part (requestID : string) (index : nat) (part : Part)
    (st : list Ir.Content * bool) : error + (list Ir.Content * bool) :=
  _ ← require (one_variant part)
        (Errorf "candidate part[%d] must contain exactly one supported data variant" [AIdx index]);
  _ ← require (eqs (P_ThoughtSignature part) "" || negb (none (P_FunctionCall part)))
        (Errorf "candidate part[%d] has a thoughtSignature that cannot be represented outside a function call"
           [AIdx index]);
  if default false (P_Thought part) then mret st
  else match P_Text part, P_InlineData part, P_FunctionCall part with
  | Some text, _, _ => mret (st.1 ++ [text_content text], st.2)
  | _, Some blob, _ =>
      image ← on_error (λ e, Errorf "candidate part[%d]: %w" [AIdx index; AWrap e])
                (validateInlineData (Some blob));
      mret (st.1 ++ [image_content image], st.2)
  | _, _, Some call =>
      _ ← require (negb (eqs (FC_Name call) ""))
            (Errorf "candidate part[%d] has a function call without a name" [AIdx index]);
      let arguments := call_args (FC_Args call) in
      _ ← require (jsonObject arguments)
            (Errorf "candidate part[%d] function args must be an object" [AIdx index]);
      let callID := if eqs (FC_ID call) ""
                    then requestID +:+ "-call-" +:+ FormatUint (Z.of_nat index) else FC_ID call in
      mret (st.1 ++ [call_content {| Call_ID := callID; Call_Name := FC_Name call;
                                     Call_Arguments := arguments;
                                     Call_Signature := P_ThoughtSignature part |}], true)
  | _, _, _ => inl (Errorf "candidate part[%d] has an unsupported part type" [AIdx index])
  end.

Definition answer_usage (u : UsageMetadata) : Usage := {|
  InputTokens := PromptTokenCount u;
  OutputTokens := int64 (CandidatesTokenCount u + ThoughtsTokenCount u);
  CacheCreationInputTokens := 0; CachedInputTokens := CachedContentTokenCount u |}.

Definition ToIRResponse (response : GenerateContentResponse) (request : Request)
    : error + Response :=
  let candidates := GP_Candidates response in
  let answer content finish := {|
    Resp_Version := Version; Resp_ID := Req_ID request;
    Resp_Model := if eqs (GP_ModelVersion response) ""
                  then IR_UpstreamModel (Req_Route request) else GP_ModelVersion response;
    Resp_Content := content; Resp_FinishReason := finish; Resp_StopSequence := "";
    Resp_Usage := answer_usage (GP_UsageMetadata response);
    Resp_ProviderResponseID := GP_ResponseID response |} in
  _ ← require (negb (1 <? length candidates)%nat)
        (Errorf "Gemini returned %d candidates; exactly one is supported"
           [AIdx (length candidates)]);
  match candidates with
  | [] =>
      _ ← require (negb (unset_or (λ f, eqs (PF_BlockReason f) "") (GP_PromptFeedback response)))
            (Errorf "Gemini returned no candidates" []);
      mret (answer [] FinishContent)
  | candidate :: _ =>
      let role := GC_Role (Cand_Content candidate) in
      _ ← require (eqs role "" || eqs role "model")
            (Errorf "Gemini candidate role must be model" []);
      '(content, hasToolCalls) ←
        range (candidate_part (Req_ID request)) 0 (GC_Parts (Cand_Content candidate)) ([], false);
      finish ← finishReasonToIR (Cand_FinishReason candidate) hasToolCalls;
      let result := answer content finish in
      _ ← Response_Validate result;
      mret result
  end.

(** ** [FromIRResponse] *)

Definition client_part (model : string) (index : nat) (content : Ir.Content) : error + Part :=
  '(part, _) ← on_error (λ e, Errorf "response content[%d]: %w" [AIdx index; AWrap e])
    (contentToProvider content ∅ model);
  mret part.

Definition client_finish (reason : string) : error + string :=
  if eqs reason FinishStop || eqs reason FinishToolCalls then mret "STOP"
  else if eqs reason FinishLength then mret "MAX_TOKENS"
  else if eqs reason FinishContent then mret "SAFETY"
  else inl (Errorf "unsupported IR finish reason %q" [AStr reason]).

Definition FromIRResponse (response : Response) (requestedModel : string)
    : error + GenerateContentResponse :=
  _ ← Response_Validate response;
  _ ← require (negb (eqs (TrimSpace requestedModel) ""))
        (Errorf "requested model is required" []);
  let usage := Resp_Usage response in
  parts ← range_map (client_part (Resp_Model response)) 0 (Resp_Content response);
  finish ← client_finish (Resp_FinishReason response);
  mret {| GP_Candidates := [{| Cand_Content := {| GC_Role := "model"; GC_Parts := parts |};
                               Cand_FinishReason := finish; Cand_Index := 0 |}];
          GP_PromptFeedback := None;
          GP_UsageMetadata := {|
            PromptTokenCount := InputTokens usage; CandidatesTokenCount := OutputTokens usage;
            TotalTokenCount := int64 (InputTokens usage + OutputTokens usage);
            CachedContentTokenCount := CachedInputTokens usage; ThoughtsTokenCount := 0 |};
          GP_ModelVersion := requestedModel;
          GP_ResponseID := if eqs (Resp_ProviderResponseID response) "" then Resp_ID response
                           else Resp_ProviderResponseID response |}.
