(* ===== verification/GeminiFacts.v ===== *)
(** * Gemini clients on Gemini providers

    What an accepted request becomes when the adapter sends it on, and what a
    provider's answer becomes when the gateway returns it. *)

From Stdlib Require Import SpecFloat Ascii.
From S2P Require Import Prelude GoStd Json GoText GoNet Errors Results Model Ir IrFacts Decode.
From S2P Require Import Gemini.

#[local] Arguments bool_decide : simpl never.

(** ** Parts *)

Definition image_of (blob : Blob) : Image :=
  {| Image_URL := ""; Image_MediaType := Blob_MIMEType blob; Image_Data := Blob_Data blob |}.

Definition blob_ok (blob : Blob) : Prop := validateInlineData (Some blob) = inr (image_of blob).

Lemma validateInlineData_ok blob image :
  validateInlineData (Some blob) = inr image → image = image_of blob ∧ blob_ok blob.
Proof.
  intros H. assert (image = image_of blob) as E; [|by rewrite E in H].
  revert H. unfold validateInlineData. cbn [result_of mbind result_bind].
  by intros [_ [_ [_ [= <-]]%check_then]%check_then]%check_then.
Qed.

(** A part of a client and the part of the protocol it becomes. *)
Inductive conveys (p : Part) : Ir.Content → Prop :=
| conveys_text text : P_Text p = Some text → conveys p (text_content text)
| conveys_inline blob :
    P_InlineData p = Some blob → blob_ok blob → conveys p (image_content (image_of blob))
| conveys_call call id :
    P_FunctionCall p = Some call → (FC_ID call ≠ "" → id = FC_ID call) →
    jsonObject (call_args (FC_Args call)) = true →
    conveys p (call_content {| Call_ID := id; Call_Name := FC_Name call;
                               Call_Arguments := call_args (FC_Args call);
                               Call_Signature := P_ThoughtSignature p |})
| conveys_response response id :
    P_FunctionResponse p = Some response → FR_Name response ≠ "" →
    (FR_ID response ≠ "" → id = FR_ID response) → jsonObject (FR_Response response) = true →
    conveys p (result_content (MkToolResult id (FR_Name response) [] (FR_Response response) false)).

Lemma given_id (id other chosen : string) :
  chosen = (if eqs id "" then other else id) → id ≠ "" → chosen = id.
Proof. intros ->. case_eqs; [done|done]. Qed.

Lemma parse_call_conveys requestID role resp mi pi p call st st' :
  P_FunctionCall p = Some call →
  parse_call requestID role resp mi pi (P_ThoughtSignature p) call st = inr st' →
  ∃ c, ps_content st' = ps_content st ++ [c] ∧ conveys p c.
Proof.
  intros Hp. unfold parse_call. intros [_ [_ [Hargs [= <-]]%check_then]%check_then]%check_then.
  eexists. split; [done|]. apply (conveys_call p call); [done|by eapply given_id|done].
Qed.

Lemma parse_response_conveys mi pi p response st st' :
  P_FunctionResponse p = Some response → parse_response mi pi response st = inr st' →
  ∃ c, ps_content st' = ps_content st ++ [c] ∧ conveys p c.
Proof.
  intros Hp. unfold parse_response. intros [Hok [_ H]%check_then]%check_then.
  rewrite negb_orb, negb_involutive in Hok. apply andb_true_iff in Hok as [Hname Hobj].
  apply bind_ok in H as ([callID rest] & Ha & [= <-]). eexists. split; [done|].
  apply (conveys_response p response); [done| |intros Hid|done].
  - intros E. rewrite E in Hname. by vm_compute in Hname.
  - unfold answered_call in Ha. destruct (eqs (FR_ID response) "") eqn:E; [by apply eqs_true in E|].
    by apply bind_ok in Ha as (rest' & _ & [= <- <-]).
Qed.

Lemma parse_part_conveys requestID role resp mi pi p st st' :
  parse_part requestID role resp mi pi p st = inr st' →
  ∃ c, ps_content st' = ps_content st ++ [c] ∧ conveys p c.
Proof.
  unfold parse_part. intros [_ [_ [_ [_ H]%check_then]%check_then]%check_then]%check_then.
  destruct (P_Text p) as [text|] eqn:Et.
  { apply check_then in H as [_ [= <-]]. eexists. split; [done|by constructor]. }
  destruct (P_InlineData p) as [blob|] eqn:Ei.
  { apply check_then in H as [_ (image & Him & [= <-])%bind_ok].
    rewrite on_error_ok in Him. apply validateInlineData_ok in Him as [-> Hb].
    eexists. split; [done|by constructor]. }
  destruct (P_FileData p); [done|]. destruct (P_FunctionCall p) as [call|] eqn:Ec.
  { by eapply parse_call_conveys. }
  destruct (P_FunctionResponse p) as [response|] eqn:Er; [|done].
  by eapply parse_response_conveys.
Qed.

(** ** Contents *)

Definition conveyed (content : Content) (message : Message) : Prop :=
  (content_role content = "user" ∨ content_role content = "model") ∧
  Message_Role message = message_role (content_role content) (contains_response (GC_Parts content)) ∧
  Forall2 conveys (GC_Parts content) (Message_Content message).

Lemma client_content_conveyed requestID mi content st st' :
  client_content requestID mi content st = inr st' →
  ∃ m, gs_messages st' = gs_messages st ++ [m] ∧ conveyed content m.
Proof.
  unfold client_content. intros [Hrole [_ [_ H]%check_then]%check_then]%check_then.
  apply bind_ok in H as (parts & Hparts & [= <-]).
  apply (range_appends ps_content conveys) in Hparts as (cs & Hcs & Hall);
    [|by intros; eapply parse_part_conveys].
  eexists. split; [done|]. split_and!; [|done|by rewrite Hcs].
  apply orb_true_iff in Hrole as [?%eqs_true|?%eqs_true]; auto.
Qed.

(** The system instruction, as texts. *)
Definition instruction_texts (instruction : option Content) : list string :=
  match instruction with Some c => omap P_Text (GC_Parts c) | None => [] end.

Lemma system_messages_ok instruction l :
  system_messages instruction = inr l →
  l = match instruction with
      | None => []
      | Some c => [{| Message_Role := RoleSystem;
                      Message_Content := text_content <$> instruction_texts instruction |}]
      end.
Proof.
  unfold system_messages. destruct instruction as [c|]; [|by intros [= <-]].
  intros [_ [_ (texts & Ht & [= <-])%bind_ok]%check_then]%check_then. f_equal. f_equal.
  cbn [instruction_texts]. revert Ht. generalize 0%nat. revert texts.
  induction (GC_Parts c) as [|p ps IH]; intros texts i; cbn; [by intros [= <-]|].
  intros (t & Ht & (ts & Hts & [= <-])%bind_ok)%bind_ok.
  apply check_then in Ht as [_ (text & Htext & [= <-])%bind_ok]. apply result_of_ok in Htext.
  rewrite Htext. cbn. f_equal. by eapply IH.
Qed.

(** ** Tools *)

Definition declarations (tools : list Tool) : list FunctionDeclaration :=
  tools ≫= GT_FunctionDeclarations.

(** The schema of a declaration; one that is missing takes no arguments. *)
Definition schema_of (d : FunctionDeclaration) : RawMessage :=
  if rawPresent (FD_Parameters d) then FD_Parameters d else empty_schema.
Definition portable_tool (d : FunctionDeclaration) : Ir.Tool := {|
  Tool_Name := FD_Name d; Tool_Description := FD_Description d; Tool_InputSchema := schema_of d;
  Tool_Strict := None |}.
Definition sent_declaration (d : FunctionDeclaration) : FunctionDeclaration := {|
  FD_Name := FD_Name d; FD_Description := FD_Description d; FD_Parameters := schema_of d;
  FD_ParametersJSONSchema := ""; FD_Response := ""; FD_ResponseJSONSchema := ""; FD_Behavior := "" |}.

Lemma range_gemini_tools tools st :
  range client_tool 0 tools ([], ∅) = inr st → st.1 = portable_tool <$> declarations tools.
Proof.
  assert (∀ ti i ds (s s' : tool_state), range (client_declaration ti) i ds s = inr s' →
    s'.1 = s.1 ++ (portable_tool <$> ds)) as Hds.
  { intros ti i ds. revert i. induction ds as [|d ds IH]; intros i s s'; cbn [range].
    - intros [= <-]. by rewrite app_nil_r.
    - intros (s1 & Hs & Hr)%bind_ok. rewrite (IH _ _ _ Hr). unfold client_declaration in Hs.
      apply check_then in Hs as [_ [_ [_ [_ [= <-]]%check_then]%check_then]%check_then].
      cbn. by rewrite <- app_assoc. }
  enough (∀ i (s s' : tool_state), range client_tool i tools s = inr s' →
    s'.1 = s.1 ++ (portable_tool <$> declarations tools)) as H by apply H.
  induction tools as [|t tools IH]; intros i s s'; cbn [range].
  - intros [= <-]. by rewrite app_nil_r.
  - intros (s1 & [_ [_ Hs]%check_then]%check_then & Hr)%bind_ok.
    rewrite (IH _ _ _ Hr), (Hds _ _ _ _ _ Hs), <- app_assoc. unfold declarations. cbn.
    by rewrite fmap_app.
Qed.

(** The function calling mode, normalised. *)
Definition sent_calling (c : FunctionCallingConfig) : FunctionCallingConfig := {|
  FCC_Mode := if eqs (ToUpper (FCC_Mode c)) "" then "AUTO" else ToUpper (FCC_Mode c);
  FCC_AllowedFunctionNames := FCC_AllowedFunctionNames c |}.
Definition sent_tool_config (config : option ToolConfig) : option ToolConfig :=
  calling ← config ≫= TCfg_FunctionCallingConfig;
  Some {| TCfg_FunctionCallingConfig := Some (sent_calling calling); TCfg_RetrievalConfig := "" |}.

Lemma calling_choice_sent c names choice :
  calling_choice c names = inr choice →
  provider_choice choice = inr {| TCfg_FunctionCallingConfig := Some (sent_calling c);
                                  TCfg_RetrievalConfig := "" |}.
Proof.
  unfold calling_choice, sent_calling. cbv zeta. destruct c as [mode allowed].
  cbn [FCC_Mode FCC_AllowedFunctionNames]. set (up := ToUpper mode).
  destruct (eqs up "" || eqs up "AUTO") eqn:E1.
  { intros [->%bool_decide_eq_true [= <-]]%check_then. apply orb_true_iff in E1.
    rewrite !eqs_true in E1. by destruct E1 as [-> | ->]. }
  apply orb_false_iff in E1 as [-> _].
  destruct (eqs up "NONE") eqn:E2.
  { apply eqs_true in E2 as ->. by intros [->%bool_decide_eq_true [= <-]]%check_then. }
  destruct (eqs up "ANY") eqn:E3; [|done]. apply eqs_true in E3 as ->.
  destruct allowed as [|name [|]]; [by intros [= <-]| |done].
  by intros [_ [= <-]]%check_then.
Qed.

Lemma client_choice_sent config st choice :
  client_choice config st = inr choice →
  match choice with
  | None => sent_tool_config config = None
  | Some c => ∃ cfg, provider_choice c = inr cfg ∧ sent_tool_config config = Some cfg
  end.
Proof.
  unfold client_choice, sent_tool_config. destruct config as [cfg|]; [|by intros [= <-]].
  cbn [mbind option_bind]. intros [_ H]%check_then.
  destruct (TCfg_FunctionCallingConfig cfg) as [calling|]; [|by injection H as <-].
  apply check_then in H as [_ (c & Hc & [= <-])%bind_ok]. eexists.
  split; [by eapply calling_choice_sent|done].
Qed.

(** ** Accepted requests *)

Record accepted (req : GenerateContentRequest) (route : Model.Route) (id : string) (r : Request)
    : Prop := {
  ac_valid : valid_request r;
  ac_contents : GR_Contents req ≠ [];
  ac_messages : ∃ ms, Forall2 conveyed (GR_Contents req) ms ∧
    Req_Messages r = match GR_SystemInstruction req with
                     | None => []
                     | Some _ => [{| Message_Role := RoleSystem; Message_Content :=
                         text_content <$> instruction_texts (GR_SystemInstruction req) |}]
                     end ++ ms;
  ac_tools : Req_Tools r = portable_tool <$> declarations (GR_Tools req);
  ac_choice : match Req_ToolChoice r with
              | None => sent_tool_config (GR_ToolConfig req) = None
              | Some c => ∃ cfg, provider_choice c = inr cfg ∧
                            sent_tool_config (GR_ToolConfig req) = Some cfg
              end;
  ac_config : let config := GR_GenerationConfig req in
    Req_MaxOutputTokens r = config ≫= Gen_MaxOutputTokens ∧
    Req_Temperature r = config ≫= Gen_Temperature ∧ Req_TopP r = config ≫= Gen_TopP ∧
    Req_Stop r = default [] (Gen_StopSequences <$> config);
  ac_route : IR_UpstreamModel (Req_Route r) = Route_UpstreamModel route
}.

Lemma ToIRRequest_accepted req model route id r :
  ToIRRequest req model route id = inr r → accepted req route id r.
Proof.
  unfold ToIRRequest. intros [_ [Hne [_ [_ [_ H]%check_then]%check_then]%check_then]%check_then]%check_then.
  apply bind_ok in H as ([] & _ & H). apply bind_ok in H as (system & Hsys & H).
  apply bind_ok in H as (st & Hst & H). apply bind_ok in H as (tools & Htools & H).
  apply bind_ok in H as (choice & Hchoice & H). apply valid_then in H as [Hv [= <-]].
  apply negb_true_iff, bool_decide_eq_false in Hne. apply system_messages_ok in Hsys as ->.
  apply (range_appends gs_messages conveyed) in Hst as (ms & Hms & Hall);
    [|by intros; eapply client_content_conveyed].
  split; [done|done| |by apply range_gemini_tools|by eapply client_choice_sent|done|done].
  exists ms. split; [done|]. cbn [Req_Messages]. rewrite Hms. by destruct (GR_SystemInstruction req).
Qed.

(** ** What the adapter sends *)

Section sent.
Context (upstream : string).

(** A part of the client and the part the provider gets: the same data, with
    an id on every call and response and the signature the model wants. *)
Inductive same_part (p : Part) : Part → Prop :=
| same_text text : P_Text p = Some text → same_part p (text_part text)
| same_inline blob : P_InlineData p = Some blob → same_part p (inline_part blob)
| same_call call id :
    P_FunctionCall p = Some call → (FC_ID call ≠ "" → id = FC_ID call) →
    same_part p (call_part {| FC_ID := id; FC_Name := FC_Name call;
                              FC_Args := call_args (FC_Args call) |}
                   (call_signature (P_ThoughtSignature p) upstream))
| same_response response id :
    P_FunctionResponse p = Some response → (FR_ID response ≠ "" → id = FR_ID response) →
    same_part p (response_part {| FR_ID := id; FR_Name := FR_Name response;
                                  FR_Response := FR_Response response; FR_WillContinue := None;
                                  FR_Scheduling := "" |}).

(** The provider part of a part of the protocol, when the adapter has one. *)
Definition gives_part (c : Ir.Content) (q : Part) : Prop :=
  ∀ names, ∃ names', contentToProvider c names upstream = inr (q, names').

(** Calls and responses keep their ids and names. *)
Definition linked (c : Ir.Content) (q : Part) : Prop :=
  (∀ x, Content_ToolCall c = Some x → ∃ call, P_FunctionCall q = Some call ∧
     FC_ID call = Call_ID x ∧ FC_Name call = Call_Name x) ∧
  (∀ response, P_FunctionResponse q = Some response → ∃ x, Content_ToolResult c = Some x ∧
     Result_ToolCallID x = FR_ID response ∧ Result_Name x = FR_Name response ∧
     FR_Name response ≠ "").

Lemma conveys_given p c : conveys p c → ∃ q, gives_part c q ∧ same_part p q ∧ linked c q.
Proof.
  intros Hc. destruct Hc as [text Ht|blob Hi Hb|call id Hp Hid Hargs|response id Hp Hname Hid Hobj].
  - exists (text_part text). split_and!; [by eexists|by constructor|by split].
  - exists (inline_part blob). split_and!; [|by constructor|by split]. intros names. exists names.
    change (contentToProvider _ names upstream) with
      (part ← provider_image (Some (image_of blob)); (mret (part, names) : error + _)).
    unfold provider_image. cbn [result_of mbind result_bind image_of Image_URL Image_MediaType Image_Data].
    change (eqs "" "") with true. cbn [require mbind result_bind].
    replace {| Blob_MIMEType := Blob_MIMEType blob; Blob_Data := Blob_Data blob |} with blob by by destruct blob.
    rewrite Hb. by destruct blob.
  - eexists. split_and!; [|by apply (same_call p call id)|by split; [intros x [= <-]; eexists|]].
    intros names. eexists.
    change (contentToProvider (call_content ?call) names upstream) with
      (_ ← require (jsonObject (Call_Arguments call)) (Errorf "tool_call requires an object arguments payload" []);
       (mret (call_part {| FC_ID := Call_ID call; FC_Name := Call_Name call; FC_Args := Call_Arguments call |}
                (call_signature (Call_Signature call) upstream),
              <[Call_ID call := Call_Name call]> names) : error + _)).
    cbn [Call_Arguments Call_ID Call_Name Call_Signature]. rewrite Hargs. reflexivity.
  - eexists. split_and!; [|by apply (same_response p response id)|
      by split; [|intros ? [= <-]; eexists; split_and!]].
    intros names. exists names.
    change (contentToProvider (result_content ?r) names upstream) with
      (part ← provider_result (Some r) names; (mret (part, names) : error + _)).
    unfold provider_result. cbn [result_of mbind result_bind Result_Name Result_Result Result_ToolCallID].
    assert (eqs (FR_Name response) "" = false) as -> by by apply bool_decide_eq_false.
    cbn [negb]. rewrite (proj2 (eqs_false _ _) Hname). cbn [require mbind result_bind].
    rewrite (object_present _ Hobj : rawPresent _ = true). cbn [mret result_ret result_bind mbind].
    by rewrite Hobj.
Qed.

Lemma range_provider_parts ps cs i names before :
  Forall2 conveys ps cs →
  ∃ qs names', range (provider_part upstream) i cs (before, names) = inr (before ++ qs, names') ∧
    Forall2 same_part ps qs ∧ Forall2 linked cs qs.
Proof.
  intros Hall. revert i names before.
  induction Hall as [|p c ps cs Hc Hall IH]; intros i names before; cbn [range].
  - exists [], names. by rewrite app_nil_r.
  - destruct (conveys_given p c Hc) as (q & Hq & Hs & Hl). destruct (Hq names) as [names1 Hn].
    assert (provider_part upstream i c (before, names) = inr (before ++ [q], names1)) as ->
      by (unfold provider_part; cbn [fst snd]; by rewrite Hn).
    cbn [mbind result_bind].
    destruct (IH (Datatypes.S i) names1 (before ++ [q])) as (qs & names' & Hr & Hqs & Hls).
    exists (q :: qs), names'. rewrite Hr, <- app_assoc. by split_and!; [|constructor|constructor].
Qed.

(** Who says what, part by part. *)
Definition spoken (contents : list Content) : list (string * Part) :=
  contents ≫= λ c, pair (content_role c) <$> GC_Parts c.

Lemma spoken_cons c l : spoken (c :: l) = (pair (content_role c) <$> GC_Parts c) ++ spoken l.
Proof. done. Qed.

Lemma spoken_append cs role parts :
  role ≠ "" → spoken (appendContent cs role parts) = spoken cs ++ (pair role <$> parts).
Proof.
  intros Hr. assert (∀ ps, content_role {| GC_Role := role; GC_Parts := ps |} = role) as Hrole.
  { intros ps. unfold content_role. cbn [GC_Role]. by case_eqs. }
  induction cs as [|c cs IH]; [unfold spoken; cbn; by rewrite Hrole, app_nil_r|].
  destruct cs as [|c' cs].
  - cbn [appendContent]. destruct (eqs (GC_Role c) role) eqn:E; unfold spoken; cbn; rewrite !Hrole.
    + apply eqs_true in E. assert (content_role c = role) as ->.
      { unfold content_role. rewrite E. by destruct (eqs role "") eqn:E0; [apply eqs_true in E0|]. }
      by rewrite !app_nil_r, fmap_app.
    + by rewrite !app_nil_r.
  - change (appendContent (c :: c' :: cs) role parts) with (c :: appendContent (c' :: cs) role parts).
    by rewrite (spoken_cons c (appendContent _ _ _)), IH, (spoken_cons c (c' :: cs)), app_assoc.
Qed.

Lemma appendContent_nonempty cs role parts : appendContent cs role parts ≠ [].
Proof. destruct cs as [|c [|]]; cbn; [done| |done]. by destruct (eqs _ _). Qed.

Lemma message_speaker content :
  content_role content = "user" ∨ content_role content = "model" →
  let role := message_role (content_role content) (contains_response (GC_Parts content)) in
  role ≠ RoleSystem ∧
  (if eqs role RoleUser || eqs role RoleTool then content_role content = "user"
   else role = RoleAssistant ∧ content_role content = "model").
Proof. intros [-> | ->]; unfold message_role; [|done]. by destruct (contains_response _). Qed.

Lemma provider_message_conveyed content m i st :
  conveyed content m →
  ∃ qs names, provider_message upstream i m st =
      inr {| gp_system := gp_system st;
             gp_contents := appendContent (gp_contents st) (content_role content) qs;
             gp_names := names |} ∧
    Forall2 same_part (GC_Parts content) qs ∧ Forall2 linked (Message_Content m) qs.
Proof.
  intros (Hrole & Hm & Hall).
  destruct (range_provider_parts _ _ 0 (gp_names st) [] Hall) as (qs & names & Hr & Hs).
  exists qs, names. split; [|done]. unfold provider_message. rewrite Hr. cbn [on_error mbind result_bind app].
  destruct (message_speaker content Hrole) as [Hns Hsp]. rewrite <- Hm in Hns, Hsp.
  assert (eqs (Message_Role m) RoleSystem = false) as -> by by apply bool_decide_eq_false.
  destruct (eqs (Message_Role m) RoleUser || eqs (Message_Role m) RoleTool); [by rewrite Hsp|].
  destruct Hsp as [-> ->]. done.
Qed.

Lemma range_provider_messages contents ms i st :
  Forall2 conveyed contents ms →
  ∃ st', range (provider_message upstream) i ms st = inr st' ∧ gp_system st' = gp_system st ∧
    (gp_contents st' = [] → contents = [] ∧ gp_contents st = []) ∧
    ∃ said, spoken (gp_contents st') = spoken (gp_contents st) ++ said ∧
      Forall2 (λ a b, a.1 = b.1 ∧ same_part a.2 b.2) (spoken contents) said ∧
      Forall2 linked (parts ms) said.*2.
Proof.
  intros Hall. revert i st. induction Hall as [|c m contents ms Hc Hall IH]; intros i st; cbn [range].
  - exists st. split_and!; [done..|]. exists []. by rewrite app_nil_r.
  - destruct (provider_message_conveyed c m i st Hc) as (qs & names & Hm & Hqs & Hls). rewrite Hm.
    cbn [mbind result_bind].
    destruct (IH (Datatypes.S i) {| gp_system := gp_system st;
      gp_contents := appendContent (gp_contents st) (content_role c) qs; gp_names := names |})
      as (st' & Hr & Hsys & Hne & said & Hsaid & Hsame & Hlinked).
    exists st'. split_and!; [done..| |].
    { intros H0. destruct (Hne H0) as [_ H1]. by apply appendContent_nonempty in H1. }
    exists ((pair (content_role c) <$> qs) ++ said). cbn [gp_contents] in Hsaid. split_and!.
    + rewrite Hsaid, spoken_append, app_assoc; [done|]. by destruct Hc as [[-> | ->] _].
    + rewrite spoken_cons. apply Forall2_app; [|done]. apply list.Forall2_fmap. by eapply list.Forall2_impl.
    + rewrite fmap_app. unfold parts. cbn. apply Forall2_app; [|done].
      rewrite <- list_fmap_compose. cbn. by rewrite list_fmap_id.
Qed.
End sent.

Definition sent_instruction (instruction : option Content) : option Content :=
  match instruction with
  | Some _ => Some {| GC_Role := ""; GC_Parts := text_part <$> instruction_texts instruction |}
  | None => None
  end.

Lemma range_system_parts upstream texts i names before :
  range (provider_part upstream) i (text_content <$> texts) (before, names) =
    inr (before ++ (text_part <$> texts), names).
Proof.
  revert i before. induction texts as [|t texts IH]; intros i before; cbn [fmap list_fmap range].
  - by rewrite app_nil_r.
  - change (provider_part upstream i (text_content t) (before, names)) with
      (inr (before ++ [text_part t], names) : error + (list Part * gmap string string)).
    cbn [mbind result_bind]. by rewrite IH, <- app_assoc.
Qed.

Lemma provider_system upstream i texts :
  provider_message upstream i {| Message_Role := RoleSystem; Message_Content := text_content <$> texts |}
      {| gp_system := None; gp_contents := []; gp_names := ∅ |} =
    inr {| gp_system := Some {| GC_Role := ""; GC_Parts := text_part <$> texts |};
           gp_contents := []; gp_names := ∅ |}.
Proof. unfold provider_message. cbn [Message_Content gp_names]. by rewrite range_system_parts. Qed.

(** The messages of an accepted request, all together. *)
Lemma range_accepted_messages req route id r upstream :
  accepted req route id r →
  ∃ st, range (provider_message upstream) 0 (Req_Messages r)
      {| gp_system := None; gp_contents := []; gp_names := ∅ |} = inr st ∧
    gp_system st = sent_instruction (GR_SystemInstruction req) ∧ gp_contents st ≠ [] ∧
    Forall2 (λ a b, a.1 = b.1 ∧ same_part upstream a.2 b.2)
      (spoken (GR_Contents req)) (spoken (gp_contents st)) ∧
    ∃ before, Forall2 linked (parts (Req_Messages r)) (before ++ (spoken (gp_contents st)).*2) ∧
      Forall (λ q, P_FunctionCall q = None) before.
Proof.
  intros Ha. destruct (ac_messages _ _ _ _ Ha) as (ms & Hall & ->).
  pose proof (ac_contents _ _ _ _ Ha) as Hne.
  destruct (GR_SystemInstruction req) as [c|] eqn:Ei.
  - set (texts := instruction_texts (Some c)).
    change ([?m] ++ ms) with (m :: ms). cbn [range]. rewrite provider_system. cbn [mbind result_bind].
    destruct (range_provider_messages upstream _ _ 1 {| gp_system :=
      Some {| GC_Role := ""; GC_Parts := text_part <$> texts |}; gp_contents := []; gp_names := ∅ |} Hall)
      as (st & Hr & Hsys & Hn & said & Hsaid & Hsame & Hl).
    exists st. split_and!; [done|by rewrite Hsys|by intros [? _]%Hn| |].
    + by rewrite Hsaid.
    + exists (text_part <$> texts). rewrite Hsaid. unfold parts. cbn. split.
      * apply Forall2_app; [|done]. apply list.Forall2_fmap.
        apply list.Forall_Forall2_diag, list.Forall_true. by split.
      * apply list.Forall_fmap, list.Forall_true. done.
  - destruct (range_provider_messages upstream _ _ 0
      {| gp_system := None; gp_contents := []; gp_names := ∅ |} Hall)
      as (st & Hr & Hsys & Hn & said & Hsaid & Hsame & Hl).
    exists st. split_and!; [done|done|by intros [? _]%Hn|by rewrite Hsaid|].
    exists []. by rewrite Hsaid.
Qed.

(** The generation config that is sent, [d] being the adapter's own limit. *)
Definition sent_limit (config : option GenerationConfig) (d : Z) : option Z :=
  match config ≫= Gen_MaxOutputTokens with
  | Some n => Some n
  | None => if (0 <? d)%Z then Some d else None
  end.
Definition sent_config (config : option GenerationConfig) (d : Z) : GenerationConfig := {|
  Gen_StopSequences := default [] (Gen_StopSequences <$> config);
  Gen_MaxOutputTokens := sent_limit config d; Gen_Temperature := config ≫= Gen_Temperature;
  Gen_TopP := config ≫= Gen_TopP;
  Gen_CandidateCount := None; Gen_ResponseMIMEType := ""; Gen_ResponseSchema := "";
  Gen_ResponseJSONSchema := ""; Gen_ResponseModalities := None; Gen_ThinkingConfig := "";
  Gen_TopK := None; Gen_Seed := None; Gen_PresencePenalty := None; Gen_FrequencyPenalty := None;
  Gen_ResponseLogprobs := None; Gen_Logprobs := None; Gen_MediaResolution := "" |}.

Lemma accepted_config req route id r d :
  accepted req route id r → provider_config r d = sent_config (GR_GenerationConfig req) d.
Proof.
  intros Ha. destruct (ac_config _ _ _ _ Ha) as (Hm & Ht & Hp & Hs).
  unfold provider_config, sent_config, output_limit, sent_limit. by rewrite Hm, Ht, Hp, Hs.
Qed.

Lemma provider_config_ok r d :
  valid_request r → validateGenerationConfig (Some (provider_config r d)) = inr tt.
Proof.
  intros Hv. unfold validateGenerationConfig. cbv zeta. rewrite !check_then. unfold provider_config.
  cbn [Gen_StopSequences Gen_MaxOutputTokens Gen_Temperature Gen_TopP Gen_CandidateCount
       Gen_ResponseMIMEType Gen_ResponseSchema Gen_ResponseJSONSchema Gen_ResponseModalities
       Gen_ThinkingConfig Gen_TopK Gen_Seed Gen_PresencePenalty Gen_FrequencyPenalty
       Gen_ResponseLogprobs Gen_Logprobs Gen_MediaResolution].
  rewrite !unset_or_true. split_and!; try done.
  - unfold output_limit. intros n Hn. apply Z.ltb_lt.
    destruct (Req_MaxOutputTokens r) as [k|] eqn:E; [injection Hn as <-; by eapply vr_tokens|].
    destruct (Z.ltb_spec 0 d); [by injection Hn as <-|done].
  - intros x Hx. apply negb_true_iff. by eapply vr_temperature.
  - intros x Hx. apply negb_true_iff. by eapply vr_top_p.
  - apply range_check. intros k x Hk. unfold check_config_stop. apply require_ok, eqs_false.
    intros ->. apply (vr_stop _ Hv). by eapply list_elem_of_lookup_2.
Qed.

Lemma range_provider_tools ds :
  range_map provider_tool 0 (portable_tool <$> ds) = inr (sent_declaration <$> ds).
Proof.
  generalize 0%nat. induction ds as [|d ds IH]; intros i; [done|].
  cbn [fmap list_fmap range_map]. by rewrite IH.
Qed.

(** What the adapter sends for an accepted request. *)
Definition within_limit (limit : option Z) (m : Z) : bool :=
  unset_or (λ n, negb ((0 <? m) && (m <? n)))%Z limit.

Lemma ToProviderRequest_sent req route id r d m :
  accepted req route id r →
  ∃ st, range (provider_message (Route_UpstreamModel route)) 0 (Req_Messages r)
      {| gp_system := None; gp_contents := []; gp_names := ∅ |} = inr st ∧
    ToProviderRequest r d m =
      if within_limit (sent_limit (GR_GenerationConfig req) d) m then
        inr {| GR_Contents := gp_contents st; GR_SystemInstruction := gp_system st;
               GR_Tools := provider_tools (sent_declaration <$> declarations (GR_Tools req));
               GR_ToolConfig := sent_tool_config (GR_ToolConfig req);
               GR_GenerationConfig := set_config (sent_config (GR_GenerationConfig req) d);
               GR_SafetySettings := None; GR_CachedContent := ""; GR_Labels := None |}
      else inl (Errorf "max_output_tokens must not exceed %d" [AInt m]).
Proof.
  intros Ha. pose proof (ac_valid _ _ _ _ Ha) as Hv.
  destruct (range_accepted_messages _ _ _ _ (Route_UpstreamModel route) Ha) as (st & Hst & _ & Hne & _).
  exists st. split; [done|]. unfold ToProviderRequest.
  rewrite (proj2 (Request_Validate_ok r) Hv), (vr_stream _ Hv). cbn [mbind result_bind negb require].
  rewrite provider_config_ok by done. rewrite (accepted_config _ _ _ _ d Ha).
  change (Gen_MaxOutputTokens (sent_config ?c d)) with (sent_limit c d). fold (within_limit (sent_limit (GR_GenerationConfig req) d) m).
  destruct (within_limit _ m); [|done]. cbn [mbind result_bind require].
  rewrite (ac_route _ _ _ _ Ha), Hst. cbn [mbind result_bind].
  rewrite bool_decide_eq_false_2 by done. cbn [negb require mbind result_bind].
  rewrite (ac_tools _ _ _ _ Ha), range_provider_tools. cbn [mbind result_bind].
  pose proof (ac_choice _ _ _ _ Ha) as Hc. destruct (Req_ToolChoice r) as [c|]; [|by rewrite Hc].
  destruct Hc as (cfg & -> & ->). done.
Qed.

(** ** The theorem *)

(** Every response answers an earlier call of its name and id. *)
Definition answers_calls (l : list Part) : Prop :=
  ∀ pre q post response, l = pre ++ q :: post → P_FunctionResponse q = Some response →
    ∃ q' call, q' ∈ pre ∧ P_FunctionCall q' = Some call ∧
      FC_ID call = FR_ID response ∧ FC_Name call = FR_Name response.

Lemma linked_answers r before qs :
  valid_request r → Forall2 linked (parts (Req_Messages r)) (before ++ qs) →
  Forall (λ q, P_FunctionCall q = None) before → answers_calls qs.
Proof.
  intros Hv Hl Hb pre q post response -> Hq. rewrite app_assoc in Hl.
  apply list.Forall2_app_inv_r in Hl as (cs & cs' & Hpre & Hrest & Hparts).
  apply list.Forall2_cons_inv_r in Hrest as (c & cs'' & [_ Hc] & _ & ->).
  destruct (Hc response Hq) as (x & Hx & Hid & Hname & Hne).
  destruct (valid_fits r cs c cs'' Hv Hparts) as (role & _ & _ & _ & Hres).
  destruct (Hres x Hx) as [(call & Hcall & Hcid & Hcn) _].
  apply list_elem_of_omap in Hcall as (c0 & Hin & Hc0).
  apply list_elem_of_lookup in Hin as [k Hk].
  destruct (list.Forall2_lookup_l _ _ _ _ _ Hpre Hk) as (q0 & Hq0 & [Hlink _]).
  destruct (Hlink call Hc0) as (gcall & Hg & Hgid & Hgn).
  assert (q0 ∈ before ++ pre) as [Hin|Hin]%elem_of_app by by eapply list_elem_of_lookup_2.
  { rewrite list.Forall_forall in Hb. specialize (Hb q0 Hin). congruence. }
  exists q0, gcall. split_and!; [done|done|congruence|]. destruct Hcn as [E|E]; congruence.
Qed.


(** ** Answers *)

(** The parts of the answer, thoughts left out. *)
Definition visible (p : Part) : bool := negb (default false (P_Thought p)).
Definition answer_parts (resp : GenerateContentResponse) : list Part :=
  match GP_Candidates resp with
  | [] => []
  | c :: _ => List.filter visible (GC_Parts (Cand_Content c))
  end.

(** Finish reasons the protocol does not tell apart. *)
Definition portable_reason (reason : string) : string :=
  if eqs reason "" || eqs reason "STOP" then "STOP"
  else if eqs reason "MAX_TOKENS" then "MAX_TOKENS" else "SAFETY".
Definition answer_reason (resp : GenerateContentResponse) : string :=
  match GP_Candidates resp with [] => "SAFETY" | c :: _ => portable_reason (Cand_FinishReason c) end.

Lemma candidate_part_conveys id i p st st' :
  candidate_part id i p st = inr st' →
  if visible p then ∃ c, st'.1 = st.1 ++ [c] ∧ conveys p c else st'.1 = st.1.
Proof.
  unfold candidate_part, visible. intros [_ [_ H]%check_then]%check_then.
  destruct (default false (P_Thought p)); cbn [negb]; [by injection H as <-|].
  destruct (P_Text p) as [text|] eqn:Et.
  { injection H as <-. eexists. split; [done|by constructor]. }
  destruct (P_InlineData p) as [blob|] eqn:Ei.
  { apply bind_ok in H as (image & Him & [= <-]). rewrite on_error_ok in Him.
    apply validateInlineData_ok in Him as [-> Hb]. eexists. split; [done|by constructor]. }
  destruct (P_FunctionCall p) as [call|] eqn:Ec; [|done].
  apply check_then in H as [_ [Hargs [= <-]]%check_then]. eexists. split; [done|].
  apply (conveys_call p call); [done|by eapply given_id|done].
Qed.

Lemma range_candidate_parts id ps i st st' :
  range (candidate_part id) i ps st = inr st' →
  ∃ cs, st'.1 = st.1 ++ cs ∧ Forall2 conveys (List.filter visible ps) cs.
Proof.
  revert i st. induction ps as [|p ps IH]; intros i st; cbn [range List.filter].
  - intros [= ->]. exists []. by rewrite app_nil_r.
  - intros (st1 & Hp%candidate_part_conveys & Hr)%bind_ok. destruct (IH _ _ Hr) as (cs & Hcs & Hall).
    rewrite Hcs. destruct (visible p); [|rewrite Hp; eauto].
    destruct Hp as (c & -> & Hc). exists (c :: cs). rewrite <- app_assoc. split; [done|by constructor].
Qed.

Lemma finish_back reason calls finish :
  finishReasonToIR reason calls = inr finish → client_finish finish = inr (portable_reason reason).
Proof.
  unfold finishReasonToIR, portable_reason. destruct (eqs reason "" || eqs reason "STOP").
  { intros [= <-]. by destruct calls. }
  destruct (eqs reason "MAX_TOKENS"); [by intros [= <-]|].
  destruct (bool_decide (reason ∈ content_reasons)); [by intros [= <-]|].
  by destruct (bool_decide _).
Qed.

(** What the translated answer holds. *)
Lemma ToIRResponse_holds resp req r :
  ToIRResponse resp req = inr r →
  Forall2 conveys (answer_parts resp) (Resp_Content r) ∧
  client_finish (Resp_FinishReason r) = inr (answer_reason resp) ∧
  Resp_Usage r = answer_usage (GP_UsageMetadata resp) ∧
  Resp_ID r = Req_ID req ∧ Resp_ProviderResponseID r = GP_ResponseID resp ∧
  (GP_Candidates resp ≠ [] → valid_response r).
Proof.
  unfold ToIRResponse, answer_parts, answer_reason. intros [_ H]%check_then.
  destruct (GP_Candidates resp) as [|cand rest].
  { apply check_then in H as [_ [= <-]]. by split_and!. }
  apply check_then in H as [_ H]. apply bind_ok in H as ([content calls] & Hc & H).
  apply bind_ok in H as (finish & Hf & H). apply bind_ok in H as ([] & Hv & [= <-]).
  apply range_candidate_parts in Hc as (cs & Hcs & Hall). cbn [fst app] in Hcs. subst content.
  split_and!; [done|by eapply finish_back|done|done|done|]. intros _. by apply Response_Validate_ok.
Qed.

Lemma range_client_parts model ps cs i :
  Forall2 conveys ps cs →
  ∃ qs, range_map (client_part model) i cs = inr qs ∧ Forall2 (same_part model) ps qs.
Proof.
  intros Hall. revert i. induction Hall as [|p c ps cs Hc Hall IH]; intros i; cbn [range_map].
  - by exists [].
  - destruct (conveys_given model p c Hc) as (q & Hq & Hs & _). destruct (Hq ∅) as [names Hn].
    destruct (IH (Datatypes.S i)) as (qs & Hr & Hqs). exists (q :: qs).
    assert (client_part model i c = inr q) as -> by (unfold client_part; by rewrite Hn).
    cbn [mbind result_bind]. rewrite Hr. split; [done|by constructor].
Qed.


(** ** A conversation with a tool *)

Module GeminiSample.
Definition function_call : FunctionCall := {| FC_ID := ""; FC_Name := "now"; FC_Args := "" |}.
Definition function_response : FunctionResponse := {|
  FR_ID := ""; FR_Name := "now"; FR_Response := "{}"; FR_WillContinue := None; FR_Scheduling := "" |}.
Definition declaration : FunctionDeclaration := {|
  FD_Name := "now"; FD_Description := "clock"; FD_Parameters := ""; FD_ParametersJSONSchema := "";
  FD_Response := ""; FD_ResponseJSONSchema := ""; FD_Behavior := "" |}.
Definition config : GenerationConfig := {|
  Gen_StopSequences := ["END"]; Gen_MaxOutputTokens := Some 100%Z; Gen_Temperature := Some float_one;
  Gen_TopP := None; Gen_CandidateCount := Some 1%Z; Gen_ResponseMIMEType := "";
  Gen_ResponseSchema := ""; Gen_ResponseJSONSchema := ""; Gen_ResponseModalities := None;
  Gen_ThinkingConfig := ""; Gen_TopK := None; Gen_Seed := None; Gen_PresencePenalty := None;
  Gen_FrequencyPenalty := None; Gen_ResponseLogprobs := None; Gen_Logprobs := None;
  Gen_MediaResolution := "" |}.
Definition request : GenerateContentRequest := {|
  GR_Contents := [
    {| GC_Role := ""; GC_Parts := [text_part "time?"; inline_part
         {| Blob_MIMEType := "image/png"; Blob_Data := "AAAA" |}] |};
    {| GC_Role := "model"; GC_Parts := [call_part function_call ""] |};
    {| GC_Role := "user"; GC_Parts := [response_part function_response] |};
    {| GC_Role := "user"; GC_Parts := [text_part "thanks"] |}];
  GR_SystemInstruction := Some {| GC_Role := "system"; GC_Parts := [text_part "Be brief."] |};
  GR_Tools := [{| GT_FunctionDeclarations := [declaration]; GT_GoogleSearch := "null";
                  GT_CodeExecution := ""; GT_URLContext := ""; GT_EnterpriseWebSearch := "" |}];
  GR_ToolConfig := Some {| TCfg_RetrievalConfig := "";
    TCfg_FunctionCallingConfig := Some {| FCC_Mode := "any"; FCC_AllowedFunctionNames := ["now"] |} |};
  GR_GenerationConfig := Some config; GR_SafetySettings := None; GR_CachedContent := "";
  GR_Labels := None |}.
Definition route : Model.Route := {|
  Route_ModelID := "m1"; Route_Alias := "fast"; Route_ProviderID := "p1";
  Route_UpstreamModel := "models/Gemini-3"; Route_AdapterAppID := "acme" |}.
Definition zero_request : Request := {|
  Req_Version := ""; Req_ID := ""; Req_Route := {| IR_ProviderID := ""; IR_UpstreamModel := "" |};
  Req_Messages := []; Req_MaxOutputTokens := None; Req_Temperature := None; Req_TopP := None;
  Req_Stop := []; Req_Tools := []; Req_ToolChoice := None; Req_Metadata := []; Req_Stream := false |}.
Definition ir : Request :=
  match ToIRRequest request "fast" route "r1" with inr r => r | inl _ => zero_request end.
Definition thought : Part := {|
  P_Text := Some "hm"; P_InlineData := None; P_FileData := None; P_FunctionCall := None;
  P_FunctionResponse := None; P_ThoughtSignature := ""; P_ExecutableCode := "";
  P_CodeExecution := ""; P_VideoMetadata := ""; P_Thought := Some true |}.
Definition response : GenerateContentResponse := {|
  GP_Candidates := [{| Cand_Content := {| GC_Role := "model"; GC_Parts :=
      [thought; text_part "noon"; call_part function_call "sig"] |};
    Cand_FinishReason := "STOP"; Cand_Index := 0 |}];
  GP_PromptFeedback := None; GP_ModelVersion := ""; GP_ResponseID := "";
  GP_UsageMetadata := {| PromptTokenCount := 7; CandidatesTokenCount := 2; TotalTokenCount := 0;
    CachedContentTokenCount := 1; ThoughtsTokenCount := 3 |} |}.
Definition answer : Response :=
  match ToIRResponse response ir with inr r => r | inl _ => {|
    Resp_Version := ""; Resp_ID := ""; Resp_Model := ""; Resp_Content := []; Resp_FinishReason := "";
    Resp_StopSequence := ""; Resp_ProviderResponseID := "";
    Resp_Usage := {| InputTokens := 0; OutputTokens := 0; CacheCreationInputTokens := 0;
      CachedInputTokens := 0 |} |} end.
End GeminiSample.

(** The parts that reach a Gemini 3 provider. *)
Example gemini_sent_parts :
  match ToProviderRequest GeminiSample.ir 4096 100 with
  | inr up => (map GC_Role (GR_Contents up), (spoken (GR_Contents up)).*2)
  | inl _ => ([], [])
  end =
  (["user"; "model"; "user"],
   [text_part "time?"; inline_part {| Blob_MIMEType := "image/png"; Blob_Data := "AAAA" |};
    call_part {| FC_ID := "r1-call-1-0"; FC_Name := "now"; FC_Args := "{}" |}
      SkipThoughtSignatureValidator;
    response_part {| FR_ID := "r1-call-1-0"; FR_Name := "now"; FR_Response := "{}";
      FR_WillContinue := None; FR_Scheduling := "" |};
    text_part "thanks"]).
Proof. by vm_compute. Qed.


