(* ===== verification/GeminiHttp.v ===== *)
(** * The Gemini protocol over HTTP ([internal/gemini])

    The structs of [types.go] on the wire, the adapter of Gemini providers
    ([adapter.go]) with the URL it calls, and the gateway handler
    ([gateway.go]). *)

From Stdlib Require Import SpecFloat Ascii.
From S2P Require Import Prelude GoStd Json JsonRaw GoText GoNet GoFloat GoTime GoFmt Errors Results State.
From S2P Require Import Model Repository Svc Service Platform Wire Http Registry Dapr Ir DaprState.
From S2P Require Import AdapterConfig Runtime Dataplane IrWire Adapter Gemini.

(** ** types.go *)

Definition Blob_text (b : Blob) : option string := struct_text
  [must "mimeType" (string_text (Blob_MIMEType b)); must "data" (string_text (Blob_Data b))].
Definition FileData_text (f : FileData) : option string := struct_text
  [omit_string "mimeType" (File_MIMEType f); must "fileUri" (string_text (File_URI f))].
Definition FunctionCall_text (c : FunctionCall) : option string := struct_text
  [omit_string "id" (FC_ID c); must "name" (string_text (FC_Name c)); omit_raw "args" (FC_Args c)].
Definition FunctionResponse_text (r : FunctionResponse) : option string := struct_text
  [omit_string "id" (FR_ID r); must "name" (string_text (FR_Name r));
   must "response" (raw_text (FR_Response r));
   omit_pointer "willContinue" bool_text (FR_WillContinue r);
   omit_string "scheduling" (FR_Scheduling r)].
Definition Part_text (p : Part) : option string := struct_text
  [omit_pointer "text" string_text (P_Text p); omit_pointer "inlineData" Blob_text (P_InlineData p);
   omit_pointer "fileData" FileData_text (P_FileData p);
   omit_pointer "functionCall" FunctionCall_text (P_FunctionCall p);
   omit_pointer "functionResponse" FunctionResponse_text (P_FunctionResponse p);
   omit_string "thoughtSignature" (P_ThoughtSignature p);
   omit_raw "executableCode" (P_ExecutableCode p); omit_raw "codeExecutionResult" (P_CodeExecution p);
   omit_raw "videoMetadata" (P_VideoMetadata p); omit_pointer "thought" bool_text (P_Thought p)].
(** The parts of an answer are appended to a nil slice, those of a request are
    never empty. *)
Definition Content_text (c : Content) : option string := struct_text
  [omit_string "role" (GC_Role c); must "parts" (nil_slice_text Part_text (GC_Parts c))].

Definition FunctionDeclaration_text (d : FunctionDeclaration) : option string := struct_text
  [must "name" (string_text (FD_Name d)); omit_string "description" (FD_Description d);
   omit_raw "parameters" (FD_Parameters d); omit_raw "parametersJsonSchema" (FD_ParametersJSONSchema d);
   omit_raw "response" (FD_Response d); omit_raw "responseJsonSchema" (FD_ResponseJSONSchema d);
   omit_string "behavior" (FD_Behavior d)].
Definition Tool_text (t : Tool) : option string := struct_text
  [omit_slice "functionDeclarations" FunctionDeclaration_text (GT_FunctionDeclarations t);
   omit_raw "googleSearch" (GT_GoogleSearch t); omit_raw "codeExecution" (GT_CodeExecution t);
   omit_raw "urlContext" (GT_URLContext t); omit_raw "enterpriseWebSearch" (GT_EnterpriseWebSearch t)].
Definition FunctionCallingConfig_text (c : FunctionCallingConfig) : option string := struct_text
  [omit_string "mode" (FCC_Mode c);
   omit_slice "allowedFunctionNames" string_text (FCC_AllowedFunctionNames c)].
Definition ToolConfig_text (c : ToolConfig) : option string := struct_text
  [omit_pointer "functionCallingConfig" FunctionCallingConfig_text (TCfg_FunctionCallingConfig c);
   omit_raw "retrievalConfig" (TCfg_RetrievalConfig c)].
Definition GenerationConfig_text (c : GenerationConfig) : option string := struct_text
  [omit_slice "stopSequences" string_text (Gen_StopSequences c);
   omit_pointer "maxOutputTokens" int_text (Gen_MaxOutputTokens c);
   omit_pointer "temperature" FormatFloat (Gen_Temperature c);
   omit_pointer "topP" FormatFloat (Gen_TopP c);
   omit_pointer "candidateCount" int_text (Gen_CandidateCount c);
   omit_string "responseMimeType" (Gen_ResponseMIMEType c);
   omit_raw "responseSchema" (Gen_ResponseSchema c);
   omit_raw "responseJsonSchema" (Gen_ResponseJSONSchema c);
   omit_slice "responseModalities" string_text (default [] (Gen_ResponseModalities c));
   omit_raw "thinkingConfig" (Gen_ThinkingConfig c); omit_pointer "topK" FormatFloat (Gen_TopK c);
   omit_pointer "seed" int_text (Gen_Seed c);
   omit_pointer "presencePenalty" FormatFloat (Gen_PresencePenalty c);
   omit_pointer "frequencyPenalty" FormatFloat (Gen_FrequencyPenalty c);
   omit_pointer "responseLogprobs" bool_text (Gen_ResponseLogprobs c);
   omit_pointer "logprobs" int_text (Gen_Logprobs c);
   omit_string "mediaResolution" (Gen_MediaResolution c)].
(** The request always has contents. *)
Definition GenerateContentRequest_text (r : GenerateContentRequest) : option string := struct_text
  [must "contents" (slice_text Content_text (GR_Contents r));
   omit_pointer "systemInstruction" Content_text (GR_SystemInstruction r);
   omit_slice "tools" Tool_text (GR_Tools r); omit_pointer "toolConfig" ToolConfig_text (GR_ToolConfig r);
   omit_pointer "generationConfig" GenerationConfig_text (GR_GenerationConfig r);
   omit_slice "safetySettings" raw_text (default [] (GR_SafetySettings r));
   omit_string "cachedContent" (GR_CachedContent r);
   omit_map "labels" string_text (default [] (GR_Labels r))].

Definition Candidate_text (c : Candidate) : option string := struct_text
  [must "content" (Content_text (Cand_Content c)); omit_string "finishReason" (Cand_FinishReason c);
   omit_int "index" (Cand_Index c)].
Definition PromptFeedback_text (f : PromptFeedback) : option string := struct_text
  [omit_string "blockReason" (PF_BlockReason f)].
Definition UsageMetadata_text (u : UsageMetadata) : option string := struct_text
  [omit_int "promptTokenCount" (PromptTokenCount u);
   omit_int "candidatesTokenCount" (CandidatesTokenCount u);
   omit_int "totalTokenCount" (TotalTokenCount u);
   omit_int "cachedContentTokenCount" (CachedContentTokenCount u);
   omit_int "thoughtsTokenCount" (ThoughtsTokenCount u)].
(** A struct is never empty: [usageMetadata] is always written. *)
Definition GenerateContentResponse_text (r : GenerateContentResponse) : option string := struct_text
  [omit_slice "candidates" Candidate_text (GP_Candidates r);
   omit_pointer "promptFeedback" PromptFeedback_text (GP_PromptFeedback r);
   must "usageMetadata" (UsageMetadata_text (GP_UsageMetadata r));
   omit_string "modelVersion" (GP_ModelVersion r); omit_string "responseId" (GP_ResponseID r)].

(** [Details] is never set. *)
Record APIError := { AE_Code : Z; AE_Message : string; AE_Status : string }.
Definition APIError_text (e : APIError) : option string := struct_text
  [must "code" (int_text (AE_Code e)); must "message" (string_text (AE_Message e));
   must "status" (string_text (AE_Status e))].
Definition ErrorResponse_text (e : APIError) : option string :=
  struct_text [must "error" (APIError_text e)].

Definition zero_blob : Blob := {| Blob_MIMEType := ""; Blob_Data := "" |}.
Definition zero_file : FileData := {| File_MIMEType := ""; File_URI := "" |}.
Definition zero_function_call : FunctionCall := {| FC_ID := ""; FC_Name := ""; FC_Args := "" |}.
Definition zero_function_response : FunctionResponse := {|
  FR_ID := ""; FR_Name := ""; FR_Response := ""; FR_WillContinue := None; FR_Scheduling := "" |}.
Definition zero_gemini_content : Content := {| GC_Role := ""; GC_Parts := [] |}.
Definition zero_declaration : FunctionDeclaration := {|
  FD_Name := ""; FD_Description := ""; FD_Parameters := ""; FD_ParametersJSONSchema := "";
  FD_Response := ""; FD_ResponseJSONSchema := ""; FD_Behavior := "" |}.
Definition zero_gemini_tool : Tool := {|
  GT_FunctionDeclarations := []; GT_GoogleSearch := ""; GT_CodeExecution := "";
  GT_URLContext := ""; GT_EnterpriseWebSearch := "" |}.
Definition zero_calling : FunctionCallingConfig := {| FCC_Mode := ""; FCC_AllowedFunctionNames := [] |}.
Definition zero_tool_config : ToolConfig :=
  {| TCfg_FunctionCallingConfig := None; TCfg_RetrievalConfig := "" |}.
Definition zero_generation : GenerationConfig := {|
  Gen_StopSequences := []; Gen_MaxOutputTokens := None; Gen_Temperature := None; Gen_TopP := None;
  Gen_CandidateCount := None; Gen_ResponseMIMEType := ""; Gen_ResponseSchema := "";
  Gen_ResponseJSONSchema := ""; Gen_ResponseModalities := None; Gen_ThinkingConfig := "";
  Gen_TopK := None; Gen_Seed := None; Gen_PresencePenalty := None; Gen_FrequencyPenalty := None;
  Gen_ResponseLogprobs := None; Gen_Logprobs := None; Gen_MediaResolution := "" |}.
Definition zero_generate : GenerateContentRequest := {|
  GR_Contents := []; GR_SystemInstruction := None; GR_Tools := []; GR_ToolConfig := None;
  GR_GenerationConfig := None; GR_SafetySettings := None; GR_CachedContent := "";
  GR_Labels := None |}.
Definition zero_candidate : Candidate :=
  {| Cand_Content := zero_gemini_content; Cand_FinishReason := ""; Cand_Index := 0 |}.
Definition zero_feedback : PromptFeedback := {| PF_BlockReason := "" |}.
Definition zero_usage_metadata : UsageMetadata := {|
  PromptTokenCount := 0; CandidatesTokenCount := 0; TotalTokenCount := 0;
  CachedContentTokenCount := 0; ThoughtsTokenCount := 0 |}.
Definition zero_generated : GenerateContentResponse := {|
  GP_Candidates := []; GP_PromptFeedback := None; GP_UsageMetadata := zero_usage_metadata;
  GP_ModelVersion := ""; GP_ResponseID := "" |}.

Section reading.
Context (strict : bool).

Definition read_Blob : reader Blob := read_struct strict ["mimeType"; "data"] (λ x m,
  mime ← read_field read_string "mimeType" (Blob_MIMEType x) m;
  data ← read_field read_string "data" (Blob_Data x) m;
  Some {| Blob_MIMEType := mime; Blob_Data := data |}).
Definition read_FileData : reader FileData := read_struct strict ["mimeType"; "fileUri"] (λ x m,
  mime ← read_field read_string "mimeType" (File_MIMEType x) m;
  uri ← read_field read_string "fileUri" (File_URI x) m;
  Some {| File_MIMEType := mime; File_URI := uri |}).
Definition read_FunctionCall : reader FunctionCall := read_struct strict ["id"; "name"; "args"] (λ x m,
  id ← read_field read_string "id" (FC_ID x) m;
  name ← read_field read_string "name" (FC_Name x) m;
  args ← read_field read_raw "args" (FC_Args x) m;
  Some {| FC_ID := id; FC_Name := name; FC_Args := args |}).
Definition read_FunctionResponse : reader FunctionResponse :=
  read_struct strict ["id"; "name"; "response"; "willContinue"; "scheduling"] (λ x m,
    id ← read_field read_string "id" (FR_ID x) m;
    name ← read_field read_string "name" (FR_Name x) m;
    response ← read_field read_raw "response" (FR_Response x) m;
    continue ← read_field (read_pointer false read_bool) "willContinue" (FR_WillContinue x) m;
    scheduling ← read_field read_string "scheduling" (FR_Scheduling x) m;
    Some {| FR_ID := id; FR_Name := name; FR_Response := response; FR_WillContinue := continue;
            FR_Scheduling := scheduling |}).

Definition read_Part : reader Part :=
  read_struct strict
    ["text"; "inlineData"; "fileData"; "functionCall"; "functionResponse"; "thoughtSignature";
     "executableCode"; "codeExecutionResult"; "videoMetadata"; "thought"] (λ x m,
    text ← read_field (read_pointer "" read_string) "text" (P_Text x) m;
    inline ← read_field (read_pointer zero_blob read_Blob) "inlineData" (P_InlineData x) m;
    file ← read_field (read_pointer zero_file read_FileData) "fileData" (P_FileData x) m;
    call ← read_field (read_pointer zero_function_call read_FunctionCall) "functionCall"
             (P_FunctionCall x) m;
    response ← read_field (read_pointer zero_function_response read_FunctionResponse)
                 "functionResponse" (P_FunctionResponse x) m;
    signature ← read_field read_string "thoughtSignature" (P_ThoughtSignature x) m;
    code ← read_field read_raw "executableCode" (P_ExecutableCode x) m;
    result ← read_field read_raw "codeExecutionResult" (P_CodeExecution x) m;
    video ← read_field read_raw "videoMetadata" (P_VideoMetadata x) m;
    thought ← read_field (read_pointer false read_bool) "thought" (P_Thought x) m;
    Some {| P_Text := text; P_InlineData := inline; P_FileData := file; P_FunctionCall := call;
            P_FunctionResponse := response; P_ThoughtSignature := signature;
            P_ExecutableCode := code; P_CodeExecution := result; P_VideoMetadata := video;
            P_Thought := thought |}).
Definition read_Content : reader Content := read_struct strict ["role"; "parts"] (λ x m,
  role ← read_field read_string "role" (GC_Role x) m;
  parts ← read_field (read_slice empty_part read_Part) "parts" (GC_Parts x) m;
  Some {| GC_Role := role; GC_Parts := parts |}).

Definition read_FunctionDeclaration : reader FunctionDeclaration :=
  read_struct strict
    ["name"; "description"; "parameters"; "parametersJsonSchema"; "response"; "responseJsonSchema";
     "behavior"] (λ x m,
    name ← read_field read_string "name" (FD_Name x) m;
    description ← read_field read_string "description" (FD_Description x) m;
    parameters ← read_field read_raw "parameters" (FD_Parameters x) m;
    schema ← read_field read_raw "parametersJsonSchema" (FD_ParametersJSONSchema x) m;
    response ← read_field read_raw "response" (FD_Response x) m;
    responseSchema ← read_field read_raw "responseJsonSchema" (FD_ResponseJSONSchema x) m;
    behavior ← read_field read_string "behavior" (FD_Behavior x) m;
    Some {| FD_Name := name; FD_Description := description; FD_Parameters := parameters;
            FD_ParametersJSONSchema := schema; FD_Response := response;
            FD_ResponseJSONSchema := responseSchema; FD_Behavior := behavior |}).
Definition read_Tool : reader Tool :=
  read_struct strict
    ["functionDeclarations"; "googleSearch"; "codeExecution"; "urlContext"; "enterpriseWebSearch"]
    (λ x m,
    declarations ← read_field (read_slice zero_declaration read_FunctionDeclaration)
                     "functionDeclarations" (GT_FunctionDeclarations x) m;
    search ← read_field read_raw "googleSearch" (GT_GoogleSearch x) m;
    code ← read_field read_raw "codeExecution" (GT_CodeExecution x) m;
    url ← read_field read_raw "urlContext" (GT_URLContext x) m;
    enterprise ← read_field read_raw "enterpriseWebSearch" (GT_EnterpriseWebSearch x) m;
    Some {| GT_FunctionDeclarations := declarations; GT_GoogleSearch := search;
            GT_CodeExecution := code; GT_URLContext := url; GT_EnterpriseWebSearch := enterprise |}).
Definition read_FunctionCallingConfig : reader FunctionCallingConfig :=
  read_struct strict ["mode"; "allowedFunctionNames"] (λ x m,
    mode ← read_field read_string "mode" (FCC_Mode x) m;
    names ← read_field (read_slice "" read_string) "allowedFunctionNames"
              (FCC_AllowedFunctionNames x) m;
    Some {| FCC_Mode := mode; FCC_AllowedFunctionNames := names |}).
Definition read_ToolConfig : reader ToolConfig :=
  read_struct strict ["functionCallingConfig"; "retrievalConfig"] (λ x m,
    calling ← read_field (read_pointer zero_calling read_FunctionCallingConfig)
                "functionCallingConfig" (TCfg_FunctionCallingConfig x) m;
    retrieval ← read_field read_raw "retrievalConfig" (TCfg_RetrievalConfig x) m;
    Some {| TCfg_FunctionCallingConfig := calling; TCfg_RetrievalConfig := retrieval |}).

Definition read_GenerationConfig : reader GenerationConfig :=
  read_struct strict
    ["stopSequences"; "maxOutputTokens"; "temperature"; "topP"; "candidateCount"; "responseMimeType";
     "responseSchema"; "responseJsonSchema"; "responseModalities"; "thinkingConfig"; "topK"; "seed";
     "presencePenalty"; "frequencyPenalty"; "responseLogprobs"; "logprobs"; "mediaResolution"] (λ x m,
    stop ← read_field (read_slice "" read_string) "stopSequences" (Gen_StopSequences x) m;
    tokens ← read_field (read_pointer 0%Z read_int) "maxOutputTokens" (Gen_MaxOutputTokens x) m;
    temperature ← read_field (read_pointer float_zero read_float) "temperature" (Gen_Temperature x) m;
    top ← read_field (read_pointer float_zero read_float) "topP" (Gen_TopP x) m;
    count ← read_field (read_pointer 0%Z read_int) "candidateCount" (Gen_CandidateCount x) m;
    mime ← read_field read_string "responseMimeType" (Gen_ResponseMIMEType x) m;
    schema ← read_field read_raw "responseSchema" (Gen_ResponseSchema x) m;
    jsonSchema ← read_field read_raw "responseJsonSchema" (Gen_ResponseJSONSchema x) m;
    modalities ← read_field (read_pointer [] (read_slice "" read_string)) "responseModalities"
                   (Gen_ResponseModalities x) m;
    thinking ← read_field read_raw "thinkingConfig" (Gen_ThinkingConfig x) m;
    topK ← read_field (read_pointer float_zero read_float) "topK" (Gen_TopK x) m;
    seed ← read_field (read_pointer 0%Z read_int) "seed" (Gen_Seed x) m;
    presence ← read_field (read_pointer float_zero read_float) "presencePenalty"
                 (Gen_PresencePenalty x) m;
    frequency ← read_field (read_pointer float_zero read_float) "frequencyPenalty"
                  (Gen_FrequencyPenalty x) m;
    response ← read_field (read_pointer false read_bool) "responseLogprobs" (Gen_ResponseLogprobs x) m;
    logprobs ← read_field (read_pointer 0%Z read_int) "logprobs" (Gen_Logprobs x) m;
    media ← read_field read_string "mediaResolution" (Gen_MediaResolution x) m;
    Some {| Gen_StopSequences := stop; Gen_MaxOutputTokens := tokens; Gen_Temperature := temperature;
            Gen_TopP := top; Gen_CandidateCount := count; Gen_ResponseMIMEType := mime;
            Gen_ResponseSchema := schema; Gen_ResponseJSONSchema := jsonSchema;
            Gen_ResponseModalities := modalities; Gen_ThinkingConfig := thinking; Gen_TopK := topK;
            Gen_Seed := seed; Gen_PresencePenalty := presence; Gen_FrequencyPenalty := frequency;
            Gen_ResponseLogprobs := response; Gen_Logprobs := logprobs;
            Gen_MediaResolution := media |}).
Definition read_GenerateContentRequest : reader GenerateContentRequest :=
  read_struct strict
    ["contents"; "systemInstruction"; "tools"; "toolConfig"; "generationConfig"; "safetySettings";
     "cachedContent"; "labels"] (λ x m,
    contents ← read_field (read_slice zero_gemini_content read_Content) "contents" (GR_Contents x) m;
    system ← read_field (read_pointer zero_gemini_content read_Content) "systemInstruction"
               (GR_SystemInstruction x) m;
    tools ← read_field (read_slice zero_gemini_tool read_Tool) "tools" (GR_Tools x) m;
    config ← read_field (read_pointer zero_tool_config read_ToolConfig) "toolConfig" (GR_ToolConfig x) m;
    generation ← read_field (read_pointer zero_generation read_GenerationConfig) "generationConfig"
                   (GR_GenerationConfig x) m;
    safety ← read_field (read_pointer [] (read_slice "" read_raw)) "safetySettings"
               (GR_SafetySettings x) m;
    cached ← read_field read_string "cachedContent" (GR_CachedContent x) m;
    labels ← read_field (read_pointer [] (read_map dec_text)) "labels" (GR_Labels x) m;
    Some {| GR_Contents := contents; GR_SystemInstruction := system; GR_Tools := tools;
            GR_ToolConfig := config; GR_GenerationConfig := generation; GR_SafetySettings := safety;
            GR_CachedContent := cached; GR_Labels := labels |}).

(** The ratings are decoded, and not used. *)
Definition read_Candidate : reader Candidate :=
  read_struct strict ["content"; "finishReason"; "index"; "safetyRatings"] (λ x m,
    content ← read_field read_Content "content" (Cand_Content x) m;
    reason ← read_field read_string "finishReason" (Cand_FinishReason x) m;
    index ← read_field read_int "index" (Cand_Index x) m;
    _ ← read_field (read_slice "" read_raw) "safetyRatings" [] m;
    Some {| Cand_Content := content; Cand_FinishReason := reason; Cand_Index := index |}).
Definition read_PromptFeedback : reader PromptFeedback :=
  read_struct strict ["blockReason"; "safetyRatings"] (λ x m,
    reason ← read_field read_string "blockReason" (PF_BlockReason x) m;
    _ ← read_field (read_slice "" read_raw) "safetyRatings" [] m;
    Some {| PF_BlockReason := reason |}).
Definition read_UsageMetadata : reader UsageMetadata :=
  read_struct strict
    ["promptTokenCount"; "candidatesTokenCount"; "totalTokenCount"; "cachedContentTokenCount";
     "thoughtsTokenCount"] (λ x m,
    prompt ← read_field read_int "promptTokenCount" (PromptTokenCount x) m;
    candidates ← read_field read_int "candidatesTokenCount" (CandidatesTokenCount x) m;
    total ← read_field read_int "totalTokenCount" (TotalTokenCount x) m;
    cached ← read_field read_int "cachedContentTokenCount" (CachedContentTokenCount x) m;
    thoughts ← read_field read_int "thoughtsTokenCount" (ThoughtsTokenCount x) m;
    Some {| PromptTokenCount := prompt; CandidatesTokenCount := candidates;
            TotalTokenCount := total; CachedContentTokenCount := cached;
            ThoughtsTokenCount := thoughts |}).
Definition read_GenerateContentResponse : reader GenerateContentResponse :=
  read_struct strict
    ["candidates"; "promptFeedback"; "usageMetadata"; "modelVersion"; "responseId"] (λ x m,
    candidates ← read_field (read_slice zero_candidate read_Candidate) "candidates" (GP_Candidates x) m;
    feedback ← read_field (read_pointer zero_feedback read_PromptFeedback) "promptFeedback"
                 (GP_PromptFeedback x) m;
    usage ← read_field read_UsageMetadata "usageMetadata" (GP_UsageMetadata x) m;
    model ← read_field read_string "modelVersion" (GP_ModelVersion x) m;
    id ← read_field read_string "responseId" (GP_ResponseID x) m;
    Some {| GP_Candidates := candidates; GP_PromptFeedback := feedback; GP_UsageMetadata := usage;
            GP_ModelVersion := model; GP_ResponseID := id |}).
End reading.

(** ** adapter.go *)

(** [url.URL.String]: a host, a path and a fragment are written back as they
    were read when that is a valid encoding, and escaped otherwise. *)
Definition escape_text (keep : ascii → bool) (s : string) : string :=
  foldr (λ c t, (if keep c then String c "" else percent c) +:+ t) "" (bytes_of s).
Definition host_char (c : ascii) : bool := negb (shouldEscape_host c).
Definition path_char (c : ascii) : bool := alnum c || one_of "-_.~$&+,/:;=@" c.
Definition fragment_char (c : ascii) : bool := alnum c || one_of "-_.~$&+,/:;=?@!()*" c.
Definition validEncoded (keep : ascii → bool) (s : string) : bool :=
  forallb (λ c, keep c || one_of "!$&'()*+,;=:@[]%" c) (bytes_of s).
Definition escaped (keep : ascii → bool) (s : string) : option string :=
  text ← unescape encodePath s; Some (if validEncoded keep s then s else escape_text keep text).

(** [url.Parse] of an absolute URL without credentials, and its text. *)
Definition parsed_text (raw : string) : option (URL * string) :=
  let '(u, fragment) := match Cut "#" raw with Some (a, b) => (a, b) | None => (raw, "") end in
  parsed ← ParseRequestURI u;
  let '(before, query) := match Cut "?" u with Some (a, q) => (a, "?" +:+ q) | None => (u, "") end in
  let rest := str_drop (String.length (Scheme parsed) + 3) before in
  path ← escaped path_char (match Cut "/" rest with Some (_, p) => String "/" p | None => "" end);
  fragment ← escaped fragment_char fragment;
  Some (parsed, Scheme parsed +:+ "://" +:+ escape_text host_char (Host parsed) +:+ path +:+ query +:+
                (if eqs fragment "" then "" else "#" +:+ fragment)).

Definition providerGenerateContentURL (config : Config) (upstreamModel : string) : error + string :=
  let invalid := Errorf "invalid Gemini provider base URL" [] in
  '(parsed, text) ← result_of (parsed_text (Cfg_BaseURL config)) invalid;
  _ ← require (negb (eqs (Scheme parsed) "" || eqs (Host parsed) "")) invalid;
  let apiVersion := Cfg_APIVersion config in
  _ ← require (negb (eqs apiVersion "")) (Errorf "Gemini provider api_version is required" []);
  let model := TrimPrefix (TrimSpace upstreamModel) "models/" in
  _ ← require (negb (eqs model "")) (Errorf "Gemini upstream model is required" []);
  mret (TrimRight "/" text +:+ "/" +:+ PathEscape apiVersion +:+ "/models/" +:+ PathEscape model +:+
        ":generateContent").

Definition gemini_api : provider_api GenerateContentRequest GenerateContentResponse := {|
  api_kind := ProviderKindGemini;
  api_accepts := "Gemini";
  api_name := "Gemini";
  api_limit _ _ := None;
  api_request config request :=
    ToProviderRequest request (DefaultMaxOutputTokens config) (MaxOutputTokens config);
  api_text := GenerateContentRequest_text;
  api_endpoint config request :=
    providerGenerateContentURL config (IR_UpstreamModel (Req_Route request));
  api_header _ apiKey requestID :=
    [("X-Goog-Api-Key", apiKey); ("User-Agent", "gwai-gemini-adapter/0.1")] ++
    unless_empty requestID [("X-Request-Id", requestID)];
  api_zero := zero_generated;
  api_read := read_GenerateContentResponse false;
  api_response := ToIRResponse |}.

Definition gemini_generate : AdapterHTTPHandler → handler := Adapter.generate gemini_api.
Definition NewGeminiAdapter : AdapterHTTPHandler → http_request → svc http_response :=
  NewAdapterHTTPHandler gemini_api.

(** ** gateway.go *)

Record GatewayHTTPHandler := { gw_dispatcher : Dispatcher; gw_apiVersion : string; gw_maxBody : Z }.

Definition writeError (status : Z) (apiStatus message : string) : http_response :=
  JSON_text status (ErrorResponse_text
    {| AE_Code := status; AE_Message := message; AE_Status := apiStatus |}).

Definition notFound : http_response :=
  writeError 404 "NOT_FOUND" "the requested Gemini API endpoint does not exist".

(** [context.DeadlineExceeded]. *)
Definition deadline_text : string := "context deadline exceeded".
Definition as_deadline (e : error) : option unit :=
  match e with NewError message => if eqs message deadline_text then Some tt else None | _ => None end.

Definition writeRuntimeError (err : error) : http_response :=
  match errors_As as_translation err with
  | Some (param, code, format, args) =>
      writeError 400 "INVALID_ARGUMENT" (Error (TranslationError param code format args))
  | None =>
      match errors_As as_validation err with
      | Some (field, message, args) =>
          writeError 400 "INVALID_ARGUMENT" (Error (ValidationError field message args))
      | None =>
          if errors_Is err Unauthorized then writeError 401 "UNAUTHENTICATED" "API key not valid"
          else if errors_Is err Forbidden then
            writeError 403 "PERMISSION_DENIED" "the API key is not allowed to use the requested model"
          else if errors_Is err NotFound then
            writeError 404 "NOT_FOUND" "the requested model does not exist"
          else if (if errors_As as_http err is Some status then status =? 429 else false)%Z then
            writeError 429 "RESOURCE_EXHAUSTED" "the upstream provider rate limit was exceeded"
          else if errors_As as_deadline err is Some _ then
            writeError 504 "DEADLINE_EXCEEDED" "the request exceeded its deadline"
          else writeError 502 "UNAVAILABLE" "the gateway could not complete the upstream request"
      end
  end%Z.

Definition CutSuffix (s suffix : string) : option string :=
  if HasSuffix s suffix then Some (TrimSuffix s suffix) else None.

Definition generate (h : GatewayHTTPHandler) (apiVersion operation : string) : handler := λ requestID r,
  if negb (eqs apiVersion (gw_apiVersion h)) then mret notFound
  else if HasSuffix operation ":streamGenerateContent" then
    mret (writeError 400 "INVALID_ARGUMENT"
      "streamGenerateContent is not supported; use generateContent")
  else
    match CutSuffix operation ":generateContent" with
    | None => mret notFound
    | Some model =>
        let token := TrimSpace (header_get "X-Goog-Api-Key" (Header r)) in
        if eqs (TrimSpace model) "" then mret notFound
        else if eqs token "" then
          mret (writeError 401 "UNAUTHENTICATED"
            "an API key must be supplied in the x-goog-api-key header")
        else
          match DecodeBody zero_generate (read_GenerateContentRequest true) (Body r) (gw_maxBody h) with
          | inl err => mret (writeError 400 "INVALID_ARGUMENT" (Error err))
          | inr request =>
              svc_bind_result
                (call (Generate (gw_dispatcher h) token model requestID (ToIRRequest request model)))
                (λ r, mret match r with
                 | inl err => writeRuntimeError err
                 | inr response =>
                     match FromIRResponse response model with
                     | inl err => writeRuntimeError err
                     | inr result => JSON_text 200 (GenerateContentResponse_text result)
                     end
                 end)
          end
    end%Z.

(** The patterns [POST /{apiVersion}/models/{operation...}] and [/]; the
    redirect of a path that lacks only the slash after [models] is not
    modelled. *)
Definition gemini_mux (h : GatewayHTTPHandler) : handler := λ requestID r,
  if bool_decide (Path r = ["livez"]) || bool_decide (Path r = ["readyz"]) then
    if method_matches "GET" (Method r) then health requestID r else mret notFound
  else
    match Path r with
    | apiVersion :: collection :: (_ :: _) as operation =>
        if eqs collection "models" && negb (eqs apiVersion "") && eqs (Method r) "POST" then
          generate h apiVersion (join "/" (drop 2 operation)) requestID r
        else mret notFound
    | _ => mret notFound
    end.

(** The version of the configuration, by default [v1beta]. *)
Definition gateway_version (configured : string) : string :=
  let apiVersion := TrimRight "/" (TrimLeft "/" configured) in
  if eqs apiVersion "" then "v1beta" else apiVersion.

Definition NewGatewayHTTPHandler (d : Dispatcher) (configured : string) (maxBody : Z)
    : http_request → svc http_response :=
  HTTPMiddleware (gemini_mux
    {| gw_dispatcher := d; gw_apiVersion := gateway_version configured; gw_maxBody := maxBody |}).

Example gemini_url : map (λ base, providerGenerateContentURL (ConfigSample.config base) " models/gemini 2/x")
    ["https://generativelanguage.googleapis.com"; "http://h:80/a b/"; "/v1"] =
  [inr "https://generativelanguage.googleapis.com/v1/models/gemini%202%2Fx:generateContent";
   inr "http://h:80/a%20b/v1/models/gemini%202%2Fx:generateContent";
   inl (Errorf "invalid Gemini provider base URL" [])].
Proof. vm_compute. reflexivity. Qed.
