(* ===== verification/Responses.v ===== *)
(** * The OpenAI Responses protocol ([internal/openairesponses])

    The wire types and the translation in both directions, for the client of
    the gateway ([ToIR], [FromIR]) and for the provider adapter
    ([ToProviderRequest], [ToIRResponse]).  A request is the struct that
    [encoding/json] decoded; its raw fields are texts. *)

From Stdlib Require Import SpecFloat Ascii.
From S2P Require Import Prelude GoStd Json JsonRaw GoText GoNet GoTime Errors Results Model Repository.
From S2P Require Import Ir Decode.

(** ** types.go *)

Record Tool := {
  T_Type : string; T_Name : string; T_Description : string; T_Parameters : RawMessage;
  T_Strict : option bool
}.

Record CreateRequest := {
  Q_Model : string; Q_Input : RawMessage; Q_Instructions : RawMessage;
  Q_MaxOutputTokens : option Z; Q_Temperature : option float64; Q_TopP : option float64;
  Q_Tools : list Tool; Q_ToolChoice : RawMessage; Q_ParallelToolCalls : option bool;
  Q_Stream : option bool; Q_Store : option bool; Q_PreviousResponseID : string;
  Q_Conversation : RawMessage; Q_Reasoning : RawMessage; Q_Text : RawMessage;
  Q_Metadata : list (string * json); Q_Include : list string; Q_Background : option bool;
  Q_Truncation : string; Q_Prompt : RawMessage; Q_MaxToolCalls : option Z; Q_SafetyIdentifier : string;
  Q_PromptCacheKey : string; Q_ServiceTier : string; Q_User : string; Q_TopLogprobs : option Z;
  Q_StreamOptions : RawMessage
}.

Record InputItem := {
  I_Type : string; I_Role : string; I_Content : RawMessage; I_ID : string; I_CallID : string;
  I_Name : string; I_Arguments : string; I_Output : RawMessage; I_Status : string;
  I_Phase : string; I_Namespace : string
}.

Record InputContent := {
  C_Type : string; C_Text : string; C_ImageURL : string; C_FileID : string; C_Detail : string;
  C_Annotations : list json; C_Logprobs : list json
}.

Record ProviderRequest := {
  PR_Model : string; PR_Input : list InputItem; PR_Instructions : string;
  PR_MaxOutputTokens : option Z; PR_Temperature : option float64; PR_TopP : option float64;
  PR_Tools : list Tool; PR_ToolChoice : RawMessage; PR_ParallelToolCalls : option bool;
  PR_Store : bool; PR_Stream : bool
}.

Record OutputContent := {
  OC_Type : string; OC_Text : string; OC_Refusal : string; OC_Annotations : list json;
  OC_Logprobs : list json
}.
Record OutputItem := {
  O_Type : string; O_ID : string; O_Status : string; O_Role : string;
  O_Content : list OutputContent; O_CallID : string; O_Name : string; O_Arguments : string
}.
Record IncompleteDetails := { Reason : string }.
Record InputTokenDetails := { CachedTokens : Z }.
Record OutputTokenDetails := { ReasoningTokens : Z }.
Record Usage := {
  U_InputTokens : Z; U_InputTokensDetails : option InputTokenDetails; U_OutputTokens : Z;
  U_OutputTokenDetails : option OutputTokenDetails; U_TotalTokens : Z
}.
Record ResponseError := {
  Err_Code : string; Err_Message : string; Err_Param : option string; Err_Type : string
}.
Record Response := {
  R_ID : string; R_Object : string; R_CreatedAt : Z; R_Status : string;
  R_Error : option ResponseError; R_IncompleteDetails : option IncompleteDetails;
  R_Model : string; R_Output : list OutputItem; R_ParallelToolCalls : bool; R_Store : bool;
  R_Usage : Usage
}.

(** ** Helpers *)

Definition invalid (param code format : string) (values : list farg) : error :=
  TranslationError param code format values.

Definition rawPresent (raw : RawMessage) : bool := negb (raw_unset (TrimSpace raw)).

(** [decodeStrict]: one value, its unknown fields refused. *)
Definition decodeStrict {A} (dec : RawMessage → option A) (raw : RawMessage) : error + A :=
  result_of (dec raw) json_error.

(** An array field, of which only the number of elements is used. *)
Definition array_field (name : string) (m : list (string * json)) : option (list json) :=
  foldl (λ current v,
      _ ← current;
      match v with JNull => Some [] | JArr l => Some l | _ => None end)
    (Some []) (field_values name m).

Definition dec_content (j : json) : option InputContent :=
  m ← struct_members ["type"; "text"; "image_url"; "file_id"; "detail"; "annotations"; "logprobs"] j;
  type ← string_field "type" m;
  text ← string_field "text" m;
  url ← string_field "image_url" m;
  file ← string_field "file_id" m;
  detail ← string_field "detail" m;
  annotations ← array_field "annotations" m;
  logprobs ← array_field "logprobs" m;
  Some {| C_Type := type; C_Text := text; C_ImageURL := url; C_FileID := file; C_Detail := detail;
          C_Annotations := annotations; C_Logprobs := logprobs |}.

Definition dec_item (raw : RawMessage) : option InputItem :=
  m ← raw_struct ["type"; "role"; "content"; "id"; "call_id"; "name"; "arguments"; "output";
                  "status"; "phase"; "namespace"] raw;
  type ← raw_string_field "type" m;
  role ← raw_string_field "role" m;
  id ← raw_string_field "id" m;
  call ← raw_string_field "call_id" m;
  name ← raw_string_field "name" m;
  arguments ← raw_string_field "arguments" m;
  status ← raw_string_field "status" m;
  phase ← raw_string_field "phase" m;
  namespace ← raw_string_field "namespace" m;
  Some {| I_Type := type; I_Role := role; I_Content := raw_field "content" m; I_ID := id;
          I_CallID := call; I_Name := name; I_Arguments := arguments;
          I_Output := raw_field "output" m; I_Status := status; I_Phase := phase;
          I_Namespace := namespace |}.

Definition parseImage (raw : string) : error + Image :=
  match CutPrefix "data:" raw with
  | Some rest =>
      let malformed := Errorf "data URL must contain base64-encoded image data" [] in
      '(metadata, data) ← result_of (Cut ","%char rest) malformed;
      _ ← require (HasSuffix metadata ";base64") malformed;
      let mediaType := TrimSuffix metadata ";base64" in
      _ ← require (image_media_type mediaType)
            (Errorf "unsupported image media type %q" [AStr mediaType]);
      _ ← require (negb (none (StdDecode data)))
            (Errorf "invalid base64 data: %w" [AWrap (NewError "illegal base64 data")]);
      mret {| Image_URL := ""; Image_MediaType := mediaType; Image_Data := data |}
  | None =>
      let malformed := Errorf "must be an HTTP(S) URL or a base64 data URL" [] in
      parsed ← result_of (ParseRequestURI raw) malformed;
      _ ← require ((eqs (Scheme parsed) "http" || eqs (Scheme parsed) "https") &&
                   negb (eqs (Host parsed) "")) malformed;
      mret {| Image_URL := raw; Image_MediaType := ""; Image_Data := "" |}
  end.

Definition imageURL (image : option Image) : error + string :=
  image ← result_of image (Errorf "image payload is required" []);
  if negb (eqs (Image_URL image) "") then mret (Image_URL image)
  else
    _ ← require (negb (eqs (Image_MediaType image) "" || eqs (Image_Data image) ""))
          (Errorf "inline image requires media type and data" []);
    mret ("data:" +:+ Image_MediaType image +:+ ";base64," +:+ Image_Data image).

Definition at_index (param : string) (index : nat) : string :=
  param +:+ "." +:+ FormatUint (Z.of_nat index).

(** ** The client's request *)

Definition plain_content (part : InputContent) : bool :=
  bool_decide (C_Annotations part = []) && bool_decide (C_Logprobs part = []).

Definition input_image (role param : string) (part : InputContent) : error + Content :=
  _ ← require (eqs role RoleUser || eqs role RoleTool)
        (invalid param "invalid_input"
           "input_image is only supported for user and function output content" []);
  _ ← require (eqs (C_FileID part) "")
        (invalid (param +:+ ".file_id") "unsupported_parameter"
           "file-backed images are not supported" []);
  _ ← require (negb (eqs (C_ImageURL part) ""))
        (invalid (param +:+ ".image_url") "invalid_input" "image_url is required" []);
  _ ← require (eqs (C_Detail part) "" || eqs (C_Detail part) "auto")
        (invalid (param +:+ ".detail") "unsupported_parameter"
           "image detail cannot be preserved by the selected provider" []);
  image ← on_error (λ e, invalid (param +:+ ".image_url") "invalid_image" "%v" [AErr e])
            (parseImage (C_ImageURL part));
  mret (image_content image).

Definition input_part (role param : string) (part : InputContent) : error + Content :=
  let type := C_Type part in
  let lost := invalid param "unsupported_parameter" "annotations and logprobs cannot be preserved" [] in
  if eqs type "input_text" then
    _ ← require (negb (eqs role RoleAssistant) || plain_content part) lost;
    mret (text_content (C_Text part))
  else if eqs type "output_text" then
    _ ← require (eqs role RoleAssistant)
          (invalid param "invalid_input" "output_text is only valid in assistant history" []);
    _ ← require (plain_content part) lost;
    mret (text_content (C_Text part))
  else if eqs type "input_image" then input_image role param part
  else if eqs type "input_file" then
    inl (invalid param "unsupported_parameter" "file inputs are not supported" [])
  else
    inl (invalid (param +:+ ".type") "unsupported_parameter" "unsupported content type %q"
           [AStr type]).

Definition decoded_part (role param : string) (index : nat) (raw : json) : error + Content :=
  let at_part := at_index param index in
  part ← result_of (dec_content raw)
           (invalid at_part "invalid_input" "invalid content part: %v" [AErr json_error]);
  input_part role at_part part.

(** The elements of an array; [null] has none. *)
Definition unmarshal_array (raw : RawMessage) : option (list json) :=
  match parse raw with Some JNull => Some [] | Some (JArr l) => Some l | _ => None end.

Definition parseInputContent (raw : RawMessage) (role param : string) : error + list Content :=
  let trimmed := TrimSpace raw in
  if raw_unset trimmed then
    inl (invalid param "invalid_input" "message content is required" [])
  else if starts_quote trimmed then
    text ← on_error
      (λ e, invalid param "invalid_input" "message content must be valid text: %v" [AErr e])
      (unmarshal_string trimmed);
    mret [text_content text]
  else
    parts ← result_of (unmarshal_array trimmed)
      (invalid param "invalid_input" "message content must be a string or array: %v"
         [AErr json_error]);
    _ ← require (negb (bool_decide (parts = [])))
          (invalid param "invalid_input" "message content must not be empty" []);
    range_map (decoded_part role param) 0 parts.

(** The result of a call, before its id and name are set. *)
Definition parseToolResult (raw : RawMessage) (param : string) : error + ToolResult :=
  let trimmed := TrimSpace raw in
  if raw_unset trimmed then
    inl (invalid param "invalid_tool_output" "function output is required" [])
  else if starts_quote trimmed then
    output ← on_error
      (λ e, invalid param "invalid_tool_output" "invalid function output: %v" [AErr e])
      (unmarshal_string trimmed);
    if isJSONObject output then mret (MkToolResult "" "" [] output false)
    else mret (MkToolResult "" "" [text_content output] "" false)
  else
    contents ← parseInputContent trimmed RoleTool param;
    mret (MkToolResult "" "" contents "" false).

(** The anonymous struct of [parseToolChoice]. *)
Definition dec_selected (raw : RawMessage) : option (string * string) :=
  m ← parse raw ≫= struct_members ["type"; "name"];
  type ← string_field "type" m;
  name ← string_field "name" m;
  Some (type, name).

Definition mode_choice (mode name : string) : Ir.ToolChoice :=
  {| Choice_Mode := mode; Choice_Name := name; Choice_DisableParallel := false |}.

Definition parseToolChoice (raw : RawMessage) (toolNames : gset string)
    : error + option Ir.ToolChoice :=
  let trimmed := TrimSpace raw in
  let tools := negb (bool_decide (toolNames = ∅)) in
  if raw_unset trimmed then inr None
  else if starts_quote trimmed then
    mode ← unmarshal_string trimmed;
    if eqs mode "none" then
      if tools then inr (Some (mode_choice mode "")) else inr None
    else if eqs mode "auto" || eqs mode "required" then
      _ ← require tools (Errorf "tool_choice %q requires at least one tool" [AStr mode]);
      mret (Some (mode_choice mode ""))
    else inl (Errorf "unsupported tool_choice %q" [AStr mode])
  else
    '(type, name) ← decodeStrict dec_selected trimmed;
    _ ← require (eqs type "function" && negb (eqs name ""))
          (Errorf "named tool_choice must select a function" []);
    _ ← require (bool_decide (name ∈ toolNames))
          (Errorf "selected function %q is not present in tools" [AStr name]);
    mret (Some (mode_choice "named" name)).

(** The table of [rejectUnsupported]: whether a parameter is present, its name
    and what is said of it. *)
Definition present {A} (o : option A) : bool := negb (none o).
Definition checks (request : CreateRequest) : list (bool * string * string) :=
  [(default false (Q_Stream request), "stream", "streaming is not supported");
   (default false (Q_Store request), "store",
    "stored Responses are not supported; set store=false");
   (negb (eqs (Q_PreviousResponseID request) ""), "previous_response_id",
    "stateful response chaining is not supported");
   (rawPresent (Q_Conversation request), "conversation", "conversation state is not supported");
   (rawPresent (Q_Reasoning request), "reasoning", "reasoning configuration cannot be preserved");
   (rawPresent (Q_Text request), "text", "structured text output configuration is not supported");
   (negb (bool_decide (Q_Metadata request = [])), "metadata",
    "metadata cannot be preserved by every provider");
   (negb (bool_decide (Q_Include request = [])), "include",
    "additional response fields are not supported");
   (default false (Q_Background request), "background",
    "background Responses are not supported");
   (negb (eqs (Q_Truncation request) "") && negb (eqs (Q_Truncation request) "disabled"),
    "truncation", "automatic truncation is not supported");
   (rawPresent (Q_Prompt request), "prompt", "stored prompt templates are not supported");
   (present (Q_MaxToolCalls request), "max_tool_calls", "hosted tool call limits are not supported");
   (negb (eqs (Q_SafetyIdentifier request) ""), "safety_identifier",
    "safety identifiers are not forwarded");
   (negb (eqs (Q_PromptCacheKey request) ""), "prompt_cache_key",
    "prompt cache keys are not forwarded");
   (negb (eqs (Q_ServiceTier request) ""), "service_tier", "service tier selection is not supported");
   (negb (eqs (Q_User request) ""), "user", "deprecated user identifiers are not forwarded");
   (present (Q_TopLogprobs request), "top_logprobs", "log probabilities are not supported");
   (rawPresent (Q_StreamOptions request), "stream_options",
    "stream options require streaming, which is not supported")].

Definition refuse_check (_ : nat) (check : bool * string * string) (_ : unit) : error + unit :=
  let '(is_present, param, detail) := check in
  require (negb is_present) (invalid param "unsupported_parameter" "%s" [AStr detail]).

Definition rejectUnsupported (request : CreateRequest) : error + unit :=
  range refuse_check 0 (checks request) tt.

(** *** [ToIR]: the items of the input *)

(** The messages so far, and the names of the calls by id. *)
Record input_state := { is_messages : list Message; callNames : gmap string string }.

Definition say (st : input_state) (role : string) (content : list Content) : input_state :=
  {| is_messages := is_messages st ++ [{| Message_Role := role; Message_Content := content |}];
     callNames := callNames st |}.

Definition input_message (param : string) (item : InputItem) (st : input_state)
    : error + input_state :=
  _ ← require (eqs (I_Phase item) "")
        (invalid (param +:+ ".phase") "unsupported_parameter"
           "assistant phases cannot be preserved" []);
  _ ← require (eqs (I_Status item) "" || eqs (I_Status item) "completed")
        (invalid (param +:+ ".status") "unsupported_parameter"
           "only completed history items are supported" []);
  let role := if eqs (I_Role item) "developer" then RoleSystem else I_Role item in
  _ ← require (bool_decide (role ∈ [RoleSystem; RoleUser; RoleAssistant]))
        (invalid (param +:+ ".role") "invalid_role" "unsupported message role %q"
           [AStr (I_Role item)]);
  content ← parseInputContent (I_Content item) role (param +:+ ".content");
  mret (say st role content).

Definition input_call (param : string) (item : InputItem) (st : input_state)
    : error + input_state :=
  _ ← require (negb (eqs (I_CallID item) "" || eqs (I_Name item) "" ||
                     negb (isJSONObject (I_Arguments item))))
        (invalid param "invalid_tool_call"
           "function_call requires call_id, name, and JSON object arguments" []);
  _ ← require (none (callNames st !! I_CallID item))
        (invalid (param +:+ ".call_id") "invalid_tool_call" "call_id values must be unique" []);
  _ ← require (eqs (I_Namespace item) "")
        (invalid (param +:+ ".namespace") "unsupported_parameter"
           "function namespaces are not supported" []);
  mret {| is_messages := is_messages st ++ [{| Message_Role := RoleAssistant;
            Message_Content := [call_content {| Call_ID := I_CallID item; Call_Name := I_Name item;
              Call_Arguments := I_Arguments item; Call_Signature := "" |}] |}];
          callNames := <[I_CallID item := I_Name item]> (callNames st) |}.

Definition input_output (param : string) (item : InputItem) (st : input_state)
    : error + input_state :=
  let callID := I_CallID item in
  _ ← require (negb (eqs callID ""))
        (invalid (param +:+ ".call_id") "invalid_tool_output" "call_id is required" []);
  name ← result_of (callNames st !! callID)
    (invalid (param +:+ ".call_id") "invalid_tool_output"
       "function output must reference a preceding function_call" []);
  result ← parseToolResult (I_Output item) (param +:+ ".output");
  mret (say st RoleTool [result_content (MkToolResult callID name (Result_Content result)
                                           (Result_Result result) (Result_IsError result))]).

Definition input_item (index : nat) (item : InputItem) (st : input_state) : error + input_state :=
  let param := at_index "input" index in
  let type := I_Type item in
  if eqs type "" || eqs type "message" then input_message param item st
  else if eqs type "function_call" then input_call param item st
  else if eqs type "function_call_output" then input_output param item st
  else if eqs type "reasoning" then
    inl (invalid (param +:+ ".type") "unsupported_parameter"
           "reasoning items cannot be preserved" [])
  else
    inl (invalid (param +:+ ".type") "unsupported_parameter"
           "unsupported input item type %q; only messages and function calls/results are supported"
           [AStr type]).

Definition decoded_item (index : nat) (raw : RawMessage) (st : input_state) : error + input_state :=
  item ← on_error
    (λ e, invalid (at_index "input" index) "invalid_input" "invalid input item: %v" [AErr e])
    (decodeStrict dec_item raw);
  input_item index item st.

Definition instruction_messages (instructions : RawMessage) : error + list Message :=
  if rawPresent instructions then
    text ← on_error
      (λ _, invalid "instructions" "unsupported_parameter"
              "only string instructions are supported" [])
      (unmarshal_string instructions);
    mret (if eqs text "" then []
          else [{| Message_Role := RoleSystem; Message_Content := [text_content text] |}])
  else mret [].

(** The input of a request, after the messages of its instructions. *)
Definition input_messages (raw : RawMessage) (messages : list Message) : error + list Message :=
  let input := TrimSpace raw in
  _ ← require (negb (raw_unset input)) (invalid "input" "invalid_input" "input is required" []);
  if starts_quote input then
    text ← on_error
      (λ e, invalid "input" "invalid_input" "input must be valid text: %v" [AErr e])
      (unmarshal_string input);
    mret (messages ++ [{| Message_Role := RoleUser; Message_Content := [text_content text] |}])
  else
    items ← result_of (raw_array input)
      (invalid "input" "invalid_input" "input must be a string or array of items: %v"
         [AErr json_error]);
    _ ← require (negb (bool_decide (items = [])))
          (invalid "input" "invalid_input" "input must contain at least one item" []);
    st ← range decoded_item 0 items {| is_messages := messages; callNames := ∅ |};
    mret (is_messages st).

Definition empty_schema : RawMessage :=
  print (JObj [("type", JStr "object"); ("properties", JObj [])]).
Definition schema_of (parameters : RawMessage) : RawMessage :=
  if raw_unset (TrimSpace parameters) then empty_schema else TrimSpace parameters.

Definition request_tool (index : nat) (tool : Tool) (st : list Ir.Tool * gset string)
    : error + (list Ir.Tool * gset string) :=
  let param := at_index "tools" index in
  _ ← require (eqs (T_Type tool) "function")
        (invalid (param +:+ ".type") "unsupported_parameter"
           "hosted and custom tools are not supported" []);
  _ ← require (negb (eqs (TrimSpace (T_Name tool)) ""))
        (invalid (param +:+ ".name") "invalid_tool" "function name is required" []);
  let parameters := schema_of (T_Parameters tool) in
  _ ← require (isJSONObject parameters)
        (invalid (param +:+ ".parameters") "invalid_tool_schema"
           "parameters must contain a JSON Schema object" []);
  _ ← require (negb (bool_decide (T_Name tool ∈ st.2)))
        (invalid (param +:+ ".name") "invalid_tool" "function names must be unique" []);
  mret (st.1 ++ [{| Tool_Name := T_Name tool; Tool_Description := T_Description tool;
                    Tool_InputSchema := parameters; Tool_Strict := T_Strict tool |}],
        {[ T_Name tool ]} ∪ st.2).

Definition disable_parallel (parallel : option bool) (hasTools : bool)
    (choice : option Ir.ToolChoice) : option Ir.ToolChoice :=
  match parallel with
  | Some false =>
      if hasTools then
        let c := default (mode_choice "auto" "") choice in
        Some {| Choice_Mode := Choice_Mode c; Choice_Name := Choice_Name c;
                Choice_DisableParallel := true |}
      else choice
  | _ => choice
  end.

Definition ToIR (request : CreateRequest) (route : Model.Route) (requestID : string) : error + Request :=
  _ ← require (negb (eqs (TrimSpace (Q_Model request)) ""))
        (invalid "model" "invalid_model" "model is required" []);
  _ ← rejectUnsupported request;
  _ ← require (unset_or (λ n, negb (n <? 16))%Z (Q_MaxOutputTokens request))
        (invalid "max_output_tokens" "invalid_value" "max_output_tokens must be at least 16" []);
  _ ← require (unset_or (λ x, negb (outside_unit x)) (Q_Temperature request))
        (invalid "temperature" "invalid_value"
           "temperature must be between 0 and 1 for the portable gateway contract" []);
  _ ← require (unset_or (λ x, negb (outside_unit x)) (Q_TopP request))
        (invalid "top_p" "invalid_value" "top_p must be between 0 and 1" []);
  instructions ← instruction_messages (Q_Instructions request);
  messages ← input_messages (Q_Input request) instructions;
  '(tools, toolNames) ← range request_tool 0 (Q_Tools request) ([], ∅);
  toolChoice ← on_error (λ e, invalid "tool_choice" "invalid_tool_choice" "%v" [AErr e])
    (parseToolChoice (Q_ToolChoice request) toolNames);
  let result := {|
    Req_Version := Version; Req_ID := requestID;
    Req_Route := {| IR_ProviderID := Route_ProviderID route;
                    IR_UpstreamModel := Route_UpstreamModel route |};
    Req_Messages := messages; Req_MaxOutputTokens := Q_MaxOutputTokens request;
    Req_Temperature := Q_Temperature request; Req_TopP := Q_TopP request; Req_Stop := [];
    Req_Tools := tools;
    Req_ToolChoice := disable_parallel (Q_ParallelToolCalls request)
                        (negb (bool_decide (tools = []))) toolChoice;
    Req_Metadata := []; Req_Stream := false |} in
  _ ← on_error (λ e, invalid "input" "invalid_input" "%v" [AErr e]) (Request_Validate result);
  mret result.

(** ** The provider's request *)

Definition omitempty (name value : string) : list (string * json) :=
  if eqs value "" then [] else [(name, JStr value)].

(** A marshalled part; the parts the adapter builds have no annotations. *)
Definition content_json (part : InputContent) : json :=
  JObj (("type", JStr (C_Type part)) :: omitempty "text" (C_Text part) ++
        omitempty "image_url" (C_ImageURL part) ++ omitempty "file_id" (C_FileID part) ++
        omitempty "detail" (C_Detail part)).

Definition toolChoiceJSON (choice : option Ir.ToolChoice) : error + RawMessage :=
  match choice with
  | None => mret ""
  | Some c =>
      if plain_mode (Choice_Mode c) then mret (print (JStr (Choice_Mode c)))
      else if eqs (Choice_Mode c) "named" then
        mret (print (JObj [("type", JStr "function"); ("name", JStr (Choice_Name c))]))
      else inl (Errorf "unsupported tool choice mode %q" [AStr (Choice_Mode c)])
  end.

Definition text_part (text : string) : InputContent := {|
  C_Type := "input_text"; C_Text := text; C_ImageURL := ""; C_FileID := ""; C_Detail := "";
  C_Annotations := []; C_Logprobs := [] |}.
Definition image_part (url : string) : InputContent := {|
  C_Type := "input_image"; C_Text := ""; C_ImageURL := url; C_FileID := ""; C_Detail := "auto";
  C_Annotations := []; C_Logprobs := [] |}.

Definition call_item (call : ToolCall) : InputItem := {|
  I_Type := "function_call"; I_Role := ""; I_Content := ""; I_ID := "";
  I_CallID := Call_ID call; I_Name := Call_Name call; I_Arguments := Call_Arguments call;
  I_Output := ""; I_Status := ""; I_Phase := ""; I_Namespace := "" |}.

(** A text or an image. *)
Definition encode_part (unsupported : string) (content : Content) : error + InputContent :=
  if eqs (Content_Type content) ContentText then mret (text_part (Content_Text content))
  else if eqs (Content_Type content) ContentImage then
    value ← imageURL (Content_Image content);
    mret (image_part value)
  else inl (Errorf unsupported [AStr (Content_Type content)]).

Definition encode_content (_ : nat) (content : Content) (st : list InputContent * list InputItem)
    : error + (list InputContent * list InputItem) :=
  if eqs (Content_Type content) ContentToolCall then
    call ← result_of (Content_ToolCall content) (Errorf "tool call payload is required" []);
    mret (st.1, st.2 ++ [call_item call])
  else
    part ← encode_part "unsupported message content type %q" content;
    mret (st.1 ++ [part], st.2).

(** [json.Marshal] of the parts. *)
Definition parts_text (parts : list InputContent) : RawMessage :=
  print (JArr (content_json <$> parts)).

Definition encodeMessageContent (contents : list Content)
    : error + (RawMessage * list InputItem) :=
  '(parts, calls) ← range encode_content 0 contents ([], []);
  mret (if bool_decide (parts = []) then "" else parts_text parts, calls).

Definition output_part (_ : nat) (content : Content) : error + InputContent :=
  encode_part "unsupported function output content type %q" content.

Definition encodeToolOutput (result : ToolResult) : error + RawMessage :=
  _ ← require (negb (Result_IsError result))
        (Errorf "OpenAI Responses has no portable is_error function output flag" []);
  if negb (eqs (Result_Result result) "") then mret (print (JStr (Result_Result result)))
  else match Result_Content result with
  | [content] =>
      if eqs (Content_Type content) ContentText then mret (print (JStr (Content_Text content)))
      else parts ← range_map output_part 0 [content]; mret (parts_text parts)
  | contents => parts ← range_map output_part 0 contents; mret (parts_text parts)
  end.

Definition message_item (role : string) (content : RawMessage) : InputItem := {|
  I_Type := "message"; I_Role := role; I_Content := content; I_ID := ""; I_CallID := "";
  I_Name := ""; I_Arguments := ""; I_Output := ""; I_Status := ""; I_Phase := "";
  I_Namespace := "" |}.
Definition output_item (callID : string) (output : RawMessage) : InputItem := {|
  I_Type := "function_call_output"; I_Role := ""; I_Content := ""; I_ID := "";
  I_CallID := callID; I_Name := ""; I_Arguments := ""; I_Output := output; I_Status := "";
  I_Phase := ""; I_Namespace := "" |}.

(** The instructions and the items of the input so far. *)
Record provider_state := { ps_instructions : list string; ps_input : list InputItem }.

Definition system_part (mi : nat) (_ : nat) (content : Content) (instructions : list string)
    : error + list string :=
  _ ← require (eqs (Content_Type content) ContentText)
        (Errorf "messages[%d]: system messages may only contain text" [AIdx mi]);
  mret (instructions ++ [Content_Text content]).

Definition tool_part (mi ci : nat) (content : Content) (input : list InputItem)
    : error + list InputItem :=
  let wrong := Errorf "messages[%d].content[%d]: tool messages require tool_result content"
                 [AIdx mi; AIdx ci] in
  _ ← require (eqs (Content_Type content) ContentToolResult) wrong;
  result ← result_of (Content_ToolResult content) wrong;
  output ← on_error (λ e, Errorf "messages[%d].content[%d]: %w" [AIdx mi; AIdx ci; AWrap e])
    (encodeToolOutput result);
  mret (input ++ [output_item (Result_ToolCallID result) output]).

Definition provider_message (mi : nat) (message : Message) (st : provider_state)
    : error + provider_state :=
  let role := Message_Role message in
  if eqs role RoleSystem then
    instructions ← range (system_part mi) 0 (Message_Content message) (ps_instructions st);
    mret {| ps_instructions := instructions; ps_input := ps_input st |}
  else if eqs role RoleUser || eqs role RoleAssistant then
    '(content, calls) ← on_error (λ e, Errorf "messages[%d]: %w" [AIdx mi; AWrap e])
      (encodeMessageContent (Message_Content message));
    mret {| ps_instructions := ps_instructions st;
            ps_input := ps_input st ++
              (if eqs content "" then [] else [message_item role content]) ++ calls |}
  else if eqs role RoleTool then
    input ← range (tool_part mi) 0 (Message_Content message) (ps_input st);
    mret {| ps_instructions := ps_instructions st; ps_input := input |}
  else inl (Errorf "messages[%d]: unsupported role %q" [AIdx mi; AStr role]).

Definition provider_tool (tool : Ir.Tool) : Tool := {|
  T_Type := "function"; T_Name := Tool_Name tool; T_Description := Tool_Description tool;
  T_Parameters := Tool_InputSchema tool; T_Strict := Tool_Strict tool |}.

Definition ToProviderRequest (request : Request) : error + ProviderRequest :=
  _ ← Request_Validate request;
  _ ← require (negb (Req_Stream request)) (Errorf "streaming IR requests are not supported" []);
  _ ← require (bool_decide (Req_Stop request = []))
        (Errorf "OpenAI Responses does not support stop sequences" []);
  _ ← require (bool_decide (Req_Metadata request = []))
        (Errorf "metadata is not supported by this adapter" []);
  _ ← require (unset_or (λ n, negb (n <? 16))%Z (Req_MaxOutputTokens request))
        (Errorf "max_output_tokens must be at least 16" []);
  st ← range provider_message 0 (Req_Messages request)
         {| ps_instructions := []; ps_input := [] |};
  _ ← require (negb (bool_decide (ps_input st = [])))
        (Errorf "at least one non-system input item is required" []);
  choice ← toolChoiceJSON (Req_ToolChoice request);
  mret {| PR_Model := IR_UpstreamModel (Req_Route request); PR_Input := ps_input st;
          PR_Instructions := join (String (chr 10) "") (ps_instructions st);
          PR_MaxOutputTokens := Req_MaxOutputTokens request;
          PR_Temperature := Req_Temperature request; PR_TopP := Req_TopP request;
          PR_Tools := provider_tool <$> Req_Tools request; PR_ToolChoice := choice;
          PR_ParallelToolCalls :=
            match Req_ToolChoice request with
            | Some c => if Choice_DisableParallel c then Some false else None
            | None => None
            end;
          PR_Store := false; PR_Stream := false |}.

(** ** The provider's answer *)

(** The contents so far, and whether a refusal is among them. *)
Definition answer_content (oi ci : nat) (content : OutputContent) (st : list Content * bool)
    : error + (list Content * bool) :=
  if eqs (OC_Type content) "output_text" then
    _ ← require (bool_decide (OC_Annotations content = []) && bool_decide (OC_Logprobs content = []))
          (Errorf "output[%d].content[%d] contains annotations or logprobs that cannot be preserved"
             [AIdx oi; AIdx ci]);
    mret (st.1 ++ [text_content (OC_Text content)], st.2)
  else if eqs (OC_Type content) "refusal" then
    mret (st.1 ++ [text_content (OC_Refusal content)], true)
  else
    inl (Errorf "output[%d].content[%d] has unsupported type %q"
           [AIdx oi; AIdx ci; AStr (OC_Type content)]).

Definition answer_item (index : nat) (item : OutputItem) (st : list Content * bool)
    : error + (list Content * bool) :=
  if eqs (O_Type item) "message" then
    _ ← require (eqs (O_Role item) "" || eqs (O_Role item) "assistant")
          (Errorf "output[%d] has unsupported message role %q" [AIdx index; AStr (O_Role item)]);
    range (answer_content index) 0 (O_Content item) st
  else if eqs (O_Type item) "function_call" then
    _ ← require (negb (eqs (O_CallID item) "" || eqs (O_Name item) "" ||
                       negb (isJSONObject (O_Arguments item))))
          (Errorf "output[%d] contains an invalid function call" [AIdx index]);
    mret (st.1 ++ [call_content {| Call_ID := O_CallID item; Call_Name := O_Name item;
                                   Call_Arguments := O_Arguments item; Call_Signature := "" |}], st.2)
  else if eqs (O_Type item) "reasoning" then mret st
  else inl (Errorf "output[%d] has unsupported hosted item type %q" [AIdx index; AStr (O_Type item)]).

Definition is_call (content : Content) : bool := eqs (Content_Type content) ContentToolCall.

Definition answer_finish (response : Response) (contents : list Content) (refused : bool)
    : error + string :=
  if eqs (R_Status response) "incomplete" then
    details ← result_of (R_IncompleteDetails response)
                (Errorf "incomplete OpenAI response has no reason" []);
    let reason := Reason details in
    if eqs reason "max_output_tokens" then mret FinishLength
    else if eqs reason "content_filter" then mret FinishContent
    else inl (Errorf "unsupported incomplete reason %q" [AStr reason])
  else if refused then mret FinishContent
  else if existsb is_call contents then mret FinishToolCalls
  else mret FinishStop.

Definition answer_usage (usage : Usage) : Ir.Usage := {|
  InputTokens := U_InputTokens usage; OutputTokens := U_OutputTokens usage;
  CacheCreationInputTokens := 0;
  CachedInputTokens := match U_InputTokensDetails usage with
                       | Some details => CachedTokens details
                       | None => 0
                       end |}.

Definition ToIRResponse (response : Response) (request : Request) : error + Ir.Response :=
  _ ← match R_Error response with
      | Some e => inl (Errorf "OpenAI response failed: %s" [AStr (Err_Message e)])
      | None => mret tt
      end;
  _ ← require (eqs (R_Status response) "completed" || eqs (R_Status response) "incomplete")
        (Errorf "OpenAI response has non-terminal status %q" [AStr (R_Status response)]);
  '(contents, refused) ← range answer_item 0 (R_Output response) ([], false);
  finish ← answer_finish response contents refused;
  let result := {|
    Resp_Version := Version; Resp_ID := Req_ID request;
    Resp_Model := if eqs (R_Model response) "" then IR_UpstreamModel (Req_Route request)
                  else R_Model response;
    Resp_Content := contents; Resp_FinishReason := finish; Resp_StopSequence := "";
    Resp_Usage := answer_usage (R_Usage response);
    Resp_ProviderResponseID := R_ID response |} in
  _ ← on_error (λ e, Errorf "invalid translated response: %w" [AWrap e]) (Response_Validate result);
  mret result.

(** ** The client's answer *)

Definition response_suffix (responseID : string) : string := TrimPrefix responseID "resp_".

(** The parts of the message, the calls and the number of calls so far. *)
Record client_state := {
  cs_content : list OutputContent; cs_output : list OutputItem; callIndex : nat
}.

Definition client_content (responseID : string) (index : nat) (content : Content) (st : client_state)
    : error + client_state :=
  let type := Content_Type content in
  if eqs type ContentText then
    mret {| cs_content := cs_content st ++ [{| OC_Type := "output_text";
              OC_Text := Content_Text content; OC_Refusal := ""; OC_Annotations := [];
              OC_Logprobs := [] |}];
            cs_output := cs_output st; callIndex := callIndex st |}
  else if eqs type ContentToolCall then
    call ← result_of (Content_ToolCall content)
             (Errorf "content[%d] has no tool_call payload" [AIdx index]);
    let n := S (callIndex st) in
    mret {| cs_content := cs_content st;
            cs_output := cs_output st ++ [{| O_Type := "function_call";
              O_ID := "fc_" +:+ response_suffix responseID +:+ "_" +:+ FormatUint (Z.of_nat n);
              O_Status := "completed"; O_Role := ""; O_Content := []; O_CallID := Call_ID call;
              O_Name := Call_Name call; O_Arguments := Call_Arguments call |}];
            callIndex := n |}
  else if eqs type ContentImage then
    inl (Errorf "content[%d]: Responses text generation has no portable image output item"
           [AIdx index])
  else inl (Errorf "content[%d] has unsupported type %q" [AIdx index; AStr type]).

Definition message_output (responseID : string) (content : list OutputContent) : OutputItem := {|
  O_Type := "message"; O_ID := "msg_" +:+ response_suffix responseID; O_Status := "completed";
  O_Role := "assistant"; O_Content := content; O_CallID := ""; O_Name := ""; O_Arguments := "" |}.

(** The status of the answer, and why it is incomplete. *)
Definition client_status (reason : string) : error + (string * option IncompleteDetails) :=
  if eqs reason FinishLength then
    mret ("incomplete", Some {| Reason := "max_output_tokens" |})
  else if eqs reason FinishContent then
    mret ("incomplete", Some {| Reason := "content_filter" |})
  else if eqs reason FinishStop || eqs reason FinishToolCalls then mret ("completed", None)
  else inl (Errorf "unsupported finish reason %q" [AStr reason]).

Definition client_usage (usage : Ir.Usage) : Usage := {|
  U_InputTokens := InputTokens usage;
  U_InputTokensDetails := Some {| CachedTokens := CachedInputTokens usage |};
  U_OutputTokens := OutputTokens usage;
  U_OutputTokenDetails := Some {| ReasoningTokens := 0 |};
  U_TotalTokens := int64 (InputTokens usage + OutputTokens usage) |}.

Definition FromIR (response : Ir.Response) (requestedModel responseID : string) (created : Time)
    (parallel : bool) : error + Response :=
  _ ← Response_Validate response;
  st ← range (client_content responseID) 0 (Resp_Content response)
         {| cs_content := []; cs_output := []; callIndex := 0 |};
  '(status, details) ← client_status (Resp_FinishReason response);
  mret {| R_ID := responseID; R_Object := "response"; R_CreatedAt := Unix created;
          R_Status := status; R_Error := None; R_IncompleteDetails := details;
          R_Model := requestedModel;
          R_Output := (if bool_decide (cs_content st = []) then []
                       else [message_output responseID (cs_content st)]) ++ cs_output st;
          R_ParallelToolCalls := parallel; R_Store := false;
          R_Usage := client_usage (Resp_Usage response) |}.
