(* ===== verification/ResponsesFacts.v ===== *)
(** * The OpenAI Responses translations preserve meaning

    What a client asked for is what the upstream provider is asked for, and
    what the provider answered is what the client gets. *)

From Stdlib Require Import SpecFloat Ascii.
From S2P Require Import Prelude GoStd Json JsonRaw GoText Utf8 GoNet GoTime Errors Results Model.
From S2P Require Import Repository Ir IrFacts Decode Responses.

#[local] Arguments bool_decide : simpl never.

(** ** Content parts *)

(** The text of an image: what it was parsed from. *)
Record image_from (image : Image) (raw : string) : Prop := {
  if_parse : parseImage raw = inr image;
  if_valid : valid_utf8 raw = true;
  if_set : raw ≠ ""
}.

Lemma imageURL_text image raw :
  image_from image raw → image_ok image → imageURL (Some image) = inr raw.
Proof.
  intros [Hp _ Hne] Hok. unfold parseImage in Hp.
  destruct (CutPrefix "data:" raw) as [rest|] eqn:Hc.
  - apply CutPrefix_app in Hc as ->. apply bind_ok in Hp as ([meta data] & Hcut & Hp).
    apply result_of_ok, Cut_split in Hcut as ->.
    apply check_then in Hp as [Hs%TrimSuffix_split Hp]. apply check_then in Hp as [_ Hp].
    apply check_then in Hp as [_ [= <-]].
    destruct Hok as [(? & _)|(_ & Hm & Hdata & _)]; [done|]. cbn in Hm, Hdata.
    unfold imageURL. cbn -[TrimSuffix eqs]. rewrite eqs_refl. cbn [negb].
    assert (TrimSuffix meta ";base64" ≠ "") as Hmt by by intros E; rewrite E in Hm.
    apply eqs_false in Hmt, Hdata. apply negb_true_iff in Hmt, Hdata. rewrite Hmt, Hdata. cbn -[TrimSuffix].
    do 2 f_equal. rewrite Hs at 2. rewrite string_app_assoc. done.
  - apply bind_ok in Hp as (u & _ & [_ [= <-]]%check_then). unfold imageURL. cbn -[eqs].
    apply eqs_false in Hne. by rewrite Hne.
Qed.

(** The parts a client may send in a message of [role]. *)
Inductive parsed (role : string) : Content → Prop :=
| parsed_text text : valid_utf8 text = true → parsed role (text_content text)
| parsed_image image raw :
    role = RoleUser ∨ role = RoleTool → image_from image raw → parsed role (image_content image).

Lemma dec_content_valid j part :
  wf_json j → dec_content j = Some part →
  valid_utf8 (C_Text part) = true ∧ valid_utf8 (C_ImageURL part) = true.
Proof.
  intros Hj H. unfold dec_content in H. apply bind_some in H as (m & Hm & H).
  apply struct_members_ok in Hm; [|done]. apply bind_some in H as (type & _ & H).
  apply bind_some in H as (text & Ht & H). apply bind_some in H as (url & Hu & H).
  apply bind_some in H as (file & _ & H). apply bind_some in H as (detail & _ & H).
  apply bind_some in H as (an & _ & H). apply bind_some in H as (lp & _ & [= <-]).
  split; [by apply (string_into_valid "text" "" m)|by apply (string_into_valid "image_url" "" m)].
Qed.

Lemma input_part_parsed role param part c :
  valid_utf8 (C_Text part) = true → valid_utf8 (C_ImageURL part) = true →
  input_part role param part = inr c → parsed role c.
Proof.
  intros Ht Hu. unfold input_part. cbv zeta. case_eqs; [|case_eqs]; [| |case_eqs]; [| | |by case_eqs].
  - intros [_ [= <-]]%check_then. by constructor.
  - intros [_ [_ [= <-]]%check_then]%check_then. by constructor.
  - unfold input_image. intros [Hr%orb_true_iff [_ [Hne%eqs_false H]%check_then]%check_then]%check_then.
    apply check_then in H as [_ (image & Hi%on_error_ok & [= <-])%bind_ok].
    rewrite !eqs_true in Hr. by eapply parsed_image.
Qed.

Lemma decoded_part_parsed role param index j c :
  wf_json j → decoded_part role param index j = inr c → parsed role c.
Proof.
  unfold decoded_part. intros Hj (part & Hd%result_of_ok & Hp)%bind_ok.
  apply dec_content_valid in Hd as [Ht Hu]; [|done]. by eapply input_part_parsed.
Qed.

Lemma unmarshal_array_wf raw l : unmarshal_array raw = Some l → Forall wf_json l.
Proof.
  unfold unmarshal_array. destruct (parse raw) as [j|] eqn:E; [|done]. apply parse_wf in E.
  destruct E; try done; by intros [= <-].
Qed.

Lemma parseInputContent_parsed raw role param cs :
  parseInputContent raw role param = inr cs → Forall (parsed role) cs ∧ cs ≠ [].
Proof.
  unfold parseInputContent. destruct (raw_unset _); [done|]. destruct (starts_quote _).
  - intros (text & Ht%on_error_ok%unmarshal_valid & [= <-])%bind_ok.
    split; [|done]. constructor; [by constructor|constructor].
  - intros (l & Hl%result_of_ok%unmarshal_array_wf & [Hne H]%check_then)%bind_ok.
    apply negb_true_iff, bool_decide_eq_false in Hne.
    apply (range_map_each (λ _ c, parsed role c)) in H.
    + split; [|by intros ->; inversion H; subst].
      clear -H. induction H; by constructor.
    + intros k j c Hj. rewrite list.Forall_forall in Hl. by apply decoded_part_parsed, Hl.
Qed.

(** *** Parts on the wire *)

(** The wire part of a content part. *)
Inductive sent (role : string) : Content → InputContent → Prop :=
| sent_text text : valid_utf8 text = true → sent role (text_content text) (text_part text)
| sent_image image raw :
    role = RoleUser ∨ role = RoleTool → image_from image raw →
    sent role (image_content image) (image_part raw).

Lemma encode_part_sent role c u :
  parsed role c → content_ok c → ∃ part, encode_part u c = inr part ∧ sent role c part.
Proof.
  destruct 1 as [text Ht|image raw Hr Hi]; intros Hok.
  - exists (text_part text). split; [done|by constructor].
  - exists (image_part raw). split; [|by constructor].
    inversion Hok as [? Hpl| |]; subst. inversion Hpl as [|? Hiok]; subst.
    unfold encode_part. cbn [Content_Type Content_Image image_content].
    change (eqs ContentImage ContentText) with false. rewrite eqs_refl. cbv iota.
    by rewrite (imageURL_text image raw).
Qed.

Lemma omitempty_fields_wf name s : valid_utf8 name = true → valid_utf8 s = true →
  Forall (λ kv, valid_utf8 kv.1 = true ∧ wf_json kv.2) (omitempty name s).
Proof. intros Hn Hs. unfold omitempty. destruct (eqs s ""); by repeat constructor. Qed.

Lemma sent_wf role c part : sent role c part → wf_json (content_json part).
Proof.
  intros Hs. unfold content_json. constructor. constructor; [by destruct Hs; repeat constructor|].
  rewrite !list.Forall_app. destruct Hs as [text Ht|image raw _ [_ Hv _]];
    split_and!; by apply omitempty_fields_wf.
Qed.

Lemma sent_read role c part param index :
  sent role c part → decoded_part role param index (content_json part) = inr c.
Proof.
  intros Hs. unfold decoded_part. assert (dec_content (content_json part) = Some part) as ->.
  { destruct Hs as [text Ht|image raw _ _]; unfold content_json, omitempty;
      cbn [C_Text C_Type C_ImageURL C_FileID C_Detail text_part image_part].
    - destruct (eqs text "") eqn:E; [|reflexivity]. apply eqs_true in E as ->. reflexivity.
    - destruct (eqs raw "") eqn:E; [|reflexivity]. apply eqs_true in E as ->. reflexivity. }
  cbn [result_of mbind result_bind]. unfold input_part.
  destruct Hs as [text Ht|image raw Hr [Hp _ Hne]]; cbn [C_Type text_part image_part].
  - rewrite eqs_refl. change (plain_content (text_part text)) with true. by rewrite orb_true_r.
  - change (eqs "input_image" "input_text") with false.
    change (eqs "input_image" "output_text") with false. rewrite eqs_refl. unfold input_image.
    assert (eqs role RoleUser || eqs role RoleTool = true) as ->
      by by rewrite orb_true_iff, !eqs_true. cbn -[eqs parseImage].
    apply eqs_false in Hne. rewrite Hne, eqs_refl. cbn -[eqs parseImage]. by rewrite Hp.
Qed.

(** The printed parts are read back as the contents. *)
Lemma parts_read role param cs parts :
  cs ≠ [] → Forall2 (sent role) cs parts → parseInputContent (parts_text parts) role param = inr cs.
Proof.
  intros Hne Hs. assert (wf_json (JArr (content_json <$> parts))) as Hwf.
  { constructor. apply list.Forall_fmap. clear -Hs. induction Hs; [constructor|].
    constructor; [by eapply sent_wf|done]. }
  unfold parseInputContent, parts_text. rewrite print_trim, print_set by done.
  change (starts_quote (print (JArr (content_json <$> parts)))) with false. cbv iota.
  unfold unmarshal_array. rewrite parse_print by done. cbn [result_of mbind result_bind].
  rewrite bool_decide_eq_false_2.
  - cbn [negb require mbind result_bind]. apply range_map_all, list.Forall2_fmap_l.
    apply list.Forall2_flip. eapply list.Forall2_impl; [exact Hs|].
    intros c p Hcp k. by apply sent_read.
  - intros E%fmap_nil_inv. subst. by inversion Hs.
Qed.

Lemma text_read role param text :
  valid_utf8 text = true →
  parseInputContent (print (JStr text)) role param = inr [text_content text].
Proof.
  intros Ht. unfold parseInputContent. rewrite print_trim, print_set by done.
  change (starts_quote (print (JStr text))) with true. cbv iota zeta.
  by rewrite unmarshal_printed.
Qed.

(** ** Messages *)

(** What a tool answered: a JSON object as its text. *)
Definition answered (result : ToolResult) : list Content :=
  if eqs (Result_Result result) "" then Result_Content result
  else [text_content (Result_Result result)].

Inductive same_content : Content → Content → Prop :=
| same_itself c : same_content c c
| same_result x y :
    Result_ToolCallID x = Result_ToolCallID y → Result_Name x = Result_Name y →
    Result_IsError x = Result_IsError y → answered x = answered y →
    same_content (result_content x) (result_content y).

Definition same_message (m m' : Message) : Prop :=
  Message_Role m = Message_Role m' ∧
  Forall2 same_content (Message_Content m) (Message_Content m').

Lemma same_messages_refl m : same_message m m.
Proof. split; [done|]. induction (Message_Content m); by repeat constructor. Qed.

Definition add_input (ps : provider_state) (items : list InputItem) : provider_state :=
  {| ps_instructions := ps_instructions ps; ps_input := ps_input ps ++ items |}.
Definition hear (st : input_state) (messages : list Message) (names : gmap string string)
    : input_state :=
  {| is_messages := is_messages st ++ messages; callNames := names |}.

(** A message becomes one item, and the item is read back as the message. *)
Definition relayed (names : gmap string string) (m : Message) (names' : gmap string string) : Prop :=
  ∃ item m', same_message m m' ∧
    (∀ mi ps, provider_message mi m ps = inr (add_input ps [item])) ∧
    (∀ j st, callNames st = names → input_item j item st = inr (hear st [m'] names')).

(** *** Messages with text and images *)

Lemma range_encode_parts role cs :
  Forall (parsed role) cs → Forall content_ok cs →
  ∃ parts, Forall2 (sent role) cs parts ∧
    ∀ i st, range encode_content i cs st = inr (st.1 ++ parts, st.2).
Proof.
  intros Hp. induction Hp as [|c cs Hc Hcs IH]; intros Hok.
  - exists []. split; [constructor|]. intros i [ps items]. cbn. by rewrite app_nil_r.
  - inversion Hok as [|?? H1 H2]; subst. destruct (IH H2) as (parts & Hs & Hr).
    destruct (encode_part_sent role c "unsupported message content type %q" Hc H1) as (p & He & Hp).
    exists (p :: parts). split; [by constructor|]. intros i [ps items]. cbn [range].
    assert (encode_content i c (ps, items) = inr (ps ++ [p], items)) as ->.
    { unfold encode_content. rewrite He. by destruct Hc. }
    cbn [mbind result_bind]. rewrite Hr. cbn [fst snd]. by rewrite <- app_assoc.
Qed.

Lemma message_relayed names role cs :
  role = RoleUser ∨ role = RoleAssistant → Forall (parsed role) cs → cs ≠ [] →
  Forall content_ok cs →
  relayed names {| Message_Role := role; Message_Content := cs |} names.
Proof.
  intros Hr Hp Hne Hok. destruct (range_encode_parts role cs Hp Hok) as (parts & Hs & He).
  exists (message_item role (parts_text parts)), {| Message_Role := role; Message_Content := cs |}.
  split; [apply same_messages_refl|]. split.
  - intros mi ps. unfold provider_message. cbn [Message_Role Message_Content].
    assert (eqs role RoleSystem = false) as -> by by destruct Hr as [->| ->].
    assert (eqs role RoleUser || eqs role RoleAssistant = true) as ->
      by by destruct Hr as [->| ->].
    unfold encodeMessageContent. rewrite He. cbn [mbind result_bind app].
    rewrite (bool_decide_eq_false_2 (parts = [])) by by intros ->; inversion Hs; subst.
    reflexivity.
  - intros j st <-. unfold input_item. cbn [I_Type message_item].
    change (eqs "message" "" || eqs "message" "message") with true. cbv iota zeta.
    unfold input_message. cbn [I_Phase I_Status I_Role I_Content message_item].
    rewrite eqs_refl. cbn [require mbind result_bind orb].
    assert (eqs role "developer" = false) as -> by by destruct Hr as [->| ->].
    rewrite bool_decide_eq_true_2 by (destruct Hr as [->| ->]; set_solver).
    cbn [require mbind result_bind]. by rewrite (parts_read role _ cs parts).
Qed.

Lemma call_relayed names id name arguments :
  id ≠ "" → name ≠ "" → isJSONObject arguments = true → names !! id = None →
  relayed names {| Message_Role := RoleAssistant; Message_Content :=
      [call_content {| Call_ID := id; Call_Name := name; Call_Arguments := arguments;
                       Call_Signature := "" |}] |} (<[id := name]> names).
Proof.
  intros Hid Hname Hargs Hnew. eexists _, _. split; [apply same_messages_refl|]. split.
  - intros mi ps. reflexivity.
  - intros j st Hn. unfold input_item. cbn [I_Type call_item].
    change (eqs "function_call" "" || eqs "function_call" "message") with false.
    rewrite eqs_refl. cbv iota zeta. unfold input_call.
    cbn [I_CallID I_Name I_Arguments I_Namespace call_item Call_ID Call_Name Call_Arguments].
    apply eqs_false in Hid, Hname. apply negb_true_iff in Hid, Hname.
    rewrite Hid, Hname, Hargs, Hn, Hnew, eqs_refl. reflexivity.
Qed.

(** *** Answers of tools *)

Definition result_of_call (id name : string) (result : ToolResult) : ToolResult :=
  MkToolResult id name (Result_Content result) (Result_Result result) (Result_IsError result).

Lemma parseToolResult_text text :
  valid_utf8 text = true → ∃ y, (∀ param, parseToolResult (print (JStr text)) param = inr y) ∧
    Result_IsError y = false ∧ answered y = [text_content text].
Proof.
  intros Ht. unfold parseToolResult. rewrite print_trim, print_set by done.
  change (starts_quote (print (JStr text))) with true. cbv iota.
  rewrite unmarshal_printed by done. cbn [on_error mbind result_bind].
  destruct (isJSONObject text) eqn:E; eexists; (split; [reflexivity|]); (split; [done|]); [|done].
  unfold answered. cbn [Result_Result Result_Content]. by destruct text.
Qed.

Lemma parseToolResult_parts param cs parts :
  cs ≠ [] → Forall2 (sent RoleTool) cs parts →
  parseToolResult (parts_text parts) param = inr (MkToolResult "" "" cs "" false).
Proof.
  intros Hne Hs. unfold parseToolResult, parts_text. rewrite print_trim, print_set by done.
  change (starts_quote (print (JArr (content_json <$> parts)))) with false. cbv iota.
  change (print (JArr (content_json <$> parts))) with (parts_text parts).
  by rewrite (parts_read RoleTool param cs parts).
Qed.

(** The results a client may send. *)
Definition parsed_result (x : ToolResult) : Prop :=
  Result_IsError x = false ∧
  ((Result_Result x = "" ∧ Result_Content x ≠ [] ∧ Forall (parsed RoleTool) (Result_Content x)) ∨
   (Result_Result x ≠ "" ∧ valid_utf8 (Result_Result x) = true)).

Lemma parseToolResult_parsed raw param x :
  parseToolResult raw param = inr x → parsed_result x.
Proof.
  unfold parseToolResult. destruct (raw_unset _); [done|]. destruct (starts_quote _).
  - intros (text & Ht%on_error_ok%unmarshal_valid & H)%bind_ok.
    destruct (isJSONObject text) eqn:E; injection H as <-; (split; [done|]).
    + right. split; [|done]. intros He. cbn in He. by subst.
    + left. cbn. split_and!; [done..|]. constructor; [by constructor|constructor].
  - intros (cs & [Hcs Hne]%parseInputContent_parsed & [= <-])%bind_ok. split; [done|]. by left.
Qed.

Lemma range_output_parts cs i :
  Forall (parsed RoleTool) cs → Forall content_ok cs →
  ∃ parts, Forall2 (sent RoleTool) cs parts ∧ range_map output_part i cs = inr parts.
Proof.
  intros Hp. revert i. induction Hp as [|c l Hc Hl IH]; intros i Hok; [by exists []|].
  inversion Hok as [|?? H1 H2]; subst. destruct (IH (S i) H2) as (parts & Hs & Hr).
  destruct (encode_part_sent RoleTool c "unsupported function output content type %q" Hc H1)
    as (p & He & Hcp). exists (p :: parts). split; [by constructor|]. cbn [range_map].
  assert (output_part i c = inr p) as -> by exact He. cbn [mbind result_bind]. by rewrite Hr.
Qed.

Lemma encodeToolOutput_read x :
  parsed_result x → Forall content_ok (Result_Content x) →
  ∃ output y, encodeToolOutput x = inr output ∧ (∀ param, parseToolResult output param = inr y) ∧
    Result_IsError y = false ∧ answered y = answered x.
Proof.
  destruct x as [id name cs res err]. unfold parsed_result, encodeToolOutput, answered at 2.
  cbn [Result_IsError Result_Result Result_Content]. intros [-> H] Hok. cbn [negb require mbind result_bind].
  destruct H as [(-> & Hne & Hp)|[Hne Hv]].
  - rewrite eqs_refl. cbn [negb]. destruct (range_output_parts cs 0 Hp Hok) as (parts & Hs & Hr).
    assert (∀ param, parseToolResult (parts_text parts) param = inr (MkToolResult "" "" cs "" false))
      as Hback by by intros; apply parseToolResult_parts.
    destruct cs as [|c [|c' cs]]; [done| |by rewrite Hr; eexists _, _].
    destruct (eqs (Content_Type c) ContentText) eqn:Et; [|by rewrite Hr; eexists _, _].
    inversion Hp as [|?? Hc _]; subst. destruct Hc as [text Ht|]; [|done].
    destruct (parseToolResult_text text Ht) as (y & Hy). by eexists _, y.
  - apply eqs_false in Hne as E. rewrite E. apply negb_true_iff in E. rewrite E.
    destruct (parseToolResult_text res Hv) as (y & Hy). by eexists _, y.
Qed.

Lemma result_relayed names id name x :
  id ≠ "" → names !! id = Some name → parsed_result x → Forall content_ok (Result_Content x) →
  relayed names {| Message_Role := RoleTool;
                   Message_Content := [result_content (result_of_call id name x)] |} names.
Proof.
  intros Hid Hn Hp Hok. destruct (encodeToolOutput_read x Hp Hok) as (output & y & He & Hy & Herr & Ha).
  exists (output_item id output), {| Message_Role := RoleTool;
    Message_Content := [result_content (result_of_call id name y)] |}. split_and!.
  - split; [done|]. constructor; [|constructor].
    apply same_result; [done|done| |done]. cbn. destruct Hp as [Hp _]. by rewrite Herr.
  - intros mi ps. unfold provider_message. cbn -[encodeToolOutput eqs].
    change (eqs RoleTool RoleSystem) with false. change (eqs RoleTool RoleUser) with false.
    change (eqs RoleTool RoleAssistant) with false. rewrite eqs_refl. unfold tool_part.
    cbn -[encodeToolOutput eqs]. rewrite eqs_refl. cbn -[encodeToolOutput eqs].
    assert (encodeToolOutput (result_of_call id name x) = encodeToolOutput x) as -> by done.
    by rewrite He.
  - intros j st <-. unfold input_item. cbn [I_Type output_item].
    change (eqs "function_call_output" "" || eqs "function_call_output" "message") with false.
    change (eqs "function_call_output" "function_call") with false.
    rewrite eqs_refl. cbv iota zeta. unfold input_output. cbn [I_CallID I_Output output_item].
    apply eqs_false in Hid. rewrite Hid, Hn. cbn -[parseToolResult]. by rewrite Hy.
Qed.

(** ** Conversations *)

(** Instructions: texts, sent apart from the input. *)
Definition instructs (m : Message) : Prop :=
  Message_Role m = RoleSystem ∧ ∃ texts, Message_Content m = text_content <$> texts.
Definition texts_of (m : Message) : list string := Content_Text <$> Message_Content m.
Definition system_message (m : Message) : bool := eqs (Message_Role m) RoleSystem.
Definition instructions_of (ms : list Message) : list string :=
  ms ≫= λ m, if system_message m then texts_of m else [].
Definition turns_of (ms : list Message) : list Message :=
  ms ≫= λ m, if system_message m then [] else [m].

(** A conversation, from the calls it knows at the start to those at the end. *)
Inductive dialogue : gmap string string → list Message → gmap string string → Prop :=
| dl_end names : dialogue names [] names
| dl_instructs names m ms names' :
    instructs m → dialogue names ms names' → dialogue names (m :: ms) names'
| dl_turn names m names1 ms names' :
    system_message m = false →
    (Forall content_ok (Message_Content m) → relayed names m names1) →
    dialogue names1 ms names' → dialogue names (m :: ms) names'.

Lemma dialogue_app n1 ms1 n2 ms2 n3 :
  dialogue n1 ms1 n2 → dialogue n2 ms2 n3 → dialogue n1 (ms1 ++ ms2) n3.
Proof.
  induction 1 as [|? ? ? ? ? ? IH|? ? n ? ? ? ? ? IH]; intros H2; [done|constructor; auto|].
  by apply (dl_turn _ _ n); auto.
Qed.

Lemma range_instructions mi texts i l :
  range (system_part mi) i (text_content <$> texts) l = inr (l ++ texts).
Proof.
  revert i l. induction texts as [|t texts IH]; intros i l; cbn [fmap list_fmap range].
  - by rewrite app_nil_r.
  - assert (system_part mi i (text_content t) l = inr (l ++ [t])) as -> by reflexivity.
    cbn [mbind result_bind]. by rewrite IH, <- app_assoc.
Qed.

Lemma instructs_sent mi m ps :
  instructs m → provider_message mi m ps =
    inr {| ps_instructions := ps_instructions ps ++ texts_of m; ps_input := ps_input ps |}.
Proof.
  intros [Hr [texts Ht]]. unfold provider_message, texts_of. rewrite Hr, eqs_refl, Ht.
  rewrite range_instructions. cbn [mbind result_bind]. rewrite <- list_fmap_compose.
  do 3 f_equal. symmetry. apply list_fmap_id.
Qed.

Lemma dialogue_sent n ms n' :
  dialogue n ms n' → Forall (λ m, Forall content_ok (Message_Content m)) ms →
  ∃ items ms', Forall2 same_message (turns_of ms) ms' ∧ length items = length ms' ∧
    (∀ i ps, range provider_message i ms ps =
       inr {| ps_instructions := ps_instructions ps ++ instructions_of ms;
              ps_input := ps_input ps ++ items |}) ∧
    (∀ j st, callNames st = n → range input_item j items st = inr (hear st ms' n')).
Proof.
  induction 1 as [n|n m ms n' Hm Hd IH|n m n1 ms n' Hm Hrel Hd IH]; intros Hok.
  - exists [], []. split_and!; [constructor|done| |].
    + intros i [a b]. cbn. by rewrite !app_nil_r.
    + intros j [ms names] <-. unfold hear. cbn. by rewrite app_nil_r.
  - inversion Hok as [|?? _ H2]; subst. destruct (IH H2) as (items & ms' & Hs & Hl & Hsent & Hread).
    assert (system_message m = true) as Hsys by by apply eqs_true; destruct Hm.
    exists items, ms'. unfold turns_of, instructions_of. cbn [mbind list_bind]. rewrite Hsys. cbn [app].
    split_and!; [done..| |done]. intros i ps. cbn [range].
    rewrite (instructs_sent i m ps Hm). cbn [mbind result_bind]. rewrite Hsent. cbn.
    by rewrite <- app_assoc.
  - inversion Hok as [|?? H1 H2]; subst. destruct (IH H2) as (items & ms' & Hs & Hl & Hsent & Hread).
    destruct (Hrel H1) as (item & m' & Hsame & Hput & Hget). exists (item :: items), (m' :: ms').
    unfold turns_of, instructions_of. cbn [mbind list_bind]. rewrite Hm. cbn [app].
    split_and!; [by constructor|cbn; lia| |].
    + intros i ps. cbn [range]. rewrite Hput. cbn [mbind result_bind]. rewrite Hsent. unfold add_input.
      cbn. by rewrite <- app_assoc.
    + intros j st Hn. cbn [range]. rewrite (Hget j st Hn). cbn [mbind result_bind].
      rewrite Hread by done. unfold hear. cbn. by rewrite <- app_assoc.
Qed.

(** *** What is read is a conversation *)

Lemma parsed_texts role cs :
  role ≠ RoleUser → role ≠ RoleTool → Forall (parsed role) cs → ∃ texts, cs = text_content <$> texts.
Proof.
  intros H1 H2. induction 1 as [|c cs Hc Hcs IH]; [by exists []|]. destruct IH as [texts ->].
  destruct Hc as [text _|? ? [|]]; [|done..]. by exists (text :: texts).
Qed.

Lemma dialogue_one n m n' :
  system_message m = false → (Forall content_ok (Message_Content m) → relayed n m n') →
  dialogue n [m] n'.
Proof. intros H1 H2. apply (dl_turn n m n'); [done..|constructor]. Qed.

Lemma input_item_dialogue j item st st' :
  input_item j item st = inr st' →
  ∃ m, is_messages st' = is_messages st ++ [m] ∧ dialogue (callNames st) [m] (callNames st').
Proof.
  unfold input_item. cbv zeta. destruct (_ || _); [|case_eqs; [|case_eqs; [|by case_eqs]]].
  - unfold input_message. intros [_ [_ [Hr%bool_decide_eq_true H]%check_then]%check_then]%check_then.
    apply bind_ok in H as (cs & [Hp Hne]%parseInputContent_parsed & [= <-]).
    set (role := if eqs (I_Role item) "developer" then RoleSystem else I_Role item) in *.
    eexists. split; [reflexivity|]. cbn [callNames say].
    destruct (decide (role = RoleSystem)) as [Es|Es].
    + apply dl_instructs; [|constructor]. split; [done|].
      by apply (parsed_texts role); [rewrite Es..|].
    + apply dialogue_one; [by apply bool_decide_eq_false|]. intros Hok.
      apply message_relayed; [set_solver|done..].
  - unfold input_call. intros [Hc [Hnew [_ [= <-]]%check_then]%check_then]%check_then.
    rewrite !negb_orb, negb_involutive, !andb_true_iff, !eqs_false in Hc.
    destruct Hc as [[Hid Hname] Hargs]. apply none_true in Hnew.
    eexists. split; [reflexivity|]. apply dialogue_one; [done|]. intros _. by apply call_relayed.
  - unfold input_output. intros [Hid%eqs_false (name & Hname%result_of_ok & H)%bind_ok]%check_then.
    apply bind_ok in H as (x & Hx%parseToolResult_parsed & [= <-]).
    eexists. split; [reflexivity|]. apply dialogue_one; [done|]. cbn [Message_Content callNames say].
    intros Hok. apply (result_relayed _ _ _ x); [done..|].
    inversion Hok as [|? ? Hr _]; subst. inversion Hr as [? Hpl| |? (_ & _ & _ & Hall)]; subst;
      [by inversion Hpl|]. cbn in Hall. eapply list.Forall_impl; [exact Hall|]. by constructor.
Qed.

Lemma decoded_items_dialogue raws st st' :
  range decoded_item 0 raws st = inr st' →
  ∃ ms, is_messages st' = is_messages st ++ ms ∧ dialogue (callNames st) ms (callNames st').
Proof.
  revert st'. apply (range_ok decoded_item (λ _ st', ∃ ms,
    is_messages st' = is_messages st ++ ms ∧ dialogue (callNames st) ms (callNames st'))).
  - exists []. rewrite app_nil_r. split; [done|constructor].
  - intros seen raw s s' (ms & Hms & Hd) Hdec. apply bind_ok in Hdec as (item & _ & Hi).
    apply input_item_dialogue in Hi as (m & Hm & Hd'). exists (ms ++ [m]).
    rewrite Hm, Hms, app_assoc. split; [done|]. by eapply dialogue_app.
Qed.

Lemma input_messages_dialogue raw instructions ms :
  input_messages raw instructions = inr ms → dialogue ∅ instructions ∅ →
  ∃ names, dialogue ∅ ms names.
Proof.
  unfold input_messages. intros [_ H]%check_then Hi. destruct (starts_quote _).
  - apply bind_ok in H as (text & Ht%on_error_ok%unmarshal_valid & [= <-]). exists ∅.
    eapply dialogue_app; [exact Hi|]. apply dialogue_one; [done|]. intros Hok.
    apply message_relayed; [by left| |done..]. constructor; [by constructor|constructor].
  - apply bind_ok in H as (items & _ & [_ H]%check_then).
    apply bind_ok in H as (st & (ms' & Hms & Hd)%decoded_items_dialogue & [= <-]).
    exists (callNames st). rewrite Hms. by eapply dialogue_app.
Qed.

Lemma instruction_messages_dialogue raw ms :
  instruction_messages raw = inr ms → dialogue ∅ ms ∅.
Proof.
  unfold instruction_messages. destruct (rawPresent raw); [|intros [= <-]; constructor].
  intros (text & _ & [= <-])%bind_ok. destruct (eqs text ""); [constructor|].
  apply dl_instructs; [|constructor]. split; [done|]. by exists [text].
Qed.

(** ** Tools and the choice among them *)

Definition sent_tool (t : Tool) : Tool := {|
  T_Type := T_Type t; T_Name := T_Name t; T_Description := T_Description t;
  T_Parameters := schema_of (T_Parameters t); T_Strict := T_Strict t |}.
Definition tool_names (tools : list Tool) : gset string := list_to_set (T_Name <$> tools).

Lemma range_request_tools ts tools names :
  range request_tool 0 ts ([], ∅) = inr (tools, names) →
  provider_tool <$> tools = sent_tool <$> ts ∧ names = tool_names ts.
Proof.
  intros H. apply (range_ok request_tool (λ seen st, provider_tool <$> st.1 = sent_tool <$> seen ∧
    st.2 = tool_names seen)) in H; [done|done|]. clear.
  intros seen t [tools names] st' [IH1 IH2] H. cbn [fst snd] in IH1, IH2. unfold request_tool in H.
  apply check_then in H as [Ht%eqs_true [_ [_ [_ [= <-]]%check_then]%check_then]%check_then].
  cbn [fst snd]. rewrite !fmap_app, IH1, IH2. split.
  - f_equal. unfold sent_tool. destruct t; cbn in *; by subst.
  - unfold tool_names. rewrite fmap_app, list_to_set_app_L. cbn. set_solver.
Qed.

(** The choice a request makes, from its fields. *)
Definition chosen_tool (raw : RawMessage) (parallel : option bool) (tools : list Tool)
    : error + option Ir.ToolChoice :=
  choice ← parseToolChoice raw (tool_names tools);
  mret (disable_parallel parallel (negb (bool_decide (tools = []))) choice).

Definition sendable (names : gset string) (c : Ir.ToolChoice) : Prop :=
  names ≠ ∅ ∧ ((plain_mode (Choice_Mode c) = true ∧ Choice_Name c = "") ∨
    (Choice_Mode c = "named" ∧ Choice_Name c ≠ "" ∧ valid_utf8 (Choice_Name c) = true ∧
     Choice_Name c ∈ names)).

Lemma dec_selected_valid raw type name :
  dec_selected raw = Some (type, name) → valid_utf8 name = true.
Proof.
  unfold dec_selected. intros (m & Hm & H)%bind_some. apply bind_some in Hm as (j & Hj & Hm).
  apply parse_wf in Hj. apply struct_members_ok in Hm; [|done].
  apply bind_some in H as (ty & _ & (nm & Hn & [= <- <-])%bind_some).
  by apply (string_into_valid "name" "" m).
Qed.

Lemma responses_parseToolChoice_sendable raw names c :
  parseToolChoice raw names = inr (Some c) →
  sendable names c ∧ c = mode_choice (Choice_Mode c) (Choice_Name c).
Proof.
  unfold parseToolChoice, sendable. cbv zeta. destruct (raw_unset _); [done|].
  destruct (bool_decide (names = ∅)) eqn:En; cbn [negb];
    [apply bool_decide_eq_true in En|apply bool_decide_eq_false in En]; destruct (starts_quote _).
  - intros (mode & _ & H)%bind_ok. destruct (eqs mode "none"); [done|]. by destruct (_ || _).
  - intros ([type name] & _ & [_ [Hin _]%check_then]%check_then)%bind_ok.
    apply bool_decide_eq_true in Hin. set_solver.
  - intros (mode & _ & H)%bind_ok. destruct (eqs mode "none") eqn:E0.
    { apply eqs_true in E0 as ->. injection H as <-. by auto. }
    destruct (eqs mode "auto" || eqs mode "required") eqn:Ea; [|done].
    injection H as <-. split; [|done]. split; [done|]. left. split; [|done].
    by apply orb_true_iff in Ea as [->%eqs_true| ->%eqs_true].
  - intros ([type name] & Hd & [Hc [Hin [= <-]]%check_then]%check_then)%bind_ok.
    apply result_of_ok, dec_selected_valid in Hd. apply bool_decide_eq_true in Hin.
    apply andb_true_iff in Hc as [_ Hne%eqs_false]. split; [|done]. split; [done|]. by right.
Qed.

Lemma sent_choice_back names c :
  sendable names c → ∃ raw, toolChoiceJSON (Some c) = inr raw ∧
    parseToolChoice raw names = inr (Some (mode_choice (Choice_Mode c) (Choice_Name c))).
Proof.
  destruct c as [mode name dis]. unfold sendable, toolChoiceJSON. cbn [Choice_Mode Choice_Name].
  intros [Hne H]. assert (∀ raw, bracketed raw → parseToolChoice (print raw) names =
    if starts_quote (print raw) then parseToolChoice (print raw) names
    else '(type, name) ← decodeStrict dec_selected (print raw);
      _ ← require (eqs type "function" && negb (eqs name ""))
          (Errorf "named tool_choice must select a function" []);
      _ ← require (bool_decide (name ∈ names))
          (Errorf "selected function %q is not present in tools" [AStr name]);
      mret (Some (mode_choice "named" name))) as Hparse.
  { intros raw Hb. unfold parseToolChoice. rewrite print_trim, print_set by done.
    cbv zeta. by destruct (starts_quote _). }
  destruct H as [[Hp ->]|(-> & Hn & Hv & Hin)].
  - rewrite Hp. eexists. split; [done|]. unfold plain_mode in Hp. apply bool_decide_eq_true in Hp.
    unfold parseToolChoice. rewrite (bool_decide_eq_false_2 (names = ∅)) by done.
    repeat (apply elem_of_cons in Hp as [->|Hp]; [reflexivity|]). by apply elem_of_nil in Hp.
  - eexists. split; [reflexivity|]. rewrite Hparse by done.
    set (obj := JObj [("type", JStr "function"); ("name", JStr name)]).
    change (starts_quote (print obj)) with false. cbv iota. unfold decodeStrict, dec_selected.
    rewrite parse_print by (repeat constructor; done).
    assert ((m ← Some obj ≫= struct_members ["type"; "name"];
      type ← string_field "type" m; name ← string_field "name" m; Some (type, name))
      = Some ("function", name)) as -> by reflexivity.
    cbn -[eqs]. change (eqs "function" "function") with true. apply eqs_false in Hn. rewrite Hn.
    cbn. by rewrite bool_decide_eq_true_2.
Qed.

(** The fields of the wire request that carry a choice. *)
Definition choice_flag (c : option Ir.ToolChoice) : option bool :=
  match c with Some c => if Choice_DisableParallel c then Some false else None | None => None end.

Lemma chosen_tool_back raw parallel tools c tools' :
  T_Name <$> tools' = T_Name <$> tools →
  chosen_tool raw parallel tools = inr c →
  ∃ raw', toolChoiceJSON c = inr raw' ∧ chosen_tool raw' (choice_flag c) tools' = inr c.
Proof.
  intros Ht. unfold chosen_tool. intros (c0 & Hc0 & [= Hc])%bind_ok.
  assert (bool_decide (tools' = []) = bool_decide (tools = [])) as ->.
  { apply bool_decide_ext. by destruct tools, tools'. }
  assert (tool_names tools' = tool_names tools) as -> by by unfold tool_names; rewrite Ht.
  destruct c as [c|]; [|by eexists]. unfold choice_flag.
  assert (sendable (tool_names tools) c ∧
    (Choice_DisableParallel c = true → negb (bool_decide (tools = [])) = true)) as [Hs Hp].
  { assert (c0 = Some c → sendable (tool_names tools) c ∧ Choice_DisableParallel c = false) as Hplain.
    { intros ->. apply responses_parseToolChoice_sendable in Hc0 as [Hs ->]. done. }
    unfold disable_parallel in Hc. destruct parallel as [[]|];
      [apply Hplain in Hc as [? ->]; done| |apply Hplain in Hc as [? ->]; done].
    destruct (negb (bool_decide (tools = []))) eqn:En; [|apply Hplain in Hc as [? ->]; done].
    injection Hc as <-. split; [|done]. destruct c0 as [c0|].
    - apply responses_parseToolChoice_sendable in Hc0 as [Hs _]. exact Hs.
    - split; [|by left]. apply negb_true_iff, bool_decide_eq_false in En. unfold tool_names.
      destruct tools as [|t tools]; [done|]. cbn. set_solver. }
  destruct (sent_choice_back _ _ Hs) as (raw' & Hraw & Hback). exists raw'. split; [done|].
  rewrite Hback. cbn [mbind result_bind]. destruct c as [mode name []]; cbn in *; [|done].
  by rewrite Hp.
Qed.

(** ** Requests *)

(** The messages of a request: its instructions, then its input. *)
Definition conversation (req : CreateRequest) : error + list Message :=
  instructions ← instruction_messages (Q_Instructions req);
  input_messages (Q_Input req) instructions.

Definition nothing_said : input_state := {| is_messages := []; callNames := ∅ |}.

Lemma responses_ToIR_ok req route id r :
  ToIR req route id = inr r →
  valid_request r ∧ conversation req = inr (Req_Messages r) ∧
  IR_UpstreamModel (Req_Route r) = Route_UpstreamModel route ∧ Req_Stop r = [] ∧ Req_Metadata r = [] ∧
  Req_MaxOutputTokens r = Q_MaxOutputTokens req ∧
  unset_or (λ n, negb (n <? 16))%Z (Q_MaxOutputTokens req) = true ∧
  Req_Temperature r = Q_Temperature req ∧ Req_TopP r = Q_TopP req ∧
  provider_tool <$> Req_Tools r = sent_tool <$> Q_Tools req ∧
  chosen_tool (Q_ToolChoice req) (Q_ParallelToolCalls req) (Q_Tools req) = inr (Req_ToolChoice r).
Proof.
  unfold ToIR. intros [_ (_ & _ & [Hmax H]%check_then)%bind_ok]%check_then.
  apply check_then in H as [_ [_ (instr & Hi & H)%bind_ok]%check_then].
  apply bind_ok in H as (ms & Hms & H).
  apply bind_ok in H as ([tools names] & [Htools ->]%range_request_tools & H).
  apply bind_ok in H as (choice & Hchoice%on_error_ok & H).
  apply valid_then in H as [Hv [= <-]]. cbn [Req_Messages Req_Route IR_UpstreamModel Req_Stop
    Req_Metadata Req_MaxOutputTokens Req_Temperature Req_TopP Req_Tools Req_ToolChoice].
  split_and!; try done.
  - unfold conversation. by rewrite Hi.
  - unfold chosen_tool. rewrite Hchoice. cbn [mbind result_bind]. do 3 f_equal.
    apply bool_decide_ext. apply (f_equal length) in Htools. rewrite !length_fmap in Htools.
    by destruct tools, (Q_Tools req).
Qed.

Lemma valid_contents r :
  valid_request r → Forall (λ m, Forall content_ok (Message_Content m)) (Req_Messages r).
Proof.
  intros Hv. apply list.Forall_forall. intros m (ms1 & ms2 & Hm)%list_elem_of_split.
  destruct (vr_messages _ Hv _ _ _ Hm) as (_ & _ & _ & Hfits).
  apply list.Forall_forall. intros c (pre & post & Hc)%list_elem_of_split. by eapply Hfits.
Qed.

Lemma valid_turns r : valid_request r → turns_of (Req_Messages r) ≠ [].
Proof.
  intros Hv E. apply (vr_non_system _ Hv). unfold turns_of in E. unfold system_only. revert E.
  induction (Req_Messages r) as [|m l IH]; cbn [mbind list_bind]; [constructor|].
  destruct (system_message m) eqn:Em; [|done]. apply eqs_true in Em. constructor; [done|by apply IH].
Qed.


(** ** Answers *)

(** The texts of a message, a refusal being what it says; the calls of an
    answer; whether it refuses. *)
Definition is_refusal (c : OutputContent) : bool := eqs (OC_Type c) "refusal".
Definition said (c : OutputContent) : string := if is_refusal c then OC_Refusal c else OC_Text c.
Definition item_texts (item : OutputItem) : list string :=
  if eqs (O_Type item) "message" then said <$> O_Content item else [].
Definition item_calls (item : OutputItem) : list (string * string * string) :=
  if eqs (O_Type item) "function_call" then [(O_CallID item, O_Name item, O_Arguments item)] else [].
Definition item_refuses (item : OutputItem) : bool :=
  eqs (O_Type item) "message" && existsb is_refusal (O_Content item).
Definition refuses (response : Response) : bool := existsb item_refuses (R_Output response).

(** The contents of an answer: texts and calls. *)
Inductive spoken : Content → Prop :=
| spoken_text text : spoken (text_content text)
| spoken_call call : spoken (call_content call).
Definition content_texts (c : Content) : list string :=
  if eqs (Content_Type c) ContentText then [Content_Text c] else [].
Definition content_calls (c : Content) : list (string * string * string) :=
  match Content_ToolCall c with
  | Some call => [(Call_ID call, Call_Name call, Call_Arguments call)]
  | None => []
  end.

(** The contents [l] say the texts and make the calls, refusing or not. *)
Definition says (l : list Content) (texts : list string) (calls : list (string * string * string)) : Prop :=
  Forall spoken l ∧ l ≫= content_texts = texts ∧ l ≫= content_calls = calls.

Lemma says_text l texts calls text :
  says l texts calls → says (l ++ [text_content text]) (texts ++ [text]) calls.
Proof.
  intros (H & <- & <-). split_and!.
  - apply list.Forall_app. split; [done|]. by repeat constructor.
  - by rewrite bind_app.
  - rewrite bind_app. cbn. by rewrite app_nil_r.
Qed.
Lemma says_call l texts calls call :
  says l texts calls → says (l ++ [call_content call]) texts
    (calls ++ [(Call_ID call, Call_Name call, Call_Arguments call)]).
Proof.
  intros (H & <- & <-). split_and!.
  - apply list.Forall_app. split; [done|]. by repeat constructor.
  - rewrite bind_app. cbn. by rewrite app_nil_r.
  - by rewrite bind_app.
Qed.

Lemma range_answer_content oi content l b texts calls st' :
  says l texts calls → range (answer_content oi) 0 content (l, b) = inr st' →
  says st'.1 (texts ++ (said <$> content)) calls ∧ st'.2 = b || existsb is_refusal content.
Proof.
  intros Hl. apply (range_ok (answer_content oi) (λ seen st,
    says st.1 (texts ++ (said <$> seen)) calls ∧ st.2 = b || existsb is_refusal seen)).
  - cbn. by rewrite app_nil_r, orb_false_r.
  - intros seen c [l' b'] st [IH1 IH2] H. cbn [fst snd] in IH1, IH2. unfold answer_content in H.
    rewrite fmap_app, app_assoc, existsb_app, orb_assoc, <- IH2. cbn [fmap list_fmap existsb].
    rewrite orb_false_r. unfold said at 2, is_refusal.
    destruct (eqs (OC_Type c) "output_text") eqn:E1.
    + apply check_then in H as [_ [= <-]]. apply eqs_true in E1. rewrite E1.
      change (eqs "output_text" "refusal") with false. cbn [fst snd]. rewrite orb_false_r.
      split; [by apply says_text|done].
    + destruct (eqs (OC_Type c) "refusal"); [|done]. injection H as <-. cbn [fst snd].
      rewrite orb_true_r. split; [by apply says_text|done].
Qed.

Lemma range_answer_items items st :
  range answer_item 0 items ([], false) = inr st →
  says st.1 (items ≫= item_texts) (items ≫= item_calls) ∧ st.2 = existsb item_refuses items.
Proof.
  revert st. apply (range_ok answer_item (λ seen st,
    says st.1 (seen ≫= item_texts) (seen ≫= item_calls) ∧ st.2 = existsb item_refuses seen)).
  - split; [|done]. split_and!; [constructor|done|done].
  - intros seen item [l b] st [IH1 IH2] H. cbn [fst snd] in IH1, IH2. unfold answer_item in H.
    rewrite !bind_app, existsb_app, <- IH2. cbn [mbind list_bind existsb].
    rewrite !app_nil_r, orb_false_r. unfold item_texts at 2, item_calls at 2, item_refuses.
    destruct (eqs (O_Type item) "message") eqn:E1.
    + apply eqs_true in E1. rewrite E1. change (eqs "message" "function_call") with false.
      apply check_then in H as [_ H]. rewrite app_nil_r. cbn [andb].
      by eapply range_answer_content in H as [Hs ->].
    + rewrite app_nil_r, orb_false_r. destruct (eqs (O_Type item) "function_call").
      * apply check_then in H as [_ [= <-]]. cbn [fst snd]. split; [|done].
        exact (says_call _ _ _ {| Call_ID := O_CallID item |} IH1).
      * destruct (eqs (O_Type item) "reasoning"); [|done]. injection H as <-.
        by rewrite app_nil_r.
Qed.

(** *** The answer of the client *)

Definition call_id (responseID : string) (n : nat) : string :=
  "fc_" +:+ response_suffix responseID +:+ "_" +:+ FormatUint (Z.of_nat n).

(** What the loop has built from contents that say the texts and make the calls. *)
Record client_of (responseID : string) (texts : list string) (calls : list (string * string * string))
    (st : client_state) : Prop := {
  co_texts : said <$> cs_content st = texts;
  co_plain : Forall (λ c, is_refusal c = false) (cs_content st);
  co_calls : cs_output st ≫= item_calls = calls;
  co_items : Forall (λ item, O_Type item = "function_call") (cs_output st);
  co_index : callIndex st = length (cs_output st);
  co_ids : O_ID <$> cs_output st = call_id responseID <$> seq 1 (callIndex st)
}.

Lemma range_client_contents responseID l texts calls :
  says l texts calls →
  ∃ st, range (client_content responseID) 0 l {| cs_content := []; cs_output := []; callIndex := 0 |} =
    inr st ∧ client_of responseID texts calls st.
Proof.
  intros (Hl & <- & <-). assert (∀ i ts cs st, client_of responseID ts cs st →
    ∃ st', range (client_content responseID) i l st = inr st' ∧
      client_of responseID (ts ++ (l ≫= content_texts)) (cs ++ (l ≫= content_calls)) st') as H.
  { induction Hl as [|c l Hc Hl IH]; intros i ts cs st Hst.
    - exists st. cbn. by rewrite !app_nil_r.
    - destruct Hc as [text|call]; cbn [range].
      + edestruct (IH (S i) (ts ++ [text]) cs) as (st' & Hr & Hst'); [|exists st'; split].
        2: { exact Hr. } 2: { revert Hst'. cbn. by rewrite <- app_assoc. }
        destruct Hst. constructor; cbn; try done.
        * by rewrite fmap_app, co_texts0.
        * apply list.Forall_app. by repeat constructor.
      + edestruct (IH (S i) ts (cs ++ [(Call_ID call, Call_Name call, Call_Arguments call)]))
          as (st' & Hr & Hst'); [|exists st'; split].
        2: { exact Hr. } 2: { revert Hst'. cbn. by rewrite <- app_assoc. }
        destruct Hst. constructor; cbn -[seq]; try done.
        * by rewrite bind_app, co_calls0.
        * apply list.Forall_app. by repeat constructor.
        * rewrite length_app, co_index0. cbn. lia.
        * rewrite fmap_app, co_ids0. change (S (callIndex st)) with (1 + callIndex st)%nat.
          rewrite (Nat.add_comm 1 (callIndex st)), seq_app, fmap_app. cbn. by rewrite Nat.add_comm. }
  apply (H 0%nat [] []). by constructor.
Qed.

Lemma call_ids_distinct responseID n : NoDup (call_id responseID <$> seq 1 n).
Proof.
  apply NoDup_fmap_2; [|apply NoDup_seq]. intros a b H. unfold call_id in H.
  do 3 apply string_app_inj in H. apply FormatUint_inj in H; lia.
Qed.

Lemma items_texts_nil items :
  Forall (λ item, O_Type item = "function_call") items → items ≫= item_texts = [].
Proof.
  induction 1 as [|item l Hi Hl IH]; [done|]. cbn [mbind list_bind]. unfold item_texts at 1.
  rewrite Hi. by rewrite IH.
Qed.
Lemma items_refuse_nothing items :
  Forall (λ item, O_Type item = "function_call") items → existsb item_refuses items = false.
Proof.
  induction 1 as [|item l Hi Hl IH]; [done|]. cbn [existsb]. unfold item_refuses at 1. by rewrite Hi, IH.
Qed.

Definition client_output (responseID : string) (st : client_state) : list OutputItem :=
  (if bool_decide (cs_content st = []) then [] else [message_output responseID (cs_content st)]) ++
  cs_output st.

Lemma client_output_says responseID texts calls st :
  client_of responseID texts calls st →
  client_output responseID st ≫= item_texts = texts ∧ client_output responseID st ≫= item_calls = calls ∧
  NoDup (O_ID <$> client_output responseID st).
Proof.
  intros [<- Hplain <- Hitems Hindex Hids]. unfold client_output.
  rewrite !bind_app, (items_texts_nil _ Hitems), app_nil_r, fmap_app, Hids.
  destruct (bool_decide (cs_content st = [])) eqn:E.
  - apply bool_decide_eq_true in E. rewrite E. split_and!; [done..|]. apply call_ids_distinct.
  - cbn [mbind list_bind app fmap list_fmap]. unfold item_texts, item_calls at 1, message_output.
    cbn [O_Type O_Content O_ID]. rewrite eqs_refl, app_nil_r.
    change (eqs "message" "function_call") with false. split_and!; [done..|].
    constructor; [|apply call_ids_distinct]. intros (n & Hn & _)%list_elem_of_fmap. discriminate Hn.
Qed.

(** Why an answer is incomplete: the provider's reason, or a refusal. *)
Definition incomplete_because (up : Response) : option IncompleteDetails :=
  if eqs (R_Status up) "incomplete" then R_IncompleteDetails up
  else if refuses up then Some {| Reason := "content_filter" |} else None.

Lemma answer_finish_client up contents finish :
  eqs (R_Status up) "completed" || eqs (R_Status up) "incomplete" = true →
  answer_finish up contents (refuses up) = inr finish →
  client_status finish = inr (if none (incomplete_because up) then "completed" else "incomplete",
                              incomplete_because up).
Proof.
  intros Hst. unfold answer_finish, incomplete_because.
  destruct (eqs (R_Status up) "incomplete").
  - intros ([reason] & Hd%result_of_ok & H)%bind_ok. rewrite Hd. cbn [Reason none] in *.
    destruct (eqs reason "max_output_tokens") eqn:E1.
    { apply eqs_true in E1 as ->. by injection H as <-. }
    destruct (eqs reason "content_filter") eqn:E2; [|done].
    apply eqs_true in E2 as ->. by injection H as <-.
  - destruct (refuses up); [by intros [= <-]|]. destruct (existsb is_call contents); by intros [= <-].
Qed.

(** C36.  What an OpenAI Responses provider answers is what a Responses client
    gets: the same texts and the same calls, each in their order, under
    identifiers that are all different; incomplete for the reason the provider
    gave, or because it refused, and completed otherwise; the token counts,
    and their sum as the total when it fits in an [int]. *)
Theorem responses_answer_preserved up req r model responseID created parallel :
  ToIRResponse up req = inr r →
  ∃ out, FromIR r model responseID created parallel = inr out ∧
    R_Output out ≫= item_texts = R_Output up ≫= item_texts ∧
    R_Output out ≫= item_calls = R_Output up ≫= item_calls ∧
    NoDup (O_ID <$> R_Output out) ∧
    R_IncompleteDetails out = incomplete_because up ∧
    R_Status out = (if none (R_IncompleteDetails out) then "completed" else "incomplete") ∧
    U_InputTokens (R_Usage out) = U_InputTokens (R_Usage up) ∧
    U_OutputTokens (R_Usage out) = U_OutputTokens (R_Usage up) ∧
    (CachedTokens <$> U_InputTokensDetails (R_Usage out)) =
      Some (default 0%Z (CachedTokens <$> U_InputTokensDetails (R_Usage up))) ∧
    (U_InputTokens (R_Usage up) + U_OutputTokens (R_Usage up) < two63 →
     U_TotalTokens (R_Usage out) = U_InputTokens (R_Usage up) + U_OutputTokens (R_Usage up))%Z ∧
    R_ID out = responseID ∧ R_Model out = model ∧ R_Error out = None.
Proof.
  unfold ToIRResponse. intros (_ & _ & [Hst H]%check_then)%bind_ok.
  apply bind_ok in H as ([contents refused] & [Hs Hr]%range_answer_items & H). cbn [fst snd] in Hs, Hr.
  fold (refuses up) in Hr. subst refused. apply bind_ok in H as (finish & Hf & H).
  apply answer_finish_client in Hf; [|done].
  apply bind_ok in H as ([] & Hv%on_error_ok & [= <-]).
  destruct (range_client_contents responseID _ _ _ Hs) as (st & Hrange & Hclient).
  destruct (client_output_says _ _ _ _ Hclient) as (Ht & Hc & Hids).
  eexists. split.
  { unfold FromIR. rewrite Hv. cbn [mbind result_bind Resp_Content]. rewrite Hrange.
    cbn [mbind result_bind Resp_FinishReason]. rewrite Hf. cbn [mbind result_bind]. reflexivity. }
  cbn [R_Output R_IncompleteDetails R_Status R_Usage R_ID R_Model R_Error Resp_Usage].
  fold (client_output responseID st). apply Response_Validate_ok in Hv.
  pose proof (vp_usage _ Hv) as Hu. cbn in Hu.
  refine (conj Ht (conj Hc (conj Hids (conj eq_refl (conj eq_refl (conj eq_refl (conj eq_refl
    (conj _ (conj _ (conj eq_refl (conj eq_refl eq_refl))))))))))).
  - cbn. by destruct (U_InputTokensDetails (R_Usage up)).
  - cbn [U_TotalTokens client_usage InputTokens OutputTokens answer_usage]. intros Hsum.
    apply int64_id. unfold fits64. unfold two63 in *. lia.
Qed.

(** ** A conversation with a tool, both ways *)

Module ResponsesSample.
Definition text (s : string) : json := JStr s.
Definition request : CreateRequest := {|
  Q_Model := "fast"; Q_Instructions := print (JStr "Be brief.");
  Q_Input := print (JArr [
    JObj [("role", JStr "developer"); ("content", JStr "Use the clock.")];
    JObj [("role", JStr "user"); ("content", JArr [
      JObj [("type", JStr "input_text"); ("text", JStr "What time?")];
      JObj [("type", JStr "input_image"); ("image_url", JStr "https://example.com/clock.png")]])];
    JObj [("type", JStr "function_call"); ("call_id", JStr "c1"); ("name", JStr "now");
          ("arguments", JStr "{}")];
    JObj [("type", JStr "function_call_output"); ("call_id", JStr "c1"); ("output", JStr "{}")]]);
  Q_MaxOutputTokens := Some 100%Z; Q_Temperature := Some float_one; Q_TopP := None;
  Q_Tools := [{| T_Type := "function"; T_Name := "now"; T_Description := ""; T_Parameters := "";
                 T_Strict := Some true |}];
  Q_ToolChoice := print (JObj [("type", JStr "function"); ("name", JStr "now")]);
  Q_ParallelToolCalls := Some false; Q_Stream := None; Q_Store := Some false;
  Q_PreviousResponseID := ""; Q_Conversation := ""; Q_Reasoning := "null"; Q_Text := "";
  Q_Metadata := []; Q_Include := []; Q_Background := None; Q_Truncation := "disabled";
  Q_Prompt := ""; Q_MaxToolCalls := None; Q_SafetyIdentifier := ""; Q_PromptCacheKey := "";
  Q_ServiceTier := ""; Q_User := ""; Q_TopLogprobs := None; Q_StreamOptions := "" |}.
Definition route : Model.Route := {|
  Route_ModelID := "m1"; Route_Alias := "fast"; Route_ProviderID := "p1";
  Route_UpstreamModel := "gpt"; Route_AdapterAppID := "acme" |}.
Definition ir : Request := match ToIR request route "r1" with
  | inr r => r
  | inl _ => {| Req_Version := ""; Req_ID := ""; Req_Route := {| IR_ProviderID := "";
      IR_UpstreamModel := "" |}; Req_Messages := []; Req_MaxOutputTokens := None;
      Req_Temperature := None; Req_TopP := None; Req_Stop := []; Req_Tools := [];
      Req_ToolChoice := None; Req_Metadata := []; Req_Stream := false |}
  end.
Definition message (content : list OutputContent) : OutputItem := {|
  O_Type := "message"; O_ID := "msg1"; O_Status := "completed"; O_Role := "assistant";
  O_Content := content; O_CallID := ""; O_Name := ""; O_Arguments := "" |}.
Definition call : OutputItem := {|
  O_Type := "function_call"; O_ID := "fc1"; O_Status := "completed"; O_Role := ""; O_Content := [];
  O_CallID := "c2"; O_Name := "now"; O_Arguments := "{}" |}.
Definition response : Response := {|
  R_ID := "up1"; R_Object := "response"; R_CreatedAt := 0; R_Status := "completed";
  R_Error := None; R_IncompleteDetails := None; R_Model := "gpt";
  R_Output := [call; message [{| OC_Type := "refusal"; OC_Text := ""; OC_Refusal := "No.";
                                 OC_Annotations := []; OC_Logprobs := [] |}]];
  R_ParallelToolCalls := true; R_Store := false;
  R_Usage := {| U_InputTokens := 10; U_InputTokensDetails := None; U_OutputTokens := 2;
    U_OutputTokenDetails := None; U_TotalTokens := 12 |} |}.
Definition answer : Ir.Response := match ToIRResponse response ir with
  | inr r => r
  | inl _ => {| Resp_Version := ""; Resp_ID := ""; Resp_Model := ""; Resp_Content := [];
      Resp_FinishReason := ""; Resp_StopSequence := ""; Resp_ProviderResponseID := "";
      Resp_Usage := {| InputTokens := 0; OutputTokens := 0; CacheCreationInputTokens := 0;
        CachedInputTokens := 0 |} |} end.
End ResponsesSample.


Lemma responses_answer_preserved_witness :
  ∃ out, FromIR ResponsesSample.answer "fast" "resp_1" zero_time true = inr out ∧
    R_Output out ≫= item_texts = ["No."] ∧ R_Output out ≫= item_calls = [("c2", "now", "{}")] ∧
    R_IncompleteDetails out = Some {| Reason := "content_filter" |}.
Proof.
  destruct (responses_answer_preserved ResponsesSample.response ResponsesSample.ir
    ResponsesSample.answer "fast" "resp_1" zero_time true)
    as (out & Ho & Ht & Hc & _ & Hd & _); [vm_compute; reflexivity|].
  exists out. exact (conj Ho (conj Ht (conj Hc Hd))).
Defined.

(** A conversation as the provider gets it, the texts of the items. *)
Example responses_sent_items :
  (λ up, (λ i, (I_Type i, I_CallID i, I_Output i)) <$> PR_Input up) <$>
    (match ToProviderRequest ResponsesSample.ir with inr up => Some up | inl _ => None end) =
  Some [("message", "", ""); ("function_call", "c1", "");
        ("function_call_output", "c1", print (JStr "{}"))].
Proof. vm_compute. reflexivity. Qed.
