(* ===== verification/ResponsesHttp.v ===== *)
(** * The OpenAI Responses protocol over HTTP ([internal/openairesponses])

    The structs of [types.go] on the wire, the adapter of OpenAI Responses
    providers ([adapter_http.go]) and the gateway handler
    ([gateway_http.go]). *)

From Stdlib Require Import SpecFloat.
From S2P Require Import Prelude GoStd Json JsonRaw GoText GoFloat GoTime GoFmt Errors Results State Model.
From S2P Require Import Repository Svc Service Platform Wire Http Registry Dapr Ir DaprState AdapterConfig.
From S2P Require Import Runtime Dataplane IrWire Adapter Responses.

(** ** types.go *)

Definition Tool_text (t : Tool) : option string := struct_text
  [must "type" (string_text (T_Type t)); omit_string "name" (T_Name t);
   omit_string "description" (T_Description t); omit_raw "parameters" (T_Parameters t);
   omit_pointer "strict" bool_text (T_Strict t)].
Definition InputItem_text (i : InputItem) : option string := struct_text
  [omit_string "type" (I_Type i); omit_string "role" (I_Role i); omit_raw "content" (I_Content i);
   omit_string "id" (I_ID i); omit_string "call_id" (I_CallID i); omit_string "name" (I_Name i);
   omit_string "arguments" (I_Arguments i); omit_raw "output" (I_Output i);
   omit_string "status" (I_Status i); omit_string "phase" (I_Phase i);
   omit_string "namespace" (I_Namespace i)].
(** The request always has input items. *)
Definition ProviderRequest_text (r : ProviderRequest) : option string := struct_text
  [must "model" (string_text (PR_Model r)); must "input" (slice_text InputItem_text (PR_Input r));
   omit_string "instructions" (PR_Instructions r);
   omit_pointer "max_output_tokens" int_text (PR_MaxOutputTokens r);
   omit_pointer "temperature" FormatFloat (PR_Temperature r); omit_pointer "top_p" FormatFloat (PR_TopP r);
   omit_slice "tools" Tool_text (PR_Tools r); omit_raw "tool_choice" (PR_ToolChoice r);
   omit_pointer "parallel_tool_calls" bool_text (PR_ParallelToolCalls r);
   must "store" (bool_text (PR_Store r)); must "stream" (bool_text (PR_Stream r))].

(** The annotations and logprobs that are written are empty. *)
Definition OutputContent_text (c : OutputContent) : option string := struct_text
  [must "type" (string_text (OC_Type c)); omit_string "text" (OC_Text c);
   omit_string "refusal" (OC_Refusal c); omit_slice "annotations" any_text (OC_Annotations c);
   omit_slice "logprobs" any_text (OC_Logprobs c)].
Definition OutputItem_text (i : OutputItem) : option string := struct_text
  [must "type" (string_text (O_Type i)); omit_string "id" (O_ID i); omit_string "status" (O_Status i);
   omit_string "role" (O_Role i); omit_slice "content" OutputContent_text (O_Content i);
   omit_string "call_id" (O_CallID i); omit_string "name" (O_Name i);
   omit_string "arguments" (O_Arguments i)].
Definition IncompleteDetails_text (d : IncompleteDetails) : option string :=
  struct_text [must "reason" (string_text (Reason d))].
Definition InputTokenDetails_text (d : InputTokenDetails) : option string :=
  struct_text [must "cached_tokens" (int_text (CachedTokens d))].
Definition OutputTokenDetails_text (d : OutputTokenDetails) : option string :=
  struct_text [must "reasoning_tokens" (int_text (ReasoningTokens d))].
Definition Usage_text (u : Usage) : option string := struct_text
  [must "input_tokens" (int_text (U_InputTokens u));
   omit_pointer "input_tokens_details" InputTokenDetails_text (U_InputTokensDetails u);
   must "output_tokens" (int_text (U_OutputTokens u));
   omit_pointer "output_tokens_details" OutputTokenDetails_text (U_OutputTokenDetails u);
   must "total_tokens" (int_text (U_TotalTokens u))].
Definition ResponseError_text (e : ResponseError) : option string := struct_text
  [must "code" (string_text (Err_Code e)); must "message" (string_text (Err_Message e));
   omit_pointer "param" string_text (Err_Param e); omit_string "type" (Err_Type e)].
(** The output is not nil. *)
Definition Response_text (r : Response) : option string := struct_text
  [must "id" (string_text (R_ID r)); must "object" (string_text (R_Object r));
   must "created_at" (int_text (R_CreatedAt r)); must "status" (string_text (R_Status r));
   must "error" (pointer_text ResponseError_text (R_Error r));
   must "incomplete_details" (pointer_text IncompleteDetails_text (R_IncompleteDetails r));
   must "model" (string_text (R_Model r)); must "output" (slice_text OutputItem_text (R_Output r));
   must "parallel_tool_calls" (bool_text (R_ParallelToolCalls r)); must "store" (bool_text (R_Store r));
   must "usage" (Usage_text (R_Usage r))].

Record APIError := {
  AE_Message : string; AE_Type : string; AE_Param : option string; AE_Code : string
}.
Definition APIError_text (e : APIError) : option string := struct_text
  [must "message" (string_text (AE_Message e)); must "type" (string_text (AE_Type e));
   must "param" (pointer_text string_text (AE_Param e)); must "code" (string_text (AE_Code e))].
Definition ErrorResponse_text (e : APIError) : option string :=
  struct_text [must "error" (APIError_text e)].

Definition zero_responses_tool : Tool :=
  {| T_Type := ""; T_Name := ""; T_Description := ""; T_Parameters := ""; T_Strict := None |}.
Definition zero_create : CreateRequest := {|
  Q_Model := ""; Q_Input := ""; Q_Instructions := ""; Q_MaxOutputTokens := None;
  Q_Temperature := None; Q_TopP := None; Q_Tools := []; Q_ToolChoice := "";
  Q_ParallelToolCalls := None; Q_Stream := None; Q_Store := None; Q_PreviousResponseID := "";
  Q_Conversation := ""; Q_Reasoning := ""; Q_Text := ""; Q_Metadata := []; Q_Include := [];
  Q_Background := None; Q_Truncation := ""; Q_Prompt := ""; Q_MaxToolCalls := None;
  Q_SafetyIdentifier := ""; Q_PromptCacheKey := ""; Q_ServiceTier := ""; Q_User := "";
  Q_TopLogprobs := None; Q_StreamOptions := "" |}.
Definition zero_output_content : OutputContent := {|
  OC_Type := ""; OC_Text := ""; OC_Refusal := ""; OC_Annotations := []; OC_Logprobs := [] |}.
Definition zero_output_item : OutputItem := {|
  O_Type := ""; O_ID := ""; O_Status := ""; O_Role := ""; O_Content := []; O_CallID := "";
  O_Name := ""; O_Arguments := "" |}.
Definition zero_responses_usage : Usage := {|
  U_InputTokens := 0; U_InputTokensDetails := None; U_OutputTokens := 0;
  U_OutputTokenDetails := None; U_TotalTokens := 0 |}.
Definition zero_response_error : ResponseError :=
  {| Err_Code := ""; Err_Message := ""; Err_Param := None; Err_Type := "" |}.
Definition zero_answer : Response := {|
  R_ID := ""; R_Object := ""; R_CreatedAt := 0; R_Status := ""; R_Error := None;
  R_IncompleteDetails := None; R_Model := ""; R_Output := []; R_ParallelToolCalls := false;
  R_Store := false; R_Usage := zero_responses_usage |}.

Section reading.
Context (strict : bool).

Definition read_Tool : reader Tool :=
  read_struct strict ["type"; "name"; "description"; "parameters"; "strict"] (λ x m,
    type ← read_field read_string "type" (T_Type x) m;
    name ← read_field read_string "name" (T_Name x) m;
    description ← read_field read_string "description" (T_Description x) m;
    parameters ← read_field read_raw "parameters" (T_Parameters x) m;
    strict ← read_field (read_pointer false read_bool) "strict" (T_Strict x) m;
    Some {| T_Type := type; T_Name := name; T_Description := description;
            T_Parameters := parameters; T_Strict := strict |}).

Definition read_CreateRequest : reader CreateRequest :=
  read_struct strict
    ["model"; "input"; "instructions"; "max_output_tokens"; "temperature"; "top_p"; "tools";
     "tool_choice"; "parallel_tool_calls"; "stream"; "store"; "previous_response_id"; "conversation";
     "reasoning"; "text"; "metadata"; "include"; "background"; "truncation"; "prompt";
     "max_tool_calls"; "safety_identifier"; "prompt_cache_key"; "service_tier"; "user";
     "top_logprobs"; "stream_options"] (λ x m,
    model ← read_field read_string "model" (Q_Model x) m;
    input ← read_field read_raw "input" (Q_Input x) m;
    instructions ← read_field read_raw "instructions" (Q_Instructions x) m;
    tokens ← read_field (read_pointer 0%Z read_int) "max_output_tokens" (Q_MaxOutputTokens x) m;
    temperature ← read_field (read_pointer float_zero read_float) "temperature" (Q_Temperature x) m;
    top ← read_field (read_pointer float_zero read_float) "top_p" (Q_TopP x) m;
    tools ← read_field (read_slice zero_responses_tool read_Tool) "tools" (Q_Tools x) m;
    choice ← read_field read_raw "tool_choice" (Q_ToolChoice x) m;
    parallel ← read_field (read_pointer false read_bool) "parallel_tool_calls" (Q_ParallelToolCalls x) m;
    stream ← read_field (read_pointer false read_bool) "stream" (Q_Stream x) m;
    store ← read_field (read_pointer false read_bool) "store" (Q_Store x) m;
    previous ← read_field read_string "previous_response_id" (Q_PreviousResponseID x) m;
    conversation ← read_field read_raw "conversation" (Q_Conversation x) m;
    reasoning ← read_field read_raw "reasoning" (Q_Reasoning x) m;
    text ← read_field read_raw "text" (Q_Text x) m;
    metadata ← read_field (read_map dec_any) "metadata" (Q_Metadata x) m;
    include ← read_field (read_slice "" read_string) "include" (Q_Include x) m;
    background ← read_field (read_pointer false read_bool) "background" (Q_Background x) m;
    truncation ← read_field read_string "truncation" (Q_Truncation x) m;
    prompt ← read_field read_raw "prompt" (Q_Prompt x) m;
    calls ← read_field (read_pointer 0%Z read_int) "max_tool_calls" (Q_MaxToolCalls x) m;
    safety ← read_field read_string "safety_identifier" (Q_SafetyIdentifier x) m;
    cache ← read_field read_string "prompt_cache_key" (Q_PromptCacheKey x) m;
    tier ← read_field read_string "service_tier" (Q_ServiceTier x) m;
    user ← read_field read_string "user" (Q_User x) m;
    logprobs ← read_field (read_pointer 0%Z read_int) "top_logprobs" (Q_TopLogprobs x) m;
    options ← read_field read_raw "stream_options" (Q_StreamOptions x) m;
    Some {| Q_Model := model; Q_Input := input; Q_Instructions := instructions;
            Q_MaxOutputTokens := tokens; Q_Temperature := temperature; Q_TopP := top;
            Q_Tools := tools; Q_ToolChoice := choice; Q_ParallelToolCalls := parallel;
            Q_Stream := stream; Q_Store := store; Q_PreviousResponseID := previous;
            Q_Conversation := conversation; Q_Reasoning := reasoning; Q_Text := text;
            Q_Metadata := metadata; Q_Include := include; Q_Background := background;
            Q_Truncation := truncation; Q_Prompt := prompt; Q_MaxToolCalls := calls;
            Q_SafetyIdentifier := safety; Q_PromptCacheKey := cache; Q_ServiceTier := tier;
            Q_User := user; Q_TopLogprobs := logprobs; Q_StreamOptions := options |}).

(** A raw message of which only the presence is used. *)
Definition read_value : reader json := λ _ raw, parse raw.
Definition read_OutputContent : reader OutputContent :=
  read_struct strict ["type"; "text"; "refusal"; "annotations"; "logprobs"] (λ x m,
    type ← read_field read_string "type" (OC_Type x) m;
    text ← read_field read_string "text" (OC_Text x) m;
    refusal ← read_field read_string "refusal" (OC_Refusal x) m;
    annotations ← read_field (read_slice JNull read_value) "annotations" (OC_Annotations x) m;
    logprobs ← read_field (read_slice JNull read_value) "logprobs" (OC_Logprobs x) m;
    Some {| OC_Type := type; OC_Text := text; OC_Refusal := refusal;
            OC_Annotations := annotations; OC_Logprobs := logprobs |}).
Definition read_OutputItem : reader OutputItem :=
  read_struct strict
    ["type"; "id"; "status"; "role"; "content"; "call_id"; "name"; "arguments"] (λ x m,
    type ← read_field read_string "type" (O_Type x) m;
    id ← read_field read_string "id" (O_ID x) m;
    status ← read_field read_string "status" (O_Status x) m;
    role ← read_field read_string "role" (O_Role x) m;
    content ← read_field (read_slice zero_output_content read_OutputContent) "content" (O_Content x) m;
    call ← read_field read_string "call_id" (O_CallID x) m;
    name ← read_field read_string "name" (O_Name x) m;
    arguments ← read_field read_string "arguments" (O_Arguments x) m;
    Some {| O_Type := type; O_ID := id; O_Status := status; O_Role := role; O_Content := content;
            O_CallID := call; O_Name := name; O_Arguments := arguments |}).
Definition read_IncompleteDetails : reader IncompleteDetails :=
  read_struct strict ["reason"] (λ x m,
    reason ← read_field read_string "reason" (Reason x) m; Some {| Reason := reason |}).
Definition read_InputTokenDetails : reader InputTokenDetails :=
  read_struct strict ["cached_tokens"] (λ x m,
    cached ← read_field read_int "cached_tokens" (CachedTokens x) m; Some {| CachedTokens := cached |}).
Definition read_OutputTokenDetails : reader OutputTokenDetails :=
  read_struct strict ["reasoning_tokens"] (λ x m,
    reasoning ← read_field read_int "reasoning_tokens" (ReasoningTokens x) m;
    Some {| ReasoningTokens := reasoning |}).
Definition read_Usage : reader Usage :=
  read_struct strict
    ["input_tokens"; "input_tokens_details"; "output_tokens"; "output_tokens_details";
     "total_tokens"] (λ x m,
    input ← read_field read_int "input_tokens" (U_InputTokens x) m;
    inputDetails ← read_field (read_pointer {| CachedTokens := 0 |} read_InputTokenDetails)
                     "input_tokens_details" (U_InputTokensDetails x) m;
    output ← read_field read_int "output_tokens" (U_OutputTokens x) m;
    outputDetails ← read_field (read_pointer {| ReasoningTokens := 0 |} read_OutputTokenDetails)
                      "output_tokens_details" (U_OutputTokenDetails x) m;
    total ← read_field read_int "total_tokens" (U_TotalTokens x) m;
    Some {| U_InputTokens := input; U_InputTokensDetails := inputDetails; U_OutputTokens := output;
            U_OutputTokenDetails := outputDetails; U_TotalTokens := total |}).
Definition read_ResponseError : reader ResponseError :=
  read_struct strict ["code"; "message"; "param"; "type"] (λ x m,
    code ← read_field read_string "code" (Err_Code x) m;
    message ← read_field read_string "message" (Err_Message x) m;
    param ← read_field (read_pointer "" read_string) "param" (Err_Param x) m;
    type ← read_field read_string "type" (Err_Type x) m;
    Some {| Err_Code := code; Err_Message := message; Err_Param := param; Err_Type := type |}).
Definition read_Response : reader Response :=
  read_struct strict
    ["id"; "object"; "created_at"; "status"; "error"; "incomplete_details"; "model"; "output";
     "parallel_tool_calls"; "store"; "usage"] (λ x m,
    id ← read_field read_string "id" (R_ID x) m;
    object ← read_field read_string "object" (R_Object x) m;
    created ← read_field read_int "created_at" (R_CreatedAt x) m;
    status ← read_field read_string "status" (R_Status x) m;
    error ← read_field (read_pointer zero_response_error read_ResponseError) "error" (R_Error x) m;
    details ← read_field (read_pointer {| Reason := "" |} read_IncompleteDetails)
                "incomplete_details" (R_IncompleteDetails x) m;
    model ← read_field read_string "model" (R_Model x) m;
    output ← read_field (read_slice zero_output_item read_OutputItem) "output" (R_Output x) m;
    parallel ← read_field read_bool "parallel_tool_calls" (R_ParallelToolCalls x) m;
    store ← read_field read_bool "store" (R_Store x) m;
    usage ← read_field read_Usage "usage" (R_Usage x) m;
    Some {| R_ID := id; R_Object := object; R_CreatedAt := created; R_Status := status;
            R_Error := error; R_IncompleteDetails := details; R_Model := model; R_Output := output;
            R_ParallelToolCalls := parallel; R_Store := store; R_Usage := usage |}).
End reading.

(** ** adapter_http.go *)

(** The limit of the adapter, checked before the provider is resolved. *)
Definition output_limit (config : AdapterConfig) (request : Request) : option string :=
  match Req_MaxOutputTokens request with
  | Some tokens =>
      if ((0 <? MaxOutputTokens config) && (MaxOutputTokens config <? tokens))%Z then
        Some ("max_output_tokens must not exceed " +:+ FormatInt (MaxOutputTokens config))
      else None
  | None => None
  end.

Definition responses_api : provider_api ProviderRequest Response := {|
  api_kind := ProviderKindOpenAIResponses;
  api_accepts := "OpenAI Responses";
  api_name := "OpenAI";
  api_limit := output_limit;
  api_request _ := ToProviderRequest;
  api_text := ProviderRequest_text;
  api_endpoint config _ := inr (Cfg_BaseURL config +:+ "/" +:+ Cfg_APIVersion config +:+ "/responses");
  api_header _ apiKey requestID :=
    [("Authorization", "Bearer " +:+ apiKey); ("User-Agent", "gwai-openai-responses-adapter/0.3")] ++
    unless_empty requestID [("X-Request-Id", requestID)];
  api_zero := zero_answer;
  api_read := read_Response false;
  api_response := ToIRResponse |}.

Definition responses_generate : AdapterHTTPHandler → handler := Adapter.generate responses_api.
Definition NewResponsesAdapter : AdapterHTTPHandler → http_request → svc http_response :=
  NewAdapterHTTPHandler responses_api.

(** ** gateway_http.go *)

Record GatewayHandler := { gr_dispatcher : Dispatcher; gr_maxBody : Z }.

Definition bearer_challenge : string := "Bearer realm=" +:+ String dquote "gwai" +:+ String dquote "".

Definition writeAPIError (status : Z) (errorType code message param : string) : http_response :=
  JSON_text status (ErrorResponse_text {|
    AE_Message := message; AE_Type := errorType;
    AE_Param := if bool_decide (param = "") then None else Some param; AE_Code := code |}).

Definition writeRuntimeError (err : error) : http_response :=
  match errors_As as_translation err with
  | Some (param, code, format, args) =>
      writeAPIError 400 "invalid_request_error" code (Error (TranslationError param code format args)) param
  | None =>
      match errors_As as_validation err with
      | Some (field, message, args) =>
          writeAPIError 400 "invalid_request_error" "invalid_model"
            (Error (ValidationError field message args)) field
      | None =>
          if errors_Is err Unauthorized then
            with_header "Www-Authenticate" bearer_challenge
              (writeAPIError 401 "authentication_error" "invalid_api_key" "Incorrect API key provided" "")
          else if errors_Is err Forbidden then
            writeAPIError 403 "permission_error" "model_not_allowed"
              "The API key is not allowed to use the requested model" "model"
          else if errors_Is err NotFound then
            writeAPIError 404 "invalid_request_error" "model_not_found"
              "The requested model does not exist" "model"
          else if (if errors_As as_http err is Some status then status =? 429 else false)%Z then
            writeAPIError 429 "rate_limit_error" "rate_limit_exceeded"
              "The upstream provider rate limit was exceeded" ""
          else
            writeAPIError 502 "api_error" "upstream_error"
              "The gateway could not complete the upstream request" ""
      end
  end%Z.

Definition or_error {A} (p : prog A) (next : A → svc http_response) : svc http_response :=
  svc_bind_result (call p) (λ r, match r with inl err => mret (writeRuntimeError err) | inr a => next a end).

Definition createResponse (h : GatewayHandler) : handler := λ requestID r,
  match BearerToken (header_get "Authorization" (Header r)) with
  | None =>
      mret (with_header "Www-Authenticate" bearer_challenge
        (writeAPIError 401 "authentication_error" "invalid_api_key"
           "An API key must be supplied as a Bearer token" ""))
  | Some token =>
      match DecodeBody zero_create (read_CreateRequest true) (Body r) (gr_maxBody h) with
      | inl err => mret (writeAPIError 400 "invalid_request_error" "invalid_json" (Error err) "")
      | inr request =>
          or_error (Generate (gr_dispatcher h) token (Q_Model request) requestID (ToIR request))
            (λ internalResponse,
          or_error (NewID "resp") (λ responseID,
          or_error now (λ created,
            let parallel := default true (Q_ParallelToolCalls request) in
            mret match FromIR internalResponse (Q_Model request) responseID created parallel with
                 | inl err => writeRuntimeError err
                 | inr response => JSON_text 200 (Response_text response)
                 end)))
      end
  end%Z.

Definition NewGatewayHTTPHandler (h : GatewayHandler) : http_request → svc http_response :=
  HTTPMiddleware (ServeMux (health_routes ++
    [{| rt_method := "POST"; rt_pattern := path ["v1"; "responses"];
        rt_handler := λ _, createResponse h |}])).
