(* ===== verification/AdapterFacts.v ===== *)
(** * What an adapter promises to a gateway

    [adapter_call] is an adapter without HTTP and JSON: what it does for a
    request, and the status it refuses with or the response it has.  The
    handler does that for the request in its body, and so does a gateway that
    invokes it over Dapr. *)

From Stdlib Require Import Ascii.
From S2P Require Import OpenAI OpenAIHttp.
From S2P Require Import Prelude GoStd Json JsonPrefix GoText GoNet GoTime GoFmt Errors Results State Model.
From S2P Require Import Repository Collections Directory Faults System Termination Svc Service Platform Wire WireFacts.
From S2P Require Import Http HttpFacts Registry Dapr DaprFacts Ir IrFacts DaprState AdapterConfig Runtime.
From S2P Require Import Dataplane IrWire IrWireFacts Adapter.

#[local] Arguments bool_decide : simpl never.

(** ** A service with one route besides those of its health *)

Lemma match_path_plain segs p :
  match_path (path segs) p "" = if bool_decide (p = segs) then Some "" else None.
Proof.
  revert p. induction segs as [|s segs IH]; intros [|x p]; try done. cbn [path map match_path].
  destruct (bool_decide (s = x)) eqn:E; [apply bool_decide_eq_true in E as ->|apply bool_decide_eq_false in E].
  - rewrite IH. by destruct (bool_decide_reflect (p = segs)) as [->|];
      [rewrite bool_decide_eq_true_2|rewrite bool_decide_eq_false_2 by congruence].
  - by rewrite bool_decide_eq_false_2 by congruence.
Qed.

Definition one_route (segs : list string) (f : handler) : list route :=
  health_routes ++ [{| rt_method := "POST"; rt_pattern := path segs; rt_handler := λ _, f |}].

Lemma one_route_cases segs id r :
  (Method r = "POST" ∧ Path r = segs ∧ ∀ f, ServeMux (one_route segs f) id r = f id r) ∨
  ∃ response, ∀ f, ServeMux (one_route segs f) id r = mret response.
Proof.
  unfold ServeMux, one_route, health_routes. cbn -[match_path method_matches health path].
  rewrite !match_path_plain.
  assert (method_matches "POST" (Method r) = bool_decide ("POST" = Method r)) as Hpost
    by (unfold method_matches; by rewrite orb_false_r).
  destruct (decide (Method r = "POST" ∧ Path r = segs)) as [[Hm Hp]|Hother].
  - left. split_and!; [done..|]. intros f. rewrite Hm, Hp, (bool_decide_eq_true_2 (segs = segs)) by done.
    change (method_matches "GET" "POST") with false. change (method_matches "POST" "POST") with true.
    by destruct (bool_decide (segs = ["livez"])), (bool_decide (segs = ["readyz"])).
  - right. assert (bool_decide (Path r = segs) && method_matches "POST" (Method r) = false) as Hno.
    { rewrite Hpost. apply andb_false_iff. rewrite !bool_decide_eq_false.
      destruct (decide (Path r = segs)); [right|by left]. naive_solver. }
    destruct (bool_decide (Path r = segs)), (bool_decide (Path r = ["livez"])),
      (bool_decide (Path r = ["readyz"])); cbn -[match_path method_matches health] in Hno |- *;
      destruct (method_matches "GET" (Method r)); rewrite ?Hno; eexists; intros f;
      try (rewrite (bool_decide_eq_false_2 (_ :: _ = [])) by done); done.
Qed.

(** The handler over another client of the provider. *)
Definition with_upstream (h : AdapterHTTPHandler) (f : transport) : AdapterHTTPHandler := {|
  ad_providers := ad_providers h; ad_secrets := ad_secrets h; ad_upstream := f;
  ad_config := ad_config h; ad_readable := ad_readable h |}.

Section adapter.
Context {P R : Type} (api : provider_api P R) (h : AdapterHTTPHandler).

(** ** The contract *)

(** The request a provider gets. *)
Definition sent_upstream (requestID apiKey payload endpoint : string) : outgoing := {|
  Out_Method := "POST"; Out_URL := endpoint;
  Out_Header := [("Content-Type", "application/json"); ("Accept", "application/json")] ++
                api_header api (Runtime_Config (ad_config h)) apiKey requestID;
  Out_Body := payload; Out_Streamed := false |}.

Definition upstream_request (requestID apiKey : string) (request : Request) : Z + outgoing :=
  if eqs (TrimSpace apiKey) "" then inl 502%Z else
  match api_request api (ad_config h) request with
  | inl _ => inl 400%Z
  | inr providerRequest =>
      match api_text api providerRequest with
      | None => inl 500%Z
      | Some payload =>
          match api_endpoint api (Runtime_Config (ad_config h)) request with
          | inl _ => inl 422%Z
          | inr endpoint =>
              if url_parses endpoint then inr (sent_upstream requestID apiKey payload endpoint)
              else inl 500%Z
          end
      end
  end.

Definition provider_outcome (request : Request) (r : error + http_response) : Z + Response :=
  match r with
  | inl _ => inl 502%Z
  | inr response =>
      if negb (ad_readable h response) then inl 502%Z
      else if negb (succeeded (StatusCode response)) then
        inl (if StatusCode response =? 429 then 429 else 502)%Z
      else
        match UnmarshalText (api_zero api) (api_read api)
                (read_limited maxProviderBody (RespBody response)) with
        | None => inl 502%Z
        | Some providerResponse =>
            match api_response api providerResponse request with
            | inl _ => inl 502%Z
            | inr response => inr response
            end
        end
  end.

(** What is refused without a call. *)
Definition acceptable (request : Request) : bool :=
  match Request_Validate request with
  | inl _ => false
  | inr _ => none (api_limit api (ad_config h) request)
  end.

Definition provider_call (requestID : string) (request : Request) (apiKey : error + string)
    : prog (Z + Response) :=
  match apiKey with
  | inl _ => mret (inl 502%Z)
  | inr apiKey =>
      match upstream_request requestID apiKey request with
      | inl status => mret (inl status)
      | inr o => bind_result (ad_upstream h o) (λ r, mret (provider_outcome request r))
      end
  end.

Definition adapter_call (requestID : string) (request : Request) : prog (Z + Response) :=
  if negb (acceptable request) then mret (inl 400%Z) else
  bind_result (ad_providers h (AppID h)) (λ r,
    match r with
    | inl err => mret (inl (if errors_Is err NotFound || errors_Is err Forbidden then 422 else 502)%Z)
    | inr provider =>
        if eqs (Provider_Kind provider) (api_kind api) && addressed h provider request then
          bind_result (ad_secrets h (Cfg_SecretRef (Runtime_Config (ad_config h))))
            (provider_call requestID request)
        else mret (inl 422%Z)
    end).

(** ** The handler keeps it *)

(** The answer that stands for an outcome. *)
Definition represents (q : Z + Response) (response : http_response) : Prop :=
  match q with
  | inl status => StatusCode response = status ∧ succeeded status = false
  | inr r => response = JSON_text 200 (Response_text r)
  end.
(** Every answer of [s] stands for the outcome of [p]. *)
Definition implements {S : Type} `{StateStore S} (s : svc http_response) (p : prog (Z + Response)) : Prop :=
  ∀ (w : world S) r w', exec (atomic s) w r w' →
    ∃ q response, exec p w (inr q) w' ∧ r = inr response ∧ represents q response.

Section implements.
Context {S : Type} `{StateStoreLaws S}.

Lemma implements_ret response q : represents q response → implements (S := S) (mret response) (mret q).
Proof. intros Hq w r w' [-> ->]%exec_Done. exists q, response. split_and!; [constructor|done..]. Qed.

Lemma implements_call {A} (p : prog A) f g :
  (∀ r, implements (S := S) (f r) (g r)) → implements (S := S) (svc_bind_result (call p) f) (bind_result p g).
Proof.
  intros Hf w r w' (q & w1 & Hq & Hr)%exec_bind_result. apply Hf in Hr as (q' & response & Hr & ? & ?).
  exists q', response. split; [|done]. apply exec_bind_result. eauto.
Qed.

Hint Resolve implements_ret : core.
Ltac refuse := by apply implements_ret; split.

Lemma provider_answer_represents id request r : represents (provider_outcome request r)
  match r with
  | inl _ => WriteProblem id 502 "Provider request failed" ("the " +:+ api_name api +:+ " API could not be reached")
  | inr response => provider_answer api h id request response
  end.
Proof.
  destruct r as [e|response]; [by split|]. unfold provider_outcome, provider_answer.
  destruct (ad_readable h response); cbn [negb]; [|by split].
  destruct (succeeded _); cbn [negb]; [|by destruct (_ =? 429)%Z].
  destruct (UnmarshalText _ _ _) as [x|]; [|by split].
  by destruct (api_response api x request); [split|].
Qed.

Lemma send_upstream_implements id apiKey request :
  implements (S := S) (send_upstream api h id apiKey request) (provider_call id request (inr apiKey)).
Proof.
  unfold send_upstream, provider_call, upstream_request.
  destruct (eqs _ _); [refuse|]. destruct (api_request api _ request) as [e|x]; [refuse|].
  destruct (api_text api x) as [payload|]; [|refuse].
  destruct (api_endpoint api _ request) as [e|endpoint]; [refuse|].
  destruct (url_parses endpoint); [|refuse]. cbn [negb]. apply implements_call. intros r.
  apply implements_ret. apply provider_answer_represents.
Qed.

Lemma generate_implements id r request :
  DecodeBody zero_request (read_Request true) (Body r) (MaxBody (ad_config h)) = inr request →
  implements (S := S) (generate api h id r) (adapter_call id request).
Proof.
  intros Hd. unfold generate, adapter_call, acceptable. rewrite Hd.
  destruct (Request_Validate request) as [e|[]]; [refuse|].
  destruct (api_limit api _ request); [refuse|]. cbn [none negb]. apply implements_call.
  intros [e|provider]; [apply implements_ret; by destruct (_ || _)|].
  destruct (eqs (Provider_Kind provider) _); cbn [andb negb]; [|refuse].
  destruct (addressed h provider request); cbn [negb]; [|refuse].
  apply implements_call. intros [e|apiKey]; [refuse|]. apply send_upstream_implements.
Qed.
End implements.

(** ** Who reaches the provider *)

Section outcome.
Context {S : Type} `{StateStore S} (env : environment).
Implicit Types w : world S.

(** What is answered for the outcome of the call of the provider. *)
Definition upstream_answer (id : string) (request : Request) (q : error + http_response) : http_response :=
  match q with
  | inl _ => WriteProblem id 502 "Provider request failed" ("the " +:+ api_name api +:+ " API could not be reached")
  | inr response => provider_answer api h id request response
  end.

(** The conditions under which the provider is asked, and what for. *)
Record permitted (id : string) (r : http_request) (w w1 : world S) (request : Request) (o : outgoing) : Prop := {
  pm_method : Method r = "POST";
  pm_path : Path r = ["v1"; "generate"];
  pm_token : AppToken (ad_config h) = "" ∨ header_get "Dapr-Api-Token" (Header r) = AppToken (ad_config h);
  pm_body : DecodeBody zero_request (read_Request true) (Body r) (MaxBody (ad_config h)) = inr request;
  pm_valid : valid_request request;
  pm_limit : api_limit api (ad_config h) request = None;
  pm_sent : ∃ provider w0 apiKey providerRequest payload endpoint,
    run env (ad_providers h (AppID h)) w = (inr provider, w0) ∧
    Provider_Kind provider = api_kind api ∧ Provider_ID provider = IR_ProviderID (Req_Route request) ∧
    Provider_AdapterAppID provider = AppID h ∧
    run env (ad_secrets h (Cfg_SecretRef (Runtime_Config (ad_config h)))) w0 = (inr apiKey, w1) ∧
    TrimSpace apiKey ≠ "" ∧ api_request api (ad_config h) request = inr providerRequest ∧
    api_text api providerRequest = Some payload ∧
    api_endpoint api (Runtime_Config (ad_config h)) request = inr endpoint ∧
    o = sent_upstream id apiKey payload endpoint
}.

(** An answer for which the provider was not asked, or was asked once. *)
Definition settled (w : world S) (s : transport → svc http_response) : Prop :=
  ∃ response w', ∀ f, run_svc env (s f) w = (inr response, w').
Definition asked_once (id : string) (request : Request) (o : outgoing) (w w1 : world S)
    (s : transport → svc http_response) : Prop :=
  ∀ f, run_svc env (s f) w =
    let '(q, w2) := run env (f o) w1 in (inr (upstream_answer id request q), w2).

Lemma settled_ret response w : settled w (λ _, mret response).
Proof. by exists response, w. Qed.

Lemma send_upstream_outcome id apiKey request w :
  settled w (λ f, send_upstream api (with_upstream h f) id apiKey request) ∨
  ∃ providerRequest payload endpoint,
    TrimSpace apiKey ≠ "" ∧ api_request api (ad_config h) request = inr providerRequest ∧
    api_text api providerRequest = Some payload ∧
    api_endpoint api (Runtime_Config (ad_config h)) request = inr endpoint ∧
    asked_once id request (sent_upstream id apiKey payload endpoint) w w
      (λ f, send_upstream api (with_upstream h f) id apiKey request).
Proof.
  unfold send_upstream. cbn [with_upstream ad_config ad_upstream].
  destruct (eqs _ _) eqn:Hkey; [left; apply settled_ret|].
  destruct (api_request api _ request) as [e|x] eqn:Hx; [left; apply settled_ret|].
  destruct (api_text api x) as [payload|] eqn:Hp; [|left; apply settled_ret].
  destruct (api_endpoint api _ request) as [e|endpoint] eqn:He; [left; apply settled_ret|].
  destruct (url_parses endpoint); [|left; apply settled_ret].
  right. exists x, payload, endpoint. split_and!; [|done..|].
  { intros E. rewrite E in Hkey. done. }
  intros f. cbn [negb]. rewrite run_svc_bind_result, run_svc_call. unfold sent_upstream.
  destruct (run env (f _) w) as [q w2]. by destruct q.
Qed.

(** Past a call that does not depend on the provider. *)
Lemma settled_call {A} (p : prog A) k w r0 w0 : run env p w = (r0, w0) →
  settled w0 (λ f, k f r0) → settled w (λ f, svc_bind_result (call p) (k f)).
Proof.
  intros Hp (response & w' & Hs). exists response, w'. intros f.
  by rewrite run_svc_bind_result, run_svc_call, Hp.
Qed.
Lemma asked_call {A} (p : prog A) k id request o w r0 w0 w1 : run env p w = (r0, w0) →
  asked_once id request o w0 w1 (λ f, k f r0) →
  asked_once id request o w w1 (λ f, svc_bind_result (call p) (k f)).
Proof. intros Hp Hs f. by rewrite run_svc_bind_result, run_svc_call, Hp. Qed.

Lemma generate_outcome id r w :
  Method r = "POST" → Path r = ["v1"; "generate"] →
  AppToken (ad_config h) = "" ∨ header_get "Dapr-Api-Token" (Header r) = AppToken (ad_config h) →
  settled w (λ f, generate api (with_upstream h f) id r) ∨
  ∃ request o w1, permitted id r w w1 request o ∧
    asked_once id request o w w1 (λ f, generate api (with_upstream h f) id r).
Proof.
  intros Hm Hpath Htoken. unfold generate, addressed, AppID. cbn [with_upstream ad_config ad_providers ad_secrets].
  destruct (DecodeBody _ _ _ _) as [e|request] eqn:Hd; [left; apply settled_ret|].
  destruct (Request_Validate request) as [e|[]] eqn:Hv; [left; apply settled_ret|].
  destruct (api_limit api _ request) eqn:Hl; [left; apply settled_ret|].
  set (here := Cfg_AppID _) in *.
  destruct (run env (ad_providers h here) w) as [r0 w0] eqn:Hp.
  destruct r0 as [e|provider]; [left; eapply settled_call; [exact Hp|apply settled_ret]|].
  destruct (eqs (Provider_Kind provider) (api_kind api)) eqn:Hk;
    [|left; eapply settled_call; [exact Hp|]; cbn beta iota; rewrite Hk; apply settled_ret].
  destruct (eqs (Provider_ID provider) (IR_ProviderID (Req_Route request)) && eqs (Provider_AdapterAppID provider) here) eqn:Ha;
    [|left; eapply settled_call; [exact Hp|]; cbn beta iota; rewrite Hk, Ha; apply settled_ret].
  destruct (run env (ad_secrets h (Cfg_SecretRef (Runtime_Config (ad_config h)))) w0) as [r1 w1] eqn:Hs.
  destruct r1 as [e|apiKey];
    [left; eapply settled_call; [exact Hp|]; cbn beta iota; rewrite Hk, Ha; cbn [negb];
     eapply settled_call; [exact Hs|apply settled_ret]|].
  destruct (send_upstream_outcome id apiKey request w1)
    as [Hsettled|(providerRequest & payload & endpoint & Hkey & Hr & Ht & He & Hasked)].
  - left. eapply settled_call; [exact Hp|]; cbn beta iota; rewrite Hk, Ha; cbn [negb].
    eapply settled_call; [exact Hs|exact Hsettled].
  - right. exists request, (sent_upstream id apiKey payload endpoint), w1. split.
    + apply eqs_true in Hk. apply andb_true_iff in Ha as [Hid%eqs_true Happ%eqs_true].
      constructor; [done..|by apply Request_Validate_ok|done|].
      exists provider, w0, apiKey, providerRequest, payload, endpoint. done.
    + eapply asked_call; [exact Hp|]; cbn beta iota; rewrite Hk, Ha; cbn [negb].
      eapply asked_call; [exact Hs|exact Hasked].
Qed.

(** C9.  Who reaches the provider.  Whatever the client of the provider does,
    a request to an adapter is answered without asking the provider, or the
    provider is asked once: for a [POST] of [/v1/generate] with the token of
    the application, when the body is a well-formed request within the limit,
    addressed to the provider of this adapter, which is of its kind, and a
    credential is configured; it gets the translated request at the endpoint of
    the configuration, and its answer alone decides what the gateway gets. *)
Theorem upstream_guarded id r w :
  settled w (λ f, ServeMux (adapter_routes api (with_upstream h f)) id r) ∨
  ∃ request o w1, permitted id r w w1 request o ∧
    asked_once id request o w w1 (λ f, ServeMux (adapter_routes api (with_upstream h f)) id r).
Proof.
  destruct (one_route_cases ["v1"; "generate"] id r) as [(Hm & Hp & Hmux)|[response Hmux]].
  2: { left. exists response, w. intros f. exact (f_equal (λ s, run_svc env s w) (Hmux _)). }
  assert (∀ f, run_svc env (ServeMux (adapter_routes api (with_upstream h f)) id r) w =
    run_svc env (internal (with_upstream h f) (generate api (with_upstream h f)) id r) w) as Hrun.
  { intros f. exact (f_equal (λ s, run_svc env s w) (Hmux _)). }
  unfold settled, asked_once. setoid_rewrite Hrun. unfold internal. cbn [with_upstream ad_config].
  destruct (negb _ && negb _) eqn:Ht; [left; by apply settled_ret|].
  apply generate_outcome; [done..|]. apply andb_false_iff in Ht as [Ht|Ht]; apply negb_false_iff in Ht.
  - left. by apply eqs_true.
  - right. by apply SecureEqual_true.
Qed.
End outcome.
End adapter.

(** ** A gateway that invokes it over Dapr *)

Section client.
Context {S : Type} `{StateStoreLaws S} (c : Client) (app : string).
Implicit Types w : world S.

(** What the client makes of an answer. *)
Definition decoded {A} (zero : A) (read : reader A) (r : error + http_response) : error + A :=
  match r with
  | inl e => inl (Errorf "invoke Dapr app %q: %w" [AStr app; AWrap e])
  | inr response =>
      if negb (succeeded (StatusCode response)) then
        inl (HTTPError (StatusCode response) (error_body response))
      else if (StatusCode response =? 204)%Z then inr zero
      else match DecodeText zero read (RespBody response) with
           | Some (output, _) => inr output
           | None => inl (Errorf "decode response from Dapr app %q: %w" [AStr app; AWrap json_text_error])
           end
  end.

Lemma InvokeJSON_into_exec {A} method body (zero : A) read w r w' :
  exec (InvokeJSON_into c app method (Some body) zero read) w r w' →
  (w' = w ∧ ∃ e, r = inl e) ∨
  ∃ r0, exec (http_do c (sent c app method body)) w r0 w' ∧ r = decoded zero read r0.
Proof.
  unfold InvokeJSON_into. intros [(e & _ & He)|(payload & w0 & Hp & He)]%exec_bind.
  { by apply exec_Done in He as [? _]. }
  apply exec_Done in Hp as [[= ->] ->].
  apply exec_bind in He as [(e & -> & He)|(response & w1 & He & Hs)].
  - apply Invoke_exec in He as [[-> _]|(r0 & Hr0 & Hr)]; [left; eauto|].
    right. exists r0. split; [done|]. by destruct r0; [injection Hr as ->|].
  - assert (w1 = w' ∧ r = decoded zero read (inr response)) as [-> ->].
    { cbn. destruct (succeeded _); cbn [negb] in *; [|by apply exec_Done in Hs as [-> ->]].
      destruct (_ =? 204)%Z; [by apply exec_Done in Hs as [-> ->]|].
      destruct (DecodeText _ _ _) as [[output rest]|]; by apply exec_Done in Hs as [-> ->]. }
    apply Invoke_exec in He as [[_ [e ?]]|(r0 & Hr0 & Hr)]; [done|].
    right. exists r0. split; [done|]. destruct r0; [done|]. by injection Hr as ->.
Qed.

Lemma decoded_unsuccessful {A} (zero : A) read r : unsuccessful r → ∃ e, decoded zero read r = inl e.
Proof. destruct r as [e|response]; cbn; [eauto|]. intros ->. eauto. Qed.

Section adapter.
Context {P R : Type} (api : provider_api P R) (h : AdapterHTTPHandler).
Context (Hdo : delivers (http_do c) (baseURL c) app (AppToken (ad_config h)) (NewAdapterHTTPHandler api h)).

(** What the adapter does for the request of a gateway. *)
Lemma served request t headers w r w' :
  wire_Request (compact_Request request) → Request_text request = Some t →
  (MaxBody (ad_config h) ≤ 0 ∨ Z.of_nat (String.length t) ≤ MaxBody (ad_config h))%Z →
  header_get "Dapr-Api-Token" headers = AppToken (ad_config h) →
  exec (atomic (NewAdapterHTTPHandler api h {|
    Method := "POST"; Path := ["v1"; "generate"]; Header := headers; Body := t |})) w r w' →
  ∃ id q response, exec (adapter_call api h id (compact_Request request)) w (inr q) w' ∧
    represents q response ∧ r = inr (with_header "X-Request-Id" id response).
Proof.
  intros Hw Ht Hfit Htoken (id & r1 & He & Hr)%middleware_exec.
  pose proof (eq_refl : ServeMux (adapter_routes api h) = ServeMux (one_route ["v1"; "generate"] (internal h (generate api h)))) as Hmux.
  rewrite Hmux in He. clear Hmux.
  destruct (request_written true _ Hw) as (t' & Ht' & Hc & Hct). simplify_eq.
  change (exec (atomic (internal h (generate api h) id
    {| Method := "POST"; Path := ["v1"; "generate"]; Header := headers; Body := t |})) w r1 w') in He.
  unfold internal in He. cbn [Header] in He. rewrite Htoken, (proj2 (SecureEqual_true _ _) eq_refl) in He.
  cbn [negb] in He. rewrite andb_false_r in He.
  apply (generate_implements api h id _ (compact_Request request)) in He as (q & response & Hq & -> & Hrep).
  - by exists id, q, response.
  - by apply (DecodeBody_codec Request_text (read_Request true) zero_request).
Qed.

End adapter.
End client.

(** ** An OpenAI Chat adapter behind a sidecar *)

Module AdapterSample.
Definition config (token : string) : AdapterConfig := {|
  Runtime_Config := {|
    Cfg_AppID := "gwai-openai"; Cfg_BaseURL := "https://api.openai.com"; Cfg_APIVersion := "v1";
    Cfg_SecretRef := {| Ref_Store := "secrets"; Ref_Name := "openai"; Ref_Key := "key"; Ref_Namespace := "" |} |};
  MaxBody := 4096; AppToken := token; DefaultMaxOutputTokens := 0; MaxOutputTokens := 0 |}.
Definition provider : Provider := {|
  Provider_ID := "p1"; Provider_Slug := "openai"; Provider_Name := "OpenAI"; Provider_Kind := ProviderKindOpenAIChat;
  Provider_AdapterAppID := "gwai-openai"; Provider_Status := StatusActive;
  Provider_CreatedAt := Sample.time; Provider_UpdatedAt := Sample.time |}.
Definition answer (status : Z) : http_response := {|
  StatusCode := status; RespHeader := [];
  RespBody := JsonRaw.requote "{'id':'c9','object':'chat.completion','created':1,'model':'m-1','choices':[{'index':0,'message':{'role':'assistant','content':'noon'},'finish_reason':'stop'}],'usage':{'prompt_tokens':3,'completion_tokens':1,'total_tokens':4}}" |}.
Definition adapter (status : Z) : AdapterHTTPHandler := {|
  ad_providers := λ _, mret provider; ad_secrets := λ _, mret "sk-1";
  ad_upstream := λ _, mret (answer status); ad_config := config "secret"; ad_readable := λ _, true |}.
Definition base : string := "http://127.0.0.1:3500".
Definition client (status : Z) : Client :=
  New (base +:+ "/") "dapr"
    (local_sidecar base "gwai-openai" "secret" (NewAdapterHTTPHandler openai_api (adapter status))).
End AdapterSample.

Module SampleCall.
Definition call : http_request := {|
  Method := "POST"; Path := ["v1"; "generate"]; Header := [("Dapr-Api-Token", "secret")];
  Body := default "" (Request_text CrossingSample.request) |}.
(** The status of the answer, when the provider answers [status]. *)
Definition status_of (status : Z) : Z :=
  match (run_svc Sample.env (ServeMux (adapter_routes openai_api (with_upstream (AdapterSample.adapter 200)
           (λ _, mret (AdapterSample.answer status)))) "req-1" call) Sample.world0).1 with
  | inr response => StatusCode response
  | inl _ => 0%Z
  end.
End SampleCall.

(** The sample adapter does ask its provider. *)
Lemma upstream_guarded_witness : ∃ request o w1,
  permitted openai_api (AdapterSample.adapter 200) Sample.env "req-1" SampleCall.call Sample.world0 w1 request o ∧
  Out_URL o = "https://api.openai.com/v1/chat/completions".
Proof.
  destruct (upstream_guarded openai_api (AdapterSample.adapter 200) Sample.env "req-1" SampleCall.call
    Sample.world0) as [(response & w' & Hs)|(request & o & w1 & Hp & _)].
  - exfalso. assert (Hstatus : ∀ status, SampleCall.status_of status = StatusCode response).
    { intros status. unfold SampleCall.status_of. rewrite Hs. reflexivity. }
    assert (E : (SampleCall.status_of 200, SampleCall.status_of 429) = (200, 429)%Z) by by_vm.
    rewrite !Hstatus in E. injection E as E1 E2. rewrite E1 in E2. discriminate E2.
  - exists request, o, w1. split; [exact Hp|].
    destruct (pm_sent _ _ _ _ _ _ _ _ _ Hp)
      as (? & ? & ? & ? & ? & endpoint & _ & _ & _ & _ & _ & _ & _ & _ & He & ->).
    cbn [sent_upstream Out_URL]. injection He as <-. reflexivity.
Defined.

Example generated_over_dapr :
  (run Sample.env (dapr_invoker (AdapterSample.client 200) "gwai-openai" "/v1/generate" CrossingSample.request)
     Sample.world0).1 = inr CrossingSample.response.
Proof. by_vm. Qed.

Example rate_limited_over_dapr :
  match (run Sample.env (dapr_invoker (AdapterSample.client 429) "gwai-openai" "/v1/generate"
           CrossingSample.request) Sample.world0).1 with
  | inl e => errors_As as_http e
  | inr _ => None
  end = Some 429%Z.
Proof. by_vm. Qed.

(** Without the blanks of the raw messages. *)
Lemma sample_text : ∃ t, Request_text CrossingSample.request = Some t ∧
  (Z.of_nat (String.length t) ≤ MaxBody (ad_config (AdapterSample.adapter 200)))%Z.
Proof.
  destruct (request_written true _ wire_sample_request) as (t & Ht & _). exists t. split; [done|].
  assert (E : (if Request_text CrossingSample.request is Some t
    then Z.of_nat (String.length t) <=? 4096 else false)%Z = true) by by_vm.
  rewrite Ht in E. by apply Z.leb_le.
Qed.

