(* ===== verification/GatewayFacts.v ===== *)
(** * The four gateways over HTTP

    What a client gets for a failed generation, from each gateway, and a
    generation that goes all the way: a Chat request, the gateway, the adapter
    of a Gemini provider behind its sidecar, and back. *)

From Stdlib Require Import Ascii.
From S2P Require Import OpenAI OpenAIHttp Anthropic AnthropicHttp Gemini GeminiHttp Responses ResponsesHttp.
From S2P Require Import Prelude GoStd Json JsonRaw GoText GoTime Errors Results State Model Repository.
From S2P Require Import Directory Svc Service Platform Wire Http Registry Dapr DaprFacts Ir DaprState AdapterConfig.
From S2P Require Import Runtime Faults System RuntimeFacts Protocol Concurrency EndToEnd Dataplane IrWire Adapter AdapterFacts.

#[local] Arguments bool_decide : simpl never.

(** ** Errors *)

(** The status for an error of [Dispatcher.Generate], the same in every
    protocol. *)
Definition gateway_status (err : error) : Z :=
  if errors_As as_translation err is Some _ then 400
  else if errors_As as_validation err is Some _ then 400
  else if errors_Is err Unauthorized then 401
  else if errors_Is err Forbidden then 403
  else if errors_Is err NotFound then 404
  else if (if errors_As as_http err is Some status then status =? 429 else false)%Z then 429
  else 502.
Definition timed_out (err : error) : bool :=
  (gateway_status err =? 502)%Z && if errors_As as_deadline err is Some _ then true else false.

(** The classes of an error, in the order they are tested in. *)
Ltac error_class err :=
  destruct (errors_As as_translation err) as [[[[? ?] ?] ?]|];
  [|destruct (errors_As as_validation err) as [[[? ?] ?]|];
    [|destruct (errors_Is err Unauthorized);
      [|destruct (errors_Is err Forbidden);
        [|destruct (errors_Is err NotFound);
          [|destruct (if errors_As as_http err is Some status then status =? 429 else false)%Z]]]]].

(** An error of each class. *)
Definition representative (status : Z) : error :=
  if (status =? 401)%Z then ErrUnauthorized else if (status =? 403)%Z then ErrForbidden
  else if (status =? 404)%Z then ErrNotFound else if (status =? 429)%Z then HTTPError 429 ""
  else NewError "".

(** A writer whose status is that of the class, and whose answer, but for a
    400, is that of the class. *)
Definition by_class (write : error → http_response) : Prop := ∀ err,
  StatusCode (write err) = gateway_status err ∧
  (gateway_status err ≠ 400%Z → write err = write (representative (gateway_status err))).

Lemma by_class_same write err err' : by_class write →
  gateway_status err' = gateway_status err → gateway_status err ≠ 400%Z → write err' = write err.
Proof. intros Hw E Hn. by rewrite (proj2 (Hw err) Hn), (proj2 (Hw err')), E by by rewrite E. Qed.

Lemma chat_by_class : by_class OpenAIHttp.writeRuntimeError.
Proof.
  intros err. unfold OpenAIHttp.writeRuntimeError at 1 2, gateway_status.
  error_class err; (split; [reflexivity|]); intros Hn; [by destruct Hn|by destruct Hn|reflexivity..].
Qed.
Lemma messages_by_class id : by_class (AnthropicHttp.writeRuntimeError id).
Proof.
  intros err. unfold AnthropicHttp.writeRuntimeError at 1 2, gateway_status.
  error_class err; (split; [unfold AnthropicHttp.writeError, with_request_id;
    destruct (bool_decide (id = "")); reflexivity|]);
    intros Hn; [by destruct Hn|by destruct Hn|reflexivity..].
Qed.
Lemma responses_by_class : by_class ResponsesHttp.writeRuntimeError.
Proof.
  intros err. unfold ResponsesHttp.writeRuntimeError at 1 2, gateway_status.
  error_class err; (split; [reflexivity|]); intros Hn; [by destruct Hn|by destruct Hn|reflexivity..].
Qed.

(** The Gemini gateway has one more class. *)
Definition deadline_reached : http_response :=
  GeminiHttp.writeError 504 "DEADLINE_EXCEEDED" "the request exceeded its deadline".
Lemma gemini_by_class err :
  StatusCode (GeminiHttp.writeRuntimeError err) = (if timed_out err then 504 else gateway_status err)%Z ∧
  (gateway_status err ≠ 400%Z → GeminiHttp.writeRuntimeError err =
     if timed_out err then deadline_reached else GeminiHttp.writeRuntimeError (representative (gateway_status err))).
Proof.
  unfold GeminiHttp.writeRuntimeError at 1 2, timed_out, gateway_status.
  error_class err; [..|destruct (errors_As as_deadline err)]; (split; [reflexivity|]); intros Hn;
    [by destruct Hn|by destruct Hn|reflexivity..].
Qed.

(** C27.  What a client gets for a failed generation.  The four gateways answer
    with the same status for the same error: 400 for a request that cannot be
    translated or is not valid, 401, 403 and 404 for a key, a permission or a
    model that does not do, 429 when the adapter reported a rate limit, 502
    otherwise, where the Gemini gateway tells a deadline apart.  Only a 400
    depends on the error beyond that: nothing else about it is disclosed. *)
Theorem gateway_errors id err :
  (StatusCode (OpenAIHttp.writeRuntimeError err) = gateway_status err ∧
   StatusCode (AnthropicHttp.writeRuntimeError id err) = gateway_status err ∧
   StatusCode (ResponsesHttp.writeRuntimeError err) = gateway_status err ∧
   StatusCode (GeminiHttp.writeRuntimeError err) = if timed_out err then 504 else gateway_status err)%Z ∧
  ∀ err', gateway_status err' = gateway_status err → gateway_status err ≠ 400%Z →
    OpenAIHttp.writeRuntimeError err' = OpenAIHttp.writeRuntimeError err ∧
    AnthropicHttp.writeRuntimeError id err' = AnthropicHttp.writeRuntimeError id err ∧
    ResponsesHttp.writeRuntimeError err' = ResponsesHttp.writeRuntimeError err ∧
    (timed_out err' = timed_out err → GeminiHttp.writeRuntimeError err' = GeminiHttp.writeRuntimeError err).
Proof.
  destruct (chat_by_class err) as [Hc _], (messages_by_class id err) as [Hm _],
    (responses_by_class err) as [Hr _], (gemini_by_class err) as [Hg Hg'].
  split; [done|]. intros err' E Hn.
  split_and!; [by apply (by_class_same _ _ _ chat_by_class)|
    by apply (by_class_same _ _ _ (messages_by_class id))|
    by apply (by_class_same _ _ _ responses_by_class)|].
  intros Ht. destruct (gemini_by_class err') as [_ Hg'']. rewrite Hg', Hg'' by congruence. by rewrite E, Ht.
Qed.

Lemma gateway_errors_witness :
  gateway_status (HTTPError 429 "slow down") = gateway_status (Errorf "generate: %w" [AWrap (HTTPError 429 "")]) ∧
  OpenAIHttp.writeRuntimeError (HTTPError 429 "slow down") =
    OpenAIHttp.writeRuntimeError (Errorf "generate: %w" [AWrap (HTTPError 429 "")]).
Proof.
  split; [reflexivity|].
  refine (proj1 (proj2 (gateway_errors "" (Errorf "generate: %w" [AWrap (HTTPError 429 "")]))
    (HTTPError 429 "slow down") _ _)); [reflexivity|discriminate].
Defined.

(** ** From a Chat client to a Gemini provider and back *)

Module GatewaySample.
Definition config : AdapterConfig := {|
  Runtime_Config := {|
    Cfg_AppID := "acme-adapter"; Cfg_BaseURL := "https://generativelanguage.googleapis.com";
    Cfg_APIVersion := "v1beta";
    Cfg_SecretRef := {| Ref_Store := "secrets"; Ref_Name := "gemini"; Ref_Key := "key"; Ref_Namespace := "" |} |};
  MaxBody := 65536; AppToken := "secret"; DefaultMaxOutputTokens := 100; MaxOutputTokens := 200 |}.
Definition answer (status : Z) : http_response := {|
  StatusCode := status; RespHeader := [];
  RespBody := requote "{'candidates':[{'content':{'role':'model','parts':[{'text':'noon'}]},'finishReason':'STOP'}],'usageMetadata':{'promptTokenCount':3,'candidatesTokenCount':1,'totalTokenCount':4},'responseId':'g1'}" |}.
(** A provider that answers [status] to the request it is to get. *)
Definition provider (status : Z) : transport := λ o, mret (answer
  (if eqs (Out_Method o) "POST" &&
      eqs (Out_URL o) "https://generativelanguage.googleapis.com/v1beta/models/fast:generateContent" &&
      eqs (header_get "X-Goog-Api-Key" (Out_Header o)) "sk-1" &&
      eqs (Out_Body o) (requote
        "{'contents':[{'role':'user','parts':[{'text':'time?'}]}],'generationConfig':{'maxOutputTokens':100}}")
   then status else 404)%Z).
Definition adapter (upstream : transport) : AdapterHTTPHandler := {|
  ad_providers := ResolveProviderByAdapterAppID ProviderState; ad_secrets := λ _, mret "sk-1";
  ad_upstream := upstream; ad_config := config; ad_readable := λ _, true |}.
Definition base : string := "http://127.0.0.1:3500".
Definition client (upstream : transport) : Client :=
  New base "dapr" (local_sidecar base "acme-adapter" "secret"
    (NewAdapterHTTPHandler gemini_api (adapter upstream))).
Definition gateway_of (upstream : transport) : HTTPHandler := {|
  h_dispatcher := {| runtime := gateway gateway_runtime; invoker := dapr_invoker (client upstream) |};
  h_maxBody := 65536 |}.
Definition chat (authorization : string) : http_request := {|
  Method := "POST"; Path := ["v1"; "chat"; "completions"];
  Header := [("Authorization", authorization); ("X-Request-Id", "req-1")];
  Body := requote "{'model':'fast','messages':[{'role':'user','content':'time?'}]}" |}.
Definition serve (upstream : transport) (authorization : string) : (error + http_response) * _ :=
  run_svc Sample.env (NewHTTPHandler (gateway_of upstream) (chat authorization)) (stores SystemSample.ready).
End GatewaySample.

Definition reply (r : (error + http_response) * world Memory.MemoryStore) : Z * string :=
  match r.1 with inl _ => (0%Z, "") | inr response => (StatusCode response, RespBody response) end.

Example chat_through_gemini :
  map (λ status, reply (GatewaySample.serve (GatewaySample.provider status) ("Bearer " +:+ SystemSample.token)))
    [200; 429; 503]%Z =
  [(200, requote "{'id':'chatcmpl_01010101010101010101010101010101','object':'chat.completion','created':1767323045,'model':'fast','choices':[{'index':0,'message':{'role':'assistant','content':'noon'},'finish_reason':'stop'}],'usage':{'prompt_tokens':3,'completion_tokens':1,'total_tokens':4},'system_fingerprint':null}" +:+ newline);
   (429, requote "{'error':{'message':'The upstream provider rate limit was exceeded','type':'rate_limit_error','param':null,'code':'rate_limit_exceeded'}}" +:+ newline);
   (502, requote "{'error':{'message':'The gateway could not complete the upstream request','type':'api_error','param':null,'code':'upstream_error'}}" +:+ newline)]%Z.
Proof. by_vm. Qed.

(** Without a known key nothing is asked of anyone. *)
Example chat_without_key :
  map (λ authorization, (reply (GatewaySample.serve (GatewaySample.provider 200) authorization)).1)
    ["Bearer x"; "Basic x"; ""] = [401; 401; 401]%Z.
Proof. by_vm. Qed.
