(* ===== verification/Session.v ===== *)
(** * Browser sessions of the administration UI ([internal/adminui/session.go])

    The store of sessions: every operation takes its mutex, so it is one
    atomic function of the state.  The clock and the random reader are an
    [environment], called in order. *)

From S2P Require Import Prelude GoStd GoText GoTime Errors State Platform.

(** ** Functions of a state *)

Definition stateful (S A : Type) : Type := S → A * S.
#[export] Instance stateful_ret S : MRet (stateful S) := λ A a s, (a, s).
#[export] Instance stateful_bind S : MBind (stateful S) := λ A B f m s,
  let '(a, s') := m s in f a s'.

#[export] Instance stateful_fmap S : FMap (stateful S) := λ A B f m s,
  let '(a, s') := m s in (f a, s').

Definition reads {S A} (f : S → A) : stateful S A := λ s, (f s, s).
Definition writes {S} (f : S → S) : stateful S unit := λ s, (tt, f s).

(** ** The data *)

Definition sessionIDBytes : nat := 32.
Definition csrfTokenBytes : nat := 32.
Definition operationTokenBytes : nat := 24.
Definition defaultMaxSessions : nat := 4096.
Definition maxPendingKeyCreations : nat := 8.
(** Durations are in nanoseconds. *)
Definition Minute : Z := 60000000000.
Definition keyCreationTokenLifetime : Z := 15 * Minute.

Record flashMessage := { Kind : string; Message : string }.

Record storedSession := {
  Authenticated : bool; CSRFToken : string; ExpiresAt : Time; Flashes : list flashMessage;
  KeyCreationToken : gmap string Time
}.

Record sessionSnapshot := {
  Snap_ID : string; Snap_Authenticated : bool; Snap_CSRFToken : string; Snap_ExpiresAt : Time
}.

(** The sessions, and how often the clock and the reader were called. *)
Record sessionStore := {
  sessions : gmap string storedSession; now_calls : nat; read_calls : nat
}.

Definition newSessionStore : sessionStore := {| sessions := ∅; now_calls := 0; read_calls := 0 |}.

Definition set_sessions (m : gmap string storedSession) (s : sessionStore) : sessionStore :=
  {| sessions := m; now_calls := now_calls s; read_calls := read_calls s |}.

Definition set_flashes (l : list flashMessage) (s : storedSession) : storedSession := {|
  Authenticated := Authenticated s; CSRFToken := CSRFToken s; ExpiresAt := ExpiresAt s; Flashes := l;
  KeyCreationToken := KeyCreationToken s |}.
Definition set_tokens (m : gmap string Time) (s : storedSession) : storedSession := {|
  Authenticated := Authenticated s; CSRFToken := CSRFToken s; ExpiresAt := ExpiresAt s;
  Flashes := Flashes s; KeyCreationToken := m |}.

Section store.
Context (env : environment) (ttl : Z) (maxSessions : nat).

Definition now : stateful sessionStore Time := λ s,
  (clock env (now_calls s),
   {| sessions := sessions s; now_calls := S (now_calls s); read_calls := read_calls s |}).

Definition randomToken (size : nat) : stateful sessionStore (error + string) := λ s,
  (match random env (read_calls s) size with
   | inl e => inl e
   | inr value => inr (RawURLEncode value)
   end,
   {| sessions := sessions s; now_calls := now_calls s; read_calls := S (read_calls s) |}).

(** ** The operations *)

Definition live_tokens (now : Time) (m : gmap string Time) : gmap string Time :=
  filter (λ kv, After kv.2 now = true) m.
Definition live_sessions (now : Time) (m : gmap string storedSession) : gmap string storedSession :=
  filter (λ kv, After (ExpiresAt kv.2) now = true) m.

Definition cleanupLocked (now : Time) : stateful sessionStore unit := writes (λ s,
  set_sessions ((λ session, set_tokens (live_tokens now (KeyCreationToken session)) session) <$>
                live_sessions now (sessions s)) s).

(** The rounds of [create]. *)
Fixpoint create_attempts (fuel : nat) (authenticated : bool) (now : Time)
    : stateful sessionStore (error + sessionSnapshot) :=
  match fuel with
  | O => mret (inl (NewError "could not allocate a unique session"))
  | S fuel' =>
      id ← randomToken sessionIDBytes;
      match id with
      | inl e => mret (inl e)
      | inr id =>
          stored ← reads (λ s, sessions s !! id);
          match stored with
          | Some _ => create_attempts fuel' authenticated now
          | None =>
              csrf ← randomToken csrfTokenBytes;
              match csrf with
              | inl e => mret (inl e)
              | inr csrf =>
                  let expires := Add now ttl in
                  _ ← writes (λ s, set_sessions (<[id := {|
                        Authenticated := authenticated; CSRFToken := csrf; ExpiresAt := expires;
                        Flashes := []; KeyCreationToken := ∅ |}]> (sessions s)) s);
                  mret (inr {| Snap_ID := id; Snap_Authenticated := authenticated;
                               Snap_CSRFToken := csrf; Snap_ExpiresAt := expires |})
              end
          end
      end
  end.

Definition create (authenticated : bool) : stateful sessionStore (error + sessionSnapshot) :=
  now ← now;
  _ ← cleanupLocked now;
  count ← reads (λ s, size (sessions s));
  if (maxSessions <=? count)%nat then mret (inl (NewError "session capacity reached"))
  else create_attempts 4 authenticated now.

Definition snapshot (id : string) (stored : storedSession) : sessionSnapshot := {|
  Snap_ID := id; Snap_Authenticated := Authenticated stored; Snap_CSRFToken := CSRFToken stored;
  Snap_ExpiresAt := ExpiresAt stored |}.

Definition load (id : string) : stateful sessionStore (option sessionSnapshot) :=
  if bool_decide (id = "") then mret None
  else
    now ← now;
    _ ← cleanupLocked now;
    stored ← reads (λ s, sessions s !! id);
    mret (snapshot id <$> stored).

Definition verifyCSRF (id candidate : string) : stateful sessionStore bool :=
  loaded ← load id;
  mret match loaded with
       | Some s => negb (bool_decide (candidate = "")) && SecureEqual (Snap_CSRFToken s) candidate
       | None => false
       end.

Definition destroy (id : string) : stateful sessionStore unit :=
  writes (λ s, set_sessions (delete id (sessions s)) s).

(** [stored, ok := s.sessions[id]; !ok || !stored.ExpiresAt.After(s.now())]:
    the clock is only read for a stored session. *)
Definition current (id : string) : stateful sessionStore (option storedSession) :=
  stored ← reads (λ s, sessions s !! id);
  match stored with
  | None => mret None
  | Some stored => now ← now; mret (if After (ExpiresAt stored) now then Some stored else None)
  end.

Definition addFlash (id : string) (flash : flashMessage) : stateful sessionStore unit :=
  stored ← current id;
  match stored with
  | None => mret tt
  | Some stored => writes (λ s,
      set_sessions (<[id := set_flashes (Flashes stored ++ [flash]) stored]> (sessions s)) s)
  end.

Definition takeFlashes (id : string) : stateful sessionStore (list flashMessage) :=
  stored ← current id;
  match stored with
  | None => mret []
  | Some stored =>
      _ ← writes (λ s, set_sessions (<[id := set_flashes [] stored]> (sessions s)) s);
      mret (Flashes stored)
  end.

(** The session of [id] at [now], when it is authenticated and has not expired. *)
Definition authenticated_at (id : string) (now : Time) (s : sessionStore) : option storedSession :=
  match sessions s !! id with
  | Some stored => if Authenticated stored && After (ExpiresAt stored) now then Some stored else None
  | None => None
  end.

Definition put_tokens (id : string) (stored : storedSession) (tokens : gmap string Time)
    : stateful sessionStore unit :=
  writes (λ s, set_sessions (<[id := set_tokens tokens stored]> (sessions s)) s).

(** The rounds of [issueKeyCreationToken]. *)
Fixpoint issue_attempts (fuel : nat) (id : string) (stored : storedSession) (now : Time)
    : stateful sessionStore (error + string) :=
  match fuel with
  | O => mret (inl (NewError "could not allocate a unique key-creation token"))
  | S fuel' =>
      token ← randomToken operationTokenBytes;
      match token with
      | inl e => mret (inl e)
      | inr token =>
          match KeyCreationToken stored !! token with
          | Some _ => issue_attempts fuel' id stored now
          | None =>
              let expires := Add now keyCreationTokenLifetime in
              let expires := if After expires (ExpiresAt stored) then ExpiresAt stored else expires in
              _ ← put_tokens id stored (<[token := expires]> (KeyCreationToken stored));
              mret (inr token)
          end
      end
  end.

Definition issueKeyCreationToken (id : string) : stateful sessionStore (error + string) :=
  now ← now;
  stored ← reads (authenticated_at id now);
  match stored with
  | None => mret (inl (NewError "authenticated session is required"))
  | Some stored =>
      let tokens := live_tokens now (KeyCreationToken stored) in
      _ ← put_tokens id stored tokens;
      if (maxPendingKeyCreations <=? size tokens)%nat then
        mret (inl (NewError "too many pending key-creation forms"))
      else issue_attempts 4 id (set_tokens tokens stored) now
  end.

Definition consumeKeyCreationToken (id candidate : string) : stateful sessionStore bool :=
  if bool_decide (candidate = "") then mret false
  else
    now ← now;
    stored ← reads (authenticated_at id now);
    match stored with
    | None => mret false
    | Some stored =>
        _ ← put_tokens id stored (delete candidate (KeyCreationToken stored));
        mret match KeyCreationToken stored !! candidate with
             | Some expiresAt => After expiresAt now
             | None => false
             end
    end.

Definition randomValue (size : nat) : stateful sessionStore (error + string) := randomToken size.

End store.
