(* ===== verification/SessionFacts.v ===== *)
(** * Sessions and one-time tokens

    Histories of the session store: what a session is, when a key-creation
    token is accepted, and the bounds of the store. *)

From S2P Require Import Prelude GoStd GoText GoTime Errors State Platform HttpFacts Session.

#[local] Arguments bool_decide : simpl never.

(** The operations of the store and what they return. *)
Inductive session_op : Type :=
| OpCreate (authenticated : bool) | OpLoad (id : string) | OpVerify (id candidate : string)
| OpDestroy (id : string) | OpFlash (id : string) (flash : flashMessage) | OpTake (id : string)
| OpIssue (id : string) | OpConsume (id candidate : string) | OpRandom (size : nat).
Inductive session_out : Type :=
| OutCreated (r : error + sessionSnapshot) | OutLoaded (o : option sessionSnapshot)
| OutBool (b : bool) | OutUnit | OutFlashes (l : list flashMessage) | OutText (r : error + string).

(** An operation, what it returned, and the time of the clock when it started. *)
Record event := { ev_op : session_op; ev_out : session_out; ev_time : Time }.

Section facts.
Context (env : environment) (ttl : Z) (maxSessions : nat).
Implicit Types st : sessionStore.

Definition perform (op : session_op) : stateful sessionStore session_out :=
  match op with
  | OpCreate authenticated => OutCreated <$> create env ttl maxSessions authenticated
  | OpLoad id => OutLoaded <$> load env id
  | OpVerify id candidate => OutBool <$> verifyCSRF env id candidate
  | OpDestroy id => (λ _, OutUnit) <$> destroy id
  | OpFlash id flash => (λ _, OutUnit) <$> addFlash env id flash
  | OpTake id => OutFlashes <$> takeFlashes env id
  | OpIssue id => OutText <$> issueKeyCreationToken env id
  | OpConsume id candidate => OutBool <$> consumeKeyCreationToken env id candidate
  | OpRandom size => OutText <$> randomValue env size
  end.

Definition starts (st : sessionStore) : Time := clock env (now_calls st).

Inductive history : list event → sessionStore → Prop :=
| history_start : history [] newSessionStore
| history_step h st op out st' :
    history h st → perform op st = (out, st') →
    history (h ++ [{| ev_op := op; ev_out := out; ev_time := starts st |}]) st'.

(** ** What an operation does to the sessions *)

Definition same_session (s s' : storedSession) : Prop :=
  Authenticated s' = Authenticated s ∧ CSRFToken s' = CSRFToken s ∧ ExpiresAt s' = ExpiresAt s.

(** A session was there before, with its tokens unless it was given a new one. *)
Record kept (st : sessionStore) (op : session_op) (out : session_out) (id : string)
    (s s' : storedSession) : Prop := {
  kp_same : same_session s s';
  kp_tokens token exp : KeyCreationToken s' !! token = Some exp →
    KeyCreationToken s !! token = Some exp ∨
    op = OpIssue id ∧ out = OutText (inr token) ∧ (ns exp <= ns (starts st) + keyCreationTokenLifetime)%Z;
  kp_consumed token : op = OpConsume id token → out = OutBool true →
    KeyCreationToken s' !! token = None;
  kp_destroyed : op ≠ OpDestroy id;
  kp_size : (size (KeyCreationToken s) <= maxPendingKeyCreations →
             size (KeyCreationToken s') <= maxPendingKeyCreations)%nat
}.

Definition fresh (st : sessionStore) (op : session_op) (out : session_out) (id : string)
    (s' : storedSession) : Prop :=
  op = OpCreate (Authenticated s') ∧ out = OutCreated (inr (snapshot id s')) ∧
  KeyCreationToken s' = ∅ ∧ ExpiresAt s' = Add (starts st) ttl.

Definition effect (st : sessionStore) (op : session_op) (out : session_out) (st' : sessionStore) : Prop :=
  (∀ id s', sessions st' !! id = Some s' →
     (∃ s, sessions st !! id = Some s ∧ kept st op out id s s') ∨ fresh st op out id s') ∧
  (size (sessions st) <= maxSessions → size (sessions st') <= maxSessions)%nat.

Lemma kept_same st op out id s :
  op ≠ OpDestroy id → (∀ token, op = OpConsume id token → out ≠ OutBool true) → kept st op out id s s.
Proof. intros H1 H2. constructor; auto; [done|]. intros token Ho Hr. by destruct (H2 token). Qed.

(** The sessions are the same. *)
Lemma effect_none st op out st' :
  sessions st' = sessions st → (∀ id, op ≠ OpDestroy id) →
  (∀ id token, op = OpConsume id token → out ≠ OutBool true) → effect st op out st'.
Proof.
  intros E H1 H2. split; rewrite E; [|done]. intros id s Hs. left. exists s.
  split; [done|]. apply kept_same; eauto.
Qed.

Lemma live_tokens_sub now m token exp :
  live_tokens now m !! token = Some exp → m !! token = Some exp.
Proof. unfold live_tokens. rewrite map_lookup_filter_Some. by intros []. Qed.
Lemma live_tokens_size now m : (size (live_tokens now m) <= size m)%nat.
Proof.
  apply map_subseteq_size, map_filter_subseteq.
Qed.

(** The map a cleanup leaves. *)
Definition cleaned (now : Time) (m : gmap string storedSession) : gmap string storedSession :=
  (λ session, set_tokens (live_tokens now (KeyCreationToken session)) session) <$> live_sessions now m.

Lemma cleaned_lookup now m id s' :
  cleaned now m !! id = Some s' ↔
  ∃ s, m !! id = Some s ∧ After (ExpiresAt s) now = true ∧
    s' = set_tokens (live_tokens now (KeyCreationToken s)) s.
Proof.
  unfold cleaned, live_sessions. rewrite lookup_fmap_Some. setoid_rewrite map_lookup_filter_Some. cbn.
  naive_solver.
Qed.
Lemma cleaned_size now m : (size (cleaned now m) <= size m)%nat.
Proof.
  unfold cleaned. rewrite map_size_fmap. apply map_subseteq_size, map_filter_subseteq.
Qed.

Lemma kept_cleaned st op out id s now :
  op ≠ OpDestroy id → (∀ token, op = OpConsume id token → out ≠ OutBool true) →
  kept st op out id s (set_tokens (live_tokens now (KeyCreationToken s)) s).
Proof.
  intros H1 H2. constructor; [by split_and!| | |done|].
  - intros token exp Ht. left. exact (live_tokens_sub _ _ _ _ Ht).
  - intros token Ho Hr. by destruct (H2 token).
  - intros Hs. cbn. pose proof (live_tokens_size now (KeyCreationToken s)). lia.
Qed.

Lemma effect_cleaned st op out st' :
  sessions st' = cleaned (starts st) (sessions st) → (∀ id, op ≠ OpDestroy id) →
  (∀ id token, op = OpConsume id token → out ≠ OutBool true) → effect st op out st'.
Proof.
  intros E H1 H2. split; rewrite E.
  - intros id s' (s & Hs & _ & ->)%cleaned_lookup. left. exists s. split; [done|].
    apply kept_cleaned; eauto.
  - intros Hsz. pose proof (cleaned_size (starts st) (sessions st)). lia.
Qed.

(** One session was replaced. *)
Lemma effect_replaced st op out st' id s s' :
  sessions st !! id = Some s → kept st op out id s s' → (∀ id, op ≠ OpDestroy id) →
  (∀ id' token, op = OpConsume id' token → id' = id) →
  sessions st' = <[id := s']> (sessions st) → effect st op out st'.
Proof.
  intros Hs Hk H1 H2 E. split; rewrite E.
  - intros i x. rewrite lookup_insert_Some. intros [[<- <-]|[Hne Hx]]; left; [by exists s|].
    exists x. split; [done|]. apply kept_same; [done|]. intros token Ho. by destruct (H2 _ _ Ho).
  - intros Hsz. rewrite map_size_insert_Some by by exists s. done.
Qed.

(** ** Each operation *)

Lemma create_attempts_effect fuel authenticated now st r st' :
  create_attempts env ttl fuel authenticated now st = (r, st') →
  match r with
  | inl _ => sessions st' = sessions st
  | inr snap => ∃ s, snap = snapshot (Snap_ID snap) s ∧ Authenticated s = authenticated ∧
      KeyCreationToken s = ∅ ∧ ExpiresAt s = Add now ttl ∧
      sessions st !! Snap_ID snap = None ∧ sessions st' = <[Snap_ID snap := s]> (sessions st)
  end.
Proof.
  revert st. induction fuel as [|fuel IH]; intros st; cbn [create_attempts]; [by intros [= <- <-]|].
  unfold mbind, stateful_bind, randomToken, reads, writes, mret, stateful_ret. cbn.
  destruct (random env (read_calls st) sessionIDBytes) as [e|v]; cbn; [by intros [= <- <-]|].
  destruct (sessions st !! RawURLEncode v) as [old|] eqn:Hnew.
  - intros H. by apply (IH {| sessions := sessions st; now_calls := now_calls st;
      read_calls := S (read_calls st) |}).
  - cbn. destruct (random env (S (read_calls st)) csrfTokenBytes) as [e|c]; cbn; [by intros [= <- <-]|].
    intros [= <- <-]. cbn. by eexists {| Authenticated := authenticated |}.
Qed.

Lemma load_effect id st r st' :
  load env id st = (r, st') →
  (id = "" ∧ r = None ∧ st' = st) ∨
  (id ≠ "" ∧ sessions st' = cleaned (starts st) (sessions st) ∧
   r = snapshot id <$> sessions st' !! id).
Proof.
  unfold load. destruct (bool_decide (id = "")) eqn:E.
  - apply bool_decide_eq_true in E. intros [= <- <-]. by left.
  - apply bool_decide_eq_false in E. intros [= <- <-]. by right.
Qed.

Lemma issue_attempts_effect fuel id stored now st r st' :
  issue_attempts env fuel id stored now st = (r, st') →
  match r with
  | inl _ => sessions st' = sessions st
  | inr token => ∃ exp, (ns exp <= ns now + keyCreationTokenLifetime)%Z ∧
      KeyCreationToken stored !! token = None ∧
      sessions st' = <[id := set_tokens (<[token := exp]> (KeyCreationToken stored)) stored]> (sessions st)
  end.
Proof.
  revert st. induction fuel as [|fuel IH]; intros st; cbn [issue_attempts]; [by intros [= <- <-]|].
  unfold mbind, stateful_bind, randomToken, put_tokens, writes, mret, stateful_ret. cbn.
  destruct (random env (read_calls st) operationTokenBytes) as [e|v]; cbn; [by intros [= <- <-]|].
  destruct (KeyCreationToken stored !! RawURLEncode v) as [old|] eqn:Hnew.
  - intros H. by apply (IH {| sessions := sessions st; now_calls := now_calls st;
      read_calls := S (read_calls st) |}).
  - intros [= <- <-]. cbn. eexists. split; [|by split].
    unfold After. destruct (ns (ExpiresAt stored) <? ns (Add now keyCreationTokenLifetime))%Z eqn:E.
    + apply Z.ltb_lt in E. unfold Add in E. cbn in E. lia.
    + unfold Add. cbn. lia.
Qed.

Lemma authenticated_at_Some id now st s :
  authenticated_at id now st = Some s ↔
  sessions st !! id = Some s ∧ Authenticated s = true ∧ After (ExpiresAt s) now = true.
Proof.
  unfold authenticated_at. destruct (sessions st !! id) as [x|]; [|by split; [|intros []]].
  destruct (Authenticated x && After (ExpiresAt x) now) eqn:E.
  - apply andb_true_iff in E. split; [by intros [= <-]|by intros ([= <-] & _)].
  - apply andb_false_iff in E. split; [done|]. intros ([= <-] & H1 & H2). destruct E; congruence.
Qed.

Lemma consume_effect id token st r st' :
  consumeKeyCreationToken env id token st = (r, st') →
  (r = false ∧ sessions st' = sessions st) ∨
  ∃ s, sessions st !! id = Some s ∧ Authenticated s = true ∧ After (ExpiresAt s) (starts st) = true ∧
    sessions st' = <[id := set_tokens (delete token (KeyCreationToken s)) s]> (sessions st) ∧
    (r = true → ∃ exp, KeyCreationToken s !! token = Some exp ∧ After exp (starts st) = true).
Proof.
  unfold consumeKeyCreationToken. destruct (bool_decide (token = "")); [intros [= <- <-]; by left|].
  unfold mbind, stateful_bind, now, reads, put_tokens, writes, mret, stateful_ret. cbn.
  destruct (authenticated_at id _ _) as [s|] eqn:Ha; intros [= <- <-]; [right|by left].
  apply authenticated_at_Some in Ha as (Hs & Hau & Hex). cbn in Hs. exists s. split_and!; try done.
  intros Hr. destruct (KeyCreationToken s !! token) as [exp|]; [by exists exp|done].
Qed.

Lemma current_effect id st r st' :
  current env id st = (r, st') →
  sessions st' = sessions st ∧ (∀ s, r = Some s → sessions st !! id = Some s).
Proof.
  unfold current, mbind, stateful_bind, now, reads, mret, stateful_ret.
  destruct (sessions st !! id) as [s|]; intros [= <- <-]; (split; [done|]); [|done].
  intros x. by destruct (After _ _); [intros [= <-]|].
Qed.

(** Operations that put back the session of [id] with other flashes. *)
Lemma effect_flashes st op out st' id s l :
  sessions st !! id = Some s → (∀ id, op ≠ OpDestroy id) → (∀ id token, op ≠ OpConsume id token) →
  sessions st' = <[id := set_flashes l s]> (sessions st) → effect st op out st'.
Proof.
  intros Hs H1 H2 E. apply (effect_replaced _ _ _ _ id s (set_flashes l s)); try done.
  - constructor; try done; [by left|]. intros token Ho. by destruct (H2 id token).
  - intros id' token Ho. by destruct (H2 id' token).
Qed.

Lemma addFlash_effect id flash st st' :
  addFlash env id flash st = (tt, st') → effect st (OpFlash id flash) OutUnit st'.
Proof.
  unfold addFlash, mbind, stateful_bind, mret, stateful_ret, writes. destruct (current env id st) as [r st1] eqn:Hc.
  apply current_effect in Hc as [E Hr]. destruct r as [s|]; intros [= <-].
  - by apply (effect_flashes _ _ _ _ id s (Flashes s ++ [flash])); [auto| | |cbn; rewrite E].
  - by apply effect_none.
Qed.
Lemma takeFlashes_effect id st l st' :
  takeFlashes env id st = (l, st') → effect st (OpTake id) (OutFlashes l) st'.
Proof.
  unfold takeFlashes, mbind, stateful_bind, mret, stateful_ret, writes. destruct (current env id st) as [r st1] eqn:Hc.
  apply current_effect in Hc as [E Hr]. destruct r as [s|]; intros [= <- <-].
  - by apply (effect_flashes _ _ _ _ id s []); [auto| | |cbn; rewrite E].
  - by apply effect_none.
Qed.

Lemma create_effect authenticated st r st' :
  create env ttl maxSessions authenticated st = (r, st') →
  effect st (OpCreate authenticated) (OutCreated r) st'.
Proof.
  unfold create, mbind, stateful_bind, now, cleanupLocked, reads, writes, mret, stateful_ret. cbn [sessions set_sessions].
  fold (starts st). fold (cleaned (starts st) (sessions st)). set (m := cleaned (starts st) (sessions st)).
  destruct (maxSessions <=? size m)%nat eqn:Hfull; [intros [= <- <-]; by apply effect_cleaned|].
  apply Nat.leb_gt in Hfull. intros H%create_attempts_effect. cbn [sessions set_sessions] in H.
  destruct r as [e|snap]; [by apply effect_cleaned|].
  destruct H as (s & Hsnap & <- & Ht & He & Hnew & Hst). split; rewrite Hst.
  - intros id x. rewrite lookup_insert_Some. intros [[<- <-]|[Hne Hx]].
    + right. split_and!; [done| |done|done]. by rewrite <- Hsnap.
    + left. apply cleaned_lookup in Hx as (s0 & Hs0 & _ & ->). exists s0. split; [done|].
      by apply kept_cleaned.
  - intros _. rewrite map_size_insert_None by done. lia.
Qed.

Lemma issue_effect id st r st' :
  issueKeyCreationToken env id st = (r, st') → effect st (OpIssue id) (OutText r) st'.
Proof.
  unfold issueKeyCreationToken, mbind, stateful_bind, now, reads, mret, stateful_ret.
  destruct (authenticated_at id _ _) as [s|] eqn:Ha; [|intros [= <- <-]; by apply effect_none].
  apply authenticated_at_Some in Ha as (Hs & _ & _). cbn [sessions] in Hs.
  fold (starts st). set (tokens := live_tokens (starts st) (KeyCreationToken s)).
  assert (∀ token exp, tokens !! token = Some exp → KeyCreationToken s !! token = Some exp) as Hsub
    by apply live_tokens_sub.
  assert (∀ r st', sessions st' = <[id := set_tokens tokens s]> (sessions st) →
    effect st (OpIssue id) (OutText r) st') as Hpruned.
  { intros r0 st0 E. apply (effect_replaced _ _ _ _ id s (set_tokens tokens s)); try done.
    by apply kept_cleaned. }
  unfold put_tokens, writes. cbn [sessions set_sessions].
  destruct (maxPendingKeyCreations <=? size tokens)%nat eqn:Hfull; [intros [= <- <-]; by apply Hpruned|].
  apply Nat.leb_gt in Hfull. intros H%issue_attempts_effect. cbn [sessions set_sessions] in H.
  destruct r as [e|token]; [by apply Hpruned|].
  destruct H as (exp & Hexp & Hnew & E). rewrite insert_insert_eq in E.
  apply (effect_replaced _ _ _ _ id s (set_tokens (<[token:=exp]> tokens) s)); try done.
  constructor; try done.
  - intros t e. cbn. rewrite lookup_insert_Some. intros [[<- <-]|[_ Ht]]; [by right|left; by apply Hsub].
  - intros _. cbn. cbn in Hnew. rewrite map_size_insert_None by done. lia.
Qed.

Lemma perform_effect op st out st' : perform op st = (out, st') → effect st op out st'.
Proof.
  destruct op; cbn [perform]; unfold fmap, stateful_fmap; intros H.
  - destruct (create _ _ _ _ st) as [r st1] eqn:E. injection H as <- <-. by apply create_effect.
  - destruct (load env id st) as [r st1] eqn:E. injection H as <- <-.
    apply load_effect in E as [(_ & _ & ->)|(_ & E & _)]; [by apply effect_none|by apply effect_cleaned].
  - unfold verifyCSRF, mbind, stateful_bind in H. destruct (load env id st) as [r st1] eqn:E.
    injection H as <- <-.
    apply load_effect in E as [(_ & _ & ->)|(_ & E & _)]; [by apply effect_none|by apply effect_cleaned].
  - injection H as <- <-. split; cbn [sessions set_sessions destroy writes snd].
    + intros i s. rewrite lookup_delete_Some. intros [Hne Hs]. left. exists s. split; [done|].
      apply kept_same; [congruence|done].
    + intros Hsz. destruct (sessions st !! id) eqn:E.
      * rewrite map_size_delete_Some by by eexists. lia.
      * by rewrite map_size_delete_None.
  - destruct (addFlash env id flash st) as [[] st1] eqn:E. injection H as <- <-. by apply addFlash_effect.
  - destruct (takeFlashes env id st) as [l st1] eqn:E. injection H as <- <-. by apply takeFlashes_effect.
  - destruct (issueKeyCreationToken env id st) as [r st1] eqn:E. injection H as <- <-. by apply issue_effect.
  - destruct (consumeKeyCreationToken env id candidate st) as [r st1] eqn:E. injection H as <- <-.
    apply consume_effect in E as [[-> E]|(s & Hs & _ & _ & E & _)].
    + by apply effect_none; [| |intros ? ? _].
    + eapply (effect_replaced _ _ _ _ id s); [done| |done|by intros ? ? [= -> _]|done].
      constructor; try done.
      * intros t e. cbn. rewrite lookup_delete_Some. intros [_ ?]. by left.
      * intros token [= <-] _. cbn. apply lookup_delete_eq.
      * intros Hsz. cbn. destruct (KeyCreationToken s !! candidate) eqn:Ht.
        -- rewrite map_size_delete_Some by by eexists. lia.
        -- by rewrite map_size_delete_None.
  - injection H as <- <-. by apply effect_none.
Qed.

(** ** Histories *)

(** The last creation of session [id], with what it returned. *)
Definition created_in (h : list event) (id : string) (s : storedSession) : Prop :=
  ∃ before after t,
    h = before ++ {| ev_op := OpCreate (Authenticated s);
                     ev_out := OutCreated (inr (snapshot id s)); ev_time := t |} :: after ∧
    Forall (λ e, ev_op e ≠ OpDestroy id) after ∧ ExpiresAt s = Add t ttl.

(** The last issue of [token] to session [id], not consumed since. *)
Definition issued_in (h : list event) (id token : string) (exp : Time) : Prop :=
  ∃ before after t,
    h = before ++ {| ev_op := OpIssue id; ev_out := OutText (inr token); ev_time := t |} :: after ∧
    Forall (λ e, ¬ (ev_op e = OpConsume id token ∧ ev_out e = OutBool true)) after ∧
    (ns exp <= ns t + keyCreationTokenLifetime)%Z.

Record explained (h : list event) (st : sessionStore) : Prop := {
  xp_created id s : sessions st !! id = Some s → created_in h id s;
  xp_issued id s token exp : sessions st !! id = Some s → KeyCreationToken s !! token = Some exp →
    issued_in h id token exp;
  xp_sessions : (size (sessions st) <= maxSessions)%nat;
  xp_tokens id s : sessions st !! id = Some s →
    (size (KeyCreationToken s) <= maxPendingKeyCreations)%nat
}.

Lemma Forall_snoc_2 {A} (P : A → Prop) l x : Forall P l → P x → Forall P (l ++ [x]).
Proof. intros. apply list.Forall_app. by split; [|constructor]. Qed.

Lemma history_explained h st : history h st → explained h st.
Proof.
  induction 1 as [|h st op out st' Hh IH Hp]; [constructor; try done; cbn; rewrite map_size_empty; lia|].
  apply perform_effect in Hp as [Heff Hsize]. destruct IH as [IHc IHi IHs IHt].
  set (e := {| ev_op := op; ev_out := out; ev_time := starts st |}). constructor.
  - intros id s' [(s & Hs & [(Ha & Hc & He) _ _ Hd _])|(-> & -> & _ & He)]%Heff.
    + destruct (IHc id s Hs) as (before & after & t & -> & Haf & Hexp).
      exists before, (after ++ [e]), t. rewrite Ha, He. unfold snapshot in *. rewrite Ha, Hc, He.
      split_and!; [by rewrite <- app_assoc|by apply Forall_snoc_2|done].
    + by exists h, [], (starts st).
  - intros id s' token exp Hs' Ht. apply Heff in Hs' as [(s & Hs & [_ Htok Hcons _ _])|(_ & _ & H0 & _)];
      [|by rewrite H0 in Ht]. destruct (Htok token exp Ht) as [Ht'|(-> & -> & Hexp)].
    + destruct (IHi id s token exp Hs Ht') as (before & after & t & -> & Haf & Hexp).
      exists before, (after ++ [e]), t. split_and!; [by rewrite <- app_assoc| |done].
      apply Forall_snoc_2; [done|]. intros [Ho Hr]. cbn in Ho, Hr. by rewrite (Hcons token Ho Hr) in Ht.
    + by exists h, [], (starts st).
  - auto.
  - intros id s' [(s & Hs & Hk)|(_ & _ & -> & _)]%Heff; [by eapply kp_size, IHt|]. cbn.
    rewrite map_size_empty. unfold maxPendingKeyCreations. lia.
Qed.
End facts.

(** C37.  Sessions and one-time tokens, in every history of the store.  A
    session is accepted only with what its creation returned, before it is
    destroyed and before its lifetime is over, and its CSRF token is the one
    of its creation.  A key-creation token is accepted at most once for each
    time it was issued: only in the session it was issued to, which has to be
    authenticated and live, within fifteen minutes, and only if it was not
    accepted since.  There are never more sessions than the bound, nor more
    than eight pending tokens in one. *)
Theorem sessions_and_tokens env ttl maxSessions h st :
  history env ttl maxSessions h st →
  let now := starts env st in
  (∀ id snap st', load env id st = (Some snap, st') →
     ∃ s, snap = snapshot id s ∧ created_in ttl h id s ∧ (ns now < ns (ExpiresAt s))%Z) ∧
  (∀ id candidate st', verifyCSRF env id candidate st = (true, st') →
     ∃ s, candidate = CSRFToken s ∧ created_in ttl h id s ∧ (ns now < ns (ExpiresAt s))%Z) ∧
  (∀ id token st', consumeKeyCreationToken env id token st = (true, st') →
     ∃ s exp, issued_in h id token exp ∧ (ns now < ns exp)%Z ∧
       created_in ttl h id s ∧ Authenticated s = true ∧ (ns now < ns (ExpiresAt s))%Z) ∧
  (size (sessions st) <= maxSessions)%nat ∧
  (∀ id s, sessions st !! id = Some s → size (KeyCreationToken s) <= maxPendingKeyCreations)%nat.
Proof.
  intros Hh now. apply history_explained in Hh as [Hc Hi Hs Ht].
  assert (∀ t, After t now = true → (ns now < ns t)%Z) as Hafter by by intros t ?%Z.ltb_lt.
  assert (∀ id snap st', load env id st = (Some snap, st') →
    ∃ s, snap = snapshot id s ∧ created_in ttl h id s ∧ (ns now < ns (ExpiresAt s))%Z) as Hload.
  { intros id snap st' [(_ & [=] & _)|(_ & E & Hr)]%load_effect. symmetry in Hr.
    apply fmap_Some in Hr as (s' & Hs' & ->). rewrite E in Hs'.
    apply cleaned_lookup in Hs' as (s & Hl & Ha & ->). exists s. auto. }
  split_and!; [done| | |done|done].
  - intros id candidate st' H. unfold verifyCSRF, mbind, stateful_bind in H.
    destruct (load env id st) as [[snap|] st1] eqn:E; [|done]. injection H as H _.
    apply andb_true_iff in H as [_ ->%SecureEqual_true%eq_sym].
    destruct (Hload _ _ _ E) as (s & -> & Hs'). by exists s.
  - intros id token st' [[[=] _]|(s & Hl & Ha & Hx & _ & Hr)]%consume_effect.
    destruct (Hr eq_refl) as (exp & Hexp & Hlive). exists s, exp. split_and!; auto. by eapply Hi.
Qed.

(** ** A session that issues a token *)

Module SessionSample.
Definition env : environment := {|
  clock := λ i, {| ns := Z.of_nat i * Minute; off := 0 |};
  random := λ i n, inr (replicate n (N.of_nat i)) |}.
Definition ttl : Z := 30 * Minute.
Definition id : string := RawURLEncode (replicate 32 0%N).
Definition token : string := RawURLEncode (replicate 24 2%N).
Definition go (op : session_op) (st : sessionStore) : event * sessionStore :=
  let '(out, st') := perform env ttl 4096 op st in
  ({| ev_op := op; ev_out := out; ev_time := starts env st |}, st').
Definition opened := go (OpCreate true) newSessionStore.
Definition issued := go (OpIssue id) opened.2.
Definition consumed := go (OpConsume id token) issued.2.
Definition before : list event := [opened.1; issued.1].

Lemma history_before : history env ttl 4096 before issued.2.
Proof.
  change before with (([] ++ [opened.1]) ++ [issued.1]).
  eapply history_step; [eapply history_step; [constructor|reflexivity]|reflexivity].
Qed.
End SessionSample.

Lemma sessions_and_tokens_witness :
  (∃ exp, issued_in SessionSample.before SessionSample.id SessionSample.token exp) ∧
  ev_out SessionSample.consumed.1 = OutBool true ∧
  ev_out (SessionSample.go (OpConsume SessionSample.id SessionSample.token)
            SessionSample.consumed.2).1 = OutBool false.
Proof.
  destruct (sessions_and_tokens _ _ _ _ _ SessionSample.history_before) as (_ & _ & H & _ & _).
  split_and!; [|vm_compute; reflexivity|vm_compute; reflexivity].
  destruct (H SessionSample.id SessionSample.token SessionSample.consumed.2) as (s & exp & Hi & _).
  - vm_compute. reflexivity.
  - by exists exp.
Defined.
