(* ===== verification/AdminView.v ===== *)
(** * The pages of the administration UI and its API ([adminui/view.go], [client.go])

    The data of the pages (the templates that print it are not modelled), the
    forms and their conversions, the errors of the administrative API and the
    interface through which the UI calls it. *)

From Stdlib Require Import Ascii.
From stdpp Require Import sorting.
From S2P Require Import Prelude GoStd Json GoTime GoWeb Errors State Model.
From S2P Require Import Service KeyService Session.

(** ** The administrative API *)

(** [APIError]. *)
Record APIError := {
  AE_Status : Z; AE_Title : string; AE_Detail : string; AE_Instance : string; AE_Ambiguous : bool
}.

(** What an operation of the API fails with, as [errors.As] sees it. *)
Inductive api_error : Type := IsAPIError (e : APIError) | OtherError (e : error).

Record Versioned (T : Type) := { Value : T; ETag : string }.
Arguments Value {T}. Arguments ETag {T}.

(** [API]: every method may change the state [W] of what is behind it. *)
Record API (W : Type) := {
  ListUsers : stateful W (api_error + list User);
  GetUser : string → stateful W (api_error + Versioned User);
  CreateUser : UserInput → stateful W (api_error + User);
  UpdateUser : string → UserInput → string → stateful W (api_error + Versioned User);
  DeleteUser : string → string → stateful W (api_error + unit);
  ListProviders : stateful W (api_error + list Provider);
  GetProvider : string → stateful W (api_error + Versioned Provider);
  CreateProvider : ProviderInput → stateful W (api_error + Provider);
  UpdateProvider : string → ProviderInput → string → stateful W (api_error + Versioned Provider);
  DeleteProvider : string → string → stateful W (api_error + unit);
  ListModels : stateful W (api_error + list Model.Model);
  GetModel : string → stateful W (api_error + Versioned Model.Model);
  CreateModel : ModelInput → stateful W (api_error + Model.Model);
  UpdateModel : string → ModelInput → string → stateful W (api_error + Versioned Model.Model);
  DeleteModel : string → string → stateful W (api_error + unit);
  ListVirtualKeys : stateful W (api_error + list PublicVirtualKey);
  GetVirtualKey : string → stateful W (api_error + Versioned PublicVirtualKey);
  CreateVirtualKey : VirtualKeyInput → stateful W (api_error + CreatedVirtualKey);
  UpdateVirtualKey : string → VirtualKeyInput → string →
    stateful W (api_error + Versioned PublicVirtualKey);
  DeleteVirtualKey : string → string → stateful W (api_error + unit)
}.
Arguments ListUsers {W}. Arguments GetUser {W}. Arguments CreateUser {W}. Arguments UpdateUser {W}.
Arguments DeleteUser {W}. Arguments ListProviders {W}. Arguments GetProvider {W}.
Arguments CreateProvider {W}. Arguments UpdateProvider {W}. Arguments DeleteProvider {W}.
Arguments ListModels {W}. Arguments GetModel {W}. Arguments CreateModel {W}.
Arguments UpdateModel {W}. Arguments DeleteModel {W}. Arguments ListVirtualKeys {W}.
Arguments GetVirtualKey {W}. Arguments CreateVirtualKey {W}. Arguments UpdateVirtualKey {W}.
Arguments DeleteVirtualKey {W}.

(** ** Forms *)

Record userForm := { UF_Name : string; UF_Email : string; UF_Status : string }.
Definition userFormFromModel (user : User) : userForm :=
  {| UF_Name := User_Name user; UF_Email := User_Email user; UF_Status := User_Status user |}.
Definition userForm_input (f : userForm) : UserInput :=
  {| UI_Name := UF_Name f; UI_Email := UF_Email f; UI_Status := UF_Status f |}.

Record providerForm := {
  PF_Slug : string; PF_Name : string; PF_Kind : string; PF_AdapterAppID : string; PF_Status : string
}.
Definition providerFormFromModel (provider : Provider) : providerForm := {|
  PF_Slug := Provider_Slug provider; PF_Name := Provider_Name provider;
  PF_Kind := Provider_Kind provider; PF_AdapterAppID := Provider_AdapterAppID provider;
  PF_Status := Provider_Status provider |}.
Definition providerForm_input (f : providerForm) : ProviderInput := {|
  PI_Slug := PF_Slug f; PI_Name := PF_Name f; PI_Kind := PF_Kind f;
  PI_AdapterAppID := PF_AdapterAppID f; PI_Status := PF_Status f |}.

Record modelForm := {
  MF_Alias : string; MF_ProviderID : string; MF_UpstreamModel : string; MF_Status : string
}.
Definition modelFormFromModel (model : Model.Model) : modelForm := {|
  MF_Alias := Model_Alias model; MF_ProviderID := Model_ProviderID model;
  MF_UpstreamModel := Model_UpstreamModel model; MF_Status := Model_Status model |}.
Definition modelForm_input (f : modelForm) : ModelInput := {|
  MI_Alias := MF_Alias f; MI_ProviderID := MF_ProviderID f; MI_UpstreamModel := MF_UpstreamModel f;
  MI_Status := MF_Status f |}.

Record virtualKeyForm := {
  KF_Name : string; KF_UserID : string; KF_ModelIDs : list string; KF_Status : string;
  KF_ExpiresAt : string; KF_OriginalExpiresAt : string
}.

(** [t.UTC()], and its text as RFC 3339 and with the display layout, which
    cuts the fraction to milliseconds and drops its trailing zeros. *)
Definition UTC (t : Time) : Time := {| ns := ns t; off := 0 |}.
Definition to_millisecond (t : Time) : Time := {| ns := ns t - ns t mod 1000000; off := off t |}.
Definition format_rfc3339 (t : Time) : string := default "" (format_time t).
Definition format_display (t : Time) : string := TrimSuffix (format_rfc3339 (to_millisecond t)) "Z".

Definition virtualKeyFormFromModel (key : PublicVirtualKey) : virtualKeyForm := {|
  KF_Name := Pub_Name key; KF_UserID := Pub_UserID key; KF_ModelIDs := Pub_ModelIDs key;
  KF_Status := Pub_Status key;
  KF_ExpiresAt := match Pub_ExpiresAt key with Some t => format_display (UTC t) | None => "" end;
  KF_OriginalExpiresAt := match Pub_ExpiresAt key with Some t => format_rfc3339 (UTC t) | None => "" end |}.

(** [parseVirtualKeyExpiry]: at these lengths the layouts of minutes and of
    seconds accept what RFC 3339 does, in UTC. *)
Definition parse_seconds (value : string) : error + Time :=
  match parse_time (value +:+ "Z") with
  | Some t => inr t
  | None => inl (NewError "parsing time")
  end.
Definition parseVirtualKeyExpiry (value : string) : error + Time :=
  let n := String.length value in
  if (n =? 16)%nat then parse_seconds (value +:+ ":00")
  else if (n =? 19)%nat then parse_seconds value
  else if ((21 <=? n) && (n <=? 23))%nat then
    match bytes_of (str_drop 19 value) with
    | c :: fraction =>
        if negb (Ascii.eqb c ".") then inl (NewError "invalid datetime-local fraction separator")
        else if negb (forallb is_digit fraction) then inl (NewError "invalid datetime-local fraction")
        else parse_seconds value
    | [] => inl (NewError "invalid datetime-local fraction separator")
    end
  else inl (NewError "invalid datetime-local precision").

(** The trimmed ids, without empty ones and repetitions. *)
Definition add_id (ids : list string) (value : string) : list string :=
  let id := TrimSpace value in
  if bool_decide (id = "") || bool_decide (id ∈ ids) then ids else ids ++ [id].
Definition distinct_ids (values : list string) : list string := foldl add_id [] values.

(** The expiry of a form: an unchanged text stands for the original instant. *)
Definition form_expiry (f : virtualKeyForm) : error + option Time :=
  let value := TrimSpace (KF_ExpiresAt f) in
  if bool_decide (value = "") then inr None
  else
    match parseVirtualKeyExpiry value with
    | inl _ => inl (NewError "expiration must be a valid UTC date and time")
    | inr parsed =>
        inr (Some match parse_time (TrimSpace (KF_OriginalExpiresAt f)) with
          | Some original =>
              if bool_decide (value = format_display (UTC original)) then UTC original else parsed
          | None => parsed
          end)
    end.

Definition virtualKeyForm_input (f : virtualKeyForm) : error + VirtualKeyInput :=
  let modelIDs := distinct_ids (KF_ModelIDs f) in
  if bool_decide (modelIDs = []) then inl (NewError "at least one model must be selected")
  else
    match form_expiry f with
    | inl e => inl e
    | inr expires =>
        inr {| VI_Name := KF_Name f; VI_UserID := KF_UserID f;
               VI_ModelIDs := merge_sort String.le modelIDs; VI_Status := KF_Status f;
               VI_ExpiresAt := expires |}
    end.

(** ** Pages *)

Record viewError := { VE_Title : string; VE_Detail : string; VE_RequestID : string }.
Record dashboardSection := { DS_Available : bool; DS_Count : nat; DS_Error : string }.
Record confirmView := {
  CV_Kind : string; CV_Name : string; CV_Action : string; CV_Cancel : string; CV_Warning : string;
  CV_ETag : string
}.
Record lifecycleView := {
  LV_Kind : string; LV_Name : string; LV_Status : string; LV_Action : string; LV_Cancel : string;
  LV_Warning : string; LV_ButtonText : string; LV_ETag : string
}.

(** [pageData], its fields in groups. *)
Record pageFilters := {
  Query : string; StatusFilter : string; UserFilter : string; ProviderFilter : string;
  ModelFilter : string
}.
Record pageLists := {
  Users : list User; Providers : list Provider; Models : list Model.Model;
  VirtualKeys : list PublicVirtualKey; UserKeyCounts : gmap string nat;
  UserNames : gmap string string; ProviderModelCounts : gmap string nat;
  ProviderNames : gmap string string; ModelKeyCounts : gmap string nat;
  ModelNames : gmap string string; RelationsAvailable : bool; UserChoicesAvailable : bool;
  ModelChoicesAvailable : bool
}.
Record pageForm := {
  UserForm : option userForm; ProviderForm : option providerForm; ModelForm : option modelForm;
  VirtualKeyForm : option virtualKeyForm; Editing : bool; ResourceID : string;
  ResourceETag : string; OperationToken : string; CreatedKey : option CreatedVirtualKey;
  Confirm : option confirmView; Lifecycle : option lifecycleView
}.
Record pageData := {
  Title : string; Section : string; PageAuthenticated : bool; PageCSRFToken : string;
  PageFlashes : list flashMessage; PageError : option viewError; StatusCode : Z;
  Warnings : list string; Filters : pageFilters; ResourceSection : dashboardSection;
  KeySection : dashboardSection; Lists : pageLists; Form : pageForm
}.

Definition no_filters : pageFilters :=
  {| Query := ""; StatusFilter := ""; UserFilter := ""; ProviderFilter := ""; ModelFilter := "" |}.
Definition no_section : dashboardSection := {| DS_Available := false; DS_Count := 0; DS_Error := "" |}.
Definition no_lists : pageLists := {|
  Users := []; Providers := []; Models := []; VirtualKeys := []; UserKeyCounts := ∅; UserNames := ∅;
  ProviderModelCounts := ∅; ProviderNames := ∅; ModelKeyCounts := ∅; ModelNames := ∅;
  RelationsAvailable := false; UserChoicesAvailable := false; ModelChoicesAvailable := false |}.
Definition no_form : pageForm := {|
  UserForm := None; ProviderForm := None; ModelForm := None; VirtualKeyForm := None;
  Editing := false; ResourceID := ""; ResourceETag := ""; OperationToken := ""; CreatedKey := None;
  Confirm := None; Lifecycle := None |}.

(** [pageData{Title: title, Section: section, ...}]. *)
Definition page (title section : string) (authenticated : bool) (csrf : string)
    (flashes : list flashMessage) : pageData := {|
  Title := title; Section := section; PageAuthenticated := authenticated; PageCSRFToken := csrf;
  PageFlashes := flashes; PageError := None; StatusCode := 0; Warnings := []; Filters := no_filters;
  ResourceSection := no_section; KeySection := no_section; Lists := no_lists; Form := no_form |}.

(** Assignments to fields. *)
Definition set_error (e : option viewError) (status : Z) (d : pageData) : pageData := {|
  Title := Title d; Section := Section d; PageAuthenticated := PageAuthenticated d;
  PageCSRFToken := PageCSRFToken d; PageFlashes := PageFlashes d; PageError := e;
  StatusCode := status; Warnings := Warnings d; Filters := Filters d;
  ResourceSection := ResourceSection d; KeySection := KeySection d; Lists := Lists d; Form := Form d |}.
Definition set_title (title : string) (d : pageData) : pageData := {|
  Title := title; Section := Section d; PageAuthenticated := PageAuthenticated d;
  PageCSRFToken := PageCSRFToken d; PageFlashes := PageFlashes d; PageError := PageError d;
  StatusCode := StatusCode d; Warnings := Warnings d; Filters := Filters d;
  ResourceSection := ResourceSection d; KeySection := KeySection d; Lists := Lists d; Form := Form d |}.
Definition set_content (filters : pageFilters) (lists : pageLists) (warnings : list string)
    (d : pageData) : pageData := {|
  Title := Title d; Section := Section d; PageAuthenticated := PageAuthenticated d;
  PageCSRFToken := PageCSRFToken d; PageFlashes := PageFlashes d; PageError := PageError d;
  StatusCode := StatusCode d; Warnings := Warnings d ++ warnings; Filters := filters;
  ResourceSection := ResourceSection d; KeySection := KeySection d; Lists := lists; Form := Form d |}.
Definition set_sections (resources keys : dashboardSection) (lists : pageLists) (d : pageData)
    : pageData := {|
  Title := Title d; Section := Section d; PageAuthenticated := PageAuthenticated d;
  PageCSRFToken := PageCSRFToken d; PageFlashes := PageFlashes d; PageError := PageError d;
  StatusCode := StatusCode d; Warnings := Warnings d; Filters := Filters d;
  ResourceSection := resources; KeySection := keys; Lists := lists; Form := Form d |}.
Definition set_form (form : pageForm) (d : pageData) : pageData := {|
  Title := Title d; Section := Section d; PageAuthenticated := PageAuthenticated d;
  PageCSRFToken := PageCSRFToken d; PageFlashes := PageFlashes d; PageError := PageError d;
  StatusCode := StatusCode d; Warnings := Warnings d; Filters := Filters d;
  ResourceSection := ResourceSection d; KeySection := KeySection d; Lists := Lists d; Form := form |}.

(** [errorView]. *)
Definition errorView (err : api_error) : viewError * Z :=
  match err with
  | IsAPIError e =>
      ({| VE_Title := AE_Title e; VE_Detail := AE_Detail e; VE_RequestID := AE_Instance e |},
       if ((AE_Status e <? 400) || (599 <? AE_Status e))%Z then 502%Z else AE_Status e)
  | OtherError _ =>
      ({| VE_Title := "Administrative operation failed";
          VE_Detail := "The operation could not be completed. Try again or inspect the service logs.";
          VE_RequestID := "" |}, 500%Z)
  end.
