(* ===== verification/AdminUI.v ===== *)
(** * The server of the administration UI ([internal/adminui/handler.go])

    Requests arrive parsed by [net/http]: the path as decoded segments, the
    query, the cookies and the form of the body ([None] when it cannot be
    decoded or is too large).  A response is a page with its data, a redirect,
    or one of the fixed answers, with the cookies that are set.  The deadline
    of a request, the assets, the security headers and the templates are not
    modelled; the lists a page reads in parallel are read in order. *)

From Stdlib Require Import Ascii.
From S2P Require Import Prelude GoStd Json GoText GoNet GoTime GoFmt GoWeb Errors State Model.
From S2P Require Import Service KeyService Session AdminView Platform.

(** ** Requests and responses *)

Record ui_request := {
  UI_Method : string; UI_Path : list string; UI_Query : list (string * string);
  UI_Cookies : list (string * string); UI_Form : option (list (string * string))
}.

Record cookie := {
  C_Name : string; C_Value : string; C_Path : string; C_Expires : Time; C_MaxAge : Z;
  C_HttpOnly : bool; C_Secure : bool; C_SameSiteStrict : bool
}.

Inductive ui_body : Type :=
| Rendered (template : string) (data : pageData)
| Redirected (location : string)
| Health
| Assets
| Plain (text : string).
Record ui_response := { R_Status : Z; R_Cookies : list cookie; R_Body : ui_body }.

(** [url.Values.Get], [PostForm[key]] and [Request.Cookie]. *)
Definition values_of (key : string) (l : list (string * string)) : list string :=
  omap (λ kv, if bool_decide (kv.1 = key) then Some kv.2 else None) l.
Definition value_of (key : string) (l : list (string * string)) : string :=
  default "" (head (values_of key l)).
Definition cookie_of (name : string) (r : ui_request) : option string :=
  head (values_of name (UI_Cookies r)).
Definition post_form (r : ui_request) : list (string * string) := default [] (UI_Form r).
Definition query_of (key : string) (r : ui_request) : string := TrimSpace (value_of key (UI_Query r)).

Definition formString (r : ui_request) (key : string) : string := TrimSpace (value_of key (post_form r)).
Definition statusValue (value : string) : string := TrimSpace value.

(** [w.Header().Set("Set-Cookie", ...)] before the body. *)
Definition with_cookie (c : cookie) (r : ui_response) : ui_response :=
  {| R_Status := R_Status r; R_Cookies := c :: R_Cookies r; R_Body := R_Body r |}.
Definition render (status : Z) (template : string) (data : pageData) : ui_response :=
  {| R_Status := status; R_Cookies := []; R_Body := Rendered template data |}.
Definition redirect (location : string) : ui_response :=
  {| R_Status := 303; R_Cookies := []; R_Body := Redirected location |}.

(** ** Configuration *)

Definition Second : Z := 1000000000.
Definition defaultSessionTTL : Z := 30 * Minute.
Definition defaultRequestTimeout : Z := 20 * Second.
Definition loginChallengeTTL : Z := 5 * Minute.
Definition defaultMaxForm : Z := 131072.
Definition defaultCookieName : string := "gwai_admin_session".
Definition loginChallengeNonceSize : nat := 32.
Definition loginChallengeKeySize : nat := 32.

Record Config := {
  AdminToken : string; SessionTTL : Z; RequestTimeout : Z; CookieName : string; CookieSecure : bool;
  MaxFormBytes : Z
}.

(** The fields of [server] the handlers use; [sv_ttl] is that of its sessions. *)
Record server := {
  sv_adminToken : string; sv_cookieName : string; sv_cookieSecure : bool; sv_ttl : Z;
  sv_loginKey : list N
}.

(** The checks of [NewHandler], after the defaults, then the server with the
    key it reads; the first reading is [random env 0]. *)
Definition or_default (value fallback : Z) : Z := if (value =? 0)%Z then fallback else value.
Definition NewHandler (env : environment) (config : Config) : error + server :=
  let ttl := or_default (SessionTTL config) defaultSessionTTL in
  let timeout := or_default (RequestTimeout config) defaultRequestTimeout in
  let name := if bool_decide (CookieName config = "") then defaultCookieName else CookieName config in
  let maxForm := or_default (MaxFormBytes config) defaultMaxForm in
  if bool_decide (AdminToken config = "") || has_space (AdminToken config) then
    inl (NewError "admin token is required and must not contain whitespace")
  else if (ttl <? Minute)%Z then inl (NewError "session TTL must be at least one minute")
  else if (timeout <=? 0)%Z then inl (NewError "request timeout must be positive")
  else if negb (cookie_name_ok name) then
    inl (Errorf "invalid cookie name: %w" [AWrap (NewError "http: invalid Cookie.Name")])
  else if (maxForm <=? 0)%Z then inl (NewError "maximum form size must be positive")
  else
    match random env 0 loginChallengeKeySize with
    | inl e => inl (Errorf "initialize login challenge key: %w" [AWrap e])
    | inr key => inr {| sv_adminToken := AdminToken config; sv_cookieName := name;
                        sv_cookieSecure := CookieSecure config; sv_ttl := ttl; sv_loginKey := key |}
    end.

(** ** The state of the server: its sessions and what is behind the API *)

Record ui_state (W : Type) := { ui_sessions : sessionStore; ui_world : W }.
Arguments ui_sessions {W}. Arguments ui_world {W}.

Section server.
Context {W : Type} (api : API W) (env : environment) (s : server).

Abbreviation M := (stateful (ui_state W)).

Definition on_sessions {A} (op : stateful sessionStore A) : M A := λ u,
  let '(a, st) := op (ui_sessions u) in (a, {| ui_sessions := st; ui_world := ui_world u |}).
Definition on_api {A} (op : stateful W A) : M A := λ u,
  let '(a, w) := op (ui_world u) in (a, {| ui_sessions := ui_sessions u; ui_world := w |}).

Definition ui_now : M Time := on_sessions (now env).

(** *** Cookies *)

(** [int(expires.Sub(now).Seconds())], at least a second. *)
Definition max_age (expires now : Time) : Z := Z.max 1 (Z.quot (ns expires - ns now) Second).

Definition session_cookie (value : string) (expires : Time) (maxAge : Z) : cookie := {|
  C_Name := sv_cookieName s; C_Value := value; C_Path := "/"; C_Expires := expires;
  C_MaxAge := maxAge; C_HttpOnly := true; C_Secure := sv_cookieSecure s; C_SameSiteStrict := true |}.

Definition setSessionCookie (session : sessionSnapshot) : M cookie :=
  now ← ui_now;
  mret (session_cookie (Snap_ID session) (Snap_ExpiresAt session) (max_age (Snap_ExpiresAt session) now)).

Definition setLoginChallengeCookie (challenge : string) (expires : Time) : M cookie :=
  now ← ui_now; mret (session_cookie challenge expires (max_age expires now)).

Definition clearSessionCookie : cookie := session_cookie "" (time_Unix 1) (-1).

(** *** Login challenges *)

Definition challenge_signature (payload : string) : list N :=
  hmac_sha256 (sv_loginKey s) (bytes_N payload).

Definition newLoginChallenge : M (error + (string * Time)) :=
  nonce ← on_sessions (randomValue env loginChallengeNonceSize);
  match nonce with
  | inl e => mret (inl e)
  | inr nonce =>
      now ← ui_now;
      let expires := Add now loginChallengeTTL in
      let payload := FormatInt (Unix expires) +:+ "." +:+ nonce in
      mret (inr (payload +:+ "." +:+ RawURLEncode (challenge_signature payload), expires))
  end.

Definition signed (payload signature : string) : bool :=
  match RawURLDecode signature with
  | Some provided => bool_decide (provided = challenge_signature payload)
  | None => false
  end.

Definition validLoginChallenge (challenge : string) : M bool :=
  match Split "." challenge with
  | [expires; nonce; signature] =>
      if bool_decide (nonce = "") || bool_decide (signature = "") then mret false
      else match ParseInt expires with
      | None => mret false
      | Some expiresUnix =>
          now ← ui_now;
          mret (After (time_Unix expiresUnix) now &&
                match RawURLDecode nonce with
                | Some bytes => bool_decide (length bytes = loginChallengeNonceSize)
                | None => false
                end && signed (expires +:+ "." +:+ nonce) signature)
      end
  | _ => mret false
  end.

(** *** Sessions of requests *)

Definition cookieSession (r : ui_request) : M (option sessionSnapshot) :=
  match cookie_of (sv_cookieName s) r with
  | None => mret None
  | Some value => on_sessions (load env value)
  end.

Definition authenticatedHandler : Type := ui_request → string → sessionSnapshot → M ui_response.

Definition auth (next : authenticatedHandler) (r : ui_request) (id : string) : M ui_response :=
  session ← cookieSession r;
  match session with
  | Some session =>
      if Snap_Authenticated session then next r id session
      else
        _ ← on_sessions (destroy (Snap_ID session));
        mret (with_cookie clearSessionCookie (redirect "/login"))
  | None => mret (with_cookie clearSessionCookie (redirect "/login"))
  end.

Definition basePage (session : sessionSnapshot) (title section : string) : M pageData :=
  flashes ← on_sessions (takeFlashes env (Snap_ID session));
  mret (page title section (Snap_Authenticated session) (Snap_CSRFToken session) flashes).

Definition view_error (title detail : string) : option viewError :=
  Some {| VE_Title := title; VE_Detail := detail; VE_RequestID := "" |}.

Definition renderSimpleError (session : sessionSnapshot) (status : Z) (title detail : string)
    : M ui_response :=
  data ← basePage session title "";
  mret (render status "error" (set_error (view_error title detail) status data)).

(** [Some answer] when the form is refused. *)
Definition parseProtectedForm (r : ui_request) (session : sessionSnapshot) : M (option ui_response) :=
  match UI_Form r with
  | None =>
      answer ← renderSimpleError session 400 "Invalid form" "The submitted form could not be decoded.";
      mret (Some answer)
  | Some form =>
      verified ← on_sessions (verifyCSRF env (Snap_ID session) (value_of "_csrf" form));
      if verified : bool then mret None
      else
        answer ← renderSimpleError session 403 "Request rejected"
          "The form expired or its CSRF token is invalid. Reload the page and try again.";
        mret (Some answer)
  end.

(** [if !s.parseProtectedForm(w, r, session) { return }]. *)
Definition protected (next : authenticatedHandler) : authenticatedHandler := λ r id session,
  refused ← parseProtectedForm r session;
  match refused with Some answer => mret answer | None => next r id session end.

Definition unknown_outcome (instance : string) : viewError := {|
  VE_Title := "Operation outcome unknown";
  VE_Detail := "The request may have completed even though its response was not received safely. Reload the relevant resource list and inspect current state before retrying.";
  VE_RequestID := instance |}.

Definition renderOperationError (data : pageData) (template : string) (err : api_error) : ui_response :=
  let '(view, status) := errorView err in
  let '(view, template) :=
    match err with
    | IsAPIError e => if AE_Ambiguous e then (unknown_outcome (AE_Instance e), "error") else (view, template)
    | OtherError _ => (view, template)
    end in
  let data := if bool_decide (Title data = "") then set_title "Operation failed" data else data in
  render status template (set_error (Some view) status data).

Definition renderInvalidForm (data : pageData) (template detail : string) : ui_response :=
  render 400 template (set_error (view_error "Invalid form" detail) 400 data).

Definition flashRedirect (session : sessionSnapshot) (location kind message : string) : M ui_response :=
  _ ← on_sessions (addFlash env (Snap_ID session) {| Kind := kind; Message := message |});
  mret (redirect location).

(** *** Signing in and out *)

Definition sign_in_page (challenge : string) (e : option viewError) : pageData :=
  set_error e 0 (page "Sign in" "" false challenge []).
Definition sign_in_unavailable : ui_response :=
  render 503 "error" (set_error (view_error "Sign in unavailable" "A secure session could not be created.")
    503 (page "Sign in unavailable" "" false "" [])).

Definition loginPage (r : ui_request) (_ : string) : M ui_response :=
  existing ← cookieSession r;
  if match existing with Some session => Snap_Authenticated session | None => false end
  then mret (redirect "/")
  else
    challenge ← newLoginChallenge;
    match challenge with
    | inl _ => mret sign_in_unavailable
    | inr (challenge, expires) =>
        cookie ← setLoginChallengeCookie challenge expires;
        mret (with_cookie cookie (render 200 "login" (sign_in_page challenge None)))
    end.

(** A sign-in form that is refused gets a new challenge. *)
Definition refuse_sign_in : M ui_response :=
  challenge ← newLoginChallenge;
  let answer text := render 403 "login" (sign_in_page text (view_error "Request rejected"
    "The sign-in form expired or its CSRF token is invalid. Reload the page and try again.")) in
  match challenge with
  | inl _ => mret (answer "")
  | inr (challenge, expires) =>
      cookie ← setLoginChallengeCookie challenge expires;
      mret (with_cookie cookie (answer challenge))
  end.

(** The challenge of the form is the one of the cookie, and it is valid. *)
Definition challenge_accepted (r : ui_request) (candidate : string) : M bool :=
  match cookie_of (sv_cookieName s) r with
  | None => mret false
  | Some value =>
      if bool_decide (candidate = "") || negb (SecureEqual value candidate) then mret false
      else validLoginChallenge candidate
  end.

Definition sign_in : M ui_response :=
  authenticated ← on_sessions (create env (sv_ttl s) defaultMaxSessions true);
  match authenticated with
  | inl _ => mret (with_cookie clearSessionCookie sign_in_unavailable)
  | inr session =>
      cookie ← setSessionCookie session;
      _ ← on_sessions (addFlash env (Snap_ID session)
            {| Kind := "success"; Message := "Signed in successfully." |});
      mret (with_cookie cookie (redirect "/"))
  end.

Definition login (r : ui_request) (_ : string) : M ui_response :=
  existing ← cookieSession r;
  if match existing with Some session => Snap_Authenticated session | None => false end
  then mret (redirect "/")
  else match UI_Form r with
  | None =>
      mret (render 400 "login" (sign_in_page "" (view_error "Invalid form"
        "The submitted form could not be decoded.")))
  | Some form =>
      let candidate := value_of "_csrf" form in
      accepted ← challenge_accepted r candidate;
      if negb accepted then refuse_sign_in
      else if negb (SecureEqual (value_of "admin_token" form) (sv_adminToken s)) then
        mret (render 401 "login" (sign_in_page candidate (view_error "Sign in failed"
          "The administrator token is not valid.")))
      else sign_in
  end.

Definition logout : authenticatedHandler := protected (λ r id session,
  _ ← on_sessions (destroy (Snap_ID session));
  mret (with_cookie clearSessionCookie (redirect "/login"))).

(** *** The dashboard *)

Definition ok_or {A} (fallback : A) (r : api_error + A) : A :=
  match r with inr a => a | inl _ => fallback end.
Definition succeeds {A} (r : api_error + A) : bool := match r with inr _ => true | inl _ => false end.

Definition dashboard : authenticatedHandler := λ _ _ session,
  data ← basePage session "Dashboard" "dashboard";
  users ← on_api (ListUsers api);
  providers ← on_api (ListProviders api);
  models ← on_api (ListModels api);
  keys ← on_api (ListVirtualKeys api);
  let available := succeeds users && succeeds providers && succeeds models in
  let resources := {|
    DS_Available := available;
    DS_Count := length (ok_or [] users) + length (ok_or [] providers) + length (ok_or [] models);
    DS_Error := if available then "" else "Users, providers or models are temporarily unavailable." |} in
  let key_section := {|
    DS_Available := succeeds keys; DS_Count := length (ok_or [] keys);
    DS_Error := if succeeds keys then "" else "Virtual keys are temporarily unavailable." |} in
  let lists := {|
    Users := ok_or [] users; Providers := ok_or [] providers; Models := ok_or [] models;
    VirtualKeys := ok_or [] keys; UserKeyCounts := ∅; UserNames := ∅; ProviderModelCounts := ∅;
    ProviderNames := ∅; ModelKeyCounts := ∅; ModelNames := ∅; RelationsAvailable := false;
    UserChoicesAvailable := false; ModelChoicesAvailable := false |} in
  mret (render 200 "dashboard" (set_sections resources key_section lists data)).

Definition health (_ : ui_request) (_ : string) : M ui_response :=
  mret {| R_Status := 200; R_Cookies := []; R_Body := Health |}.
Definition assets (_ : ui_request) (_ : string) : M ui_response :=
  mret {| R_Status := 200; R_Cookies := []; R_Body := Assets |}.

End server.
