(* ===== verification/AdminResources.v ===== *)
(** * The resource pages of the administration UI ([internal/adminui/resources.go])

    The handlers of the users, providers, models and virtual keys, and the
    routes of the whole UI. *)

From Stdlib Require Import Ascii.
From S2P Require Import Prelude GoStd Json GoText GoTime GoFmt GoWeb Errors State Model.
From S2P Require Import Service KeyService Session AdminView Platform AdminUI.

Definition warningMessage (prefix : string) (err : api_error) : string :=
  let detail := VE_Detail (errorView err).1 in
  if bool_decide (detail = "") then prefix +:+ "." else prefix +:+ ": " +:+ detail.

(** The warning of a failed read, none when it succeeded. *)
Definition warn {A} (prefix : string) (r : api_error + A) : list string :=
  match r with inr _ => [] | inl err => [warningMessage prefix err] end.

Definition validLifecycleStatus (value : string) : bool :=
  bool_decide (value = StatusActive) || bool_decide (value = StatusDisabled).

(** [strings.ToUpper(status[:1]) + status[1:] + " " + noun]. *)
Definition button_text (status noun : string) : string :=
  ToUpper (str_take 1 status) +:+ str_drop 1 status +:+ " " +:+ noun.

(** [query == "" || strings.Contains(strings.ToLower(text), query)] and
    [filter == "" || filter == value]. *)
Definition matches_query (query text : string) : bool :=
  bool_decide (query = "") || Contains (ToLower text) query.
Definition matches_filter (filter value : string) : bool :=
  bool_decide (filter = "") || bool_decide (filter = value).

Definition spaced (l : list string) : string := join " " l.

(** *** Forms of requests *)

Definition userFormFromRequest (r : ui_request) : userForm := {|
  UF_Name := formString r "name"; UF_Email := formString r "email";
  UF_Status := statusValue (value_of "status" (post_form r)) |}.
Definition providerFormFromRequest (r : ui_request) : providerForm := {|
  PF_Slug := formString r "slug"; PF_Name := formString r "name"; PF_Kind := formString r "kind";
  PF_AdapterAppID := formString r "adapter_app_id";
  PF_Status := statusValue (value_of "status" (post_form r)) |}.
Definition modelFormFromRequest (r : ui_request) : modelForm := {|
  MF_Alias := formString r "alias"; MF_ProviderID := formString r "provider_id";
  MF_UpstreamModel := formString r "upstream_model";
  MF_Status := statusValue (value_of "status" (post_form r)) |}.
Definition virtualKeyFormFromRequest (r : ui_request) : virtualKeyForm := {|
  KF_Name := formString r "name"; KF_UserID := formString r "user_id";
  KF_ModelIDs := distinct_ids (values_of "model_ids" (post_form r));
  KF_Status := statusValue (value_of "status" (post_form r));
  KF_ExpiresAt := formString r "expires_at";
  KF_OriginalExpiresAt := formString r "expires_at_original" |}.

(** [data.XForm, data.Editing, data.ResourceID, data.ResourceETag = &form, ...]. *)
Definition user_form (f : userForm) (editing : bool) (id etag : string) : pageForm := {|
  UserForm := Some f; ProviderForm := None; ModelForm := None; VirtualKeyForm := None;
  Editing := editing; ResourceID := id; ResourceETag := etag; OperationToken := "";
  CreatedKey := None; Confirm := None; Lifecycle := None |}.
Definition provider_form (f : providerForm) (editing : bool) (id etag : string) : pageForm := {|
  UserForm := None; ProviderForm := Some f; ModelForm := None; VirtualKeyForm := None;
  Editing := editing; ResourceID := id; ResourceETag := etag; OperationToken := "";
  CreatedKey := None; Confirm := None; Lifecycle := None |}.
Definition model_form (f : modelForm) (editing : bool) (id etag : string) : pageForm := {|
  UserForm := None; ProviderForm := None; ModelForm := Some f; VirtualKeyForm := None;
  Editing := editing; ResourceID := id; ResourceETag := etag; OperationToken := "";
  CreatedKey := None; Confirm := None; Lifecycle := None |}.
Definition key_form (f : virtualKeyForm) (editing : bool) (id etag token : string) : pageForm := {|
  UserForm := None; ProviderForm := None; ModelForm := None; VirtualKeyForm := Some f;
  Editing := editing; ResourceID := id; ResourceETag := etag; OperationToken := token;
  CreatedKey := None; Confirm := None; Lifecycle := None |}.
Definition created_form (key : CreatedVirtualKey) : pageForm := {|
  UserForm := None; ProviderForm := None; ModelForm := None; VirtualKeyForm := None;
  Editing := false; ResourceID := ""; ResourceETag := ""; OperationToken := "";
  CreatedKey := Some key; Confirm := None; Lifecycle := None |}.
Definition confirm_form (c : confirmView) : pageForm := {|
  UserForm := None; ProviderForm := None; ModelForm := None; VirtualKeyForm := None;
  Editing := false; ResourceID := ""; ResourceETag := ""; OperationToken := ""; CreatedKey := None;
  Confirm := Some c; Lifecycle := None |}.
Definition lifecycle_form (l : lifecycleView) : pageForm := {|
  UserForm := None; ProviderForm := None; ModelForm := None; VirtualKeyForm := None;
  Editing := false; ResourceID := ""; ResourceETag := ""; OperationToken := ""; CreatedKey := None;
  Confirm := None; Lifecycle := Some l |}.

Definition confirm_view (kind name collection id warning etag : string) : confirmView := {|
  CV_Kind := kind; CV_Name := name; CV_Action := "/" +:+ collection +:+ "/" +:+ id +:+ "/delete";
  CV_Cancel := "/" +:+ collection; CV_Warning := warning; CV_ETag := etag |}.
Definition lifecycle_view (kind name status collection id warning noun etag : string)
    : lifecycleView := {|
  LV_Kind := kind; LV_Name := name; LV_Status := status;
  LV_Action := "/" +:+ collection +:+ "/" +:+ id +:+ "/status"; LV_Cancel := "/" +:+ collection;
  LV_Warning := warning; LV_ButtonText := button_text status noun; LV_ETag := etag |}.

(** *** Names and orders of the lists *)

Definition user_names (l : list User) : gmap string string := names_by User_ID User_Name l.
Definition provider_names (l : list Provider) : gmap string string := names_by Provider_ID Provider_Name l.
Definition model_names (l : list Model.Model) : gmap string string := names_by Model_ID Model_Alias l.

Definition by_name_id (u : User) : list string := [ToLower (User_Name u); User_ID u].
Definition by_user_name (u : User) : list string := [ToLower (User_Name u)].
Definition by_slug (p : Provider) : list string := [Provider_Slug p].
Definition by_provider_name (p : Provider) : list string := [ToLower (Provider_Name p); Provider_ID p].
Definition by_alias (m : Model.Model) : list string := [ToLower (Model_Alias m); Model_ID m].
Definition by_key_name (k : PublicVirtualKey) : list string := [ToLower (Pub_Name k); Pub_ID k].

Definition invalid_edit : string :=
  "A current resource version and an active or disabled status are required. Reload the edit page and try again.".
Definition invalid_change : string :=
  "A current resource version and an active or disabled status are required. Reload the confirmation page and try again.".
Definition invalid_deletion : string :=
  "The resource version is missing. Reload the confirmation page and try again.".
Definition invalid_status : string := "Status must be active or disabled.".

Section handlers.
Context {W : Type} (api : API W) (env : environment) (s : server).

Abbreviation M := (stateful (ui_state W)).
Abbreviation handler := (@authenticatedHandler W).

(** ** Users *)

Definition users_shown (query status : string) (users : list User) : list User :=
  sort_by by_name_id (List.filter (λ user,
    matches_query query (spaced [User_Name user; User_Email user; User_ID user]) &&
    matches_filter status (User_Status user)) users).

Definition listUsers : handler := λ r _ session,
  data ← basePage env session "Users" "users";
  users ← on_api (ListUsers api);
  keys ← on_api (ListVirtualKeys api);
  match users with
  | inl err => mret (renderOperationError data "users" err)
  | inr users =>
      let query := query_of "q" r in
      let status := query_of "status" r in
      let lists := {|
        Users := users_shown (ToLower query) status users; Providers := []; Models := [];
        VirtualKeys := []; UserKeyCounts := count_keys (Pub_UserID <$> ok_or [] keys); UserNames := ∅;
        ProviderModelCounts := ∅; ProviderNames := ∅; ModelKeyCounts := ∅; ModelNames := ∅;
        RelationsAvailable := succeeds keys; UserChoicesAvailable := false;
        ModelChoicesAvailable := false |} in
      let filters := {| Query := query; StatusFilter := status; UserFilter := "";
                        ProviderFilter := ""; ModelFilter := "" |} in
      mret (render 200 "users" (set_content filters lists
              (warn "Virtual-key relationships are unavailable" keys) data))
  end.

Definition newUser : handler := λ _ _ session,
  data ← basePage env session "Create user" "users";
  let form := {| UF_Name := ""; UF_Email := ""; UF_Status := StatusActive |} in
  mret (render 200 "user-form" (set_form (user_form form false "" "") data)).

Definition createUser : handler := protected env (λ r _ session,
  let form := userFormFromRequest r in
  let again data := set_form (user_form form false "" "") data in
  if negb (validLifecycleStatus (UF_Status form)) then
    data ← basePage env session "Create user" "users";
    mret (renderInvalidForm (again data) "user-form" invalid_status)
  else
    created ← on_api (CreateUser api (userForm_input form));
    match created with
    | inl err =>
        data ← basePage env session "Create user" "users";
        mret (renderOperationError (again data) "user-form" err)
    | inr _ => flashRedirect env session "/users" "success" "User created."
    end).

Definition editUser : handler := λ _ id session,
  versioned ← on_api (GetUser api id);
  data ← basePage env session "Edit user" "users";
  match versioned with
  | inl err => mret (renderOperationError data "error" err)
  | inr v =>
      mret (render 200 "user-form" (set_form
        (user_form (userFormFromModel (Value v)) true (User_ID (Value v)) (ETag v)) data))
  end.

Definition updateUser : handler := protected env (λ r id session,
  let etag := formString r "_etag" in
  let form := userFormFromRequest r in
  let again data := set_form (user_form form true id etag) data in
  if bool_decide (etag = "") || negb (validLifecycleStatus (UF_Status form)) then
    data ← basePage env session "Edit user" "users";
    mret (renderInvalidForm (again data) "user-form" invalid_edit)
  else
    updated ← on_api (UpdateUser api id (userForm_input form) etag);
    match updated with
    | inl err =>
        data ← basePage env session "Edit user" "users";
        mret (renderOperationError (again data) "user-form" err)
    | inr _ => flashRedirect env session "/users" "success"
                 "User updated. Authorization revision advanced."
    end).

Definition confirmUserStatus : handler := λ r id session,
  let status := query_of "to" r in
  if negb (validLifecycleStatus status) then
    renderSimpleError env session 400 "Invalid status" invalid_status
  else
    versioned ← on_api (GetUser api id);
    data ← basePage env session "Change user status" "users";
    match versioned with
    | inl err => mret (renderOperationError data "error" err)
    | inr v =>
        let warning :=
          if bool_decide (status = StatusDisabled)
          then "Disabling the user immediately revokes every virtual key they own."
          else "Enabling the user can restore authorization for their active, non-expired keys." in
        mret (render 200 "confirm-status" (set_form (lifecycle_form
          (lifecycle_view "user" (User_Name (Value v)) status "users" (User_ID (Value v)) warning
             "user" (ETag v))) data))
    end.

(** The input that changes only the status of a user. *)
Definition user_with_status (status : Status) (user : User) : UserInput :=
  {| UI_Name := User_Name user; UI_Email := User_Email user; UI_Status := status |}.

Definition changeUserStatus : handler := protected env (λ r id session,
  let status := formString r "status" in
  let etag := formString r "_etag" in
  if negb (validLifecycleStatus status) || bool_decide (etag = "") then
    renderSimpleError env session 400 "Invalid status" invalid_change
  else
    versioned ← on_api (GetUser api id);
    updated ← match versioned with
              | inl err => mret (inl err)
              | inr v => on_api (UpdateUser api id (user_with_status status (Value v)) etag)
              end;
    match updated with
    | inl err =>
        data ← basePage env session "Change user status" "users";
        mret (renderOperationError data "error" err)
    | inr _ =>
        flashRedirect env session "/users" "success"
          (if bool_decide (status = StatusDisabled)
           then "User disabled. All of the user's keys are revoked."
           else "User enabled. Active keys can authorize again.")
    end).

(** A warning that counts what still refers to a resource. *)
Definition counted_warning (count : nat) (before after fallback : string) : string :=
  if (0 <? count)%nat then before +:+ FormatUint (Z.of_nat count) +:+ after else fallback.

Definition confirmDeleteUser : handler := λ _ id session,
  versioned ← on_api (GetUser api id);
  data ← basePage env session "Delete user" "users";
  match versioned with
  | inl err => mret (renderOperationError data "error" err)
  | inr v =>
      let user := Value v in
      keys ← on_api (ListVirtualKeys api);
      let count := length (List.filter (λ key, bool_decide (Pub_UserID key = User_ID user)) (ok_or [] keys)) in
      let warning := counted_warning count "This user still owns "
        " virtual key(s). Delete or reassign every key before deleting the user."
        "Deletion creates a permanent authorization fence. This action cannot be undone." in
      mret (render 200 "confirm-delete" (set_form
        (confirm_form (confirm_view "user" (User_Name user) "users" (User_ID user) warning (ETag v)))
        (set_content (Filters data) (Lists data)
           (warn "Could not inspect virtual-key ownership" keys) data)))
  end.

Definition deleteUser : handler := protected env (λ r id session,
  let etag := formString r "_etag" in
  if bool_decide (etag = "") then
    renderSimpleError env session 400 "Invalid deletion" invalid_deletion
  else
    deleted ← on_api (DeleteUser api id etag);
    match deleted with
    | inl err =>
        data ← basePage env session "Delete user" "users";
        mret (renderOperationError (set_form (confirm_form (confirm_view "user" id "users" id
          "The user can be deleted only after all virtual keys have been deleted or reassigned." etag))
          data) "confirm-delete" err)
    | inr _ => flashRedirect env session "/users" "success" "User deleted and permanently fenced."
    end).

(** ** Providers *)

Definition providers_shown (query status : string) (providers : list Provider) : list Provider :=
  sort_by by_slug (List.filter (λ p,
    matches_query query (spaced [Provider_Name p; Provider_Slug p; Provider_Kind p;
                                 Provider_AdapterAppID p]) &&
    matches_filter status (Provider_Status p)) providers).

Definition listProviders : handler := λ r _ session,
  data ← basePage env session "Providers" "providers";
  providers ← on_api (ListProviders api);
  models ← on_api (ListModels api);
  match providers with
  | inl err => mret (renderOperationError data "providers" err)
  | inr providers =>
      let query := query_of "q" r in
      let status := query_of "status" r in
      let lists := {|
        Users := []; Providers := providers_shown (ToLower query) status providers; Models := [];
        VirtualKeys := []; UserKeyCounts := ∅; UserNames := ∅;
        ProviderModelCounts := count_keys (Model_ProviderID <$> ok_or [] models); ProviderNames := ∅;
        ModelKeyCounts := ∅; ModelNames := ∅; RelationsAvailable := succeeds models;
        UserChoicesAvailable := false; ModelChoicesAvailable := false |} in
      let filters := {| Query := query; StatusFilter := status; UserFilter := "";
                        ProviderFilter := ""; ModelFilter := "" |} in
      mret (render 200 "providers" (set_content filters lists
              (warn "Model relationships are unavailable" models) data))
  end.

Definition newProvider : handler := λ _ _ session,
  data ← basePage env session "Create provider" "providers";
  let form := {| PF_Slug := ""; PF_Name := ""; PF_Kind := ProviderKindAnthropic;
                 PF_AdapterAppID := ""; PF_Status := StatusActive |} in
  mret (render 200 "provider-form" (set_form (provider_form form false "" "") data)).

Definition createProvider : handler := protected env (λ r _ session,
  let form := providerFormFromRequest r in
  let again data := set_form (provider_form form false "" "") data in
  if negb (validLifecycleStatus (PF_Status form)) then
    data ← basePage env session "Create provider" "providers";
    mret (renderInvalidForm (again data) "provider-form" invalid_status)
  else
    created ← on_api (CreateProvider api (providerForm_input form));
    match created with
    | inl err =>
        data ← basePage env session "Create provider" "providers";
        mret (renderOperationError (again data) "provider-form" err)
    | inr _ => flashRedirect env session "/providers" "success"
                 "Provider registered. Ensure the matching adapter is deployed."
    end).

Definition editProvider : handler := λ _ id session,
  versioned ← on_api (GetProvider api id);
  data ← basePage env session "Edit provider" "providers";
  match versioned with
  | inl err => mret (renderOperationError data "error" err)
  | inr v =>
      mret (render 200 "provider-form" (set_form
        (provider_form (providerFormFromModel (Value v)) true (Provider_ID (Value v)) (ETag v)) data))
  end.

Definition updateProvider : handler := protected env (λ r id session,
  let etag := formString r "_etag" in
  let form := providerFormFromRequest r in
  let again data := set_form (provider_form form true id etag) data in
  if bool_decide (etag = "") || negb (validLifecycleStatus (PF_Status form)) then
    data ← basePage env session "Edit provider" "providers";
    mret (renderInvalidForm (again data) "provider-form" invalid_edit)
  else
    updated ← on_api (UpdateProvider api id (providerForm_input form) etag);
    match updated with
    | inl err =>
        data ← basePage env session "Edit provider" "providers";
        mret (renderOperationError (again data) "provider-form" err)
    | inr _ => flashRedirect env session "/providers" "success" "Provider updated."
    end).

Definition confirmProviderStatus : handler := λ r id session,
  let status := query_of "to" r in
  if negb (validLifecycleStatus status) then
    renderSimpleError env session 400 "Invalid status" invalid_status
  else
    versioned ← on_api (GetProvider api id);
    data ← basePage env session "Change provider status" "providers";
    match versioned with
    | inl err => mret (renderOperationError data "error" err)
    | inr v =>
        let warning :=
          if bool_decide (status = StatusDisabled)
          then "Disabling the provider immediately makes all of its models unroutable."
          else "Enabling the provider makes its active models routable again." in
        mret (render 200 "confirm-status" (set_form (lifecycle_form
          (lifecycle_view "provider" (Provider_Name (Value v)) status "providers"
             (Provider_ID (Value v)) warning "provider" (ETag v))) data))
    end.

Definition provider_with_status (status : Status) (provider : Provider) : ProviderInput :=
  let input := providerForm_input (providerFormFromModel provider) in
  {| PI_Slug := PI_Slug input; PI_Name := PI_Name input; PI_Kind := PI_Kind input;
     PI_AdapterAppID := PI_AdapterAppID input; PI_Status := status |}.

Definition changeProviderStatus : handler := protected env (λ r id session,
  let status := formString r "status" in
  let etag := formString r "_etag" in
  if negb (validLifecycleStatus status) || bool_decide (etag = "") then
    renderSimpleError env session 400 "Invalid status" invalid_change
  else
    versioned ← on_api (GetProvider api id);
    updated ← match versioned with
              | inl err => mret (inl err)
              | inr v => on_api (UpdateProvider api id (provider_with_status status (Value v)) etag)
              end;
    match updated with
    | inl err =>
        data ← basePage env session "Change provider status" "providers";
        mret (renderOperationError data "error" err)
    | inr _ =>
        flashRedirect env session "/providers" "success"
          (if bool_decide (status = StatusDisabled)
           then "Provider disabled. Its models are no longer routable."
           else "Provider enabled.")
    end).

Definition confirmDeleteProvider : handler := λ _ id session,
  versioned ← on_api (GetProvider api id);
  data ← basePage env session "Delete provider" "providers";
  match versioned with
  | inl err => mret (renderOperationError data "error" err)
  | inr v =>
      let provider := Value v in
      models ← on_api (ListModels api);
      let count := length (List.filter (λ model,
        bool_decide (Model_ProviderID model = Provider_ID provider)) (ok_or [] models)) in
      let warning := counted_warning count "This provider still owns "
        " model(s). Delete or reassign every model before deleting the provider."
        "The provider can be deleted only when no model references it." in
      mret (render 200 "confirm-delete" (set_form
        (confirm_form (confirm_view "provider" (Provider_Name provider) "providers"
           (Provider_ID provider) warning (ETag v)))
        (set_content (Filters data) (Lists data)
           (warn "Could not inspect model relationships" models) data)))
  end.

Definition deleteProvider : handler := protected env (λ r id session,
  let etag := formString r "_etag" in
  if bool_decide (etag = "") then
    renderSimpleError env session 400 "Invalid deletion" invalid_deletion
  else
    deleted ← on_api (DeleteProvider api id etag);
    match deleted with
    | inl err =>
        data ← basePage env session "Delete provider" "providers";
        mret (renderOperationError (set_form (confirm_form (confirm_view "provider" id "providers" id
          "The provider was not deleted." etag)) data) "confirm-delete" err)
    | inr _ => flashRedirect env session "/providers" "success" "Provider deleted."
    end).

(** ** Models *)

Definition modelReferenceData (data : pageData) : M pageData :=
  providers ← on_api (ListProviders api);
  let l := ok_or [] providers in
  let lists := {|
    Users := []; Providers := sort_by by_provider_name l; Models := []; VirtualKeys := [];
    UserKeyCounts := ∅; UserNames := ∅; ProviderModelCounts := ∅; ProviderNames := provider_names l;
    ModelKeyCounts := ∅; ModelNames := ∅; RelationsAvailable := false;
    UserChoicesAvailable := false; ModelChoicesAvailable := false |} in
  mret (set_content (Filters data) lists (warn "Provider choices are unavailable" providers) data).

Definition model_text (names : gmap string string) (m : Model.Model) : string :=
  spaced [Model_Alias m; Model_UpstreamModel m; Model_ID m; Model_ProviderID m;
          default "" (names !! Model_ProviderID m)].
Definition models_shown (query status provider : string) (names : gmap string string)
    (models : list Model.Model) : list Model.Model :=
  sort_by by_alias (List.filter (λ m,
    matches_query query (model_text names m) && matches_filter status (Model_Status m) &&
    matches_filter provider (Model_ProviderID m)) models).

Definition listModels : handler := λ r _ session,
  data ← basePage env session "Models" "models";
  models ← on_api (ListModels api);
  providers ← on_api (ListProviders api);
  keys ← on_api (ListVirtualKeys api);
  match models with
  | inl err => mret (renderOperationError data "models" err)
  | inr models =>
      let names := provider_names (ok_or [] providers) in
      let query := query_of "q" r in
      let status := query_of "status" r in
      let provider := query_of "provider_id" r in
      let lists := {|
        Users := []; Providers := sort_by by_provider_name (ok_or [] providers);
        Models := models_shown (ToLower query) status provider names models; VirtualKeys := [];
        UserKeyCounts := ∅; UserNames := ∅; ProviderModelCounts := ∅; ProviderNames := names;
        ModelKeyCounts := count_keys (ok_or [] keys ≫= Pub_ModelIDs); ModelNames := ∅;
        RelationsAvailable := succeeds providers && succeeds keys; UserChoicesAvailable := false;
        ModelChoicesAvailable := false |} in
      let filters := {| Query := query; StatusFilter := status; UserFilter := "";
                        ProviderFilter := provider; ModelFilter := "" |} in
      mret (render 200 "models" (set_content filters lists
              (warn "Provider names are unavailable" providers ++
               warn "Virtual-key relationships are unavailable" keys) data))
  end.

Definition newModel : handler := λ _ _ session,
  data ← basePage env session "Create model" "models";
  let form := {| MF_Alias := ""; MF_ProviderID := ""; MF_UpstreamModel := "";
                 MF_Status := StatusActive |} in
  data ← modelReferenceData (set_form (model_form form false "" "") data);
  mret (render 200 "model-form" data).

(** The model form again, with the choices. *)
Definition model_again (session : sessionSnapshot) (title : string) (form : pageForm) : M pageData :=
  data ← basePage env session title "models";
  modelReferenceData (set_form form data).

Definition createModel : handler := protected env (λ r _ session,
  let form := modelFormFromRequest r in
  let again := model_again session "Create model" (model_form form false "" "") in
  if negb (validLifecycleStatus (MF_Status form)) then
    data ← again; mret (renderInvalidForm data "model-form" invalid_status)
  else
    created ← on_api (CreateModel api (modelForm_input form));
    match created with
    | inl err => data ← again; mret (renderOperationError data "model-form" err)
    | inr _ => flashRedirect env session "/models" "success" "Model created."
    end).

Definition editModel : handler := λ _ id session,
  versioned ← on_api (GetModel api id);
  data ← basePage env session "Edit model" "models";
  match versioned with
  | inl err => mret (renderOperationError data "error" err)
  | inr v =>
      data ← modelReferenceData (set_form
        (model_form (modelFormFromModel (Value v)) true (Model_ID (Value v)) (ETag v)) data);
      mret (render 200 "model-form" data)
  end.

Definition updateModel : handler := protected env (λ r id session,
  let etag := formString r "_etag" in
  let form := modelFormFromRequest r in
  let again := model_again session "Edit model" (model_form form true id etag) in
  if bool_decide (etag = "") || negb (validLifecycleStatus (MF_Status form)) then
    data ← again; mret (renderInvalidForm data "model-form" invalid_edit)
  else
    updated ← on_api (UpdateModel api id (modelForm_input form) etag);
    match updated with
    | inl err => data ← again; mret (renderOperationError data "model-form" err)
    | inr _ => flashRedirect env session "/models" "success" "Model updated."
    end).

Definition confirmModelStatus : handler := λ r id session,
  let status := query_of "to" r in
  if negb (validLifecycleStatus status) then
    renderSimpleError env session 400 "Invalid status" invalid_status
  else
    versioned ← on_api (GetModel api id);
    data ← basePage env session "Change model status" "models";
    match versioned with
    | inl err => mret (renderOperationError data "error" err)
    | inr v =>
        let warning :=
          if bool_decide (status = StatusDisabled)
          then "Disabling the model immediately makes it unroutable for every virtual key."
          else "Enabling the model makes it routable for active virtual keys that reference it." in
        mret (render 200 "confirm-status" (set_form (lifecycle_form
          (lifecycle_view "model" (Model_Alias (Value v)) status "models" (Model_ID (Value v)) warning
             "model" (ETag v))) data))
    end.

Definition model_with_status (status : Status) (model : Model.Model) : ModelInput :=
  let input := modelForm_input (modelFormFromModel model) in
  {| MI_Alias := MI_Alias input; MI_ProviderID := MI_ProviderID input;
     MI_UpstreamModel := MI_UpstreamModel input; MI_Status := status |}.

Definition changeModelStatus : handler := protected env (λ r id session,
  let status := formString r "status" in
  let etag := formString r "_etag" in
  if negb (validLifecycleStatus status) || bool_decide (etag = "") then
    renderSimpleError env session 400 "Invalid status" invalid_change
  else
    versioned ← on_api (GetModel api id);
    updated ← match versioned with
              | inl err => mret (inl err)
              | inr v => on_api (UpdateModel api id (model_with_status status (Value v)) etag)
              end;
    match updated with
    | inl err =>
        data ← basePage env session "Change model status" "models";
        mret (renderOperationError data "error" err)
    | inr _ =>
        flashRedirect env session "/models" "success"
          (if bool_decide (status = StatusDisabled) then "Model disabled and unroutable."
           else "Model enabled.")
    end).

Definition confirmDeleteModel : handler := λ _ id session,
  versioned ← on_api (GetModel api id);
  data ← basePage env session "Delete model" "models";
  match versioned with
  | inl err => mret (renderOperationError data "error" err)
  | inr v =>
      let model := Value v in
      keys ← on_api (ListVirtualKeys api);
      let count := length (List.filter (λ key, bool_decide (Model_ID model ∈ Pub_ModelIDs key)) (ok_or [] keys)) in
      let warning := counted_warning count "This model is still referenced by "
        " virtual key(s). Remove it from every key before deleting the model."
        "The model can be deleted only when no virtual key references it." in
      mret (render 200 "confirm-delete" (set_form
        (confirm_form (confirm_view "model" (Model_Alias model) "models" (Model_ID model) warning (ETag v)))
        (set_content (Filters data) (Lists data)
           (warn "Could not inspect virtual-key relationships" keys) data)))
  end.

Definition deleteModel : handler := protected env (λ r id session,
  let etag := formString r "_etag" in
  if bool_decide (etag = "") then
    renderSimpleError env session 400 "Invalid deletion" invalid_deletion
  else
    deleted ← on_api (DeleteModel api id etag);
    match deleted with
    | inl err =>
        data ← basePage env session "Delete model" "models";
        mret (renderOperationError (set_form (confirm_form (confirm_view "model" id "models" id
          "The model was not deleted." etag)) data) "confirm-delete" err)
    | inr _ => flashRedirect env session "/models" "success" "Model deleted."
    end).

(** ** Virtual keys *)

Definition keyReferenceData (data : pageData) : M pageData :=
  users ← on_api (ListUsers api);
  models ← on_api (ListModels api);
  providers ← on_api (ListProviders api);
  let lists := {|
    Users := sort_by by_user_name (ok_or [] users); Providers := sort_by by_slug (ok_or [] providers);
    Models := sort_by by_alias (ok_or [] models); VirtualKeys := []; UserKeyCounts := ∅;
    UserNames := user_names (ok_or [] users); ProviderModelCounts := ∅;
    ProviderNames := provider_names (ok_or [] providers); ModelKeyCounts := ∅;
    ModelNames := model_names (ok_or [] models); RelationsAvailable := false;
    UserChoicesAvailable := succeeds users; ModelChoicesAvailable := succeeds models |} in
  mret (set_content (Filters data) lists
    (warn "User choices are unavailable" users ++ warn "Model choices are unavailable" models ++
     warn "Provider names are unavailable" providers) data).

Definition key_text (users models : gmap string string) (k : PublicVirtualKey) : string :=
  spaced ([Pub_Name k; Pub_Prefix k; Pub_ID k; Pub_UserID k; default "" (users !! Pub_UserID k)] ++
          (Pub_ModelIDs k ≫= λ id, [id; default "" (models !! id)])).
Definition keys_shown (query status user model : string) (users models : gmap string string)
    (keys : list PublicVirtualKey) : list PublicVirtualKey :=
  sort_by by_key_name (List.filter (λ k,
    matches_query query (key_text users models k) && matches_filter status (Pub_Status k) &&
    matches_filter user (Pub_UserID k) &&
    (bool_decide (model = "") || bool_decide (model ∈ Pub_ModelIDs k))) keys).

Definition listVirtualKeys : handler := λ r _ session,
  data ← basePage env session "Virtual keys" "virtual-keys";
  keys ← on_api (ListVirtualKeys api);
  users ← on_api (ListUsers api);
  models ← on_api (ListModels api);
  match keys with
  | inl err => mret (renderOperationError data "virtual-keys" err)
  | inr keys =>
      let userNames := user_names (ok_or [] users) in
      let modelNames := model_names (ok_or [] models) in
      let query := query_of "q" r in
      let status := query_of "status" r in
      let user := query_of "user_id" r in
      let model := query_of "model_id" r in
      let lists := {|
        Users := sort_by by_user_name (ok_or [] users); Providers := []; Models := ok_or [] models;
        VirtualKeys := keys_shown (ToLower query) status user model userNames modelNames keys;
        UserKeyCounts := ∅; UserNames := userNames; ProviderModelCounts := ∅; ProviderNames := ∅;
        ModelKeyCounts := ∅; ModelNames := modelNames; RelationsAvailable := false;
        UserChoicesAvailable := false; ModelChoicesAvailable := false |} in
      let filters := {| Query := query; StatusFilter := status; UserFilter := user;
                        ProviderFilter := ""; ModelFilter := model |} in
      mret (render 200 "virtual-keys" (set_content filters lists
              (warn "User names are unavailable" users ++ warn "Model names are unavailable" models)
              data))
  end.

Definition no_key_form : virtualKeyForm := {|
  KF_Name := ""; KF_UserID := ""; KF_ModelIDs := []; KF_Status := StatusActive; KF_ExpiresAt := "";
  KF_OriginalExpiresAt := "" |}.

Definition newVirtualKey : handler := λ _ _ session,
  data ← basePage env session "Create virtual key" "virtual-keys";
  token ← on_sessions (issueKeyCreationToken env (Snap_ID session));
  match token with
  | inl _ =>
      renderSimpleError env session 503 "Key creation unavailable"
        "A one-time key-creation form could not be prepared. Reload the page and try again."
  | inr token =>
      data ← keyReferenceData (set_form (key_form no_key_form false "" "" token) data);
      mret (render 200 "virtual-key-form" data)
  end.

(** [refreshKeyCreationForm], and what is answered with its page. *)
Definition refreshKeyCreationForm (session : sessionSnapshot) (form : virtualKeyForm)
    (answer : pageData → ui_response) : M ui_response :=
  data ← basePage env session "Create virtual key" "virtual-keys";
  token ← on_sessions (issueKeyCreationToken env (Snap_ID session));
  match token with
  | inl _ =>
      renderSimpleError env session 503 "Key creation unavailable"
        "A new one-time key-creation form could not be prepared. Reload the page and try again."
  | inr token =>
      data ← keyReferenceData (set_form (key_form form false "" "" token) data);
      mret (answer data)
  end.

Definition lost_secret (instance : string) : api_error := IsAPIError {|
  AE_Status := 502; AE_Title := "Key creation outcome unknown";
  AE_Detail := "The control plane may have created the key, but its one-time secret could not be delivered safely. Inspect the virtual-key list and delete any matching key before deliberately creating a replacement.";
  AE_Instance := instance; AE_Ambiguous := false |}.

Definition ambiguous (err : api_error) : option APIError :=
  match err with IsAPIError e => if AE_Ambiguous e then Some e else None | OtherError _ => None end.

(** The form of a new key has no original expiry. *)
Definition new_key_form (r : ui_request) : virtualKeyForm :=
  let form := virtualKeyFormFromRequest r in
  {| KF_Name := KF_Name form; KF_UserID := KF_UserID form; KF_ModelIDs := KF_ModelIDs form;
     KF_Status := KF_Status form; KF_ExpiresAt := KF_ExpiresAt form; KF_OriginalExpiresAt := "" |}.

Definition createVirtualKey : handler := protected env (λ r _ session,
  let form := new_key_form r in
  let again := refreshKeyCreationForm session form in
  consumed ← on_sessions (consumeKeyCreationToken env (Snap_ID session)
               (value_of "_operation" (post_form r)));
  if negb consumed then
    again (λ data, render 409 "virtual-key-form" (set_error (view_error "Form already used"
      "This key-creation form was already submitted or expired. Review the current key list before trying again.")
      409 data))
  else if negb (validLifecycleStatus (KF_Status form)) then
    again (λ data, renderInvalidForm data "virtual-key-form" invalid_status)
  else
    match virtualKeyForm_input form with
    | inl err => again (λ data, renderInvalidForm data "virtual-key-form" (Error err))
    | inr input =>
        created ← on_api (CreateVirtualKey api input);
        match created with
        | inl err =>
            match ambiguous err with
            | Some e =>
                data ← basePage env session "Key creation outcome unknown" "virtual-keys";
                mret (renderOperationError data "error" (lost_secret (AE_Instance e)))
            | None => again (λ data, renderOperationError data "virtual-key-form" err)
            end
        | inr key =>
            data ← basePage env session "Save virtual key" "virtual-keys";
            mret (render 201 "key-reveal" (set_form (created_form key) data))
        end
    end).

Definition editVirtualKey : handler := λ _ id session,
  versioned ← on_api (GetVirtualKey api id);
  data ← basePage env session "Edit virtual key" "virtual-keys";
  match versioned with
  | inl err => mret (renderOperationError data "error" err)
  | inr v =>
      data ← keyReferenceData (set_form
        (key_form (virtualKeyFormFromModel (Value v)) true (Pub_ID (Value v)) (ETag v) "") data);
      mret (render 200 "virtual-key-form" data)
  end.

(** The form of an existing key again, with the choices. *)
Definition key_again (session : sessionSnapshot) (form : pageForm) : M pageData :=
  data ← basePage env session "Edit virtual key" "virtual-keys";
  keyReferenceData (set_form form data).

Definition updateVirtualKey : handler := protected env (λ r id session,
  let etag := formString r "_etag" in
  let form := virtualKeyFormFromRequest r in
  let again := key_again session (key_form form true id etag "") in
  if bool_decide (etag = "") || negb (validLifecycleStatus (KF_Status form)) then
    data ← again; mret (renderInvalidForm data "virtual-key-form" invalid_edit)
  else
    match virtualKeyForm_input form with
    | inl err => data ← again; mret (renderInvalidForm data "virtual-key-form" (Error err))
    | inr input =>
        updated ← on_api (UpdateVirtualKey api id input etag);
        match updated with
        | inl err => data ← again; mret (renderOperationError data "virtual-key-form" err)
        | inr _ => flashRedirect env session "/virtual-keys" "success" "Virtual key updated."
        end
    end).

Definition confirmVirtualKeyStatus : handler := λ r id session,
  let status := query_of "to" r in
  if negb (validLifecycleStatus status) then
    renderSimpleError env session 400 "Invalid status" invalid_status
  else
    versioned ← on_api (GetVirtualKey api id);
    data ← basePage env session "Change virtual-key status" "virtual-keys";
    match versioned with
    | inl err => mret (renderOperationError data "error" err)
    | inr v =>
        let warning :=
          if bool_decide (status = StatusDisabled)
          then "Disabling the key revokes this credential immediately."
          else "Enabling the key restores authorization only when its owner, selected models and provider routes are active and it has not expired." in
        mret (render 200 "confirm-status" (set_form (lifecycle_form
          (lifecycle_view "virtual key" (Pub_Name (Value v)) status "virtual-keys" (Pub_ID (Value v))
             warning "key" (ETag v))) data))
    end.

Definition key_with_status (status : Status) (key : PublicVirtualKey) : VirtualKeyInput := {|
  VI_Name := Pub_Name key; VI_UserID := Pub_UserID key; VI_ModelIDs := Pub_ModelIDs key;
  VI_Status := status; VI_ExpiresAt := Pub_ExpiresAt key |}.

Definition changeVirtualKeyStatus : handler := protected env (λ r id session,
  let status := formString r "status" in
  let etag := formString r "_etag" in
  if negb (validLifecycleStatus status) || bool_decide (etag = "") then
    renderSimpleError env session 400 "Invalid status" invalid_change
  else
    versioned ← on_api (GetVirtualKey api id);
    updated ← match versioned with
              | inl err => mret (inl err)
              | inr v => on_api (UpdateVirtualKey api id (key_with_status status (Value v)) etag)
              end;
    match updated with
    | inl err =>
        data ← basePage env session "Change key status" "virtual-keys";
        mret (renderOperationError data "error" err)
    | inr _ =>
        flashRedirect env session "/virtual-keys" "success"
          (if bool_decide (status = StatusDisabled) then "Virtual key disabled and revoked."
           else "Virtual key enabled.")
    end).

Definition confirmDeleteVirtualKey : handler := λ _ id session,
  versioned ← on_api (GetVirtualKey api id);
  data ← basePage env session "Delete virtual key" "virtual-keys";
  match versioned with
  | inl err => mret (renderOperationError data "error" err)
  | inr v =>
      mret (render 200 "confirm-delete" (set_form
        (confirm_form (confirm_view "virtual key" (Pub_Name (Value v)) "virtual-keys" (Pub_ID (Value v))
           "The key will stop authorizing immediately. Its plaintext secret cannot be recovered."
           (ETag v))) data))
  end.

Definition deleteVirtualKey : handler := protected env (λ r id session,
  let etag := formString r "_etag" in
  if bool_decide (etag = "") then
    renderSimpleError env session 400 "Invalid deletion" invalid_deletion
  else
    deleted ← on_api (DeleteVirtualKey api id etag);
    match deleted with
    | inl err =>
        data ← basePage env session "Delete virtual key" "virtual-keys";
        mret (renderOperationError (set_form (confirm_form (confirm_view "virtual key" id
          "virtual-keys" id "The key was not deleted." etag)) data) "confirm-delete" err)
    | inr _ => flashRedirect env session "/virtual-keys" "success" "Virtual key deleted."
    end).

(** ** Routes *)

Record ui_route := {
  ur_method : string; ur_pattern : list (option string);
  ur_handler : ui_request → string → M ui_response
}.

(** The nine routes of a collection. *)
Definition collection (name : string)
    (list_ new create edit update confirmStatus changeStatus confirmDelete delete : handler)
    : list ui_route :=
  let on method path h := {| ur_method := method; ur_pattern := Some name :: path;
                             ur_handler := auth env s h |} in
  [on "GET" [] list_; on "GET" [Some "new"] new; on "POST" [] create;
   on "GET" [None; Some "edit"] edit; on "POST" [None] update;
   on "GET" [None; Some "status"] confirmStatus; on "POST" [None; Some "status"] changeStatus;
   on "GET" [None; Some "delete"] confirmDelete; on "POST" [None; Some "delete"] delete].

Definition routes : list ui_route :=
  [{| ur_method := "GET"; ur_pattern := [Some "livez"]; ur_handler := health |};
   {| ur_method := "GET"; ur_pattern := [Some "readyz"]; ur_handler := health |};
   {| ur_method := "GET"; ur_pattern := [Some "login"]; ur_handler := loginPage env s |};
   {| ur_method := "POST"; ur_pattern := [Some "login"]; ur_handler := login env s |};
   {| ur_method := "POST"; ur_pattern := [Some "logout"]; ur_handler := auth env s (logout env s) |};
   {| ur_method := "GET"; ur_pattern := []; ur_handler := auth env s (dashboard api env) |}] ++
  collection "users" listUsers newUser createUser editUser updateUser confirmUserStatus
    changeUserStatus confirmDeleteUser deleteUser ++
  collection "providers" listProviders newProvider createProvider editProvider updateProvider
    confirmProviderStatus changeProviderStatus confirmDeleteProvider deleteProvider ++
  collection "models" listModels newModel createModel editModel updateModel confirmModelStatus
    changeModelStatus confirmDeleteModel deleteModel ++
  collection "virtual-keys" listVirtualKeys newVirtualKey createVirtualKey editVirtualKey
    updateVirtualKey confirmVirtualKeyStatus changeVirtualKeyStatus confirmDeleteVirtualKey
    deleteVirtualKey.

(** [GET /assets/] and everything below it. *)
Definition asset_path (path : list string) : bool :=
  match path with "assets" :: _ :: _ => true | _ => false end.

(** [mux.ServeHTTP] on clean paths. *)
Definition ServeHTTP (r : ui_request) : M ui_response :=
  let plain status text := {| R_Status := status; R_Cookies := []; R_Body := Plain text |} in
  let wrong_method := plain 405%Z "Method Not Allowed" in
  if asset_path (UI_Path r) then
    if method_matches "GET" (UI_Method r) then assets r "" else mret wrong_method
  else
    let found := omap (λ rt, pair rt <$> match_path (ur_pattern rt) (UI_Path r) "") routes in
    match List.find (λ p, method_matches (ur_method p.1) (UI_Method r)) found with
    | Some (rt, id) => ur_handler rt r id
    | None =>
        mret (if bool_decide (length found = 0%nat) then plain 404%Z "404 page not found" else wrong_method)
    end.

End handlers.
