(* ===== verification/AdminFacts.v ===== *)
(** * What a request to the administration UI can do

    The API is called through a log.  A request only makes calls for a signed
    in browser, at most one of them changes something, and only what the form
    of a protected POST asks for; a session only starts with a sign-in form
    that carries the administrator token and a challenge of this server. *)

From Stdlib Require Import Ascii.
From S2P Require Import Prelude GoStd Json GoText GoNet GoTime GoFmt GoWeb Errors State Model.
From S2P Require Import Service KeyService Platform HttpFacts Session SessionFacts.
From S2P Require Import AdminView AdminUI AdminResources.

#[local] Arguments bool_decide : simpl never.

(** ** The log of the calls *)

Inductive api_input : Type :=
| InUser (i : UserInput) | InProvider (i : ProviderInput) | InModel (i : ModelInput)
| InKey (i : VirtualKeyInput).

Inductive api_call : Type :=
| CallList (collection : string)
| CallGet (collection id : string)
| CallCreate (input : api_input)
| CallUpdate (id : string) (input : api_input) (etag : string)
| CallDelete (collection id etag : string).

(** A call, and what it failed with. *)
Record call_event := { ce_call : api_call; ce_error : option api_error }.

Definition event_of {A} (c : api_call) (r : api_error + A) : call_event :=
  {| ce_call := c; ce_error := match r with inl e => Some e | inr _ => None end |}.

Definition logging {W A} (c : api_call) (m : stateful W (api_error + A))
    : stateful (W * list call_event) (api_error + A) := λ wl,
  let '(r, w) := m wl.1 in (r, (w, wl.2 ++ [event_of c r])).

Definition logged {W} (api : API W) : API (W * list call_event) := {|
  ListUsers := logging (CallList "users") (ListUsers api);
  GetUser id := logging (CallGet "users" id) (GetUser api id);
  CreateUser i := logging (CallCreate (InUser i)) (CreateUser api i);
  UpdateUser id i etag := logging (CallUpdate id (InUser i) etag) (UpdateUser api id i etag);
  DeleteUser id etag := logging (CallDelete "users" id etag) (DeleteUser api id etag);
  ListProviders := logging (CallList "providers") (ListProviders api);
  GetProvider id := logging (CallGet "providers" id) (GetProvider api id);
  CreateProvider i := logging (CallCreate (InProvider i)) (CreateProvider api i);
  UpdateProvider id i etag := logging (CallUpdate id (InProvider i) etag) (UpdateProvider api id i etag);
  DeleteProvider id etag := logging (CallDelete "providers" id etag) (DeleteProvider api id etag);
  ListModels := logging (CallList "models") (ListModels api);
  GetModel id := logging (CallGet "models" id) (GetModel api id);
  CreateModel i := logging (CallCreate (InModel i)) (CreateModel api i);
  UpdateModel id i etag := logging (CallUpdate id (InModel i) etag) (UpdateModel api id i etag);
  DeleteModel id etag := logging (CallDelete "models" id etag) (DeleteModel api id etag);
  ListVirtualKeys := logging (CallList "virtual-keys") (ListVirtualKeys api);
  GetVirtualKey id := logging (CallGet "virtual-keys" id) (GetVirtualKey api id);
  CreateVirtualKey i := logging (CallCreate (InKey i)) (CreateVirtualKey api i);
  UpdateVirtualKey id i etag := logging (CallUpdate id (InKey i) etag) (UpdateVirtualKey api id i etag);
  DeleteVirtualKey id etag := logging (CallDelete "virtual-keys" id etag) (DeleteVirtualKey api id etag)
|}.

Definition mutating (e : call_event) : bool :=
  match ce_call e with CallList _ | CallGet _ _ => false | _ => true end.
Definition mutations (l : list call_event) : list call_event := List.filter mutating l.

Lemma mutations_app l l' : mutations (l ++ l') = mutations l ++ mutations l'.
Proof. apply List.filter_app. Qed.

(** ** What is asked for, and what is answered *)

(** An update is that of the edit form, or changes the status as the form says. *)
Definition updates {A} (r : ui_request) (collection id given : string) (form new : A) : Prop :=
  UI_Path r = [collection; id] ∧ new = form ∨
  UI_Path r = [collection; id; "status"] ∧ given = formString r "status".

(** The call the form of a request asks for. *)
Definition requested (r : ui_request) (c : api_call) : Prop :=
  let path := UI_Path r in
  let etag := formString r "_etag" in
  let valid status := validLifecycleStatus status = true in
  match c with
  | CallCreate (InUser i) =>
      path = ["users"] ∧ i = userForm_input (userFormFromRequest r) ∧ valid (UI_Status i)
  | CallCreate (InProvider i) =>
      path = ["providers"] ∧ i = providerForm_input (providerFormFromRequest r) ∧ valid (PI_Status i)
  | CallCreate (InModel i) =>
      path = ["models"] ∧ i = modelForm_input (modelFormFromRequest r) ∧ valid (MI_Status i)
  | CallCreate (InKey i) =>
      path = ["virtual-keys"] ∧ virtualKeyForm_input (new_key_form r) = inr i ∧ valid (VI_Status i)
  | CallUpdate id (InUser i) tag =>
      tag = etag ∧ etag ≠ "" ∧ valid (UI_Status i) ∧
      updates r "users" id (UI_Status i) (userForm_input (userFormFromRequest r)) i
  | CallUpdate id (InProvider i) tag =>
      tag = etag ∧ etag ≠ "" ∧ valid (PI_Status i) ∧
      updates r "providers" id (PI_Status i) (providerForm_input (providerFormFromRequest r)) i
  | CallUpdate id (InModel i) tag =>
      tag = etag ∧ etag ≠ "" ∧ valid (MI_Status i) ∧
      updates r "models" id (MI_Status i) (modelForm_input (modelFormFromRequest r)) i
  | CallUpdate id (InKey i) tag =>
      tag = etag ∧ etag ≠ "" ∧ valid (VI_Status i) ∧
      updates r "virtual-keys" id (VI_Status i) (virtualKeyForm_input (virtualKeyFormFromRequest r)) (inr i)
  | CallDelete collection id tag =>
      tag = etag ∧ etag ≠ "" ∧ path = [collection; id; "delete"]
  | CallList _ | CallGet _ _ => False
  end.

(** The answers that say that something was changed. *)
Definition claims_success (a : ui_response) : bool :=
  match R_Body a with
  | Redirected location => negb (bool_decide (location = "/") || bool_decide (location = "/login"))
  | Rendered template _ => bool_decide (template = "key-reveal")
  | _ => false
  end.

(** An error page; an outcome that is not known is called so. *)
Definition error_page (unknown : bool) (a : ui_response) : Prop :=
  ∃ template data view, R_Body a = Rendered template data ∧ template ≠ "key-reveal" ∧
    PageError data = Some view ∧ (400 <= R_Status a <= 599)%Z ∧
    (unknown = true → VE_Title view = "Operation outcome unknown" ∨
                      VE_Title view = "Key creation outcome unknown").

Definition is_unknown (err : api_error) : bool := bool_decide (is_Some (ambiguous err)).

Definition reported (err : option api_error) (a : ui_response) : Prop :=
  match err with
  | None => claims_success a = true
  | Some err => error_page (is_unknown err) a
  end.

(** What a request changes, with the answer. *)
Definition permitted (r : ui_request) (a : ui_response) (changes : list call_event) : Prop :=
  changes = [] ∧ claims_success a = false ∨
  ∃ e, changes = [e] ∧ requested r (ce_call e) ∧ reported (ce_error e) a.

(** ** Programs of the handlers

    [does_at u m Q]: from the state [u], [m] adds calls to the log whose
    changes satisfy [Q] with the result, and starts no session. *)

Definition no_new (st st' : sessionStore) : Prop := ∀ id x',
  sessions st' !! id = Some x' → ∃ x, sessions st !! id = Some x ∧ same_session x x'.

#[export] Instance no_new_preorder : PreOrder no_new.
Proof.
  split; [intros st id x Hx; exists x; by split_and!|].
  intros s1 s2 s3 H12 H23 id x Hx. destruct (H23 id x Hx) as (y & Hy & ? & ? & ?).
  destruct (H12 id y Hy) as (z & Hz & ? & ? & ?). exists z. unfold same_session. split_and!; congruence.
Qed.

Section programs.
Context {W : Type} (env : environment).
Abbreviation state := (ui_state (W * list call_event)).

Definition log_of (u : state) : list call_event := (ui_world u).2.

Definition does_at (u : state) {A} (m : stateful state A) (Q : A → list call_event → Prop) : Prop :=
  ∃ calls, log_of (m u).2 = log_of u ++ calls ∧ no_new (ui_sessions u) (ui_sessions (m u).2) ∧
    Q (m u).1 (mutations calls).
Definition does {A} (m : stateful state A) (Q : A → list call_event → Prop) : Prop :=
  ∀ u, does_at u m Q.

Lemma does_ret {A} (a : A) (Q : A → list call_event → Prop) : Q a [] → does (mret a) Q.
Proof. intros H u. exists []. split_and!; [by rewrite app_nil_r|done|done]. Qed.

Lemma does_at_bind u {A B} (m : stateful state A) (f : A → stateful state B) R Q :
  does_at u m R → (∀ a c, R a c → does (f a) (λ b c', Q b (c ++ c'))) → does_at u (m ≫= f) Q.
Proof.
  unfold does_at, mbind, stateful_bind. destruct (m u) as [a u1]. cbn. intros (c & Hl & Hs & HR) Hf.
  destruct (Hf a _ HR u1) as (c' & Hl' & Hs' & HQ). exists (c ++ c').
  split_and!; [by rewrite Hl', Hl, app_assoc|by etrans|by rewrite mutations_app].
Qed.
Lemma does_bind {A B} (m : stateful state A) (f : A → stateful state B) R Q :
  does m R → (∀ a c, R a c → does (f a) (λ b c', Q b (c ++ c'))) → does (m ≫= f) Q.
Proof. intros Hm Hf u. by eapply does_at_bind. Qed.
Lemma does_mono {A} (m : stateful state A) (R Q : A → list call_event → Prop) :
  does m R → (∀ a c, R a c → Q a c) → does m Q.
Proof. intros Hm HRQ u. destruct (Hm u) as (c & Hl & Hs & HR). exists c. auto. Qed.

Lemma does_sessions {A} (op : stateful sessionStore A) :
  (∀ st, no_new st (op st).2) → does (on_sessions op) (λ _ c, c = []).
Proof.
  intros Hop [st wl]. exists []. unfold on_sessions. cbn. specialize (Hop st). destruct (op st) as [a st'].
  split_and!; [by rewrite app_nil_r|done|done].
Qed.

Lemma does_call {A} (call : api_call) (m : stateful W (api_error + A)) :
  does (on_api (logging call m)) (λ r c, c = mutations [event_of call r]).
Proof.
  intros [st [w l]]. unfold does_at, on_api, logging. cbn. destruct (m w) as [r w']. cbn.
  exists [event_of call r]. by split_and!.
Qed.

(** *** The operations of the session store *)

Lemma perform_no_new op st : (∀ b, op ≠ OpCreate b) → no_new st (perform env 0 0 op st).2.
Proof.
  intros Hop. destruct (perform env 0 0 op st) as [out st'] eqn:E. apply perform_effect in E as [E _].
  intros id x' [(x & Hx & Hk)|(-> & _)]%E; [exists x; split; [done|apply Hk]|by destruct (Hop (Authenticated x'))].
Qed.
Ltac from_perform op := intros st; generalize (perform_no_new op st); unfold perform, fmap, stateful_fmap; match goal with |- _ → no_new _ (?m st).2 => destruct (m st) end;
  intros H; apply H; discriminate.
Lemma takeFlashes_no_new id : ∀ st, no_new st (takeFlashes env id st).2.
Proof. from_perform (OpTake id). Qed.
Lemma addFlash_no_new id flash : ∀ st, no_new st (addFlash env id flash st).2.
Proof. from_perform (OpFlash id flash). Qed.
Lemma destroy_no_new id : ∀ st, no_new st (destroy id st).2.
Proof. from_perform (OpDestroy id). Qed.
Lemma load_no_new id : ∀ st, no_new st (load env id st).2.
Proof. from_perform (OpLoad id). Qed.
Lemma verifyCSRF_no_new id candidate : ∀ st, no_new st (verifyCSRF env id candidate st).2.
Proof. from_perform (OpVerify id candidate). Qed.
Lemma issue_no_new id : ∀ st, no_new st (issueKeyCreationToken env id st).2.
Proof. from_perform (OpIssue id). Qed.
Lemma consume_no_new id candidate : ∀ st, no_new st (consumeKeyCreationToken env id candidate st).2.
Proof. from_perform (OpConsume id candidate). Qed.
Lemma randomValue_no_new size : ∀ st, no_new st (randomValue env size st).2.
Proof. from_perform (OpRandom size). Qed.
Lemma now_no_new : ∀ st, no_new st (now env st).2.
Proof. intros st id x' Hx. by exists x'; split_and!. Qed.

(** *** The common parts of the handlers *)

Hint Resolve takeFlashes_no_new addFlash_no_new destroy_no_new issue_no_new consume_no_new : core.

Lemma does_page session title section :
  does (basePage env session title section) (λ d c, c = [] ∧ PageError d = None).
Proof. unfold basePage. eapply does_bind; [by apply does_sessions|]. intros l c ->. by apply does_ret. Qed.

Lemma does_error session status title detail : (400 <= status <= 599)%Z →
  does (renderSimpleError env session status title detail) (λ a c, c = [] ∧ error_page false a).
Proof.
  intros Hst. eapply does_bind; [apply does_page|]. intros d c [-> _]. apply does_ret. split; [done|].
  by eexists "error", _, _.
Qed.

Lemma does_flash session location kind message :
  does (flashRedirect env session location kind message) (λ a c, c = [] ∧ a = redirect location).
Proof. eapply does_bind; [by apply does_sessions|]. intros u c ->. by apply does_ret. Qed.

(** *** The parts of the handlers that read choices *)

Context (api : API W).

Lemma does_read {A} (call : api_call) (m : stateful W (api_error + A)) :
  mutating (event_of call (inl (OtherError (NewError "")) : api_error + A)) = false →
  does (on_api (logging call m)) (λ _ c, c = []).
Proof.
  intros Hc. eapply does_mono; [apply does_call|]. intros r c ->. cbn. unfold mutating in *. cbn in *.
  by rewrite Hc.
Qed.

Lemma does_models data :
  does (modelReferenceData (logged api) data) (λ d c, c = [] ∧ PageError d = PageError data).
Proof.
  eapply does_bind; [by apply does_read|]. intros r c ->. by apply does_ret.
Qed.
Lemma does_keys data :
  does (keyReferenceData (logged api) data) (λ d c, c = [] ∧ PageError d = PageError data).
Proof.
  unfold keyReferenceData. do 3 (eapply does_bind; [by apply does_read|]; intros ? ? ->). by apply does_ret.
Qed.
Lemma does_model_again session title form :
  does (model_again (logged api) env session title form) (λ d c, c = []).
Proof.
  eapply does_bind; [apply does_page|]. intros d c [-> _]. eapply does_mono; [apply does_models|].
  by intros d' c [-> _].
Qed.
Lemma does_key_again session form : does (key_again (logged api) env session form) (λ d c, c = []).
Proof.
  eapply does_bind; [apply does_page|]. intros d c [-> _]. eapply does_mono; [apply does_keys|].
  by intros d' c [-> _].
Qed.

(** A new form, or the answer that none could be prepared. *)
Lemma does_refresh session form answer :
  does (refreshKeyCreationForm (logged api) env session form answer)
    (λ a c, c = [] ∧ ((∃ data, a = answer data) ∨ error_page false a)).
Proof.
  unfold refreshKeyCreationForm. eapply does_bind; [apply does_page|]. intros d c [-> _].
  eapply does_bind; [by apply does_sessions|]. intros [e|token] c ->.
  - eapply does_mono; [by apply does_error|]. intros a c [-> H]. auto.
  - eapply does_bind; [apply does_keys|]. intros d' c [-> _]. apply does_ret. eauto.
Qed.

End programs.

Lemma error_page_claims b a : error_page b a → claims_success a = false.
Proof. intros (t & d & v & E & Ht & _). unfold claims_success. rewrite E. by apply bool_decide_eq_false. Qed.

Lemma permitted_error r b a : error_page b a → permitted r a [].
Proof. intros H%error_page_claims. by left. Qed.

Lemma permitted_rendered r status template data :
  template ≠ "key-reveal" → permitted r (render status template data) [].
Proof. intros H. left. split; [done|]. by apply bool_decide_eq_false. Qed.

Lemma errorView_status err : (400 <= (errorView err).2 <= 599)%Z.
Proof.
  destruct err as [e|e]; cbn; [|lia]. destruct ((AE_Status e <? 400)%Z || (599 <? AE_Status e)%Z) eqn:E; [lia|].
  apply orb_false_iff in E as [?%Z.ltb_ge ?%Z.ltb_ge]. lia.
Qed.

Lemma operation_error data template err : template ≠ "key-reveal" →
  error_page (is_unknown err) (renderOperationError data template err).
Proof.
  intros Ht. unfold renderOperationError. generalize (errorView_status err). destruct (errorView err) as [view status].
  cbn [snd]. intros Hst. unfold is_unknown. destruct err as [e|e]; cbn [ambiguous].
  - destruct (AE_Ambiguous e).
    + eexists "error", _, _. split_and!; try done; [cbn; lia..|]. intros _. by left.
    + eexists template, _, _. split_and!; try done; cbn; lia.
  - eexists template, _, _. split_and!; try done; cbn; lia.
Qed.
Lemma permitted_operation_error r data template err : template ≠ "key-reveal" →
  permitted r (renderOperationError data template err) [].
Proof. intros. by eapply permitted_error, operation_error. Qed.

(** A call that changes something, reported by what it returned. *)
Lemma permitted_change r c (A : Type) (res : api_error + A) a :
  requested r c → reported (match res with inl e => Some e | inr _ => None end) a →
  permitted r a (mutations [event_of c res]).
Proof.
  intros Hr Ha. right. exists (event_of c res). split_and!; [|done|done].
  destruct c; try done; by destruct Hr.
Qed.

(** *** The handlers *)

Lemma input_status f i : virtualKeyForm_input f = inr i → VI_Status i = KF_Status f.
Proof.
  unfold virtualKeyForm_input. destruct (bool_decide _); [done|]. destruct (form_expiry f); [done|].
  by intros [= <-].
Qed.

Section handlers.
Context {W : Type} (api : API W) (env : environment).
Abbreviation state := (ui_state (W * list call_event)).

(** What the form of a request showed before anything was changed. *)
Definition csrf_ok (r : ui_request) (session : sessionSnapshot) (st : sessionStore) : Prop :=
  is_Some (UI_Form r) ∧ (verifyCSRF env (Snap_ID session) (value_of "_csrf" (post_form r)) st).1 = true.
Definition creates_key (changes : list call_event) : Prop :=
  ∃ e i, e ∈ changes ∧ ce_call e = CallCreate (InKey i).
Definition token_ok (r : ui_request) (session : sessionSnapshot) (st : sessionStore) : Prop :=
  (consumeKeyCreationToken env (Snap_ID session) (value_of "_operation" (post_form r)) st).1 = true.
Definition evidence (r : ui_request) (session : sessionSnapshot) (st : sessionStore)
    (changes : list call_event) : Prop :=
  (changes ≠ [] → UI_Method r = "POST" ∧ csrf_ok r session st) ∧
  (creates_key changes → token_ok r session
     (verifyCSRF env (Snap_ID session) (value_of "_csrf" (post_form r)) st).2).

Definition on_post (r : ui_request) (path : list string) : Prop :=
  UI_Method r = "POST" ∧ UI_Path r = path.

Definition handler_ok (h : authenticatedHandler) (r : ui_request) (id : string) : Prop :=
  ∀ session (u : state), does_at u (h r id session) (λ a c,
    permitted r a c ∧ evidence r session (ui_sessions u) c).

Lemma no_keys : ¬ creates_key [].
Proof. intros (e & i & He & _). by apply elem_of_nil in He. Qed.

Lemma permitted_keys r a c : UI_Path r ≠ ["virtual-keys"] → permitted r a c → ¬ creates_key c.
Proof.
  intros Hp [[-> _]|(e & -> & Hr & _)]; [apply no_keys|]. intros (e' & i & He & Hc).
  apply list_elem_of_singleton in He as ->. rewrite Hc in Hr. by destruct Hr.
Qed.

Lemma reading_ok (h : authenticatedHandler) r id :
  (∀ session, does (h r id session) (λ a c, c = [] ∧ claims_success a = false)) → handler_ok h r id.
Proof.
  intros H session u. destruct (H session u) as (c & Hl & Hs & Hc & Ha). exists c. rewrite Hc. unfold evidence.
  split_and!; [done|done|by left|done|by intros ?%no_keys].
Qed.

Lemma protected_does (body : authenticatedHandler) r id session (u : state) Q :
  (∀ u1, ui_sessions u1 = (verifyCSRF env (Snap_ID session) (value_of "_csrf" (post_form r)) (ui_sessions u)).2 →
     csrf_ok r session (ui_sessions u) → does_at u1 (body r id session) Q) →
  (∀ a, error_page false a → Q a []) → does_at u (protected env body r id session) Q.
Proof.
  intros Hbody Herr. unfold protected, parseProtectedForm.
  destruct (UI_Form r) as [form|] eqn:Hform.
  - unfold does_at, mbind, stateful_bind, on_sessions. pose proof (verifyCSRF_no_new env (Snap_ID session)
      (value_of "_csrf" form) (ui_sessions u)) as Hnew.
    assert (post_form r = form) as Hpf by (unfold post_form; by rewrite Hform).
    rewrite Hpf in Hbody. unfold csrf_ok in Hbody. rewrite Hform, Hpf in Hbody.
    destruct (verifyCSRF env (Snap_ID session) (value_of "_csrf" form) (ui_sessions u)) as [[] st] eqn:Ev; cbn in Hnew.
    + unfold mret, stateful_ret. destruct (Hbody {| ui_sessions := st; ui_world := ui_world u |}) as (c & Hl & Hs & HQ);
        [done|by split|]. exists c. split_and!; [done|by etrans|done].
    + destruct (does_error (W:=W) env session 403 "Request rejected"
        "The form expired or its CSRF token is invalid. Reload the page and try again." ltac:(lia)
        {| ui_sessions := st; ui_world := ui_world u |}) as (c & Hl & Hs & Hc & Ha).
      destruct (renderSimpleError _ _ _ _ _ _) as [a u']. unfold mret, stateful_ret in *. cbn in *.
      exists c. split_and!; [done|by etrans|]. rewrite Hc. by apply Herr.
  - destruct (does_error (W:=W) env session 400 "Invalid form"
        "The submitted form could not be decoded." ltac:(lia) u) as (c & Hl & Hs & Hc & Ha).
    unfold does_at, mbind, stateful_bind. destruct (renderSimpleError _ _ _ _ _ _) as [a u'].
    unfold mret, stateful_ret in *. cbn in *. exists c. split_and!; [done|done|]. rewrite Hc. by apply Herr.
Qed.

Lemma protected_ok (body : authenticatedHandler) r id :
  UI_Method r = "POST" → UI_Path r ≠ ["virtual-keys"] → (∀ session, does (W:=W) (body r id session) (permitted r)) →
  handler_ok (protected env body) r id.
Proof.
  intros Hm Hp Hbody session u. apply protected_does.
  - intros u1 _ Hok. destruct (Hbody session u1) as (c & Hl & Hs & HQ). exists c. unfold evidence.
    split_and!; [done|done|done|by intros _|]. by intros ?%(permitted_keys _ _ _ Hp HQ).
  - intros a Ha. unfold evidence. split_and!; [by eapply permitted_error|done|by intros ?%no_keys].
Qed.

Hint Resolve takeFlashes_no_new addFlash_no_new destroy_no_new issue_no_new consume_no_new : core.

Lemma lost_secret_page data instance b :
  error_page b (renderOperationError data "error" (lost_secret instance)).
Proof. eexists _, _, _. split_and!; try done. intros _. by right. Qed.
Lemma known_error_page err a : ambiguous err = None → error_page false a → error_page (is_unknown err) a.
Proof. intros H Ha. unfold is_unknown. by rewrite H. Qed.

Lemma does_ret_known {A} (a : A) : does (W:=W) (mret a) (λ b c, b = a ∧ c = []).
Proof. by apply does_ret. Qed.

(** Walks through a handler. *)
Ltac known := first [ apply does_ret_known | apply does_page | apply does_model_again | apply does_key_again | apply does_models
  | apply does_keys | apply does_read; reflexivity | apply does_call | apply does_sessions; solve [auto] ].
Ltac asked := cbv [requested updates];
  repeat match goal with H : VI_Status _ = _ |- _ => rewrite H end; repeat match goal with |- _ ∧ _ => split end;
  first [ reflexivity | assumption | left; split; [assumption|first [reflexivity|symmetry; assumption]]
        | right; split; [assumption|reflexivity] ].
Ltac finish := rewrite ?app_nil_r; first
  [ solve [apply permitted_rendered; discriminate]
  | solve [eapply permitted_error; eassumption]
  | solve [apply permitted_operation_error; discriminate]
  | solve [apply permitted_change; [solve [asked]
           |first [reflexivity|by apply operation_error|by apply lost_secret_page
                  |by eapply known_error_page]]]
  | solve [split; [reflexivity|first [by eapply error_page_claims; apply operation_error
      | by eapply error_page_claims; eassumption | reflexivity]]]
  | idtac ].
Ltac walk := repeat first
  [ progress cbn zeta
  | match goal with
    | H : _ ∧ _ |- _ => destruct H
    | H : _ = [] |- _ => subst
    | H : _ = redirect _ |- _ => subst
    | H : negb _ = false |- _ => apply negb_false_iff in H
    | H : _ || _ = false |- _ => apply orb_false_iff in H
    | H : virtualKeyForm_input ?f = inr ?i |- _ =>
        lazymatch goal with
        | _ : VI_Status i = KF_Status f |- _ => fail
        | _ => pose proof (input_status f i H)
        end
    | H : bool_decide _ = false |- _ => apply bool_decide_eq_false in H
    end
  | apply does_ret
  | match goal with
    | |- does (if ?b then _ else _) _ => destruct b eqn:?
    | |- does (match ?x with inl _ => _ | inr _ => _ end) _ => destruct x eqn:?
    | |- does (mbind _ (match ?x with inl _ => _ | inr _ => _ end)) _ => destruct x
    | |- does (mbind _ _) _ => eapply does_bind; [known|intros ? ? ?; cbv beta in *]
    | |- does (flashRedirect _ _ _ _ _) _ => eapply does_mono; [apply does_flash|intros ? ? [? ?]; cbv beta in *]
    | |- does (refreshKeyCreationForm _ _ _ _ _) _ =>
        eapply does_mono; [apply does_refresh|intros ? ? [? [[? ->]|?]]; cbv beta in *]
    | |- does (match ambiguous ?x with _ => _ end) _ => destruct (ambiguous x) eqn:?
    | |- does (renderSimpleError _ _ _ _ _) _ => eapply does_mono; [apply does_error; lia|intros ? ? [? ?]; cbv beta in *]
    end ]; subst; try finish.

(** Every handler but the creation of a key, by its path. *)
Lemma reads_User r id :
  handler_ok (listUsers (logged api) env) r id ∧ handler_ok (newUser env) r id ∧
  handler_ok (editUser (logged api) env) r id ∧ handler_ok (confirmUserStatus (logged api) env) r id ∧
  handler_ok (confirmDeleteUser (logged api) env) r id.
Proof. split_and!; apply reading_ok; intros session; [unfold listUsers|unfold newUser|unfold editUser|unfold confirmUserStatus|unfold confirmDeleteUser]; walk. Qed.
Lemma reads_Provider r id :
  handler_ok (listProviders (logged api) env) r id ∧ handler_ok (newProvider env) r id ∧
  handler_ok (editProvider (logged api) env) r id ∧ handler_ok (confirmProviderStatus (logged api) env) r id ∧
  handler_ok (confirmDeleteProvider (logged api) env) r id.
Proof. split_and!; apply reading_ok; intros session; [unfold listProviders|unfold newProvider|unfold editProvider|unfold confirmProviderStatus|unfold confirmDeleteProvider]; walk. Qed.
Lemma reads_Model r id :
  handler_ok (listModels (logged api) env) r id ∧ handler_ok (newModel (logged api) env) r id ∧
  handler_ok (editModel (logged api) env) r id ∧ handler_ok (confirmModelStatus (logged api) env) r id ∧
  handler_ok (confirmDeleteModel (logged api) env) r id.
Proof. split_and!; apply reading_ok; intros session; [unfold listModels|unfold newModel|unfold editModel|unfold confirmModelStatus|unfold confirmDeleteModel]; walk. Qed.
Lemma reads_VirtualKey r id :
  handler_ok (listVirtualKeys (logged api) env) r id ∧ handler_ok (newVirtualKey (logged api) env) r id ∧
  handler_ok (editVirtualKey (logged api) env) r id ∧ handler_ok (confirmVirtualKeyStatus (logged api) env) r id ∧
  handler_ok (confirmDeleteVirtualKey (logged api) env) r id.
Proof. split_and!; apply reading_ok; intros session; [unfold listVirtualKeys|unfold newVirtualKey|unfold editVirtualKey|unfold confirmVirtualKeyStatus|unfold confirmDeleteVirtualKey]; walk. Qed.
Lemma createUser_ok r id : on_post r ["users"] → handler_ok (createUser (logged api) env) r id.
Proof. intros [Hm Hp]. apply protected_ok; [done|congruence|]. intros session. walk. Qed.
Lemma changes_User r id :
  (on_post r ["users"; id] → handler_ok (updateUser (logged api) env) r id) ∧
  (on_post r ["users"; id; "status"] → handler_ok (changeUserStatus (logged api) env) r id) ∧
  (on_post r ["users"; id; "delete"] → handler_ok (deleteUser (logged api) env) r id).
Proof.
  split_and!; intros [Hm Hp]; (apply protected_ok; [done|congruence|]); intros session; walk.
Qed.
Lemma createProvider_ok r id : on_post r ["providers"] → handler_ok (createProvider (logged api) env) r id.
Proof. intros [Hm Hp]. apply protected_ok; [done|congruence|]. intros session. walk. Qed.
Lemma changes_Provider r id :
  (on_post r ["providers"; id] → handler_ok (updateProvider (logged api) env) r id) ∧
  (on_post r ["providers"; id; "status"] → handler_ok (changeProviderStatus (logged api) env) r id) ∧
  (on_post r ["providers"; id; "delete"] → handler_ok (deleteProvider (logged api) env) r id).
Proof.
  split_and!; intros [Hm Hp]; (apply protected_ok; [done|congruence|]); intros session; walk.
Qed.
Lemma createModel_ok r id : on_post r ["models"] → handler_ok (createModel (logged api) env) r id.
Proof. intros [Hm Hp]. apply protected_ok; [done|congruence|]. intros session. walk. Qed.
Lemma changes_Model r id :
  (on_post r ["models"; id] → handler_ok (updateModel (logged api) env) r id) ∧
  (on_post r ["models"; id; "status"] → handler_ok (changeModelStatus (logged api) env) r id) ∧
  (on_post r ["models"; id; "delete"] → handler_ok (deleteModel (logged api) env) r id).
Proof.
  split_and!; intros [Hm Hp]; (apply protected_ok; [done|congruence|]); intros session; walk.
Qed.
Lemma changes_VirtualKey r id :
  (on_post r ["virtual-keys"; id] → handler_ok (updateVirtualKey (logged api) env) r id) ∧
  (on_post r ["virtual-keys"; id; "status"] → handler_ok (changeVirtualKeyStatus (logged api) env) r id) ∧
  (on_post r ["virtual-keys"; id; "delete"] → handler_ok (deleteVirtualKey (logged api) env) r id).
Proof.
  split_and!; intros [Hm Hp]; (apply protected_ok; [done|congruence|]); intros session; walk.
Qed.

Lemma createVirtualKey_ok r id :
  on_post r ["virtual-keys"] → handler_ok (createVirtualKey (logged api) env) r id.
Proof.
  intros [Hm Hp] session u. apply protected_does.
  - intros u1 Hu1 Hok. cbn zeta.
    set (op := value_of "_operation" (post_form r)).
    assert (does_at u1 (on_sessions (consumeKeyCreationToken env (Snap_ID session) op))
      (λ b c, c = [] ∧ b = (consumeKeyCreationToken env (Snap_ID session) op (ui_sessions u1)).1)) as Hcons.
    { pose proof (consume_no_new env (Snap_ID session) op (ui_sessions u1)) as Hn. unfold does_at, on_sessions.
      destruct (consumeKeyCreationToken _ _ _ _) as [b st']. exists []. split_and!; try done.
      by rewrite app_nil_r. }
    eapply does_at_bind; [exact Hcons|]. intros b c [-> Hb]. destruct b; cbn [negb app].
    + eapply does_mono with (R := permitted r); [walk|]. intros a c Ha. unfold evidence. split_and!; [done|by intros _|].
      intros _. unfold token_ok. by rewrite <- Hu1.
    + eapply does_mono with (R := λ a c, permitted r a c ∧ c = []); [|].
      * eapply does_mono; [apply does_refresh|]. intros a c [-> Ha]. split; [|done].
        destruct Ha as [[d ->]|Ha]; [by apply permitted_rendered|by eapply permitted_error].
      * intros a c [Ha ->]. unfold evidence. by split_and!; [| |intros ?%no_keys].
  - intros a Ha. unfold evidence. split_and!; [by eapply permitted_error|done|by intros ?%no_keys].
Qed.
End handlers.

(** ** The server *)

Section server_facts.
Context {W : Type} (api : API W) (env : environment) (s : server).
Abbreviation state := (ui_state (W * list call_event)).

(** Programs without calls that start no session. *)
Definition silent {A} (m : stateful state A) (Q : A → Prop) : Prop := ∀ u,
  ui_world (m u).2 = ui_world u ∧ no_new (ui_sessions u) (ui_sessions (m u).2) ∧ Q (m u).1.

Lemma silent_ret {A} (a : A) (Q : A → Prop) : Q a → silent (mret a) Q.
Proof. by intros H u. Qed.
Lemma silent_bind {A B} (m : stateful state A) (f : A → stateful state B) R Q :
  silent m R → (∀ a, R a → silent (f a) Q) → silent (m ≫= f) Q.
Proof.
  intros Hm Hf u. destruct (Hm u) as (Hw & Hs & HR). unfold mbind, stateful_bind. destruct (m u) as [a u1].
  destruct (Hf a HR u1) as (Hw' & Hs' & HQ). cbn in *. split_and!; [by rewrite Hw', Hw|by etrans|done].
Qed.
Lemma silent_sessions {A} (op : stateful sessionStore A) :
  (∀ st, no_new st (op st).2) → silent (on_sessions op) (λ _, True).
Proof.
  intros Hop [st w]. unfold on_sessions. specialize (Hop st). cbn. by destruct (op st) as [a st'].
Qed.

Hint Resolve load_no_new destroy_no_new now_no_new randomValue_no_new : core.

Lemma silent_cookie r : silent (cookieSession env s r) (λ _, True).
Proof.
  unfold cookieSession. destruct (cookie_of _ _); [|by apply silent_ret]. by apply silent_sessions.
Qed.
Lemma silent_now : silent (ui_now env) (λ _, True).
Proof. by apply silent_sessions. Qed.
Lemma silent_challenge : silent (newLoginChallenge env s) (λ _, True).
Proof.
  unfold newLoginChallenge. eapply silent_bind; [by apply silent_sessions|]. intros [e|nonce] _; [by apply silent_ret|].
  eapply silent_bind; [apply silent_now|]. intros t _. by apply silent_ret.
Qed.
Lemma silent_set_challenge challenge expires : silent (setLoginChallengeCookie env s challenge expires) (λ _, True).
Proof. eapply silent_bind; [apply silent_now|]. intros t _. by apply silent_ret. Qed.

Lemma silent_refuse : silent (refuse_sign_in env s) (λ a, claims_success a = false).
Proof.
  eapply silent_bind; [apply silent_challenge|]. intros [e|[challenge expires]] _; [by apply silent_ret|].
  eapply silent_bind; [apply silent_set_challenge|]. intros c _. by apply silent_ret.
Qed.
Lemma silent_loginPage r id : silent (loginPage env s r id) (λ a, claims_success a = false).
Proof.
  eapply silent_bind; [apply silent_cookie|]. intros existing _.
  destruct (match existing with Some _ => _ | None => _ end); [by apply silent_ret|].
  eapply silent_bind; [apply silent_challenge|]. intros [e|[challenge expires]] _; [by apply silent_ret|].
  eapply silent_bind; [apply silent_set_challenge|]. intros c _. by apply silent_ret.
Qed.

(** *** Signing in *)

(** A challenge of this server that was live at [t]. *)
Definition live_challenge (candidate : string) (t : Time) : Prop :=
  ∃ expires nonce signature seconds,
    Split "." candidate = [expires; nonce; signature] ∧ ParseInt expires = Some seconds ∧
    (ns t < ns (time_Unix seconds))%Z ∧
    RawURLDecode signature = Some (challenge_signature s (expires +:+ "." +:+ nonce)).

(** A sign-in form with the administrator token and the challenge of its cookie. *)
Definition signing_in (r : ui_request) : Prop :=
  on_post r ["login"] ∧ is_Some (UI_Form r) ∧
  value_of "admin_token" (post_form r) = sv_adminToken s ∧
  ∃ candidate n, cookie_of (sv_cookieName s) r = Some candidate ∧
    value_of "_csrf" (post_form r) = candidate ∧ live_challenge candidate (clock env n).

Lemma valid_challenge candidate (u : state) :
  (validLoginChallenge env s candidate u).1 = true → ∃ n, live_challenge candidate (clock env n).
Proof.
  unfold validLoginChallenge. destruct (Split "." candidate) as [|a [|b [|c [|]]]] eqn:E; try done.
  destruct (_ || _); [done|]. destruct (ParseInt a) as [t|] eqn:Ht; [|done]. cbn.
  intros [[Ha _]%andb_true_iff Hs]%andb_true_iff. exists (now_calls (ui_sessions u)), a, b, c, t.
  split_and!; [done|done|by apply Z.ltb_lt|]. unfold signed in Hs.
  destruct (RawURLDecode c) as [provided|]; [|done]. apply bool_decide_eq_true in Hs. by subst.
Qed.

Lemma silent_valid candidate : silent (validLoginChallenge env s candidate) (λ _, True).
Proof.
  unfold validLoginChallenge. destruct (Split "." candidate) as [|a [|b [|c [|]]]]; try by apply silent_ret.
  destruct (_ || _); [by apply silent_ret|]. destruct (ParseInt a); [|by apply silent_ret].
  eapply silent_bind; [apply silent_now|]. intros t _. by apply silent_ret.
Qed.
Lemma silent_accepted r candidate :
  silent (challenge_accepted env s r candidate) (λ b, b = true →
    cookie_of (sv_cookieName s) r = Some candidate ∧ ∃ n, live_challenge candidate (clock env n)).
Proof.
  unfold challenge_accepted. destruct (cookie_of _ _) as [value|] eqn:Hc; [|by apply silent_ret].
  destruct (_ || _) eqn:E; [by apply silent_ret|]. apply orb_false_iff in E as [_ E].
  apply negb_false_iff, SecureEqual_true in E as ->. intros u.
  destruct (silent_valid candidate u) as (Hw & Hs & _). split_and!; [done|done|].
  intros Hv. split; [done|]. by eapply valid_challenge.
Qed.

(** A sign-in makes no call and claims no change. *)
Lemma sign_in_local (u : state) :
  ui_world (sign_in env s u).2 = ui_world u ∧ claims_success (sign_in env s u).1 = false.
Proof.
  unfold sign_in, mbind, stateful_bind, on_sessions, setSessionCookie, ui_now, mret, stateful_ret.
  destruct (create _ _ _ _ _) as [[e|snap] st]; cbn; [done|]. unfold mbind, stateful_bind, on_sessions, now.
  cbn. by destruct (addFlash _ _ _ _).
Qed.

(** *** What a request does *)

Definition outcome (r : ui_request) (u : state) (a : ui_response) (u' : state) : Prop :=
  ∃ calls, log_of u' = log_of u ++ calls ∧
    permitted r a (mutations calls) ∧
    (calls ≠ [] → ∃ id session st,
       cookie_of (sv_cookieName s) r = Some id ∧ load env id (ui_sessions u) = (Some session, st) ∧
       Snap_Authenticated session = true ∧ evidence env r session st (mutations calls)) ∧
    (no_new (ui_sessions u) (ui_sessions u') ∨ signing_in r ∧ calls = []).
Definition served (h : ui_request → string → stateful state ui_response) (r : ui_request) (id : string) : Prop :=
  ∀ u, outcome r u (h r id u).1 (h r id u).2.

Lemma silent_served h r id : silent (h r id) (λ a, claims_success a = false) → served h r id.
Proof.
  intros H u. destruct (H u) as (Hw & Hs & Ha). exists []. unfold log_of. rewrite Hw, app_nil_r.
  split_and!; [done|by left|done|by left].
Qed.

Lemma after_silent {A} r (u : state) (m : stateful state A) f R :
  silent m R →
  (∀ a u1, ui_world u1 = ui_world u → no_new (ui_sessions u) (ui_sessions u1) → R a →
     outcome r u (f a u1).1 (f a u1).2) →
  outcome r u ((m ≫= f) u).1 ((m ≫= f) u).2.
Proof.
  intros Hm Hf. destruct (Hm u) as (Hw & Hs & HR). unfold mbind, stateful_bind.
  destruct (m u) as [a u1]. by apply Hf.
Qed.

Lemma login_served r id : on_post r ["login"] → served (login env s) r id.
Proof.
  intros Hpost u. eapply after_silent; [apply silent_cookie|]. intros existing u1 Hw Hs _. cbn beta.
  assert (∀ u2 (m : stateful state ui_response), ui_world u2 = ui_world u →
    no_new (ui_sessions u) (ui_sessions u2) → silent m (λ a, claims_success a = false) →
    outcome r u (m u2).1 (m u2).2) as Hsilent.
  { intros u2 m Hw2 Hs2 Hm. destruct (Hm u2) as (Hw1 & Hs1 & Ha). exists []. unfold log_of.
    rewrite Hw1, Hw2, app_nil_r. split_and!; [done|by left|done|left; by etrans]. }
  destruct (match existing with Some _ => _ | None => _ end); [by apply Hsilent, silent_ret|].
  destruct (UI_Form r) as [form|] eqn:Hform; [|by apply Hsilent, silent_ret].
  assert (post_form r = form) as Hpf by (unfold post_form; by rewrite Hform).
  destruct (silent_accepted r (value_of "_csrf" form) u1) as (Hw2 & Hs2 & Hacc).
  unfold mbind, stateful_bind.
  destruct (challenge_accepted env s r (value_of "_csrf" form) u1) as [accepted u2]. cbn in Hw2, Hs2, Hacc.
  rewrite Hw in Hw2. assert (no_new (ui_sessions u) (ui_sessions u2)) as Hs3 by by etrans.
  destruct accepted; cbn [negb]; [|apply Hsilent; [done|done|apply silent_refuse]].
  destruct (SecureEqual _ _) eqn:Htok; cbn [negb]; [|by apply Hsilent, silent_ret].
  apply SecureEqual_true in Htok. destruct (Hacc eq_refl) as (Hc & n & Hlive).
  destruct (sign_in_local u2) as [Hw4 Ha]. exists []. unfold log_of. rewrite Hw4, Hw2, app_nil_r.
  split_and!; [done|by left|done|right]. split; [|done]. unfold signing_in. rewrite Hform, Hpf.
  split_and!; [done..|]. by eexists _, n.
Qed.

(** *** Requests of a signed in browser *)

Lemma auth_served h r id : handler_ok env h r id → served (auth env s h) r id.
Proof.
  intros Hok u. unfold auth, cookieSession. destruct (cookie_of (sv_cookieName s) r) as [value|] eqn:Hc.
  2: { exists []. unfold log_of. cbn. rewrite app_nil_r. by split_and!; [|left| |left]. }
  unfold mbind, stateful_bind, on_sessions. pose proof (load_no_new env value (ui_sessions u)) as Hload.
  destruct (load env value (ui_sessions u)) as [session st] eqn:Hl. cbn in Hload.
  set (u1 := {| ui_sessions := st; ui_world := ui_world u |}).
  destruct session as [session|]; [destruct (Snap_Authenticated session) eqn:Ha|].
  - destruct (Hok session u1) as (calls & Hlog & Hs & Hp & Hev). exists calls.
    split_and!; [done|done| |left; by etrans]. intros _. by exists value, session, st.
  - pose proof (destroy_no_new env (Snap_ID session) st) as Hd. unfold mbind, stateful_bind, on_sessions. cbn in *.
    exists []. unfold log_of. cbn. rewrite app_nil_r. split_and!; [done|by left|done|left; by etrans].
  - exists []. unfold log_of. cbn. rewrite app_nil_r. by split_and!; [|left| |left].
Qed.

(** *** The routes *)

Lemma method_post m : method_matches "POST" m = true → m = "POST".
Proof. unfold method_matches. rewrite (bool_decide_eq_false_2 ("POST" = "GET")) by done.
  rewrite orb_false_r. by intros ?%bool_decide_eq_true. Qed.

(** The paths of the patterns. *)
Lemma match_end p id0 id : match_path [] p id0 = Some id → p = [] ∧ id0 = id.
Proof. destruct p; cbn; [|discriminate]. by intros [= ->]. Qed.
Lemma match_name n pat p id0 id :
  match_path (Some n :: pat) p id0 = Some id → ∃ p', p = n :: p' ∧ match_path pat p' id0 = Some id.
Proof.
  destruct p as [|x p]; cbn; [discriminate|]. destruct (bool_decide (n = x)) eqn:E; [|discriminate].
  apply bool_decide_eq_true in E as ->. eauto.
Qed.
Lemma match_wild pat p id0 id :
  match_path (None :: pat) p id0 = Some id → ∃ x p', p = x :: p' ∧ match_path pat p' x = Some id.
Proof.
  destruct p as [|x p]; cbn; [discriminate|]. destruct (bool_decide (x = "")); [discriminate|]. eauto.
Qed.
Lemma match_fixed name p id : match_path [Some name] p "" = Some id → p = [name].
Proof. by intros (p' & -> & [-> _]%match_end)%match_name. Qed.
Lemma match_item name p id : match_path [Some name; None] p "" = Some id → p = [name; id].
Proof. by intros (p' & -> & (x & p'' & -> & [-> ->]%match_end)%match_wild)%match_name. Qed.
Lemma match_action name action p id :
  match_path [Some name; None; Some action] p "" = Some id → p = [name; id; action].
Proof.
  by intros (p' & -> & (x & p'' & -> & (q & -> & [-> ->]%match_end)%match_name)%match_wild)%match_name.
Qed.

Definition route_served (rt : ui_route) : Prop := ∀ r id,
  method_matches (ur_method rt) (UI_Method r) = true →
  match_path (ur_pattern rt) (UI_Path r) "" = Some id → served (ur_handler rt) r id.

Lemma collection_served name list_ new create edit update confirmStatus changeStatus confirmDelete delete :
  (∀ r id, handler_ok env list_ r id ∧ handler_ok env new r id ∧ handler_ok env edit r id ∧
     handler_ok env confirmStatus r id ∧ handler_ok env confirmDelete r id) →
  (∀ r id, on_post r [name] → handler_ok env create r id) →
  (∀ r id, (on_post r [name; id] → handler_ok env update r id) ∧
     (on_post r [name; id; "status"] → handler_ok env changeStatus r id) ∧
     (on_post r [name; id; "delete"] → handler_ok env delete r id)) →
  Forall route_served (collection env s name list_ new create edit update confirmStatus changeStatus
    confirmDelete delete).
Proof.
  intros Hread Hcreate Hchange. unfold collection.
  repeat apply Forall_cons_2; [..|by apply Forall_nil_2]; intros r id Hm Hp; cbn [ur_method ur_pattern ur_handler] in *;
    apply auth_served; try apply (Hread r id).
  all: apply method_post in Hm.
  - apply Hcreate. split; [done|]. by eapply match_fixed.
  - apply (Hchange r id). split; [done|]. by apply match_item.
  - apply (Hchange r id). split; [done|]. by apply match_action.
  - apply (Hchange r id). split; [done|]. by apply match_action.
Qed.

Lemma logout_ok r id : UI_Method r = "POST" → UI_Path r = ["logout"] → handler_ok env (logout (W:=W * list call_event) env s) r id.
Proof.
  intros Hm Hp. apply protected_ok; [done|by rewrite Hp|]. intros session. eapply does_bind.
  - apply does_sessions. apply destroy_no_new; exact env.
  - intros x c ->. apply does_ret. by left.
Qed.

Lemma dashboard_ok r id : handler_ok env (dashboard (logged api) env) r id.
Proof.
  apply reading_ok. intros session. unfold dashboard.
  eapply does_bind; [apply does_page|]. intros d c [-> _].
  do 4 (eapply does_bind; [by apply does_read|]; intros ? ? ->). by apply does_ret.
Qed.

Lemma routes_served : Forall route_served (routes (logged api) env s).
Proof.
  unfold routes. repeat apply Forall_app_2.
  2: by apply collection_served; [apply reads_User|apply createUser_ok|apply changes_User].
  2: by apply collection_served; [apply reads_Provider|apply createProvider_ok|apply changes_Provider].
  2: by apply collection_served; [apply reads_Model|apply createModel_ok|apply changes_Model].
  2: by apply collection_served; [apply reads_VirtualKey|apply createVirtualKey_ok|apply changes_VirtualKey].
  repeat apply Forall_cons_2; [..|by apply Forall_nil_2]; intros r id Hm Hp; cbn [ur_method ur_pattern ur_handler] in *.
  - by apply silent_served, silent_ret.
  - by apply silent_served, silent_ret.
  - by apply silent_served, silent_loginPage.
  - apply login_served. split; [by apply method_post|by eapply match_fixed].
  - apply auth_served, logout_ok; [by apply method_post|by eapply match_fixed].
  - apply auth_served, dashboard_ok.
Qed.

Lemma ServeHTTP_outcome r u :
  outcome r u (ServeHTTP (logged api) env s r u).1 (ServeHTTP (logged api) env s r u).2.
Proof.
  assert (∀ m : stateful state ui_response, silent m (λ a, claims_success a = false) →
    outcome r u (m u).1 (m u).2) as Hsilent.
  { intros m Hm. by apply (silent_served (λ _ _, m) r "" Hm u). }
  unfold ServeHTTP. destruct (asset_path _); [by destruct (method_matches _ _); apply Hsilent, silent_ret|].
  destruct (List.find _ _) as [[rt id]|] eqn:E; [|by apply Hsilent, silent_ret; destruct (bool_decide _)].
  apply List.find_some in E as [Hin Hm]. cbn in Hm.
  apply list_elem_of_In, list_elem_of_omap in Hin as (rt' & Hin%list_elem_of_In & Hrt).
  destruct (match_path _ _ _) eqn:Hp; [|done]. injection Hrt as <- <-.
  pose proof routes_served as Hall. rewrite Forall_forall in Hall. by apply (Hall rt' Hin).
Qed.
End server_facts.

(** A verified token is that of the session a request was loaded with. *)
Lemma verified_token env id st0 x st1 candidate :
  load env id st0 = (Some x, st1) → (verifyCSRF env (Snap_ID x) candidate st1).1 = true →
  Snap_ID x = id ∧ candidate = Snap_CSRFToken x ∧ candidate ≠ "".
Proof.
  intros [(_ & [=] & _)|(_ & _ & Hx)]%load_effect. symmetry in Hx.
  apply fmap_Some in Hx as (y & Hy & ->). cbn [Snap_ID snapshot].
  unfold verifyCSRF, mbind, stateful_bind. destruct (load env id st1) as [[z|] st2] eqn:E; [|done].
  apply load_effect in E as [(_ & [=] & _)|(_ & E & Hz)]. symmetry in Hz.
  apply fmap_Some in Hz as (w & Hw & ->). rewrite E in Hw. apply cleaned_lookup in Hw as (y' & Hy' & _ & ->).
  rewrite Hy in Hy'. injection Hy' as <-. cbn.
  intros [Hne%negb_true_iff%bool_decide_eq_false Hs%SecureEqual_true]%andb_true_iff. auto.
Qed.


(** ** A browser that deletes a user *)

Module UISample.
Definition broken {A} : stateful unit (api_error + A) := λ w, (inl (OtherError (NewError "down")), w).
(** An API that only deletes users. *)
Definition api : API unit := {|
  ListUsers := broken; GetUser _ := broken; CreateUser _ := broken; UpdateUser _ _ _ := broken;
  DeleteUser _ _ := λ w, (inr tt, w); ListProviders := broken; GetProvider _ := broken;
  CreateProvider _ := broken; UpdateProvider _ _ _ := broken; DeleteProvider _ _ := broken;
  ListModels := broken; GetModel _ := broken; CreateModel _ := broken; UpdateModel _ _ _ := broken;
  DeleteModel _ _ := broken; ListVirtualKeys := broken; GetVirtualKey _ := broken;
  CreateVirtualKey _ := broken; UpdateVirtualKey _ _ _ := broken; DeleteVirtualKey _ _ := broken |}.
Definition config : Config := {|
  AdminToken := "secret"; SessionTTL := 0; RequestTimeout := 0; CookieName := ""; CookieSecure := true;
  MaxFormBytes := 0 |}.
Definition env : environment := SessionSample.env.
Definition s : server :=
  match NewHandler env config with
  | inr s => s
  | inl _ => {| sv_adminToken := ""; sv_cookieName := ""; sv_cookieSecure := true; sv_ttl := 0; sv_loginKey := [] |}
  end.
Definition request (method : string) (path : list string) (cookie : string)
    (form : list (string * string)) : ui_request := {|
  UI_Method := method; UI_Path := path; UI_Query := [];
  UI_Cookies := [("gwai_admin_session", cookie)]; UI_Form := Some form |}.
Definition start : ui_state (unit * list call_event) :=
  {| ui_sessions := newSessionStore; ui_world := (tt, []) |}.
Definition go r (u : ui_state (unit * list call_event)) := ServeHTTP (logged api) env s r u.
Definition cookie_set (a : ui_response) : string :=
  match R_Cookies a with c :: _ => C_Value c | [] => "" end.

Definition asked := go (request "GET" ["login"] "" []) start.
Definition challenge : string := cookie_set asked.1.
Definition entered := go (request "POST" ["login"] challenge
  [("_csrf", challenge); ("admin_token", "secret")]) asked.2.
Definition session : string := cookie_set entered.1.
Definition csrf : string :=
  match sessions (ui_sessions entered.2) !! session with Some x => CSRFToken x | None => "" end.
Definition deletion (token : string) : ui_request :=
  request "POST" ["users"; "u1"; "delete"] session [("_csrf", token); ("_etag", "tag")].
End UISample.

