(* ===== verification/AdminClient.v ===== *)
(** * The administrative API over Dapr ([internal/adminui/client.go])

    The client of the administration UI: every operation is an invocation of a
    control plane.  An answer is the status, the headers and the body; whether
    the body can be read is a parameter, since that may fail in the middle. *)

From Stdlib Require Import Ascii.
From S2P Require Import Prelude GoStd Json JsonRaw GoText GoNet GoTime GoFmt GoWeb Errors State Model.
From S2P Require Import Decode Repository Svc Service KeyService Session AdminView AdminUI.
From S2P Require Import Platform Registry Dapr.

Definition maxControlPlaneResponse : Z := 4194304.

(** ** Bodies *)

(** [omitempty] drops an empty status, and a nil time. *)
Definition UserInput_json (i : UserInput) : option json :=
  Some (JObj ([("name", JStr (UI_Name i)); ("email", JStr (UI_Email i))] ++
              omitempty "status" (UI_Status i))).
Definition ProviderInput_json (i : ProviderInput) : option json :=
  Some (JObj ([("slug", JStr (PI_Slug i)); ("name", JStr (PI_Name i)); ("kind", JStr (PI_Kind i));
               ("adapter_app_id", JStr (PI_AdapterAppID i))] ++ omitempty "status" (PI_Status i))).
Definition ModelInput_json (i : ModelInput) : option json :=
  Some (JObj ([("alias", JStr (MI_Alias i)); ("provider_id", JStr (MI_ProviderID i));
               ("upstream_model", JStr (MI_UpstreamModel i))] ++ omitempty "status" (MI_Status i))).
Definition VirtualKeyInput_json (i : VirtualKeyInput) : option json :=
  expires ← omit_time "expires_at" (VI_ExpiresAt i);
  Some (JObj ([("name", JStr (VI_Name i)); ("user_id", JStr (VI_UserID i));
               ("model_ids", strings_json (VI_ModelIDs i))] ++ omitempty "status" (VI_Status i) ++
              expires)).

Definition dec_int (j : json) : option Z := match j with JNum lit => ParseInt lit | _ => None end.
Record problem_details := {
  Problem_Title : string; Problem_Status : Z; Problem_Detail : string; Problem_Instance : string
}.
Definition decode_Problem (j : json) : option problem_details :=
  m ← members j; _ ← string_field "type" m; title ← string_field "title" m;
  status ← last_value dec_int 0%Z (field_values "status" m);
  detail ← string_field "detail" m; instance ← string_field "instance" m;
  Some {| Problem_Title := title; Problem_Status := status; Problem_Detail := detail;
          Problem_Instance := instance |}.

(** [{"data": [...]}], and the envelope of a created key, whose objects are
    decoded into one struct. *)
Definition decode_list {T} `{Codec T} (j : json) : option (list T) :=
  m ← members j; default [] <$> last_pointer (dec_array of_json) None (field_values "data" m).
Definition decode_CreatedVirtualKey (j : json) : option CreatedVirtualKey :=
  m ← members j;
  objects ← all_some members (field_values "virtual_key" m);
  key ← of_json (JObj (concat objects)); secret ← string_field "key" m;
  Some {| Created_VirtualKey := key; Created_Key := secret |}.

(** ** The client *)

Record DaprAPI := {
  da_client : Client; resourceAppID : string; virtualKeyAppID : string; da_adminToken : string;
  da_readable : http_response → bool
}.

Definition NewDaprAPI (client : option Client) (resourceAppID virtualKeyAppID adminToken : string)
    (readable : http_response → bool) : error + DaprAPI :=
  match client with
  | None => inl (NewError "Dapr client is required")
  | Some client =>
      let resource := TrimSpace resourceAppID in
      let keys := TrimSpace virtualKeyAppID in
      if bool_decide (resource = "") || bool_decide (keys = "") then
        inl (NewError "both control-plane app IDs are required")
      else if bool_decide (TrimSpace adminToken = "") then inl (NewError "admin token is required")
      else inr {| da_client := client; resourceAppID := resource; virtualKeyAppID := keys;
                  da_adminToken := adminToken; da_readable := readable |}
  end.

(** A failure of the gateway between the UI and a control plane. *)
Definition bad_gateway (title detail : string) (ambiguous : bool) : api_error := IsAPIError {|
  AE_Status := 502; AE_Title := title; AE_Detail := detail; AE_Instance := "";
  AE_Ambiguous := ambiguous |}.
Definition invalid_response (detail : string) (ambiguous : bool) : api_error :=
  bad_gateway "Invalid control-plane response" detail ambiguous.

Definition firstNonEmpty (values : list string) : string :=
  default "" (List.find (λ v, negb (bool_decide (v = ""))) values).

(** The error a refusal of the control plane is. *)
Definition refusal (mutation : bool) (response : http_response) : api_error :=
  let requestID := header_get "X-Request-Id" (RespHeader response) in
  let error title detail instance := IsAPIError {|
    AE_Status := StatusCode response; AE_Title := title; AE_Detail := detail; AE_Instance := instance;
    AE_Ambiguous := mutation && (500 <=? StatusCode response)%Z |} in
  let unexplained := error (StatusText (StatusCode response))
    "The administrative service rejected the request." requestID in
  match parse (RespBody response) ≫= decode_Problem with
  | Some problem =>
      if (Problem_Status problem =? 0)%Z then unexplained
      else error (Problem_Title problem) (Problem_Detail problem)
             (firstNonEmpty [Problem_Instance problem; requestID])
  | None => unexplained
  end.

(** What is made of an answer; [output] is [None] for a nil output. *)
Definition receive {A} (c : DaprAPI) (method : string) (zero : A) (output : option (json → option A))
    (response : http_response) : api_error + (A * string) :=
  let mutation := negb (bool_decide (method = "GET")) in
  let etag := header_get "Etag" (RespHeader response) in
  if negb (da_readable c response) then
    inl (invalid_response "The administrative service response could not be read." mutation)
  else if (maxControlPlaneResponse <? Z.of_nat (String.length (RespBody response)))%Z then
    inl (invalid_response "The administrative service returned an oversized response." mutation)
  else if negb (succeeded (StatusCode response)) then inl (refusal mutation response)
  else
    match output with
    | None => inr (zero, etag)
    | Some decode =>
        if (StatusCode response =? 204)%Z then inr (zero, etag)
        else if bool_decide (RespBody response = "") then
          inl (invalid_response "The administrative service returned an empty response." mutation)
        else
          match parse (RespBody response) ≫= decode with
          | Some value => inr (value, etag)
          | None => inl (invalid_response "The administrative service returned invalid JSON." mutation)
          end
    end.

(** The headers of a request. *)
Definition request_headers (c : DaprAPI) (has_input : bool) (ifMatch : string)
    : list (string * string) :=
  [("Accept", "application/json, application/problem+json");
   ("Authorization", "Bearer " +:+ da_adminToken c)] ++
  (if has_input then [("Content-Type", "application/json")] else []) ++
  (if bool_decide (ifMatch = "") then [] else [("If-Match", ifMatch)]).

(** [invokeRequest] with a marshalled input: [None] for nil, [Some None] for one
    that has no encoding.  The body of a nil input is a line break when its
    length is not to be known. *)
Definition invokeRequest {A} (c : DaprAPI) (appID method path ifMatch : string)
    (input : option (option json)) (zero : A) (output : option (json → option A)) (unknownLength : bool)
    : prog (api_error + (A * string)) :=
  let send body has_input :=
    bind_result
      (InvokeMethod (da_client c) method appID path body unknownLength
         (request_headers c has_input ifMatch))
      (λ r, mret match r with
        | inl _ => inl (bad_gateway "Control plane unavailable"
            "The administrative service could not be reached." (negb (bool_decide (method = "GET"))))
        | inr response => receive c method zero output response
        end) in
  match input with
  | Some None => mret (inl (OtherError
      (Errorf "encode control-plane request: %w" [AWrap json_text_error])))
  | Some (Some payload) => send (print payload) true
  | None => send (if unknownLength then newline else "") false
  end.

Definition requireEntityTag (etag : string) : option api_error :=
  if bool_decide (etag = "") then
    Some (invalid_response "The administrative service omitted the resource version." false)
  else None.

Definition itemPath (collection id : string) : string :=
  "/v1/" +:+ collection +:+ "/" +:+ PathEscape id.

(** The three shapes of the operations: the value, the value with its tag, and
    nothing. *)
Definition value_only {A} (p : prog (api_error + (A * string))) : prog (api_error + A) :=
  r ← p; mret match r with inl e => inl e | inr (a, _) => inr a end.
Definition versioned {A} (p : prog (api_error + (A * string))) : prog (api_error + Versioned A) :=
  r ← p;
  mret match r with
       | inl e => inl e
       | inr (a, etag) =>
           match requireEntityTag etag with
           | Some e => inl e
           | None => inr {| Value := a; ETag := etag |}
           end
       end.

(** ** The operations *)

Definition zero_User : User := {|
  User_ID := ""; User_Name := ""; User_Email := ""; User_Status := ""; User_Revision := 0;
  User_CreatedAt := zero_time; User_UpdatedAt := zero_time |}.
Definition zero_Provider : Provider := {|
  Provider_ID := ""; Provider_Slug := ""; Provider_Name := ""; Provider_Kind := "";
  Provider_AdapterAppID := ""; Provider_Status := ""; Provider_CreatedAt := zero_time;
  Provider_UpdatedAt := zero_time |}.
Definition zero_Model : Model.Model := {|
  Model_ID := ""; Model_Alias := ""; Model_ProviderID := ""; Model_UpstreamModel := "";
  Model_Status := ""; Model_Revision := 0; Model_CreatedAt := zero_time; Model_UpdatedAt := zero_time |}.
Definition zero_PublicVirtualKey : PublicVirtualKey := {|
  Pub_ID := ""; Pub_Name := ""; Pub_UserID := ""; Pub_Prefix := ""; Pub_ModelIDs := [];
  Pub_Status := ""; Pub_ExpiresAt := None; Pub_CreatedAt := zero_time; Pub_UpdatedAt := zero_time |}.
Definition zero_CreatedVirtualKey : CreatedVirtualKey :=
  {| Created_VirtualKey := zero_PublicVirtualKey; Created_Key := "" |}.

Section operations.
Context (c : DaprAPI).

(** [invoke] and [invokeWithoutRetries] with the arguments of each kind. *)
Definition read_list {T} `{Codec T} (app collection : string) : prog (api_error + list T) :=
  value_only (invokeRequest c app "GET" ("/v1/" +:+ collection) "" None [] (Some decode_list) false).
Definition read_one {T} `{Codec T} (zero : T) (app collection id : string)
    : prog (api_error + Versioned T) :=
  versioned (invokeRequest c app "GET" (itemPath collection id) "" None zero (Some of_json) false).
Definition post {T} (zero : T) (decode : json → option T) (app collection : string)
    (input : option json) : prog (api_error + T) :=
  value_only (invokeRequest c app "POST" ("/v1/" +:+ collection) "" (Some input) zero (Some decode) true).
Definition put {T} `{Codec T} (zero : T) (app collection id : string) (input : option json)
    (ifMatch : string) : prog (api_error + Versioned T) :=
  versioned (invokeRequest c app "PUT" (itemPath collection id) ifMatch (Some input) zero
    (Some of_json) true).
Definition remove (app collection id ifMatch : string) : prog (api_error + unit) :=
  value_only (invokeRequest c app "DELETE" (itemPath collection id) ifMatch None tt None true).

Definition da_ListUsers : prog (api_error + list User) := read_list (resourceAppID c) "users".
Definition da_GetUser (id : string) : prog (api_error + Versioned User) :=
  read_one zero_User (resourceAppID c) "users" id.
Definition da_CreateUser (input : UserInput) : prog (api_error + User) :=
  post zero_User of_json (resourceAppID c) "users" (UserInput_json input).
Definition da_UpdateUser (id : string) (input : UserInput) (ifMatch : string)
    : prog (api_error + Versioned User) :=
  put zero_User (resourceAppID c) "users" id (UserInput_json input) ifMatch.
Definition da_DeleteUser (id ifMatch : string) : prog (api_error + unit) :=
  remove (resourceAppID c) "users" id ifMatch.

Definition da_ListProviders : prog (api_error + list Provider) :=
  read_list (resourceAppID c) "providers".
Definition da_GetProvider (id : string) : prog (api_error + Versioned Provider) :=
  read_one zero_Provider (resourceAppID c) "providers" id.
Definition da_CreateProvider (input : ProviderInput) : prog (api_error + Provider) :=
  post zero_Provider of_json (resourceAppID c) "providers" (ProviderInput_json input).
Definition da_UpdateProvider (id : string) (input : ProviderInput) (ifMatch : string)
    : prog (api_error + Versioned Provider) :=
  put zero_Provider (resourceAppID c) "providers" id (ProviderInput_json input) ifMatch.
Definition da_DeleteProvider (id ifMatch : string) : prog (api_error + unit) :=
  remove (resourceAppID c) "providers" id ifMatch.

Definition da_ListModels : prog (api_error + list Model.Model) := read_list (resourceAppID c) "models".
Definition da_GetModel (id : string) : prog (api_error + Versioned Model.Model) :=
  read_one zero_Model (resourceAppID c) "models" id.
Definition da_CreateModel (input : ModelInput) : prog (api_error + Model.Model) :=
  post zero_Model of_json (resourceAppID c) "models" (ModelInput_json input).
Definition da_UpdateModel (id : string) (input : ModelInput) (ifMatch : string)
    : prog (api_error + Versioned Model.Model) :=
  put zero_Model (resourceAppID c) "models" id (ModelInput_json input) ifMatch.
Definition da_DeleteModel (id ifMatch : string) : prog (api_error + unit) :=
  remove (resourceAppID c) "models" id ifMatch.

Definition da_ListVirtualKeys : prog (api_error + list PublicVirtualKey) :=
  read_list (virtualKeyAppID c) "virtual-keys".
Definition da_GetVirtualKey (id : string) : prog (api_error + Versioned PublicVirtualKey) :=
  read_one zero_PublicVirtualKey (virtualKeyAppID c) "virtual-keys" id.
Definition da_CreateVirtualKey (input : VirtualKeyInput) : prog (api_error + CreatedVirtualKey) :=
  post zero_CreatedVirtualKey decode_CreatedVirtualKey (virtualKeyAppID c) "virtual-keys"
    (VirtualKeyInput_json input).
Definition da_UpdateVirtualKey (id : string) (input : VirtualKeyInput) (ifMatch : string)
    : prog (api_error + Versioned PublicVirtualKey) :=
  put zero_PublicVirtualKey (virtualKeyAppID c) "virtual-keys" id (VirtualKeyInput_json input) ifMatch.
Definition da_DeleteVirtualKey (id ifMatch : string) : prog (api_error + unit) :=
  remove (virtualKeyAppID c) "virtual-keys" id ifMatch.
End operations.

(** ** The client as the API of the UI, in a world without faults *)

Section api.
Context {S : Type} `{StateStore S} (env : environment) (c : DaprAPI).

Definition runs {A} (p : prog (api_error + A)) : stateful (world S) (api_error + A) := λ w,
  let '(r, w') := run env p w in
  (match r with inl e => inl (OtherError e) | inr r => r end, w').

Definition dapr_api : API (world S) := {|
  ListUsers := runs (da_ListUsers c); GetUser id := runs (da_GetUser c id);
  CreateUser i := runs (da_CreateUser c i); UpdateUser id i etag := runs (da_UpdateUser c id i etag);
  DeleteUser id etag := runs (da_DeleteUser c id etag);
  ListProviders := runs (da_ListProviders c); GetProvider id := runs (da_GetProvider c id);
  CreateProvider i := runs (da_CreateProvider c i);
  UpdateProvider id i etag := runs (da_UpdateProvider c id i etag);
  DeleteProvider id etag := runs (da_DeleteProvider c id etag);
  ListModels := runs (da_ListModels c); GetModel id := runs (da_GetModel c id);
  CreateModel i := runs (da_CreateModel c i); UpdateModel id i etag := runs (da_UpdateModel c id i etag);
  DeleteModel id etag := runs (da_DeleteModel c id etag);
  ListVirtualKeys := runs (da_ListVirtualKeys c); GetVirtualKey id := runs (da_GetVirtualKey c id);
  CreateVirtualKey i := runs (da_CreateVirtualKey c i);
  UpdateVirtualKey id i etag := runs (da_UpdateVirtualKey c id i etag);
  DeleteVirtualKey id etag := runs (da_DeleteVirtualKey c id etag) |}.
End api.
