(* ===== verification/AdminClientFacts.v ===== *)
(** * What the administration UI knows about an operation

    The client, a transport that carries a streamed body at most once, and the
    handlers of the control planes: what the client returns for a change tells
    whether the service carried it out, or says that this is not known. *)

From Stdlib Require Import Ascii.
From S2P Require Import Prelude GoStd Json JsonPrefix JsonRaw GoText GoNet GoTime GoFmt GoWeb Errors State Model.
From S2P Require Import Decode Results Repository Svc Service KeyService Faults System.
From S2P Require Import Session AdminView AdminUI AdminResources AdminFacts.
From S2P Require Import Platform ETag Http HttpFacts Registry Dapr DaprFacts AdminClient.

#[local] Arguments bool_decide : simpl never.

(** ** Bodies that the control planes decode as what was meant *)

Definition written {A} (to : A → option json) (dec : json → option A) (x : A) : Prop :=
  ∃ j, to x = Some j ∧ wf_json j ∧ dec j = Some x.

Definition UserInput_ok (i : UserInput) : Prop :=
  text_ok (UI_Name i) ∧ text_ok (UI_Email i) ∧ text_ok (UI_Status i).
Definition ProviderInput_ok (i : ProviderInput) : Prop :=
  text_ok (PI_Slug i) ∧ text_ok (PI_Name i) ∧ text_ok (PI_Kind i) ∧ text_ok (PI_AdapterAppID i) ∧
  text_ok (PI_Status i).
Definition ModelInput_ok (i : ModelInput) : Prop :=
  text_ok (MI_Alias i) ∧ text_ok (MI_ProviderID i) ∧ text_ok (MI_UpstreamModel i) ∧
  text_ok (MI_Status i).
Definition VirtualKeyInput_ok (i : VirtualKeyInput) : Prop :=
  text_ok (VI_Name i) ∧ text_ok (VI_UserID i) ∧ Forall text_ok (VI_ModelIDs i) ∧
  text_ok (VI_Status i) ∧ (∀ t, VI_ExpiresAt i = Some t → time_ok t).

Ltac write_status := match goal with |- context [omitempty "status" ?s] =>
  unfold omitempty; destruct (bool_decide (s = "")) eqn:?;
  [match goal with E : bool_decide (s = "") = true |- _ => apply bool_decide_eq_true in E end|] end.

Lemma UserInput_written i : UserInput_ok i → written UserInput_json decode_UserInput i.
Proof.
  destruct i as [name email status]. intros (H1 & H2 & H3). cbn in *. unfold text_ok in *. eexists.
  split; [reflexivity|]. cbn. write_status; subst; (split; [solve_wf|reflexivity]).
Qed.
Lemma ProviderInput_written i : ProviderInput_ok i → written ProviderInput_json decode_ProviderInput i.
Proof.
  destruct i as [slug name kind app status]. intros (H1 & H2 & H3 & H4 & H5). cbn in *. unfold text_ok in *.
  eexists. split; [reflexivity|]. cbn. write_status; subst; (split; [solve_wf|reflexivity]).
Qed.
Lemma ModelInput_written i : ModelInput_ok i → written ModelInput_json decode_ModelInput i.
Proof.
  destruct i as [alias provider upstream status]. intros (H1 & H2 & H3 & H4). cbn in *. unfold text_ok in *.
  eexists. split; [reflexivity|]. cbn. write_status; subst; (split; [solve_wf|reflexivity]).
Qed.

Ltac decode_fields Hm :=
  unfold decode_VirtualKeyInput, strict_fields; cbn [members mbind option_bind app];
  match goal with |- context [known_fields ?l ?m] => change (known_fields l m) with true end;
  cbv iota; unfold string_field, strings_field; eval_fields;
  cbn [last_value last_pointer dec_string dec_time dec_strings strings_json mbind option_bind fmap option_fmap];
  rewrite ?Hm; cbn [fmap option_fmap option_map mbind option_bind default from_option].

Lemma VirtualKeyInput_written i :
  VirtualKeyInput_ok i → written VirtualKeyInput_json decode_VirtualKeyInput i.
Proof.
  destruct i as [name user models status expires]. intros (H1 & H2 & H3 & H4 & H5). cbn in *.
  unfold written, VirtualKeyInput_json. cbn [VI_Name VI_UserID VI_ModelIDs VI_Status VI_ExpiresAt].
  assert (json_strings (map JStr models) = Some models) as Hm by apply json_strings_map.
  destruct expires as [t|].
  - destruct (time_json_ok t (H5 t eq_refl)) as (text & Ht & Hwt & Hp). cbn [omit_time]. rewrite Ht.
    cbn [mbind option_bind]. eexists. split; [reflexivity|]. cbn [app]. unfold text_ok in *.
    write_status; subst; (split; [cbn [app]; solve_wf|]); decode_fields Hm; by rewrite Hp.
  - cbn [omit_time mbind option_bind]. eexists. split; [reflexivity|]. unfold text_ok in *.
    write_status; subst; (split; [cbn [app]; solve_wf|]); by decode_fields Hm.
Qed.

Section facts.
Context {S : Type} `{StateStoreLaws S}.
Implicit Types w : world S.

(** ** The transport *)

(** An answer that says nothing about what happened: none, or a server error. *)
Definition lost (r : error + http_response) : Prop :=
  match r with inl _ => True | inr response => (500 <= StatusCode response)%Z end.

Definition plain_segment (s : string) : Prop := s ≠ "" ∧ s ≠ "." ∧ s ≠ "..".

(** A streamed request reaches the application at most once, with its method,
    path, body and the headers that matter; a refusal that is not a server
    error comes from the application, or nothing was delivered. *)
Definition delivers_streamed (do : transport) (base app : string)
    (serve : http_request → svc http_response) : Prop :=
  ∀ o path w r w',
    Out_Streamed o = true → path ≠ [] → Forall plain_segment path →
    Out_URL o = base +:+ method_prefix app +:+ join "/" (PathEscape <$> path) →
    exec (do o) w r w' →
    (w' = w ∧ unsuccessful r) ∨
    ∃ headers r1,
      (∀ name, name = authorization ∨ name = "If-Match" →
         header_values name headers = header_values name (Out_Header o)) ∧
      exec (atomic (serve {| Method := Out_Method o; Path := path; Header := headers;
                             Body := Out_Body o |})) w r1 w' ∧
      (r = r1 ∨ lost r).

(** ** The client *)

Definition is_change (method : string) : Prop := method ≠ "GET".
Definition unknown {A} (r : api_error + A) : Prop := ∃ e, r = inl e ∧ is_unknown e = true.

Lemma unknown_gateway title detail : is_unknown (bad_gateway title detail true) = true.
Proof. apply bool_decide_eq_true. by eexists. Qed.

Section client.
Context (c : DaprAPI).

Lemma receive_lost {A} method (zero : A) output response :
  is_change method → (500 <= StatusCode response)%Z → unknown (receive c method zero output response).
Proof.
  intros Hm Hs. unfold receive. rewrite (bool_decide_eq_false_2 _ Hm). cbn [negb].
  destruct (negb _); [eexists; split; [done|apply unknown_gateway]|].
  destruct (_ <? _)%Z; [eexists; split; [done|apply unknown_gateway]|].
  assert (succeeded (StatusCode response) = false) as ->.
  { unfold succeeded. apply andb_false_iff. right. apply Z.ltb_ge. lia. }
  cbn [negb]. eexists. split; [done|]. unfold refusal. rewrite (proj2 (Z.leb_le 500 _) Hs). cbn [andb].
  apply bool_decide_eq_true. destruct (_ ≫= _) as [p|]; [destruct (_ =? _)%Z|]; by eexists.
Qed.

Lemma receive_failed {A} method (zero : A) output response :
  succeeded (StatusCode response) = false → ∃ e, receive c method zero output response = inl e.
Proof.
  intros Hs. unfold receive. rewrite Hs. destruct (negb (da_readable _ _)); [eauto|].
  destruct (_ <? _)%Z; eauto.
Qed.

(** A success is passed on, or its outcome is unknown. *)
Lemma receive_success {A} method (zero : A) output response :
  is_change method → succeeded (StatusCode response) = true →
  unknown (receive c method zero output response) ∨
  ∃ a, receive c method zero output response = inr (a, header_get "Etag" (RespHeader response)) ∧
    match output with
    | Some decode => StatusCode response ≠ 204%Z → parse (RespBody response) ≫= decode = Some a
    | None => a = zero
    end.
Proof.
  intros Hm Hs. unfold receive. rewrite (bool_decide_eq_false_2 _ Hm), Hs. cbn [negb].
  destruct (negb _); [left; eexists; split; [done|apply unknown_gateway]|].
  destruct (_ <? _)%Z; [left; eexists; split; [done|apply unknown_gateway]|].
  destruct output as [decode|]; [|right; by eexists].
  destruct (Z.eqb_spec (StatusCode response) 204); [right; eexists; by split|].
  destruct (bool_decide (_ = "")); [left; eexists; split; [done|apply unknown_gateway]|].
  destruct (_ ≫= _) as [a|]; [right; eexists; by split|].
  left; eexists; split; [done|apply unknown_gateway].
Qed.

(** ** A request, from the client to the handler *)

Context (target : string) (serve : http_request → svc http_response).
Context (Hdo : delivers_streamed (http_do (da_client c)) (baseURL (da_client c)) target serve).

(** What a handler is given. *)
Definition arrives (method : string) (path : list string) (ifMatch body : string) (r : http_request)
    : Prop :=
  ∃ headers, r = {| Method := method; Path := path; Header := headers; Body := body |} ∧
    header_get authorization headers = "Bearer " +:+ da_adminToken c ∧
    header_values "If-Match" headers = if bool_decide (ifMatch = "") then [] else [ifMatch].

Lemma InvokeMethod_exec method path body headers w r w' :
  exec (InvokeMethod (da_client c) method target path body true headers) w r w' →
  (w' = w ∧ ∃ e, r = inl e) ∨
  exec (http_do (da_client c) {| Out_Method := method;
    Out_URL := baseURL (da_client c) +:+ invoke_endpoint target path;
    Out_Header := with_token (da_client c) headers; Out_Body := body; Out_Streamed := true |}) w r w'.
Proof.
  unfold InvokeMethod, newRequest. destruct (ParseRequestURI _); cbn [lift].
  - intros [(e & _ & [? _]%exec_Done)|(o & w1 & [[= ->] ->]%exec_Done & He)]%exec_bind; [done|]. by right.
  - intros [(e & -> & [_ ->]%exec_Done)|(o & w1 & [? _]%exec_Done & _)]%exec_bind; [|done]. left. eauto.
Qed.

Lemma header_values_cons name key value l :
  header_values name ((key, value) :: l) =
  if bool_decide (key = name) then value :: header_values name l else header_values name l.
Proof. unfold header_values. cbn. by destruct (bool_decide (key = name)). Qed.

Lemma header_values_set name key value l :
  name ≠ key → header_values name (header_set key value l) = header_values name l.
Proof.
  intros Hne. unfold header_set. rewrite header_values_cons, bool_decide_eq_false_2 by congruence.
  induction l as [|[k v] l IH]; [done|]. cbn [List.filter fst].
  destruct (bool_decide (k = key)) eqn:E; cbn [negb]; rewrite ?header_values_cons, IH; [|done].
  apply bool_decide_eq_true in E as ->. by rewrite bool_decide_eq_false_2 by congruence.
Qed.

Lemma sent_headers name has_input ifMatch :
  name ≠ "Dapr-Api-Token" →
  header_values name (with_token (da_client c) (request_headers c has_input ifMatch)) =
  header_values name (request_headers c has_input ifMatch).
Proof.
  intros Hne. unfold with_token. destruct (bool_decide _); [done|]. by apply header_values_set.
Qed.

Lemma sent_authorization has_input ifMatch :
  header_get authorization (request_headers c has_input ifMatch) = "Bearer " +:+ da_adminToken c.
Proof. unfold header_get, request_headers. cbn [app]. by rewrite !header_values_cons. Qed.
Lemma sent_condition has_input ifMatch :
  header_values "If-Match" (request_headers c has_input ifMatch) =
  if bool_decide (ifMatch = "") then [] else [ifMatch].
Proof.
  unfold request_headers. cbn [app]. rewrite !header_values_cons.
  destruct has_input; destruct (bool_decide (ifMatch = "")); reflexivity.
Qed.

(** The request of an operation, and what becomes of its answer. *)
Definition request_body (input : option json) : string :=
  match input with Some j => print j | None => newline end.

Lemma invokeRequest_exec {A} method path segs ifMatch input (zero : A) output w r w' :
  is_change method → segs ≠ [] → Forall plain_segment segs →
  invoke_endpoint target path = method_prefix target +:+ join "/" (PathEscape <$> segs) →
  exec (invokeRequest c target method path ifMatch (Some <$> input) zero output true) w r w' →
  (w' = w ∧ ∃ e, r = inr (inl e)) ∨
  ∃ req r1, arrives method segs ifMatch (request_body input) req ∧ exec (atomic (serve req)) w r1 w' ∧
    ((∃ response, r1 = inr response ∧ r = inr (receive c method zero output response)) ∨
     ∃ e, r = inr (inl e) ∧ is_unknown e = true).
Proof.
  intros Hm Hne Hsegs Hpath He.
  assert (∀ body has_input, exec (bind_result
      (InvokeMethod (da_client c) method target path body true (request_headers c has_input ifMatch))
      (λ r, mret match r with
        | inl _ => inl (bad_gateway "Control plane unavailable"
            "The administrative service could not be reached." (negb (bool_decide (method = "GET"))))
        | inr response => receive c method zero output response
        end)) w r w' → body = request_body input →
    (w' = w ∧ ∃ e, r = inr (inl e)) ∨
    ∃ req r1, arrives method segs ifMatch (request_body input) req ∧ exec (atomic (serve req)) w r1 w' ∧
      ((∃ response, r1 = inr response ∧ r = inr (receive c method zero output response)) ∨
       ∃ e, r = inr (inl e) ∧ is_unknown e = true)) as Hsend.
  { intros body has_input (r0 & w1 & Hr0 & Hr)%exec_bind_result Hb. apply exec_Done in Hr as [-> ->].
    rewrite (bool_decide_eq_false_2 _ Hm). cbn [negb].
    apply InvokeMethod_exec in Hr0 as [[-> [e ->]]|Hr0]; [left; eauto|].
    apply (Hdo _ segs) in Hr0 as [[-> Hu]|(headers & r1 & Hh & Hr1 & Hr)]; [| |done|done|done|].
    - left. split; [done|]. destruct r0 as [e|response]; [eauto|].
      destruct (receive_failed method zero output response Hu) as [e ->]. eauto.
    - right. exists {| Method := method; Path := segs; Header := headers; Body := body |}, r1.
      cbn [Out_Method Out_Body Out_Header] in *. split_and!; [|done|].
      + exists headers. rewrite Hb. split_and!; [done| |].
        * unfold header_get. rewrite (Hh authorization) by by left. rewrite sent_headers by done.
          apply (sent_authorization has_input ifMatch).
        * rewrite (Hh "If-Match") by by right. rewrite sent_headers by done. apply sent_condition.
      + destruct r0 as [e|response]; [right; eexists; split; [done|apply unknown_gateway]|].
        destruct Hr as [<-|Hr]; [left; by eexists|right].
        destruct (receive_lost method zero output response Hm Hr) as (e & -> & He'). eauto.
    - cbn [Out_URL]. by rewrite Hpath. }
  unfold invokeRequest in He. destruct input as [j|]; by apply Hsend in He.
Qed.

(** ** What a client knows *)

(** [p] settles [op]: nothing was done and it fails; or [op] ran, and a success
    is passed on or its outcome is unknown, a failure is a failure. *)
Definition settles {A B} (rel : A → B → Prop) (p : prog (api_error + A)) (op : svc B) : Prop :=
  ∀ w r w', exec p w r w' →
    (w' = w ∧ ∃ e, r = inr (inl e)) ∨
    ∃ q, exec (atomic op) w q w' ∧
      match q with
      | inr b => (∃ a, r = inr (inr a) ∧ rel a b) ∨ ∃ e, r = inr (inl e) ∧ is_unknown e = true
      | inl _ => ∃ e, r = inr (inl e)
      end.

(** A handler that runs an operation, or refuses the request before. *)
Definition handles {B} (method : string) (segs : list string) (ifMatch body : string)
    (op : svc B) (ok : string → B → http_response) : Prop :=
  ∀ req w r w', arrives method segs ifMatch body req → exec (atomic (serve req)) w r w' →
    (w' = w ∧ unsuccessful r) ∨
    ∃ id q, exec (atomic op) w q w' ∧
      r = inr (with_header "X-Request-Id" id
                 (match q with inl err => writeError id err | inr b => ok id b end)).

Lemma invoked {A B} method path segs ifMatch input (zero : A) output (op : svc B) ok w r w' :
  is_change method → segs ≠ [] → Forall plain_segment segs →
  invoke_endpoint target path = method_prefix target +:+ join "/" (PathEscape <$> segs) →
  handles method segs ifMatch (request_body input) op ok →
  exec (invokeRequest c target method path ifMatch (Some <$> input) zero output true) w r w' →
  (w' = w ∧ ∃ e, r = inr (inl e)) ∨
  ∃ q, exec (atomic op) w q w' ∧
    match q with
    | inr b => (∃ id, r = inr (receive c method zero output (with_header "X-Request-Id" id (ok id b)))) ∨
               ∃ e, r = inr (inl e) ∧ is_unknown e = true
    | inl _ => ∃ e, r = inr (inl e)
    end.
Proof.
  intros Hm Hne Hsegs Hpath Hh He.
  apply (invokeRequest_exec method path segs) in He as [?|(req & r1 & Hreq & Hr1 & Hr)]; [by left| |done..].
  destruct (Hh req w r1 w' Hreq Hr1) as [[-> Hu]|(id & q & Hq & ->)].
  - left. split; [done|]. destruct Hr as [(response & -> & ->)|(e & -> & _)]; [|eauto].
    destruct (receive_failed method zero output response Hu) as [e ->]. eauto.
  - right. exists q. split; [done|]. destruct q as [err|b].
    + destruct Hr as [(response & [= <-] & ->)|(e & -> & _)]; [|eauto].
      destruct (receive_failed method zero output (with_header "X-Request-Id" id (writeError id err))) as [e ->];
        [|eauto]. cbn [with_header StatusCode]. rewrite writeError_status.
      unfold succeeded. apply andb_false_iff. right. pose proof (error_status_range err). apply Z.ltb_ge. lia.
    + destruct Hr as [(response & [= <-] & ->)|?]; eauto.
Qed.

(** ** Answers of a successful operation *)

Lemma parse_encoded j : wf_json j → parse (print j +:+ newline) = Some j.
Proof.
  intros Hwf. unfold parse. rewrite (parse_value_print j Hwf); [done| |done].
  rewrite string_length_app. lia.
Qed.

Lemma entityETag_status {T} `{Codec T} (x : T) err : entityETag x = inl err → error_status err = 500%Z.
Proof. unfold entityETag. destruct (Marshal x); [done|]. by intros [= <-]. Qed.
Lemma entityETag_set {T} `{Codec T} (x : T) tag : entityETag x = inr tag → tag ≠ "".
Proof. unfold entityETag. destruct (Marshal x); [|done]. by intros [= <-]. Qed.

Lemma entity_received {T A} `{Codec T} method rid id status (x : T) response (zero : A) decode :
  is_change method → succeeded status = true → status ≠ 204%Z →
  let r := receive c method zero (Some decode)
             (with_header "X-Request-Id" rid (writeEntity id status x response)) in
  unknown r ∨
  ∃ a tag, r = inr (a, tag) ∧ tag ≠ "" ∧ entityETag x = inr tag ∧
    ∀ j b, response = Some j → wf_json j → decode j = Some b → a = b.
Proof.
  intros Hm Hs H204 r. unfold writeEntity in r. destruct (entityETag x) as [err|tag] eqn:Htag.
  - left. apply receive_lost; [done|]. cbn [with_header StatusCode]. rewrite writeError_status.
    by rewrite (entityETag_status x err Htag).
  - destruct (receive_success method zero (Some decode)
      (with_header "X-Request-Id" rid (with_header "Etag" tag (JSON status response))) Hm Hs)
      as [?|(a & Ha & Hdec)]; [by left|right]. exists a, tag. split_and!; [exact Ha| |done|].
    + by eapply entityETag_set.
    + intros j b -> Hwf Hb. specialize (Hdec H204). cbn [with_header JSON encoded RespBody] in Hdec.
      rewrite (parse_encoded j Hwf) in Hdec. cbn in Hdec. congruence.
Qed.

(** ** The three kinds of changes *)

Definition same {T} `{CodecLaws T} (a b : T) : Prop := storable b → a = b.
Definition same_version {T} `{CodecLaws T} (a : Versioned T) (b : T) : Prop :=
  (storable b → Value a = b) ∧ entityETag b = inr (AdminView.ETag a).

Lemma value_only_exec {A} (p : prog (api_error + (A * string))) w r w' :
  exec (value_only p) w r w' → ∃ r0, exec p w r0 w' ∧
    r = match r0 with inl e => inl e | inr (inl e) => inr (inl e) | inr (inr (a, _)) => inr (inr a) end.
Proof.
  intros [(e & -> & He)|(r0 & w1 & He & [-> ->]%exec_Done)]%exec_bind; [by exists (inl e)|].
  exists (inr r0). split; [done|]. by destruct r0 as [e|[a tag]].
Qed.
Lemma versioned_exec {A} (p : prog (api_error + (A * string))) w r w' :
  exec (versioned p) w r w' → ∃ r0, exec p w r0 w' ∧
    r = match r0 with
        | inl e => inl e
        | inr (inl e) => inr (inl e)
        | inr (inr (a, tag)) =>
            match requireEntityTag tag with
            | Some e => inr (inl e)
            | None => inr (inr {| Value := a; AdminView.ETag := tag |})
            end
        end.
Proof.
  intros [(e & -> & He)|(r0 & w1 & He & [-> ->]%exec_Done)]%exec_bind; [by exists (inl e)|].
  exists (inr r0). split; [done|]. destruct r0 as [e|[a tag]]; [done|]. by destruct (requireEntityTag tag).
Qed.

Lemma plain_segments l : Forall plain_segment l → Forall plain_segment ("v1" :: l).
Proof. intros Hl. by constructor; [split_and!|]. Qed.
Hint Resolve plain_segments : core.

(** The path of a request is that of its segments. *)
Definition path_of_segments (path : string) (segs : list string) : Prop :=
  segs ≠ [] ∧ Forall plain_segment segs ∧
  invoke_endpoint target path = method_prefix target +:+ join "/" (PathEscape <$> segs).

Lemma post_settles {B T} `{Codec T} (zero : B) decode collection input (tagged : B → T) response (op : svc B)
    (rel : B → B → Prop) :
  path_of_segments ("/v1/" +:+ collection) ["v1"; collection] →
  handles "POST" ["v1"; collection] "" (print input) op (λ id b, writeEntity id 201 (tagged b) (response b)) →
  (∀ a b, (∀ j b', response b = Some j → wf_json j → decode j = Some b' → a = b') → rel a b) →
  settles rel (post c zero decode target collection (Some input)) op.
Proof.
  intros (Hne & Hsegs & Hpath) Hh Hrel w r w' (r0 & He & ->)%value_only_exec.
  destruct (invoked "POST" _ _ _ (Some input) _ _ op _ _ _ _ ltac:(done) Hne Hsegs Hpath Hh He)
    as [[-> [e ->]]|(q & Hq & Hr)]; [left; eauto|right]. exists q. split; [done|].
  destruct q as [err|b]; [destruct Hr as [e ->]; eauto|].
  destruct Hr as [[id ->]|(e & -> & ?)]; [|right; eauto].
  destruct (entity_received "POST" id id 201 (tagged b) (response b) zero decode) as
    [(e & -> & Hu)|(a & tag & -> & _ & _ & Hv)]; [done..|right; eauto|left]. exists a. split; [done|by apply Hrel].
Qed.

Lemma put_settles {T} `{CodecLaws T} (zero : T) collection id ifMatch input (op : svc T) :
  path_of_segments (itemPath collection id) ["v1"; collection; id] →
  handles "PUT" ["v1"; collection; id] ifMatch (print input) op (λ rid b, entity rid b) →
  settles same_version (put c zero target collection id (Some input) ifMatch) op.
Proof.
  intros (Hne & Hsegs & Hpath) Hh w r w' (r0 & He & ->)%versioned_exec.
  destruct (invoked "PUT" _ _ _ (Some input) _ _ op _ _ _ _ ltac:(done) Hne Hsegs Hpath Hh He)
    as [[-> [e ->]]|(q & Hq & Hr)]; [left; eauto|right]. exists q. split; [done|].
  destruct q as [err|b]; [destruct Hr as [e ->]; eauto|].
  destruct Hr as [[rid ->]|(e & -> & ?)]; [|right; eauto]. unfold entity.
  destruct (entity_received "PUT" rid rid 200 b (to_json b) zero of_json) as
    [(e & -> & Hu)|(a & tag & -> & Htag & Het & Hv)]; [done..|right; eauto|left].
  unfold requireEntityTag. rewrite bool_decide_eq_false_2 by done. eexists. split; [done|].
  split; [|done]. intros Hb. destruct (to_json_storable b Hb) as (j & Hj & Hwf & Hof). by eapply Hv.
Qed.

Lemma remove_settles collection id ifMatch (op : svc unit) :
  path_of_segments (itemPath collection id) ["v1"; collection; id] →
  handles "DELETE" ["v1"; collection; id] ifMatch newline op (λ _, deleted) →
  settles eq (remove c target collection id ifMatch) op.
Proof.
  intros (Hne & Hsegs & Hpath) Hh w r w' (r0 & He & ->)%value_only_exec.
  destruct (invoked "DELETE" _ _ _ None _ _ op _ _ _ _ ltac:(done) Hne Hsegs Hpath Hh He)
    as [[-> [e ->]]|(q & Hq & Hr)]; [left; eauto|right]. exists q. split; [done|].
  destruct q as [err|[]]; [destruct Hr as [e ->]; eauto|].
  destruct Hr as [[rid ->]|(e & -> & ?)]; [|right; eauto].
  destruct (receive_success "DELETE" tt None (with_header "X-Request-Id" rid (deleted tt))) as
    [(e & -> & Hu)|(a & -> & _)]; [done..|right; eauto|left]. destruct a. eauto.
Qed.
End client.

(** ** The handlers of the control planes *)

(** A route that is not for a request, and the first one that is. *)
Definition misses (r : http_request) (rt : route) : Prop :=
  method_matches (rt_method rt) (Method r) = false ∨ match_path (rt_pattern rt) (Path r) "" = None.

Lemma ServeMux_route n routes rt seg id r :
  routes !! n = Some rt → Forall (misses r) (take n routes) →
  method_matches (rt_method rt) (Method r) = true → match_path (rt_pattern rt) (Path r) "" = Some seg →
  ServeMux routes id r = rt_handler rt seg id r.
Proof.
  intros Hn Hmiss Hm Hp. unfold ServeMux.
  enough (List.find (λ p, method_matches (rt_method p.1) (Method r))
    (omap (λ rt, pair rt <$> match_path (rt_pattern rt) (Path r) "") routes) = Some (rt, seg)) as -> by done.
  revert n Hn Hmiss. induction routes as [|x l IH]; intros n Hn Hmiss; [by destruct n|].
  destruct n as [|n]; cbn in Hn.
  - injection Hn as ->. cbn. rewrite Hp. cbn. by rewrite Hm.
  - cbn in Hmiss. apply list.Forall_cons in Hmiss as [Hx Hmiss]. cbn.
    destruct (match_path (rt_pattern x) (Path r) "") as [y|] eqn:Hy; cbn; [|by eapply IH].
    destruct Hx as [->|Hx]; [by eapply IH|congruence].
Qed.

Context (c : DaprAPI) (h : adminHTTP).
Context (Hadmin : BearerToken ("Bearer " +:+ da_adminToken c) = Some (adminToken h)).

Lemma respond_exec {A} id (op : svc A) ok w r w' :
  exec (atomic (respond id op ok)) w r w' → ∃ q, exec (atomic op) w q w' ∧
    r = inr (match q with inl err => writeError id err | inr a => ok a end).
Proof. intros (q & w1 & Hq & [-> ->]%exec_Done)%atomic_bind. eauto. Qed.

(** A control plane with a route for a request. *)
Lemma routed {B} routes n rt method segs seg ifMatch body (op : svc B) ok :
  routes !! n = Some rt →
  (∀ headers, Forall (misses {| Method := method; Path := segs; Header := headers; Body := body |}) (take n routes)) →
  method_matches (rt_method rt) method = true → match_path (rt_pattern rt) segs "" = Some seg →
  (∀ req id w r w', arrives c method segs ifMatch body req →
     exec (atomic (rt_handler rt seg id req)) w r w' →
     (w' = w ∧ unsuccessful r) ∨
     ∃ q, exec (atomic op) w q w' ∧ r = inr (match q with inl err => writeError id err | inr b => ok id b end)) →
  handles c (HTTPMiddleware (ServeMux routes)) method segs ifMatch body op ok.
Proof.
  intros Hn Hmiss Hm Hp Hh req w r w' Hreq (id & r1 & He & Hr)%middleware_exec.
  rewrite (ServeMux_route n routes rt seg) in He; [|done| | |].
  - destruct (Hh req id w r1 w' Hreq He) as [[-> Hu]|(q & Hq & ->)].
    + left. split; [done|]. by destruct r1; subst.
    + right. exists id, q. by subst.
  - destruct Hreq as (headers & -> & _). apply Hmiss.
  - by destruct Hreq as (headers & -> & _).
  - by destruct Hreq as (headers & -> & _).
Qed.

Lemma admitted method segs ifMatch body req next id :
  arrives c method segs ifMatch body req → admin h next id req = next id req.
Proof.
  intros (headers & -> & Ha & _). unfold admin. cbn [Header]. rewrite Ha, Hadmin.
  by rewrite (proj2 (SecureEqual_true _ _) eq_refl).
Qed.

(** The condition of a request with an entity tag, if any. *)
Definition condition (ifMatch : string) : ifMatchPrecondition :=
  {| im_present := negb (bool_decide (ifMatch = "")); im_value := ifMatch |}.
Lemma arrived_condition method segs ifMatch body req :
  arrives c method segs ifMatch body req → requestIfMatch req = condition ifMatch.
Proof.
  intros (headers & -> & _ & Hc). unfold requestIfMatch, condition. cbn [Header]. rewrite Hc.
  destruct (bool_decide (ifMatch = "")) eqn:E; [|done]. by apply bool_decide_eq_true in E as ->.
Qed.

(** A body that the client wrote is decoded as what it wrote, or refused. *)
Lemma decode_exec {A} method segs ifMatch j (i : A) dec req id next w r w' :
  wf_json j → dec j = Some i → arrives c method segs ifMatch (print j) req →
  exec (atomic (Http.decode h id dec req next)) w r w' →
  (w' = w ∧ unsuccessful r) ∨ exec (atomic (next i)) w r w'.
Proof.
  intros Hwf Hi (headers & -> & _). unfold Http.decode. cbn [Body].
  destruct (DecodeJSON dec (print j) (maxBody h)) as [e|i'] eqn:Hd.
  - intros [-> ->]%exec_Done. by left.
  - apply DecodeJSON_print in Hd as [Hd _]; [|done]. rewrite Hi in Hd. injection Hd as ->. by right.
Qed.

(** *** The routes of the changes *)

Ltac route n := eapply (routed _ n); [reflexivity|
  intros headers; cbn [take]; repeat (apply list.Forall_cons; split;
    [first [left; vm_compute; reflexivity|right; vm_compute; reflexivity]|]); apply list.Forall_nil; done|
  vm_compute; reflexivity| |].

Lemma match_id collection id : plain_segment id →
  match_path (path_id ["v1"; collection]) ["v1"; collection; id] "" = Some id.
Proof.
  intros [Hne _]. cbn. by rewrite !bool_decide_eq_true_2, (bool_decide_eq_false_2 (id = "")) by done.
Qed.

Ltac served := intros req rid w r w' Hreq He; cbn [rt_handler] in He;
  rewrite (admitted _ _ _ _ _ _ _ Hreq) in He.

Ltac with_input Hwf Hi Hreq He :=
  apply (decode_exec _ _ _ _ _ _ _ _ _ _ _ _ Hwf Hi Hreq) in He as [?|He];
  [by left|rewrite ?(arrived_condition _ _ _ _ _ Hreq) in He; right; by apply respond_exec].
Ltac without_input Hreq He :=
  cbv beta in He; rewrite ?(arrived_condition _ _ _ _ _ Hreq) in He; right; by apply respond_exec.

Section resources.
Context (service : ResourceService).
Abbreviation plane := (NewResourceHTTPHandler service h).

Lemma post_User i j : UserInput_json i = Some j → wf_json j → decode_UserInput j = Some i →
  handles c plane "POST" ["v1"; "users"] "" (print j) (Service.CreateUser service i) created.
Proof. intros _ Hwf Hi. route 2%nat; [reflexivity|]. served. with_input Hwf Hi Hreq He. Qed.
Lemma put_User id tag i j :
  plain_segment id → UserInput_json i = Some j → wf_json j → decode_UserInput j = Some i →
  handles c plane "PUT" ["v1"; "users"; id] tag (print j) (Service.updateUser service id i (condition tag)) entity.
Proof.
  intros Hid _ Hwf Hi. route 5%nat; [by apply match_id|]. served. unfold Http.updateUser in He.
  with_input Hwf Hi Hreq He.
Qed.
Lemma delete_User id tag body :
  plain_segment id →
  handles c plane "DELETE" ["v1"; "users"; id] tag body (Service.deleteUser service id (condition tag)) (λ _, deleted).
Proof.
  intros Hid. route 6%nat; [by apply match_id|]. served. unfold Http.deleteUser in He.
  without_input Hreq He.
Qed.
Lemma post_Provider i j : ProviderInput_json i = Some j → wf_json j → decode_ProviderInput j = Some i →
  handles c plane "POST" ["v1"; "providers"] "" (print j) (Service.CreateProvider service i) created.
Proof. intros _ Hwf Hi. route 7%nat; [reflexivity|]. served. with_input Hwf Hi Hreq He. Qed.
Lemma put_Provider id tag i j :
  plain_segment id → ProviderInput_json i = Some j → wf_json j → decode_ProviderInput j = Some i →
  handles c plane "PUT" ["v1"; "providers"; id] tag (print j) (Service.updateProvider service id i (condition tag)) entity.
Proof.
  intros Hid _ Hwf Hi. route 10%nat; [by apply match_id|]. served. unfold Http.updateProvider in He.
  with_input Hwf Hi Hreq He.
Qed.
Lemma delete_Provider id tag body :
  plain_segment id →
  handles c plane "DELETE" ["v1"; "providers"; id] tag body (Service.deleteProvider service id (condition tag)) (λ _, deleted).
Proof.
  intros Hid. route 11%nat; [by apply match_id|]. served. unfold Http.deleteProvider in He.
  without_input Hreq He.
Qed.
Lemma post_Model i j : ModelInput_json i = Some j → wf_json j → decode_ModelInput j = Some i →
  handles c plane "POST" ["v1"; "models"] "" (print j) (Service.CreateModel service i) created.
Proof. intros _ Hwf Hi. route 12%nat; [reflexivity|]. served. with_input Hwf Hi Hreq He. Qed.
Lemma put_Model id tag i j :
  plain_segment id → ModelInput_json i = Some j → wf_json j → decode_ModelInput j = Some i →
  handles c plane "PUT" ["v1"; "models"; id] tag (print j) (Service.updateModel service id i (condition tag)) entity.
Proof.
  intros Hid _ Hwf Hi. route 15%nat; [by apply match_id|]. served. unfold Http.updateModel in He.
  with_input Hwf Hi Hreq He.
Qed.
Lemma delete_Model id tag body :
  plain_segment id →
  handles c plane "DELETE" ["v1"; "models"; id] tag body (Service.deleteModel service id (condition tag)) (λ _, deleted).
Proof.
  intros Hid. route 16%nat; [by apply match_id|]. served. unfold Http.deleteModel in He.
  without_input Hreq He.
Qed.
End resources.

Section keys.
Context (keys : domain) (appToken : string).
Abbreviation plane := (NewVirtualKeyHTTPHandler h keys appToken).

Lemma post_VirtualKey i j : VirtualKeyInput_json i = Some j → wf_json j → decode_VirtualKeyInput j = Some i →
  handles c plane "POST" ["v1"; "virtual-keys"] "" (print j) (KeyService.CreateVirtualKey keys i) (λ id key, writeEntity id 201 (Created_VirtualKey key) (created_key_json key)).
Proof. intros _ Hwf Hi. route 2%nat; [reflexivity|]. served. with_input Hwf Hi Hreq He. Qed.
Lemma put_VirtualKey id tag i j :
  plain_segment id → VirtualKeyInput_json i = Some j → wf_json j → decode_VirtualKeyInput j = Some i →
  handles c plane "PUT" ["v1"; "virtual-keys"; id] tag (print j) (KeyService.updateVirtualKey keys id i (condition tag)) entity.
Proof.
  intros Hid _ Hwf Hi. route 5%nat; [by apply match_id|]. served. unfold Http.updateVirtualKey in He.
  with_input Hwf Hi Hreq He.
Qed.
Lemma delete_VirtualKey id tag body :
  plain_segment id →
  handles c plane "DELETE" ["v1"; "virtual-keys"; id] tag body (KeyService.deleteVirtualKey keys id (condition tag)) (λ _, deleted).
Proof.
  intros Hid. route 6%nat; [by apply match_id|]. served. unfold Http.deleteVirtualKey in He.
  without_input Hreq He.
Qed.
End keys.

(** *** The whole client *)

Lemma collection_path target collection :
  plain_segment collection → PathEscape collection = collection → 
  path_of_segments target ("/v1/" +:+ collection) ["v1"; collection].
Proof.
  intros Hc He. split_and!; [done|by apply plain_segments; repeat (apply List.Forall_cons; [done|])|].
  unfold invoke_endpoint, method_prefix.
  rewrite !string_app_assoc. cbn. by rewrite He.
Qed.
Lemma item_path target collection id :
  plain_segment collection → plain_segment id → PathEscape collection = collection →
  path_of_segments target (itemPath collection id) ["v1"; collection; id].
Proof.
  intros Hc Hid He. split_and!; [done|by apply plain_segments; repeat (apply List.Forall_cons; [done|])|].
  unfold invoke_endpoint, method_prefix, itemPath.
  rewrite !string_app_assoc. cbn. by rewrite He.
Qed.

Context (service : ResourceService) (keys : domain) (appToken : string).
Context (Hresources : delivers_streamed (http_do (da_client c)) (baseURL (da_client c)) (resourceAppID c)
           (NewResourceHTTPHandler service h)).
Context (Hkeys : delivers_streamed (http_do (da_client c)) (baseURL (da_client c)) (virtualKeyAppID c)
           (NewVirtualKeyHTTPHandler h keys appToken)).

Definition same_created (a b : CreatedVirtualKey) : Prop :=
  storable (Created_VirtualKey b) → text_ok (Created_Key b) → a = b.

Lemma created_key_read key j :
  storable (Created_VirtualKey key) → text_ok (Created_Key key) → created_key_json key = Some j →
  wf_json j ∧ decode_CreatedVirtualKey j = Some key.
Proof.
  destruct key as [public secret]. cbn [Created_VirtualKey Created_Key]. intros Hp Hs. destruct (to_json_storable public Hp) as (pj & Hpj & Hwf & Hof).
  unfold created_key_json. cbn [Created_VirtualKey Created_Key]. rewrite Hpj. cbn. intros [= <-].
  unfold text_ok in Hs. split; [solve_wf; exact Hwf|].
  assert (∃ m, pj = JObj m) as [m ->].
  { unfold to_json, PublicVirtualKey_Codec, mbind, option_bind in Hpj. destruct (omit_time _ _); [|done].
    destruct (time_json (Pub_CreatedAt public)); [|done]. destruct (time_json (Pub_UpdatedAt public)); [|done].
    injection Hpj as <-. eauto. }
  unfold decode_CreatedVirtualKey. cbn [members mbind option_bind]. unfold string_field. eval_fields.
  cbn [all_some members mbind option_bind concat last_value dec_string]. rewrite app_nil_r.
  by rewrite Hof.
Qed.

(** C39.  What the client of the administration UI knows after a change.  The
    transport carries a streamed request at most once, and a refusal that is
    not a server error comes from the control plane or means that nothing was
    delivered.  Then, for every creation, update and deletion of a user, a
    provider, a model and a virtual key, with whatever faults inside the
    control plane: a reported success means that the service carried the
    operation out, on exactly the input that was sent and under the entity tag
    that was sent, and the reported resource, secret and tag are its answer; a
    failure that is not called ambiguous means that the service was not asked
    or refused. *)
Theorem admin_outcomes_known :
  ((∀ i, UserInput_ok i → settles same (da_CreateUser c i) (Service.CreateUser service i)) ∧
   (∀ id i tag, plain_segment id → UserInput_ok i →
      settles same_version (da_UpdateUser c id i tag) (Service.updateUser service id i (condition tag))) ∧
   (∀ id tag, plain_segment id →
      settles eq (da_DeleteUser c id tag) (Service.deleteUser service id (condition tag)))) ∧
  ((∀ i, ProviderInput_ok i → settles same (da_CreateProvider c i) (Service.CreateProvider service i)) ∧
   (∀ id i tag, plain_segment id → ProviderInput_ok i →
      settles same_version (da_UpdateProvider c id i tag) (Service.updateProvider service id i (condition tag))) ∧
   (∀ id tag, plain_segment id →
      settles eq (da_DeleteProvider c id tag) (Service.deleteProvider service id (condition tag)))) ∧
  ((∀ i, ModelInput_ok i → settles same (da_CreateModel c i) (Service.CreateModel service i)) ∧
   (∀ id i tag, plain_segment id → ModelInput_ok i →
      settles same_version (da_UpdateModel c id i tag) (Service.updateModel service id i (condition tag))) ∧
   (∀ id tag, plain_segment id →
      settles eq (da_DeleteModel c id tag) (Service.deleteModel service id (condition tag)))) ∧
  ((∀ i, VirtualKeyInput_ok i →
      settles same_created (da_CreateVirtualKey c i) (KeyService.CreateVirtualKey keys i)) ∧
   (∀ id i tag, plain_segment id → VirtualKeyInput_ok i →
      settles same_version (da_UpdateVirtualKey c id i tag)
        (KeyService.updateVirtualKey keys id i (condition tag))) ∧
   (∀ id tag, plain_segment id →
      settles eq (da_DeleteVirtualKey c id tag) (KeyService.deleteVirtualKey keys id (condition tag)))).
Proof.
  assert (∀ {T} `{CodecLaws T} (a b : T), (∀ j b', to_json b = Some j → wf_json j → of_json j = Some b' → a = b') →
    same a b) as Hsame.
  { intros T C L a b Hab Hb. destruct (to_json_storable b Hb) as (j & Hj & Hwf & Hof). eauto. }
  split_and!.
  - intros i (j & Hj & Hwf & Hd)%UserInput_written. unfold da_CreateUser. rewrite Hj.
    eapply post_settles with (tagged := λ x, x) (response := to_json);
      [exact Hresources|by apply collection_path|by apply (post_User _ i)|by apply Hsame].
  - intros id i tag Hid (j & Hj & Hwf & Hd)%UserInput_written. unfold da_UpdateUser. rewrite Hj.
    eapply put_settles; [exact Hresources|by apply item_path|by apply (put_User _ id tag i)].
  - intros id tag Hid. eapply remove_settles; [exact Hresources|by apply item_path|by apply delete_User].
  - intros i (j & Hj & Hwf & Hd)%ProviderInput_written. unfold da_CreateProvider. rewrite Hj.
    eapply post_settles with (tagged := λ x, x) (response := to_json);
      [exact Hresources|by apply collection_path|by apply (post_Provider _ i)|by apply Hsame].
  - intros id i tag Hid (j & Hj & Hwf & Hd)%ProviderInput_written. unfold da_UpdateProvider. rewrite Hj.
    eapply put_settles; [exact Hresources|by apply item_path|by apply (put_Provider _ id tag i)].
  - intros id tag Hid. eapply remove_settles; [exact Hresources|by apply item_path|by apply delete_Provider].
  - intros i (j & Hj & Hwf & Hd)%ModelInput_written. unfold da_CreateModel. rewrite Hj.
    eapply post_settles with (tagged := λ x, x) (response := to_json);
      [exact Hresources|by apply collection_path|by apply (post_Model _ i)|by apply Hsame].
  - intros id i tag Hid (j & Hj & Hwf & Hd)%ModelInput_written. unfold da_UpdateModel. rewrite Hj.
    eapply put_settles; [exact Hresources|by apply item_path|by apply (put_Model _ id tag i)].
  - intros id tag Hid. eapply remove_settles; [exact Hresources|by apply item_path|by apply delete_Model].
  - intros i (j & Hj & Hwf & Hd)%VirtualKeyInput_written. unfold da_CreateVirtualKey. rewrite Hj.
    eapply post_settles with (tagged := Created_VirtualKey) (response := created_key_json);
      [exact Hkeys|by apply collection_path|by apply (post_VirtualKey _ _ i)|].
    intros a b Hab Hb Hs. destruct (to_json_storable _ Hb) as (pj & Hpj & _).
    assert (∃ j, created_key_json b = Some j) as [j' Hj'].
    { unfold created_key_json. rewrite Hpj. cbn. eauto. }
    destruct (created_key_read b j' Hb Hs Hj') as [Hw Hdj]. eauto.
  - intros id i tag Hid (j & Hj & Hwf & Hd)%VirtualKeyInput_written. unfold da_UpdateVirtualKey. rewrite Hj.
    eapply put_settles; [exact Hkeys|by apply item_path|by apply (put_VirtualKey _ _ id tag i)].
  - intros id tag Hid. eapply remove_settles; [exact Hkeys|by apply item_path|by apply delete_VirtualKey].
Qed.
End facts.

(** ** Two control planes in the caller's process *)

Definition hex_digit (c : ascii) : N := default 0%N (hex_val c).
(** [url.PathUnescape] of what [PathEscape] made. *)
Fixpoint PathUnescape (s : string) : string :=
  match s with
  | String "%" (String a (String b s')) => String (chr (16 * hex_digit a + hex_digit b)) (PathUnescape s')
  | String c s' => String c (PathUnescape s')
  | EmptyString => ""
  end.

Definition escaped (c : ascii) : string := if segment_char c then String c "" else percent c.
Lemma unescape_char c s : PathUnescape (escaped c +:+ s) = String c (PathUnescape s).
Proof. destruct c as [[] [] [] [] [] [] [] []]; reflexivity. Qed.
Lemma escaped_char c : contains_byte "/" (escaped c) = false ∧ escaped c ≠ "".
Proof. destruct c as [[] [] [] [] [] [] [] []]; split; (reflexivity || discriminate). Qed.

Lemma unescape_escape s : PathUnescape (PathEscape s) = s.
Proof. induction s as [|c s IH]; [done|]. cbn [PathEscape]. fold (escaped c). by rewrite unescape_char, IH. Qed.
Lemma escaped_segment s : plain_segment s → segment (PathEscape s).
Proof.
  intros [Hne _]. split.
  - destruct s as [|c s]; [done|]. cbn [PathEscape]. destruct (escaped_char c) as [_ Hc].
    unfold escaped in Hc. destruct (if segment_char c then _ else _); [done|discriminate].
  - clear Hne. induction s as [|c s IH]; [done|]. cbn [PathEscape]. fold (escaped c). rewrite Decode.contains_app, IH.
    by rewrite (proj1 (escaped_char c)).
Qed.

Lemma escaped_path path : path ≠ [] → Forall plain_segment path →
  PathUnescape <$> path_of (join "/" (PathEscape <$> path)) = path.
Proof.
  intros Hne Hsegs. assert (Forall segment (PathEscape <$> path)) as Hall.
  { rewrite Forall_fmap. eapply list.Forall_impl; [exact Hsegs|]. intros x Hx. by apply escaped_segment. }
  destruct path as [|p ps]; [done|]. rewrite fmap_cons in *. rewrite path_of_join by done.
  rewrite <- fmap_cons, <- list_fmap_compose. rewrite <- (list_fmap_id (p :: ps)) at 2.
  apply list_fmap_ext. intros i x _. apply unescape_escape.
Qed.

Section local.
Context {S : Type} `{StateStoreLaws S}.

Definition deliver (serve : http_request → svc http_response) (o : outgoing) (rest : string)
    : prog http_response :=
  atomic (serve {| Method := Out_Method o; Path := PathUnescape <$> path_of rest;
                   Header := Out_Header o; Body := Out_Body o |}).

(** A sidecar that never fails, in front of two applications. *)
Definition local_planes (base app1 app2 : string) (serve1 serve2 : http_request → svc http_response)
    : transport := λ o,
  match CutPrefix (base +:+ method_prefix app1) (Out_URL o) with
  | Some rest => deliver serve1 o rest
  | None =>
      match CutPrefix (base +:+ method_prefix app2) (Out_URL o) with
      | Some rest => deliver serve2 o rest
      | None => Done (inr (no_body 404))
      end
  end.

Lemma delivered serve o path w r w' :
  path ≠ [] → Forall plain_segment path →
  exec (deliver serve o (join "/" (PathEscape <$> path))) w r w' →
  ∃ headers r1,
    (∀ name, name = authorization ∨ name = "If-Match" →
       header_values name headers = header_values name (Out_Header o)) ∧
    exec (atomic (serve {| Method := Out_Method o; Path := path; Header := headers;
                           Body := Out_Body o |})) w r1 w' ∧ (r = r1 ∨ lost r).
Proof.
  intros Hne Hsegs He. exists (Out_Header o), r. split_and!; [done| |by left].
  unfold deliver in He. by rewrite escaped_path in He.
Qed.

Lemma local_planes_first base app1 app2 serve1 serve2 :
  delivers_streamed (local_planes base app1 app2 serve1 serve2) base app1 serve1.
Proof.
  intros o path w r w' _ Hne Hsegs Hurl He. right. unfold local_planes in He.
  rewrite Hurl, <- string_app_assoc, CutPrefix_own in He. by eapply delivered.
Qed.
Lemma local_planes_second base app1 app2 serve1 serve2 :
  (∀ rest, CutPrefix (base +:+ method_prefix app1) (base +:+ method_prefix app2 +:+ rest) = None) →
  delivers_streamed (local_planes base app1 app2 serve1 serve2) base app2 serve2.
Proof.
  intros Hother o path w r w' _ Hne Hsegs Hurl He. right. unfold local_planes in He.
  rewrite Hurl, Hother, <- string_app_assoc, CutPrefix_own in He. by eapply delivered.
Qed.
End local.

Module ClientSample.
Definition base : string := "http://127.0.0.1:3500".
Definition planes : transport := local_planes base "gwai-control" "gwai-keys"
  (NewResourceHTTPHandler HttpSample.service HttpSample.h)
  (NewVirtualKeyHTTPHandler HttpSample.h KeyState "token").
Definition made : error + DaprAPI :=
  NewDaprAPI (Some (New base "" planes)) " gwai-control" "gwai-keys" "secret" (λ _, true).
Definition c : DaprAPI := {|
  da_client := New base "" planes; resourceAppID := "gwai-control"; virtualKeyAppID := "gwai-keys";
  da_adminToken := "secret"; da_readable := λ _, true |}.
Example made_client : made = inr c.
Proof. reflexivity. Qed.
End ClientSample.

Lemma admin_outcomes_known_witness :
  plain_segment "u 1" ∧
  settles (S := Memory.MemoryStore) eq (da_DeleteUser ClientSample.c "u 1" "tag")
    (Service.deleteUser HttpSample.service "u 1" (condition "tag")).
Proof.
  assert (plain_segment "u 1") as Hid by (split_and!; discriminate). split; [exact Hid|].
  refine (proj2 (proj2 (proj1 (admin_outcomes_known ClientSample.c HttpSample.h _ HttpSample.service
    KeyState "token" _ _))) "u 1" "tag" Hid).
  - reflexivity.
  - apply local_planes_first.
  - apply local_planes_second. reflexivity.
Defined.
